(* ===== verification/_CoqProject ===== *)
-Q . S2P
Prelude.v
GoHeap.v
Types.v
Event.v
SendQueue.v
AlarmMgr.v
Wpan.v
GoFloat.v
FloatMono.v
State.v
Energy.v
Visualize.v
DNode.v
RadioNode.v
RadioModel.v
RadioLaws.v
Rloc16Map.v
Coaps.v
GoStrings.v
Pcap.v
Dispatcher.v
DispatcherIndex.v
DispatcherTime.v
DispatcherSend.v
DispatcherDeliver.v
DispatcherClock.v
DispatcherPace.v
EventsReader.v
Datagram.v
SimHosts.v
GoText.v
SafePath.v
GoDuration.v
Visualizers.v
GrpcVisualizer.v
GrpcLaws.v
DispatcherVis.v
NodeConfig.v
Uart.v
SimNode.v
Simulation.v
Logger.v
GlobalLog.v
NodeProcess.v
Kpi.v
DispatcherNodes.v
Lifecycle.v
LifecycleLaws.v
ReplayFile.v
ProgCtx.v
CliSelect.v
Help.v
CmdRunner.v
CmdRunnerLaws.v
VisSafety.v
RunCli.v
Main.v
