(* ===== verification/Prelude.v ===== *)
(** * OTNS: verification of the OpenThread network simulator

    OTNS (Go) simulates Thread networks in virtual time.  Every node is an OpenThread
    process.  The dispatcher (src/dispatcher) owns the simulation time, receives the
    events that nodes send over sockets, keeps future events in queues, advances the time
    to the next one, lets a radio model (src/radiomodel) decide who hears a frame, and
    writes messages to the nodes.  The simulation (src/simulation) starts and ends the
    processes, talks to their command lines, and drives the dispatcher; the dispatcher
    calls it back.  A command line (src/cli) executes the user's commands on the simulation,
    and visualizers (src/visualize) show it.  Energy accounting (src/energy), frame dissection (src/dissectpkt),
    capture files (src/pcap), logs (src/logger) and statistics hang on these two.

    ** The files

    Foundations
    - [Prelude]: Go run-time failures as the monad [res], machine integers, slices and
      byte strings, and the lemmas they share.  [State]: the monad [st] of methods that
      mutate their receiver, with Hoare triples and the tactics [st_inv] and [pres].
      [GoHeap]: container/heap over any queue.  [GoFloat], [GoStrings], [GoText]: the parts
      of float64, strings, strconv and fmt that the sources use.  [FloatMono]: rounding to a
      float64 and multiplying by one are monotone.  [GoDuration]: the parsing of durations.
    - [Types] (src/types), [Event] (src/event): data and the wire format.

    Parts of the dispatcher
    - [SendQueue] (send_queue.go) and [AlarmMgr] (alarm_mgr.go): the two queues of future
      work.  [AlarmMgr] keeps the alarm events in a store of shared objects, because the
      map and the heap point to the same ones and the heap writes their index fields.
    - [DNode] (FailureCtrl.go, Node.go): a node's failure schedule, ping and joiner
      bookkeeping.  [Rloc16Map], [Coaps] (rloc16_map.go, coaps.go).
    - [Wpan] (src/dissectpkt): IEEE 802.15.4 headers.  [Energy] (src/energy).
      [Visualize] (types.go of src/visualize): the calls made on a visualizer, the interface
      as a class, and the protocol of the calls: which nodes exist when.  [Pcap] (src/pcap and the goroutine
      that writes frames).
    - [RadioNode] (radionode.go, model_params.go, pathloss_model.go, ber_model.go,
      fading_model.go, utils.go), [RadioModel] (radiomodel.go, radiomodelIdeal.go,
      radiomodelMutualInterference.go): a class [RadioModel] for the Go interface, its two
      instances in the modules [Ideal] and [MutualInterference], and in [RadioLaws] the
      class [RadioModelLaws] of what the dispatcher relies on, with its instances.

    The dispatcher
    - [Dispatcher] (dispatcher.go, stats.go and [sendEvent] of Node.go): the state as one
      record, one definition per method over [st (Dispatcher M)] for any radio model [M],
      the simulation loops, and the reachable states.  [EventsReader]: the goroutine that
      reads a socket.
    - [DispatcherIndex], [DispatcherTime], [DispatcherSend], [DispatcherDeliver],
      [DispatcherClock], [DispatcherPace], [DispatcherNodes]: its theorems, all proved against the class
      [RadioModelLaws] only.

    The simulation
    - [Datagram] (utils.go): IPv6 and UDP datagrams.  [SimHosts] (sim_hosts.go): simulated
      hosts.  [NodeConfig] (node_config.go, types.go, simulation_io.go): configurations of
      nodes, placement, network files.
    - [Uart] and [SimNode] (node.go): a node object and its command line.  [NodeProcess]
      (node.go): starting the process and reading its output.  [Logger] (nodelogger.go, parse.go) and
      [GlobalLog] (logger.go of src/logger): the logs of nodes and of the program.
    - [Simulation] (simulation.go): node ids and autogo.  [Kpi] (kpi.go, kpi_data.go):
      key performance indicators.  [SafePath] (kpi.go): which files a user may name.
    - [Lifecycle] (simulation.go, kpi.go): the simulation object and the dispatcher
      together: adding and deleting nodes, callbacks, posted tasks, and the reachable
      states of the whole.  [LifecycleLaws]: its theorems.

    Visualizers
    - [Visualizers] (nop, multi and statslog), [GrpcVisualizer] (grpcField.go, grpcNode.go,
      grpcStream.go, grpcServer.go, grpcVisualizer.go): the implementations; [GrpcLaws] has
      the theorems on the latter.  [ReplayFile] (replay.go and the player of
      src/cmd/otns-replay): the recording of the events and its playing.
    - [DispatcherVis]: the calls the dispatcher makes keep to the protocol.  [VisSafety]: so
      do those of the whole program.

    The command line
    - [CliSelect] (types.go and the node selectors of CmdRunner.go in src/cli): which nodes a
      command is about, and which lines are for a node.  [CmdRunner] (CmdRunner.go, ast.go,
      and import and export of simulation_io.go): the commands executed on the simulation.
      [CmdRunnerLaws]: their theorems.  [Help] (help.go): the texts of help.  [RunCli]
      (runcli.go): the loop that reads lines from the terminal.  [ProgCtx] (src/progctx): the
      context by which the parts of the program are told to end.  [Main] (src/otns_main, src/prng,
      nodescript_parser.go and the default configurations): from the arguments of the program to
      the simulation, and the random numbers.

    ** What the theorems show

    - Whole system: in every reachable state the simulation and the dispatcher have the
      same nodes and the dispatcher's indexes are consistent; adding a node either adds it
      to both or leaves it in neither; the nesting of such calls is bounded.
    - Command line: all this also holds for every sequence of commands; a selection is the
      sorted list of the nodes that are meant; del deletes exactly the nodes selected; loading
      a network beside another keeps the nodes that exist; an answer ends once, with its
      last line; the terminal executes every line that is a command, in order, until it is told
      to leave; the help of a command is the text of its section of the manual; radioparam changes
      the parameter that it names and no other; a file that the user names lies in the working
      directory, wherever symbolic links lead.
    - Start of the program: every configuration made from arguments is one that the simulation
      starts with; the seeds of nodes depend on the root seed and their order only.
    - Visualizers: no call of the program makes a visualizer fail; a client that connects
      late to the gRPC server shows the same as one that was there from the start; a
      recording plays what was recorded; the rows of the statistics file have a value for
      every node.
    - End of the program: no panic and no failed assertion ends it without a message in the
      log; the functions deferred to it run once, however often and from
      wherever it is cancelled.
    - Queues: the alarm manager implements a map from nodes to times, with its next alarm
      the least one; the event queue returns events in time order, and in node order as
      long as no node is deleted.
    - Formats: events, frame headers, capture files and network files survive a round
      trip; incomplete events are recognized up to 64 KB; datagrams carry a valid checksum.
    - Nodes: the failure controller never panics when used on a working node and its
      cycles are periodic; join results are the right ones; a command returns the lines
      that the node answered; configurations of every type are consistent.
    - Radio: a transmission produces its four events and leaves the statistics balanced;
      interference is recorded in both directions; a new radio model takes over every node.
    - Energy: the time charged to each radio state is exactly the time spent in it.
    - Dispatcher: in every reachable state the indexes by id, extended address, short
      address, array position and alarm agree, and nothing is scheduled in the past; a
      simulated period ends at its end with nothing due left; while it runs, the simulation
      is never ahead of the time that the wall clock and the speed allow; a message brings a node to
      the current time and carries exactly the elapsed delay; a frame is written only to
      the nodes it is addressed to, never to its sender or to a failed node; statistics
      windows tile the time; the clock conversion ends.
    - Hosts, logs: answers of a host go back to the node that asked; log entries are written
      in order and none is lost.
    - Some theorems show behaviour that is hardly intended; the doc comment says so.

    ** Modelling choices

    Integers are [Z] with Go's wrap-around written out ([u64], [u16], [to_signed]); a
    panic of Go is [Panic].  Pointers that are shared are locations ([nat]) of a store.
    Effects on the outside (socket writes, visualizer calls, callbacks, recorded frames)
    are appended to an output list ([d_out], [sn_out], [sh_out]).  The dispatcher's
    callbacks to the simulation are taken from that list and made after the operation
    that caused them; the one whose answer matters, [OnNewNodeDetected], is made in place.
    The program's log output is left out, except that of node logs in [Logger]; [GlobalLog]
    models the log by itself.

    Code outside the repository is a parameter: math functions and random number
    generators ([RadioEnv]), the outcome of socket writes, the order of map iteration and
    the drawn failure times ([DispEnv], [HostEnv]), files and processes ([FsEnv], [OsEnv],
    [FileEnv], [LogEnv]), what a node process answers ([CliEnv]), what arrives while the
    simulation waits ([s_waits]), the parser of commands and the
    files they name ([CmdEnv]), whether a stream or the statistics file takes what is
    written ([StreamEnv], [CsvEnv]), the text form of events ([ReplayEnv]), the functions
    that the parts of the program defer ([CtxEnv]), directories and symbolic links ([PathEnv]), the
    formatting of messages and what the log library does after an entry ([ZapEnv]), the
    environment of the process ([MainEnv]), what happens while the command go waits
    ([go_waits], [go_queued] of [CmdEnv]), and how much time passes between two
    readings of the wall clock ([clock_step]; the clock itself is the field [d_now], which
    sleeping advances).  Theorems about the pace hold for the first 50 days of the program,
    while a float64 holds the microseconds that passed exactly.  [RadioEnvOk] and [StreamEnvOk] say that ranging over a map visits its entries,
    [ReplayEnvOk] that the text of an event is one line that reads back as the event.
    [PathEnvOk] says that .. in a path names the parent, and [ZapEnvOk] that the log library panics
    or exits after an entry of these levels.
    What a client of the gRPC server shows is the specification [View], which is no code of
    the repository's Go part.

    Loops that are not structural take fuel.  The conversion of node clocks
    ([convertNodeMilliTime]), the statistics windows ([updateTimeWindowStats]), reading
    lines ([expect_fuel]) and heap operations compute enough fuel themselves, and their
    theorems show that it is enough; the fuel for nested [AddNode] is the number of waits
    that find something, and [AddNode_nesting] shows that more changes nothing; [Cancel]
    takes 2, and [Cancel_nesting] shows that more changes nothing; a buffered write takes 3
    turns ([loop_ok]).  The loops
    over events of one instant take the fuel as an argument: they need not end, as
    [processNextEvents_stuck] shows, so a theorem about them speaks of the runs that
    return.  [Logger] takes fuel because its functions call each other; [log_lossless]
    says how much is enough while writing works.

    ** Not modelled

    Replacing the visualizer at run time, stopping the simulation and its goroutines (but see
    [ProgCtx]), the parser of commands (a library that reads the grammar from struct tags), the
    connections of the gRPC server and the web server, reading of YAML, the handling of signals,
    generated code and tests. *)

From Stdlib Require Export ZArith Lia Bool.
From stdpp Require Export base gmap list sets strings sorting.

#[export] Set Default Goal Selector "!".

(** ** Go run-time failures

    A Go function either returns or panics.  The panics the sources can raise are
    the logger's assertions, an index or slice bound out of range, the use of a nil
    pointer and an explicit [logger.Panicf].  The other two are no panics: [Blocked] is a
    send on a full channel that nobody reads, and [OutOfFuel] is what a loop modelled with
    fuel returns when the fuel is spent, so that a theorem which concludes [Ok] also shows
    that the loop ends within the fuel. *)
Inductive panic :=
| AssertFailed
| IndexOutOfRange
| NilDereference
| Panicf
| Blocked
| OutOfFuel.

Inductive res (A : Type) :=
| Ok (a : A)
| Panic (p : panic).
Arguments Ok {A} a.
Arguments Panic {A} p.
#[export] Instance Ok_inj {A} : Inj (=) (=) (@Ok A).
Proof. intros x y H. by injection H. Qed.

#[export] Instance panic_eq_dec : EqDecision panic.
Proof. solve_decision. Defined.

#[export] Instance res_ret : MRet res := fun A a => Ok a.
#[export] Instance res_bind : MBind res := fun A B f m =>
  match m with Ok a => f a | Panic p => Panic p end.
#[export] Instance res_fmap : FMap res := fun A B f m =>
  match m with Ok a => Ok (f a) | Panic p => Panic p end.

(** [logger.AssertTrue] *)
Definition assert_true (b : bool) : res () := if b then Ok tt else Panic AssertFailed.
(** Use of a pointer that may be nil. *)
Definition deref {A} (o : option A) : res A :=
  match o with Some a => Ok a | None => Panic NilDereference end.
(** [logger.AssertNotNil] *)
Definition assert_not_nil {A} (o : option A) : res A :=
  match o with Some a => Ok a | None => Panic AssertFailed end.
(** [l[i]] on a Go slice. *)
Definition index {A} (l : list A) (i : nat) : res A :=
  match l !! i with Some a => Ok a | None => Panic IndexOutOfRange end.
(** [l[lo:hi]] on a Go slice whose capacity is its length. *)
Definition slice {A} (l : list A) (lo hi : nat) : res (list A) :=
  if bool_decide (lo <= hi <= length l)%nat then Ok (take (hi - lo) (drop lo l))
  else Panic IndexOutOfRange.
(** [copy(dst[off:], src)]: as many elements as fit. *)
Definition copy_at {A} (dst : list A) (off : nat) (src : list A) : list A :=
  take off dst ++ take (length dst - off) src ++ drop (off + length src) dst.

(** ** Fixed-width integers

    A [w]-bit unsigned integer is a [Z] in [0, 2^w); arithmetic wraps around. *)
Definition u8 (z : Z) : Z := (z mod 2 ^ 8)%Z.
Definition u16 (z : Z) : Z := (z mod 2 ^ 16)%Z.
Definition u32 (z : Z) : Z := (z mod 2 ^ 32)%Z.
Definition u64 (z : Z) : Z := (z mod 2 ^ 64)%Z.
Definition in_u (w z : Z) : Prop := (0 <= z < 2 ^ w)%Z.
Definition in_s (w z : Z) : Prop := (- 2 ^ (w - 1) <= z < 2 ^ (w - 1))%Z.
(** Two's complement reading of a [w]-bit pattern. *)
Definition to_signed (w z : Z) : Z :=
  let r := (z mod 2 ^ w)%Z in if (r <? 2 ^ (w - 1))%Z then r else (r - 2 ^ w)%Z.

(** ** Little- and big-endian byte strings ([encoding/binary]) *)
Fixpoint le_put (n : nat) (z : Z) : list Z :=
  match n with
  | O => []
  | S n => (z mod 256)%Z :: le_put n (z / 256)%Z
  end.
Fixpoint le_get (l : list Z) : Z :=
  match l with
  | [] => 0%Z
  | b :: l => (b + 256 * le_get l)%Z
  end.
Definition be_put (n : nat) (z : Z) : list Z := rev (le_put n z).
Definition be_get (l : list Z) : Z := le_get (rev l).

Definition byte_ok (b : Z) : Prop := in_u 8 b.
Abbreviation bytes_ok l := (Forall byte_ok l).

(** ** Tactics and hints *)
Create HintDb otns.
#[export] Hint Unfold in_u in_s byte_ok : otns.

(** Linear arithmetic after the fixed-width operations are written out. *)
Ltac ulia :=
  unfold u8, u16, u32, u64, in_u, in_s, byte_ok in *;
  change (2 ^ 64)%Z with 18446744073709551616%Z in *;
  change (2 ^ 32)%Z with 4294967296%Z in *;
  change (2 ^ 16)%Z with 65536%Z in *;
  change (2 ^ 8)%Z with 256%Z in *;
  Z.to_euclidean_division_equations; lia.

(** Open a successful monadic computation one bind at a time. *)
Lemma bind_Ok {A B} (f : A -> res B) (m : res A) (b : B) :
  mbind f m = Ok b <-> exists a, m = Ok a /\ f a = Ok b.
Proof. destruct m; simpl; split; naive_solver. Qed.

Lemma fmap_Ok {A B} (f : A -> B) (m : res A) (b : B) :
  f <$> m = Ok b <-> exists a, m = Ok a /\ f a = b.
Proof. destruct m; unfold fmap, res_fmap; split; naive_solver. Qed.

Lemma assert_true_Ok (b : bool) (u : ()) : assert_true b = Ok u <-> b = true.
Proof. destruct b, u; simpl; naive_solver. Qed.

Lemma assert_not_nil_Ok {A} (o : option A) a : assert_not_nil o = Ok a <-> o = Some a.
Proof. destruct o; simpl; naive_solver. Qed.

Lemma deref_Ok {A} (o : option A) a : deref o = Ok a <-> o = Some a.
Proof. destruct o; simpl; naive_solver. Qed.

Lemma index_Ok {A} (l : list A) i a : index l i = Ok a <-> l !! i = Some a.
Proof. unfold index. destruct (l !! i); naive_solver. Qed.

Ltac res_inv :=
  repeat match goal with
  | H : mbind _ _ = Ok _ |- _ => apply bind_Ok in H as (? & ? & H)
  | H : _ <$> _ = Ok _ |- _ => apply fmap_Ok in H as (? & ? & H)
  | H : assert_true _ = Ok _ |- _ => apply assert_true_Ok in H
  | H : assert_not_nil _ = Ok _ |- _ => apply assert_not_nil_Ok in H
  | H : deref _ = Ok _ |- _ => apply deref_Ok in H
  | H : index _ _ = Ok _ |- _ => apply index_Ok in H
  | H : Ok _ = Ok _ |- _ => apply (inj Ok) in H
  | H : (_, _) = (_, _) |- _ => apply pair_equal_spec in H as [? H]
  | H : Panic _ = Ok _ |- _ => discriminate H
  end.

(** ** Lemmas on machine integers *)
Lemma u8_id z : in_u 8 z -> u8 z = z.
Proof. intros H. apply Z.mod_small, H. Qed.
Lemma u16_id z : in_u 16 z -> u16 z = z.
Proof. intros H. apply Z.mod_small, H. Qed.
Lemma u32_id z : in_u 32 z -> u32 z = z.
Proof. intros H. apply Z.mod_small, H. Qed.
Lemma u64_id z : in_u 64 z -> u64 z = z.
Proof. intros H. apply Z.mod_small, H. Qed.
Lemma u64_range z : in_u 64 (u64 z).
Proof. apply Z.mod_pos_bound. lia. Qed.
#[export] Hint Resolve u64_range : otns.

Lemma to_signed_mod w z : (0 < w)%Z -> in_s w z -> to_signed w (z mod 2 ^ w) = z.
Proof.
  intros Hw [H1 H2]. unfold to_signed. rewrite Zmod_mod.
  assert (2 ^ w = 2 * 2 ^ (w - 1))%Z as E.
  { rewrite <- Z.pow_succ_r by lia. f_equal. lia. }
  destruct (decide (0 <= z)%Z).
  - rewrite Z.mod_small by lia. destruct (Z.ltb_spec z (2 ^ (w - 1))); lia.
  - assert (z mod 2 ^ w = z + 2 ^ w)%Z as ->.
    { symmetry. apply (Z.mod_unique _ _ (-1)); lia. }
    destruct (Z.ltb_spec (z + 2 ^ w) (2 ^ (w - 1))); lia.
Qed.

Lemma to_signed_range w z : (0 < w)%Z -> in_s w (to_signed w z).
Proof.
  intros Hw. unfold to_signed, in_s.
  assert (2 ^ w = 2 * 2 ^ (w - 1))%Z as E.
  { rewrite <- Z.pow_succ_r by lia. f_equal. lia. }
  pose proof (Z.mod_pos_bound z (2 ^ w) ltac:(lia)).
  destruct (Z.ltb_spec (z mod 2 ^ w) (2 ^ (w - 1))); lia.
Qed.

(** ** Lemmas on byte strings *)
Lemma length_le_put n z : length (le_put n z) = n.
Proof. revert z; induction n; intros; simpl; auto. Qed.

Lemma le_put_ok n z : bytes_ok (le_put n z).
Proof.
  revert z; induction n; intros; simpl; constructor; auto.
  split; [apply Z.mod_pos_bound | apply Z.mod_pos_bound]; lia.
Qed.
#[export] Hint Resolve le_put_ok : otns.

Lemma le_get_put n z : le_get (le_put n z) = (z mod 2 ^ (8 * Z.of_nat n))%Z.
Proof.
  revert z; induction n as [|n IH]; intros z; simpl le_put; simpl le_get.
  - rewrite Z.mod_1_r. done.
  - rewrite IH. replace (8 * Z.of_nat (S n))%Z with (8 + 8 * Z.of_nat n)%Z by lia.
    rewrite Z.pow_add_r by lia. change (2 ^ 8)%Z with 256%Z.
    rewrite Z.rem_mul_r by lia. done.
Qed.

Lemma le_get_put_id n z : in_u (8 * Z.of_nat n) z -> le_get (le_put n z) = z.
Proof. intros H. rewrite le_get_put. apply Z.mod_small, H. Qed.

Lemma le_get_range l : bytes_ok l -> in_u (8 * Z.of_nat (length l)) (le_get l).
Proof.
  unfold in_u. induction 1 as [|b l Hb Hl IH]; simpl le_get; [simpl; lia|].
  replace (8 * Z.of_nat (length (b :: l)))%Z with (8 + 8 * Z.of_nat (length l))%Z
    by (simpl length; lia).
  rewrite Z.pow_add_r by lia. destruct Hb. change (2 ^ 8)%Z with 256%Z in *. lia.
Qed.

Lemma le_put_get l : bytes_ok l -> le_put (length l) (le_get l) = l.
Proof.
  induction 1 as [|b l Hb Hl IH]; simpl; [done|]. destruct Hb as [Hb1 Hb2].
  change (2 ^ 8)%Z with 256%Z in Hb2.
  rewrite (Z.mul_comm 256), Z_mod_plus_full, Z.div_add by lia.
  rewrite Z.mod_small, Z.div_small, Z.add_0_l, IH by lia. done.
Qed.

Lemma length_be_put n z : length (be_put n z) = n.
Proof. unfold be_put. rewrite length_rev. apply length_le_put. Qed.

Lemma be_get_put_id n z : in_u (8 * Z.of_nat n) z -> be_get (be_put n z) = z.
Proof. intros H. unfold be_get, be_put. rewrite rev_involutive. by apply le_get_put_id. Qed.

Lemma length_copy_at {A} (dst : list A) off src :
  (off <= length dst)%nat -> length (copy_at dst off src) = length dst.
Proof.
  intros H. unfold copy_at. rewrite !length_app, !length_take, length_drop. lia.
Qed.

(** Copying a source that fits between two parts of the destination. *)
Lemma copy_at_fits {A} (a b c src : list A) :
  length src = length b -> copy_at (a ++ b ++ c) (length a) src = a ++ src ++ c.
Proof.
  intros H. unfold copy_at. rewrite take_app_length. f_equal.
  rewrite (take_ge src) by (rewrite !length_app; lia). f_equal.
  rewrite H, drop_app_add, drop_app_length. done.
Qed.

Lemma slice_Ok {A} (l : list A) lo hi s :
  slice l lo hi = Ok s <-> (lo <= hi <= length l)%nat /\ s = take (hi - lo) (drop lo l).
Proof. unfold slice. case_bool_decide; naive_solver. Qed.

Lemma slice_mid {A} (a b c : list A) lo hi :
  lo = length a -> hi = (length a + length b)%nat -> slice (a ++ b ++ c) lo hi = Ok b.
Proof.
  intros -> ->. apply slice_Ok. rewrite !length_app. split; [lia|].
  rewrite drop_app_length, take_app_length' by lia. done.
Qed.

Lemma list_delete_insert_eq {A} (l : list A) i x : delete i (<[i:=x]> l) = delete i l.
Proof. revert i. induction l as [|y l IH]; intros [|i]; simpl; [done..|]. f_equal. apply IH. Qed.

(** ** Lemmas on strings *)
Lemma string_app_assoc (a b c : string) : ((a +:+ b) +:+ c = a +:+ (b +:+ c))%string.
Proof. induction a as [|x a IH]; [done|]. exact (f_equal (String x) IH). Qed.
Lemma string_app_nil a : (a +:+ "" = a)%string.
Proof. induction a as [|c a IH]; [done|]. exact (f_equal (String c) IH). Qed.

#[global] Arguments le_put : simpl never.
#[global] Arguments le_get : simpl never.
