(* ===== verification/GoHeap.v ===== *)
(** * container/heap

    Go's binary heap, as the dispatcher's [sendQueue] and [alarmQueue] use it: the
    algorithms of package [container/heap] ([up], [down], [Push], [Pop], [Fix],
    [Remove], [Init]) over an abstract [heap.Interface], and their correctness for
    every container whose [Less] and [Swap] act on a list of elements.

    The order that the theorems establish is a preorder [R] compatible with [Less]
    ([HeapOrder]): taking [R] coarser than [Less] gives the part of the heap order
    that survives when keys are changed behind the heap's back. *)

From S2P Require Import Prelude.

(** [heap.Interface]: [X] is the type of the values pushed and popped. *)
Class HeapI (S X : Type) := {
  h_len : S -> nat;
  h_less : S -> nat -> nat -> res bool;
  h_swap : nat -> nat -> S -> res S;
  h_push : X -> S -> res S;
  h_pop : S -> res (X * S);
}.

Section algorithms.
Context {S X : Type} `{!HeapI S X}.
Implicit Types s : S.

(** The parent index computed by [up]; Go's [(0-1)/2] is 0, as on [nat]. *)
Definition parent (j : nat) : nat := (j - 1) / 2.

Fixpoint up_loop (fuel : nat) (j : nat) (s : S) : res S :=
  match fuel with
  | O => Panic OutOfFuel
  | Datatypes.S fuel =>
    let i := parent j in
    if bool_decide (i = j) then Ok s else
    lt ← h_less s j i;
    if negb lt then Ok s else
    s' ← h_swap i j s;
    up_loop fuel i s'
  end.
Definition up (s : S) (j : nat) : res S := up_loop (Datatypes.S j) j s.

Fixpoint down_loop (fuel : nat) (i n : nat) (s : S) : res (nat * S) :=
  match fuel with
  | O => Panic OutOfFuel
  | Datatypes.S fuel =>
    let j1 := 2 * i + 1 in
    if bool_decide (n <= j1) then Ok (i, s) else
    let j2 := j1 + 1 in
    b ← (if bool_decide (j2 < n) then h_less s j2 j1 else Ok false);
    let j := if b : bool then j2 else j1 in
    lt ← h_less s j i;
    if negb lt then Ok (i, s) else
    s' ← h_swap i j s;
    down_loop fuel j n s'
  end.
(** [down] reports whether the element moved. *)
Definition down (s : S) (i0 n : nat) : res (bool * S) :=
  '(i, s') ← down_loop (Datatypes.S n) i0 n s;
  Ok (bool_decide (i0 < i), s').

Definition Push (x : X) (s : S) : res S :=
  s' ← h_push x s;
  up s' (h_len s' - 1).

Definition Pop (s : S) : res (X * S) :=
  let n := h_len s - 1 in
  s1 ← h_swap 0 n s;
  '(_, s2) ← down s1 0 n;
  h_pop s2.

Definition Remove (s : S) (i : nat) : res (X * S) :=
  let n := h_len s - 1 in
  s1 ← (if bool_decide (n = i) then Ok s else
         s1 ← h_swap i n s;
         '(moved, s2) ← down s1 i n;
         if moved : bool then Ok s2 else up s2 i);
  h_pop s1.

Definition Fix (s : S) (i : nat) : res S :=
  '(moved, s') ← down s i (h_len s);
  if moved : bool then Ok s' else up s' i.

(** [for i := n/2 - 1; i >= 0; i-- { down(h, i, n) }] *)
Fixpoint init_loop (k n : nat) (s : S) : res S :=
  match k with
  | O => Ok s
  | Datatypes.S k => '(_, s') ← down s k n; init_loop k n s'
  end.
Definition Init (s : S) : res S := init_loop (h_len s / 2) (h_len s) s.
End algorithms.

(** ** Heap order on lists *)
Definition lswap {A} (i j : nat) (l : list A) : list A :=
  match l !! i, l !! j with
  | Some a, Some b => <[i:=b]> (<[j:=a]> l)
  | _, _ => l
  end.

(** Element [k] is above its parent, and above its grandparent. *)
Definition edge {A} (R : relation A) (l : list A) (k : nat) : Prop :=
  forall a b, l !! parent k = Some a -> l !! k = Some b -> R a b.
Definition grand {A} (R : relation A) (l : list A) (k : nat) : Prop :=
  forall a b, l !! parent (parent k) = Some a -> l !! k = Some b -> R a b.

(** Heap order among the first [n] elements. *)
Definition heap_upto {A} (R : relation A) (n : nat) (l : list A) : Prop :=
  forall k, 0 < k < n -> edge R l k.
Definition heap_ordered {A} (R : relation A) (l : list A) : Prop :=
  heap_upto R (length l) l.

(** Everything is in order except around index [i]. *)
Definition grand_at {A} (R : relation A) (n i : nat) (l : list A) : Prop :=
  0 < i -> forall c, 0 < c < n -> parent c = i -> grand R l c.
Definition broken_at {A} (R : relation A) (n i : nat) (l : list A) : Prop :=
  (forall k, 0 < k < n -> k <> i -> parent k <> i -> edge R l k) /\ grand_at R n i l.
Definition broken_below {A} (R : relation A) (n i : nat) (l : list A) : Prop :=
  (forall k, 0 < k < n -> parent k <> i -> edge R l k) /\ grand_at R n i l.
Definition broken_above {A} (R : relation A) (n i : nat) (l : list A) : Prop :=
  (forall k, 0 < k < n -> k <> i -> edge R l k) /\ grand_at R n i l.

(** [R] is a preorder that [Less] decides. *)
Class HeapOrder {A} (less : A -> A -> bool) (R : relation A) := {
  heap_order_pre :: PreOrder R;
  less_true a b : less a b = true -> R a b;
  less_false a b : less a b = false -> R b a;
}.

(** A container that satisfies [Inv] behaves as the list [view s]; [rep] gives the
    value that stands for an element. *)
Class HeapLaws {S X A} `{!HeapI S X} (view : S -> list A) (Inv : S -> Prop)
    (less : A -> A -> bool) (rep : A -> X) := {
  h_len_view s : Inv s -> h_len s = length (view s);
  h_less_view s i j a b :
    Inv s -> view s !! i = Some a -> view s !! j = Some b -> h_less s i j = Ok (less a b);
  h_swap_view s i j :
    Inv s -> i < length (view s) -> j < length (view s) ->
    exists s', h_swap i j s = Ok s' /\ Inv s' /\ view s' = lswap i j (view s);
  h_pop_view s l a :
    Inv s -> view s = l ++ [a] ->
    exists s', h_pop s = Ok (rep a, s') /\ Inv s' /\ view s' = l;
}.

(** ** Indices *)
Lemma parent_lt k : 0 < k -> parent k < k.
Proof.
  unfold parent. intros. pose proof (Nat.div_mod_eq (k - 1) 2). lia.
Qed.

Lemma parent_iff k i : 0 < k -> parent k = i <-> k = 2 * i + 1 \/ k = 2 * i + 2.
Proof.
  intros Hk. unfold parent.
  pose proof (Nat.div_mod_eq (k - 1) 2). pose proof (Nat.mod_upper_bound (k - 1) 2).
  lia.
Qed.

Lemma parent_left i : parent (2 * i + 1) = i.
Proof. apply parent_iff; lia. Qed.
Lemma parent_right i : parent (2 * i + 2) = i.
Proof. apply parent_iff; lia. Qed.

Lemma parent_fix j : parent j = j <-> j = 0.
Proof.
  split; [|by intros ->]. intros H. destruct j; [done|].
  pose proof (parent_lt (S j)). lia.
Qed.

(** ** Swapping *)
Section swap.
Context {A : Type}.
Implicit Types l : list A.

Lemma length_lswap i j l : length (lswap i j l) = length l.
Proof.
  unfold lswap. destruct (l !! i), (l !! j); rewrite ?length_insert; done.
Qed.

Lemma lookup_lswap i j l k :
  i < length l -> j < length l ->
  lswap i j l !! k =
    if decide (k = i) then l !! j else if decide (k = j) then l !! i else l !! k.
Proof.
  intros [a Ha]%lookup_lt_is_Some [b Hb]%lookup_lt_is_Some.
  unfold lswap. rewrite Ha, Hb.
  pose proof (lookup_lt_Some _ _ _ Ha). pose proof (lookup_lt_Some _ _ _ Hb).
  repeat case_decide; subst.
  - by rewrite list_lookup_insert_eq by (rewrite length_insert; lia).
  - rewrite list_lookup_insert_ne by done. by rewrite list_lookup_insert_eq by lia.
  - by rewrite !list_lookup_insert_ne by done.
Qed.

Lemma lswap_perm i j l :
  i < length l -> j < length l -> lswap i j l ≡ₚ l.
Proof.
  intros Hi Hj. apply Permutation_inj. split; [apply length_lswap|].
  exists (fun k => if decide (k = i) then j else if decide (k = j) then i else k). split.
  - intros x y. repeat case_decide; congruence.
  - intros k. rewrite lookup_lswap by done. by repeat case_decide.
Qed.
End swap.

(** ** One step of sifting *)
Section order.
Context {A : Type} (R : relation A) `{!PreOrder R}.
Implicit Types l : list A.

Lemma heap_broken_above n l : heap_upto R n l -> forall i, broken_above R n i l.
Proof.
  intros H i. split; [naive_solver|]. intros Hi c Hc Hp a b Ha Hb.
  assert (i < length l) as [x Hx]%lookup_lt_is_Some.
  { apply lookup_lt_Some in Hb. pose proof (parent_lt c). lia. }
  pose proof (parent_lt c). transitivity x.
  - apply (H i ltac:(lia) a x); [|done]. by rewrite <- Hp.
  - apply (H c ltac:(lia) x b); [by rewrite Hp|done].
Qed.

Lemma up_stop n j l :
  broken_above R n j l -> (0 < j -> edge R l j) -> heap_upto R n l.
Proof.
  intros [H _] He k Hk. destruct (decide (k = j)) as [->|]; [naive_solver|auto].
Qed.

Lemma up_step n j l x y :
  0 < j < n -> n <= length l -> broken_above R n j l ->
  l !! j = Some x -> l !! parent j = Some y -> R x y ->
  broken_above R n (parent j) (lswap (parent j) j l).
Proof.
  intros Hj Hn [H G] Hx Hy Hxy. pose proof (parent_lt j ltac:(lia)) as Hpj.
  remember (parent j) as i eqn:Ei. split.
  - intros k Hk Hki a b. rewrite !lookup_lswap by lia. pose proof (parent_lt k ltac:(lia)).
    rewrite (decide_False (P := k = i)) by done.
    destruct (decide (k = j)) as [->|Hkj].
    { rewrite (decide_True (P := parent j = i)) by done. congruence. }
    destruct (decide (parent k = i)) as [Hp|].
    { intros Ha Hb. trans y; [congruence|]. apply (H k); congruence || lia. }
    destruct (decide (parent k = j)) as [Hp|]; intros Ha Hb.
    + apply (G ltac:(lia) k); congruence || lia.
    + apply (H k); done.
  - intros Hi c Hc Hp a b. pose proof (parent_lt i Hi). rewrite Hp, !lookup_lswap by lia.
    pose proof (parent_lt c ltac:(lia)).
    rewrite (decide_False (P := parent i = i)), (decide_False (P := parent i = j)) by lia.
    rewrite (decide_False (P := c = i)) by lia.
    destruct (decide (c = j)) as [->|]; intros Ha Hb.
    + apply (H i); congruence || lia.
    + trans y; [apply (H i); congruence || lia|apply (H c); congruence || lia].
Qed.

(** [i] is in place once it is below its children. *)
Lemma down_stop_at n i l x :
  broken_at R n i l -> l !! i = Some x ->
  (forall c b, 0 < c < n -> parent c = i -> l !! c = Some b -> R x b) ->
  broken_above R n i l.
Proof.
  intros [H G] Hx Hc. split; [|done]. intros k Hk Hki.
  destruct (decide (parent k = i)) as [Hp|]; [|auto].
  intros a b Ha Hb. rewrite Hp in Ha. simplify_eq. eauto.
Qed.

Lemma down_stop_below n i l x :
  broken_below R n i l -> l !! i = Some x ->
  (forall c b, 0 < c < n -> parent c = i -> l !! c = Some b -> R x b) ->
  heap_upto R n l.
Proof.
  intros [H G] Hx Hc k Hk.
  destruct (decide (parent k = i)) as [Hp|]; [|auto].
  intros a b Ha Hb. rewrite Hp in Ha. simplify_eq. eauto.
Qed.

(** Replacing element [i] of a heap by its last element. *)
Lemma swap_last_broken i n l :
  length l = S n -> i < n -> heap_ordered R l -> broken_at R n i (lswap i n l).
Proof.
  intros Hl Hi Hh. unfold heap_ordered in Hh. rewrite Hl in Hh. split.
  - intros k Hk Hki Hpk a b. pose proof (parent_lt k ltac:(lia)).
    rewrite !lookup_lswap by lia. rewrite !decide_False by lia. apply Hh. lia.
  - intros Hi0 c Hc Hp a b. pose proof (parent_lt i Hi0). pose proof (parent_lt c ltac:(lia)).
    rewrite Hp, !lookup_lswap by lia. rewrite !decide_False by lia. intros Ha Hb.
    destruct (heap_broken_above _ _ Hh i) as [_ G]. apply (G Hi0 c); [lia|done| |done].
    by rewrite Hp.
Qed.

(** Changing the key of element [i] of a heap. *)
Lemma insert_broken i x l :
  heap_ordered R l -> i < length l -> broken_at R (length l) i (<[i:=x]> l).
Proof.
  intros Hh Hi. split.
  - intros k Hk Hki Hpk a b. rewrite !list_lookup_insert_ne by congruence. by apply Hh.
  - intros Hi0 c Hc Hp a b. pose proof (parent_lt i Hi0). pose proof (parent_lt c ltac:(lia)).
    rewrite Hp, !list_lookup_insert_ne by lia. intros Ha Hb.
    destruct (heap_broken_above _ _ Hh i) as [_ G]. apply (G Hi0 c); [lia|done| |done].
    by rewrite Hp.
Qed.

Lemma broken_below_at n i l : broken_below R n i l -> broken_at R n i l.
Proof. intros [H G]. split; auto. Qed.

Lemma heap_broken_below n i l : heap_upto R n l -> broken_below R n i l.
Proof. intros H. split; [by auto|apply heap_broken_above, H]. Qed.

(** Moving the smaller child [j] of [i] up. *)
Lemma down_step n i j l x y :
  0 < j < n -> parent j = i -> n <= length l -> broken_at R n i l ->
  l !! j = Some x -> l !! i = Some y -> R x y ->
  (forall c b, 0 < c < n -> parent c = i -> l !! c = Some b -> R x b) ->
  broken_below R n j (lswap i j l).
Proof.
  intros Hj Hp Hn [H G] Hx Hy Hxy Hmin. pose proof (parent_lt j ltac:(lia)) as Hpj.
  split.
  - intros k Hk Hkj a b. rewrite !lookup_lswap by lia. pose proof (parent_lt k ltac:(lia)).
    rewrite (decide_False (P := parent k = j)) by done.
    destruct (decide (k = i)) as [->|Hki].
    { rewrite decide_False by lia. intros Ha Hb. apply (G ltac:(lia) j); congruence || lia. }
    destruct (decide (parent k = i)) as [Hpk|].
    { intros Ha. destruct (decide (k = j)) as [->|]; intros Hb; [congruence|].
      replace a with x by congruence. eauto. }
    destruct (decide (k = j)); [congruence|]. intros Ha Hb. apply (H k); done.
  - intros _ c Hc Hpc a b. rewrite Hpc, Hp, !lookup_lswap by lia.
    pose proof (parent_lt c ltac:(lia)).
    rewrite decide_True, !decide_False by lia. intros Ha Hb.
    apply (H c); congruence || lia.
Qed.
End order.

(** ** Correctness of the algorithms against the interface *)
Section correctness.
Context {S X A : Type} `{HI : !HeapI S X} {view : S -> list A} {Inv : S -> Prop}
  {less : A -> A -> bool} {rep : A -> X} `{HL : !HeapLaws view Inv less rep} {R : relation A}
  `{HO : !HeapOrder less R}.
Implicit Types s : S.

(** [s'] holds the elements of [s], with those from index [n] on in place. *)
Definition sifted (n : nat) (s s' : S) : Prop :=
  Inv s' /\ view s' ≡ₚ view s /\ forall k, n <= k -> view s' !! k = view s !! k.

Lemma sifted_refl n s : Inv s -> sifted n s s.
Proof. by split. Qed.

Lemma sifted_trans n s1 s2 s3 : sifted n s1 s2 -> sifted n s2 s3 -> sifted n s1 s3.
Proof.
  intros (_ & P1 & L1) (I & P2 & L2). split; [done|].
  split; [by rewrite P2|]. intros k Hk. by rewrite L2, L1.
Qed.

Lemma swap_sifted n s i j :
  Inv s -> i < n -> j < n -> n <= length (view s) ->
  exists s', h_swap i j s = Ok s' /\ view s' = lswap i j (view s) /\ sifted n s s'.
Proof using HL.
  intros HI' Hi Hj Hn.
  destruct (h_swap_view s i j HI' ltac:(lia) ltac:(lia)) as (s' & E & I' & V).
  exists s'. do 2 (split; [done|]). split; [done|]. rewrite V.
  split; [apply lswap_perm; lia|]. intros k Hk.
  rewrite lookup_lswap by lia. by rewrite !decide_False by lia.
Qed.

Lemma up_loop_spec n fuel j s :
  Inv s -> j < fuel -> j < n -> n <= length (view s) -> broken_above R n j (view s) ->
  exists s', up_loop fuel j s = Ok s' /\ sifted n s s' /\ heap_upto R n (view s').
Proof using HL HO.
  revert j s. induction fuel as [|fuel IH]; intros j s HIs Hf Hj Hn HB; [lia|]. simpl.
  case_bool_decide as Hpj.
  { apply parent_fix in Hpj as ->. eexists. split; [done|]. split; [by apply sifted_refl|].
    eapply up_stop; [done|lia]. }
  assert (0 < j) as Hj0 by (destruct j; [done|lia]).
  pose proof (parent_lt j Hj0).
  destruct (lookup_lt_is_Some_2 (view s) j ltac:(lia)) as [x Hx].
  destruct (lookup_lt_is_Some_2 (view s) (parent j) ltac:(lia)) as [y Hy].
  rewrite (h_less_view s _ _ x y HIs Hx Hy). simpl.
  destruct (less x y) eqn:E; simpl.
  - destruct (swap_sifted n s (parent j) j HIs ltac:(lia) Hj Hn) as (s1 & -> & V & Sf).
    simpl. destruct Sf as (I1 & P1 & L1).
    destruct (IH (parent j) s1) as (s2 & -> & Sf2 & H2); [done|lia|lia| | |].
    + by rewrite (Permutation_length P1).
    + rewrite V. eapply up_step; [apply HO|lia|done|done|done|done|by apply less_true].
    + eexists. split; [done|]. split; [|done]. eapply sifted_trans; [|done]. done.
  - eexists. split; [done|]. split; [by apply sifted_refl|].
    eapply up_stop; [done|]. intros _ a b Ha Hb. simplify_eq. by apply less_false.
Qed.

(** The child that [down] compares with its parent is the smaller one. *)
Lemma min_child_spec n i s :
  Inv s -> n <= length (view s) -> 2 * i + 1 < n ->
  exists b j x, (if bool_decide (2 * i + 1 + 1 < n)
    then h_less s (2 * i + 1 + 1) (2 * i + 1) else Ok false) = Ok b /\
    j = (if b : bool then 2 * i + 1 + 1 else 2 * i + 1) /\ 0 < j < n /\ parent j = i /\
    view s !! j = Some x /\
    forall c y, 0 < c < n -> parent c = i -> view s !! c = Some y -> R x y.
Proof using HL HO.
  intros HIs Hn Hi. assert (PreOrder R) by apply HO.
  destruct (lookup_lt_is_Some_2 (view s) (2 * i + 1) ltac:(lia)) as [x1 H1].
  case_bool_decide as H2.
  - destruct (lookup_lt_is_Some_2 (view s) (2 * i + 1 + 1) ltac:(lia)) as [x2 E2].
    rewrite (h_less_view s _ _ x2 x1) by done. exists (less x2 x1).
    destruct (less x2 x1) eqn:E; do 2 eexists; (split; [done|]); (split; [done|]);
      (split; [lia|]); (split; [apply parent_iff; lia|]); (split; [done|]);
      intros c y Hc [->| ->]%parent_iff Hy; try lia.
    + simplify_eq. by apply less_true.
    + replace (2 * i + 2) with (2 * i + 1 + 1) in Hy by lia. by simplify_eq.
    + by simplify_eq.
    + replace (2 * i + 2) with (2 * i + 1 + 1) in Hy by lia. simplify_eq. by apply less_false.
  - exists false. do 2 eexists. do 2 (split; [done|]). split; [lia|].
    split; [apply parent_left|]. split; [done|].
    intros c y Hc [->| ->]%parent_iff Hy; try lia. by simplify_eq.
Qed.

(** Sifting down: nothing moves, or the heap order is restored. *)
Lemma down_loop_spec n fuel i s :
  Inv s -> 0 < fuel -> n < fuel + i -> n <= length (view s) -> i < length (view s) ->
  broken_at R n i (view s) ->
  exists i' s', down_loop fuel i n s = Ok (i', s') /\ sifted n s s' /\ i <= i' /\
    (i' = i -> s' = s /\ broken_above R n i (view s)) /\
    (i < i' \/ broken_below R n i (view s) -> heap_upto R n (view s')).
Proof using HL HO.
  revert i s. induction fuel as [|fuel IH]; intros i s HIs Hf0 Hf Hn Hi HB; [lia|].
  assert (PreOrder R) by apply HO. cbn [down_loop].
  destruct (lookup_lt_is_Some_2 (view s) i Hi) as [y Hy].
  assert ((forall c b, 0 < c < n -> parent c = i -> view s !! c = Some b -> R y b) ->
    exists i' s', Ok (i, s) = Ok (i', s') /\ sifted n s s' /\ i <= i' /\
    (i' = i -> s' = s /\ broken_above R n i (view s)) /\
    (i < i' \/ broken_below R n i (view s) -> heap_upto R n (view s'))) as Stop.
  { intros Hc. exists i, s. split; [done|]. split; [by apply sifted_refl|]. split; [lia|].
    split; [split; [done|]; by eapply down_stop_at|].
    intros [?|?]; [lia|]. by eapply down_stop_below. }
  case_bool_decide as Hj1.
  { apply Stop. intros c b Hc [->| ->]%parent_iff; lia. }
  destruct (min_child_spec n i s HIs Hn ltac:(lia)) as (b & j & x & -> & Hj & Hjn & Hp & Hx & Hmin).
  cbn [mbind res_bind]. rewrite <- Hj. rewrite (h_less_view s _ _ x y HIs Hx Hy).
  cbn [mbind res_bind]. destruct (less x y) eqn:E; cbn [negb].
  2: { apply Stop. intros c z Hc Hpc Hz. trans x; [by apply less_false|eauto]. }
  clear Stop. pose proof (parent_lt j ltac:(lia)).
  destruct (swap_sifted n s i j HIs ltac:(lia) ltac:(lia) Hn) as (s1 & -> & V & Sf).
  pose proof Sf as (I1 & P1 & _). apply Permutation_length in P1.
  assert (broken_below R n j (view s1)) as HB1.
  { rewrite V. eapply down_step; eauto. by apply less_true. }
  assert (i < j) as Hij by lia.
  destruct (IH j s1) as (i' & s2 & E2 & Sf2 & Hle & _ & Hh);
    [done|lia|lia|lia|lia|by apply broken_below_at|].
  cbn [mbind res_bind]. rewrite E2. exists i', s2. split; [done|].
  split; [by eapply sifted_trans|]. split; [lia|]. split; [lia|].
  intros _. apply Hh. by right.
Qed.

Lemma down_spec n i s :
  Inv s -> n <= length (view s) -> i < length (view s) -> broken_at R n i (view s) ->
  exists b s', down s i n = Ok (b, s') /\ sifted n s s' /\
    (b = false -> s' = s /\ broken_above R n i (view s)) /\
    (b = true \/ broken_below R n i (view s) -> heap_upto R n (view s')).
Proof using HL HO.
  intros ? ? ? ?. destruct (down_loop_spec n (Datatypes.S n) i s)
    as (i' & s' & E & Sf & Hle & D1 & D2); [done|lia|lia|done|done|done|].
  unfold down. rewrite E. simpl. eexists _, s'. split; [done|]. split; [done|].
  split; [rewrite bool_decide_eq_false|rewrite bool_decide_eq_true].
  - intros. apply D1. lia.
  - done.
Qed.

Lemma up_spec n j s :
  Inv s -> j < n -> n <= length (view s) -> broken_above R n j (view s) ->
  exists s', up s j = Ok s' /\ sifted n s s' /\ heap_upto R n (view s').
Proof using HL HO. intros. apply up_loop_spec; auto. Qed.

(** Sifting one element whose key changed, both ways. *)
Lemma down_up_spec n i s :
  Inv s -> n <= length (view s) -> i < n -> broken_at R n i (view s) ->
  exists s', ('(moved, s') ← down s i n; if moved : bool then Ok s' else up s' i) = Ok s' /\
    sifted n s s' /\ heap_upto R n (view s').
Proof using HL HO.
  intros HIs Hn Hi HB. destruct (down_spec n i s) as (b & s1 & -> & Sf & H1 & H2);
    [done|done|lia|done|]. simpl. destruct b.
  - exists s1. auto.
  - destruct (H1 eq_refl) as [-> HA]. destruct (up_spec n i s) as (s2 & E & Sf2 & Hh); auto.
    exists s2. auto.
Qed.

(** *** The exported operations *)

(** [heap.Fix] restores the order after the key of element [i] changed. *)
Lemma Fix_spec i s :
  Inv s -> i < length (view s) -> broken_at R (length (view s)) i (view s) ->
  exists s', Fix s i = Ok s' /\ Inv s' /\ view s' ≡ₚ view s /\ heap_ordered R (view s').
Proof using HL HO.
  intros HIs Hi HB. unfold Fix. rewrite h_len_view by done.
  destruct (down_up_spec (length (view s)) i s) as (s' & E & (I' & P & _) & Hh); auto.
  exists s'. split; [exact E|]. do 2 (split; [done|]).
  unfold heap_ordered. by rewrite (Permutation_length P).
Qed.

(** [heap.Push], given what the container's own [Push] does. *)
Lemma Push_spec x a s s1 :
  h_push x s = Ok s1 -> Inv s1 -> view s1 = view s ++ [a] -> heap_ordered R (view s) ->
  exists s', Push x s = Ok s' /\ Inv s' /\ view s' ≡ₚ a :: view s /\ heap_ordered R (view s').
Proof using HL HO.
  intros E I1 V1 Hh. assert (PreOrder R) by apply HO. unfold Push. rewrite E. simpl.
  assert (length (view s1) = Datatypes.S (length (view s))) as L1.
  { rewrite V1, length_app. simpl. lia. }
  rewrite (h_len_view s1 I1), L1. replace (Datatypes.S _ - 1) with (length (view s)) by lia.
  destruct (up_spec (length (view s1)) (length (view s)) s1) as (s' & E' & (I' & P & _) & H');
    [done|lia|done| |].
  { split.
    - intros k Hk Hne b c. rewrite V1. pose proof (parent_lt k).
      rewrite !lookup_app_l by lia. apply Hh. lia.
    - intros ? c Hc Hp. pose proof (parent_lt c). lia. }
  exists s'. split; [done|]. split; [done|]. split.
  - by rewrite P, V1, Permutation_app_comm.
  - unfold heap_ordered. by rewrite (Permutation_length P).
Qed.

(** Taking off the last element once the others are in order. *)
Lemma pop_last_spec n a s :
  Inv s -> length (view s) = Datatypes.S n -> view s !! n = Some a ->
  heap_upto R n (view s) ->
  exists s', h_pop s = Ok (rep a, s') /\ Inv s' /\ view s ≡ₚ a :: view s' /\
    heap_ordered R (view s').
Proof using HL HO.
  intros HIs Hl Ha Hh.
  assert (view s = take n (view s) ++ [a]) as E.
  { rewrite <- take_S_r by done. by rewrite take_ge by lia. }
  destruct (h_pop_view s _ _ HIs E) as (s' & Ep & I' & V). exists s'.
  split; [done|]. split; [done|]. rewrite V. split.
  - rewrite E at 1. by rewrite Permutation_app_comm.
  - intros k. rewrite length_take, Hl. intros Hk x y. pose proof (parent_lt k).
    rewrite !lookup_take_lt by lia. apply Hh. lia.
Qed.

Lemma swap_last_sifted i n a s :
  Inv s -> length (view s) = Datatypes.S n -> i < n -> heap_ordered R (view s) ->
  view s !! i = Some a ->
  exists s1, h_swap i n s = Ok s1 /\ Inv s1 /\ view s1 ≡ₚ view s /\
    view s1 !! n = Some a /\ broken_at R n i (view s1).
Proof using HL HO.
  intros HIs Hl Hi Hh Ha.
  destruct (h_swap_view s i n HIs ltac:(lia) ltac:(lia)) as (s1 & E & I1 & V).
  exists s1. split; [done|]. split; [done|]. rewrite V. split; [apply lswap_perm; lia|].
  assert (PreOrder R) by apply HO. split; [|by apply swap_last_broken].
  rewrite lookup_lswap, decide_False, decide_True by lia. done.
Qed.

(** [heap.Remove] takes element [i] out of the heap. *)
Lemma Remove_spec i a s :
  Inv s -> view s !! i = Some a -> heap_ordered R (view s) ->
  exists s', Remove s i = Ok (rep a, s') /\ Inv s' /\ view s ≡ₚ a :: view s' /\
    heap_ordered R (view s').
Proof using HL HO.
  intros HIs Ha Hh. pose proof (lookup_lt_Some _ _ _ Ha) as Hi. unfold Remove.
  rewrite h_len_view by done. destruct (length (view s)) as [|n] eqn:Hl; [lia|].
  replace (Datatypes.S n - 1) with n by lia. case_bool_decide as Hni.
  { subst i. simpl. apply (pop_last_spec n); [done..|].
    intros k Hk. apply Hh. lia. }
  destruct (swap_last_sifted i n a s) as (s1 & -> & I1 & P1 & L1 & B1); [done..|lia|done|done|].
  cbn [mbind res_bind].
  pose proof (Permutation_length P1) as Hl1.
  destruct (down_up_spec n i s1) as (s2 & E2 & (I2 & P2 & L2) & H2); [done|lia|lia|done|].
  rewrite E2. cbn [mbind res_bind].
  destruct (pop_last_spec n a s2) as (s' & -> & I' & P' & H');
    [done|by rewrite P2, P1|by rewrite L2|done|].
  exists s'. do 2 (split; [done|]). split; [by rewrite <- P', P2, P1|done].
Qed.

(** [heap.Pop] takes the root, which is below every element. *)
Lemma Pop_spec a l s :
  Inv s -> view s = a :: l -> heap_ordered R (view s) ->
  exists s', Pop s = Ok (rep a, s') /\ Inv s' /\ view s' ≡ₚ l /\ heap_ordered R (view s').
Proof using HL HO.
  intros HIs V Hh. unfold Pop. rewrite h_len_view by done.
  destruct (length (view s)) as [|n] eqn:Hl; [by rewrite V in Hl|].
  replace (Datatypes.S n - 1) with n by lia.
  assert (view s !! 0 = Some a) as Ha by (by rewrite V).
  assert (exists s1, h_swap 0 n s = Ok s1 /\ Inv s1 /\ view s1 ≡ₚ view s /\
    view s1 !! n = Some a /\ broken_at R n 0 (view s1)) as (s1 & -> & I1 & P1 & L1 & B1).
  { destruct (decide (n = 0)) as [->|]; [|by apply swap_last_sifted; auto; lia].
    destruct (h_swap_view s 0 0 HIs ltac:(lia) ltac:(lia)) as (s1 & E & I1 & V1).
    exists s1. do 2 (split; [done|]). rewrite V1. split; [apply lswap_perm; lia|].
    split; [by rewrite lookup_lswap, decide_True by lia|]. split; intros ?; lia. }
  cbn [mbind res_bind]. pose proof (Permutation_length P1) as Hl1.
  assert (broken_below R n 0 (view s1)) as B1'.
  { destruct B1 as [B1 B2]. split; [|done]. intros k Hk. apply B1; lia. }
  destruct (down_spec n 0 s1) as (b & s2 & -> & (I2 & P2 & L2) & _ & H2);
    [done|lia|lia|done|]. simpl.
  destruct (pop_last_spec n a s2) as (s' & -> & I' & P' & H');
    [done|by rewrite P2, P1|by rewrite L2|auto|].
  exists s'. do 2 (split; [done|]). split; [|done].
  apply (Permutation_cons_inv (a := a)). by rewrite <- P', P2, P1, V.
Qed.
End correctness.

(** The root of a heap is below every element. *)
Lemma heap_root {A} (R : relation A) `{!PreOrder R} (l : list A) a b :
  heap_ordered R l -> l !! 0 = Some a -> b ∈ l -> R a b.
Proof.
  intros Hh Ha [k Hk]%list_elem_of_lookup. revert b Hk.
  induction (lt_wf k) as [k _ IH]. intros b Hk.
  destruct (decide (k = 0)) as [->|]; [by simplify_eq|].
  pose proof (parent_lt k ltac:(lia)). pose proof (lookup_lt_Some _ _ _ Hk).
  destruct (lookup_lt_is_Some_2 l (parent k) ltac:(lia)) as [c Hc].
  trans c; [eapply IH; [|done]; lia|]. apply (Hh k); [lia|done|done].
Qed.
