(* ===== verification/Types.v ===== *)
(** * Package types

    The shared types and constants of OTNS (src/types): node ids, node modes and
    statistics (types.go), the OpenThread constants and roles (ot_types.go), the
    OT-RFSIM radio sub-states and parameters (rfsim_types.go) and the node
    configuration with its type-derived flags (node_config.go). *)

From S2P Require Import Prelude.
From Stdlib Require Import Ascii.
From stdpp Require Import pretty.

Abbreviation NodeId := Z (only parsing).
Abbreviation ChannelId := Z (only parsing).

Definition InvalidNodeId : NodeId := 0.
Definition BroadcastNodeId : NodeId := -1.
Definition InvalidExtAddr : Z := 2 ^ 64 - 1.
Definition InvalidChannel : ChannelId := 255.
Definition InvalidRloc16 : Z := 65534.
Definition BroadcastRloc16 : Z := 65535.

Definition OT_ERROR_NONE : Z := 0.
Definition OT_ERROR_ABORT : Z := 11.
Definition OT_ERROR_FCS : Z := 17.
Definition OT_TX_TYPE_INTF : Z := 192.

Definition MinChannelNumber : ChannelId := 0.
Definition MaxChannelNumber : ChannelId := 39.
Definition PhyHeaderLenBytes : Z := 6.
Definition MacFrameLenBytes : Z := 127.

Definition RssiInvalid : Z := 127.
Definition RssiMax : Z := 126.
Definition RssiMin : Z := -126.
Definition RssiMinusInfinity : Z := -127.

(** dispatcher/types.go: the time of an event that never comes,
    [math.MaxUint64 / 2]. *)
Definition Ever : Z := (2 ^ 64 - 1) / 2.

(** ** Names *)
Definition GetNodeName (id : NodeId) : string :=
  let spacing :=
    if (100 <=? id)%Z then "" else if (10 <=? id)%Z then " " else "  " in
  ("Node<" +:+ pretty id +:+ ">" +:+ spacing)%string.

(** ** Node mode *)
Record NodeMode := mkNodeMode {
  RxOnWhenIdle : bool;
  FullThreadDevice : bool;
  FullNetworkData : bool;
}.

Definition DefaultNodeMode : NodeMode := mkNodeMode true true true.

Fixpoint ParseNodeMode_loop (s : string) (mode : NodeMode) : NodeMode :=
  match s with
  | EmptyString => mode
  | String c s =>
    ParseNodeMode_loop s
      (if Ascii.eqb c "r"%char then mkNodeMode true (FullThreadDevice mode) (FullNetworkData mode)
       else if Ascii.eqb c "d"%char then mkNodeMode (RxOnWhenIdle mode) true (FullNetworkData mode)
       else if Ascii.eqb c "n"%char then mkNodeMode (RxOnWhenIdle mode) (FullThreadDevice mode) true
       else mode)
  end.
Definition ParseNodeMode (s : string) : NodeMode :=
  ParseNodeMode_loop s (mkNodeMode false false false).

(** ** Statistics *)
Record NodeStats := mkNodeStats {
  NumNodes : Z;
  NumLeaders : Z;
  NumPartitions : Z;
  NumRouters : Z;
  NumEndDevices : Z;
  NumDetached : Z;
  NumDisabled : Z;
  NumSleepy : Z;
  NumFailed : Z;
}.
#[export] Instance NodeStats_eq_dec : EqDecision NodeStats.
Proof. solve_decision. Defined.

Record PhyStats := mkPhyStats {
  TxBytes : Z;
  ps_TxTimeUs : Z;
  ChanSampleCount : Z;
}.
Definition zeroPhyStats : PhyStats := mkPhyStats 0 0 0.
#[export] Instance PhyStats_eq_dec : EqDecision PhyStats.
Proof. solve_decision. Defined.

Definition PhyStats_Minus (ps other : PhyStats) : PhyStats :=
  mkPhyStats (u64 (TxBytes ps - TxBytes other))
             (u64 (ps_TxTimeUs ps - ps_TxTimeUs other))
             (u64 (ChanSampleCount ps - ChanSampleCount other)).

(** ** OpenThread roles and radio states *)
Abbreviation OtDeviceRole := Z (only parsing).
Definition OtDeviceRoleDisabled : OtDeviceRole := 0.
Definition OtDeviceRoleDetached : OtDeviceRole := 1.
Definition OtDeviceRoleChild : OtDeviceRole := 2.
Definition OtDeviceRoleRouter : OtDeviceRole := 3.
Definition OtDeviceRoleLeader : OtDeviceRole := 4.

Definition OtDeviceRole_String (r : OtDeviceRole) : string :=
  if (r =? 0)%Z then "disabled" else if (r =? 1)%Z then "detached"
  else if (r =? 2)%Z then "child" else if (r =? 3)%Z then "router"
  else if (r =? 4)%Z then "leader" else "INVALID".

Abbreviation OtJoinerState := Z (only parsing).
Definition OtJoinerStateIdle : OtJoinerState := 0.
Definition OtJoinerStateDiscover : OtJoinerState := 1.
Definition OtJoinerStateConnect : OtJoinerState := 2.
Definition OtJoinerStateConnected : OtJoinerState := 3.
Definition OtJoinerStateEntrust : OtJoinerState := 4.
Definition OtJoinerStateJoined : OtJoinerState := 5.

Abbreviation RadioStates := Z (only parsing).
Definition RadioDisabled : RadioStates := 0.
Definition RadioSleep : RadioStates := 1.
Definition RadioRx : RadioStates := 2.
Definition RadioTx : RadioStates := 3.
Definition RadioInvalid : RadioStates := 255.

Definition RadioStates_String (s : RadioStates) : string :=
  if (s =? 0)%Z then "Off" else if (s =? 1)%Z then "Slp" else if (s =? 2)%Z then "Rx_"
  else if (s =? 3)%Z then "Tx_" else "INVALID".

Abbreviation RadioSubStates := Z (only parsing).
(** The names of sub-states 0 (READY) to 17 (CW_BACKOFF), in [iota] order. *)
Definition RadioSubStates_names : list string :=
  [ "Ready__"; "IFS____"; "CCA____"; "CCA2Tx_"; "FrameTx"; "Tx2Rx__"; "Tx2AIFS"; "TxAIFS_";
    "AckRx__"; "FrameRx"; "RxAIFS_"; "AckTx__"; "AckT2Rx"; "EnrScan"; "Startup"; "Invalid";
    "WaitCCA"; "CwBackf" ].
Definition RadioSubStates_String (s : RadioSubStates) : string :=
  if (s <? 0)%Z then "???????" else default "???????" (RadioSubStates_names !! Z.to_nat s).

(** ** OT-RFSIM parameters *)
Abbreviation RfSimParam := Z (only parsing).
Abbreviation RfSimParamValue := Z (only parsing).
Definition ParamRxSensitivity : RfSimParam := 0.
Definition ParamCcaThreshold : RfSimParam := 1.
Definition ParamCslAccuracy : RfSimParam := 2.
Definition ParamCslUncertainty : RfSimParam := 3.
Definition ParamTxInterferer : RfSimParam := 4.
Definition ParamClockDrift : RfSimParam := 5.
Definition ParamPhyBitrate : RfSimParam := 6.
Definition ParamUnknown : RfSimParam := 255.
Definition RfSimParamsList : list RfSimParam := [0; 1; 2; 3; 4; 5; 6]%Z.
Definition RfSimParamNamesList : list string :=
  [ "rxsens"; "ccath"; "cslacc"; "cslunc"; "txintf"; "clkdrift"; "bitrate" ].

Fixpoint ParseRfSimParam_loop (parName : string) (ps : list RfSimParam) (ns : list string)
    : RfSimParam :=
  match ps, ns with
  | p :: ps, n :: ns => if String.eqb parName n then p else ParseRfSimParam_loop parName ps ns
  | _, _ => ParamUnknown
  end.
Definition ParseRfSimParam (parName : string) : RfSimParam :=
  ParseRfSimParam_loop parName RfSimParamsList RfSimParamNamesList.

(** ** Default EUI-64 of an RCP *)
Definition DefaultOtRcpStackVendorIeeeOui : Z := 1618992. (* 0x18b430 *)
Definition GetDefaultRcpIeeeEui64 (nodeid : NodeId) : Z :=
  Z.lor (Z.land (u64 nodeid) (Z.ones 40)) (u64 (Z.shiftl DefaultOtRcpStackVendorIeeeOui 40)).

(** ** Node configuration *)
Record NodeConfig := mkNodeConfig {
  nc_ID : Z;
  nc_Type : string;
  nc_Version : string;
  nc_X : Z; nc_Y : Z; nc_Z : Z;
  nc_IsAutoPlaced : bool;
  nc_IsRaw : bool;
  nc_IsMtd : bool;
  nc_IsRcp : bool;
  nc_IsRouter : bool;
  nc_IsBorderRouter : bool;
  nc_IsExternal : bool;
  nc_RxOffWhenIdle : bool;
  nc_NodeLogFile : bool;
  nc_RadioRange : Z;
  nc_ExecutablePath : string;
  nc_HostExePath : string;
  nc_NetIfName : string;
  nc_Restore : bool;
  nc_InitScript : list string;
  nc_RandomSeed : Z;
  nc_RfSimParams : gmap Z Z;
}.

(** The flags that the node type determines. *)
Definition set_flags (cfg : NodeConfig) (mtd rcp router br ext rxoff : bool) : NodeConfig :=
  {| nc_ID := nc_ID cfg; nc_Type := nc_Type cfg; nc_Version := nc_Version cfg;
     nc_X := nc_X cfg; nc_Y := nc_Y cfg; nc_Z := nc_Z cfg;
     nc_IsAutoPlaced := nc_IsAutoPlaced cfg; nc_IsRaw := nc_IsRaw cfg;
     nc_IsMtd := mtd; nc_IsRcp := rcp; nc_IsRouter := router; nc_IsBorderRouter := br;
     nc_IsExternal := ext; nc_RxOffWhenIdle := rxoff; nc_NodeLogFile := nc_NodeLogFile cfg;
     nc_RadioRange := nc_RadioRange cfg; nc_ExecutablePath := nc_ExecutablePath cfg;
     nc_HostExePath := nc_HostExePath cfg; nc_NetIfName := nc_NetIfName cfg;
     nc_Restore := nc_Restore cfg; nc_InitScript := nc_InitScript cfg;
     nc_RandomSeed := nc_RandomSeed cfg; nc_RfSimParams := nc_RfSimParams cfg |}.

(** Returns the updated configuration and whether an error is returned. *)
Definition UpdateNodeConfigFromType (cfg : NodeConfig) : NodeConfig * bool :=
  let ext := nc_IsExternal cfg in
  let isT t := String.eqb (nc_Type cfg) t in
  let flags := set_flags cfg in
  if isT "router" || isT "reed" || isT "ftd" || isT "matter" then
    (flags false false true false ext false, false)
  else if isT "fed" || isT "wifi" then (flags false false false false ext false, false)
  else if isT "med" || isT "mtd" then (flags true false false false ext false, false)
  else if isT "sed" || isT "ssed" then (flags true false false false ext true, false)
  else if isT "br" then (flags false false true true ext false, false)
  else if isT "otbr" then (flags false true true true ext false, false)
  else if isT "ext" then (flags false false false false true false, false)
  else if isT "rcp" then (flags false true true false ext false, false)
  else (flags false false false false ext false, true).

(** ** Lemmas *)
Definition node_types : list string :=
  [ "fed"; "med"; "sed"; "ssed"; "router"; "reed"; "br"; "otbr"; "mtd"; "ftd"; "wifi";
    "matter"; "ext"; "rcp" ].

(** Case analysis on the string comparisons of a switch. *)
Ltac case_strings :=
  repeat match goal with
  | |- context [String.eqb ?a ?b] =>
    let E := fresh "E" in destruct (String.eqb_spec a b) as [E|E]; cbn [orb]
  end.

(** Whether the string has character [c]. *)
Definition has_char (c : ascii) (s : string) : bool :=
  existsb (Ascii.eqb c) (String.list_ascii_of_string s).

Lemma ParseNodeMode_loop_spec s m :
  ParseNodeMode_loop s m = mkNodeMode
    (RxOnWhenIdle m || has_char "r" s) (FullThreadDevice m || has_char "d" s)
    (FullNetworkData m || has_char "n" s).
Proof.
  revert m. induction s as [|c s IH]; intros [r d n]; cbn [ParseNodeMode_loop].
  - simpl. by rewrite !orb_false_r.
  - rewrite IH. unfold has_char; cbn [String.list_ascii_of_string existsb].
    rewrite !(Ascii.eqb_sym _ c).
    destruct (Ascii.eqb_spec c "r"%char); [subst; simpl; by rewrite orb_true_r|].
    destruct (Ascii.eqb_spec c "d"%char); [subst; simpl; by rewrite orb_true_r|].
    destruct (Ascii.eqb_spec c "n"%char); [subst; simpl; by rewrite orb_true_r|done].
Qed.

Lemma ParseNodeMode_spec s :
  ParseNodeMode s = mkNodeMode (has_char "r" s) (has_char "d" s) (has_char "n" s).
Proof. apply ParseNodeMode_loop_spec. Qed.

Lemma UpdateNodeConfigFromType_cases cfg :
  let '(cfg', err) := UpdateNodeConfigFromType cfg in
  err = negb (bool_decide (nc_Type cfg ∈ node_types)) /\
  exists mtd rcp router br ext rxoff, cfg' = set_flags cfg mtd rcp router br ext rxoff /\
    (mtd = true -> rcp = false /\ br = false) /\ (br = true -> router = true) /\
    (rcp = true -> router = true) /\ (rxoff = true -> mtd = true) /\
    ext = nc_IsExternal cfg || String.eqb (nc_Type cfg) "ext".
Proof.
  unfold UpdateNodeConfigFromType, node_types. case_strings; rewrite ?E0; cbn [orb negb];
  (split; [case_bool_decide; set_solver|]); do 6 eexists; (split; [reflexivity|]);
  repeat split; try discriminate; rewrite ?orb_false_r, ?orb_true_r; first [done|congruence].
Qed.

Lemma ParseRfSimParam_spec n i :
  RfSimParamNamesList !! i = Some n -> RfSimParamsList !! i = Some (ParseRfSimParam n).
Proof.
  unfold RfSimParamNamesList. intros H.
  do 7 (destruct i as [|i]; [by injection H as <-|]). done.
Qed.

Lemma ParseRfSimParam_unknown n :
  n ∉ RfSimParamNamesList <-> ParseRfSimParam n = ParamUnknown.
Proof.
  unfold ParseRfSimParam, RfSimParamNamesList, RfSimParamsList; simpl. case_strings; subst;
  (split; intros; [first [done|set_solver]|first [done|set_solver]]).
Qed.

(** The default EUI-64 is the vendor OUI over the low 40 bits of the node id. *)
Lemma GetDefaultRcpIeeeEui64_spec id :
  (0 <= id < 2 ^ 40)%Z ->
  GetDefaultRcpIeeeEui64 id = (DefaultOtRcpStackVendorIeeeOui * 2 ^ 40 + id)%Z.
Proof.
  intros H. unfold GetDefaultRcpIeeeEui64. rewrite u64_id by (unfold in_u; lia).
  rewrite Z.land_ones, Z.mod_small by lia. rewrite Z.shiftl_mul_pow2 by lia.
  rewrite u64_id by (unfold in_u, DefaultOtRcpStackVendorIeeeOui; lia).
  rewrite Z.lor_comm, <- Z.add_lor_land.
  replace (Z.land _ id) with 0%Z; [lia|]. symmetry.
  rewrite <- Z.shiftl_mul_pow2 by lia. apply Z.bits_inj'. intros n Hn.
  rewrite Z.land_spec, Z.bits_0, Z.shiftl_spec by lia.
  destruct (decide (n < 40)%Z).
  - by rewrite Z.testbit_neg_r by lia.
  - destruct (decide (id = 0)%Z) as [->|]; [by rewrite Z.bits_0, andb_false_r|].
    rewrite (Z.bits_above_log2 id), andb_false_r; [done|lia|].
    apply Z.log2_lt_pow2; [lia|]. apply Z.lt_le_trans with (2 ^ 40)%Z; [lia|].
    apply Z.pow_le_mono_r; lia.
Qed.
