(* ===== verification/Event.v ===== *)
(** * Package event: the wire format of simulation events

    [Event] and its payload records, [Serialize] and [Deserialize] (src/event/event.go),
    byte for byte.  A Go [[]byte] is a list of bytes; the slices the code takes are
    all of buffers whose capacity is their length or whose bounds are below it. *)

From S2P Require Import Prelude Types.

Local Open Scope Z_scope.

(** ** Event types *)
Definition EventTypeAlarmFired : Z := 0.
Definition EventTypeRadioReceived : Z := 1.
Definition EventTypeUartWrite : Z := 2.
Definition EventTypeUartDisconnected : Z := 3.
Definition EventTypePostCmd : Z := 4.
Definition EventTypeStatusPush : Z := 5.
Definition EventTypeRadioCommStart : Z := 6.
Definition EventTypeRadioTxDone : Z := 7.
Definition EventTypeRadioChannelSample : Z := 8.
Definition EventTypeRadioState : Z := 9.
Definition EventTypeRadioRxDone : Z := 10.
Definition EventTypeExtAddr : Z := 11.
Definition EventTypeNodeInfo : Z := 12.
Definition EventTypeNodeDisconnected : Z := 14.
Definition EventTypeRadioLog : Z := 15.
Definition EventTypeRadioRfSimParamGet : Z := 16.
Definition EventTypeRadioRfSimParamSet : Z := 17.
Definition EventTypeRadioRfSimParamRsp : Z := 18.
Definition EventTypeLogWrite : Z := 19.
Definition EventTypeUdpToHost : Z := 20.
Definition EventTypeIp6ToHost : Z := 21.
Definition EventTypeUdpFromHost : Z := 22.
Definition EventTypeIp6FromHost : Z := 23.
Definition EventTypeLogWriteHost : Z := 24.

Definition InvalidTimestamp : Z := 2 ^ 64 - 1.

(** [net/netip.Addr]: the zero value, an IPv4 and an IPv6 address. *)
Inductive Addr :=
| AddrZero
| AddrV4 (b : list Z)
| AddrV6 (b : list Z) (zone : string).
#[export] Instance Addr_eq_dec : EqDecision Addr.
Proof. solve_decision. Defined.
Definition AsSlice (a : Addr) : list Z :=
  match a with AddrZero => [] | AddrV4 b => b | AddrV6 b _ => b end.
Definition AddrFrom16 (b : list Z) : Addr := AddrV6 b "".

(** ** Payload records *)
Record RadioCommEventData := mkRadioComm {
  rc_Channel : Z; rc_PowerDbm : Z; rc_Error : Z; rc_Duration : Z;
}.
Record RadioStateEventData := mkRadioState {
  rs_Channel : Z; rs_PowerDbm : Z; rs_RxSensDbm : Z; rs_EnergyState : RadioStates;
  rs_SubState : RadioSubStates; rs_State : RadioStates; rs_RadioTime : Z;
}.
Record NodeInfoEventData := mkNodeInfo { ni_NodeId : NodeId }.
Record RfSimParamEventData := mkRfSimParam { rp_Param : RfSimParam; rp_Value : Z }.
Record MsgToHostEventData := mkMsgToHost {
  mh_SrcPort : Z; mh_DstPort : Z; mh_SrcIp6Address : Addr; mh_DstIp6Address : Addr;
}.

Definition eventMsgHeaderLen : nat := 19.
Definition radioCommEventDataHeaderLen : nat := 11.
Definition radioStateEventDataHeaderLen : nat := 14.
Definition nodeInfoEventDataHeaderLen : nat := 4.
Definition rfSimParamEventDataHeaderLen : nat := 5.
Definition msgToHostEventDataHeaderLen : nat := 36.
Definition RadioMessagePsduOffset : nat := 1.

(** [Conn] is the connection the event came in on, if any. *)
Record Event := mkEvent {
  ev_Delay : Z;
  ev_Type : Z;
  ev_MsgId : Z;
  ev_Data : list Z;
  ev_NodeId : NodeId;
  ev_Timestamp : Z;
  ev_MustDispatch : bool;
  ev_Conn : option nat;
  ev_RadioCommData : RadioCommEventData;
  ev_RadioStateData : RadioStateEventData;
  ev_NodeInfoData : NodeInfoEventData;
  ev_RfSimParamData : RfSimParamEventData;
  ev_MsgToHostData : MsgToHostEventData;
}.

(** [&Event{}]: every field at its zero value. *)
Definition zeroEvent : Event :=
  mkEvent 0 0 0 [] 0 0 false None (mkRadioComm 0 0 0 0) (mkRadioState 0 0 0 0 0 0 0)
    (mkNodeInfo 0) (mkRfSimParam 0 0) (mkMsgToHost 0 0 AddrZero AddrZero).

(** Field assignments. *)
Definition set_Delay (v : Z) (e : Event) : Event :=
  mkEvent v (ev_Type e) (ev_MsgId e) (ev_Data e) (ev_NodeId e) (ev_Timestamp e)
    (ev_MustDispatch e) (ev_Conn e) (ev_RadioCommData e) (ev_RadioStateData e)
    (ev_NodeInfoData e) (ev_RfSimParamData e) (ev_MsgToHostData e).
Definition set_Type (v : Z) (e : Event) : Event :=
  mkEvent (ev_Delay e) v (ev_MsgId e) (ev_Data e) (ev_NodeId e) (ev_Timestamp e)
    (ev_MustDispatch e) (ev_Conn e) (ev_RadioCommData e) (ev_RadioStateData e)
    (ev_NodeInfoData e) (ev_RfSimParamData e) (ev_MsgToHostData e).
Definition set_MsgId (v : Z) (e : Event) : Event :=
  mkEvent (ev_Delay e) (ev_Type e) v (ev_Data e) (ev_NodeId e) (ev_Timestamp e)
    (ev_MustDispatch e) (ev_Conn e) (ev_RadioCommData e) (ev_RadioStateData e)
    (ev_NodeInfoData e) (ev_RfSimParamData e) (ev_MsgToHostData e).
Definition set_Data (v : list Z) (e : Event) : Event :=
  mkEvent (ev_Delay e) (ev_Type e) (ev_MsgId e) v (ev_NodeId e) (ev_Timestamp e)
    (ev_MustDispatch e) (ev_Conn e) (ev_RadioCommData e) (ev_RadioStateData e)
    (ev_NodeInfoData e) (ev_RfSimParamData e) (ev_MsgToHostData e).
Definition set_NodeId (v : NodeId) (e : Event) : Event :=
  mkEvent (ev_Delay e) (ev_Type e) (ev_MsgId e) (ev_Data e) v (ev_Timestamp e)
    (ev_MustDispatch e) (ev_Conn e) (ev_RadioCommData e) (ev_RadioStateData e)
    (ev_NodeInfoData e) (ev_RfSimParamData e) (ev_MsgToHostData e).
Definition set_Timestamp (v : Z) (e : Event) : Event :=
  mkEvent (ev_Delay e) (ev_Type e) (ev_MsgId e) (ev_Data e) (ev_NodeId e) v
    (ev_MustDispatch e) (ev_Conn e) (ev_RadioCommData e) (ev_RadioStateData e)
    (ev_NodeInfoData e) (ev_RfSimParamData e) (ev_MsgToHostData e).
Definition set_MustDispatch (v : bool) (e : Event) : Event :=
  mkEvent (ev_Delay e) (ev_Type e) (ev_MsgId e) (ev_Data e) (ev_NodeId e) (ev_Timestamp e)
    v (ev_Conn e) (ev_RadioCommData e) (ev_RadioStateData e)
    (ev_NodeInfoData e) (ev_RfSimParamData e) (ev_MsgToHostData e).
Definition set_Conn (v : option nat) (e : Event) : Event :=
  mkEvent (ev_Delay e) (ev_Type e) (ev_MsgId e) (ev_Data e) (ev_NodeId e) (ev_Timestamp e)
    (ev_MustDispatch e) v (ev_RadioCommData e) (ev_RadioStateData e)
    (ev_NodeInfoData e) (ev_RfSimParamData e) (ev_MsgToHostData e).
Definition set_RadioCommData (v : RadioCommEventData) (e : Event) : Event :=
  mkEvent (ev_Delay e) (ev_Type e) (ev_MsgId e) (ev_Data e) (ev_NodeId e) (ev_Timestamp e)
    (ev_MustDispatch e) (ev_Conn e) v (ev_RadioStateData e)
    (ev_NodeInfoData e) (ev_RfSimParamData e) (ev_MsgToHostData e).
Definition set_RadioStateData (v : RadioStateEventData) (e : Event) : Event :=
  mkEvent (ev_Delay e) (ev_Type e) (ev_MsgId e) (ev_Data e) (ev_NodeId e) (ev_Timestamp e)
    (ev_MustDispatch e) (ev_Conn e) (ev_RadioCommData e) v
    (ev_NodeInfoData e) (ev_RfSimParamData e) (ev_MsgToHostData e).
Definition set_NodeInfoData (v : NodeInfoEventData) (e : Event) : Event :=
  mkEvent (ev_Delay e) (ev_Type e) (ev_MsgId e) (ev_Data e) (ev_NodeId e) (ev_Timestamp e)
    (ev_MustDispatch e) (ev_Conn e) (ev_RadioCommData e) (ev_RadioStateData e)
    v (ev_RfSimParamData e) (ev_MsgToHostData e).
Definition set_RfSimParamData (v : RfSimParamEventData) (e : Event) : Event :=
  mkEvent (ev_Delay e) (ev_Type e) (ev_MsgId e) (ev_Data e) (ev_NodeId e) (ev_Timestamp e)
    (ev_MustDispatch e) (ev_Conn e) (ev_RadioCommData e) (ev_RadioStateData e)
    (ev_NodeInfoData e) v (ev_MsgToHostData e).
Definition set_MsgToHostData (v : MsgToHostEventData) (e : Event) : Event :=
  mkEvent (ev_Delay e) (ev_Type e) (ev_MsgId e) (ev_Data e) (ev_NodeId e) (ev_Timestamp e)
    (ev_MustDispatch e) (ev_Conn e) (ev_RadioCommData e) (ev_RadioStateData e)
    (ev_NodeInfoData e) (ev_RfSimParamData e) v.

(** ** Serialize *)

(** The composite part of the payload, by event type. *)
Definition serialize_extraFields (e : Event) : list Z :=
  let t := ev_Type e in
  if (t =? EventTypeRadioChannelSample) || (t =? EventTypeRadioRxDone)
     || (t =? EventTypeRadioTxDone) || (t =? EventTypeRadioCommStart) then
    let d := ev_RadioCommData e in
    [u8 (rc_Channel d); u8 (rc_PowerDbm d); u8 (rc_Error d)] ++ le_put 8 (rc_Duration d)
  else if (t =? EventTypeRadioRfSimParamSet) || (t =? EventTypeRadioRfSimParamGet) then
    let d := ev_RfSimParamData e in
    [u8 (rp_Param d)] ++ le_put 4 (u32 (rp_Value d))
  else if (t =? EventTypeUdpFromHost) || (t =? EventTypeIp6FromHost) then
    let d := ev_MsgToHostData e in
    let x := copy_at (replicate msgToHostEventDataHeaderLen 0) 0 (le_put 2 (mh_SrcPort d)) in
    let x := copy_at x 2 (le_put 2 (mh_DstPort d)) in
    let x := copy_at x 4 (take 16 (AsSlice (mh_SrcIp6Address d))) in
    copy_at x 20 (take 16 (AsSlice (mh_DstIp6Address d)))
  else [].

Definition Serialize (e : Event) : list Z :=
  let payload := serialize_extraFields e ++ ev_Data e in
  le_put 8 (ev_Delay e) ++ [u8 (ev_Type e)] ++ le_put 8 (ev_MsgId e)
    ++ le_put 2 (u16 (Z.of_nat (length payload))) ++ payload.

(** ** Deserialize *)
Definition deserializeRadioCommData (data : list Z) : res RadioCommEventData :=
  _ ← assert_true (bool_decide (radioCommEventDataHeaderLen <= length data)%nat);
  ch ← index data 0; pw ← index data 1; er ← index data 2;
  du ← slice data 3 11;
  Ok (mkRadioComm ch (to_signed 8 pw) er (le_get du)).

Definition deserializeRadioStateData (data : list Z) : res RadioStateEventData :=
  _ ← assert_true (bool_decide (radioStateEventDataHeaderLen <= length data)%nat);
  ch ← index data 0; pw ← index data 1; rx ← index data 2;
  es ← index data 3; ss ← index data 4; st ← index data 5;
  rt ← slice data 6 14;
  Ok (mkRadioState ch (to_signed 8 pw) (to_signed 8 rx) es ss st (le_get rt)).

Definition deserializeNodeInfoData (data : list Z) : res NodeInfoEventData :=
  _ ← assert_true (bool_decide (nodeInfoEventDataHeaderLen <= length data)%nat);
  id ← slice data 0 4;
  Ok (mkNodeInfo (le_get id)).

Definition deserializeRfSimParamData (data : list Z) : res RfSimParamEventData :=
  _ ← assert_true (bool_decide (rfSimParamEventDataHeaderLen <= length data)%nat);
  p ← index data 0;
  v ← slice data 1 5;
  Ok (mkRfSimParam p (to_signed 32 (le_get v))).

Definition deserializeMsgToHostData (data : list Z) : res MsgToHostEventData :=
  _ ← assert_true (bool_decide (msgToHostEventDataHeaderLen <= length data)%nat);
  src ← slice data 4 20; dst ← slice data 20 36;
  sp ← slice data 0 2; dp ← slice data 2 4;
  Ok (mkMsgToHost (le_get sp) (le_get dp) (AddrFrom16 src) (AddrFrom16 dst)).

(** The composite part of the payload [ev_Data e], by event type: the event with the
    payload record set, and the length of the part. *)
Definition deserialize_composite (e : Event) : res (Event * nat) :=
  let t := ev_Type e in
  let d := ev_Data e in
  if t =? EventTypeRadioChannelSample then
    r ← deserializeRadioCommData d;
    Ok (set_RadioCommData r e, radioCommEventDataHeaderLen)
  else if (t =? EventTypeRadioRxDone) || (t =? EventTypeRadioCommStart) then
    r ← deserializeRadioCommData d;
    c ← index d radioCommEventDataHeaderLen;
    _ ← assert_true (rc_Channel r =? c);
    Ok (set_RadioCommData r e, radioCommEventDataHeaderLen)
  else if t =? EventTypeRadioState then
    r ← deserializeRadioStateData d;
    Ok (set_RadioStateData r e, radioStateEventDataHeaderLen)
  else if t =? EventTypeNodeInfo then
    r ← deserializeNodeInfoData d;
    Ok (set_NodeInfoData r e, nodeInfoEventDataHeaderLen)
  else if t =? EventTypeRadioRfSimParamRsp then
    r ← deserializeRfSimParamData d;
    Ok (set_RfSimParamData r e, rfSimParamEventDataHeaderLen)
  else if (t =? EventTypeUdpToHost) || (t =? EventTypeIp6ToHost) then
    r ← deserializeMsgToHostData d;
    Ok (set_MsgToHostData r e, msgToHostEventDataHeaderLen)
  else Ok (e, 0%nat).

(** [e.Deserialize(data)]: the number of bytes used, 0 if the event is incomplete, and
    the event as the call leaves it.  [datalen], the comparison with the remaining
    length and the end of the payload are [uint16] computations. *)
Definition Deserialize (e : Event) (data : list Z) : res (Z * Event) :=
  let n := length data in
  if bool_decide (n < eventMsgHeaderLen)%nat then Ok (0, e) else
  delay ← slice data 0 8;
  ty ← index data 8;
  msgid ← slice data 9 17;
  dl ← slice data 17 19;
  let e := set_MsgId (le_get msgid) (set_Type ty (set_Delay (le_get delay) e)) in
  let datalen := le_get dl in
  if datalen >? u16 (Z.of_nat (n - eventMsgHeaderLen)) then Ok (0, e) else
  let hi := u16 (Z.of_nat eventMsgHeaderLen + datalen) in
  body ← slice data eventMsgHeaderLen (Z.to_nat hi);
  '(e, payloadOffset) ← deserialize_composite (set_Data body e);
  data2 ← slice (ev_Data e) payloadOffset (Z.to_nat datalen);
  Ok (hi, set_Timestamp InvalidTimestamp (set_Data data2 e)).

(** [e.Copy()] is a copy of the record: the value itself. *)
Definition Copy (e : Event) : Event := e.

(** ** Lemmas *)

(** The event a frame with this header and payload decodes to, before the payload is
    interpreted. *)
Definition with_header (delay ty msgid : Z) (payload : list Z) (e : Event) : Event :=
  set_Data payload (set_MsgId msgid (set_Type ty (set_Delay delay e))).

(** What [Deserialize] does once a frame has been delimited. *)
Definition decode_payload (e : Event) : res (Z * Event) :=
  '(e', off) ← deserialize_composite e;
  data2 ← slice (ev_Data e') off (length (ev_Data e));
  Ok (Z.of_nat (eventMsgHeaderLen + length (ev_Data e)),
      set_Timestamp InvalidTimestamp (set_Data data2 e')).

(** The header of a frame whose payload has length [len]. *)
Definition header (delay ty msgid : Z) (len : nat) : list Z :=
  le_put 8 delay ++ [ty] ++ le_put 8 msgid ++ le_put 2 (Z.of_nat len).

Lemma length_header delay ty msgid len : length (header delay ty msgid len) = 19%nat.
Proof. unfold header. by rewrite !length_app, !length_le_put. Qed.

(** A complete frame is delimited by its length field, whatever follows it. *)
Lemma Deserialize_frame e0 delay ty msgid payload rest :
  in_u 64 delay -> in_u 64 msgid ->
  Z.of_nat (length payload) <= 65516 ->
  Z.of_nat (length payload) + Z.of_nat (length rest) < 65536 ->
  Deserialize e0 (header delay ty msgid (length payload) ++ payload ++ rest)
  = decode_payload (with_header delay ty msgid payload e0).
Proof.
  intros Hd Hm HL Hn. unfold Deserialize.
  rewrite bool_decide_false by (rewrite !length_app, length_header; unfold eventMsgHeaderLen; lia).
  remember (header delay ty msgid (length payload)) as H eqn:EH.
  assert (length H = 19%nat) as LH by (rewrite EH; apply length_header).
  assert (forall a b c lo hi, H = a ++ b ++ c -> lo = length a -> hi = (length a + length b)%nat ->
    slice (H ++ payload ++ rest) lo hi = Ok b) as Hs.
  { intros a b c lo hi -> -> ->. rewrite <- !app_assoc. by apply slice_mid. }
  rewrite (Hs [] (le_put 8 delay) ([ty] ++ le_put 8 msgid ++ le_put 2 (Z.of_nat (length payload))) 0%nat 8%nat)
    by (rewrite ?length_le_put; exact EH || reflexivity).
  replace (index (H ++ payload ++ rest) 8) with (Ok ty); [|symmetry; apply index_Ok;
    rewrite lookup_app_l by lia; rewrite EH; unfold header;
    rewrite lookup_app_r by (rewrite length_le_put; lia); by rewrite length_le_put].
  rewrite (Hs (le_put 8 delay ++ [ty]) (le_put 8 msgid) (le_put 2 (Z.of_nat (length payload))) 9%nat 17%nat)
    by (rewrite ?length_app, ?length_le_put, <- ?app_assoc; exact EH || reflexivity).
  rewrite (Hs (le_put 8 delay ++ [ty] ++ le_put 8 msgid) (le_put 2 (Z.of_nat (length payload))) [] 17%nat 19%nat)
    by (rewrite ?length_app, ?length_le_put, ?app_nil_r, <- ?app_assoc; exact EH || reflexivity).
  cbn [mbind res_bind].
  rewrite !(le_get_put_id 8), (le_get_put_id 2) by (done || unfold in_u; lia).
  rewrite (length_app H), LH, length_app. unfold eventMsgHeaderLen.
  rewrite Z.gtb_ltb. destruct (Z.ltb_spec (u16 (Z.of_nat (19 + (length payload + length rest) - 19)))
    (Z.of_nat (length payload))) as [Hlt|_]; [rewrite u16_id in Hlt; unfold in_u in *; lia|].
  rewrite u16_id by (unfold in_u; lia).
  rewrite (slice_mid H payload rest) by lia. cbn [mbind res_bind].
  unfold decode_payload, with_header. destruct (deserialize_composite _) as [[e' off]|p]; simpl; [|done].
  rewrite Nat2Z.id. destruct (slice _ _ _); simpl; [|done]. do 3 f_equal. lia.
Qed.

(** The fields of an event are within their Go types. *)
Record event_wf (e : Event) : Prop := {
  wf_Delay : in_u 64 (ev_Delay e);
  wf_Type : in_u 8 (ev_Type e);
  wf_MsgId : in_u 64 (ev_MsgId e);
  wf_Channel : in_u 8 (rc_Channel (ev_RadioCommData e));
  wf_PowerDbm : in_s 8 (rc_PowerDbm (ev_RadioCommData e));
  wf_Error : in_u 8 (rc_Error (ev_RadioCommData e));
  wf_Duration : in_u 64 (rc_Duration (ev_RadioCommData e));
}.

(** The event types whose payload starts with a [RadioCommEventData] in both
    directions, and those without a composite part in either. *)
Definition is_radio_comm (t : Z) : bool :=
  (t =? EventTypeRadioChannelSample) || (t =? EventTypeRadioRxDone)
  || (t =? EventTypeRadioCommStart).
Definition is_plain (t : Z) : bool :=
  negb (bool_decide (t ∈ [6; 7; 8; 9; 10; 12; 16; 17; 18; 20; 21; 22; 23])).

Definition wire_length (e : Event) : Z :=
  Z.of_nat (length (serialize_extraFields e ++ ev_Data e)).

(** [e0] after it received the frame of [e]. *)
Definition received (e e0 : Event) : Event :=
  set_Timestamp InvalidTimestamp
    (with_header (ev_Delay e) (ev_Type e) (ev_MsgId e) (ev_Data e) e0).

Lemma Serialize_frame e :
  in_u 8 (ev_Type e) -> wire_length e < 65536 ->
  Serialize e = header (ev_Delay e) (ev_Type e) (ev_MsgId e)
    (length (serialize_extraFields e ++ ev_Data e)) ++ serialize_extraFields e ++ ev_Data e.
Proof.
  intros Ht Hl. unfold Serialize, header. rewrite u8_id by done.
  rewrite u16_id by (unfold in_u, wire_length in *; lia). by rewrite <- !app_assoc.
Qed.

Lemma length_Serialize e :
  Z.of_nat (length (Serialize e)) = Z.of_nat eventMsgHeaderLen + wire_length e.
Proof.
  unfold Serialize, wire_length, eventMsgHeaderLen.
  rewrite !length_app, !length_le_put. cbn [length]. lia.
Qed.

Lemma Deserialize_Serialize_payload e e0 rest :
  event_wf e -> wire_length e <= 65516 -> wire_length e + Z.of_nat (length rest) < 65536 ->
  Deserialize e0 (Serialize e ++ rest) =
    decode_payload (with_header (ev_Delay e) (ev_Type e) (ev_MsgId e)
      (serialize_extraFields e ++ ev_Data e) e0).
Proof.
  intros W H1 H2. rewrite Serialize_frame by (apply W || lia). rewrite <- app_assoc.
  apply Deserialize_frame; apply W || done.
Qed.

Lemma serialize_extraFields_comm e :
  is_radio_comm (ev_Type e) = true ->
  serialize_extraFields e =
    [u8 (rc_Channel (ev_RadioCommData e)); u8 (rc_PowerDbm (ev_RadioCommData e));
     u8 (rc_Error (ev_RadioCommData e))] ++ le_put 8 (rc_Duration (ev_RadioCommData e)).
Proof.
  unfold is_radio_comm, serialize_extraFields. intros H.
  apply orb_true_iff in H as [[->| ->]%orb_true_iff| ->]; rewrite ?orb_true_r; done.
Qed.

Lemma deserializeRadioCommData_serialize e d :
  event_wf e -> is_radio_comm (ev_Type e) = true ->
  deserializeRadioCommData (serialize_extraFields e ++ d) = Ok (ev_RadioCommData e).
Proof.
  intros W Hc. rewrite serialize_extraFields_comm by done. unfold deserializeRadioCommData.
  rewrite bool_decide_true
    by (rewrite !length_app, length_le_put; unfold radioCommEventDataHeaderLen; simpl; lia).
  cbn [mbind res_bind assert_true].
  rewrite !u8_id with (z := rc_Channel _) by apply W.
  rewrite !u8_id with (z := rc_Error _) by apply W.
  set (c := [_; _; _]). rewrite <- app_assoc.
  rewrite (slice_mid c (le_put 8 (rc_Duration (ev_RadioCommData e))) d)
    by (rewrite ?length_le_put; done). simpl.
  unfold u8. rewrite (to_signed_mod 8) by (lia || apply W).
  rewrite (le_get_put_id 8) by apply W. by destruct (ev_RadioCommData e).
Qed.

Lemma length_extraFields_comm e :
  is_radio_comm (ev_Type e) = true ->
  length (serialize_extraFields e) = radioCommEventDataHeaderLen.
Proof. intros. rewrite serialize_extraFields_comm by done. by rewrite length_app, length_le_put. Qed.

(** A radio frame survives the trip, with the channel copy in its first byte. *)
Lemma decode_radio_comm e e0 :
  event_wf e -> is_radio_comm (ev_Type e) = true ->
  (ev_Type e = EventTypeRadioChannelSample \/
   ev_Data e !! 0%nat = Some (rc_Channel (ev_RadioCommData e))) ->
  deserialize_composite (with_header (ev_Delay e) (ev_Type e) (ev_MsgId e)
      (serialize_extraFields e ++ ev_Data e) e0) =
    Ok (set_RadioCommData (ev_RadioCommData e) (with_header (ev_Delay e) (ev_Type e) (ev_MsgId e)
      (serialize_extraFields e ++ ev_Data e) e0), radioCommEventDataHeaderLen).
Proof.
  intros W Hc Hch. unfold deserialize_composite, with_header. cbn.
  rewrite deserializeRadioCommData_serialize by done.
  pose proof (length_extraFields_comm e Hc) as Hl.
  destruct (Z.eqb_spec (ev_Type e) EventTypeRadioChannelSample) as [->|Hne]; [done|].
  destruct Hch as [|Hch]; [done|]. unfold is_radio_comm in Hc.
  rewrite (proj2 (Z.eqb_neq _ _) Hne) in Hc. cbn [orb] in Hc. rewrite Hc. cbn [mbind res_bind].
  unfold index. rewrite lookup_app_r by lia. rewrite Hl, Nat.sub_diag, Hch. cbn.
  by rewrite Z.eqb_refl.
Qed.

Lemma composite_plain e :
  is_plain (ev_Type e) = true ->
  serialize_extraFields e = [] /\ deserialize_composite e = Ok (e, 0%nat).
Proof.
  unfold is_plain. intros H%negb_true_iff%bool_decide_eq_false.
  assert (forall k, k ∈ [6; 7; 8; 9; 10; 12; 16; 17; 18; 20; 21; 22; 23] ->
    (ev_Type e =? k) = false) as Hk.
  { intros k Hk. apply Z.eqb_neq. intros E. apply H. by rewrite E. }
  unfold serialize_extraFields, deserialize_composite.
  change EventTypeRadioChannelSample with 8. change EventTypeRadioRxDone with 10.
  change EventTypeRadioTxDone with 7. change EventTypeRadioCommStart with 6.
  change EventTypeRadioRfSimParamSet with 17. change EventTypeRadioRfSimParamGet with 16.
  change EventTypeUdpFromHost with 22. change EventTypeIp6FromHost with 23.
  change EventTypeRadioState with 9. change EventTypeNodeInfo with 12.
  change EventTypeRadioRfSimParamRsp with 18. change EventTypeUdpToHost with 20.
  change EventTypeIp6ToHost with 21.
  rewrite !Hk by set_solver. done.
Qed.

(** The number of bytes a frame takes, as its header announces it. *)
Definition frame_length (data : list Z) : Z :=
  Z.of_nat eventMsgHeaderLen + le_get (take 2 (drop 17 data)).

Lemma slice_take_drop {A} (l : list A) lo hi :
  (lo <= hi <= length l)%nat -> slice l lo hi = Ok (take (hi - lo) (drop lo l)).
Proof. intros. by apply slice_Ok. Qed.

(** [Deserialize] past the header fields. *)
Lemma Deserialize_unfold e data :
  (19 <= length data)%nat ->
  exists delay ty msgid, Deserialize e data =
    if frame_length data - 19 >? u16 (Z.of_nat (length data - 19)) then
      Ok (0, set_MsgId msgid (set_Type ty (set_Delay delay e)))
    else
      let hi := u16 (frame_length data) in
      body ← slice data eventMsgHeaderLen (Z.to_nat hi);
      '(e, payloadOffset) ← deserialize_composite (with_header delay ty msgid body e);
      data2 ← slice (ev_Data e) payloadOffset (Z.to_nat (frame_length data - 19));
      Ok (hi, set_Timestamp InvalidTimestamp (set_Data data2 e)).
Proof.
  intros Hl. unfold Deserialize, frame_length.
  rewrite bool_decide_false by (unfold eventMsgHeaderLen; lia).
  rewrite !slice_take_drop by lia.
  destruct (lookup_lt_is_Some_2 data 8 ltac:(lia)) as [ty Hty].
  unfold index. rewrite Hty. cbn [mbind res_bind].
  change (17 - 9)%nat with 8%nat. change (19 - 17)%nat with 2%nat. change (8 - 0)%nat with 8%nat.
  unfold eventMsgHeaderLen. exists (le_get (take 8 (drop 0 data))), ty, (le_get (take 8 (drop 9 data))).
  replace (Z.of_nat 19 + le_get (take 2 (drop 17 data)) - 19)
    with (le_get (take 2 (drop 17 data))) by lia. done.
Qed.

Lemma frame_length_range data :
  bytes_ok data -> (19 <= length data)%nat -> 19 <= frame_length data < 19 + 65536.
Proof.
  intros Hb Hl. unfold frame_length, eventMsgHeaderLen.
  assert (bytes_ok (take 2 (drop 17 data))) as H by (apply Forall_take, Forall_drop, Hb).
  apply le_get_range in H. rewrite length_take, length_drop in H.
  replace (2 `min` (length data - 17))%nat with 2%nat in H by lia. unfold in_u in H. lia.
Qed.

(** A decoded length is never zero: a wrapped end of payload panics. *)
Lemma Deserialize_Ok_length e data k e' :
  bytes_ok data -> (19 <= length data)%nat ->
  Deserialize e data = Ok (k, e') ->
  k = 0 /\ (frame_length data - 19 >? u16 (Z.of_nat (length data - 19))) = true \/
  k = frame_length data /\ (frame_length data - 19 >? u16 (Z.of_nat (length data - 19))) = false
    /\ frame_length data <= Z.of_nat (length data) /\ 19 <= k < 65536.
Proof.
  intros Hb Hl H. destruct (Deserialize_unfold e data Hl) as (d & t & m & E). rewrite E in H.
  pose proof (frame_length_range data Hb Hl) as Hr.
  destruct (_ >? _) eqn:G; [left; by simplify_eq/=|right].
  apply bind_Ok in H as (body & Hs & H). apply slice_Ok in Hs as [Hs _].
  apply bind_Ok in H as ([e1 off] & _ & H). apply bind_Ok in H as (d2 & _ & H).
  injection H as <- _. unfold eventMsgHeaderLen in Hs.
  assert (u16 (frame_length data) = frame_length data) as E16.
  { destruct (decide (frame_length data < 65536)); [apply u16_id; unfold in_u; lia|].
    assert (u16 (frame_length data) = frame_length data - 65536) as E16.
    { unfold u16. symmetry. apply (Z.mod_unique _ _ 1); lia. }
    rewrite E16 in Hs. lia. }
  rewrite E16 in *. pose proof (Z.mod_pos_bound (frame_length data) (2 ^ 16) ltac:(lia)).
  unfold u16 in E16. repeat split; lia.
Qed.

(** ** Theorems *)

(** C18: a radio event (frame start, frame end or channel sample) that OTNS serializes
    is read back by [Deserialize] with the same delay, type, message id, radio data and
    payload, using exactly the bytes of the frame, whatever follows it in the buffer
    (up to 64 KB of buffered data). *)
Theorem Deserialize_Serialize_radio e e0 rest :
  event_wf e -> is_radio_comm (ev_Type e) = true ->
  (ev_Type e = EventTypeRadioChannelSample \/
   ev_Data e !! 0%nat = Some (rc_Channel (ev_RadioCommData e))) ->
  wire_length e <= 65516 -> wire_length e + Z.of_nat (length rest) < 65536 ->
  Deserialize e0 (Serialize e ++ rest) =
    Ok (Z.of_nat (length (Serialize e)), set_RadioCommData (ev_RadioCommData e) (received e e0)).
Proof.
  intros W Hc Hch H1 H2. rewrite Deserialize_Serialize_payload by done.
  unfold decode_payload. rewrite decode_radio_comm by done. cbn [mbind res_bind].
  cbn [ev_Data with_header set_Data set_RadioCommData].
  pose proof (length_extraFields_comm e Hc) as Hl.
  rewrite slice_take_drop by (rewrite length_app; lia). cbn [mbind res_bind].
  rewrite <- Hl, drop_app_length, take_ge by (rewrite length_app; lia).
  rewrite length_Serialize. unfold wire_length, eventMsgHeaderLen. rewrite Nat2Z.inj_add. done.
Qed.

Definition sample_radio_event : Event :=
  set_Data [11; 1; 2; 3] (set_RadioCommData (mkRadioComm 11 (-60) 0 320)
    (set_Type EventTypeRadioCommStart (set_Delay 5 (set_MsgId 7 zeroEvent)))).

Lemma Deserialize_Serialize_radio_witness :
  Deserialize zeroEvent (Serialize sample_radio_event ++ [9; 9]) =
    Ok (34, set_RadioCommData (mkRadioComm 11 (-60) 0 320) (received sample_radio_event zeroEvent)).
Proof.
  apply (Deserialize_Serialize_radio sample_radio_event zeroEvent [9; 9]).
  - split; vm_compute; split; discriminate || done.
  - done.
  - right. done.
  - vm_compute. done.
  - vm_compute. done.
Defined.

(** an event of a type without composite payload (alarm, UART, status push, log,
    external address, ...) is read back with its payload unchanged, whatever follows it
    in the buffer. *)
Theorem Deserialize_Serialize_plain e e0 rest :
  event_wf e -> is_plain (ev_Type e) = true ->
  wire_length e <= 65516 -> wire_length e + Z.of_nat (length rest) < 65536 ->
  Deserialize e0 (Serialize e ++ rest) = Ok (Z.of_nat (length (Serialize e)), received e e0).
Proof.
  intros W Hp H1 H2. rewrite Deserialize_Serialize_payload by done.
  destruct (composite_plain e Hp) as [Hx _].
  pose proof (composite_plain (with_header (ev_Delay e) (ev_Type e) (ev_MsgId e) (ev_Data e) e0) Hp)
    as [_ Hd].
  unfold decode_payload. rewrite Hx, app_nil_l, Hd. cbn [mbind res_bind ev_Data with_header set_Data].
  rewrite slice_take_drop by lia. cbn [mbind res_bind].
  rewrite Nat.sub_0_r, drop_0, take_ge by lia.
  rewrite length_Serialize. unfold wire_length, eventMsgHeaderLen.
  rewrite Hx, app_nil_l, Nat2Z.inj_add. done.
Qed.

Lemma Deserialize_Serialize_plain_witness :
  Deserialize zeroEvent (Serialize (set_Data [65; 66] (set_Type EventTypeUartWrite zeroEvent))) =
    Ok (21, received (set_Data [65; 66] (set_Type EventTypeUartWrite zeroEvent)) zeroEvent).
Proof.
  pose proof (Deserialize_Serialize_plain
    (set_Data [65; 66] (set_Type EventTypeUartWrite zeroEvent)) zeroEvent []) as H.
  rewrite app_nil_r in H. apply H.
  - split; vm_compute; split; discriminate || done.
  - done.
  - vm_compute. done.
  - vm_compute. done.
Defined.

(** within 64 KB of buffered data, [Deserialize] answers 0 exactly when the buffer
    does not hold a whole event: fewer bytes than the header, or fewer than the header's
    length field announces. *)
Theorem Deserialize_incomplete e data :
  bytes_ok data -> Z.of_nat (length data) < 19 + 65536 ->
  (exists e', Deserialize e data = Ok (0, e')) <->
  (length data < 19)%nat \/ Z.of_nat (length data) < frame_length data.
Proof.
  intros Hb Hn. destruct (decide (length data < 19)%nat) as [Hl|Hl].
  { split; [by left|]. intros _. exists e. unfold Deserialize.
    by rewrite bool_decide_true by done. }
  pose proof (frame_length_range data Hb ltac:(lia)) as Hr.
  assert (u16 (Z.of_nat (length data - 19)) = Z.of_nat (length data - 19)) as E16
    by (apply u16_id; unfold in_u; lia).
  split.
  - intros [e' H]. right. apply Deserialize_Ok_length in H as [[_ H]|(H & _)]; [|lia|done|lia].
    apply Z.gtb_lt in H. lia.
  - intros [H|H]; [lia|]. destruct (Deserialize_unfold e data ltac:(lia)) as (d & t & m & E).
    rewrite E, E16. rewrite (proj2 (Z.gtb_lt _ _)) by lia. by eexists.
Qed.

Lemma Deserialize_incomplete_witness :
  exists e', Deserialize zeroEvent (take 20 (Serialize sample_radio_event)) = Ok (0, e').
Proof.
  apply (Deserialize_incomplete zeroEvent (take 20 (Serialize sample_radio_event))).
  - vm_compute. repeat constructor; intros ?; discriminate.
  - vm_compute. done.
  - right. vm_compute. done.
Defined.

(** beyond 64 KB of buffered data the length check is done modulo 65536: a complete
    event at the head of the buffer is reported as incomplete when the number of bytes
    after the header, modulo 65536, is smaller than its payload. *)
Theorem Deserialize_wraps e0 delay ty msgid payload rest :
  Z.of_nat (length payload) < 65536 ->
  (Z.of_nat (length payload) + Z.of_nat (length rest)) mod 65536 < Z.of_nat (length payload) ->
  exists e', Deserialize e0 (header delay ty msgid (length payload) ++ payload ++ rest) = Ok (0, e').
Proof.
  intros HL Hw. set (data := header _ _ _ _ ++ _).
  assert (length data = (19 + (length payload + length rest))%nat) as Hld.
  { unfold data. by rewrite !length_app, length_header. }
  assert (frame_length data = 19 + Z.of_nat (length payload)) as Hf.
  { unfold frame_length, data, header. rewrite <- !app_assoc.
    rewrite !(app_assoc _ [ty]), !(app_assoc _ (le_put 8 msgid)).
    rewrite drop_app_length' by (rewrite !length_app, !length_le_put; done).
    rewrite take_app_length' by (by rewrite length_le_put).
    rewrite le_get_put_id by (unfold in_u; simpl; lia). unfold eventMsgHeaderLen. lia. }
  destruct (Deserialize_unfold e0 data ltac:(lia)) as (d & t & m & E).
  rewrite E, Hf, Hld. rewrite (proj2 (Z.gtb_lt _ _)); [by eexists|].
  replace (Z.of_nat (19 + (length payload + length rest) - 19))
    with (Z.of_nat (length payload) + Z.of_nat (length rest)) by lia.
  unfold u16. change (2 ^ 16) with 65536. lia.
Qed.

Lemma Deserialize_wraps_witness :
  exists e', Deserialize zeroEvent
    (header 0 EventTypeUartWrite 1 1 ++ [65] ++ replicate (Z.to_nat 65535) 0) = Ok (0, e').
Proof.
  apply (Deserialize_wraps zeroEvent 0 EventTypeUartWrite 1 [65] (replicate (Z.to_nat 65535) 0)).
  - done.
  - rewrite length_replicate, Z2Nat.id by lia. done.
Defined.
