(* ===== verification/SendQueue.v ===== *)
(** * The dispatcher's event queue

    [sendQueue] (src/dispatcher/send_queue.go): pending events in a binary heap on
    timestamp, then node id.  The queue holds [*Event] pointers; an event is owned by
    the queue between [Add] and [PopNext] (no caller keeps the pointer it adds), so the
    queue is a list of event values and [DisableEventsForNode] updates them in place. *)

From S2P Require Import Prelude Types Event GoHeap.

Local Open Scope Z_scope.

Abbreviation sendQueue := (list Event) (only parsing).

(** [sq.Less], on the events themselves. *)
Definition evt_less (a b : Event) : bool :=
  if ev_Timestamp a =? ev_Timestamp b then ev_NodeId a <? ev_NodeId b
  else ev_Timestamp a <? ev_Timestamp b.

Definition sq_Less (q : sendQueue) (i j : nat) : res bool :=
  a ← index q i; b ← index q j; Ok (evt_less a b).
Definition sq_Swap (i j : nat) (q : sendQueue) : res sendQueue :=
  a ← index q i; b ← index q j; Ok (<[i:=b]> (<[j:=a]> q)).
Definition sq_Push (e : Event) (q : sendQueue) : res sendQueue := Ok (q ++ [e]).
Definition sq_Pop (q : sendQueue) : res (Event * sendQueue) :=
  match last q with
  | Some e => Ok (e, take (length q - 1) q)
  | None => Panic IndexOutOfRange
  end.

#[export] Instance sendQueue_heap : HeapI sendQueue Event := {|
  h_len := length; h_less := sq_Less; h_swap := sq_Swap; h_push := sq_Push; h_pop := sq_Pop;
|}.

Definition newSendQueue : res sendQueue := Init ([] : sendQueue).
Definition NextTimestamp (q : sendQueue) : Z :=
  match q with e :: _ => ev_Timestamp e | [] => Ever end.
Definition NextEvent (q : sendQueue) : option Event := head q.
Definition Add (e : Event) (q : sendQueue) : res sendQueue := Push e q.
Definition PopNext (q : sendQueue) : res (Event * sendQueue) := Pop q.
Definition disable_event (nodeid : NodeId) (e : Event) : Event :=
  if ev_NodeId e =? nodeid then set_NodeId InvalidNodeId e else e.
Definition DisableEventsForNode (nodeid : NodeId) (q : sendQueue) : sendQueue :=
  map (disable_event nodeid) q.

(** ** Orders on events *)
Definition ts_le (a b : Event) : Prop := ev_Timestamp a <= ev_Timestamp b.
Definition key_le (a b : Event) : Prop :=
  ev_Timestamp a < ev_Timestamp b \/
  ev_Timestamp a = ev_Timestamp b /\ ev_NodeId a <= ev_NodeId b.

#[export] Instance ts_le_dec a b : Decision (ts_le a b).
Proof. unfold ts_le. apply _. Defined.
#[export] Instance ts_le_order : HeapOrder evt_less ts_le.
Proof.
  split.
  - split; [intros ?|intros ???]; unfold ts_le; lia.
  - intros a b. unfold evt_less, ts_le. destruct (Z.eqb_spec (ev_Timestamp a) (ev_Timestamp b)); lia.
  - intros a b. unfold evt_less, ts_le. destruct (Z.eqb_spec (ev_Timestamp a) (ev_Timestamp b)); lia.
Qed.
#[export] Instance key_le_order : HeapOrder evt_less key_le.
Proof.
  split.
  - split; [intros ?|intros ???]; unfold key_le; lia.
  - intros a b. unfold evt_less, key_le. destruct (Z.eqb_spec (ev_Timestamp a) (ev_Timestamp b)); lia.
  - intros a b. unfold evt_less, key_le. destruct (Z.eqb_spec (ev_Timestamp a) (ev_Timestamp b)); lia.
Qed.

Definition sq_any (_ : sendQueue) : Prop := True.

#[export] Instance sendQueue_laws :
  HeapLaws (S := sendQueue) (X := Event) (fun q => q) sq_any evt_less (fun e => e).
Proof.
  split.
  - done.
  - intros s i j a b _ Ha Hb. simpl. unfold sq_Less, index. by rewrite Ha, Hb.
  - intros s i j _ Hi Hj. simpl. unfold sq_Swap, index, lswap.
    destruct (lookup_lt_is_Some_2 s i Hi) as [a ->].
    destruct (lookup_lt_is_Some_2 s j Hj) as [b ->]. simpl. by eexists.
  - intros s l a _ ->. simpl. unfold sq_Pop. rewrite last_snoc, length_app. simpl.
    replace (length l + 1 - 1)%nat with (length l) by lia. rewrite take_app_length.
    by eexists.
Qed.

(** ** Reachable queues *)

(** The queues that the dispatcher can build, with and without node deletions. *)
Inductive reachable : bool -> sendQueue -> Prop :=
| reach_new d q : newSendQueue = Ok q -> reachable d q
| reach_add d q e q' : reachable d q -> Add e q = Ok q' -> reachable d q'
| reach_pop d q e q' : reachable d q -> PopNext q = Ok (e, q') -> reachable d q'
| reach_disable q id : reachable true q -> reachable true (DisableEventsForNode id q).

Section order.
Context {R : relation Event} `{!HeapOrder evt_less R}.

Lemma Add_spec e q :
  heap_ordered R q -> exists q', Add e q = Ok q' /\ q' ≡ₚ e :: q /\ heap_ordered R q'.
Proof.
  intros H. destruct (Push_spec (R := R) (view := fun q => q) (Inv := sq_any) e e q (q ++ [e]))
    as (q' & ? & _ & ? & ?); try done. by exists q'.
Qed.

Lemma PopNext_spec e q :
  heap_ordered R (e :: q) ->
  exists q', PopNext (e :: q) = Ok (e, q') /\ q' ≡ₚ q /\ heap_ordered R q' /\
    forall e', e' ∈ q' -> R e e'.
Proof.
  intros H. assert (PreOrder R) by apply HeapOrder0.
  destruct (Pop_spec (R := R) (view := fun q => q) (Inv := sq_any) e q (e :: q))
    as (q' & E & _ & P & H'); try done. exists q'. split_and!; [done..|].
  intros e' He'. apply (heap_root R (e :: q)); [done..|]. rewrite P in He'. by right.
Qed.

Lemma NextTimestamp_head q :
  heap_ordered R q -> (forall a b, R a b -> ts_le a b) ->
  forall e, e ∈ q -> NextTimestamp q <= ev_Timestamp e.
Proof.
  intros H HR e He. assert (PreOrder R) by apply HeapOrder0. destruct q as [|e0 q].
  - by apply elem_of_nil in He.
  - apply HR. by apply (heap_root R (e0 :: q)).
Qed.
End order.

Lemma key_le_ts_le a b : key_le a b -> ts_le a b.
Proof. unfold key_le, ts_le. lia. Qed.

Lemma disable_heap id q : heap_ordered ts_le q -> heap_ordered ts_le (DisableEventsForNode id q).
Proof.
  intros H k. unfold DisableEventsForNode. rewrite length_map. intros Hk a b.
  change (map (disable_event id) q) with (disable_event id <$> q).
  rewrite !list_lookup_fmap. destruct (q !! parent k) eqn:Ea; [|done].
  destruct (q !! k) eqn:Eb; [|done]. simpl. intros <-%(inj Some) <-%(inj Some).
  specialize (H k Hk _ _ Ea Eb). revert H. unfold ts_le, disable_event.
  repeat case_match; done.
Qed.

Lemma PopNext_cons q e q' : PopNext q = Ok (e, q') -> exists e0 l, q = e0 :: l.
Proof. destruct q; [done|eauto]. Qed.

Lemma reachable_ts q d : reachable d q -> heap_ordered ts_le q.
Proof.
  induction 1 as [d q H|d q e q' Hr IH H|d q e q' Hr IH H|q id Hr IH].
  - vm_compute in H. injection H as <-. intros k Hk. simpl in Hk. lia.
  - destruct (Add_spec e q IH) as (q2 & E & _ & Hh). by rewrite H in E; injection E as <-.
  - destruct (PopNext_cons _ _ _ H) as (e0 & l & ->).
    destruct (PopNext_spec e0 l IH) as (q2 & E & _ & Hh & _). rewrite H in E. by injection E as _ <-.
  - by apply disable_heap.
Qed.

Lemma reachable_key d q : reachable d q -> d = false -> heap_ordered key_le q.
Proof.
  induction 1 as [d q H|d q e q' Hr IH H|d q e q' Hr IH H|q id Hr IH]; intros Hd; [| | |done].
  - vm_compute in H. injection H as <-. intros k Hk. simpl in Hk. lia.
  - destruct (Add_spec e q (IH Hd)) as (q2 & E & _ & Hh). by rewrite H in E; injection E as <-.
  - destruct (PopNext_cons _ _ _ H) as (e0 & l & ->).
    destruct (PopNext_spec e0 l (IH Hd)) as (q2 & E & _ & Hh & _). rewrite H in E. by injection E as _ <-.
Qed.

(** Emptying the queue, as repeated [PopNext]. *)
Fixpoint drain (fuel : nat) (q : sendQueue) : res (list Event) :=
  match fuel, q with
  | _, [] => Ok []
  | O, _ => Panic OutOfFuel
  | S fuel, _ => '(e, q') ← PopNext q; l ← drain fuel q'; Ok (e :: l)
  end.

Lemma drain_spec {R : relation Event} `{!HeapOrder evt_less R} n q :
  heap_ordered R q -> length q = n ->
  exists l, drain n q = Ok l /\ l ≡ₚ q /\ StronglySorted R l.
Proof.
  revert q. induction n as [|n IH]; intros [|e q] H Hl; try done.
  - exists []. repeat constructor.
  - destruct (PopNext_spec e q H) as (q' & E & P & H' & Hmin).
    destruct (IH q') as (l & El & Pl & Sl); [done|by rewrite P; injection Hl|].
    exists (e :: l). simpl. rewrite E. simpl. rewrite El. simpl. split; [done|].
    split; [by rewrite Pl, P|]. constructor; [done|]. apply Forall_forall.
    intros x Hx. apply Hmin. by rewrite <- Pl.
Qed.

(** ** Theorems *)

(** C17: after any sequence of additions, removals and node deletions, [PopNext] on a
    non-empty queue returns an event with the least timestamp in the queue and leaves
    exactly the other events. *)
Theorem PopNext_earliest d q :
  reachable d q -> q <> [] ->
  exists e q', PopNext q = Ok (e, q') /\ q ≡ₚ e :: q' /\ reachable d q' /\
    NextTimestamp q = ev_Timestamp e /\ forall e', e' ∈ q -> ts_le e e'.
Proof.
  intros Hr Hne. destruct q as [|e q]; [done|].
  pose proof (reachable_ts _ _ Hr) as Hh.
  destruct (PopNext_spec e q Hh) as (q' & E & P & H' & Hmin).
  exists e, q'. split_and!; [done|by rewrite P|by eapply reach_pop|done|].
  intros e' He'. apply (heap_root ts_le (e :: q)); [done..].
Qed.

(** Three events at the same instant, of which node 7's is disabled. *)
Definition ev_at (ts id : Z) : Event := set_Timestamp ts (set_NodeId id zeroEvent).
Definition sample_queue : res sendQueue :=
  q ← newSendQueue; q ← Add (ev_at 10 5) q; q ← Add (ev_at 10 7) q; Add (ev_at 10 8) q.
Definition sample_queue_disabled : res sendQueue :=
  q ← sample_queue; Add (ev_at 10 3) (DisableEventsForNode 7 q).

Lemma sample_queue_reachable q d : sample_queue = Ok q -> reachable d q.
Proof.
  unfold sample_queue. intros H. apply bind_Ok in H as (q0 & H0 & H).
  apply bind_Ok in H as (q1 & H1 & H). apply bind_Ok in H as (q2 & H2 & H).
  do 3 (eapply reach_add; [|eassumption]). by apply reach_new.
Qed.

Lemma sample_queue_disabled_reachable q : sample_queue_disabled = Ok q -> reachable true q.
Proof.
  unfold sample_queue_disabled. intros H. apply bind_Ok in H as (q0 & H0 & H).
  eapply reach_add; [|exact H]. apply reach_disable. by apply sample_queue_reachable.
Qed.

Lemma PopNext_earliest_witness :
  exists q e q', sample_queue_disabled = Ok q /\ PopNext q = Ok (e, q') /\ ev_Timestamp e = 10.
Proof.
  destruct sample_queue_disabled as [q|] eqn:Hq; [|vm_compute in Hq; discriminate].
  destruct (PopNext_earliest true q) as (e & q' & E & _ & _ & T & _).
  - by apply sample_queue_disabled_reachable.
  - intros ->. vm_compute in Hq. discriminate.
  - exists q, e, q'. split; [done|]. split; [done|]. rewrite <- T.
    vm_compute in Hq. by injection Hq as <-.
Defined.

(** [NextTimestamp], which decides how far simulation time may advance, is a lower
    bound of the timestamps of all pending events, also after node deletions; it is the
    timestamp of a pending event, or [Ever] when nothing is pending. *)
Theorem NextTimestamp_least d q :
  reachable d q ->
  (forall e, e ∈ q -> NextTimestamp q <= ev_Timestamp e) /\
  (q = [] -> NextTimestamp q = Ever) /\
  (q <> [] -> exists e, e ∈ q /\ NextTimestamp q = ev_Timestamp e).
Proof.
  intros Hr. pose proof (reachable_ts _ _ Hr) as Hh. split_and!.
  - by apply (NextTimestamp_head (R := ts_le)).
  - by intros ->.
  - destruct q as [|e q]; [done|]. intros _. exists e. split; [by left|done].
Qed.

Lemma NextTimestamp_least_witness :
  exists q, sample_queue_disabled = Ok q /\ forall e, e ∈ q -> NextTimestamp q <= ev_Timestamp e.
Proof.
  destruct sample_queue_disabled as [q|] eqn:Hq; [|vm_compute in Hq; discriminate].
  exists q. split; [done|]. apply (NextTimestamp_least true q).
  by apply sample_queue_disabled_reachable.
Defined.

(** as long as no node is deleted, draining the queue yields every event once, in
    the order of timestamp and, for equal timestamps, of node id: the queue refines a
    sorted list. *)
Theorem drain_sorted q :
  reachable false q ->
  exists l, drain (length q) q = Ok l /\ l ≡ₚ q /\ StronglySorted key_le l.
Proof. intros Hr. apply drain_spec; [by eapply reachable_key|done]. Qed.

Lemma drain_sorted_witness :
  exists q l, sample_queue = Ok q /\ drain (length q) q = Ok l /\ StronglySorted key_le l.
Proof.
  destruct sample_queue as [q|] eqn:Hq; [|vm_compute in Hq; discriminate].
  destruct (drain_sorted q) as (l & E & _ & Hs).
  - by apply sample_queue_reachable.
  - by exists q, l.
Defined.

(** deleting a node changes heap keys in place without restoring the heap, so events
    of one instant are afterwards not always taken in node-id order: with pending events
    of nodes 5, 7 and 8, deleting node 7 and adding an event of node 3, the event of node
    5 is taken before that of node 3. *)
Theorem disable_breaks_node_order :
  exists q e q', sample_queue_disabled = Ok q /\ reachable true q /\
    PopNext q = Ok (e, q') /\ ev_NodeId e = 5 /\
    exists e', e' ∈ q' /\ ev_NodeId e' = 3 /\ ~ key_le e e'.
Proof.
  destruct sample_queue_disabled as [q|] eqn:Hq; [|vm_compute in Hq; discriminate].
  pose proof (sample_queue_disabled_reachable q Hq) as Hr.
  vm_compute in Hq. injection Hq as <-. eexists _, _, _. do 2 (split; [done|]).
  split; [vm_compute; reflexivity|]. split; [done|].
  exists (ev_at 10 3). split; [|split; [done|unfold key_le; simpl; lia]].
  repeat (first [apply list_elem_of_here|apply list_elem_of_further]).
Qed.
