(* ===== verification/AlarmMgr.v ===== *)
(** * The dispatcher's alarm manager

    [alarmMgr] (src/dispatcher/alarm_mgr.go): one pending alarm per node, in a binary
    heap whose elements record their own position.  An [*alarmEvent] is shared by the
    heap array and by the [events] map and is updated through either, so the model keeps
    a store of alarm events and both structures hold locations in it. *)

From S2P Require Import Prelude Types GoHeap.

Local Open Scope Z_scope.

Abbreviation loc := nat (only parsing).

Record alarmEvent := mkAlarmEvent {
  ae_NodeId : NodeId;
  ae_Timestamp : Z;
  ae_index : nat;
}.
Definition set_index (i : nat) (e : alarmEvent) : alarmEvent :=
  mkAlarmEvent (ae_NodeId e) (ae_Timestamp e) i.
Definition set_ae_Timestamp (ts : Z) (e : alarmEvent) : alarmEvent :=
  mkAlarmEvent (ae_NodeId e) ts (ae_index e).

(** The heap array together with the store its pointers refer to. *)
Record alarmQueue := mkAlarmQueue {
  aq : list loc;
  aq_store : gmap loc alarmEvent;
}.

(** [aq[i]], dereferenced. *)
Definition aq_at (s : alarmQueue) (i : nat) : res (loc * alarmEvent) :=
  l ← index (aq s) i; e ← deref (aq_store s !! l); Ok (l, e).

Definition aq_Less (s : alarmQueue) (i j : nat) : res bool :=
  '(_, a) ← aq_at s i; '(_, b) ← aq_at s j; Ok (ae_Timestamp a <? ae_Timestamp b).

Definition aq_Swap (i j : nat) (s : alarmQueue) : res alarmQueue :=
  '(la, a) ← aq_at s i;
  '(lb, b) ← aq_at s j;
  if negb (ae_index a =? i)%nat && negb (ae_index b =? j)%nat then Panic Panicf else
  Ok (mkAlarmQueue (<[j:=la]> (<[i:=lb]> (aq s)))
        (alter (set_index j) la (alter (set_index i) lb (aq_store s)))).

Definition aq_Push (l : loc) (s : alarmQueue) : res alarmQueue :=
  Ok (mkAlarmQueue (aq s ++ [l]) (alter (set_index (length (aq s))) l (aq_store s))).

Definition aq_Pop (s : alarmQueue) : res (loc * alarmQueue) :=
  match last (aq s) with
  | Some l => Ok (l, mkAlarmQueue (take (length (aq s) - 1) (aq s)) (aq_store s))
  | None => Panic IndexOutOfRange
  end.

#[export] Instance alarmQueue_heap : HeapI alarmQueue loc := {|
  h_len := fun s => length (aq s); h_less := aq_Less; h_swap := aq_Swap;
  h_push := aq_Push; h_pop := aq_Pop;
|}.

(** [am_next] is the next location to allocate. *)
Record alarmMgr := mkAlarmMgr {
  am_q : alarmQueue;
  am_events : gmap NodeId loc;
  am_next : loc;
}.

Definition newAlarmMgr : res alarmMgr :=
  q ← Init (mkAlarmQueue [] ∅);
  Ok (mkAlarmMgr q ∅ 0).

Definition AddNode (nodeid : NodeId) (am : alarmMgr) : res alarmMgr :=
  _ ← assert_true (bool_decide (am_events am !! nodeid = None));
  let l := am_next am in
  let e := mkAlarmEvent nodeid Ever 0 in
  q ← Push l (mkAlarmQueue (aq (am_q am)) (<[l:=e]> (aq_store (am_q am))));
  Ok (mkAlarmMgr q (<[nodeid:=l]> (am_events am)) (S l)).

(** [am.events[nodeid]], asserted not nil, and the alarm event it points to. *)
Definition get_event (am : alarmMgr) (nodeid : NodeId) : res (loc * alarmEvent) :=
  l ← assert_not_nil (am_events am !! nodeid);
  e ← deref (aq_store (am_q am) !! l);
  Ok (l, e).

Definition SetTimestamp (nodeid : NodeId) (timestamp : Z) (am : alarmMgr) : res alarmMgr :=
  '(l, e) ← get_event am nodeid;
  if negb (ae_Timestamp e =? timestamp) then
    q ← Fix (mkAlarmQueue (aq (am_q am)) (<[l:=set_ae_Timestamp timestamp e]> (aq_store (am_q am))))
            (ae_index e);
    Ok (mkAlarmMgr q (am_events am) (am_next am))
  else Ok am.

Definition SetNotified (nodeid : NodeId) (am : alarmMgr) : res alarmMgr :=
  SetTimestamp nodeid Ever am.

Definition GetTimestamp (nodeid : NodeId) (am : alarmMgr) : res Z :=
  '(_, e) ← get_event am nodeid; Ok (ae_Timestamp e).

Definition NextAlarm (am : alarmMgr) : option alarmEvent :=
  match aq (am_q am) with
  | [] => None
  | l :: _ => aq_store (am_q am) !! l
  end.

Definition NextTimestamp (am : alarmMgr) : Z :=
  match aq (am_q am) with
  | [] => Ever
  | l :: _ => match aq_store (am_q am) !! l with Some e => ae_Timestamp e | None => 0 end
  end.

Definition DeleteNode (id : NodeId) (am : alarmMgr) : res alarmMgr :=
  '(_, e) ← get_event am id;
  '(_, q) ← Remove (am_q am) (ae_index e);
  Ok (mkAlarmMgr q (delete id (am_events am)) (am_next am)).

(** ** The heap array as a list of alarms *)

(** An alarm: its location, node and time. *)
Abbreviation alarm := (loc * (NodeId * Z))%type (only parsing).

Definition key (st : gmap loc alarmEvent) (l : loc) : NodeId * Z :=
  match st !! l with Some e => (ae_NodeId e, ae_Timestamp e) | None => (0, 0) end.
Definition view (s : alarmQueue) : list alarm :=
  (fun l => (l, key (aq_store s) l)) <$> aq s.

(** Every pointer in the array is valid and its event knows its position. *)
Definition aq_inv (s : alarmQueue) : Prop :=
  forall i l, aq s !! i = Some l -> exists e, aq_store s !! l = Some e /\ ae_index e = i.
(** ... and every allocated location is below [n]. *)
Definition aq_ok (n : loc) (s : alarmQueue) : Prop :=
  aq_inv s /\ forall l, is_Some (aq_store s !! l) -> (l < n)%nat.

Definition alarm_less (a b : alarm) : bool := a.2.2 <? b.2.2.
Definition alarm_le (a b : alarm) : Prop := a.2.2 <= b.2.2.

#[export] Instance alarm_order : HeapOrder alarm_less alarm_le.
Proof.
  split; unfold alarm_less, alarm_le; [split; [intros ?|intros ???]| |]; intros; lia.
Qed.

(** *** Lemmas *)
Lemma length_view s : length (view s) = length (aq s).
Proof. apply length_fmap. Qed.

Lemma view_lookup s i a :
  view s !! i = Some a <-> aq s !! i = Some a.1 /\ a.2 = key (aq_store s) a.1.
Proof.
  unfold view. rewrite list_lookup_fmap. destruct (aq s !! i) as [l|]; simpl; [|naive_solver].
  destruct a as [l' k]. simpl. split; naive_solver.
Qed.

Lemma aq_inv_inj s i j l : aq_inv s -> aq s !! i = Some l -> aq s !! j = Some l -> i = j.
Proof.
  intros H Hi Hj. destruct (H _ _ Hi) as (e & He & <-), (H _ _ Hj) as (e' & He' & <-).
  congruence.
Qed.

Lemma aq_at_inv s i l :
  aq_inv s -> aq s !! i = Some l ->
  exists e, aq_at s i = Ok (l, e) /\ aq_store s !! l = Some e /\ ae_index e = i.
Proof.
  intros H Hl. destruct (H _ _ Hl) as (e & He & Hi). exists e. unfold aq_at, index.
  rewrite Hl. simpl. rewrite He. done.
Qed.

Lemma key_alter_index st i l l' : key (alter (set_index i) l st) l' = key st l'.
Proof.
  unfold key. destruct (decide (l = l')) as [->|].
  - rewrite lookup_alter_eq. by destruct (st !! l').
  - by rewrite lookup_alter_ne.
Qed.

Lemma swap_insert_comm {A} (i j : nat) (a b : A) (l : list A) :
  i <> j \/ a = b -> <[j:=a]> (<[i:=b]> l) = <[i:=b]> (<[j:=a]> l).
Proof.
  intros [H| ->]; [by rewrite list_insert_insert_ne|].
  destruct (decide (i = j)) as [->|]; [done|by rewrite list_insert_insert_ne].
Qed.

Lemma aq_Swap_spec s i j :
  aq_inv s -> (i < length (view s))%nat -> (j < length (view s))%nat ->
  exists s', aq_Swap i j s = Ok s' /\ aq_inv s' /\ view s' = lswap i j (view s).
Proof.
  intros Hinv. rewrite length_view. intros [la Ha]%lookup_lt_is_Some [lb Hb]%lookup_lt_is_Some.
  destruct (aq_at_inv s i la Hinv Ha) as (a & Ea & Sa & Ia).
  destruct (aq_at_inv s j lb Hinv Hb) as (b & Eb & Sb & Ib).
  unfold aq_Swap. rewrite Ea. cbn. rewrite Eb. cbn. rewrite Ia, Nat.eqb_refl. simpl.
  eexists. split; [done|].
  assert (i <> j \/ la = lb) as Hij by (destruct (decide (i = j)) as [->|]; [right; congruence|by left]).
  assert (<[j:=la]> (<[i:=lb]> (aq s)) = lswap i j (aq s)) as Eq.
  { unfold lswap. rewrite Ha, Hb. by apply swap_insert_comm. }
  split.
  - intros k l. cbn [aq aq_store]. rewrite Eq, lookup_lswap by (eapply lookup_lt_Some; done).
    intros Hl. destruct (decide (k = i)) as [->|Hki].
    { assert (l = lb) as -> by congruence. destruct (decide (la = lb)) as [->|Hab].
      - assert (i = j) as -> by (eapply aq_inv_inj; done).
        rewrite !lookup_alter_eq, Sb. simpl. by eexists.
      - rewrite lookup_alter_ne, lookup_alter_eq, Sb by done. simpl. by eexists. }
    destruct (decide (k = j)) as [->|Hkj].
    { assert (l = la) as -> by congruence. rewrite lookup_alter_eq.
      destruct (decide (la = lb)) as [->|Hab].
      - rewrite lookup_alter_eq, Sb. simpl. by eexists.
      - rewrite lookup_alter_ne, Sa by done. simpl. by eexists. }
    assert (l <> la) by (intros ->; apply Hki; by eapply aq_inv_inj).
    assert (l <> lb) by (intros ->; apply Hkj; by eapply aq_inv_inj).
    rewrite !lookup_alter_ne by done. by apply Hinv.
  - unfold view. cbn [aq aq_store]. rewrite Eq. apply list_eq. intros k.
    rewrite lookup_lswap by (rewrite length_fmap; eapply lookup_lt_Some; done).
    rewrite !list_lookup_fmap, lookup_lswap by (eapply lookup_lt_Some; done).
    assert (forall o : option loc, (fun l => (l, key (alter (set_index j) la
      (alter (set_index i) lb (aq_store s))) l)) <$> o = (fun l => (l, key (aq_store s) l)) <$> o)
      as Hk by (intros [l|]; simpl; by rewrite ?key_alter_index).
    rewrite Hk. by repeat case_decide.
Qed.

#[export] Instance alarmQueue_laws n : HeapLaws view (aq_ok n) alarm_less fst.
Proof.
  split.
  - intros s _. by rewrite length_view.
  - intros s i j a b [Hinv _] [Ha Ka]%view_lookup [Hb Kb]%view_lookup.
    destruct (aq_at_inv s i a.1 Hinv Ha) as (ea & Ea & Sa & _).
    destruct (aq_at_inv s j b.1 Hinv Hb) as (eb & Eb & Sb & _).
    simpl. unfold aq_Less. rewrite Ea. cbn. rewrite Eb. cbn. unfold alarm_less.
    rewrite Ka, Kb. unfold key. by rewrite Sa, Sb.
  - intros s i j [Hinv Hn] Hi Hj.
    destruct (aq_Swap_spec s i j Hinv Hi Hj) as (s' & E & I' & V).
    exists s'. split; [done|]. split; [|done]. split; [done|].
    unfold aq_Swap in E. apply bind_Ok in E as ([la a] & _ & E).
    apply bind_Ok in E as ([lb b] & _ & E). destruct (_ && _); [done|]. injection E as <-.
    intros l. cbn [aq_store]. rewrite !lookup_alter_is_Some. apply Hn.
  - intros s l a [Hinv Hn] V. simpl. unfold aq_Pop.
    assert (exists l0, aq s = l0 ++ [a.1] /\ l = (fun l => (l, key (aq_store s) l)) <$> l0)
      as (l0 & E & ->).
    { unfold view in V. destruct (aq s) as [|x l0 _] using rev_ind; [by destruct l|].
      rewrite fmap_app in V. apply app_inj_tail in V as [<- <-]. by eexists. }
    rewrite E, last_snoc, length_app. simpl.
    replace (length l0 + 1 - 1)%nat with (length l0) by lia. rewrite take_app_length.
    eexists. split; [done|]. split; [|done]. split; [|done].
    intros i x. cbn [aq aq_store]. intros Hx.
    apply Hinv. rewrite E. by apply lookup_app_l_Some.
Qed.

(** ** The manager as a map from nodes to alarm times *)
Definition alarms (v : list alarm) : gmap NodeId Z := list_to_map (snd <$> v).
Definition alarm_locs (v : list alarm) : gmap NodeId loc :=
  list_to_map ((fun a : alarm => (a.2.1, a.1)) <$> v).
Definition alarm_ids (v : list alarm) : list NodeId := (fun a : alarm => a.2.1) <$> v.

(** The abstract state: the alarm time of every node. *)
Definition am_alarms (am : alarmMgr) : gmap NodeId Z := alarms (view (am_q am)).

Record am_wf (am : alarmMgr) : Prop := {
  am_ok : aq_ok (am_next am) (am_q am);
  am_heap : heap_ordered alarm_le (view (am_q am));
  am_nodup : NoDup (alarm_ids (view (am_q am)));
  am_locs : am_events am = alarm_locs (view (am_q am));
}.

(** *** Lemmas on lists of alarms *)
Lemma alarm_ids_fst (v : list alarm) :
  (snd <$> v).*1 = alarm_ids v /\ ((fun a : alarm => (a.2.1, a.1)) <$> v).*1 = alarm_ids v.
Proof. unfold alarm_ids. by rewrite <- !list_fmap_compose. Qed.

Lemma alarms_perm (v v' : list alarm) :
  NoDup (alarm_ids v) -> v ≡ₚ v' ->
  NoDup (alarm_ids v') /\ alarms v = alarms v' /\ alarm_locs v = alarm_locs v'.
Proof.
  intros Hn P. split; [by unfold alarm_ids in *; rewrite <- P|].
  split; apply list_to_map_proper; try (by rewrite P);
    rewrite (proj1 (alarm_ids_fst v)) || rewrite (proj2 (alarm_ids_fst v)); done.
Qed.

Lemma alarms_elem (v : list alarm) id ts :
  NoDup (alarm_ids v) -> alarms v !! id = Some ts <-> exists l, (l, (id, ts)) ∈ v.
Proof.
  intros Hn. unfold alarms. rewrite <- elem_of_list_to_map by (by rewrite (proj1 (alarm_ids_fst v))).
  rewrite list_elem_of_fmap. split.
  - intros ([l k] & E & H). simpl in E. subst k. eauto.
  - intros [l H]. by exists (l, (id, ts)).
Qed.

Lemma alarm_locs_elem (v : list alarm) id l :
  NoDup (alarm_ids v) -> alarm_locs v !! id = Some l <-> exists ts, (l, (id, ts)) ∈ v.
Proof.
  intros Hn. unfold alarm_locs.
  rewrite <- elem_of_list_to_map by (by rewrite (proj2 (alarm_ids_fst v))).
  rewrite list_elem_of_fmap. split.
  - intros ([l' [id' ts]] & E & H). simpl in E. simplify_eq. eauto.
  - intros [ts H]. by exists (l, (id, ts)).
Qed.

Lemma alarms_None (v : list alarm) id : alarms v !! id = None <-> id ∉ alarm_ids v.
Proof. unfold alarms. by rewrite <- not_elem_of_list_to_map, (proj1 (alarm_ids_fst v)). Qed.

Lemma alarm_locs_None (v : list alarm) id : alarm_locs v !! id = None <-> id ∉ alarm_ids v.
Proof. unfold alarm_locs. by rewrite <- not_elem_of_list_to_map, (proj2 (alarm_ids_fst v)). Qed.

(** The alarm event of a node, and where it is. *)
Lemma get_event_spec am id ts :
  am_wf am -> am_alarms am !! id = Some ts ->
  exists l e, get_event am id = Ok (l, e) /\ aq_store (am_q am) !! l = Some e /\
    ae_NodeId e = id /\ ae_Timestamp e = ts /\
    view (am_q am) !! ae_index e = Some (l, (id, ts)).
Proof.
  intros [[Hinv Hf] Hh Hn Hl] [l Hv]%(alarms_elem _ _ _ Hn).
  assert (am_events am !! id = Some l) as He.
  { rewrite Hl. apply alarm_locs_elem; eauto. }
  apply list_elem_of_lookup in Hv as [i Hi].
  pose proof (proj1 (view_lookup _ _ _) Hi) as [Ha Hk]. simpl in Ha, Hk.
  destruct (Hinv _ _ Ha) as (e & Hs & Hx). exists l, e. unfold get_event. rewrite He. simpl.
  rewrite Hs. simpl. unfold key in Hk. rewrite Hs in Hk. injection Hk as <- <-.
  by rewrite Hx.
Qed.

Lemma get_event_None am id :
  am_wf am -> am_alarms am !! id = None -> get_event am id = Panic AssertFailed.
Proof.
  intros [_ _ Hn Hl] H. unfold get_event. rewrite Hl.
  rewrite (proj2 (alarm_locs_None _ _)); [done|]. by apply alarms_None.
Qed.

Lemma view_ext q st st' :
  (forall l, l ∈ q -> key st' l = key st l) ->
  view (mkAlarmQueue q st') = view (mkAlarmQueue q st).
Proof.
  intros H. unfold view. cbn [aq aq_store]. apply list_fmap_ext. intros i l Hl.
  rewrite H; [done|]. by eapply list_elem_of_lookup_2.
Qed.

(** Writing a location that the array does not use leaves the view as it is. *)
Lemma view_insert_fresh n s e :
  aq_ok n s -> view (mkAlarmQueue (aq s) (<[n:=e]> (aq_store s))) = view s.
Proof.
  intros [Hinv Hn]. rewrite (view_ext _ (aq_store s)); [by destruct s|].
  intros l [i Hi]%list_elem_of_lookup. destruct (Hinv _ _ Hi) as (x & Hx & _).
  assert (l < n)%nat by (apply Hn; eauto).
  unfold key. by rewrite lookup_insert_ne by lia.
Qed.

Lemma push_fresh n s id ts :
  aq_ok n s ->
  exists s1, h_push n (mkAlarmQueue (aq s) (<[n:=mkAlarmEvent id ts 0]> (aq_store s))) = Ok s1 /\
    aq_ok (S n) s1 /\ view s1 = view s ++ [(n, (id, ts))].
Proof.
  intros Hok. pose proof Hok as [Hinv Hn]. eexists. split; [reflexivity|]. cbn [aq aq_store].
  assert (forall l, l ∈ aq s -> (l < n)%nat) as Hlt.
  { intros l [i Hi]%list_elem_of_lookup. destruct (Hinv _ _ Hi) as (x & Hx & _). apply Hn. eauto. }
  split; [split|].
  - intros i l. cbn [aq aq_store]. intros [Hl|[Hi Hl]]%lookup_app_Some.
    + assert (l < n)%nat by (apply Hlt; by eapply list_elem_of_lookup_2).
      rewrite lookup_alter_ne, lookup_insert_ne by lia. by apply Hinv.
    + apply list_lookup_singleton_Some in Hl as [Hi0 <-].
      rewrite lookup_alter_eq, lookup_insert_eq. simpl. eexists. split; [done|]. simpl. lia.
  - intros l. cbn [aq_store]. rewrite lookup_alter_is_Some, lookup_insert_is_Some.
    intros [->|[_ H]]; [lia|]. apply Hn in H. lia.
  - unfold view at 1. cbn [aq aq_store]. rewrite fmap_app. f_equal.
    + rewrite <- (view_insert_fresh n s (mkAlarmEvent id ts 0)) by done. unfold view.
      cbn [aq aq_store]. apply list_fmap_ext. intros i l _. by rewrite key_alter_index.
    + cbn. f_equal. rewrite key_alter_index. unfold key. by rewrite lookup_insert_eq.
Qed.

Lemma AddNode_spec id am :
  am_wf am -> am_alarms am !! id = None ->
  exists am', AddNode id am = Ok am' /\ am_wf am' /\ am_alarms am' = <[id:=Ever]> (am_alarms am).
Proof.
  intros W Ha. pose proof W as [Hok Hh Hn Hl].
  pose proof (proj1 (alarms_None _ _) Ha) as Hid.
  destruct (push_fresh (am_next am) (am_q am) id Ever Hok) as (s1 & E1 & Ok1 & V1).
  pose proof (view_insert_fresh _ _ (mkAlarmEvent id Ever 0) Hok) as V0.
  destruct (Push_spec (R := alarm_le) (Inv := aq_ok (S (am_next am)))
      _ (am_next am, (id, Ever)) _ _ E1 Ok1)
    as (q' & E & Ok' & P & H'); [by rewrite V1, V0|by rewrite V0|].
  rewrite V0 in P. symmetry in P.
  unfold AddNode. rewrite bool_decide_true by (rewrite Hl; by apply alarm_locs_None).
  cbn [mbind res_bind assert_true]. rewrite E. cbn [mbind res_bind]. eexists. split; [done|].
  destruct (alarms_perm ((am_next am, (id, Ever)) :: view (am_q am)) _
    (NoDup_cons_2 _ _ Hid Hn) P) as (N' & A' & L').
  split; [split; cbn [am_q am_next am_events]; [done|done|done|]|].
  - rewrite <- L', Hl. reflexivity.
  - unfold am_alarms. cbn [am_q]. rewrite <- A'. reflexivity.
Qed.

(** Changing the time of one alarm in place. *)
Lemma view_set_timestamp n s i l e id t ts :
  aq_ok n s -> view s !! i = Some (l, (id, t)) -> aq_store s !! l = Some e -> ae_NodeId e = id ->
  view (mkAlarmQueue (aq s) (<[l:=set_ae_Timestamp ts e]> (aq_store s)))
    = <[i:=(l, (id, ts))]> (view s) /\
  aq_ok n (mkAlarmQueue (aq s) (<[l:=set_ae_Timestamp ts e]> (aq_store s))).
Proof.
  intros [Hinv Hf] Hv He Hid. pose proof (proj1 (view_lookup _ _ _) Hv) as [Ha _]. simpl in Ha.
  pose proof (lookup_lt_Some _ _ _ Ha) as Hi. split.
  - apply list_eq. intros k. destruct (decide (k = i)) as [->|Hk].
    + rewrite list_lookup_insert_eq by (rewrite length_view; lia).
      apply view_lookup. cbn [aq aq_store fst snd]. split; [done|]. unfold key.
      rewrite lookup_insert_eq. by rewrite <- Hid.
    + rewrite list_lookup_insert_ne by done. unfold view. rewrite !list_lookup_fmap.
      cbn [aq aq_store]. destruct (aq s !! k) as [l'|] eqn:Hl'; [|done]. simpl. do 2 f_equal.
      unfold key. rewrite lookup_insert_ne; [done|]. intros <-. apply Hk. by eapply aq_inv_inj.
  - split.
    + intros k l' Hl'. cbn [aq aq_store] in *. destruct (Hinv _ _ Hl') as (e' & He' & Hi').
      destruct (decide (l = l')) as [->|]; [|rewrite lookup_insert_ne by done; eauto].
      rewrite lookup_insert_eq. eexists. split; [done|]. simplify_eq. done.
    + intros l'. cbn [aq_store]. rewrite lookup_insert_is_Some. intros [<-|[_ H]]; apply Hf; eauto.
Qed.

Lemma alarms_update (v w : list alarm) i l id t ts :
  NoDup (alarm_ids v) -> v !! i = Some (l, (id, t)) -> w ≡ₚ <[i:=(l, (id, ts))]> v ->
  NoDup (alarm_ids w) /\ alarms w = <[id:=ts]> (alarms v) /\ alarm_locs w = alarm_locs v.
Proof.
  intros Hn Hv P. pose proof (delete_Permutation v i _ Hv) as Pv.
  assert (w ≡ₚ (l, (id, ts)) :: delete i v) as Pw.
  { rewrite P, (delete_Permutation _ i (l, (id, ts))).
    2: { apply list_lookup_insert_eq. by eapply lookup_lt_Some. }
    by rewrite list_delete_insert_eq. }
  destruct (alarms_perm _ _ Hn Pv) as (N1 & A1 & L1).
  assert (NoDup (alarm_ids ((l, (id, ts)) :: delete i v))) as N2 by exact N1.
  destruct (alarms_perm _ w N2) as (N3 & A3 & L3); [done|].
  split; [done|]. rewrite <- A3, A1, <- L3, L1. split; [|done].
  change (<[id:=ts]> (alarms (delete i v)) = <[id:=ts]> (<[id:=t]> (alarms (delete i v)))).
  by rewrite insert_insert_eq.
Qed.

Lemma SetTimestamp_spec id ts am :
  am_wf am -> is_Some (am_alarms am !! id) ->
  exists am', SetTimestamp id ts am = Ok am' /\ am_wf am' /\
    am_alarms am' = <[id:=ts]> (am_alarms am).
Proof.
  intros W [t Ht]. pose proof W as [Hok Hh Hn Hl].
  destruct (get_event_spec am id t W Ht) as (l & e & E & Hs & Hid & Hts & Hv).
  unfold SetTimestamp. rewrite E. cbn [mbind res_bind].
  destruct (Z.eqb_spec (ae_Timestamp e) ts) as [<-|Hne]; cbn [negb].
  { exists am. split_and!; [done..|]. rewrite insert_id; [done|]. by rewrite Ht, Hts. }
  destruct (view_set_timestamp _ _ _ l e id t ts Hok Hv Hs Hid) as [V1 Ok1].
  assert (ae_index e < length (view (am_q am)))%nat as Hi by (by eapply lookup_lt_Some).
  destruct (Fix_spec (R := alarm_le) (ae_index e) _ Ok1) as (q' & E' & Ok' & P & H').
  { rewrite V1, length_insert. done. }
  { rewrite V1, length_insert. apply (insert_broken alarm_le); done. }
  rewrite E'. cbn [mbind res_bind]. eexists. split; [done|]. rewrite V1 in P.
  destruct (alarms_update _ _ _ _ _ _ _ Hn Hv P) as (N' & A' & L').
  split; [split; cbn [am_q am_next am_events]; [done|done|done|by rewrite L', Hl]|done].
Qed.

Lemma DeleteNode_spec id am :
  am_wf am -> is_Some (am_alarms am !! id) ->
  exists am', DeleteNode id am = Ok am' /\ am_wf am' /\ am_alarms am' = delete id (am_alarms am).
Proof.
  intros W [t Ht]. pose proof W as [Hok Hh Hn Hl].
  destruct (get_event_spec am id t W Ht) as (l & e & E & Hs & Hid & Hts & Hv).
  unfold DeleteNode. rewrite E. cbn [mbind res_bind].
  destruct (Remove_spec (R := alarm_le) (ae_index e) _ (am_q am) Hok Hv Hh)
    as (q' & E' & Ok' & P & H').
  rewrite E'. cbn [mbind res_bind fst]. eexists. split; [done|].
  destruct (alarms_perm _ _ Hn P) as (N' & A' & L').
  apply NoDup_cons in N' as [Hni N']. simpl in Hni.
  change (id ∉ alarm_ids (view q')) in Hni.
  split; [split; cbn [am_q am_next am_events]; [done|done|done|]|].
  - rewrite Hl, L'. change (delete id (<[id:=l]> (alarm_locs (view q'))) = alarm_locs (view q')).
    by rewrite delete_insert_id by (by apply alarm_locs_None).
  - unfold am_alarms. cbn [am_q]. rewrite A'.
    change (alarms (view q') = delete id (<[id:=t]> (alarms (view q')))).
    by rewrite delete_insert_id by (by apply alarms_None).
Qed.

(** ** Specification: a map from nodes to alarm times *)
Inductive am_op := OpAdd (id : NodeId) | OpSet (id : NodeId) (ts : Z) | OpDel (id : NodeId).

Definition run_op (o : am_op) (am : alarmMgr) : res alarmMgr :=
  match o with
  | OpAdd id => AddNode id am
  | OpSet id ts => SetTimestamp id ts am
  | OpDel id => DeleteNode id am
  end.

(** A failed precondition is an assertion failure of the code. *)
Definition spec_op (o : am_op) (m : gmap NodeId Z) : res (gmap NodeId Z) :=
  match o, m !! (match o with OpAdd id => id | OpSet id _ => id | OpDel id => id end) with
  | OpAdd id, None => Ok (<[id:=Ever]> m)
  | OpSet id ts, Some _ => Ok (<[id:=ts]> m)
  | OpDel id, Some _ => Ok (delete id m)
  | _, _ => Panic AssertFailed
  end.

Fixpoint run_all {A} (step : am_op -> A -> res A) (ops : list am_op) (a : A) : res A :=
  match ops with
  | [] => Ok a
  | o :: ops => a' ← step o a; run_all step ops a'
  end.

Lemma run_op_spec o am :
  am_wf am ->
  match spec_op o (am_alarms am) with
  | Ok m => exists am', run_op o am = Ok am' /\ am_wf am' /\ am_alarms am' = m
  | Panic p => run_op o am = Panic p
  end.
Proof.
  intros W. destruct o as [id|id ts|id]; simpl; destruct (am_alarms am !! id) eqn:E.
  - unfold AddNode. rewrite bool_decide_false; [done|].
    rewrite (am_locs _ W). intros H%alarm_locs_None%alarms_None. unfold am_alarms in E. congruence.
  - by apply AddNode_spec.
  - apply SetTimestamp_spec; eauto.
  - unfold SetTimestamp. by rewrite get_event_None.
  - apply DeleteNode_spec; eauto.
  - unfold DeleteNode. by rewrite get_event_None.
Qed.

Lemma newAlarmMgr_wf : exists am, newAlarmMgr = Ok am /\ am_wf am /\ am_alarms am = ∅.
Proof.
  eexists. split; [reflexivity|]. split; [|done]. split; cbn [am_q am_next am_events].
  - split; [done|]. intros l [e He]. vm_compute in He. discriminate.
  - intros k Hk. simpl in Hk. lia.
  - constructor.
  - done.
Qed.

Lemma run_all_refines ops :
  match run_all spec_op ops ∅ with
  | Ok m => exists am, (am0 ← newAlarmMgr; run_all run_op ops am0) = Ok am /\
      am_wf am /\ am_alarms am = m
  | Panic p => (am0 ← newAlarmMgr; run_all run_op ops am0) = Panic p
  end.
Proof.
  destruct newAlarmMgr_wf as (am & -> & W & E). cbn [mbind res_bind]. rewrite <- E. clear E.
  revert am W. induction ops as [|o ops IH]; intros am W; cbn [run_all].
  - by exists am.
  - pose proof (run_op_spec o am W) as H. destruct (spec_op o (am_alarms am)) as [m|p]; simpl.
    + destruct H as (am' & -> & W' & <-). by apply IH.
    + by rewrite H.
Qed.

Lemma run_all_refines_Ok ops m :
  run_all spec_op ops ∅ = Ok m ->
  exists am, (am0 ← newAlarmMgr; run_all run_op ops am0) = Ok am /\ am_wf am /\ am_alarms am = m.
Proof. intros E. pose proof (run_all_refines ops) as H. by rewrite E in H. Qed.

(** The root of the heap is an alarm with the least time. *)
Lemma NextTimestamp_view am a v :
  am_wf am -> view (am_q am) = a :: v ->
  NextTimestamp am = a.2.2 /\ NextAlarm am <> None /\
  (forall e, NextAlarm am = Some e -> (ae_NodeId e, ae_Timestamp e) = a.2) /\
  forall b, b ∈ view (am_q am) -> a.2.2 <= b.2.2.
Proof.
  intros [[Hinv _] Hh _ _] V.
  assert (view (am_q am) !! 0%nat = Some a) as H0 by (by rewrite V).
  pose proof (proj1 (view_lookup _ _ _) H0) as [Ha Hk].
  destruct (Hinv _ _ Ha) as (e & He & _). unfold key in Hk. rewrite He in Hk.
  unfold NextTimestamp, NextAlarm. destruct (aq (am_q am)) as [|l q]; [done|].
  injection Ha as ->. rewrite He, Hk. split_and!; [done|done|naive_solver|].
  intros b Hb. rewrite <- Hk. by apply (heap_root alarm_le _ a b Hh).
Qed.

(** ** Theorems *)

(** C15: the alarm manager refines a map from node ids to alarm times: for every
    sequence of [AddNode], [SetTimestamp] and [DeleteNode] calls on a new manager, the
    heap with its index bookkeeping does what the map does, and it fails (with an
    assertion) exactly when a node is added twice or an unknown node is used. *)
Theorem alarmMgr_refines_map ops :
  match run_all spec_op ops ∅ with
  | Ok m => exists am, (am0 ← newAlarmMgr; run_all run_op ops am0) = Ok am /\
      am_wf am /\ am_alarms am = m
  | Panic p => (am0 ← newAlarmMgr; run_all run_op ops am0) = Panic p
  end.
Proof. apply run_all_refines. Qed.

(** C16: [NextTimestamp] is the least alarm time of all nodes ([Ever] without nodes), and
    [NextAlarm] is an alarm with that time, of the node that set it. *)
Theorem NextTimestamp_min am :
  am_wf am ->
  (forall id ts, am_alarms am !! id = Some ts -> NextTimestamp am <= ts) /\
  (am_alarms am = ∅ -> NextTimestamp am = Ever /\ NextAlarm am = None) /\
  (am_alarms am <> ∅ -> exists e, NextAlarm am = Some e /\
     ae_Timestamp e = NextTimestamp am /\ am_alarms am !! ae_NodeId e = Some (NextTimestamp am)).
Proof.
  intros W. destruct (view (am_q am)) as [|a v] eqn:V.
  - assert (am_alarms am = ∅) as E by (unfold am_alarms; by rewrite V).
    assert (aq (am_q am) = []) as Hq by 
      (destruct (aq (am_q am)) eqn:Q; [done|]; unfold view in V; by rewrite Q in V).
    unfold NextTimestamp, NextAlarm. rewrite E, Hq. split_and!; [|done|done].
    intros id ts. by rewrite lookup_empty.
  - destruct (NextTimestamp_view am a v W V) as (Ht & Hn & He & Hmin). rewrite Ht. split_and!.
    + intros id ts [l Hl]%alarms_elem; [|apply W]. exact (Hmin _ Hl).
    + intros E. unfold am_alarms in E. rewrite V in E.
      change (<[a.2.1:=a.2.2]> (alarms v) = ∅) in E. by apply insert_non_empty in E.
    + intros _. destruct (NextAlarm am) as [e|]; [|done]. exists e. specialize (He e eq_refl).
      destruct a as [l k]. simpl in *. subst k. split; [done|]. split; [done|].
      apply alarms_elem; [apply W|]. exists l. rewrite V. by left.
Qed.

Definition sample_ops : list am_op :=
  [OpAdd 1; OpAdd 2; OpAdd 3; OpSet 2 40; OpSet 3 20; OpSet 1 30; OpDel 3].

Lemma NextTimestamp_min_witness :
  exists am, (am0 ← newAlarmMgr; run_all run_op sample_ops am0) = Ok am /\
    am_alarms am !! 1 = Some 30 /\ NextTimestamp am <= 30.
Proof.
  assert (exists m, run_all spec_op sample_ops ∅ = Ok m /\ m !! 1 = Some 30) as (m & E & Hm)
    by (eexists; split; [reflexivity|vm_compute; reflexivity]).
  destruct (run_all_refines_Ok sample_ops m E) as (am & Ham & W & <-).
  exists am. split; [done|]. split; [done|].
  exact (proj1 (NextTimestamp_min am W) 1 30 Hm).
Defined.
