(* ===== verification/Wpan.v ===== *)
(** * Packages dissectpkt and wpan: IEEE 802.15.4 MAC header dissection

    [FrameControl] and its accessors, the PAN-id presence rules and [Dissect]
    (src/dissectpkt/wpan/wpan.go, src/dissectpkt/dissectpkt.go).  [Dissect] indexes its
    input without checking lengths: a frame that is too short for the fields its frame
    control announces makes it panic. *)

From S2P Require Import Prelude Types.

Local Open Scope Z_scope.

Definition FrameTypeBeacon : Z := 0.
Definition FrameTypeData : Z := 1.
Definition FrameTypeAck : Z := 2.
Definition FrameTypeCommand : Z := 3.

Definition AddrModeNone : Z := 0.
Definition AddrModeReserved : Z := 1.
Definition AddrModeShort : Z := 2.
Definition AddrModeExtended : Z := 3.

(** ** FrameControl, a [uint16] *)
Definition fc_FrameType (fc : Z) : Z := Z.land fc 7.
Definition SecurityEnabled (fc : Z) : bool := negb (Z.land fc 8 =? 0).
Definition FramePending (fc : Z) : bool := negb (Z.land fc 16 =? 0).
Definition AckRequest (fc : Z) : bool := negb (Z.land fc 32 =? 0).
Definition PanidCompression (fc : Z) : bool := negb (Z.land fc 64 =? 0).
Definition SequenceNumberSuppression (fc : Z) : bool := negb (Z.land fc 256 =? 0).
Definition IEPresent (fc : Z) : bool := negb (Z.land fc 512 =? 0).
Definition DestAddrMode (fc : Z) : Z := Z.shiftr (Z.land fc 3072) 10.
Definition SourceAddrMode (fc : Z) : Z := Z.shiftr (Z.land fc 49152) 14.
Definition FrameVersion (fc : Z) : Z := Z.shiftr (Z.land fc 12288) 12.

Definition HasDestPanIdField (fc : Z) : bool :=
  if FrameVersion fc <=? 1 then true else
  let dam := DestAddrMode fc in
  let sam := SourceAddrMode fc in
  if negb (dam =? AddrModeNone) && negb (sam =? AddrModeNone) then true else
  let pc := PanidCompression fc in
  if (dam =? AddrModeExtended) && (sam =? AddrModeExtended) then negb pc else
  if (sam =? AddrModeNone) && negb (dam =? AddrModeNone) && negb pc then true else
  if (sam =? AddrModeNone) && (dam =? AddrModeNone) && pc then true else
  false.

Definition HasSourcePanIdField (fc : Z) : bool :=
  let dam := DestAddrMode fc in
  let sam := SourceAddrMode fc in
  let pc := PanidCompression fc in
  if FrameVersion fc <=? 1 then
    if negb (sam =? AddrModeNone) && negb pc then true else false
  else if (dam =? AddrModeExtended) && (sam =? AddrModeExtended) && negb pc then false
  else if sam =? AddrModeNone then false
  else negb pc.

(** ** MacFrame *)
Record MacFrame := mkMacFrame {
  mf_Channel : Z;
  mf_FrameControl : Z;
  mf_Seq : Z;
  mf_DstPanId : Z;
  mf_SrcPanId : Z;
  mf_DstAddrShort : Z;
  mf_SrcAddrShort : Z;
  mf_DstAddrExtended : Z;
  mf_SrcAddrExtended : Z;
  mf_LengthBytes : Z;
  mf_PhyHdrLength : Z;
}.

(** An optional field of [w] bytes at offset [n]: its value, 0 if absent, and the offset
    after it. *)
Definition read_field (present : bool) (w : nat) (data : list Z) (n : nat) : res (Z * nat) :=
  if present then v ← slice data n (n + w); Ok (le_get v, (n + w)%nat) else Ok (0, n).

Definition Dissect (data : list Z) : res MacFrame :=
  ch ← index data 0;
  let len := u16 (Z.of_nat (length data) - 1) in
  fcb ← slice data 1 3;
  let fc := le_get fcb in
  if fc_FrameType fc >? FrameTypeCommand then
    Ok (mkMacFrame ch fc 0 0 0 0 0 0 0 len PhyHeaderLenBytes)
  else
  let n := 3%nat in
  '(seq, n) ← (if negb (SequenceNumberSuppression fc)
               then s ← index data n; Ok (s, (n + 1)%nat) else Ok (0, n));
  '(dpan, n) ← read_field (HasDestPanIdField fc) 2 data n;
  '(dext, n) ← read_field (DestAddrMode fc =? AddrModeExtended) 8 data n;
  '(dshort, n) ← read_field (DestAddrMode fc =? AddrModeShort) 2 data n;
  '(span, n) ← read_field (HasSourcePanIdField fc) 2 data n;
  '(sext, n) ← read_field (SourceAddrMode fc =? AddrModeExtended) 8 data n;
  '(sshort, _) ← read_field (SourceAddrMode fc =? AddrModeShort) 2 data n;
  Ok (mkMacFrame ch fc seq dpan span dshort sshort dext sext len PhyHeaderLenBytes).

(** [dissectpkt.Dissect] wraps the frame in a [PktInfo]; [IsAckFrame] looks at its type. *)
Record PktInfo := mkPktInfo { pkt_MacFrame : MacFrame }.
Definition dissectpkt_Dissect (data : list Z) : res PktInfo :=
  f ← Dissect data; Ok (mkPktInfo f).
Definition IsAckFrame (pkt : PktInfo) : bool :=
  fc_FrameType (mf_FrameControl (pkt_MacFrame pkt)) =? FrameTypeAck.

(** ** The header of a frame, as the standard lays it out *)

(** Lengths of the addressing fields. *)
Definition addr_len (mode : Z) : nat :=
  if mode =? AddrModeExtended then 8 else if mode =? AddrModeShort then 2 else 0.
Definition field (present : bool) (w : nat) (v : Z) : list Z :=
  if present then le_put w v else [].

(** The bytes [Dissect] has to find for this frame control: channel, frame control and,
    for known frame types, the sequence number and the addressing fields. *)
Definition header_len (fc : Z) : nat :=
  if fc_FrameType fc >? FrameTypeCommand then 3 else
  3 + (if SequenceNumberSuppression fc then 0 else 1)
    + (if HasDestPanIdField fc then 2 else 0) + addr_len (DestAddrMode fc)
    + (if HasSourcePanIdField fc then 2 else 0) + addr_len (SourceAddrMode fc).

(** A frame built field by field (the reference encoder). *)
Definition encode_frame (f : MacFrame) (payload : list Z) : list Z :=
  let fc := mf_FrameControl f in
  [mf_Channel f] ++ le_put 2 fc ++
  (if SequenceNumberSuppression fc then [] else [mf_Seq f]) ++
  field (HasDestPanIdField fc) 2 (mf_DstPanId f) ++
  field (DestAddrMode fc =? AddrModeExtended) 8 (mf_DstAddrExtended f) ++
  field (DestAddrMode fc =? AddrModeShort) 2 (mf_DstAddrShort f) ++
  field (HasSourcePanIdField fc) 2 (mf_SrcPanId f) ++
  field (SourceAddrMode fc =? AddrModeExtended) 8 (mf_SrcAddrExtended f) ++
  field (SourceAddrMode fc =? AddrModeShort) 2 (mf_SrcAddrShort f) ++ payload.

(** A frame whose absent fields are zero and whose present ones are within range. *)
Record frame_wf (f : MacFrame) (payload : list Z) : Prop := {
  fw_fc : in_u 16 (mf_FrameControl f);
  fw_type : fc_FrameType (mf_FrameControl f) <= FrameTypeCommand;
  fw_seq : SequenceNumberSuppression (mf_FrameControl f) = true -> mf_Seq f = 0;
  fw_dpan : in_u 16 (mf_DstPanId f) /\
    (HasDestPanIdField (mf_FrameControl f) = false -> mf_DstPanId f = 0);
  fw_dext : in_u 64 (mf_DstAddrExtended f) /\
    ((DestAddrMode (mf_FrameControl f) =? AddrModeExtended) = false -> mf_DstAddrExtended f = 0);
  fw_dshort : in_u 16 (mf_DstAddrShort f) /\
    ((DestAddrMode (mf_FrameControl f) =? AddrModeShort) = false -> mf_DstAddrShort f = 0);
  fw_span : in_u 16 (mf_SrcPanId f) /\
    (HasSourcePanIdField (mf_FrameControl f) = false -> mf_SrcPanId f = 0);
  fw_sext : in_u 64 (mf_SrcAddrExtended f) /\
    ((SourceAddrMode (mf_FrameControl f) =? AddrModeExtended) = false -> mf_SrcAddrExtended f = 0);
  fw_sshort : in_u 16 (mf_SrcAddrShort f) /\
    ((SourceAddrMode (mf_FrameControl f) =? AddrModeShort) = false -> mf_SrcAddrShort f = 0);
  fw_len : mf_LengthBytes f = u16 (Z.of_nat (length (encode_frame f payload)) - 1);
  fw_phy : mf_PhyHdrLength f = PhyHeaderLenBytes;
}.

(** ** Lemmas *)
Lemma read_field_encoded data pre present w v rest n :
  data = pre ++ field present w v ++ rest -> n = length pre ->
  in_u (8 * Z.of_nat w) v -> (present = false -> v = 0) ->
  read_field present w data n = Ok (v, length (pre ++ field present w v)).
Proof.
  intros -> -> Hv H0. unfold read_field, field. destruct present.
  - rewrite (slice_mid pre (le_put w v) rest) by (rewrite ?length_le_put; done). simpl.
    rewrite le_get_put_id by done. by rewrite length_app, length_le_put.
  - rewrite H0 by done. by rewrite app_nil_r.
Qed.

Lemma read_field_bound (present : bool) (w : nat) (data : list Z) (n : nat) v n' :
  (n <= length data)%nat -> read_field present w data n = Ok (v, n') ->
  n' = (n + if present then w else 0)%nat /\ (n' <= length data)%nat.
Proof.
  unfold read_field. destruct present; [|intros; simplify_eq; split; lia].
  intros Hn H. apply bind_Ok in H as (s & Hs & H). apply slice_Ok in Hs as [Hs _].
  injection H as _ <-. split; [done|lia].
Qed.

Lemma read_field_total (present : bool) (w : nat) (data : list Z) (n : nat) :
  (n + (if present then w else 0) <= length data)%nat ->
  exists v, read_field present w data n = Ok (v, (n + if present then w else 0)%nat).
Proof.
  unfold read_field. destruct present; intros H.
  - unfold slice. rewrite bool_decide_true by lia. simpl. eauto.
  - rewrite Nat.add_0_r. eauto.
Qed.

Lemma addr_len_split mode :
  addr_len mode = ((if (mode =? AddrModeExtended)%Z then 8 else 0)
    + (if (mode =? AddrModeShort)%Z then 2 else 0))%nat.
Proof.
  unfold addr_len. destruct (Z.eqb_spec mode AddrModeExtended) as [->|]; [done|].
  by destruct (mode =? AddrModeShort).
Qed.

(** ** Theorems *)


(** A data frame with short addresses and PAN-id compression, sequence number 42. *)
Definition sample_frame : MacFrame :=
  mkMacFrame 11 34881 42 64206 0 65535 1024 0 0 13 PhyHeaderLenBytes.



Lemma header_len_unfold fc :
  (fc_FrameType fc >? FrameTypeCommand) = false ->
  header_len fc = (3 + (if SequenceNumberSuppression fc then 0 else 1)
    + (if HasDestPanIdField fc then 2 else 0)
    + ((if (DestAddrMode fc =? AddrModeExtended)%Z then 8 else 0)
       + (if (DestAddrMode fc =? AddrModeShort)%Z then 2 else 0))
    + (if HasSourcePanIdField fc then 2 else 0)
    + ((if (SourceAddrMode fc =? AddrModeExtended)%Z then 8 else 0)
       + (if (SourceAddrMode fc =? AddrModeShort)%Z then 2 else 0)))%nat.
Proof. intros H. unfold header_len. rewrite H. by rewrite <- !addr_len_split. Qed.

Lemma Dissect_needs data f :
  Dissect data = Ok f -> (3 <= length data /\ header_len (le_get (take 2 (drop 1 data))) <= length data)%nat.
Proof.
  unfold Dissect. intros H. apply bind_Ok in H as (ch & _ & H).
  apply bind_Ok in H as (fcb & Hfc & H). apply slice_Ok in Hfc as [Hl ->].
  change (3 - 1)%nat with 2%nat in H. set (fc := le_get (take 2 (drop 1 data))) in *.
  split; [lia|]. destruct (_ >? _) eqn:Ht; [unfold header_len; rewrite Ht; lia|].
  rewrite header_len_unfold by done.
  apply bind_Ok in H as ([seq n1] & Hseq & H).
  assert (n1 = (3 + if SequenceNumberSuppression fc then 0 else 1)%nat /\ (n1 <= length data)%nat) as [E1 B1].
  { destruct (SequenceNumberSuppression fc); cbn [negb] in Hseq; [simplify_eq; lia|].
    apply bind_Ok in Hseq as (s & Hs & E). apply index_Ok, lookup_lt_Some in Hs. simplify_eq. lia. }
  do 6 (apply bind_Ok in H as ([? ?] & Hf & H);
    apply read_field_bound in Hf as [? ?]; [|done]). lia.
Qed.

Lemma Dissect_suffices data :
  (3 <= length data /\ header_len (le_get (take 2 (drop 1 data))) <= length data)%nat ->
  exists f, Dissect data = Ok f.
Proof.
  intros [H3 Hh]. unfold Dissect, index.
  destruct (lookup_lt_is_Some_2 data 0 ltac:(lia)) as [ch ->]. cbn [mbind res_bind].
  unfold slice at 1. rewrite bool_decide_true by lia. cbn [mbind res_bind].
  change (3 - 1)%nat with 2%nat. set (fc := le_get (take 2 (drop 1 data))) in *.
  destruct (_ >? _) eqn:Ht; [eauto|]. rewrite header_len_unfold in Hh by done.
  assert (exists s, (if negb (SequenceNumberSuppression fc)
    then s ← match data !! 3%nat with Some a => Ok a | None => Panic IndexOutOfRange end;
         Ok (s, (3 + 1)%nat) else Ok (0, 3%nat))
    = Ok (s, (3 + if SequenceNumberSuppression fc then 0 else 1)%nat)) as [s ->].
  { destruct (SequenceNumberSuppression fc); cbn [negb]; [eauto|].
    destruct (lookup_lt_is_Some_2 data 3 ltac:(lia)) as [x ->]. simpl. eauto. }
  cbn [mbind res_bind].
  do 6 (match goal with |- context [read_field ?p ?w data ?n] =>
    let v := fresh "v" in let E := fresh "E" in
    destruct (read_field_total p w data n ltac:(lia)) as [v E]; rewrite E; clear E end;
    cbn [mbind res_bind]). eauto.
Qed.


(** with frame version 2 and two extended addresses, the destination PAN id field is
    taken to be present whatever the PAN-id compression flag says: the rule that makes it
    depend on the flag (IEEE 802.15.4-2015, table 7-2) comes after a rule that already
    answers for every pair of present addresses. *)
Theorem HasDestPanIdField_extended fc :
  FrameVersion fc > 1 -> DestAddrMode fc = AddrModeExtended ->
  SourceAddrMode fc = AddrModeExtended -> HasDestPanIdField fc = true.
Proof.
  intros Hv Hd Hs. unfold HasDestPanIdField. rewrite (proj2 (Z.leb_gt _ _)) by lia.
  rewrite Hd, Hs. done.
Qed.

(** Frame control of a version-2 data frame with two extended addresses and PAN-id
    compression. *)
Lemma HasDestPanIdField_extended_witness :
  PanidCompression 60481 = true /\ HasDestPanIdField 60481 = true.
Proof. split; [done|]. apply (HasDestPanIdField_extended 60481); vm_compute; done. Defined.
