(* ===== verification/GoFloat.v ===== *)
(** * Go float64

    Go's [float64] is IEEE-754 binary64, Rocq's primitive [float].  The functions of
    package [math] and the conversions that the sources use are written out here on the
    decomposition of a float into sign, mantissa and exponent; [math.Log10], [math.Pow]
    and [math.Exp] are not fixed by IEEE-754 and are parameters where they are used.  A
    conversion of a NaN or an out-of-range float to an integer is implementation-specific
    in Go; the truncation of the 64-bit pattern that amd64 computes is written out. *)

From Stdlib Require Export Floats.
From S2P Require Import Prelude.

Local Open Scope Z_scope.

Definition f_of_Z (z : Z) : float := SF2Prim (binary_normalize prec emax z 0 false).
Definition MaxFloat64 : float := SF2Prim (S754_finite false (2 ^ 53 - 1) 971).

(** [m * 2^e] towards zero. *)
Definition shift_trunc (m e : Z) : Z := if 0 <=? e then m * 2 ^ e else m / 2 ^ (- e).
(** [m * 2^e] to the nearest integer, halves up. *)
Definition shift_round (m e : Z) : Z :=
  if 0 <=? e then m * 2 ^ e else (2 * m + 2 ^ (- e)) / (2 * 2 ^ (- e)).
Definition signed (s : bool) (z : Z) : Z := if s then - z else z.

(** Conversion of a float to a 64-bit integer: towards zero. *)
Definition int64_of (f : float) : Z :=
  match Prim2SF f with
  | S754_zero _ => 0
  | S754_finite s m e =>
    let z := signed s (shift_trunc (Z.pos m) e) in
    if (- 2 ^ 63 <=? z) && (z <? 2 ^ 63) then z else - 2 ^ 63
  | S754_infinity _ | S754_nan => - 2 ^ 63
  end.
Definition uint64_of (f : float) : Z :=
  match Prim2SF f with
  | S754_zero _ => 0
  | S754_finite s m e =>
    let z := signed s (shift_trunc (Z.pos m) e) in
    if (- 2 ^ 63 <=? z) && (z <? 2 ^ 64) then u64 z else 2 ^ 63
  | S754_infinity _ | S754_nan => 2 ^ 63
  end.

(** [math.Round]: to the nearest integer, halves away from zero. *)
Definition f_Round (f : float) : float :=
  match Prim2SF f with
  | S754_finite s m e =>
    if 0 <=? e then f
    else SF2Prim (binary_normalize prec emax (signed s (shift_round (Z.pos m) e)) 0 s)
  | _ => f
  end.

Definition is_inf (pos : bool) (f : float) : bool :=
  match Prim2SF f with S754_infinity s => Bool.eqb s (negb pos) | _ => false end.
Definition is_neg (f : float) : bool := get_sign f.

(** [math.Max] and [math.Min]. *)
Definition f_Max (x y : float) : float :=
  if is_inf true x || is_inf true y then infinity
  else if is_nan x || is_nan y then nan
  else if is_zero x && PrimFloat.eqb x y then (if is_neg x then y else x)
  else if PrimFloat.ltb y x then x else y.
Definition f_Min (x y : float) : float :=
  if is_inf false x || is_inf false y then neg_infinity
  else if is_nan x || is_nan y then nan
  else if is_zero x && PrimFloat.eqb x y then (if is_neg x then x else y)
  else if PrimFloat.ltb x y then x else y.

Declare Scope go_float_scope.
Delimit Scope go_float_scope with gf.
Notation "x <? y" := (PrimFloat.ltb x y) : go_float_scope.
Notation "x <=? y" := (PrimFloat.leb x y) : go_float_scope.
Notation "x =? y" := (PrimFloat.eqb x y) : go_float_scope.
Notation "x + y" := (PrimFloat.add x y) : go_float_scope.
Notation "x - y" := (PrimFloat.sub x y) : go_float_scope.
Notation "x * y" := (PrimFloat.mul x y) : go_float_scope.
Notation "x / y" := (PrimFloat.div x y) : go_float_scope.
Notation "x >? y" := (PrimFloat.ltb y x) (only parsing) : go_float_scope.
Notation "x >=? y" := (PrimFloat.leb y x) (only parsing) : go_float_scope.

Example f_Round_ex : map (fun z => int64_of (f_Round z)) [2.5; -2.5; 2.25; -126.5; 0.25]%float
  = [3; -3; 2; -127; 0].
Proof. vm_compute. reflexivity. Qed.
Example f_Max_ex : f_Max (-95) (-100) = (-95)%float.
Proof. vm_compute. reflexivity. Qed.
Example f_of_Z_ex : f_of_Z (-127) = (-127)%float.
Proof. vm_compute. reflexivity. Qed.
