(* ===== verification/FloatMono.v ===== *)
(** * Rounding is monotone

    Go computes the simulation time that the wall clock asks for in floating point.  What the
    dispatcher relies on is that this time never goes back while the clock advances: the
    conversion of an integer to a float, the product with a speed and the conversion back are
    monotone.  Here this is proved of IEEE-754 binary64 as the Standard Library specifies it
    (SpecFloat), by following its rounding function [binary_round_aux]. *)

From S2P Require Import Prelude GoFloat.
From Stdlib Require Uint63.

Local Open Scope Z_scope.

(** ** Digits *)
Lemma digits2_pos_size p : digits2_pos p = Pos.size p.
Proof. induction p; simpl; congruence. Qed.
Lemma digits_bounds m : 2 ^ (Z.pos (digits2_pos m) - 1) <= Z.pos m < 2 ^ Z.pos (digits2_pos m).
Proof.
  rewrite digits2_pos_size. pose proof (Pos.size_gt m) as H1. pose proof (Pos.size_le m) as H2.
  rewrite <- Pos2Z.inj_pow. split; [|lia].
  assert (2 ^ Z.pos (Pos.size m) = 2 * 2 ^ (Z.pos (Pos.size m) - 1)) as E.
  { rewrite <- Z.pow_succ_r by lia. f_equal. lia. }
  rewrite <- Pos2Z.inj_pow in E. lia.
Qed.
Lemma digits_unique m d : 2 ^ (d - 1) <= Z.pos m < 2 ^ d -> Z.pos (digits2_pos m) = d.
Proof.
  intros [H1 H2]. pose proof (digits_bounds m) as [B1 B2].
  assert (0 < d) by (destruct (Z.le_gt_cases d 0) as [[?| ->]%Z.le_lteq|]; [rewrite Z.pow_neg_r in H2; lia|simpl in H2; lia|done]).
  destruct (Z.lt_trichotomy (Z.pos (digits2_pos m)) d) as [L|[L|L]]; [|done|].
  - pose proof (Z.pow_le_mono_r 2 (Z.pos (digits2_pos m)) (d - 1)). lia.
  - pose proof (Z.pow_le_mono_r 2 d (Z.pos (digits2_pos m) - 1)). lia.
Qed.
(** A canonical binary64 mantissa has at most 53 bits. *)
Lemma valid_mantissa s m e : valid_binary (S754_finite s m e) = true -> (Z.pos m < 2 ^ 53)%Z.
Proof.
  simpl. unfold bounded, canonical_mantissa. rewrite andb_true_iff. intros [H _].
  apply Z.eqb_eq in H. unfold SpecFloat.fexp in H. pose proof (digits_bounds m) as [_ B].
  eapply Z.lt_le_trans; [exact B|apply Z.pow_le_mono_r; unfold prec in *; lia].
Qed.
Lemma valid_exponent s m e : valid_binary (S754_finite s m e) = true -> -1074 <= e.
Proof.
  simpl. unfold bounded, canonical_mantissa. rewrite andb_true_iff. intros [H _].
  apply Z.eqb_eq in H. unfold SpecFloat.fexp, SpecFloat.emin, prec, emax in *. lia.
Qed.

(** ** Rounding an integer to a multiple of a power of two *)
(** [v / 2^j] to the nearest integer, ties to even. *)
Definition rne (v j : Z) : Z :=
  let q := v / 2 ^ j in
  let r := v mod 2 ^ j in
  if 2 * r <? 2 ^ j then q else if 2 * r =? 2 ^ j then (if Z.even q then q else q + 1) else q + 1.
Lemma rne_cases v j : v / 2 ^ j <= rne v j <= v / 2 ^ j + 1.
Proof. unfold rne. destruct (_ <? _); [lia|]. destruct (_ =? _); [destruct (Z.even _)|]; lia. Qed.
Lemma rne_mono v w j : 0 <= j -> v <= w -> rne v j <= rne w j.
Proof.
  intros Hj H. assert (0 < 2 ^ j) as Hp by (by apply Z.pow_pos_nonneg).
  pose proof (rne_cases v j). pose proof (rne_cases w j).
  pose proof (Z.div_le_mono v w (2 ^ j) Hp H) as Hd.
  destruct (Z.eq_dec (v / 2 ^ j) (w / 2 ^ j)) as [E|]; [|lia].
  pose proof (Z.div_mod v (2 ^ j) ltac:(lia)). pose proof (Z.div_mod w (2 ^ j) ltac:(lia)).
  assert (v mod 2 ^ j <= w mod 2 ^ j) as Hr by nia.
  unfold rne. rewrite E.
  destruct (Z.ltb_spec (2 * (v mod 2 ^ j)) (2 ^ j)), (Z.ltb_spec (2 * (w mod 2 ^ j)) (2 ^ j));
    destruct (Z.eqb_spec (2 * (v mod 2 ^ j)) (2 ^ j)), (Z.eqb_spec (2 * (w mod 2 ^ j)) (2 ^ j));
    destruct (Z.even (w / 2 ^ j)); lia.
Qed.
Lemma rne_scale v j a : 0 <= j -> 0 <= a -> rne (v * 2 ^ a) (j + a) = rne v j.
Proof.
  intros Hj Ha. assert (0 < 2 ^ j) by (by apply Z.pow_pos_nonneg). assert (0 < 2 ^ a) by (by apply Z.pow_pos_nonneg).
  unfold rne. rewrite Z.pow_add_r by done. rewrite Z.div_mul_cancel_r, Z.mul_mod_distr_r by lia.
  replace (2 * (v mod 2 ^ j * 2 ^ a)) with ((2 * (v mod 2 ^ j)) * 2 ^ a) by ring.
  assert (forall x y, (x * 2 ^ a <? y * 2 ^ a) = (x <? y)) as ->.
  { intros x y. apply Bool.eq_iff_eq_true. rewrite !Z.ltb_lt. nia. }
  assert (forall x y, (x * 2 ^ a =? y * 2 ^ a) = (x =? y)) as ->.
  { intros x y. apply Bool.eq_iff_eq_true. rewrite !Z.eqb_eq. nia. }
  done.
Qed.
Lemma rne_exact v j : 0 <= j -> rne (v * 2 ^ j) j = v.
Proof.
  intros Hj. assert (0 < 2 ^ j) by (by apply Z.pow_pos_nonneg). unfold rne.
  rewrite Z.div_mul, Z.mod_mul by lia. destruct (Z.ltb_spec (2 * 0) (2 ^ j)); lia.
Qed.

(** ** The shifts of SpecFloat *)
(** [mrs] is [m] shifted right by [k]: the quotient, and how the rest compares to a half. *)
Definition shifted (m k : Z) (mrs : shr_record) : Prop :=
  0 <= k /\ exists rest, m = shr_m mrs * 2 ^ k + rest /\ 0 <= rest < 2 ^ k /\ 0 <= shr_m mrs /\
  match shr_r mrs, shr_s mrs with
  | false, false => rest = 0
  | false, true => 0 < 2 * rest < 2 ^ k
  | true, false => 2 * rest = 2 ^ k
  | true, true => 2 ^ k < 2 * rest
  end.
Lemma shr_1_halves M r s : 0 <= M ->
  exists b, shr_1 {| shr_m := M; shr_r := r; shr_s := s |} = {| shr_m := M / 2; shr_r := b; shr_s := r || s |} /\
    M = 2 * (M / 2) + Z.b2z b.
Proof.
  intros H. destruct M as [|[p|p|]|p]; [by exists false|exists true|exists false|by exists true|lia].
  - assert (Z.pos p~1 / 2 = Z.pos p) as -> by (rewrite <- Z.div2_div; done). split; [done|simpl; lia].
  - assert (Z.pos p~0 / 2 = Z.pos p) as -> by (rewrite <- Z.div2_div; done). split; [done|simpl; lia].
Qed.
Lemma shr_1_shifted m k mrs : shifted m k mrs -> shifted m (k + 1) (shr_1 mrs).
Proof.
  destruct mrs as [M r s]. intros (Hk & rest & Hm & Hr & HM & HC). cbn [shr_m shr_r shr_s] in *. split; [lia|].
  destruct (shr_1_halves M r s HM) as (b & -> & HB). cbn [shr_m shr_r shr_s]. exists (Z.b2z b * 2 ^ k + rest).
  rewrite Z.pow_add_r by lia. change (2 ^ 1) with 2.
  assert (0 <= M / 2) by (apply Z.div_pos; lia). remember (M / 2) as a.
  split; [subst m; rewrite HB; ring|]. split; [destruct b; simpl; lia|]. split; [done|].
  destruct b, r, s; simpl in *; lia.
Qed.
Lemma iter_shifted m p k mrs : shifted m k mrs -> shifted m (k + Z.pos p) (iter_pos shr_1 p mrs).
Proof.
  revert k mrs. induction p as [p IH|p IH|]; intros k mrs H; cbn [iter_pos].
  - apply shr_1_shifted, (IH _ _), (IH _ _) in H. by replace (k + Z.pos p~1) with (k + 1 + Z.pos p + Z.pos p) by lia.
  - apply (IH _ _), (IH _ _) in H. by replace (k + Z.pos p~0) with (k + Z.pos p + Z.pos p) by lia.
  - by apply shr_1_shifted.
Qed.
Lemma shifted_0 m : 0 <= m -> shifted m 0 {| shr_m := m; shr_r := false; shr_s := false |}.
Proof. intros H. split; [lia|]. exists 0. simpl. lia. Qed.
(** Rounding what was shifted. *)
Lemma shifted_rne m k mrs : shifted m k mrs -> round_nearest_even (shr_m mrs) (loc_of_shr_record mrs) = rne m k.
Proof.
  destruct mrs as [M r s]. intros (Hk & rest & Hm & Hr & HM & HC). simpl in *.
  assert (m / 2 ^ k = M) as EQ by (symmetry; apply (Z.div_unique m (2 ^ k) M rest); [lia|rewrite Hm; ring]).
  assert (m mod 2 ^ k = rest) as ER by (symmetry; apply (Z.mod_unique m (2 ^ k) M rest); [lia|rewrite Hm; ring]).
  unfold rne. rewrite EQ, ER. destruct r, s; simpl;
    destruct (Z.ltb_spec (2 * rest) (2 ^ k)), (Z.eqb_spec (2 * rest) (2 ^ k)); try lia; done.
Qed.

(** ** The rounding function *)
Abbreviation fexp := (SpecFloat.fexp prec emax).
Abbreviation round_aux m e := (binary_round_aux prec emax false (Z.pos m) e loc_Exact).
Lemma fexp_value d : fexp d = Z.max (d - 53) (-1074).
Proof. done. Qed.
(** A float that is not negative, in units of the least one. *)
Definition nonneg (x : spec_float) : Prop :=
  match x with S754_zero _ | S754_finite false _ _ => True | _ => False end.
Definition sval (x : spec_float) : Z :=
  match x with S754_finite false m e => Z.pos m * 2 ^ (e + 1074) | _ => 0 end.
(** The exponent of the result. *)
Definition rexp (m : positive) (e : Z) : Z := fexp (Z.pos (digits2_pos m) + e).

Lemma shr_fexp_up m e : rexp m e <= e -> shr_fexp prec emax (Z.pos m) e loc_Exact = ({| shr_m := Z.pos m; shr_r := false; shr_s := false |}, e).
Proof.
  intros H. unfold shr_fexp, shr, shr_record_of_loc. unfold Zdigits2. unfold rexp in H.
  destruct (fexp (Z.pos (digits2_pos m) + e) - e) eqn:E; [done|lia|done].
Qed.
Lemma shr_fexp_down m e : e < rexp m e -> exists mrs,
  shr_fexp prec emax (Z.pos m) e loc_Exact = (mrs, rexp m e) /\ shifted (Z.pos m) (rexp m e - e) mrs.
Proof.
  intros H. unfold shr_fexp, shr, shr_record_of_loc, Zdigits2. unfold rexp in *.
  destruct (fexp (Z.pos (digits2_pos m) + e) - e) as [|p|p] eqn:E; [lia| |lia].
  eexists. split; [f_equal; lia|]. rewrite <- (Z.add_0_l (Z.pos p)). by apply iter_shifted, shifted_0.
Qed.
Lemma rexp_small p q : -1074 <= q -> Z.pos p < 2 ^ 53 -> rexp p q <= q.
Proof.
  intros Hq Hp. unfold rexp. rewrite fexp_value. pose proof (digits_bounds p) as [B _].
  destruct (Z.le_gt_cases (Z.pos (digits2_pos p)) 53); [lia|].
  pose proof (Z.pow_le_mono_r 2 53 (Z.pos (digits2_pos p) - 1)). lia.
Qed.
(** The second shift of the rounding function: a carry out of the mantissa. *)
Lemma carry_spec n q : -1074 <= q <= 900 -> 0 <= n <= 2 ^ 53 ->
  let x := (let '(mrs, e) := shr_fexp prec emax n q loc_Exact in
    match shr_m mrs with
    | Z0 => S754_zero false
    | Zpos m => if e <=? emax - prec then S754_finite false m e else S754_infinity false
    | _ => S754_nan
    end) in
  nonneg x /\ sval x = n * 2 ^ (q + 1074).
Proof.
  intros Hq Hn. destruct n as [|p|p]; [| |lia].
  - assert (shr_fexp prec emax 0 q loc_Exact = ({| shr_m := 0; shr_r := false; shr_s := false |}, q)) as ->; [|done].
    unfold shr_fexp, shr, shr_record_of_loc, Zdigits2. rewrite fexp_value.
    destruct (Z.max (0 + q - 53) (-1074) - q) eqn:E; [done|lia|done].
  - destruct (Z.eq_dec (Z.pos p) (2 ^ 53)) as [Ep|Ep].
    + assert (rexp p q = q + 1) as ER.
      { unfold rexp. rewrite fexp_value, (digits_unique p 54) by (rewrite Ep; done). lia. }
      destruct (shr_fexp_down p q) as (mrs & -> & (_ & rest & Hm & Hr & _)); [lia|]. rewrite ER in *.
      replace (q + 1 - q) with 1 in * by lia. rewrite Ep in Hm. change (2 ^ 1) with 2 in *. change (2 ^ 53) with (2 ^ 52 * 2) in Hm.
      assert (shr_m mrs = Z.pos (Z.to_pos (2 ^ 52))) as -> by (change (Z.pos (Z.to_pos (2 ^ 52))) with (2 ^ 52); lia).
      unfold prec, emax. destruct (Z.leb_spec (q + 1) (1024 - 53)); [|lia]. split; [done|].
      cbn [sval]. rewrite Ep. replace (q + 1 + 1074) with (q + 1074 + 1) by lia. rewrite (Z.pow_add_r 2 (q + 1074)) by lia.
      change (Z.pos (Z.to_pos (2 ^ 52))) with (2 ^ 52). change (2 ^ 53) with (2 * 2 ^ 52). ring.
    + rewrite shr_fexp_up by (apply rexp_small; lia). cbn [shr_m]. unfold prec, emax.
      destruct (Z.leb_spec q (1024 - 53)); [done|lia].
Qed.
Lemma pow_pos_shift m e K : 0 <= e + K -> 2 ^ (Z.pos (digits2_pos m) - 1 + (e + K)) <= Z.pos m * 2 ^ (e + K) < 2 ^ (Z.pos (digits2_pos m) + (e + K)).
Proof.
  intros H. pose proof (digits_bounds m).
  rewrite (Z.pow_add_r 2 (Z.pos (digits2_pos m) - 1)), (Z.pow_add_r 2 (Z.pos (digits2_pos m))) by lia.
  assert (0 < 2 ^ (e + K)) by (apply Z.pow_pos_nonneg; lia). nia.
Qed.
(** What the rounding function computes, in units of [2^-K]. *)
Lemma round_spec m e K : Z.pos (digits2_pos m) + e <= 900 -> 0 <= e + K -> 1074 <= K ->
  nonneg (round_aux m e) /\
  sval (round_aux m e) = rne (Z.pos m * 2 ^ (e + K)) (rexp m e + K) * 2 ^ (rexp m e + 1074).
Proof.
  intros Hd HK HK'. pose proof (fexp_value (Z.pos (digits2_pos m) + e)) as HF. fold (rexp m e) in HF.
  unfold binary_round_aux. destruct (Z.le_gt_cases (rexp m e) e) as [H|H].
  - rewrite (shr_fexp_up m e H). cbn [shr_m loc_of_shr_record round_nearest_even]. rewrite (shr_fexp_up m e H). cbn [shr_m].
    unfold prec, emax. destruct (Z.leb_spec e (1024 - 53)); [|lia]. split; [done|]. cbn [sval].
    replace (e + K) with (e - rexp m e + (rexp m e + K)) by lia. rewrite (Z.pow_add_r 2 (e - rexp m e)), Z.mul_assoc, rne_exact by lia.
    rewrite <- Z.mul_assoc, <- Z.pow_add_r by lia. f_equal. f_equal. lia.
  - destruct (shr_fexp_down m e H) as (mrs & -> & HS). rewrite (shifted_rne _ _ _ HS).
    assert (rne (Z.pos m * 2 ^ (e + K)) (rexp m e + K) = rne (Z.pos m) (rexp m e - e)) as ->.
    { rewrite <- (rne_scale (Z.pos m) (rexp m e - e) (e + K)) by lia. f_equal. lia. }
    apply carry_spec; [lia|]. pose proof (rne_cases (Z.pos m) (rexp m e - e)).
    assert (0 < 2 ^ (rexp m e - e)) by (apply Z.pow_pos_nonneg; lia).
    assert (0 <= Z.pos m / 2 ^ (rexp m e - e)) by (apply Z.div_pos; lia).
    assert (Z.pos m / 2 ^ (rexp m e - e) < 2 ^ 53); [|lia].
    apply Z.div_lt_upper_bound; [done|]. rewrite <- Z.pow_add_r by lia. pose proof (digits_bounds m) as [_ B].
    eapply Z.lt_le_trans; [exact B|apply Z.pow_le_mono_r; lia].
Qed.
(** Rounding keeps the order. *)
Lemma round_mono m1 e1 m2 e2 K : Z.pos (digits2_pos m1) + e1 <= 900 -> Z.pos (digits2_pos m2) + e2 <= 900 ->
  0 <= e1 + K -> 0 <= e2 + K -> 1074 <= K -> Z.pos m1 * 2 ^ (e1 + K) <= Z.pos m2 * 2 ^ (e2 + K) ->
  sval (round_aux m1 e1) <= sval (round_aux m2 e2).
Proof.
  intros D1 D2 K1 K2 HK H. destruct (round_spec m1 e1 K) as [_ ->]; [done..|]. destruct (round_spec m2 e2 K) as [_ ->]; [done..|].
  pose proof (pow_pos_shift m1 e1 K K1) as [L1 U1]. pose proof (pow_pos_shift m2 e2 K K2) as [L2 U2].
  assert (Z.pos (digits2_pos m1) + e1 <= Z.pos (digits2_pos m2) + e2) as HD.
  { assert (Z.pos (digits2_pos m1) - 1 + (e1 + K) < Z.pos (digits2_pos m2) + (e2 + K)); [|lia].
    apply (Z.pow_lt_mono_r_iff 2); lia. }
  pose proof (fexp_value (Z.pos (digits2_pos m1) + e1)) as F1. fold (rexp m1 e1) in F1.
  pose proof (fexp_value (Z.pos (digits2_pos m2) + e2)) as F2. fold (rexp m2 e2) in F2.
  destruct (Z.eq_dec (rexp m1 e1) (rexp m2 e2)) as [E|NE].
  { rewrite E. apply Z.mul_le_mono_nonneg_r; [apply Z.pow_nonneg; lia|]. apply rne_mono; lia. }
  pose proof (rne_cases (Z.pos m1 * 2 ^ (e1 + K)) (rexp m1 e1 + K)). pose proof (rne_cases (Z.pos m2 * 2 ^ (e2 + K)) (rexp m2 e2 + K)).
  assert (0 < 2 ^ (rexp m1 e1 + K)) by (apply Z.pow_pos_nonneg; lia). assert (0 < 2 ^ (rexp m2 e2 + K)) by (apply Z.pow_pos_nonneg; lia).
  assert (Z.pos m1 * 2 ^ (e1 + K) / 2 ^ (rexp m1 e1 + K) < 2 ^ 53).
  { apply Z.div_lt_upper_bound; [done|]. rewrite <- Z.pow_add_r by lia.
    eapply Z.lt_le_trans; [exact U1|apply Z.pow_le_mono_r; lia]. }
  assert (2 ^ 52 <= Z.pos m2 * 2 ^ (e2 + K) / 2 ^ (rexp m2 e2 + K)).
  { apply Z.div_le_lower_bound; [done|]. rewrite <- Z.pow_add_r by lia.
    eapply Z.le_trans; [|exact L2]. apply Z.pow_le_mono_r; lia. }
  transitivity (2 ^ 53 * 2 ^ (rexp m1 e1 + 1074)); [apply Z.mul_le_mono_nonneg_r; [apply Z.pow_nonneg; lia|lia]|].
  transitivity (2 ^ 52 * 2 ^ (rexp m2 e2 + 1074)); [|apply Z.mul_le_mono_nonneg_r; [apply Z.pow_nonneg; lia|lia]].
  rewrite <- !Z.pow_add_r by lia. apply Z.pow_le_mono_r; lia.
Qed.

(** ** Integers as floats *)
Lemma iter_xO m p : Z.pos (Pos.iter xO m p) = Z.pos m * 2 ^ Z.pos p.
Proof.
  induction p as [|p IH] using Pos.peano_ind; [simpl; lia|].
  rewrite Pos.iter_succ, Pos2Z.inj_xO, IH, Pos2Z.inj_succ, Z.pow_succ_r by lia. ring.
Qed.
Lemma normalize_round m : (Z.pos m < 2 ^ 63) -> exists m' e, binary_normalize prec emax (Z.pos m) 0 false = round_aux m' e /\
  -1074 <= e /\ Z.pos (digits2_pos m') + e <= 63 /\ forall K, 1074 <= K -> Z.pos m' * 2 ^ (e + K) = Z.pos m * 2 ^ K.
Proof.
  intros Hm. assert (Z.pos (digits2_pos m) <= 63) as Hd.
  { pose proof (digits_bounds m) as [B _]. assert (Z.pos (digits2_pos m) - 1 < 63); [|lia]. apply (Z.pow_lt_mono_r_iff 2); lia. }
  cbn [binary_normalize]. unfold binary_round, shl_align. rewrite fexp_value.
  destruct (Z.max (Z.pos (digits2_pos m) + 0 - 53) (-1074) - 0) as [|p|p] eqn:E.
  - exists m, 0. split; [done|]. split; [lia|]. split; [lia|]. intros K HK. f_equal.
  - exists m, 0. split; [done|]. split; [lia|]. split; [lia|]. intros K HK. f_equal.
  - assert (Z.max (Z.pos (digits2_pos m) + 0 - 53) (-1074) = Z.neg p) as -> by lia.
    exists (Pos.iter xO m p), (Z.neg p). split; [done|]. split; [lia|]. split.
    + rewrite (digits_unique (Pos.iter xO m p) (Z.pos (digits2_pos m) + Z.pos p)); [lia|].
      rewrite iter_xO. pose proof (digits_bounds m). assert (0 < 2 ^ Z.pos p) by (apply Z.pow_pos_nonneg; lia).
      replace (Z.pos (digits2_pos m) + Z.pos p - 1) with (Z.pos (digits2_pos m) - 1 + Z.pos p) by lia.
      rewrite !Z.pow_add_r by lia. nia.
    + intros K HK. rewrite iter_xO, <- Z.mul_assoc, <- Z.pow_add_r by lia. f_equal. f_equal. lia.
Qed.
Lemma f_of_Z_spec z : 0 <= z < 2 ^ 63 -> Prim2SF (f_of_Z z) = binary_normalize prec emax z 0 false.
Proof.
  intros H. unfold f_of_Z. assert (Uint63.to_Z (Uint63.of_Z z) = z) as E.
  { rewrite Uint63.of_Z_spec. apply Z.mod_small. exact H. }
  assert (binary_normalize prec emax z 0 false = Prim2SF (of_uint63 (Uint63.of_Z z))) as ->.
  { by rewrite of_uint63_spec, E. }
  by rewrite SF2Prim_Prim2SF.
Qed.
Lemma f_of_Z_nonneg z : 0 <= z < 2 ^ 63 -> nonneg (Prim2SF (f_of_Z z)).
Proof.
  intros H. rewrite f_of_Z_spec by done. destruct z as [|m|m]; [done| |lia].
  destruct (normalize_round m) as (m' & e & -> & He & Hd & _); [lia|]. by apply (round_spec m' e 1074); lia.
Qed.
Lemma f_of_Z_mono a b : 0 <= a <= b -> b < 2 ^ 63 -> sval (Prim2SF (f_of_Z a)) <= sval (Prim2SF (f_of_Z b)).
Proof.
  intros Ha Hb. rewrite !f_of_Z_spec by lia. destruct a as [|a|a]; [| |lia].
  - cbn [binary_normalize sval]. destruct b as [|b|b]; [done| |lia].
    destruct (normalize_round b) as (m' & e & -> & He & Hd & _); [lia|].
    destruct (round_aux m' e) as [| | |[] m'' e'']; cbn [sval]; lia.
  - destruct b as [|b|b]; [lia| |lia].
    destruct (normalize_round a) as (m1 & e1 & -> & He1 & Hd1 & V1); [lia|].
    destruct (normalize_round b) as (m2 & e2 & -> & He2 & Hd2 & V2); [lia|].
    apply (round_mono _ _ _ _ 1074); try lia. rewrite V1, V2 by lia.
    apply Z.mul_le_mono_nonneg_r; [apply Z.pow_nonneg; lia|lia].
Qed.

(** ** Products with a speed *)
(** A speed that is not negative and not above [2^20]. *)
Definition speed_ok (s : float) : Prop := nonneg (Prim2SF s) /\ sval (Prim2SF s) <= 2 ^ (20 + 1074).
Lemma sval_digits m e B : -1074 <= e -> 0 <= B -> Z.pos m * 2 ^ (e + 1074) <= 2 ^ (B + 1074) -> Z.pos (digits2_pos m) + e <= B + 1.
Proof.
  intros He HB H. pose proof (pow_pos_shift m e 1074 ltac:(lia)) as [L _].
  assert (Z.pos (digits2_pos m) - 1 + (e + 1074) <= B + 1074); [|lia]. apply (Z.pow_le_mono_r_iff 2); lia.
Qed.
Lemma digits_mul m n : Z.pos (digits2_pos (m * n)) <= Z.pos (digits2_pos m) + Z.pos (digits2_pos n).
Proof.
  pose proof (digits_bounds m). pose proof (digits_bounds n). pose proof (digits_bounds (m * n)) as [B _].
  assert (Z.pos (digits2_pos (m * n)) - 1 < Z.pos (digits2_pos m) + Z.pos (digits2_pos n)); [|lia].
  apply (Z.pow_lt_mono_r_iff 2); [lia..|]. eapply Z.le_lt_trans; [exact B|]. rewrite Z.pow_add_r, Pos2Z.inj_mul by lia. nia.
Qed.
Lemma finite_valid f m e : Prim2SF f = S754_finite false m e -> -1074 <= e.
Proof. intros E. apply (valid_exponent false m). rewrite <- E. apply Prim2SF_valid. Qed.
(** The product of two finite floats. *)
Lemma mul_round x s m1 e1 m2 e2 :
  Prim2SF x = S754_finite false m1 e1 -> Prim2SF s = S754_finite false m2 e2 ->
  Prim2SF (x * s)%float = round_aux (m1 * m2) (e1 + e2).
Proof. intros E1 E2. rewrite mul_spec, E1, E2. done. Qed.
Lemma exact_product m1 e1 m2 e2 : -1074 <= e1 -> -1074 <= e2 ->
  Z.pos (m1 * m2) * 2 ^ (e1 + e2 + 2148) = (Z.pos m1 * 2 ^ (e1 + 1074)) * (Z.pos m2 * 2 ^ (e2 + 1074)).
Proof.
  intros H1 H2. replace (e1 + e2 + 2148) with ((e1 + 1074) + (e2 + 1074)) by lia. rewrite Z.pow_add_r, Pos2Z.inj_mul by lia. ring.
Qed.
Lemma product_bound z s : nonneg (Prim2SF z) -> sval (Prim2SF z) <= 2 ^ (42 + 1074) -> speed_ok s ->
  nonneg (Prim2SF (z * s)%float) /\ 0 <= sval (Prim2SF (z * s)%float) <= 2 ^ (62 + 1074).
Proof.
  intros Nz Hz [Ns Hs]. destruct (Prim2SF z) as [b| | |[] m1 e1] eqn:Ez; try done.
  { rewrite mul_spec, Ez. destruct (Prim2SF s) as [b'| | |[] m2 e2]; try done; cbn; (split; [done|lia]). }
  destruct (Prim2SF s) as [b| | |[] m2 e2] eqn:Es; try done.
  { rewrite mul_spec, Ez, Es. cbn. split; [done|lia]. }
  rewrite (mul_round z s m1 e1 m2 e2 Ez Es). pose proof (finite_valid _ _ _ Ez). pose proof (finite_valid _ _ _ Es).
  cbn [sval] in Hz, Hs. pose proof (sval_digits m1 e1 42 ltac:(lia) ltac:(lia) Hz).
  pose proof (sval_digits m2 e2 20 ltac:(lia) ltac:(lia) Hs). pose proof (digits_mul m1 m2).
  split; [by apply (round_spec _ _ 2148); lia|]. split.
  - destruct (round_aux (m1 * m2) (e1 + e2)) as [| | |[] m3 e3]; cbn [sval]; lia.
  - replace (2 ^ (62 + 1074)) with (sval (round_aux 1 62)) by (vm_compute; reflexivity).
    apply (round_mono _ _ _ _ 2148); [lia|done|lia|lia|lia|]. rewrite exact_product by done.
    replace (1 * 2 ^ (62 + 2148)) with (2 ^ (42 + 1074) * 2 ^ (20 + 1074)) by (rewrite <- Z.pow_add_r by lia; done).
    apply Z.mul_le_mono_nonneg; [lia|done|lia|done].
Qed.
Lemma product_mono x y s : nonneg (Prim2SF x) -> nonneg (Prim2SF y) -> speed_ok s ->
  sval (Prim2SF x) <= sval (Prim2SF y) -> sval (Prim2SF y) <= 2 ^ (42 + 1074) ->
  sval (Prim2SF (x * s)%float) <= sval (Prim2SF (y * s)%float).
Proof.
  intros Nx Ny S H Hy. destruct (product_bound y s Ny Hy S) as [_ By]. destruct S as [Ns Hs].
  destruct (Prim2SF s) as [b| | |[] m2 e2] eqn:Es; try done.
  { rewrite !mul_spec, Es. destruct (Prim2SF x) as [| | |[] ? ?], (Prim2SF y) as [| | |[] ? ?]; done. }
  destruct (Prim2SF x) as [b| | |[] m1 e1] eqn:Ex; try done.
  { rewrite mul_spec, Ex, Es. cbn [SF64mul SFmul sval]. lia. }
  pose proof (finite_valid _ _ _ Ex). pose proof (finite_valid _ _ _ Es).
  destruct (Prim2SF y) as [b| | |[] m3 e3] eqn:Ey; try done.
  { cbn [sval] in H. assert (0 < 2 ^ (e1 + 1074)) by (apply Z.pow_pos_nonneg; lia). lia. }
  pose proof (finite_valid _ _ _ Ey).
  rewrite (mul_round x s _ _ _ _ Ex Es), (mul_round y s _ _ _ _ Ey Es). cbn [sval] in H, Hy, Hs.
  pose proof (sval_digits m1 e1 42 ltac:(lia) ltac:(lia) ltac:(lia)). pose proof (sval_digits m3 e3 42 ltac:(lia) ltac:(lia) Hy).
  pose proof (sval_digits m2 e2 20 ltac:(lia) ltac:(lia) Hs). pose proof (digits_mul m1 m2). pose proof (digits_mul m3 m2).
  apply (round_mono _ _ _ _ 2148); try lia. rewrite !exact_product by done.
  apply Z.mul_le_mono_nonneg_r; [apply Z.mul_nonneg_nonneg; [lia|apply Z.pow_nonneg; lia]|lia].
Qed.

(** ** Back to integers *)
Lemma uint64_of_sval f : nonneg (Prim2SF f) -> sval (Prim2SF f) <= 2 ^ (62 + 1074) -> uint64_of f = sval (Prim2SF f) / 2 ^ 1074.
Proof.
  intros N H. unfold uint64_of. destruct (Prim2SF f) as [b| | |[] m e] eqn:E; try done. pose proof (finite_valid _ _ _ E) as He.
  cbn [sval signed] in *. assert (shift_trunc (Z.pos m) e = Z.pos m * 2 ^ (e + 1074) / 2 ^ 1074) as ->.
  { unfold shift_trunc. destruct (Z.leb_spec 0 e).
    - rewrite Z.pow_add_r, Z.mul_assoc, Z.div_mul by lia. done.
    - assert (2 ^ 1074 = 2 ^ (- e) * 2 ^ (e + 1074)) as ->.
      { rewrite <- Z.pow_add_r by lia. f_equal. lia. }
      by rewrite Z.div_mul_cancel_r by (apply Z.pow_nonzero; lia). }
  assert (0 < 2 ^ 1074) by (apply Z.pow_pos_nonneg; lia).
  assert (0 <= Z.pos m * 2 ^ (e + 1074) / 2 ^ 1074) by (apply Z.div_pos; lia).
  assert (Z.pos m * 2 ^ (e + 1074) / 2 ^ 1074 <= 2 ^ 62).
  { apply Z.div_le_upper_bound; [done|]. rewrite <- Z.pow_add_r by lia. exact H. }
  remember (Z.pos m * 2 ^ (e + 1074) / 2 ^ 1074) as z. rewrite (proj2 (Z.leb_le (- 2 ^ 63) z)), (proj2 (Z.ltb_lt z (2 ^ 64))) by lia.
  simpl. apply u64_id. unfold in_u. lia.
Qed.
(** Scaling an integer by a speed is monotone. *)
Lemma scale_mono s a b : speed_ok s -> 0 <= a <= b -> b <= 2 ^ 42 ->
  0 <= uint64_of (f_of_Z a * s)%float <= uint64_of (f_of_Z b * s)%float /\ uint64_of (f_of_Z b * s)%float <= 2 ^ 62.
Proof.
  intros S Ha Hb. pose proof (f_of_Z_nonneg a ltac:(lia)) as Na. pose proof (f_of_Z_nonneg b ltac:(lia)) as Nb.
  pose proof (f_of_Z_mono a b ltac:(lia) ltac:(lia)) as Hab.
  assert (sval (Prim2SF (f_of_Z b)) <= 2 ^ (42 + 1074)) as Hbb.
  { etransitivity; [apply (f_of_Z_mono b (2 ^ 42)); lia|]. vm_compute. congruence. }
  destruct (product_bound _ _ Na ltac:(lia) S) as [Pa Ba]. destruct (product_bound _ _ Nb Hbb S) as [Pb Bb].
  pose proof (product_mono _ _ _ Na Nb S Hab Hbb) as HM.
  rewrite !uint64_of_sval by (done || lia). assert (0 < 2 ^ 1074) by (apply Z.pow_pos_nonneg; lia).
  split; [split; [apply Z.div_pos; lia|apply Z.div_le_mono; lia]|].
  apply Z.div_le_upper_bound; [done|]. rewrite <- Z.pow_add_r by lia. apply Bb.
Qed.
