(* ===== verification/State.v ===== *)
(** * Stateful Go code

    A state and panic monad for the methods that mutate their receiver: a method either
    returns a value and the new state or panics.  [hoare P m Q] is partial correctness
    (nothing is said of a run that panics), [total P m Q] also excludes panics. *)

From S2P Require Import Prelude.

Definition st (σ A : Type) : Type := σ -> res (A * σ).

#[export] Instance st_ret {σ} : MRet (st σ) := fun A a s => Ok (a, s).
#[export] Instance st_bind {σ} : MBind (st σ) := fun A B f m s =>
  match m s with Ok (a, s') => f a s' | Panic p => Panic p end.

Definition get {σ} : st σ σ := fun s => Ok (s, s).
Definition gets {σ A} (f : σ -> A) : st σ A := fun s => Ok (f s, s).
Definition modify {σ} (f : σ -> σ) : st σ () := fun s => Ok (tt, f s).
Definition lift {σ A} (r : res A) : st σ A := fun s => match r with Ok a => Ok (a, s) | Panic p => Panic p end.
Definition update {σ} (f : σ -> res σ) : st σ () := fun s => match f s with Ok s' => Ok (tt, s') | Panic p => Panic p end.
Definition panics {σ A} (p : panic) : st σ A := fun _ => Panic p.
Definition when {σ} (b : bool) (m : st σ ()) : st σ () := if b then m else mret tt.

(** [for _, x := range l { body }] *)
Fixpoint for_each {σ A} (l : list A) (body : A -> st σ ()) : st σ () :=
  match l with
  | [] => mret tt
  | x :: l => _ ← body x; for_each l body
  end.

(** ** Hoare triples *)
Definition hoare {σ A} (P : σ -> Prop) (m : st σ A) (Q : A -> σ -> Prop) : Prop :=
  forall s a s', P s -> m s = Ok (a, s') -> Q a s'.
Definition total {σ A} (P : σ -> Prop) (m : st σ A) (Q : A -> σ -> Prop) : Prop :=
  forall s, P s -> exists a s', m s = Ok (a, s') /\ Q a s'.
(** The operation keeps [P]. *)
Abbreviation preserves P m := (hoare P m (fun _ => P)) (only parsing).

Create HintDb hoare.

Section rules.
Context {σ : Type}.
Implicit Types P : σ -> Prop.

Lemma bind_st_Ok {A B} (m : st σ A) (k : A -> st σ B) s b s' :
  (mbind k m) s = Ok (b, s') <-> exists a s1, m s = Ok (a, s1) /\ k a s1 = Ok (b, s').
Proof. unfold mbind, st_bind. destruct (m s) as [[a s1]|p]; split; naive_solver. Qed.

Lemma hoare_bind {A B} P (m : st σ A) (k : A -> st σ B) R Q :
  hoare P m R -> (forall a, hoare (R a) (k a) Q) -> hoare P (mbind k m) Q.
Proof. intros H1 H2 s b s' Hs (a & s1 & E1 & E2)%bind_st_Ok. eapply H2; [eapply H1|]; done. Qed.

Lemma pres_bind {A B} P (m : st σ A) (k : A -> st σ B) :
  preserves P m -> (forall a, preserves P (k a)) -> preserves P (mbind k m).
Proof. intros H1 H2. eapply hoare_bind; done. Qed.

Lemma hoare_ret {A} (a : A) (Q : A -> σ -> Prop) : hoare (Q a) (mret a) Q.
Proof. intros s b s' H E. unfold mret, st_ret in E. by simplify_eq. Qed.

Lemma pres_ret {A} P (a : A) : preserves P (mret a : st σ A).
Proof. intros s b s' H E. unfold mret, st_ret in E. by simplify_eq. Qed.

Lemma pres_lift {A} P (r : res A) : preserves P (lift r).
Proof. intros s b s' H E. unfold lift in E. destruct r; by simplify_eq. Qed.

Lemma pres_gets {A} P (f : σ -> A) : preserves P (gets f).
Proof. intros s b s' H E. unfold gets in E. by simplify_eq. Qed.

Lemma pres_get P : preserves P get.
Proof. intros s b s' H E. unfold get in E. by simplify_eq. Qed.

Lemma pres_panics {A} P p (Q : A -> σ -> Prop) : hoare P (panics p) Q.
Proof. intros s b s' H E. done. Qed.

Lemma hoare_modify P f (Q : () -> σ -> Prop) :
  (forall s, P s -> Q tt (f s)) -> hoare P (modify f) Q.
Proof. intros H s b s' Hs E. unfold modify in E. simplify_eq. auto. Qed.

Lemma hoare_update P f (Q : () -> σ -> Prop) :
  (forall s s', P s -> f s = Ok s' -> Q tt s') -> hoare P (update f) Q.
Proof.
  intros H s b s' Hs E. unfold update in E. destruct (f s) eqn:E'; simplify_eq. eauto.
Qed.

Lemma pres_if {A} P (b : bool) (m1 m2 : st σ A) :
  preserves P m1 -> preserves P m2 -> preserves P (if b then m1 else m2).
Proof. by destruct b. Qed.

Lemma pres_when P b (m : st σ ()) : preserves P m -> preserves P (when b m).
Proof. destruct b; [done|intros _; apply pres_ret]. Qed.

Lemma pres_when_true P b (m : st σ ()) : (b = true -> preserves P m) -> preserves P (when b m).
Proof. destruct b; [by intros H; apply H|intros _; apply pres_ret]. Qed.

Lemma pres_for_each {A} P (l : list A) body :
  (forall x, x ∈ l -> preserves P (body x)) -> preserves P (for_each l body).
Proof.
  induction l as [|x l IH]; intros H; simpl; [apply pres_ret|].
  apply pres_bind; [apply H; left|]. intros _. apply IH. intros y Hy. apply H. by right.
Qed.

Lemma hoare_weaken {A} P P' (m : st σ A) (Q Q' : A -> σ -> Prop) :
  hoare P m Q -> (forall s, P' s -> P s) -> (forall a s, Q a s -> Q' a s) -> hoare P' m Q'.
Proof. intros H H1 H2 s a s' Hs E. eapply H2, H; eauto. Qed.

Lemma hoare_run {A} P (m : st σ A) s a s' : m s = Ok (a, s') -> P s -> preserves P m -> P s'.
Proof. intros E Hs H. by eapply H. Qed.

Lemma hoare_run_flip {A} P (m : st σ A) s a s' : preserves P m -> P s -> m s = Ok (a, s') -> P s'.
Proof. intros H Hs E. by eapply H. Qed.

Lemma hoare_and {A} P (m : st σ A) (Q Q' : A -> σ -> Prop) :
  hoare P m Q -> hoare (fun _ => True) m Q' -> hoare P m (fun a s => Q a s /\ Q' a s).
Proof. intros H1 H2 s a s' Hs E. split; [by eapply H1|by eapply H2]. Qed.

Lemma total_bind {A B} P (m : st σ A) (k : A -> st σ B) R Q :
  total P m R -> (forall a, total (R a) (k a) Q) -> total P (mbind k m) Q.
Proof.
  intros H1 H2 s Hs. destruct (H1 s Hs) as (a & s1 & E1 & H). destruct (H2 a s1 H) as (b & s2 & E2 & Hq).
  exists b, s2. split; [|done]. unfold mbind, st_bind. by rewrite E1.
Qed.
End rules.

#[export] Hint Resolve pres_ret pres_lift pres_gets pres_get pres_panics pres_when : hoare.
#[export] Hint Resolve pres_if : hoare.

(** Walk a computation made of binds, tests and loops; the leaves are closed by the hint
    database. *)
Ltac pres_step :=
  match goal with
  | |- hoare _ (mbind _ _) _ => apply pres_bind; [|intros ?]
  | |- hoare _ (if ?b then _ else _) _ => apply pres_if
  | |- hoare _ (when _ _) _ => apply pres_when
  | |- hoare _ (for_each _ _) _ => apply pres_for_each; intros ? ?
  | |- hoare _ (match ?x with _ => _ end) _ => destruct x
  | |- hoare _ (let '_ := ?x in _) _ => destruct x
  end.
Ltac pres := repeat first [progress eauto with hoare nocore|pres_step]; eauto with hoare.

Lemma ret_st_Ok {σ A} (a b : A) (s s' : σ) : (mret a : st σ A) s = Ok (b, s') <-> a = b /\ s = s'.
Proof. unfold mret, st_ret. split; naive_solver. Qed.
Lemma lift_st_Ok {σ A} (r : res A) (b : A) (s s' : σ) : lift r s = Ok (b, s') <-> r = Ok b /\ s = s'.
Proof. unfold lift. destruct r; split; naive_solver. Qed.
Lemma gets_st_Ok {σ A} (f : σ -> A) (b : A) (s s' : σ) : gets f s = Ok (b, s') <-> f s = b /\ s = s'.
Proof. unfold gets. split; naive_solver. Qed.
Lemma get_st_Ok {σ} (b s s' : σ) : get s = Ok (b, s') <-> s = b /\ s = s'.
Proof. unfold get. split; naive_solver. Qed.
Lemma modify_st_Ok {σ} (f : σ -> σ) (b : ()) (s s' : σ) : modify f s = Ok (b, s') <-> f s = s'.
Proof. unfold modify. destruct b. split; naive_solver. Qed.
Lemma update_st_Ok {σ} (f : σ -> res σ) (b : ()) (s s' : σ) : update f s = Ok (b, s') <-> f s = Ok s'.
Proof. unfold update. destruct b, (f s); split; naive_solver. Qed.

(** Open a successful run one step at a time. *)
Ltac st_inv :=
  repeat match goal with
  | H : mbind _ _ _ = Ok _ |- _ => apply bind_st_Ok in H as (? & ? & ? & H); cbn beta in H
  | H : mret _ _ = Ok _ |- _ => apply ret_st_Ok in H as [? ?]
  | H : lift _ _ = Ok _ |- _ => apply lift_st_Ok in H as [? ?]
  | H : gets _ _ = Ok _ |- _ => apply gets_st_Ok in H as [? ?]
  | H : get _ = Ok _ |- _ => apply get_st_Ok in H as [? ?]
  | H : modify _ _ = Ok _ |- _ => apply modify_st_Ok in H
  | H : update _ _ = Ok _ |- _ => apply update_st_Ok in H
  | H : panics _ _ = Ok _ |- _ => discriminate H
  end.
