(* ===== verification/Energy.v ===== *)
(** * Energy analyser

    Energy bookkeeping of the radios (src/energy): per node, the time spent in each radio
    state (node.go), and the analyser with its snapshots (core.go).  Node records are
    owned by the analyser's map, so they are values of it.  The order in which Go ranges
    over the map is a parameter.  The text formatting of the result files is left out:
    their rows are values. *)

From S2P Require Import Prelude Types GoFloat.
From Stdlib Require Import Ascii.
From stdpp Require Import pretty.

#[local] Set Warnings "-inexact-float".

Definition RadioDisabledConsumption : float := 0.00000011%float.
Definition RadioTxConsumption : float := 0.00001716%float.
Definition RadioRxConsumption : float := 0.00001485%float.
Definition RadioSleepConsumption : float := 0.00001485%float.
Definition ComputePeriod : Z := 30000000.

Record RadioStatus := mkRadioStatus {
  rst_State : RadioStates;
  SpentDisabled : Z;
  SpentSleep : Z;
  SpentTx : Z;
  SpentRx : Z;
  rst_Timestamp : Z;
}.

Record NodeEnergy := mkNodeEnergy {
  ne_NodeId : Z;
  ne_radio : RadioStatus;
  ne_Disabled : float;
  ne_Sleep : float;
  ne_Tx : float;
  ne_Rx : float;
}.

Record NetworkConsumption := mkNetworkConsumption {
  nw_Timestamp : Z;
  EnergyConsDisabled : float;
  EnergyConsSleep : float;
  EnergyConsTx : float;
  EnergyConsRx : float;
}.

Record EnergyAnalyser := mkEnergyAnalyser {
  ea_nodes : gmap Z NodeEnergy;
  ea_networkHistory : list NetworkConsumption;
  ea_energyHistoryByNodes : list (list NodeEnergy);
  ea_title : string;
  ea_outputDir : string;
  ea_simulationId : Z;
}.

(** ** One node *)
Definition newNode (nodeID timestamp : Z) : NodeEnergy :=
  mkNodeEnergy nodeID (mkRadioStatus RadioDisabled 0 0 0 0 timestamp) 0 0 0 0.

Definition compute (timestamp : Z) (r : RadioStatus) : res RadioStatus :=
  let delta := u64 (timestamp - rst_Timestamp r) in
  let st := rst_State r in
  let mk d s t x := Ok (mkRadioStatus st (u64 d) (u64 s) (u64 t) (u64 x) timestamp) in
  if (st =? RadioDisabled)%Z then mk (SpentDisabled r + delta)%Z (SpentSleep r) (SpentTx r) (SpentRx r)
  else if (st =? RadioSleep)%Z then mk (SpentDisabled r) (SpentSleep r + delta)%Z (SpentTx r) (SpentRx r)
  else if (st =? RadioTx)%Z then mk (SpentDisabled r) (SpentSleep r) (SpentTx r + delta)%Z (SpentRx r)
  else if (st =? RadioRx)%Z then mk (SpentDisabled r) (SpentSleep r) (SpentTx r) (SpentRx r + delta)%Z
  else if (st =? RadioInvalid)%Z then mk (SpentDisabled r) (SpentSleep r) (SpentTx r) (SpentRx r)
  else Panic Panicf.

Definition set_radio (r : RadioStatus) (n : NodeEnergy) : NodeEnergy :=
  mkNodeEnergy (ne_NodeId n) r (ne_Disabled n) (ne_Sleep n) (ne_Tx n) (ne_Rx n).

Definition ComputeRadioState (timestamp : Z) (n : NodeEnergy) : res NodeEnergy :=
  r ← compute timestamp (ne_radio n); Ok (set_radio r n).

Definition SetRadioState (state : RadioStates) (timestamp : Z) (n : NodeEnergy) : res NodeEnergy :=
  r ← compute timestamp (ne_radio n);
  Ok (set_radio (mkRadioStatus state (SpentDisabled r) (SpentSleep r) (SpentTx r) (SpentRx r)
        (rst_Timestamp r)) n).

(** ** The analyser *)
Definition NewEnergyAnalyser (outputDir : string) (simulationId : Z) : EnergyAnalyser :=
  mkEnergyAnalyser ∅ [] [] "" outputDir simulationId.

Definition set_ea_nodes (nodes : gmap Z NodeEnergy) (e : EnergyAnalyser) : EnergyAnalyser :=
  mkEnergyAnalyser nodes (ea_networkHistory e) (ea_energyHistoryByNodes e) (ea_title e)
    (ea_outputDir e) (ea_simulationId e).

Definition AddNode (nodeID timestamp : Z) (e : EnergyAnalyser) : EnergyAnalyser :=
  match ea_nodes e !! nodeID with
  | Some _ => e
  | None => set_ea_nodes (<[nodeID:=newNode nodeID timestamp]> (ea_nodes e)) e
  end.

Definition ClearEnergyData (e : EnergyAnalyser) : EnergyAnalyser :=
  mkEnergyAnalyser (ea_nodes e) [] [] (ea_title e) (ea_outputDir e) (ea_simulationId e).

Definition DeleteNode (nodeID : Z) (e : EnergyAnalyser) : EnergyAnalyser :=
  let e := set_ea_nodes (delete nodeID (ea_nodes e)) e in
  if bool_decide (ea_nodes e = ∅) then ClearEnergyData e else e.

Definition GetNode (nodeID : Z) (e : EnergyAnalyser) : option NodeEnergy := ea_nodes e !! nodeID.
Definition SetTitle (title : string) (e : EnergyAnalyser) : EnergyAnalyser :=
  mkEnergyAnalyser (ea_nodes e) (ea_networkHistory e) (ea_energyHistoryByNodes e) title
    (ea_outputDir e) (ea_simulationId e).

(** The last element of the history; [history[len-1]] panics on an empty history. *)
Definition GetLatestEnergyOfNodes (e : EnergyAnalyser) : res (list NodeEnergy) :=
  match last (ea_energyHistoryByNodes e) with Some l => Ok l | None => Panic IndexOutOfRange end.

(** The use the dispatcher makes of [GetNode]: the state of a node's radio. *)
Definition update_radio (nodeID : Z) (state : RadioStates) (timestamp : Z) (e : EnergyAnalyser)
    : res EnergyAnalyser :=
  n ← assert_not_nil (GetNode nodeID e);
  n ← SetRadioState state timestamp n;
  Ok (set_ea_nodes (<[nodeID:=n]> (ea_nodes e)) e).

Section snapshot.
Variable range : gmap Z NodeEnergy -> list (Z * NodeEnergy).

Definition energies (n : NodeEnergy) : NodeEnergy :=
  let r := ne_radio n in
  mkNodeEnergy (ne_NodeId n) (mkRadioStatus 0 0 0 0 0 0)
    (f_of_Z (SpentDisabled r) * RadioDisabledConsumption)%gf
    (f_of_Z (SpentSleep r) * RadioSleepConsumption)%gf
    (f_of_Z (SpentTx r) * RadioTxConsumption)%gf
    (f_of_Z (SpentRx r) * RadioRxConsumption)%gf.

Fixpoint store_loop (timestamp : Z) (netSize : float) (l : list (Z * NodeEnergy))
    (nodes : gmap Z NodeEnergy) (net : NetworkConsumption) (snap : list NodeEnergy)
    : res (gmap Z NodeEnergy * NetworkConsumption * list NodeEnergy) :=
  match l with
  | [] => Ok (nodes, net, snap)
  | (id, n) :: l =>
    n ← ComputeRadioState timestamp n;
    let e := energies n in
    store_loop timestamp netSize l (<[id:=n]> nodes)
      (mkNetworkConsumption (nw_Timestamp net)
        (EnergyConsDisabled net + ne_Disabled e / netSize)%gf
        (EnergyConsSleep net + ne_Sleep e / netSize)%gf
        (EnergyConsTx net + ne_Tx e / netSize)%gf
        (EnergyConsRx net + ne_Rx e / netSize)%gf)
      (snap ++ [e])
  end.

Definition StoreNetworkEnergy (timestamp : Z) (e : EnergyAnalyser) : res EnergyAnalyser :=
  '(nodes, net, snap) ← store_loop timestamp (f_of_Z (Z.of_nat (size (ea_nodes e))))
    (range (ea_nodes e)) (ea_nodes e) (mkNetworkConsumption timestamp 0 0 0 0) [];
  Ok (mkEnergyAnalyser nodes (ea_networkHistory e ++ [net]) (ea_energyHistoryByNodes e ++ [snap])
        (ea_title e) (ea_outputDir e) (ea_simulationId e)).
End snapshot.

(** ** Result files *)
Definition has_separator (s : string) : bool :=
  existsb (fun c => Ascii.eqb c "/"%char || Ascii.eqb c "\"%char) (String.list_ascii_of_string s).

(** The base name of the two result files, or nothing when the name is refused. *)
Definition energy_path (name : string) (e : EnergyAnalyser) : option string :=
  let name := if String.eqb name "" then (if String.eqb (ea_title e) "" then "energy" else ea_title e)
              else name in
  if String.eqb name "." || String.eqb name ".." || has_separator name then None
  else Some (ea_outputDir e +:+ "/" +:+ pretty (ea_simulationId e) +:+ "_" +:+ name)%string.

(** The rows that [writeEnergyByNodes] and [writeNetworkEnergy] print. *)
Definition writeEnergyByNodes (e : EnergyAnalyser) : list (Z * (float * float * float * float)) :=
  omap (fun id => n ← ea_nodes e !! id;
    let n := energies n in Some (id, (ne_Disabled n, ne_Sleep n, ne_Tx n, ne_Rx n)))
    (merge_sort Z.le (elements (dom (ea_nodes e)))).
Definition writeNetworkEnergy (e : EnergyAnalyser) : list (Z * (float * float * float * float)) :=
  map (fun s => (nw_Timestamp s / 1000, (EnergyConsDisabled s, EnergyConsSleep s, EnergyConsTx s,
    EnergyConsRx s)))%Z (ea_networkHistory e).

(** The files written: path and rows. *)
Definition SaveEnergyDataToFile (name : string) (timestamp : Z) (e : EnergyAnalyser)
    : list (string * list (Z * (float * float * float * float))) :=
  match energy_path name e with
  | None => []
  | Some path => [ (path +:+ "_nodes.txt", writeEnergyByNodes e); (path +:+ ".txt", writeNetworkEnergy e) ]%string
  end.

(** ** Time accounting *)

(** A report: at time [fst], the radio enters state [snd]. *)
Definition report := (Z * RadioStates)%type.

Fixpoint run_reports (rs : list report) (n : NodeEnergy) : res NodeEnergy :=
  match rs with
  | [] => Ok n
  | (ts, st) :: rs => n ← SetRadioState st ts n; run_reports rs n
  end.

(** The time spent in state [x] up to [tend] by a radio that is in state [cur] since [t]. *)
Fixpoint time_in (x cur : RadioStates) (t : Z) (rs : list report) (tend : Z) : Z :=
  match rs with
  | [] => if (cur =? x)%Z then tend - t else 0
  | (ts, st) :: rs => (if (cur =? x)%Z then ts - t else 0) + time_in x st ts rs tend
  end.

Definition radio_state_ok (st : RadioStates) : Prop :=
  st = RadioDisabled \/ st = RadioSleep \/ st = RadioTx \/ st = RadioRx \/ st = RadioInvalid.

Definition spent (x : RadioStates) (r : RadioStatus) : Z :=
  if (x =? RadioDisabled)%Z then SpentDisabled r else if (x =? RadioSleep)%Z then SpentSleep r
  else if (x =? RadioTx)%Z then SpentTx r else if (x =? RadioRx)%Z then SpentRx r else 0.

(** The counters are at most the time elapsed since [t0]. *)
Definition spent_ok (t0 : Z) (r : RadioStatus) : Prop :=
  (0 <= t0 <= rst_Timestamp r)%Z /\
  (0 <= SpentDisabled r /\ 0 <= SpentSleep r /\ 0 <= SpentTx r /\ 0 <= SpentRx r /\
   SpentDisabled r + SpentSleep r + SpentTx r + SpentRx r <= rst_Timestamp r - t0)%Z.

Lemma compute_spec t0 ts r :
  spent_ok t0 r -> radio_state_ok (rst_State r) -> (rst_Timestamp r <= ts < 2 ^ 64)%Z ->
  exists r', compute ts r = Ok r' /\ rst_State r' = rst_State r /\ rst_Timestamp r' = ts /\
    spent_ok t0 r' /\
    forall x, x <> RadioInvalid -> radio_state_ok x ->
      spent x r' = (spent x r + if (rst_State r =? x)%Z then ts - rst_Timestamp r else 0)%Z.
Proof.
  intros (H1 & H2) Hst Hts. unfold compute.
  rewrite (u64_id (ts - _)) by (unfold in_u; lia).
  destruct r as [st d s t x tm]. simpl in *.
  assert (forall z, (0 <= z <= ts - t0)%Z -> u64 z = z) as Hu.
  { intros z Hz. apply u64_id. unfold in_u. lia. }
  unfold radio_state_ok, RadioDisabled, RadioSleep, RadioTx, RadioRx, RadioInvalid, spent, spent_ok in *.
  destruct Hst as [->|[->|[->|[->| ->]]]]; simpl; eexists; (split; [reflexivity|]); simpl;
  rewrite !Hu by lia; (split; [done|]); (split; [done|]); (split; [lia|]);
  intros y Hy [->|[->|[->|[->| ->]]]]; simpl; try done; lia.
Qed.

Lemma run_reports_spec t0 rs n tend :
  spent_ok t0 (ne_radio n) -> radio_state_ok (rst_State (ne_radio n)) ->
  Forall (fun r => radio_state_ok (snd r)) rs ->
  StronglySorted Z.le (rst_Timestamp (ne_radio n) :: map fst rs ++ [tend]) -> (tend < 2 ^ 64)%Z ->
  exists n' n'', run_reports rs n = Ok n' /\ ComputeRadioState tend n' = Ok n'' /\
    spent_ok t0 (ne_radio n'') /\ rst_Timestamp (ne_radio n'') = tend /\
    forall x, x <> RadioInvalid -> radio_state_ok x ->
      spent x (ne_radio n'') = (spent x (ne_radio n) +
        time_in x (rst_State (ne_radio n)) (rst_Timestamp (ne_radio n)) rs tend)%Z.
Proof.
  revert n. induction rs as [|[ts st] rs IH]; intros n Hok Hst HF HS HB.
  - cbn [map app] in HS. apply StronglySorted_inv in HS as [_ HS]. apply Forall_cons in HS as [HS _].
    destruct (compute_spec t0 tend (ne_radio n)) as (r' & E & Hst' & Hts & Hok' & Hx); [done..|lia|].
    exists n, (set_radio r' n). unfold ComputeRadioState. cbn [run_reports]. rewrite E. simpl.
    by repeat split; try apply Hok'.
  - cbn [map app] in HS. apply StronglySorted_inv in HS as [HS' HS].
    apply Forall_cons in HF as [Hst' HF]. apply Forall_cons in HS as [HS HSs].
    assert (ts <= tend)%Z as Hte.
    { apply StronglySorted_inv in HS' as [_ H]. apply Forall_app in H as [_ H].
      by apply Forall_cons in H as [H _]. }
    simpl in HS, Hst'.
    destruct (compute_spec t0 ts (ne_radio n)) as (r' & E & Hs' & Hts & Hok' & Hx); [done..|lia|].
    destruct (IH (set_radio (mkRadioStatus st (SpentDisabled r') (SpentSleep r') (SpentTx r') (SpentRx r')
        (rst_Timestamp r')) n)) as (n' & n'' & E' & E'' & Hok'' & Hts'' & Hx'');
      [done|done|done|simpl; by rewrite Hts|done|].
    exists n', n''. cbn [run_reports]. unfold SetRadioState. rewrite E. cbn [mbind res_bind].
    rewrite E'. repeat split; try done; try apply Hok''. intros x H1 H2.
    rewrite Hx'' by done. cbn [time_in ne_radio set_radio rst_State rst_Timestamp].
    rewrite Hts. change (spent x (mkRadioStatus st _ _ _ _ _)) with (spent x r').
    rewrite Hx by done. lia.
Qed.

(** Energy is accounted exactly: for every sequence of radio-state reports with
    non-decreasing times, starting when the node is created, the bookkeeping never panics
    and the time booked for each radio state is the time the radio was in it. *)
Theorem energy_time_exact id t0 rs tend :
  (0 <= t0)%Z -> Forall (fun r => radio_state_ok (snd r)) rs ->
  StronglySorted Z.le (t0 :: map fst rs ++ [tend]) -> (tend < 2 ^ 64)%Z ->
  exists n' n'', run_reports rs (newNode id t0) = Ok n' /\ ComputeRadioState tend n' = Ok n'' /\
    SpentDisabled (ne_radio n'') = time_in RadioDisabled RadioDisabled t0 rs tend /\
    SpentSleep (ne_radio n'') = time_in RadioSleep RadioDisabled t0 rs tend /\
    SpentTx (ne_radio n'') = time_in RadioTx RadioDisabled t0 rs tend /\
    SpentRx (ne_radio n'') = time_in RadioRx RadioDisabled t0 rs tend.
Proof.
  intros H0 HF HS HB.
  destruct (run_reports_spec t0 rs (newNode id t0) tend) as (n' & n'' & E & E' & _ & _ & Hx); try done.
  { unfold spent_ok; simpl; lia. } { by left. }
  exists n', n''. split; [done|]. split; [done|]. unfold radio_state_ok in Hx.
  repeat split.
  - by apply (Hx RadioDisabled); [done|tauto].
  - by apply (Hx RadioSleep); [done|tauto].
  - by apply (Hx RadioTx); [done|tauto].
  - by apply (Hx RadioRx); [done|tauto].
Qed.

Lemma energy_time_exact_witness :
  exists n' n'', run_reports [(10, 2); (25, 3); (30, 2)]%Z (newNode 1 0) = Ok n' /\
    ComputeRadioState 50 n' = Ok n'' /\ SpentRx (ne_radio n'') = 35%Z /\ SpentTx (ne_radio n'') = 5%Z.
Proof.
  destruct (energy_time_exact 1 0 [(10, 2); (25, 3); (30, 2)]%Z 50) as (n' & n'' & H1 & H2 & _ & _ & H3 & H4).
  - lia.
  - repeat constructor; unfold radio_state_ok, RadioRx, RadioTx; simpl; tauto.
  - repeat first [apply SSorted_nil|apply SSorted_cons|apply Forall_nil_2|apply Forall_cons_2]; simpl; lia.
  - lia.
  - exists n', n''. split; [exact H1|]. split; [exact H2|]. rewrite H3, H4. split; reflexivity.
Defined.

Lemma has_separator_app (a b : string) :
  has_separator (a +:+ b)%string = has_separator a || has_separator b.
Proof.
  unfold has_separator. induction a as [|x a IH]; simpl; [done|]. by rewrite IH, orb_assoc.
Qed.

(** energy results never leave the output directory: whatever name is asked for, every
    file written is named [outputDir/simulationId_name...] with a name free of path
    separators. *)
Theorem SaveEnergyDataToFile_confined name ts e path rows :
  (path, rows) ∈ SaveEnergyDataToFile name ts e ->
  exists base, path = (ea_outputDir e +:+ "/" +:+ pretty (ea_simulationId e) +:+ "_" +:+ base)%string /\
    has_separator base = false.
Proof.
  unfold SaveEnergyDataToFile, energy_path.
  set (nm := if String.eqb name "" then _ else _).
  destruct (String.eqb nm "." || String.eqb nm ".." || has_separator nm) eqn:E; [set_solver|].
  apply orb_false_iff in E as [_ E]. intros [H|[H|H]%elem_of_cons]%elem_of_cons.
  - injection H as -> ->. exists (nm +:+ "_nodes.txt")%string. split; [by rewrite !string_app_assoc|].
    by rewrite has_separator_app, E.
  - injection H as -> ->. exists (nm +:+ ".txt")%string. split; [by rewrite !string_app_assoc|].
    by rewrite has_separator_app, E.
  - by apply not_elem_of_nil in H.
Qed.

Lemma SaveEnergyDataToFile_confined_witness :
  exists base, ("tmp/0_run17.txt" = "tmp" +:+ "/" +:+ pretty 0%Z +:+ "_" +:+ base)%string /\
    has_separator base = false.
Proof.
  apply (SaveEnergyDataToFile_confined "run17" 1000 (NewEnergyAnalyser "tmp" 0) "tmp/0_run17.txt" []).
  right. left.
Defined.
