(* ===== verification/Visualize.v ===== *)
(** * Calls to the visualizer

    The [Visualizer] interface (src/visualize/types.go) is what the dispatcher reports
    to.  The model of the dispatcher records the calls: a trace of [VisCall]s.
    [Visualizer] is the interface; its implementations are in [Visualizers] and
    [GrpcVisualizer].

    A visualizer that keeps a record per node relies on being told of a node before anything
    else is said about it, and on hearing nothing of it after it is deleted.  [vis_track] is
    this protocol; [VisualizerFollows] says that a visualizer does its work under it. *)

From S2P Require Import Prelude State Types GoFloat Energy.

Record MsgVisualizeInfo := mkMsgVisualizeInfo {
  mv_Channel : Z;
  mv_FrameControl : Z;
  mv_Seq : Z;
  mv_DstAddrShort : Z;
  mv_DstAddrExtended : Z;
  mv_SendDurationUs : Z;
  mv_PowerDbm : Z;
  mv_FrameSizeBytes : Z;
}.

Record TimeWindowStatsInfo := mkTimeWindowStatsInfo {
  ti_WinStartUs : Z;
  ti_WinWidthUs : Z;
  ti_PhyTxBytes : gmap NodeId Z;
  ti_ChanSampleCount : gmap NodeId Z;
  ti_NodePhyStats : gmap NodeId PhyStats;
}.

Record TitleInfo := mkTitleInfo { ti_Title : string; ti_X : Z; ti_Y : Z; ti_FontSize : Z }.
Definition DefaultTitleInfo : TitleInfo := mkTitleInfo "" 0 20 20.

(** Information on the simulated network, or on one node. *)
Record NetworkInfo := mkNetworkInfo {
  ni_Real : bool;
  ni_Version : string;
  ni_Commit : string;
  ni_NodeId : NodeId;
  ni_ThreadVersion : Z;
}.
Definition InvalidThreadVersion : Z := 0.
Definition DefaultNetworkInfo : NetworkInfo := mkNetworkInfo false "" "" InvalidNodeId InvalidThreadVersion.

Record NodeStatsInfo := mkNodeStatsInfo { nsi_TimeUs : Z; nsi_Stats : NodeStats }.
Definition DefaultNodeStatsInfo : NodeStatsInfo := mkNodeStatsInfo 0 (mkNodeStats 0 0 0 0 0 0 0 0 0).

Inductive VisCall :=
| VisAddNode (id : NodeId) (cfg : NodeConfig)
| VisSetNodeRloc16 (id : NodeId) (rloc16 : Z)
| VisSetNodeRole (id : NodeId) (role : OtDeviceRole)
| VisSetNodeMode (id : NodeId) (mode : NodeMode)
| VisSend (src dst : NodeId) (info : MsgVisualizeInfo)
| VisSetNodePartitionId (id : NodeId) (parid : Z)
| VisAdvanceTime (ts : Z) (speed : float)
| VisOnNodeFail (id : NodeId)
| VisOnNodeRecover (id : NodeId)
| VisSetNodePos (id : NodeId) (x y z : Z)
| VisDeleteNode (id : NodeId)
| VisAddRouterTable (id : NodeId) (extaddr : Z)
| VisRemoveRouterTable (id : NodeId) (extaddr : Z)
| VisAddChildTable (id : NodeId) (extaddr : Z)
| VisRemoveChildTable (id : NodeId) (extaddr : Z)
| VisSetParent (id : NodeId) (extaddr : Z)
| VisOnExtAddrChange (id : NodeId) (extaddr : Z)
| VisUpdateNodesEnergy (nodes : list NodeEnergy) (ts : Z) (updateView : bool)
| VisUpdateNodeStats (ts : Z) (stats : NodeStats)
| VisUpdateTimeWindowStats (info : TimeWindowStatsInfo)
| VisSetSpeed (speed : float)
| VisShowDemoLegend (x y : Z) (title : string)
| VisCountDown (durationMs : Z) (text : string)
| VisSetTitle (info : TitleInfo)
| VisSetNetworkInfo (info : NetworkInfo).

(** The interface: one method for all the calls that a simulation makes. *)
Class Visualizer (V : Type) := {
  vis_Init : st V ();
  vis_Stop : st V ();
  vis_call : VisCall -> st V ();
}.
Fixpoint vis_calls {V} `{!Visualizer V} (cs : list VisCall) : st V () :=
  match cs with
  | [] => mret tt
  | c :: cs => _ ← vis_call c; vis_calls cs
  end.

(** ** The protocol *)
(** The node that a call is about, if the node must be known. *)
Definition call_node (c : VisCall) : option NodeId :=
  match c with
  | VisSetNodeRloc16 id _ | VisSetNodeRole id _ | VisSetNodeMode id _ | VisSetNodePartitionId id _ | VisOnNodeFail id
  | VisOnNodeRecover id | VisSetNodePos id _ _ _ | VisAddRouterTable id _ | VisRemoveRouterTable id _ | VisAddChildTable id _
  | VisRemoveChildTable id _ | VisSetParent id _ | VisOnExtAddrChange id _ => Some id
  | VisSetNetworkInfo info => if (ni_NodeId info =? InvalidNodeId)%Z then None else Some (ni_NodeId info)
  | _ => None
  end.
(** The nodes that are known after the call; nothing if it is not allowed. *)
Definition vis_track (nodes : gset NodeId) (c : VisCall) : option (gset NodeId) :=
  match c with
  | VisAddNode id _ => if decide (id ∈ nodes) then None else Some (nodes ∪ {[id]})
  | VisDeleteNode id => Some (nodes ∖ {[id]})
  | _ => match call_node c with
         | Some id => if decide (id ∈ nodes) then Some nodes else None
         | None => Some nodes
         end
  end.
Fixpoint track_all (nodes : gset NodeId) (cs : list VisCall) : option (gset NodeId) :=
  match cs with
  | [] => Some nodes
  | c :: cs => match vis_track nodes c with Some nodes => track_all nodes cs | None => None end
  end.
Lemma track_app nodes cs1 cs2 :
  track_all nodes (cs1 ++ cs2) = match track_all nodes cs1 with Some n => track_all n cs2 | None => None end.
Proof. revert nodes. induction cs1 as [|c cs1 IH]; intros nodes; cbn; [done|]. by destruct (vis_track nodes c). Qed.

(** What an implementation promises: from a state in which it knows the nodes, an allowed call
    does not fail, and it knows the nodes that there are then. *)
Class VisualizerFollows (V : Type) `{!Visualizer V} := {
  vis_knows : gset NodeId -> V -> Prop;
  vis_follows nodes nodes' c v :
    vis_knows nodes v -> vis_track nodes c = Some nodes' -> exists v', vis_call c v = Ok (tt, v') /\ vis_knows nodes' v';
}.
Lemma follows_calls {V} `{!Visualizer V} `{!VisualizerFollows V} cs nodes nodes' (v : V) :
  vis_knows nodes v -> track_all nodes cs = Some nodes' -> exists v', vis_calls cs v = Ok (tt, v') /\ vis_knows nodes' v'.
Proof.
  revert nodes v. induction cs as [|c cs IH]; intros nodes v Hk Ht; cbn in Ht; [injection Ht as <-; by exists v|].
  destruct (vis_track nodes c) as [n1|] eqn:E1; [|done]. destruct (vis_follows nodes n1 c v Hk E1) as (v1 & Ec & H1).
  destruct (IH n1 v1 H1 Ht) as (v' & E & H'). exists v'. split; [|done]. cbn [vis_calls].
  unfold mbind, st_bind. rewrite Ec. exact E.
Qed.
