(* ===== verification/DNode.v ===== *)
(** * Dispatcher nodes and their failure controller

    The dispatcher's [Node] record with its ping and joiner bookkeeping
    (src/dispatcher/Node.go) and the [FailureCtrl] that schedules radio failures
    (src/dispatcher/FailureCtrl.go).  A node and its failure controller point at each
    other; the controller is a field of the node and its methods are functions on the
    node.  [prng.NewFailTime] draws a number: the methods take the number drawn.
    Calls to the visualizer are returned as a list. *)

From S2P Require Import Prelude Types Visualize.

Local Open Scope Z_scope.

Record FailTime := mkFailTime { FailDuration : Z; FailInterval : Z }.
Definition NonFailTime : FailTime := mkFailTime 0 0.
Definition CanFail (ft : FailTime) : bool := FailDuration ft >? 0.

Record FailureCtrl := mkFailureCtrl {
  fc_failTime : FailTime;
  fc_recoverTs : Z;
  fc_failTs : Z;
  fc_remainTm : Z;
  fc_prevOpTimestamp : Z;
}.

Record pingRequest := mkPingRequest { pr_Timestamp : Z; pr_Dst : string; pr_DataSize : Z }.
Record PingResult := mkPingResult { pg_Dst : string; pg_DataSize : Z; pg_Delay : Z }.
Record joinerSession := mkJoinerSession { js_StartTime : Z; js_JoinedTime : Z; js_StopTime : Z }.
Record JoinResult := mkJoinResult { jr_JoinDuration : Z; jr_SessionDuration : Z }.

(** [n_conn] is the socket of the node's process, [n_err] whether a send error was
    stored. *)
Record Node := mkNode {
  n_Id : NodeId;
  n_X : Z; n_Y : Z; n_Z : Z;
  n_PartitionId : Z;
  n_ExtAddr : Z;
  n_Rloc16 : Z;
  n_CreateTime : Z;
  n_CurTime : Z;
  n_Mode : NodeMode;
  n_Role : OtDeviceRole;
  n_conn : option nat;
  n_hasDisconnected : bool;
  n_msgId : Z;
  n_err : bool;
  n_failureCtrl : FailureCtrl;
  n_isFailed : bool;
  n_pendingPings : list pingRequest;
  n_pingResults : list PingResult;
  n_joinerState : OtJoinerState;
  n_joinerSession : option joinerSession;
  n_joinResults : list JoinResult;
}.

(** Field assignments. *)
Definition upd_node (n : Node) (x y z par ext rloc cur : Z) (mode : NodeMode) (role : Z)
    (conn : option nat) (disc : bool) (msgid : Z) (err : bool) : Node :=
  mkNode (n_Id n) x y z par ext rloc (n_CreateTime n) cur mode role conn disc msgid err
    (n_failureCtrl n) (n_isFailed n) (n_pendingPings n) (n_pingResults n) (n_joinerState n)
    (n_joinerSession n) (n_joinResults n).
Definition upd_records (n : Node) (fc : FailureCtrl) (failed : bool) (pp : list pingRequest)
    (pr : list PingResult) (jst : Z) (js : option joinerSession) (jr : list JoinResult) : Node :=
  mkNode (n_Id n) (n_X n) (n_Y n) (n_Z n) (n_PartitionId n) (n_ExtAddr n) (n_Rloc16 n)
    (n_CreateTime n) (n_CurTime n) (n_Mode n) (n_Role n) (n_conn n) (n_hasDisconnected n)
    (n_msgId n) (n_err n) fc failed pp pr jst js jr.

Definition set_Pos (x y z : Z) (n : Node) : Node :=
  upd_node n x y z (n_PartitionId n) (n_ExtAddr n) (n_Rloc16 n) (n_CurTime n) (n_Mode n)
    (n_Role n) (n_conn n) (n_hasDisconnected n) (n_msgId n) (n_err n).
Definition set_PartitionId (v : Z) (n : Node) : Node :=
  upd_node n (n_X n) (n_Y n) (n_Z n) v (n_ExtAddr n) (n_Rloc16 n) (n_CurTime n) (n_Mode n)
    (n_Role n) (n_conn n) (n_hasDisconnected n) (n_msgId n) (n_err n).
Definition set_ExtAddr (v : Z) (n : Node) : Node :=
  upd_node n (n_X n) (n_Y n) (n_Z n) (n_PartitionId n) v (n_Rloc16 n) (n_CurTime n) (n_Mode n)
    (n_Role n) (n_conn n) (n_hasDisconnected n) (n_msgId n) (n_err n).
Definition set_Rloc16 (v : Z) (n : Node) : Node :=
  upd_node n (n_X n) (n_Y n) (n_Z n) (n_PartitionId n) (n_ExtAddr n) v (n_CurTime n) (n_Mode n)
    (n_Role n) (n_conn n) (n_hasDisconnected n) (n_msgId n) (n_err n).
Definition set_CurTime (v : Z) (n : Node) : Node :=
  upd_node n (n_X n) (n_Y n) (n_Z n) (n_PartitionId n) (n_ExtAddr n) (n_Rloc16 n) v (n_Mode n)
    (n_Role n) (n_conn n) (n_hasDisconnected n) (n_msgId n) (n_err n).
Definition set_Mode (v : NodeMode) (n : Node) : Node :=
  upd_node n (n_X n) (n_Y n) (n_Z n) (n_PartitionId n) (n_ExtAddr n) (n_Rloc16 n) (n_CurTime n) v
    (n_Role n) (n_conn n) (n_hasDisconnected n) (n_msgId n) (n_err n).
Definition set_Role (v : OtDeviceRole) (n : Node) : Node :=
  upd_node n (n_X n) (n_Y n) (n_Z n) (n_PartitionId n) (n_ExtAddr n) (n_Rloc16 n) (n_CurTime n)
    (n_Mode n) v (n_conn n) (n_hasDisconnected n) (n_msgId n) (n_err n).
Definition set_conn (v : option nat) (n : Node) : Node :=
  upd_node n (n_X n) (n_Y n) (n_Z n) (n_PartitionId n) (n_ExtAddr n) (n_Rloc16 n) (n_CurTime n)
    (n_Mode n) (n_Role n) v (n_hasDisconnected n) (n_msgId n) (n_err n).
Definition set_hasDisconnected (v : bool) (n : Node) : Node :=
  upd_node n (n_X n) (n_Y n) (n_Z n) (n_PartitionId n) (n_ExtAddr n) (n_Rloc16 n) (n_CurTime n)
    (n_Mode n) (n_Role n) (n_conn n) v (n_msgId n) (n_err n).
Definition set_msgId (v : Z) (n : Node) : Node :=
  upd_node n (n_X n) (n_Y n) (n_Z n) (n_PartitionId n) (n_ExtAddr n) (n_Rloc16 n) (n_CurTime n)
    (n_Mode n) (n_Role n) (n_conn n) (n_hasDisconnected n) v (n_err n).
Definition set_err (v : bool) (n : Node) : Node :=
  upd_node n (n_X n) (n_Y n) (n_Z n) (n_PartitionId n) (n_ExtAddr n) (n_Rloc16 n) (n_CurTime n)
    (n_Mode n) (n_Role n) (n_conn n) (n_hasDisconnected n) (n_msgId n) v.
Definition set_failureCtrl (v : FailureCtrl) (n : Node) : Node :=
  upd_records n v (n_isFailed n) (n_pendingPings n) (n_pingResults n) (n_joinerState n)
    (n_joinerSession n) (n_joinResults n).
Definition set_isFailed (v : bool) (n : Node) : Node :=
  upd_records n (n_failureCtrl n) v (n_pendingPings n) (n_pingResults n) (n_joinerState n)
    (n_joinerSession n) (n_joinResults n).
Definition set_pings (pp : list pingRequest) (pr : list PingResult) (n : Node) : Node :=
  upd_records n (n_failureCtrl n) (n_isFailed n) pp pr (n_joinerState n)
    (n_joinerSession n) (n_joinResults n).
Definition set_joins (jst : Z) (js : option joinerSession) (jr : list JoinResult) (n : Node) : Node :=
  upd_records n (n_failureCtrl n) (n_isFailed n) (n_pendingPings n) (n_pingResults n) jst js jr.

(** ** Construction, connection *)
Definition newFailureCtrl (failTime : FailTime) : FailureCtrl := mkFailureCtrl failTime 0 0 0 0.

(** [newNode]: the radio node it also creates belongs to the radio model. *)
Definition newNode (curTime : Z) (nodeid : NodeId) (cfg : NodeConfig) : res Node :=
  _ ← assert_true (0 <=? nc_RadioRange cfg);
  Ok (mkNode nodeid (nc_X cfg) (nc_Y cfg) (nc_Z cfg) 0 InvalidExtAddr InvalidRloc16
        curTime curTime DefaultNodeMode OtDeviceRoleDisabled None false 0 false
        (newFailureCtrl NonFailTime) false [] [] OtJoinerStateIdle None []).

Definition DisconnectSocket (n : Node) : Node := set_hasDisconnected true n.
Definition IsConnected (n : Node) : bool := bool_decide (n_conn n <> None) && negb (n_hasDisconnected n).

(** ** Failing and recovering *)
Definition Fail (n : Node) : Node * list VisCall :=
  if n_isFailed n then (n, []) else (set_isFailed true n, [VisOnNodeFail (n_Id n)]).
Definition Recover (n : Node) : Node * list VisCall :=
  if n_isFailed n then (set_isFailed false n, [VisOnNodeRecover (n_Id n)]) else (n, []).

(** [failTsRel] is the number that [rand.Intn(failStartTimeMax)] returns; [Intn] panics
    when its argument is not positive. *)
Definition calcNextFailTimestamp (failTsRel : Z) (n : Node) : res Node :=
  let fc := n_failureCtrl n in
  let ft := fc_failTime fc in
  if negb (CanFail ft) then Ok n else
  _ ← assert_true ((FailDuration ft >? 0) && (FailInterval ft >? FailDuration ft));
  let failStartTimeMax := to_signed 64 (FailInterval ft - FailDuration ft) in
  if failStartTimeMax <=? 0 then Panic Panicf else
  let failTs := u64 (failTsRel + n_CurTime n + fc_remainTm fc) in
  let remainTm := u64 (FailInterval ft - FailDuration ft - failTsRel) in
  _ ← assert_true (remainTm <? FailInterval ft);
  Ok (set_failureCtrl (mkFailureCtrl ft (fc_recoverTs fc) failTs remainTm (fc_prevOpTimestamp fc)) n).

Definition SetFailTime (failTsRel : Z) (failTime : FailTime) (n : Node) : res (Node * list VisCall) :=
  let n := set_failureCtrl
    (mkFailureCtrl failTime 0 0 0 (fc_prevOpTimestamp (n_failureCtrl n))) n in
  let '(n, vis) := if negb (CanFail failTime) && n_isFailed n then Recover n else (n, []) in
  n ← calcNextFailTimestamp failTsRel n;
  Ok (n, vis).

(** The next-operation timestamp, whether it moved, and the node. *)
Definition OnTimeAdvanced (failTsRel oldTime : Z) (n : Node)
    : res (Z * bool * Node * list VisCall) :=
  let fc := n_failureCtrl n in
  if negb (CanFail (fc_failTime fc)) then Ok (Ever, false, n, []) else
  _ ← assert_true (n_CurTime n >? oldTime);
  if n_isFailed n then
    _ ← assert_true (fc_failTs fc =? 0);
    if n_CurTime n >=? fc_recoverTs fc then
      let n := set_failureCtrl (mkFailureCtrl (fc_failTime fc) 0 (fc_failTs fc)
        (fc_remainTm fc) (fc_prevOpTimestamp fc)) n in
      n ← calcNextFailTimestamp failTsRel n;
      let '(n, vis) := Recover n in
      let fc := n_failureCtrl n in
      Ok (fc_failTs fc, true, set_failureCtrl (mkFailureCtrl (fc_failTime fc) (fc_recoverTs fc)
        (fc_failTs fc) (fc_remainTm fc) (fc_failTs fc)) n, vis)
    else
      Ok (fc_recoverTs fc, fc_recoverTs fc >? fc_prevOpTimestamp fc,
        set_failureCtrl (mkFailureCtrl (fc_failTime fc) (fc_recoverTs fc) (fc_failTs fc)
          (fc_remainTm fc) (fc_recoverTs fc)) n, [])
  else
    _ ← assert_true (fc_recoverTs fc =? 0);
    if n_CurTime n >=? fc_failTs fc then
      let recoverTs := u64 (n_CurTime n + FailDuration (fc_failTime fc)) in
      let n := set_failureCtrl (mkFailureCtrl (fc_failTime fc) recoverTs 0
        (fc_remainTm fc) recoverTs) n in
      let '(n, vis) := Fail n in
      Ok (recoverTs, true, n, vis)
    else
      Ok (fc_failTs fc, fc_failTs fc >? fc_prevOpTimestamp fc,
        set_failureCtrl (mkFailureCtrl (fc_failTime fc) (fc_recoverTs fc) (fc_failTs fc)
          (fc_remainTm fc) (fc_failTs fc)) n, []).

(** ** Pings *)
Definition maxPingResultCount : nat := 1000.
Definition maxPingDelayUs : Z := 10 * 1000000.

Definition onPingRequest (timestamp : Z) (dstaddr : string) (datasize : Z) (n : Node) : Node :=
  if datasize <? 4 then n else
  set_pings (n_pendingPings n ++ [mkPingRequest timestamp dstaddr datasize]) (n_pingResults n) n.

Definition addPingResult (dst : string) (datasize delay : Z) (rs : list PingResult) : list PingResult :=
  let rs := rs ++ [mkPingResult dst datasize delay] in
  if bool_decide (maxPingResultCount < length rs)%nat then drop 1 rs else rs.

(** The loop of [onPingReply] over the pending requests. *)
Fixpoint pingReply_loop (curTime timestamp : Z) (dstaddr : string) (reqs : list pingRequest)
    (leftReqs : list pingRequest) (rs : list PingResult) : list pingRequest * list PingResult :=
  match reqs with
  | [] => (leftReqs, rs)
  | req :: reqs =>
    if (pr_Timestamp req =? timestamp) && String.eqb (pr_Dst req) dstaddr then
      pingReply_loop curTime timestamp dstaddr reqs leftReqs
        (addPingResult (pr_Dst req) (pr_DataSize req) (u64 (curTime - pr_Timestamp req)) rs)
    else if u64 (pr_Timestamp req + maxPingDelayUs) <? curTime then
      pingReply_loop curTime timestamp dstaddr reqs leftReqs
        (addPingResult (pr_Dst req) (pr_DataSize req) maxPingDelayUs rs)
    else pingReply_loop curTime timestamp dstaddr reqs (leftReqs ++ [req]) rs
  end.

(** [curTime] is the dispatcher's time, [node.D.CurTime]. *)
Definition onPingReply (curTime timestamp : Z) (dstaddr : string) (datasize hoplimit : Z)
    (n : Node) : Node :=
  if datasize <? 4 then n else
  let '(leftReqs, rs) := pingReply_loop curTime timestamp dstaddr (n_pendingPings n) [] (n_pingResults n) in
  set_pings leftReqs rs n.

Definition CollectPings (n : Node) : list PingResult * Node :=
  (n_pingResults n, set_pings (n_pendingPings n) [] n).

(** ** Joiner sessions *)
Definition maxJoinResultCount : nat := 1000.

Definition addJoinResult (js : joinerSession) (rs : list JoinResult) : list JoinResult :=
  let joinDuration := if js_JoinedTime js =? 0 then 0 else u64 (js_JoinedTime js - js_StartTime js) in
  let sessionDuration := u64 (js_StopTime js - js_StartTime js) in
  let rs := rs ++ [mkJoinResult joinDuration sessionDuration] in
  if bool_decide (maxJoinResultCount < length rs)%nat then drop 1 rs else rs.

Definition startNewJoinerSession (n : Node) : Node :=
  match n_joinerSession n with
  | Some _ => n
  | None => set_joins (n_joinerState n) (Some (mkJoinerSession (n_CurTime n) 0 0)) (n_joinResults n) n
  end.

Definition closeJoinerSession (n : Node) : Node :=
  match n_joinerSession n with
  | None => n
  | Some js =>
    let js := mkJoinerSession (js_StartTime js) (js_JoinedTime js) (n_CurTime n) in
    set_joins (n_joinerState n) None (addJoinResult js (n_joinResults n)) n
  end.

Definition onJoinerState (state : OtJoinerState) (n : Node) : Node :=
  if n_joinerState n =? state then n else
  let n := set_joins state (n_joinerSession n) (n_joinResults n) n in
  if (state =? OtJoinerStateDiscover) || (state =? OtJoinerStateConnect) then startNewJoinerSession n
  else if state =? OtJoinerStateJoined then
    match n_joinerSession n with
    | Some js => set_joins state (Some (mkJoinerSession (js_StartTime js) (n_CurTime n) (js_StopTime js)))
                   (n_joinResults n) n
    | None => n
    end
  else if state =? OtJoinerStateIdle then closeJoinerSession n
  else n.

Definition CollectJoins (n : Node) : list JoinResult * Node :=
  (n_joinResults n, set_joins (n_joinerState n) (n_joinerSession n) [] n).

(** ** The failure controller never panics

    The uses of a node's failure controller: time advances (the dispatcher sends an
    event), the radio is switched by hand ([Dispatcher.SetNodeFailed]) or a failure
    schedule is set ([Node.SetFailTime]).  A draw is a result [rand.Intn] can return. *)
Definition draw_ok (ft : FailTime) (rel : Z) : Prop :=
  CanFail ft = true -> 0 <= rel < FailInterval ft - FailDuration ft.

Definition ft_valid (ft : FailTime) : Prop :=
  in_u 64 (FailDuration ft) /\ in_u 63 (FailInterval ft) /\
  (CanFail ft = true -> FailDuration ft < FailInterval ft).

Definition n_failTime (n : Node) : FailTime := fc_failTime (n_failureCtrl n).

Definition advance (rel t : Z) (n : Node) : res (Z * bool * Node * list VisCall) :=
  OnTimeAdvanced rel (n_CurTime n) (set_CurTime t n).

(** The controller part of [Dispatcher.SetNodeFailed]: the schedule is cancelled, then
    the node fails or recovers.  No number is drawn. *)
Definition switch_radio (fail : bool) (n : Node) : res (Node * list VisCall) :=
  '(n, vis) ← SetFailTime 0 NonFailTime n;
  let '(n, vis') := if fail then Fail n else Recover n in Ok (n, vis ++ vis').

Inductive fc_reachable : Node -> Prop :=
| fcr_new cur id cfg n : newNode cur id cfg = Ok n -> fc_reachable n
| fcr_advance n rel t ts upd n' vis :
    fc_reachable n -> n_CurTime n < t -> draw_ok (n_failTime n) rel ->
    advance rel t n = Ok (ts, upd, n', vis) -> fc_reachable n'
| fcr_switch n fail n' vis :
    fc_reachable n -> switch_radio fail n = Ok (n', vis) -> fc_reachable n'
| fcr_schedule n rel ft n' vis :
    fc_reachable n -> ft_valid ft -> draw_ok ft rel -> n_isFailed n = false ->
    SetFailTime rel ft n = Ok (n', vis) -> fc_reachable n'.

(** A failed node has no failure pending, a working one no recovery. *)
Definition fc_wf (n : Node) : Prop :=
  ft_valid (n_failTime n) /\
  (if n_isFailed n then fc_failTs (n_failureCtrl n) = 0 else fc_recoverTs (n_failureCtrl n) = 0).

Lemma calcNext_Ok rel n :
  ft_valid (n_failTime n) -> draw_ok (n_failTime n) rel ->
  calcNextFailTimestamp rel n =
    Ok (if CanFail (n_failTime n) then
          let fc := n_failureCtrl n in
          set_failureCtrl (mkFailureCtrl (n_failTime n) (fc_recoverTs fc)
            (u64 (rel + n_CurTime n + fc_remainTm fc))
            (FailInterval (n_failTime n) - FailDuration (n_failTime n) - rel)
            (fc_prevOpTimestamp fc)) n
        else n).
Proof.
  unfold calcNextFailTimestamp, n_failTime, draw_ok. intros (HD & HI & HV) Hrel.
  destruct (CanFail (fc_failTime (n_failureCtrl n))) eqn:EC; [|done]. cbn [negb].
  specialize (HV eq_refl). specialize (Hrel eq_refl). unfold CanFail in EC.
  set (ft := fc_failTime (n_failureCtrl n)) in *. unfold in_u in *.
  rewrite EC. destruct (Z.gtb_spec (FailInterval ft) (FailDuration ft)); [|lia].
  cbn [andb assert_true mbind res_bind].
  assert (to_signed 64 (FailInterval ft - FailDuration ft) = FailInterval ft - FailDuration ft) as ->.
  { unfold to_signed. rewrite Z.mod_small by lia. destruct (Z.ltb_spec (FailInterval ft - FailDuration ft) (2 ^ (64 - 1))); lia. }
  destruct (Z.leb_spec (FailInterval ft - FailDuration ft) 0); [lia|].
  rewrite (u64_id (_ - rel)) by (unfold in_u; lia).
  destruct (Z.ltb_spec (FailInterval ft - FailDuration ft - rel) (FailInterval ft)); [done|lia].
Qed.

Lemma NonFailTime_valid : ft_valid NonFailTime.
Proof. repeat split; simpl; try lia. done. Qed.

Lemma SetFailTime_Ok rel ft n :
  ft_valid ft -> draw_ok ft rel ->
  exists n' vis, SetFailTime rel ft n = Ok (n', vis) /\ n_failTime n' = ft /\
    n_isFailed n' = n_isFailed n && CanFail ft /\
    fc_recoverTs (n_failureCtrl n') = 0 /\
    fc_failTs (n_failureCtrl n') = (if CanFail ft then u64 (rel + n_CurTime n) else 0) /\
    n_CurTime n' = n_CurTime n.
Proof.
  intros HV HD. unfold SetFailTime.
  destruct (negb (CanFail ft) && n_isFailed _) eqn:E.
  - apply andb_true_iff in E as [E1 E2]. apply negb_true_iff in E1. simpl in E2.
    unfold Recover. simpl. rewrite E2. simpl. rewrite calcNext_Ok by done.
    unfold n_failTime; simpl. rewrite E1. simpl. do 2 eexists. split; [reflexivity|].
    by rewrite ?andb_false_r.
  - simpl. rewrite calcNext_Ok by done. unfold n_failTime; simpl.
    destruct (CanFail ft) eqn:EC; simpl in *; do 2 eexists; (split; [reflexivity|]); simpl;
    rewrite ?Z.add_0_r, ?andb_true_r, ?andb_false_r; done.
Qed.

Lemma advance_wf rel t n :
  fc_wf n -> n_CurTime n < t -> draw_ok (n_failTime n) rel ->
  exists ts upd n' vis, advance rel t n = Ok (ts, upd, n', vis) /\ fc_wf n' /\
    n_failTime n' = n_failTime n /\ n_CurTime n' = t.
Proof.
  intros [HV HT] Ht HD. unfold advance, OnTimeAdvanced. cbn [n_failureCtrl n_CurTime set_CurTime upd_node n_isFailed].
  change (fc_failTime (n_failureCtrl n)) with (n_failTime n).
  destruct (CanFail (n_failTime n)) eqn:EC; cbn [negb]; [|by do 4 eexists].
  destruct (Z.gtb_spec t (n_CurTime n)); [|lia]. cbn [assert_true mbind res_bind].
  destruct (n_isFailed n) eqn:EF.
  - rewrite HT. cbn [Z.eqb assert_true mbind res_bind].
    destruct (t >=? _).
    + rewrite calcNext_Ok by done. cbn [n_failTime set_failureCtrl n_failureCtrl upd_records fc_failTime].
      rewrite EC. cbn [mbind res_bind]. unfold Recover. simpl. rewrite EF.
      do 4 eexists. split; [reflexivity|]. by repeat split; try apply HV.
    + do 4 eexists. split; [reflexivity|]. unfold fc_wf; simpl. rewrite EF. done.
  - rewrite HT. cbn [Z.eqb assert_true mbind res_bind].
    destruct (t >=? _).
    + unfold Fail. simpl. rewrite EF. do 4 eexists. split; [reflexivity|]. done.
    + do 4 eexists. split; [reflexivity|]. unfold fc_wf; simpl. rewrite EF. done.
Qed.

Lemma switch_radio_Ok fail n :
  exists n' vis, switch_radio fail n = Ok (n', vis) /\ fc_wf n' /\ n_isFailed n' = fail /\
    n_failTime n' = NonFailTime.
Proof.
  destruct (SetFailTime_Ok 0 NonFailTime n NonFailTime_valid ltac:(done))
    as (n1 & vis & E & Hft & Hf & Hr & Hfl & _). unfold switch_radio. rewrite E. cbn [mbind res_bind].
  simpl in Hf, Hfl. rewrite andb_false_r in Hf. unfold Fail, Recover. rewrite Hf.
  destruct fail; do 2 eexists; (split; [reflexivity|]); unfold fc_wf, n_failTime in *; simpl;
  rewrite ?Hf, ?Hft; repeat split; try apply NonFailTime_valid; done.
Qed.

Lemma fc_reachable_wf n : fc_reachable n -> fc_wf n.
Proof.
  induction 1 as [cur id cfg n E|n rel t ts upd n' vis _ IH Ht HD E|n fail n' vis _ IH E
                 |n rel ft n' vis _ IH HV HD HF E].
  - unfold newNode in E. res_inv. subst n. split; [apply NonFailTime_valid|done].
  - destruct (advance_wf rel t n) as (?&?&?&?&E'&?&_); [done..|]. by rewrite E in E'; simplify_eq.
  - destruct (switch_radio_Ok fail n) as (?&?&E'&?&_). by rewrite E in E'; simplify_eq.
  - destruct (SetFailTime_Ok rel ft n HV HD) as (?&?&E'&Hft&Hf&Hr&_). rewrite E in E'; injection E' as <- <-.
    unfold fc_wf. rewrite Hft, Hf, HF. done.
Qed.

(** C24: the failure controller never panics.  In every state reached from a new node by
    advancing its time, switching its radio and scheduling failures while it works, the
    next advance returns; the node's time moves to the new time, and the controller
    keeps its invariant (no failure pending while failed, no recovery pending while
    working). *)
Theorem OnTimeAdvanced_safe n rel t :
  fc_reachable n -> n_CurTime n < t -> draw_ok (n_failTime n) rel ->
  exists ts upd n' vis, OnTimeAdvanced rel (n_CurTime n) (set_CurTime t n) = Ok (ts, upd, n', vis) /\
    fc_wf n' /\ n_CurTime n' = t.
Proof.
  intros H Ht HD. destruct (advance_wf rel t n) as (ts&upd&n'&vis&?&?&_&?);
    [by apply fc_reachable_wf|done..|]. by exists ts, upd, n', vis.
Qed.

Definition ex_cfg : NodeConfig :=
  mkNodeConfig 1 "router" "" 10 20 0 false false false false true false false false false
    220 "" "" "" false [] 0 ∅.

Lemma OnTimeAdvanced_safe_witness :
  exists n ts upd n' vis, newNode 5 1 ex_cfg = Ok n /\
    OnTimeAdvanced 0 (n_CurTime n) (set_CurTime 7 n) = Ok (ts, upd, n', vis) /\
    fc_wf n' /\ n_CurTime n' = 7.
Proof.
  eexists. destruct (OnTimeAdvanced_safe _ 0 7 (fcr_new 5 1 ex_cfg _ eq_refl) ltac:(simpl; lia)
    ltac:(done)) as (ts&upd&n'&vis&H). exists ts, upd, n', vis. split; [reflexivity|exact H].
Defined.

(** scheduling failures on a node whose radio was switched off breaks that invariant:
    [FailureCtrl.SetFailTime] sets a failure time but leaves the node failed, so that the
    next advance of the node's time fails the assertion [fc.failTs == 0]. *)
Theorem SetFailTime_failed_panics n rel ft t :
  ft_valid ft -> CanFail ft = true -> draw_ok ft rel -> n_isFailed n = true ->
  0 < rel + n_CurTime n < 2 ^ 64 -> n_CurTime n < t ->
  exists n' vis, SetFailTime rel ft n = Ok (n', vis) /\ n_isFailed n' = true /\
    OnTimeAdvanced rel (n_CurTime n') (set_CurTime t n') = Panic AssertFailed.
Proof.
  intros HV EC HD HF Hrel Ht. destruct (SetFailTime_Ok rel ft n HV HD) as (n'&vis&E&Hft&Hf&Hr&Hfl&Hc).
  rewrite HF, EC in Hf. rewrite EC, u64_id in Hfl by (unfold in_u; lia).
  exists n', vis. split; [done|]. split; [done|]. unfold OnTimeAdvanced. simpl.
  change (fc_failTime (n_failureCtrl n')) with (n_failTime n'). rewrite Hft, EC, Hf, Hfl.
  simpl. destruct (Z.gtb_spec t (n_CurTime n')); [|lia]. simpl.
  destruct (Z.eqb_spec (rel + n_CurTime n) 0); [lia|done].
Qed.

Definition ex_new : Node :=
  mkNode 1 10 20 0 0 InvalidExtAddr InvalidRloc16 5 5 DefaultNodeMode OtDeviceRoleDisabled None
    false 0 false (newFailureCtrl NonFailTime) false [] [] OtJoinerStateIdle None [].

Lemma SetFailTime_failed_panics_witness :
  newNode 5 1 ex_cfg = Ok ex_new /\
  switch_radio true ex_new = Ok (set_isFailed true ex_new, [VisOnNodeFail 1]) /\
  exists n' vis, SetFailTime 3 (mkFailTime 10 60) (set_isFailed true ex_new) = Ok (n', vis) /\
  n_isFailed n' = true /\
  OnTimeAdvanced 3 (n_CurTime n') (set_CurTime 8 n') = Panic AssertFailed.
Proof.
  split; [reflexivity|]. split; [reflexivity|].
  apply (SetFailTime_failed_panics (set_isFailed true ex_new) 3 (mkFailTime 10 60) 8);
    [repeat split; simpl; lia|reflexivity|intros _; simpl; lia|reflexivity|simpl; lia..].
Defined.

(** ** Failure cycles

    A schedule (duration [D], interval [I]) divides time into intervals of length [I];
    [cycle_end] is the end of the interval of the coming failure. *)
Definition cycle_end (n : Node) : Z :=
  fc_failTs (n_failureCtrl n) + FailDuration (n_failTime n) + fc_remainTm (n_failureCtrl n).

(** A working node whose failure is ahead. *)
Definition fc_waiting (n : Node) : Prop :=
  ft_valid (n_failTime n) /\ CanFail (n_failTime n) = true /\ n_isFailed n = false /\
  fc_recoverTs (n_failureCtrl n) = 0 /\ 0 <= n_CurTime n < fc_failTs (n_failureCtrl n) /\
  0 < fc_remainTm (n_failureCtrl n).

(** One cycle: the node is woken at its failure time and at its recovery time. *)
Definition fail_cycle (rel : Z) (n : Node) : res Node :=
  '(_, _, n1, _) ← advance rel (fc_failTs (n_failureCtrl n)) n;
  '(_, _, n2, _) ← advance rel (fc_recoverTs (n_failureCtrl n1)) n1;
  Ok n2.

Fixpoint fail_cycles (rels : list Z) (n : Node) : res Node :=
  match rels with
  | [] => Ok n
  | rel :: rels => n ← fail_cycle rel n; fail_cycles rels n
  end.

(** Woken when the failure is due, the node fails; woken when the recovery is due, it
    recovers and the next failure is drawn. *)
Lemma advance_fails rel t n :
  CanFail (n_failTime n) = true -> n_isFailed n = false -> fc_recoverTs (n_failureCtrl n) = 0 ->
  n_CurTime n < t -> fc_failTs (n_failureCtrl n) <= t ->
  let recoverTs := u64 (t + FailDuration (n_failTime n)) in
  advance rel t n = Ok (recoverTs, true,
    set_isFailed true (set_failureCtrl (mkFailureCtrl (n_failTime n) recoverTs 0
      (fc_remainTm (n_failureCtrl n)) recoverTs) (set_CurTime t n)), [VisOnNodeFail (n_Id n)]).
Proof.
  intros EC HF Hr Ht Hfl. unfold advance, OnTimeAdvanced. simpl.
  change (fc_failTime (n_failureCtrl n)) with (n_failTime n). rewrite EC, HF, Hr. simpl.
  destruct (Z.gtb_spec t (n_CurTime n)); [|lia]. simpl.
  rewrite Z.geb_leb. destruct (Z.leb_spec (fc_failTs (n_failureCtrl n)) t); [|lia].
  unfold Fail. simpl. by rewrite HF.
Qed.

Lemma advance_recovers rel t n :
  ft_valid (n_failTime n) -> draw_ok (n_failTime n) rel ->
  CanFail (n_failTime n) = true -> n_isFailed n = true -> fc_failTs (n_failureCtrl n) = 0 ->
  n_CurTime n < t -> fc_recoverTs (n_failureCtrl n) <= t ->
  let failTs := u64 (rel + t + fc_remainTm (n_failureCtrl n)) in
  advance rel t n = Ok (failTs, true,
    set_failureCtrl (mkFailureCtrl (n_failTime n) 0 failTs
      (FailInterval (n_failTime n) - FailDuration (n_failTime n) - rel) failTs)
      (set_isFailed false (set_CurTime t n)), [VisOnNodeRecover (n_Id n)]).
Proof.
  intros HV HD EC HF Hfl Ht Hr. unfold advance, OnTimeAdvanced. simpl.
  change (fc_failTime (n_failureCtrl n)) with (n_failTime n). rewrite EC, HF, Hfl. simpl.
  destruct (Z.gtb_spec t (n_CurTime n)); [|lia]. simpl.
  rewrite Z.geb_leb. destruct (Z.leb_spec (fc_recoverTs (n_failureCtrl n)) t); [|lia].
  rewrite calcNext_Ok by done. unfold n_failTime at 1; simpl. rewrite EC. unfold Recover.
  simpl. by rewrite HF.
Qed.

Lemma fail_cycle_spec rel n :
  fc_waiting n -> draw_ok (n_failTime n) rel ->
  cycle_end n + FailInterval (n_failTime n) < 2 ^ 64 ->
  exists n', fail_cycle rel n = Ok n' /\ fc_waiting n' /\ n_failTime n' = n_failTime n /\
    fc_failTs (n_failureCtrl n') = cycle_end n + rel /\
    cycle_end n' = cycle_end n + FailInterval (n_failTime n).
Proof.
  intros (HV & EC & HF & Hr & Hc & Hm) HD HB. pose proof (HD EC) as Hrel.
  pose proof HV as (HV1 & HV2 & HV3). specialize (HV3 EC). unfold cycle_end in *.
  pose proof EC as EC'. unfold CanFail in EC'. apply Z.gtb_lt in EC'.
  unfold fail_cycle. unfold in_u in *. rewrite advance_fails by (done || lia). cbn [mbind res_bind].
  rewrite u64_id by (unfold in_u; lia). rewrite advance_recovers; simpl; try (done || lia).
  change (fc_failTime (n_failureCtrl n)) with (n_failTime n).
  rewrite u64_id by (unfold in_u; lia).
  eexists. split; [reflexivity|]. unfold fc_waiting. unfold n_failTime; simpl.
  unfold n_failTime in *. repeat split; try done; lia.
Qed.

(** a failure schedule fails the radio once per interval, for as long as the node is
    woken on time.  After [k] cycles the current interval ends [k] intervals after the
    first one, the next failure starts inside the current interval and is over by its
    end, and the controller never panics. *)
Theorem fail_cycles_periodic rels n :
  fc_waiting n -> Forall (draw_ok (n_failTime n)) rels ->
  cycle_end n + Z.of_nat (length rels) * FailInterval (n_failTime n) < 2 ^ 64 ->
  exists n', fail_cycles rels n = Ok n' /\ n_isFailed n' = false /\
    cycle_end n' = cycle_end n + Z.of_nat (length rels) * FailInterval (n_failTime n) /\
    fc_failTs (n_failureCtrl n') + FailDuration (n_failTime n') < cycle_end n' /\
    (rels <> [] -> cycle_end n' - FailInterval (n_failTime n) <= fc_failTs (n_failureCtrl n')).
Proof.
  revert n. induction rels as [|rel rels IH]; intros n Hn HD HB.
  - exists n. destruct Hn as (?&?&?&?&?&?). unfold cycle_end. simpl. repeat split; [done|lia..|done].
  - apply Forall_cons in HD as [HD HDs]. cbn [length] in HB. rewrite Nat2Z.inj_succ in HB.
    assert (0 <= FailInterval (n_failTime n)) as HI by apply Hn.
    destruct (fail_cycle_spec rel n) as (n1 & E & Hn1 & Hft & Hfl & Hce); [done..|nia|].
    destruct (IH n1) as (n' & E' & Hf & Hce' & Hin & Hst); [done|by rewrite Hft|rewrite Hft; nia|].
    exists n'. cbn [fail_cycles]. rewrite E. cbn [mbind res_bind]. rewrite E'.
    rewrite Hft in *. cbn [length]. rewrite Nat2Z.inj_succ. split; [done|]. split; [done|].
    split; [nia|]. split; [lia|]. intros _. destruct rels as [|r rels].
    + simpl in E'. injection E' as <-. destruct Hn as (_&EC&_). specialize (HD EC). lia.
    + by apply Hst.
Qed.

Definition ex_waiting : Node :=
  set_failureCtrl (mkFailureCtrl (mkFailTime 10 60) 0 8 47 0) ex_new.

Lemma fail_cycles_periodic_witness :
  exists n', fail_cycles [7; 0; 49] ex_waiting = Ok n' /\ n_isFailed n' = false /\
    cycle_end n' = 65 + 3 * 60.
Proof.
  destruct (fail_cycles_periodic [7; 0; 49] ex_waiting) as (n' & H1 & H2 & H3 & _).
  - repeat split; vm_compute; congruence.
  - repeat constructor; vm_compute; congruence.
  - vm_compute. reflexivity.
  - exists n'. split; [exact H1|]. split; [exact H2|]. rewrite H3. reflexivity.
Defined.

(** ** Ping results *)

(** The last [k] elements. *)
Definition lastn {A} (k : nat) (l : list A) : list A := drop (length l - k) l.

Lemma length_lastn {A} k (l : list A) : length (lastn k l) = min k (length l).
Proof. unfold lastn. rewrite length_drop. lia. Qed.

Lemma lastn_all {A} k (l : list A) : (length l <= k)%nat -> lastn k l = l.
Proof. intros H. unfold lastn. replace (length l - k)%nat with 0%nat by lia. done. Qed.

Lemma lastn_app_l {A} k (l m : list A) : lastn k (lastn k l ++ m) = lastn k (l ++ m).
Proof.
  destruct (decide (length l <= k)%nat); [by rewrite (lastn_all k l)|].
  pose proof (length_lastn k l) as HL. set (l2 := lastn k l) in *.
  assert (l = take (length l - k) l ++ l2) as -> by (symmetry; apply take_drop).
  rewrite <- app_assoc. unfold lastn at 2. rewrite drop_app_ge by (rewrite !length_app in *; lia).
  unfold lastn. f_equal. rewrite !length_app in *. lia.
Qed.

(** Appending to a list cut to its last [k] elements, as the two result lists do. *)
Lemma cut_snoc {A} k (l : list A) x :
  (if bool_decide (k < length (lastn k l ++ [x]))%nat
   then drop 1 (lastn k l ++ [x]) else lastn k l ++ [x]) = lastn k (l ++ [x]).
Proof.
  rewrite <- (lastn_app_l k l [x]). pose proof (length_lastn k l).
  change (lastn k (lastn k l ++ [x])) with
    (drop (length (lastn k l ++ [x]) - k) (lastn k l ++ [x])).
  rewrite length_app. simpl. case_bool_decide.
  - by replace (length (lastn k l) + 1 - k)%nat with 1%nat by lia.
  - by replace (length (lastn k l) + 1 - k)%nat with 0%nat by lia.
Qed.

Definition ping_matches (timestamp : Z) (dst : string) (r : pingRequest) : bool :=
  (pr_Timestamp r =? timestamp) && String.eqb (pr_Dst r) dst.
Definition ping_expired (curTime : Z) (r : pingRequest) : bool :=
  pr_Timestamp r + maxPingDelayUs <? curTime.
(** The request is still waiting for its reply. *)
Definition ping_waits (curTime timestamp : Z) (dst : string) (r : pingRequest) : bool :=
  negb (ping_matches timestamp dst r) && negb (ping_expired curTime r).
Definition ping_result (curTime timestamp : Z) (dst : string) (r : pingRequest) : PingResult :=
  mkPingResult (pr_Dst r) (pr_DataSize r)
    (if ping_matches timestamp dst r then curTime - pr_Timestamp r else maxPingDelayUs).

Definition pings_ok (curTime : Z) (n : Node) : Prop :=
  Forall (fun r => 0 <= pr_Timestamp r <= curTime) (n_pendingPings n).

Lemma addPingResult_lastn dst size delay rs :
  addPingResult dst size delay (lastn maxPingResultCount rs) =
  lastn maxPingResultCount (rs ++ [mkPingResult dst size delay]).
Proof. apply cut_snoc. Qed.

Lemma pingReply_loop_spec cur ts dst reqs leftReqs rs :
  cur < 2 ^ 63 -> Forall (fun r => 0 <= pr_Timestamp r <= cur) reqs ->
  pingReply_loop cur ts dst reqs leftReqs (lastn maxPingResultCount rs) =
    (leftReqs ++ List.filter (ping_waits cur ts dst) reqs,
     lastn maxPingResultCount (rs ++ map (ping_result cur ts dst)
       (List.filter (fun r => negb (ping_waits cur ts dst r)) reqs))).
Proof.
  intros Hc HF. revert leftReqs rs.
  induction HF as [|r reqs Hr _ IH]; intros leftReqs rs; cbn [pingReply_loop].
  - simpl. by rewrite !app_nil_r.
  - assert (u64 (pr_Timestamp r + maxPingDelayUs) = pr_Timestamp r + maxPingDelayUs) as ->.
    { apply u64_id. unfold in_u, maxPingDelayUs. lia. }
    cbn [List.filter].
    assert (ping_waits cur ts dst r = negb (ping_matches ts dst r) && negb (ping_expired cur r))
      as -> by done.
    destruct ((pr_Timestamp r =? ts) && String.eqb (pr_Dst r) dst) eqn:EM.
    + assert (ping_matches ts dst r = true) as EM' by done. rewrite EM'. simpl.
      rewrite addPingResult_lastn, IH, <- app_assoc. unfold ping_result at 2. rewrite EM'.
      rewrite u64_id by (unfold in_u; lia). done.
    + assert (ping_matches ts dst r = false) as EM' by done. rewrite EM'.
      unfold ping_expired. destruct (pr_Timestamp r + maxPingDelayUs <? cur); cbn [negb andb map].
      * rewrite addPingResult_lastn, IH, <- app_assoc. unfold ping_result at 2. by rewrite EM'.
      * rewrite IH, <- app_assoc. done.
Qed.

(** a ping reply settles each pending request: the requests it answers become results
    with the measured delay, those older than ten seconds results with the maximal delay,
    the others stay pending, in order; the results are cut to the last thousand. *)
Theorem onPingReply_spec cur ts dst size hop n :
  4 <= size -> cur < 2 ^ 63 -> pings_ok cur n ->
  (length (n_pingResults n) <= maxPingResultCount)%nat ->
  let n' := onPingReply cur ts dst size hop n in
  n_pendingPings n' = List.filter (ping_waits cur ts dst) (n_pendingPings n) /\
  n_pingResults n' = lastn maxPingResultCount (n_pingResults n ++
    map (ping_result cur ts dst)
      (List.filter (fun r => negb (ping_waits cur ts dst r)) (n_pendingPings n))) /\
  (length (n_pingResults n') <= maxPingResultCount)%nat /\ pings_ok cur n'.
Proof.
  intros Hs Hc HF HL. unfold onPingReply. destruct (Z.ltb_spec size 4); [lia|].
  pose proof (pingReply_loop_spec cur ts dst (n_pendingPings n) [] (n_pingResults n) Hc HF) as HP.
  rewrite (lastn_all _ (n_pingResults n)) in HP by done. rewrite HP. simpl. split; [done|]. split; [done|]. split.
  - rewrite length_lastn. lia.
  - unfold pings_ok in *. simpl. rewrite Forall_forall in *. intros r Hr.
    apply HF. apply list_elem_of_In in Hr. apply filter_In in Hr as [Hr _]. by apply list_elem_of_In.
Qed.

Definition ex_pings : Node :=
  set_pings [mkPingRequest 10 "a" 8; mkPingRequest 15000000 "b" 8; mkPingRequest 15000001 "c" 8] []
    ex_new.

Lemma onPingReply_spec_witness :
  n_pingResults (onPingReply 16000000 15000000 "b" 8 64 ex_pings) =
    [mkPingResult "a" 8 10000000; mkPingResult "b" 8 1000000] /\
  n_pendingPings (onPingReply 16000000 15000000 "b" 8 64 ex_pings) = [mkPingRequest 15000001 "c" 8].
Proof.
  destruct (onPingReply_spec 16000000 15000000 "b" 8 64 ex_pings) as (H1 & H2 & _).
  - lia.
  - lia.
  - repeat constructor; simpl; lia.
  - simpl. lia.
  - rewrite H1, H2. split; reflexivity.
Defined.

(** ** Joiner sessions *)
Definition join_step (n : Node) (op : Z * OtJoinerState) : Node :=
  onJoinerState (snd op) (set_CurTime (fst op) n).

(** A run of joiner state reports with their times. *)
Definition join_run (ops : list (Z * OtJoinerState)) (n : Node) : Node := foldl join_step n ops.

Definition session_ok (cur : Z) (js : joinerSession) : Prop :=
  0 <= js_StartTime js <= cur /\
  (js_JoinedTime js = 0 \/ js_StartTime js <= js_JoinedTime js <= cur).

Definition joins_ok (n : Node) : Prop :=
  0 <= n_CurTime n < 2 ^ 64 /\
  match n_joinerSession n with Some js => session_ok (n_CurTime n) js | None => True end /\
  Forall (fun r => 0 <= jr_JoinDuration r <= jr_SessionDuration r /\
                   jr_SessionDuration r <= n_CurTime n) (n_joinResults n) /\
  (length (n_joinResults n) <= maxJoinResultCount)%nat.

Lemma addJoinResult_ok cur js rs :
  0 <= cur < 2 ^ 64 -> session_ok cur js ->
  Forall (fun r => 0 <= jr_JoinDuration r <= jr_SessionDuration r /\ jr_SessionDuration r <= cur) rs ->
  (length rs <= maxJoinResultCount)%nat ->
  let rs' := addJoinResult (mkJoinerSession (js_StartTime js) (js_JoinedTime js) cur) rs in
  Forall (fun r => 0 <= jr_JoinDuration r <= jr_SessionDuration r /\ jr_SessionDuration r <= cur) rs' /\
  (length rs' <= maxJoinResultCount)%nat.
Proof.
  intros Hc (Hs & Hj) HF HL. unfold addJoinResult. cbn [js_StartTime js_JoinedTime js_StopTime].
  rewrite <- (lastn_all maxJoinResultCount rs) by done. rewrite cut_snoc.
  rewrite (u64_id (cur - _)) by (unfold in_u; lia). split; [|rewrite length_lastn; lia].
  unfold lastn. apply Forall_drop, Forall_app; split; [done|]. constructor; [|done]. simpl.
  destruct (Z.eqb_spec (js_JoinedTime js) 0); [lia|].
  rewrite u64_id by (unfold in_u; lia). lia.
Qed.

Lemma join_step_ok op n :
  joins_ok n -> n_CurTime n <= fst op < 2 ^ 64 ->
  joins_ok (join_step n op) /\ n_CurTime (join_step n op) = fst op.
Proof.
  destruct op as [t st]. intros (Hc & Hs & HF & HL) Ht. simpl in Ht.
  assert (Forall (fun r => 0 <= jr_JoinDuration r <= jr_SessionDuration r /\
                   jr_SessionDuration r <= t) (n_joinResults n)) as HF'.
  { eapply Forall_impl; [exact HF|]. simpl. intros. lia. }
  assert (match n_joinerSession n with Some js => session_ok t js | None => True end) as Hs'.
  { destruct (n_joinerSession n); [|done]. destruct Hs as (?&?). split; lia. }
  unfold join_step, onJoinerState, startNewJoinerSession, closeJoinerSession, joins_ok. simpl.
  destruct (n_joinerState n =? st); [simpl; repeat split; try done; lia|].
  destruct ((st =? OtJoinerStateDiscover) || (st =? OtJoinerStateConnect)).
  { destruct (n_joinerSession n) eqn:ES; simpl; rewrite ?ES; repeat split; try done; try lia;
    destruct Hs'; simpl; lia. }
  destruct (st =? OtJoinerStateJoined).
  { destruct (n_joinerSession n) eqn:ES; simpl; rewrite ?ES; repeat split; try done; try lia;
    destruct Hs'; simpl; lia. }
  destruct (st =? OtJoinerStateIdle); [|simpl; repeat split; try done; lia].
  destruct (n_joinerSession n) eqn:ES; simpl; rewrite ?ES; [|repeat split; try done; lia].
  destruct (addJoinResult_ok t j (n_joinResults n)) as [H1 H2]; [lia|done..|].
  repeat split; try done; lia.
Qed.

Lemma join_run_ok ops n :
  joins_ok n -> StronglySorted Z.le (n_CurTime n :: map fst ops) ->
  Forall (fun t => t < 2 ^ 64) (map fst ops) -> joins_ok (join_run ops n).
Proof.
  revert n. induction ops as [|op ops IH]; intros n Hn Hs HB; [done|].
  cbn [map] in *. apply Forall_cons in HB as [HB HBs].
  apply StronglySorted_inv in Hs as [Hs Ha]. apply Forall_cons in Ha as [Ha _].
  destruct (join_step_ok op n) as [H1 H2]; [done|lia|]. apply IH; [done| |done].
  by rewrite H2.
Qed.

(** joiner bookkeeping.  Whatever sequence of joiner states a new node reports, with
    non-decreasing times, every collected join result has a join duration within its
    session duration, both are within the node's time, and at most a thousand results are
    kept. *)
Theorem join_results_sound cur id cfg n ops :
  newNode cur id cfg = Ok n -> 0 <= cur < 2 ^ 64 -> StronglySorted Z.le (cur :: map fst ops) ->
  Forall (fun t => t < 2 ^ 64) (map fst ops) ->
  let '(rs, n') := CollectJoins (join_run ops n) in
  Forall (fun r => 0 <= jr_JoinDuration r <= jr_SessionDuration r /\
                   jr_SessionDuration r <= n_CurTime n') rs /\
  (length rs <= maxJoinResultCount)%nat /\ n_joinResults n' = [].
Proof.
  intros E Hc Hs HB. unfold newNode in E. res_inv. subst n.
  match goal with |- context [join_run ops ?n] => assert (joins_ok (join_run ops n)) as HJ end.
  - apply join_run_ok; [|done..]. repeat split; simpl; first [lia|constructor].
  - destruct HJ as (_ & _ & HF & HL). done.
Qed.

Lemma join_results_sound_witness :
  fst (CollectJoins (join_run [(6, 1); (9, 2); (20, 5); (30, 0); (31, 1); (40, 0)] ex_new)) =
    [mkJoinResult 14 24; mkJoinResult 0 9] /\
  Forall (fun r => 0 <= jr_JoinDuration r <= jr_SessionDuration r /\ jr_SessionDuration r <= 40)
    (fst (CollectJoins (join_run [(6, 1); (9, 2); (20, 5); (30, 0); (31, 1); (40, 0)] ex_new))).
Proof.
  split; [reflexivity|].
  destruct (join_results_sound 5 1 ex_cfg ex_new
    [(6, 1); (9, 2); (20, 5); (30, 0); (31, 1); (40, 0)] eq_refl) as (H & _).
  - lia.
  - repeat first [apply SSorted_nil|apply SSorted_cons|apply Forall_nil_2|apply Forall_cons_2]; simpl; lia.
  - repeat constructor; lia.
  - exact H.
Defined.
