(* ===== verification/RadioNode.v ===== *)
(** * Radio nodes and signal computations

    The status of a node's radio (src/radiomodel/radionode.go), the radio-model
    parameters (model_params.go), the path-loss formulas (pathloss_model.go), RSSI helpers
    (utils.go), the bit-error model (ber_model.go) and the fading model
    (fading_model.go).  The transcendental functions of package [math], the pseudo-random
    generators of [math/rand] and the text of a log message are parameters. *)

From S2P Require Import Prelude Types Event GoFloat FloatMono.

(** Decimal constants stand for their nearest binary64 value, as in Go. *)
#[local] Set Warnings "-inexact-float".

Abbreviation DbValue := float (only parsing).
Definition UndefinedValue : float := MaxFloat64.

Record RadioNode := mkRadioNode {
  rn_Id : NodeId;
  rn_TxPower : DbValue;
  rn_RxSensitivity : DbValue;
  rn_RadioRange : float;
  rn_RadioState : RadioStates;
  rn_RadioSubState : RadioSubStates;
  rn_RadioChannel : ChannelId;
  rn_X : float; rn_Y : float; rn_Z : float;
  rn_rssiSampleMax : DbValue;
  rn_stats : PhyStats;
}.

Definition NewRadioNode (nodeid : NodeId) (x y z range : Z) : RadioNode :=
  mkRadioNode nodeid (f_of_Z RssiInvalid) (f_of_Z RssiInvalid) (f_of_Z range) RadioDisabled 0
    InvalidChannel (f_of_Z x) (f_of_Z y) (f_of_Z z) (f_of_Z RssiMinusInfinity) zeroPhyStats.

(** Field assignments. *)
Definition upd_radio (rn : RadioNode) (txp rxs : DbValue) (st : RadioStates) (sub : RadioSubStates)
    (ch : ChannelId) (smp : DbValue) (stats : PhyStats) : RadioNode :=
  mkRadioNode (rn_Id rn) txp rxs (rn_RadioRange rn) st sub ch (rn_X rn) (rn_Y rn) (rn_Z rn) smp stats.
Definition set_TxPower (v : DbValue) (rn : RadioNode) : RadioNode :=
  upd_radio rn v (rn_RxSensitivity rn) (rn_RadioState rn) (rn_RadioSubState rn)
    (rn_RadioChannel rn) (rn_rssiSampleMax rn) (rn_stats rn).
Definition set_rssiSampleMax (v : DbValue) (rn : RadioNode) : RadioNode :=
  upd_radio rn (rn_TxPower rn) (rn_RxSensitivity rn) (rn_RadioState rn) (rn_RadioSubState rn)
    (rn_RadioChannel rn) v (rn_stats rn).
Definition set_stats (v : PhyStats) (rn : RadioNode) : RadioNode :=
  upd_radio rn (rn_TxPower rn) (rn_RxSensitivity rn) (rn_RadioState rn) (rn_RadioSubState rn)
    (rn_RadioChannel rn) (rn_rssiSampleMax rn) v.

Definition SetChannel (ch : ChannelId) (rn : RadioNode) : res RadioNode :=
  _ ← assert_true ((MinChannelNumber <=? ch)%Z && (ch <=? MaxChannelNumber)%Z);
  Ok (upd_radio rn (rn_TxPower rn) (rn_RxSensitivity rn) (rn_RadioState rn) (rn_RadioSubState rn)
        ch (rn_rssiSampleMax rn) (rn_stats rn)).
Definition SetRadioState (st : RadioStates) (sub : RadioSubStates) (rn : RadioNode) : RadioNode :=
  upd_radio rn (rn_TxPower rn) (rn_RxSensitivity rn) st sub (rn_RadioChannel rn)
    (rn_rssiSampleMax rn) (rn_stats rn).
Definition SetTxDone (rn : RadioNode) : RadioNode :=
  if (rn_RadioState rn =? RadioTx)%Z then SetRadioState RadioRx (rn_RadioSubState rn) rn else rn.
Definition SetRxSensitivity (v : DbValue) (rn : RadioNode) : RadioNode :=
  upd_radio rn (rn_TxPower rn) v (rn_RadioState rn) (rn_RadioSubState rn) (rn_RadioChannel rn)
    (rn_rssiSampleMax rn) (rn_stats rn).
Definition SetNodePos (x y z : Z) (rn : RadioNode) : RadioNode :=
  mkRadioNode (rn_Id rn) (rn_TxPower rn) (rn_RxSensitivity rn) (rn_RadioRange rn)
    (rn_RadioState rn) (rn_RadioSubState rn) (rn_RadioChannel rn) (f_of_Z x) (f_of_Z y) (f_of_Z z)
    (rn_rssiSampleMax rn) (rn_stats rn).

Definition GetDistanceTo (rn other : RadioNode) : float :=
  let dx := (rn_X other - rn_X rn)%gf in
  let dy := (rn_Y other - rn_Y rn)%gf in
  let dz := (rn_Z other - rn_Z rn)%gf in
  PrimFloat.sqrt (dx * dx + dy * dy + dz * dz)%gf.

(** ** RSSI values *)
Definition paround (param : float) : float := (f_Round (param * 100) / 100)%gf.

Definition clipRssi (rssi : DbValue) : Z :=
  let rssi :=
    if (rssi >? f_of_Z RssiMax)%gf then f_of_Z RssiMax
    else if (rssi <? f_of_Z RssiMin)%gf then f_of_Z RssiMinusInfinity else rssi in
  to_signed 8 (int64_of (f_Round rssi)).

(** ** Model parameters *)
Record RadioModelParams := mkRadioModelParams {
  MeterPerUnit : float;
  IsDiscLimit : bool;
  RssiMinDbm : DbValue;
  RssiMaxDbm : DbValue;
  ExponentDb : DbValue;
  FixedLossDb : DbValue;
  NlosExponentDb : DbValue;
  NlosFixedLossDb : DbValue;
  NoiseFloorDbm : DbValue;
  SnrMinThresholdDb : DbValue;
  ShadowFadingSigmaDb : DbValue;
  TimeFadingSigmaMaxDb : DbValue;
  MeanTimeFadingChange : float;
}.

Definition defaultNoiseFloorIndoorDbm : DbValue := -95%float.
Definition defaultMeterPerUnit : float := 0.1%float.

Definition newRadioModelParams : RadioModelParams :=
  mkRadioModelParams defaultMeterPerUnit false (f_of_Z RssiMin) (f_of_Z RssiMax)
    UndefinedValue UndefinedValue UndefinedValue UndefinedValue UndefinedValue UndefinedValue
    UndefinedValue UndefinedValue UndefinedValue.

Definition set_disc (b : bool) (p : RadioModelParams) : RadioModelParams :=
  mkRadioModelParams (MeterPerUnit p) b (RssiMinDbm p) (RssiMaxDbm p) (ExponentDb p)
    (FixedLossDb p) (NlosExponentDb p) (NlosFixedLossDb p) (NoiseFloorDbm p)
    (SnrMinThresholdDb p) (ShadowFadingSigmaDb p) (TimeFadingSigmaMaxDb p) (MeanTimeFadingChange p).
Definition set_rssi_bounds (lo hi : DbValue) (p : RadioModelParams) : RadioModelParams :=
  mkRadioModelParams (MeterPerUnit p) (IsDiscLimit p) lo hi (ExponentDb p)
    (FixedLossDb p) (NlosExponentDb p) (NlosFixedLossDb p) (NoiseFloorDbm p)
    (SnrMinThresholdDb p) (ShadowFadingSigmaDb p) (TimeFadingSigmaMaxDb p) (MeanTimeFadingChange p).

(** ** Signal computations *)
Section math.
Variables (Log10 Exp : float -> float) (Pow : float -> float -> float).

Definition setIndoorModelParamsItu (p : RadioModelParams) : RadioModelParams :=
  mkRadioModelParams (MeterPerUnit p) (IsDiscLimit p) (RssiMinDbm p) (RssiMaxDbm p)
    30%float (paround (20 * Log10 2400 - 28)%gf) (NlosExponentDb p)
    (NlosFixedLossDb p) (NoiseFloorDbm p) (SnrMinThresholdDb p) (ShadowFadingSigmaDb p)
    (TimeFadingSigmaMaxDb p) (MeanTimeFadingChange p).
Definition setIndoorModelParams3gpp (p : RadioModelParams) : RadioModelParams :=
  mkRadioModelParams (MeterPerUnit p) (IsDiscLimit p) (RssiMinDbm p) (RssiMaxDbm p)
    17.3%float (paround (32.4 + 20 * Log10 2.4)%gf) 38.3%float
    (paround (17.3 + 24.9 * Log10 2.4)%gf) defaultNoiseFloorIndoorDbm (-4)%float 8.03%float
    4%float 150%float.
Definition setOutdoorModelParams (p : RadioModelParams) : RadioModelParams :=
  mkRadioModelParams 0.5%float (IsDiscLimit p) (RssiMinDbm p) (RssiMaxDbm p)
    17.3%float (paround (32.4 + 20 * Log10 2.4)%gf) 0%float 0%float
    defaultNoiseFloorIndoorDbm (-4)%float 3%float 1%float 150%float.

Definition addSignalPowersDbm (p1 p2 : DbValue) : DbValue :=
  if (p1 >? p2 + 15)%gf then p1
  else if (p2 >? p1 + 15)%gf then p2
  else (10 * Log10 (Pow 10 (p1 / 10) + Pow 10 (p2 / 10)))%gf.

Definition computeIndoorRssiItu (dist : float) (txPower : DbValue) (p : RadioModelParams) : DbValue :=
  let distMeters := (dist * MeterPerUnit p)%gf in
  let pathloss :=
    if (distMeters >=? 0.01)%gf then
      let pl := (ExponentDb p * Log10 distMeters + FixedLossDb p)%gf in
      if (pl <? 0)%gf then 0%float else pl
    else 0%float in
  (txPower - pathloss)%gf.

Definition computeIndoorRssi3gpp (dist : float) (txPower : DbValue) (p : RadioModelParams) : DbValue :=
  let distMeters := (dist * MeterPerUnit p)%gf in
  let pathloss :=
    if (distMeters >=? 0.01)%gf then
      let pl := (ExponentDb p * Log10 distMeters + FixedLossDb p)%gf in
      let pl := if (pl <? 0)%gf then 0%float else pl in
      if (NlosExponentDb p >? 0)%gf then
        f_Max pl (NlosExponentDb p * Log10 distMeters + NlosFixedLossDb p)%gf
      else pl
    else 0%float in
  (txPower - pathloss)%gf.

(** *** Bit errors *)
Definition binomialCoeff : list float :=
  [120; -560; 1820; -4368; 8008; -11440; 12870; -11440; 8008; -4368; 1820; -560; 120; -16; 1]%float.

Definition TimeUsPerBit : Z := 4.

Fixpoint ber_sum (snr : float) (idx : Z) (coeffs : list float) (ber : float) : float :=
  match coeffs with
  | [] => ber
  | coeff :: coeffs =>
    let k := f_of_Z (idx + 2) in
    ber_sum snr (idx + 1) coeffs (ber + coeff * Exp (20 * snr * (1 / (k + 1) - 1)))%gf
  end.

Definition computePacketSuccessRate (sirDb : DbValue) (frameDurationUs : Z) : float * Z :=
  let nbits := f_of_Z (frameDurationUs / TimeUsPerBit) in
  let ber := ber_sum (Pow 10 (sirDb / 10)%gf) 0 binomialCoeff 0 in
  let ber := f_Min (ber * 8 / 15 / 16)%gf 1 in
  (Pow (1 - ber)%gf nbits, int64_of nbits).

(** The last two bytes of the data, the frame's check sum, are changed. *)
Definition interferePsduData (data : list Z) : res (list Z) :=
  let dl := length data in
  _ ← assert_true (bool_decide (2 <= dl)%nat);
  fcs ← slice data (dl - 2) dl;
  Ok (copy_at data (dl - 2) (le_put 2 (u16 (le_get fcs + 42)))).

(** [rnd] is the number that [prng.NewUnitRandom] returns.  The result is the event and
    the arguments of the log message, when there is one. *)
Definition applyBerModel (rnd : float) (sirDb : DbValue) (evt : Event)
    : res (Event * option (float * Z)) :=
  let '(pSuccess, nbits, rnd) :=
    if (sirDb <? -10)%gf then (0%float, 0%Z, 0.5%float)
    else if (sirDb <? 6)%gf then
      let '(p, n) := computePacketSuccessRate sirDb (rc_Duration (ev_RadioCommData evt)) in (p, n, rnd)
    else (1%float, 0%Z, 0.5%float) in
  if (pSuccess <? 1)%gf && (rnd >? pSuccess)%gf then
    data ← interferePsduData (ev_Data evt);
    let rc := ev_RadioCommData evt in
    Ok (set_RadioCommData (mkRadioComm (rc_Channel rc) (rc_PowerDbm rc) OT_ERROR_FCS
          (rc_Duration rc)) (set_Data data evt), Some (pSuccess, nbits))
  else Ok (evt, None).
End math.

(** ** Fading *)
Definition uint16_of (f : float) : Z := u16 (int64_of f).

Definition grid (v meterPerUnit off : float) : Z :=
  uint16_of (f_Round (v * meterPerUnit * 0.2) + off)%gf.

(** The position of a node in grid units of 5 m. *)
Definition grid_pos (rn : RadioNode) (mpu : float) : Z * Z * Z :=
  (grid (rn_X rn) mpu 2048, grid (rn_Y rn) mpu 2048, grid (rn_Z rn) mpu 128).

Definition link_uid (p1 p2 : Z * Z * Z) : Z :=
  let '(x1, y1, z1) := p1 in
  let '(x2, y2, z2) := p2 in
  let '(xL, yL, zL, (xR, yR, zR)) :=
    if ((x1 <? x2) || ((x1 =? x2) && (y1 <? y2)) || ((x1 =? x2) && (y1 =? y2) && (z1 <? z2)))%Z
    then (x1, y1, z1, (x2, y2, z2)) else (x2, y2, z2, (x1, y1, z1)) in
  to_signed 64 (xL + Z.shiftl yL 12 + Z.shiftl xR 24 + Z.shiftl yR 36 + Z.shiftl zL 48 + Z.shiftl zR 56)%Z.

Definition calcLinkUID (src dst : RadioNode) (mpu : float) : Z :=
  link_uid (grid_pos src mpu) (grid_pos dst mpu).

Definition maxCacheSize : Z := 5000000.

(** A pseudo-random generator of [math/rand]. *)
Class RandI (rng : Type) := {
  rand_New : Z -> rng;
  NormFloat64 : rng -> float * rng;
  Float64 : rng -> float * rng;
  ExpFloat64 : rng -> float * rng;
}.

Section fading.
Context {rng : Type} `{!RandI rng}.

Record fadingModel := mkFadingModel {
  fm_rndSeed : Z;
  fm_rng : option rng;
  fm_ts : Z;
  fm_shFadeMap : gmap Z DbValue;
  fm_tvFadeMap : gmap Z DbValue;
  fm_tvFadeSigmaMap : gmap Z DbValue;
  fm_changeTvfTimeMap : gmap Z Z;
}.

Definition newFadingModel (rndSeed : Z) : fadingModel := mkFadingModel rndSeed None 0 ∅ ∅ ∅ ∅.

Definition clearCaches (sf : fadingModel) : fadingModel :=
  mkFadingModel (fm_rndSeed sf) (fm_rng sf) (fm_ts sf) ∅ ∅ ∅ ∅.

Definition onAdvanceTime (ts : Z) (sf : fadingModel) : fadingModel :=
  let sf := if (Z.of_nat (size (fm_shFadeMap sf)) >? maxCacheSize)%Z then clearCaches sf else sf in
  mkFadingModel (fm_rndSeed sf) (fm_rng sf) ts (fm_shFadeMap sf) (fm_tvFadeMap sf)
    (fm_tvFadeSigmaMap sf) (fm_changeTvfTimeMap sf).

(** A lookup in a Go map of floats or of integers gives the zero value when the key is
    absent. *)
Definition next_change (sf : fadingModel) (delta : float) (params : RadioModelParams) : Z :=
  u64 (fm_ts sf + uint64_of (delta * MeanTimeFadingChange params * 1000000)%gf).

Definition computeFading (src dst : RadioNode) (params : RadioModelParams) (sf : fadingModel)
    : res (DbValue * fadingModel) :=
  let seed := to_signed 64 (fm_rndSeed sf + calcLinkUID src dst (MeterPerUnit params)) in
  match fm_shFadeMap sf !! seed with
  | Some vSF =>
    let vTVF := default 0%float (fm_tvFadeMap sf !! seed) in
    if (MeanTimeFadingChange params >? 0)%gf &&
       (fm_ts sf >? default 0 (fm_changeTvfTimeMap sf !! seed))%Z then
      let sigmaTVF := default 0%float (fm_tvFadeSigmaMap sf !! seed) in
      r ← deref (fm_rng sf);
      let '(g, r) := NormFloat64 r in
      let vTVF := (g * sigmaTVF)%gf in
      let '(x, r) := ExpFloat64 r in
      Ok ((vSF + vTVF)%gf,
          mkFadingModel (fm_rndSeed sf) (Some r) (fm_ts sf) (fm_shFadeMap sf)
            (<[seed:=vTVF]> (fm_tvFadeMap sf)) (fm_tvFadeSigmaMap sf)
            (<[seed:=next_change sf x params]> (fm_changeTvfTimeMap sf)))
    else Ok ((vSF + vTVF)%gf, sf)
  | None =>
    let r := rand_New seed in
    let '(g, r) := NormFloat64 r in
    let vSF := (g * ShadowFadingSigmaDb params)%gf in
    let '(u, r) := Float64 r in
    let sigmaTVF := (u * TimeFadingSigmaMaxDb params)%gf in
    let '(g2, r) := NormFloat64 r in
    let vTVF := (g2 * sigmaTVF)%gf in
    let '(x, r) := ExpFloat64 r in
    Ok ((vSF + vTVF)%gf,
        mkFadingModel (fm_rndSeed sf) (Some r) (fm_ts sf) (<[seed:=vSF]> (fm_shFadeMap sf))
          (<[seed:=vTVF]> (fm_tvFadeMap sf)) (<[seed:=sigmaTVF]> (fm_tvFadeSigmaMap sf))
          (<[seed:=next_change sf x params]> (fm_changeTvfTimeMap sf)))
  end.
End fading.
Arguments fadingModel : clear implicits.

(** ** Links have their own fading *)
Definition on_grid (p : Z * Z * Z) : Prop :=
  let '(x, y, z) := p in (0 <= x < 4096 /\ 0 <= y < 4096 /\ 0 <= z < 256)%Z.

(** The order in which a link names its two ends. *)
Definition pos_lt (p q : Z * Z * Z) : bool :=
  let '(x1, y1, z1) := p in
  let '(x2, y2, z2) := q in
  ((x1 <? x2) || ((x1 =? x2) && (y1 <? y2)) || ((x1 =? x2) && (y1 =? y2) && (z1 <? z2)))%Z.

Definition pack (l r : Z * Z * Z) : Z :=
  let '(xL, yL, zL) := l in
  let '(xR, yR, zR) := r in
  (xL + 4096 * (yL + 4096 * (xR + 4096 * (yR + 4096 * (zL + 256 * zR)))))%Z.

Lemma link_uid_pack p q :
  on_grid p -> on_grid q ->
  link_uid p q = to_signed 64 (if pos_lt p q then pack p q else pack q p).
Proof.
  destruct p as [[x1 y1] z1], q as [[x2 y2] z2]. intros Hp Hq. unfold link_uid, pos_lt, pack.
  destruct (_ || _); rewrite !Z.shiftl_mul_pow2 by lia; f_equal; lia.
Qed.

Lemma pack_range p q : on_grid p -> on_grid q -> in_u 64 (pack p q).
Proof. destruct p as [[x1 y1] z1], q as [[x2 y2] z2]. unfold on_grid, pack, in_u. lia. Qed.

Lemma pack_inj p q p' q' :
  on_grid p -> on_grid q -> on_grid p' -> on_grid q' -> pack p q = pack p' q' -> p = p' /\ q = q'.
Proof.
  destruct p as [[x1 y1] z1], q as [[x2 y2] z2], p' as [[x1' y1'] z1'], q' as [[x2' y2'] z2'].
  unfold on_grid, pack. intros. assert (x1 = x1')%Z by lia. assert (y1 = y1')%Z by lia.
  assert (x2 = x2')%Z by lia. assert (y2 = y2')%Z by lia. assert (z1 = z1')%Z by lia.
  assert (z2 = z2')%Z by lia. by subst.
Qed.

Lemma to_signed_inj w a b :
  (0 < w)%Z -> in_u w a -> in_u w b -> to_signed w a = to_signed w b -> a = b.
Proof.
  intros Hw Ha Hb. unfold in_u in *. unfold to_signed. rewrite !Z.mod_small by lia.
  destruct (_ <? _)%Z, (_ <? _)%Z; lia.
Qed.

Lemma link_uid_sym p q : link_uid p q = link_uid q p.
Proof.
  destruct p as [[x1 y1] z1], q as [[x2 y2] z2]. unfold link_uid.
  repeat match goal with
  | |- context [Z.ltb ?a ?b] => destruct (Z.ltb_spec a b)
  | |- context [Z.eqb ?a ?b] => destruct (Z.eqb_spec a b)
  end; subst; simpl; first [lia|done|
    replace z1 with z2 by lia; done].
Qed.

(** the seed of a radio link does not depend on the direction, and on the grid
    (coordinates below 4096, height below 256 grid units) two links have the same seed
    only when they join the same two positions. *)
Theorem link_uid_unique p q p' q' :
  on_grid p -> on_grid q -> on_grid p' -> on_grid q' ->
  link_uid p q = link_uid p' q' <-> (p = p' /\ q = q') \/ (p = q' /\ q = p').
Proof.
  intros Hp Hq Hp' Hq'. split.
  - rewrite !link_uid_pack by done. intros H. apply to_signed_inj in H; [|lia|..].
    + destruct (pos_lt p q), (pos_lt p' q'); apply pack_inj in H; naive_solver.
    + destruct (pos_lt p q); by apply pack_range.
    + destruct (pos_lt p' q'); by apply pack_range.
  - intros [[-> ->]|[-> ->]]; [done|apply link_uid_sym].
Qed.

Lemma link_uid_unique_witness :
  link_uid (2058, 2049, 128)%Z (2050, 2049, 128)%Z <> link_uid (2058, 2049, 128)%Z (2050, 2050, 128)%Z /\
  link_uid (2058, 2049, 128)%Z (2050, 2049, 128)%Z = link_uid (2050, 2049, 128)%Z (2058, 2049, 128)%Z.
Proof.
  split.
  - intros H. apply link_uid_unique in H; unfold on_grid; [|lia..]. naive_solver.
  - apply link_uid_unique; unfold on_grid; [lia..|]. by right.
Defined.

(** *** Fading is stable between changes *)
Section fading_facts.
Context {rng : Type} `{!RandI rng}.

(** A generator exists once a link has been computed. *)
Definition fm_wf (sf : fadingModel rng) : Prop :=
  fm_rng sf = None -> fm_shFadeMap sf = ∅ /\ fm_changeTvfTimeMap sf = ∅.

(** The time of the next change of the link's time-variant fading. *)
Definition next_change_of (src dst : RadioNode) (params : RadioModelParams) (sf : fadingModel rng) : Z :=
  default 0%Z (fm_changeTvfTimeMap sf !!
    to_signed 64 (fm_rndSeed sf + calcLinkUID src dst (MeterPerUnit params))%Z).

Lemma calcLinkUID_sym src dst mpu : calcLinkUID src dst mpu = calcLinkUID dst src mpu.
Proof. apply link_uid_sym. Qed.

Lemma computeFading_hit dst src params (sf : fadingModel rng) vSF vTVF :
  let seed := to_signed 64 (fm_rndSeed sf + calcLinkUID src dst (MeterPerUnit params)) in
  fm_shFadeMap sf !! seed = Some vSF -> fm_tvFadeMap sf !! seed = Some vTVF ->
  (fm_ts sf <= next_change_of src dst params sf)%Z ->
  computeFading dst src params sf = Ok ((vSF + vTVF)%gf, sf).
Proof.
  intros seed H1 H2 H3. unfold computeFading. rewrite (calcLinkUID_sym dst src). fold seed.
  rewrite H1, H2. unfold next_change_of in H3. fold seed in H3.
  destruct (Z.gtb_spec (fm_ts sf) (default 0 (fm_changeTvfTimeMap sf !! seed)))%Z; [lia|].
  by rewrite andb_false_r.
Qed.

(** Two link computations in a model with both maps filled together. *)
Definition fm_paired (sf : fadingModel rng) : Prop :=
  forall seed, is_Some (fm_shFadeMap sf !! seed) -> is_Some (fm_tvFadeMap sf !! seed).

(** the fading of a link always exists, and it is symmetric and stable: until the
    link's next change time, computing it again, in either direction, gives the same
    value and leaves the model unchanged. *)
Theorem computeFading_stable src dst params (sf : fadingModel rng) :
  fm_wf sf -> fm_paired sf ->
  exists v sf', computeFading src dst params sf = Ok (v, sf') /\ fm_wf sf' /\ fm_paired sf' /\
    ((fm_ts sf' <= next_change_of src dst params sf')%Z ->
     computeFading dst src params sf' = Ok (v, sf') /\
     computeFading src dst params sf' = Ok (v, sf')).
Proof.
  intros Hwf Hp. unfold computeFading at 1.
  set (seed := to_signed 64 (fm_rndSeed sf + calcLinkUID src dst (MeterPerUnit params))).
  assert (forall sf' vSF vTVF, fm_rndSeed sf' = fm_rndSeed sf ->
    fm_shFadeMap sf' !! seed = Some vSF -> fm_tvFadeMap sf' !! seed = Some vTVF ->
    (fm_ts sf' <= next_change_of src dst params sf')%Z ->
    computeFading dst src params sf' = Ok ((vSF + vTVF)%gf, sf') /\
    computeFading src dst params sf' = Ok ((vSF + vTVF)%gf, sf')) as Hhit.
  { intros sf' vSF vTVF Hs H1 H2 H3. split; apply computeFading_hit; rewrite ?Hs; try done.
    - by rewrite calcLinkUID_sym.
    - by rewrite calcLinkUID_sym.
    - unfold next_change_of in *. by rewrite calcLinkUID_sym. }
  destruct (fm_shFadeMap sf !! seed) as [vSF|] eqn:E.
  - destruct (Hp seed) as [vTVF E2]; [by rewrite E|]. rewrite E2. simpl.
    destruct (_ && _).
    + destruct (fm_rng sf) as [r|] eqn:Er; [|by destruct Hwf as [H _]; [done|]; rewrite H in E].
      simpl. destruct (NormFloat64 r) as [g r1], (ExpFloat64 r1) as [x r2].
      do 2 eexists. split; [reflexivity|]. split; [done|]. split.
      * intros s Hs. simpl in *. destruct (decide (s = seed)) as [->|].
        { rewrite lookup_insert_eq. by eexists. }
        rewrite lookup_insert_ne by done. by apply Hp.
      * apply Hhit; simpl; [done..|]. by rewrite lookup_insert_eq.
    + do 2 eexists. split; [reflexivity|]. split; [done|]. split; [done|]. by apply Hhit.
  - destruct (NormFloat64 _) as [g r1], (Float64 r1) as [u r2], (NormFloat64 r2) as [g2 r3],
      (ExpFloat64 r3) as [x r4].
    do 2 eexists. split; [reflexivity|]. split; [done|]. split.
    * intros s Hs. simpl in *. destruct (decide (s = seed)) as [->|].
      { rewrite lookup_insert_eq. by eexists. }
      rewrite lookup_insert_ne in * by done. by apply Hp.
    * apply Hhit; simpl; [done|by rewrite lookup_insert_eq..].
Qed.
End fading_facts.

(** A generator that always draws one half. *)
#[local] Instance half_rand : RandI () := {|
  rand_New := fun _ => tt;
  NormFloat64 := fun r => (0.5%float, r);
  Float64 := fun r => (0.5%float, r);
  ExpFloat64 := fun r => (0.5%float, r);
|}.

Definition ex_fading_params : RadioModelParams := setOutdoorModelParams (fun _ => 0%float) newRadioModelParams.

Lemma computeFading_stable_witness :
  exists v sf', computeFading (NewRadioNode 1 10 20 0 220) (NewRadioNode 2 400 20 0 220)
      ex_fading_params (newFadingModel (rng := ()) 7) = Ok (v, sf') /\ fm_wf sf'.
Proof.
  destruct (computeFading_stable (rng := ()) (NewRadioNode 1 10 20 0 220) (NewRadioNode 2 400 20 0 220)
    ex_fading_params (newFadingModel 7)) as (v & sf' & E & H & _).
  - intros _. split; reflexivity.
  - intros s [x Hx]. discriminate Hx.
  - exists v, sf'. split; [exact E|exact H].
Defined.

(** ** RSSI values reported to the nodes *)
(** The magnitude bound that the two comparisons of [clipRssi] leave. *)
Definition mant126 : positive := Z.to_pos (126 * 2 ^ 46).

Lemma shift_round_126 m e :
  (Z.pos m < 2 ^ 53)%Z -> (e < -46 \/ e = -46 /\ Z.pos m <= Z.pos mant126)%Z ->
  (0 <= shift_round (Z.pos m) e <= 126)%Z.
Proof.
  intros Hm He. unfold shift_round. destruct (Z.leb_spec 0 e); [lia|].
  assert (0 < 2 ^ (- e))%Z by (apply Z.pow_pos_nonneg; lia).
  split; [apply Z.div_pos; lia|].
  assert (2 * Z.pos m < 253 * 2 ^ (- e))%Z as Hb.
  { destruct He as [He|[-> Hm']].
    - assert (2 ^ 47 <= 2 ^ (- e))%Z by (apply Z.pow_le_mono_r; lia). lia.
    - change (Z.pos mant126) with (126 * 2 ^ 46)%Z in Hm'. change (- -46)%Z with 46%Z. lia. }
  apply Z.lt_succ_r. apply Z.div_lt_upper_bound; lia.
Qed.

Definition round_trip_ok (s : bool) (z : Z) : bool :=
  (int64_of (SF2Prim (binary_normalize prec emax z 0 s)) =? z)%Z.

Lemma small_round_trip s z :
  (-127 <= z <= 127)%Z -> int64_of (SF2Prim (binary_normalize prec emax z 0 s)) = z.
Proof.
  intros Hz.
  assert (forallb (fun i => round_trip_ok true (Z.of_nat i - 127) && round_trip_ok false (Z.of_nat i - 127))
            (seq 0 255) = true) as H by (vm_compute; reflexivity).
  rewrite forallb_forall in H. specialize (H (Z.to_nat (z + 127))).
  replace (Z.of_nat (Z.to_nat (z + 127)) - 127)%Z with z in H by lia.
  rewrite andb_true_iff in H. unfold round_trip_ok in H. rewrite !Z.eqb_eq in H.
  destruct s; apply H; apply in_seq; lia.
Qed.

Lemma clip_finite s m e f :
  Prim2SF f = S754_finite s m e ->
  (f_of_Z RssiMax <? f)%gf = false -> (f <? f_of_Z RssiMin)%gf = false ->
  (Z.abs (int64_of (f_Round f)) <= 126)%Z.
Proof.
  intros Ef H1 H2. rewrite ltb_spec, Ef in H1, H2.
  change (Prim2SF (f_of_Z RssiMax)) with (S754_finite false mant126 (-46)) in H1.
  change (Prim2SF (f_of_Z RssiMin)) with (S754_finite true mant126 (-46)) in H2.
  pose proof (Prim2SF_valid f) as HV. rewrite Ef in HV. apply valid_mantissa in HV.
  assert (e < -46 \/ e = -46 /\ Z.pos m <= Z.pos mant126)%Z as He.
  { unfold SFltb, SFcompare in H1, H2. destruct s.
    - destruct (Z.compare_spec e (-46)) as [->| |]; [|lia|done].
      right. split; [done|]. change (CompOpp (Pos.compare_cont Eq m mant126)) with
        (CompOpp (m ?= mant126)%positive) in H2.
      destruct (Pos.compare_spec m mant126); [subst; lia|lia|done].
    - destruct (Z.compare_spec (-46) e) as [<-| |]; [|done|lia].
      right. split; [done|]. change (Pos.compare_cont Eq mant126 m) with (mant126 ?= m)%positive in H1.
      destruct (Pos.compare_spec mant126 m); [subst; lia|done|lia]. }
  pose proof (shift_round_126 m e HV He) as Hq. unfold f_Round. rewrite Ef.
  destruct (Z.leb_spec 0 e); [lia|]. rewrite small_round_trip; unfold signed; destruct s; lia.
Qed.

(** the RSSI written into a radio event is a value the radio protocol allows: between
    -126 and 126 dBm, or -127 for no signal, for every computed signal level. *)
Theorem clipRssi_bounds rssi : (RssiMinusInfinity <= clipRssi rssi <= RssiMax)%Z.
Proof.
  unfold clipRssi. destruct (f_of_Z RssiMax <? rssi)%gf eqn:E1; [vm_compute; split; congruence|].
  destruct (rssi <? f_of_Z RssiMin)%gf eqn:E2; [vm_compute; split; congruence|].
  unfold RssiMinusInfinity, RssiMax.
  destruct (Prim2SF rssi) as [s|s| |s m e] eqn:Ef.
  - unfold f_Round, int64_of. rewrite Ef. simpl. rewrite Ef. vm_compute; split; congruence.
  - rewrite ltb_spec, Ef in E1, E2. destruct s; done.
  - unfold f_Round, int64_of. rewrite Ef. simpl. rewrite Ef. vm_compute; split; congruence.
  - pose proof (clip_finite s m e rssi Ef E1 E2) as H.
    rewrite <- (to_signed_mod 8 (int64_of (f_Round rssi))) in H by (unfold in_s; lia).
    unfold to_signed in *. rewrite Zmod_mod in H. lia.
Qed.

(** interference always breaks the check sum of the frame it hits: the two last bytes
    of the data change, and nothing else does. *)
Theorem interferePsduData_spec data fcs :
  length fcs = 2%nat -> bytes_ok fcs ->
  exists fcs', interferePsduData (data ++ fcs) = Ok (data ++ fcs') /\ length fcs' = 2%nat /\
    le_get fcs' = u16 (le_get fcs + 42) /\ fcs' <> fcs.
Proof.
  intros HL HB. exists (le_put 2 (u16 (le_get fcs + 42))). unfold interferePsduData.
  rewrite length_app, HL. rewrite bool_decide_true by lia. cbn [assert_true mbind res_bind].
  replace (length data + 2 - 2)%nat with (length data) by lia.
  pose proof (slice_mid data fcs [] (length data) (length data + 2) eq_refl ltac:(lia)) as Hs.
  pose proof (copy_at_fits data fcs [] (le_put 2 (u16 (le_get fcs + 42)))) as Hc.
  rewrite !app_nil_r in *. rewrite Hs. cbn [mbind res_bind].
  rewrite Hc by (rewrite length_le_put; done).
  pose proof (le_get_range fcs HB) as Hr. rewrite HL in Hr. change (8 * Z.of_nat 2)%Z with 16%Z in Hr.
  assert (le_get (le_put 2 (u16 (le_get fcs + 42))) = u16 (le_get fcs + 42)) as Hg.
  { apply le_get_put_id. apply Z.mod_pos_bound. lia. }
  split; [done|]. split; [apply length_le_put|]. split; [done|].
  intros E. rewrite E in Hg. ulia.
Qed.

Lemma interferePsduData_spec_witness :
  exists fcs', interferePsduData ([12; 1; 2]%Z ++ [255; 255]%Z) = Ok ([12; 1; 2]%Z ++ fcs') /\
    length fcs' = 2%nat /\ le_get fcs' = 41%Z /\ fcs' <> [255; 255]%Z.
Proof.
  apply (interferePsduData_spec [12; 1; 2]%Z [255; 255]%Z); [reflexivity|].
  repeat constructor; unfold byte_ok, in_u; lia.
Defined.
