(* ===== verification/RadioModel.v ===== *)
(** * Radio models

    The [RadioModel] interface (src/radiomodel/radiomodel.go) as a type class, and its two
    implementations: the ideal model (radiomodelIdeal.go) and the model with mutual
    interference and fading (radiomodelMutualInterference.go), which embeds the former.

    Radio nodes are shared objects: the dispatcher's node and the maps of a model point at
    the same [RadioNode].  They live in a store, [gmap nat RadioNode], and the maps hold
    locations.  A model puts new events into the simulator's event queue; here they are
    appended to [rs_out], and the caller adds them to its queue in that order. *)

From S2P Require Import Prelude State Types Event GoFloat RadioNode.

Abbreviation nloc := nat (only parsing).

(** What the models take from outside the repository: functions of [math] and
    [math/rand], the order in which Go ranges over a map, and the text of a message. *)
Class RadioEnv := {
  Log10 : float -> float;
  Exp : float -> float;
  Pow : float -> float -> float;
  rng : Type;
  rng_rand :: RandI rng;
  range : gmap Z nloc -> list (Z * nloc);
  (** the [n]-th result of [prng.NewUnitRandom] *)
  NewUnitRandom : nat -> float;
  ber_log_text : float -> NodeId -> NodeId -> float -> Z -> list Z;
}.
(** [range] visits each entry of the map once, in any order. *)
Class RadioEnvOk (env : RadioEnv) := range_perm : forall m, range m ≡ₚ map_to_list m.

Record ChannelStats := mkChannelStats {
  cs_Channel : ChannelId;
  cs_TxTimeUs : Z;
  cs_NumFrames : Z;
  cs_numTransmitters : gset NodeId;
  cs_txStartTime : Z;
}.

(** The radio nodes, the model's own state, the number of random numbers drawn, and the
    events added to the queue. *)
Record radio_st (M : Type) := mkRadioSt {
  rs_nodes : gmap nat RadioNode;
  rs_model : M;
  rs_draws : nat;
  rs_out : list Event;
}.
Arguments mkRadioSt {M}. Arguments rs_nodes {M}. Arguments rs_model {M}. Arguments rs_draws {M}.
Arguments rs_out {M}.

Section store.
Context {M : Type}.
Definition get_rn (l : nloc) : st (radio_st M) RadioNode :=
  s ← get; lift (deref (rs_nodes s !! l)).
Definition put_rn (l : nloc) (rn : RadioNode) : st (radio_st M) () :=
  modify (fun s => mkRadioSt (<[l:=rn]> (rs_nodes s)) (rs_model s) (rs_draws s) (rs_out s)).
Definition mod_rn (l : nloc) (f : RadioNode -> RadioNode) : st (radio_st M) () :=
  rn ← get_rn l; put_rn l (f rn).
Definition mod_rn_res (l : nloc) (f : RadioNode -> res RadioNode) : st (radio_st M) () :=
  rn ← get_rn l; rn ← lift (f rn); put_rn l rn.
Definition model : st (radio_st M) M := gets rs_model.
Definition mod_model (f : M -> M) : st (radio_st M) () :=
  modify (fun s => mkRadioSt (rs_nodes s) (f (rs_model s)) (rs_draws s) (rs_out s)).
Definition emit (e : Event) : st (radio_st M) () :=
  modify (fun s => mkRadioSt (rs_nodes s) (rs_model s) (rs_draws s) (rs_out s ++ [e])).
End store.

(** Field assignments on events. *)
Definition set_comm_Error (err : Z) (e : Event) : Event :=
  let rc := ev_RadioCommData e in
  set_RadioCommData (mkRadioComm (rc_Channel rc) (rc_PowerDbm rc) err (rc_Duration rc)) e.
Definition set_comm_PowerDbm (p : Z) (e : Event) : Event :=
  let rc := ev_RadioCommData e in
  set_RadioCommData (mkRadioComm (rc_Channel rc) p (rc_Error rc) (rc_Duration rc)) e.
Definition after (d : Z) (e : Event) : Event := set_Timestamp (u64 (ev_Timestamp e + d)) e.

(** ** The interface *)
Class RadioModel (M : Type) := {
  rm_AddNode : nloc -> st (radio_st M) ();
  rm_DeleteNode : NodeId -> st (radio_st M) ();
  rm_CheckRadioReachable : nloc -> nloc -> st (radio_st M) bool;
  rm_GetTxRssi : nloc -> nloc -> st (radio_st M) DbValue;
  rm_OnEventDispatch : nloc -> nloc -> Event -> st (radio_st M) (bool * Event);
  rm_OnNextEventTime : Z -> st (radio_st M) ();
  rm_HandleEvent : nloc -> Event -> st (radio_st M) ();
  rm_OnParametersModified : st (radio_st M) ();
  rm_GetChannelStats : ChannelId -> st (radio_st M) (option ChannelStats);
  rm_ResetChannelStats : ChannelId -> st (radio_st M) ();
  rm_GetNodePhyStats : NodeId -> st (radio_st M) PhyStats;
  rm_GetPhyStats : st (radio_st M) (gmap NodeId PhyStats);
  rm_GetName : M -> string;
  (** the parameters, and their assignment through the pointer that [GetParameters] returns *)
  rm_GetParameters : M -> RadioModelParams;
  rm_SetParameters : RadioModelParams -> M -> M;
  (** the models of this type that [NewRadioModel] makes: a name and a random seed are given *)
  rm_New : string -> Z -> option M;
}.

(** ** The ideal model *)
Module Ideal.
Section ideal.
Context {env : RadioEnv}.

(** [im_eventQ] tells whether the event queue is known to the model yet. *)
Record RadioModelIdeal := mkIdeal {
  im_name : string;
  im_params : RadioModelParams;
  im_nodes : gmap NodeId nloc;
  im_eventQ : bool;
  im_channelStats : gmap ChannelId ChannelStats;
  im_ts : Z;
}.

Definition set_nodes (v : gmap NodeId nloc) (m : RadioModelIdeal) : RadioModelIdeal :=
  mkIdeal (im_name m) (im_params m) v (im_eventQ m) (im_channelStats m) (im_ts m).
Definition set_eventQ (m : RadioModelIdeal) : RadioModelIdeal :=
  mkIdeal (im_name m) (im_params m) (im_nodes m) true (im_channelStats m) (im_ts m).
Definition set_channelStats (v : gmap ChannelId ChannelStats) (m : RadioModelIdeal) : RadioModelIdeal :=
  mkIdeal (im_name m) (im_params m) (im_nodes m) (im_eventQ m) v (im_ts m).
Definition set_ts (v : Z) (m : RadioModelIdeal) : RadioModelIdeal :=
  mkIdeal (im_name m) (im_params m) (im_nodes m) (im_eventQ m) (im_channelStats m) v.

Definition set_params (v : RadioModelParams) (m : RadioModelIdeal) : RadioModelIdeal :=
  mkIdeal (im_name m) v (im_nodes m) (im_eventQ m) (im_channelStats m) (im_ts m).

Definition init (name : string) (params : RadioModelParams) : RadioModelIdeal :=
  mkIdeal name params ∅ false ∅ 0.

(** The methods that the other model inherits work on the embedded record: [sub] reads it
    and [upd] assigns it. *)
Section embedded.
Context {M : Type} (sub : M -> RadioModelIdeal) (upd : (RadioModelIdeal -> RadioModelIdeal) -> M -> M).

Definition ideal : st (radio_st M) RadioModelIdeal := m ← model; mret (sub m).
Definition mod_ideal (f : RadioModelIdeal -> RadioModelIdeal) : st (radio_st M) () := mod_model (upd f).

Definition addEvent (e : Event) : st (radio_st M) () :=
  m ← ideal;
  if im_eventQ m then emit e else panics NilDereference.

Definition put_stats (ch : ChannelId) (cs : ChannelStats) : st (radio_st M) () :=
  mod_ideal (fun m => set_channelStats (<[ch:=cs]> (im_channelStats m)) m).

Definition statsTxStart (l : nloc) (evt : Event) : st (radio_st M) () :=
  m ← ideal;
  node ← get_rn l;
  let ch := rc_Channel (ev_RadioCommData evt) in
  let cs := default (mkChannelStats ch 0 0 ∅ 0) (im_channelStats m !! ch) in
  let start := if bool_decide (cs_numTransmitters cs = ∅) then ev_Timestamp evt else cs_txStartTime cs in
  _ ← put_stats ch (mkChannelStats (cs_Channel cs) (cs_TxTimeUs cs) (u64 (cs_NumFrames cs + 1))
        ({[rn_Id node]} ∪ cs_numTransmitters cs) start);
  mod_rn l (fun node => let st := rn_stats node in RadioNode.set_stats (mkPhyStats
    (u64 (TxBytes st + u64 (Z.of_nat (length (ev_Data evt)) - 1 + PhyHeaderLenBytes)))
    (u64 (ps_TxTimeUs st + rc_Duration (ev_RadioCommData evt)))
    (ChanSampleCount st)) node).

Definition statsTxStop (l : nloc) (evt : Event) : st (radio_st M) () :=
  m ← ideal;
  node ← get_rn l;
  let ch := rc_Channel (ev_RadioCommData evt) in
  cs ← lift (assert_not_nil (im_channelStats m !! ch));
  _ ← lift (assert_true (bool_decide (cs_numTransmitters cs <> ∅)));
  let tx := cs_numTransmitters cs ∖ {[rn_Id node]} in
  let time := if bool_decide (tx = ∅)
    then u64 (cs_TxTimeUs cs + u64 (ev_Timestamp evt - cs_txStartTime cs)) else cs_TxTimeUs cs in
  put_stats ch (mkChannelStats (cs_Channel cs) time (cs_NumFrames cs) tx (cs_txStartTime cs)).

Definition statsDeleteNode (l : nloc) : st (radio_st M) () :=
  m ← ideal;
  node ← get_rn l;
  let ch := rn_RadioChannel node in
  match im_channelStats m !! ch with
  | None => mret tt
  | Some cs =>
    if bool_decide (cs_numTransmitters cs = ∅) then mret tt else
    let tx := cs_numTransmitters cs ∖ {[rn_Id node]} in
    let time := if bool_decide (tx = ∅)
      then u64 (cs_TxTimeUs cs + u64 (im_ts m - cs_txStartTime cs)) else cs_TxTimeUs cs in
    put_stats ch (mkChannelStats (cs_Channel cs) time (cs_NumFrames cs) tx (cs_txStartTime cs))
  end.

Definition statsChannelSampleStart (l : nloc) (evt : Event) : st (radio_st M) () :=
  mod_rn l (fun rn => let st := rn_stats rn in RadioNode.set_stats
    (mkPhyStats (TxBytes st) (ps_TxTimeUs st) (u64 (ChanSampleCount st + 1))) rn).

Definition handleRadioState (l : nloc) (evt : Event) : st (radio_st M) () :=
  let rs := ev_RadioStateData evt in
  _ ← mod_rn l (SetRadioState (rs_EnergyState rs) (rs_SubState rs));
  _ ← mod_rn_res l (SetChannel (rs_Channel rs));
  mod_rn l (SetRxSensitivity (f_of_Z (rs_RxSensDbm rs))).

Definition GetChannelStats (ch : ChannelId) : st (radio_st M) (option ChannelStats) :=
  m ← ideal;
  match im_channelStats m !! ch with
  | None => mret None
  | Some cs =>
    if bool_decide (cs_numTransmitters cs <> ∅) && (im_ts m >? cs_txStartTime cs)%Z then
      let cs := mkChannelStats (cs_Channel cs)
        (u64 (cs_TxTimeUs cs + (im_ts m - cs_txStartTime cs))) (cs_NumFrames cs)
        (cs_numTransmitters cs) (im_ts m) in
      _ ← put_stats ch cs; mret (Some cs)
    else mret (Some cs)
  end.

Definition ResetChannelStats (ch : ChannelId) : st (radio_st M) () :=
  mod_ideal (fun m => set_channelStats (delete ch (im_channelStats m)) m).

Definition GetNodePhyStats (id : NodeId) : st (radio_st M) PhyStats :=
  m ← ideal;
  l ← lift (deref (im_nodes m !! id));
  rn ← get_rn l;
  mret (rn_stats rn).

(** Every location of [im_nodes] is in the store. *)
Definition GetPhyStats : st (radio_st M) (gmap NodeId PhyStats) :=
  m ← ideal;
  s ← get;
  mret (omap (fun l => rn_stats <$> rs_nodes s !! l) (im_nodes m)).
End embedded.

(** *** Its own methods *)
Abbreviation IM := (st (radio_st RadioModelIdeal)) (only parsing).
Definition self (m : RadioModelIdeal) : RadioModelIdeal := m.
Definition self_upd (f : RadioModelIdeal -> RadioModelIdeal) : RadioModelIdeal -> RadioModelIdeal := f.

Definition AddNode (l : nloc) : IM () :=
  rn ← get_rn l;
  mod_model (fun m => set_nodes (<[rn_Id rn:=l]> (im_nodes m)) m).

Definition DeleteNode (id : NodeId) : IM () :=
  m ← model;
  l ← lift (deref (im_nodes m !! id));
  _ ← statsDeleteNode self self_upd l;
  mod_model (fun m => set_nodes (delete id (im_nodes m)) m).

Definition CheckRadioReachable (src dst : nloc) : IM bool :=
  if decide (src = dst) then mret false else
  s ← get_rn src;
  d ← get_rn dst;
  mret ((rn_RadioState d =? RadioRx)%Z && (rn_RadioChannel s =? rn_RadioChannel d)%Z &&
        (GetDistanceTo s d <=? rn_RadioRange s)%gf).

Definition GetTxRssi (src dst : nloc) : IM DbValue :=
  m ← model;
  s ← get_rn src;
  d ← get_rn dst;
  let p := im_params m in
  if (RssiMinDbm p <? RssiMaxDbm p)%gf then
    let rssi := computeIndoorRssiItu Log10 (GetDistanceTo s d) (rn_TxPower s) p in
    mret (if (rssi <? RssiMinDbm p)%gf then RssiMinDbm p
          else if (rssi >? RssiMaxDbm p)%gf then RssiMaxDbm p else rssi)
  else mret (RssiMaxDbm p).

Definition OnEventDispatch (src dst : nloc) (evt : Event) : IM (bool * Event) :=
  if ((ev_Type evt =? EventTypeRadioCommStart) || (ev_Type evt =? EventTypeRadioRxDone))%Z then
    rssi ← GetTxRssi src dst;
    mret (true, set_comm_PowerDbm (clipRssi rssi) evt)
  else if (ev_Type evt =? EventTypeRadioChannelSample)%Z then
    s ← get_rn src;
    mret (true, set_comm_PowerDbm (clipRssi (rn_rssiSampleMax s)) evt)
  else mret (true, evt).

Definition OnNextEventTime (ts : Z) : IM () := mod_model (set_ts ts).

Definition txStart (l : nloc) (evt : Event) : IM () :=
  let rc := ev_RadioCommData evt in
  _ ← mod_rn l (set_TxPower (f_of_Z (rc_PowerDbm rc)));
  _ ← mod_rn_res l (SetChannel (rc_Channel rc));
  _ ← when (rc_Error rc =? OT_ERROR_NONE)%Z (addEvent self (set_MustDispatch true
        (set_comm_Error OT_ERROR_NONE (set_Type EventTypeRadioCommStart (Copy evt)))));
  addEvent self (after (rc_Duration rc) (set_MustDispatch false (set_Type EventTypeRadioTxDone (Copy evt)))).

Definition txStop (l : nloc) (evt : Event) : IM () :=
  _ ← mod_rn l SetTxDone;
  _ ← addEvent self (set_MustDispatch true (set_Type EventTypeRadioTxDone (Copy evt)));
  when (rc_Error (ev_RadioCommData evt) =? OT_ERROR_NONE)%Z
    (addEvent self (set_MustDispatch true (set_Type EventTypeRadioRxDone (Copy evt)))).

Definition channelSampleStart (l : nloc) (evt : Event) : IM () :=
  let rc := ev_RadioCommData evt in
  _ ← mod_rn l (set_rssiSampleMax (f_of_Z RssiMinusInfinity));
  _ ← mod_rn_res l (SetChannel (rc_Channel rc));
  addEvent self (set_MustDispatch true (after (rc_Duration rc)
    (set_Type EventTypeRadioChannelSample (Copy evt)))).

Definition HandleEvent (l : nloc) (evt : Event) : IM () :=
  _ ← mod_model set_eventQ;
  let ty := ev_Type evt in
  if (ty =? EventTypeRadioCommStart)%Z then
    _ ← txStart l evt; statsTxStart self self_upd l evt
  else if (ty =? EventTypeRadioTxDone)%Z then
    _ ← txStop l evt; statsTxStop self self_upd l evt
  else if (ty =? EventTypeRadioChannelSample)%Z then
    _ ← channelSampleStart l evt; statsChannelSampleStart l evt
  else if (ty =? EventTypeRadioState)%Z then handleRadioState l evt
  else mret tt.
End ideal.
End Ideal.

(** ** The model with mutual interference *)
Module MutualInterference.
Section mi.
Context {env : RadioEnv}.

Record RadioModelMutualInterference := mkMI {
  mi_ideal : Ideal.RadioModelIdeal;
  mi_prevParams : RadioModelParams;
  mi_fading : fadingModel rng;
  mi_activeTransmitters : gmap ChannelId (gmap NodeId nloc);
  mi_activeChannelSamplers : gmap ChannelId (gmap NodeId nloc);
  mi_interferedBy : gmap NodeId (gmap NodeId nloc);
}.
Abbreviation MI := RadioModelMutualInterference (only parsing).
Abbreviation MM := (st (radio_st RadioModelMutualInterference)) (only parsing).

Definition upd_ideal (f : Ideal.RadioModelIdeal -> Ideal.RadioModelIdeal) (m : MI) : MI :=
  mkMI (f (mi_ideal m)) (mi_prevParams m) (mi_fading m) (mi_activeTransmitters m)
    (mi_activeChannelSamplers m) (mi_interferedBy m).
Definition set_prevParams (v : RadioModelParams) (m : MI) : MI :=
  mkMI (mi_ideal m) v (mi_fading m) (mi_activeTransmitters m)
    (mi_activeChannelSamplers m) (mi_interferedBy m).
Definition set_fading (v : fadingModel rng) (m : MI) : MI :=
  mkMI (mi_ideal m) (mi_prevParams m) v (mi_activeTransmitters m)
    (mi_activeChannelSamplers m) (mi_interferedBy m).
Definition set_active (tx smp : gmap ChannelId (gmap NodeId nloc)) (m : MI) : MI :=
  mkMI (mi_ideal m) (mi_prevParams m) (mi_fading m) tx smp (mi_interferedBy m).
Definition set_interferedBy (v : gmap NodeId (gmap NodeId nloc)) (m : MI) : MI :=
  mkMI (mi_ideal m) (mi_prevParams m) (mi_fading m) (mi_activeTransmitters m)
    (mi_activeChannelSamplers m) v.

Definition mi_params (m : MI) : RadioModelParams := Ideal.im_params (mi_ideal m).

(** One empty map per channel. *)
Definition empty_channels : gmap ChannelId (gmap NodeId nloc) :=
  list_to_map (map (fun c => (Z.of_nat c, ∅)) (seq 0 40)).

Definition init (name : string) (params prev : RadioModelParams) (fading : fadingModel rng) : MI :=
  mkMI (Ideal.init name params) prev fading empty_channels empty_channels ∅.

(** The entries of a map that may be nil, and the deletion of an entry: both are allowed
    on a nil map. *)
Definition entries (k : Z) (m : gmap Z (gmap NodeId nloc)) : gmap NodeId nloc := default ∅ (m !! k).
Definition delete_entry (k id : Z) (m : gmap Z (gmap NodeId nloc)) : gmap Z (gmap NodeId nloc) :=
  alter (delete id) k m.
(** Assigning an entry of a nil map panics. *)
Definition insert_entry (k id : Z) (l : nloc) (m : gmap Z (gmap NodeId nloc))
    : res (gmap Z (gmap NodeId nloc)) :=
  e ← deref (m !! k); Ok (<[k:=<[id:=l]> e]> m).

Definition addEvent : Event -> MM () := Ideal.addEvent mi_ideal.

Definition AddNode (l : nloc) : MM () :=
  rn ← get_rn l;
  _ ← mod_model (upd_ideal (fun i => Ideal.set_nodes (<[rn_Id rn:=l]> (Ideal.im_nodes i)) i));
  mod_model (fun m => set_interferedBy (<[rn_Id rn:=∅]> (mi_interferedBy m)) m).

Definition DeleteNode (id : NodeId) : MM () :=
  m ← model;
  l ← lift (deref (Ideal.im_nodes (mi_ideal m) !! id));
  _ ← Ideal.statsDeleteNode mi_ideal upd_ideal l;
  _ ← mod_model (upd_ideal (fun i => Ideal.set_nodes (delete id (Ideal.im_nodes i)) i));
  _ ← for_each (seq 0 40) (fun c => mod_model (fun m => set_active
        (delete_entry (Z.of_nat c) id (mi_activeTransmitters m))
        (delete_entry (Z.of_nat c) id (mi_activeChannelSamplers m)) m));
  mod_model (fun m => set_interferedBy (<[id:=∅]> (mi_interferedBy m)) m).

Definition GetTxRssi (src dst : nloc) : MM DbValue :=
  m ← model;
  s ← get_rn src;
  d ← get_rn dst;
  let p := mi_params m in
  let dist := GetDistanceTo s d in
  if IsDiscLimit p && (dist >? rn_RadioRange s)%gf then mret (f_of_Z RssiMinusInfinity)
  else if (RssiMinDbm p <? RssiMaxDbm p)%gf then
    let rssi := computeIndoorRssi3gpp Log10 dist (rn_TxPower s) p in
    rssi ← (if (ShadowFadingSigmaDb p >? 0)%gf || (TimeFadingSigmaMaxDb p >? 0)%gf then
              '(f, sf) ← lift (computeFading s d p (mi_fading m));
              _ ← mod_model (set_fading sf);
              mret (rssi - f)%gf
            else mret rssi);
    mret (if (rssi <? RssiMinDbm p)%gf then RssiMinDbm p
          else if (rssi >? RssiMaxDbm p)%gf then RssiMaxDbm p else rssi)
  else mret (RssiMaxDbm p).

Definition CheckRadioReachable (src dst : nloc) : MM bool :=
  if decide (src = dst) then mret false else
  m ← model;
  s ← get_rn src;
  d ← get_rn dst;
  let p := mi_params m in
  if negb (rn_RadioState d =? RadioRx)%Z || negb (rn_RadioChannel s =? rn_RadioChannel d)%Z then mret false
  else if IsDiscLimit p && (GetDistanceTo s d >? rn_RadioRange s)%gf then mret false else
  rssi ← GetTxRssi src dst;
  let floorDbm := (f_Max (rn_RxSensitivity d) (NoiseFloorDbm p) + SnrMinThresholdDb p)%gf in
  mret ((rssi >=? f_of_Z RssiMin)%gf && (rssi <=? f_of_Z RssiMax)%gf && (rssi >=? floorDbm)%gf).

Definition getRssiAmbientNoise (m : MI) : DbValue := NoiseFloorDbm (mi_params m).

(** The loop of [getRssiOnChannel] over the active transmitters. *)
Fixpoint rssi_loop (l : nloc) (tx : list (NodeId * nloc)) (rssiMax : DbValue) : MM DbValue :=
  match tx with
  | [] => mret rssiMax
  | (_, v) :: tx =>
    rssi ← GetTxRssi v l;
    if (rssi =? f_of_Z RssiInvalid)%gf then rssi_loop l tx rssiMax
    else rssi_loop l tx (addSignalPowersDbm Log10 Pow rssi rssiMax)
  end.
Definition getRssiOnChannel (l : nloc) (ch : ChannelId) : MM DbValue :=
  m ← model;
  rssi_loop l (range (entries ch (mi_activeTransmitters m))) (getRssiAmbientNoise m).

Definition log (ts : Z) (id : NodeId) (msg : list Z) : MM () :=
  addEvent (set_Data msg (set_NodeId id (set_Type EventTypeRadioLog (set_Timestamp ts zeroEvent)))).

(** The texts [hdr + msg] of the messages. *)
Definition bytes_of_string (s : string) : list Z :=
  map (fun c => Z.of_N (Ascii.N_of_ascii c)) (String.list_ascii_of_string s).
Definition log_hdr : list Z := bytes_of_string "(OTNS)       [T] RadioModelMI--: ".
Definition abort_msg : list Z :=
  log_hdr ++ bytes_of_string "Detected self-transmission of Node, set Rx OT_ERROR_ABORT".

(** The loop of [applyInterference]: [None] when the receiver itself transmitted. *)
Fixpoint interference_loop (dst : nloc) (intf : list (NodeId * nloc)) (powIntfMax : DbValue)
    : MM (option DbValue) :=
  match intf with
  | [] => mret (Some powIntfMax)
  | (_, interferer) :: intf =>
    if decide (interferer = dst) then mret None else
    powIntf ← GetTxRssi interferer dst;
    interference_loop dst intf (addSignalPowersDbm Log10 Pow powIntf powIntfMax)
  end.

(** [applyBerModel] with its random number, which is drawn only when the signal is near
    the interference. *)
Definition applyBer (sirDb : DbValue) (srcId : NodeId) (evt : Event) : MM (Event * option (list Z)) :=
  s ← get;
  '(evt', m) ← lift (applyBerModel Exp Pow (NewUnitRandom (rs_draws s)) sirDb evt);
  _ ← when (negb (sirDb <? -10)%gf && (sirDb <? 6)%gf)
        (modify (fun s => mkRadioSt (rs_nodes s) (rs_model s) (S (rs_draws s)) (rs_out s)));
  mret (evt', (fun '(p, nbits) => ber_log_text sirDb srcId (ev_NodeId evt) p (nbits / 8)%Z) <$> m).

Definition applyInterference (src dst : nloc) (evt : Event) : MM Event :=
  m ← model;
  s ← get_rn src;
  d ← get_rn dst;
  pow ← interference_loop dst (range (entries (rn_Id s) (mi_interferedBy m))) (getRssiAmbientNoise m);
  match pow with
  | None =>
    _ ← log (ev_Timestamp evt) (rn_Id d) abort_msg;
    mret (set_comm_Error OT_ERROR_ABORT evt)
  | Some powIntfMax =>
    rssi ← GetTxRssi src dst;
    '(evt, msg) ← applyBer (rssi - powIntfMax)%gf (rn_Id s) evt;
    _ ← match msg with
        | Some t => log (ev_Timestamp evt) (rn_Id d) (log_hdr ++ t)
        | None => mret tt
        end;
    mret evt
  end.

Definition OnEventDispatch (src dst : nloc) (evt : Event) : MM (bool * Event) :=
  if (ev_Type evt =? EventTypeRadioCommStart)%Z then
    rssi ← GetTxRssi src dst;
    mret (true, set_comm_PowerDbm (clipRssi rssi) evt)
  else if (ev_Type evt =? EventTypeRadioRxDone)%Z then
    rssi ← GetTxRssi src dst;
    evt ← applyInterference src dst (set_comm_PowerDbm (clipRssi rssi) evt);
    mret (true, evt)
  else if (ev_Type evt =? EventTypeRadioChannelSample)%Z then
    if (rc_Error (ev_RadioCommData evt) =? OT_ERROR_NONE)%Z then
      r ← getRssiOnChannel src (rc_Channel (ev_RadioCommData evt));
      s ← get_rn src;
      _ ← when (r >? rn_rssiSampleMax s)%gf (mod_rn src (set_rssiSampleMax r));
      s ← get_rn src;
      mret (true, set_comm_PowerDbm (clipRssi (rn_rssiSampleMax s)) evt)
    else mret (true, set_comm_PowerDbm RssiInvalid evt)
  else mret (true, evt).

Definition OnNextEventTime (ts : Z) : MM () :=
  _ ← mod_model (upd_ideal (Ideal.set_ts ts));
  mod_model (fun m => set_fading (onAdvanceTime ts (mi_fading m)) m).

Definition OnParametersModified : MM () :=
  m ← model;
  let p := mi_params m in
  let q := mi_prevParams m in
  _ ← when (negb (TimeFadingSigmaMaxDb q =? TimeFadingSigmaMaxDb p)%gf ||
            negb (ShadowFadingSigmaDb q =? ShadowFadingSigmaDb p)%gf ||
            negb (MeterPerUnit q =? MeterPerUnit p)%gf ||
            negb (MeanTimeFadingChange q =? MeanTimeFadingChange p)%gf)
        (mod_model (fun m => set_fading (clearCaches (mi_fading m)) m));
  mod_model (set_prevParams p).

Definition is_active (ch id : Z) (m : MI) : bool :=
  bool_decide (is_Some (entries ch (mi_activeTransmitters m) !! id)) ||
  bool_decide (is_Some (entries ch (mi_activeChannelSamplers m) !! id)).

Definition txStart (l : nloc) (evt : Event) : MM () :=
  let rc := ev_RadioCommData evt in
  let ch := rc_Channel rc in
  m ← model;
  node ← get_rn l;
  let id := rn_Id node in
  if is_active ch id m then
    addEvent (after 1 (set_MustDispatch true (set_comm_Error OT_ERROR_ABORT
      (set_Type EventTypeRadioTxDone (Copy evt)))))
  else
    _ ← mod_rn l (set_TxPower (f_of_Z (rc_PowerDbm rc)));
    _ ← mod_rn_res l (SetChannel ch);
    _ ← mod_model (fun m => set_interferedBy (<[id:=∅]> (mi_interferedBy m)) m);
    _ ← for_each (range (entries ch (mi_activeTransmitters m))) (fun '(i, intf) =>
          _ ← lift (assert_true (negb (i =? id)%Z));
          m ← model;
          b ← lift (insert_entry id i intf (mi_interferedBy m));
          b ← lift (insert_entry i id l b);
          mod_model (set_interferedBy b));
    m ← model;
    tx ← lift (insert_entry ch id l (mi_activeTransmitters m));
    _ ← mod_model (fun m => set_active tx (mi_activeChannelSamplers m) m);
    _ ← when (rc_Error rc =? OT_ERROR_NONE)%Z (addEvent (set_MustDispatch true
          (set_comm_Error OT_ERROR_NONE (set_Type EventTypeRadioCommStart (Copy evt)))));
    addEvent (after (rc_Duration rc) (set_MustDispatch false (set_Type EventTypeRadioTxDone (Copy evt)))).

Definition txStop (l : nloc) (evt : Event) : MM () :=
  _ ← mod_rn l SetTxDone;
  node ← get_rn l;
  let ch := rc_Channel (ev_RadioCommData evt) in
  let changed := negb (ch =? rn_RadioChannel node)%Z in
  _ ← when changed (mod_model (fun m => set_active
        (delete_entry (rn_RadioChannel node) (rn_Id node) (mi_activeTransmitters m))
        (mi_activeChannelSamplers m) m));
  _ ← mod_model (fun m => set_active (delete_entry ch (rn_Id node) (mi_activeTransmitters m))
        (mi_activeChannelSamplers m) m);
  _ ← addEvent (set_MustDispatch true (set_Type EventTypeRadioTxDone (Copy evt)));
  when (rc_Error (ev_RadioCommData evt) =? OT_ERROR_NONE)%Z
    (addEvent (set_MustDispatch true (set_comm_Error (if changed then OT_ERROR_FCS else OT_ERROR_NONE)
      (set_Type EventTypeRadioRxDone (Copy evt))))).

(** The loop of [updateChannelSamplingNodes]. *)
Definition updateChannelSamplingNodes (src : nloc) (evt : Event) : MM () :=
  _ ← lift (assert_true (ev_Type evt =? EventTypeRadioCommStart)%Z);
  m ← model;
  for_each (range (entries (rc_Channel (ev_RadioCommData evt)) (mi_activeChannelSamplers m)))
    (fun '(_, l) =>
      r ← GetTxRssi src l;
      when (negb (r =? f_of_Z RssiInvalid)%gf)
        (mod_rn l (fun rn => set_rssiSampleMax (addSignalPowersDbm Log10 Pow r (rn_rssiSampleMax rn)) rn))).

Definition channelSampleStart (l : nloc) (evt : Event) : MM () :=
  let ch := rc_Channel (ev_RadioCommData evt) in
  m ← model;
  node ← get_rn l;
  evt ← (if is_active ch (rn_Id node) m then mret (set_comm_Error OT_ERROR_ABORT evt)
         else
           _ ← mod_rn_res l (SetChannel ch);
           r ← getRssiOnChannel l ch;
           _ ← mod_rn l (set_rssiSampleMax r);
           mret evt);
  addEvent (set_MustDispatch true (after (rc_Duration (ev_RadioCommData evt))
    (set_Type EventTypeRadioChannelSample (Copy evt)))).

Definition HandleEvent (l : nloc) (evt : Event) : MM () :=
  _ ← mod_model (upd_ideal Ideal.set_eventQ);
  let ty := ev_Type evt in
  if (ty =? EventTypeRadioCommStart)%Z then
    _ ← txStart l evt;
    _ ← Ideal.statsTxStart mi_ideal upd_ideal l evt;
    updateChannelSamplingNodes l evt
  else if (ty =? EventTypeRadioTxDone)%Z then
    _ ← txStop l evt; Ideal.statsTxStop mi_ideal upd_ideal l evt
  else if (ty =? EventTypeRadioChannelSample)%Z then
    _ ← channelSampleStart l evt; Ideal.statsChannelSampleStart l evt
  else if (ty =? EventTypeRadioState)%Z then Ideal.handleRadioState l evt
  else mret tt.
End mi.
End MutualInterference.

(** ** Instances and construction *)
Section instances.
Context {env : RadioEnv}.

Inductive AnyRadioModel :=
| IsIdeal (m : Ideal.RadioModelIdeal)
| IsMutualInterference (m : MutualInterference.RadioModelMutualInterference).

(** [nil] for an unknown name.  [rndSeed] is the number [prng.NewRadioModelRandomSeed]
    returns. *)
Definition NewRadioModel (modelName : string) (rndSeed : Z) : option AnyRadioModel :=
  let is_one_of := existsb (String.eqb modelName) in
  let p := newRadioModelParams in
  let fading := newFadingModel (rng := rng) rndSeed in
  let zeroParams := mkRadioModelParams 0 false 0 0 0 0 0 0 0 0 0 0 0 in
  if is_one_of ["Ideal"; "I"; "1"] then
    Some (IsIdeal (Ideal.init "Ideal" (set_rssi_bounds (-60)%float (-60)%float (set_disc true p))))
  else if is_one_of ["Ideal_Rssi"; "IR"; "2"; "default"] then
    Some (IsIdeal (Ideal.init "Ideal_Rssi" (set_disc true (setIndoorModelParamsItu Log10 p))))
  else if is_one_of ["MutualInterference"; "MI"; "M"; "3"] then
    Some (IsMutualInterference (MutualInterference.init "MutualInterference"
      (setIndoorModelParams3gpp Log10 p) p fading))
  else if is_one_of ["MIDisc"; "MID"; "4"] then
    Some (IsMutualInterference (MutualInterference.init "MIDisc"
      (set_disc true (setIndoorModelParams3gpp Log10 p)) zeroParams fading))
  else if is_one_of ["Outdoor"; "5"] then
    Some (IsMutualInterference (MutualInterference.init "Outdoor"
      (setOutdoorModelParams Log10 p) zeroParams fading))
  else None.

#[export] Instance ideal_model : RadioModel Ideal.RadioModelIdeal := {|
  rm_AddNode := Ideal.AddNode; rm_DeleteNode := Ideal.DeleteNode;
  rm_CheckRadioReachable := Ideal.CheckRadioReachable; rm_GetTxRssi := Ideal.GetTxRssi;
  rm_OnEventDispatch := Ideal.OnEventDispatch; rm_OnNextEventTime := Ideal.OnNextEventTime;
  rm_HandleEvent := Ideal.HandleEvent; rm_OnParametersModified := mret tt;
  rm_GetChannelStats := Ideal.GetChannelStats Ideal.self Ideal.self_upd;
  rm_ResetChannelStats := Ideal.ResetChannelStats Ideal.self_upd;
  rm_GetNodePhyStats := Ideal.GetNodePhyStats Ideal.self; rm_GetPhyStats := Ideal.GetPhyStats Ideal.self;
  rm_GetName := Ideal.im_name; rm_GetParameters := Ideal.im_params; rm_SetParameters := Ideal.set_params;
  rm_New name seed := match NewRadioModel name seed with Some (IsIdeal m) => Some m | _ => None end;
|}.

#[export] Instance mi_model : RadioModel MutualInterference.RadioModelMutualInterference := {|
  rm_AddNode := MutualInterference.AddNode; rm_DeleteNode := MutualInterference.DeleteNode;
  rm_CheckRadioReachable := MutualInterference.CheckRadioReachable;
  rm_GetTxRssi := MutualInterference.GetTxRssi;
  rm_OnEventDispatch := MutualInterference.OnEventDispatch;
  rm_OnNextEventTime := MutualInterference.OnNextEventTime;
  rm_HandleEvent := MutualInterference.HandleEvent;
  rm_OnParametersModified := MutualInterference.OnParametersModified;
  rm_GetChannelStats := Ideal.GetChannelStats MutualInterference.mi_ideal MutualInterference.upd_ideal;
  rm_ResetChannelStats := Ideal.ResetChannelStats MutualInterference.upd_ideal;
  rm_GetNodePhyStats := Ideal.GetNodePhyStats MutualInterference.mi_ideal;
  rm_GetPhyStats := Ideal.GetPhyStats MutualInterference.mi_ideal;
  rm_GetName m := Ideal.im_name (MutualInterference.mi_ideal m);
  rm_GetParameters := MutualInterference.mi_params;
  rm_SetParameters p := MutualInterference.upd_ideal (Ideal.set_params p);
  rm_New name seed := match NewRadioModel name seed with Some (IsMutualInterference m) => Some m | _ => None end;
|}.

(** Any of the models: an operation is that of the model at hand. *)
Definition on_model {A T} (inj : A -> AnyRadioModel) (m : A) (c : st (radio_st A) T) : st (radio_st AnyRadioModel) T :=
  fun s =>
    match c (mkRadioSt (rs_nodes s) m (rs_draws s) (rs_out s)) with
    | Ok (a, r) => Ok (a, mkRadioSt (rs_nodes r) (inj (rs_model r)) (rs_draws r) (rs_out r))
    | Panic p => Panic p
    end.
Definition on_any {T} (c : forall M, RadioModel M -> st (radio_st M) T) : st (radio_st AnyRadioModel) T :=
  fun s =>
    match rs_model s with
    | IsIdeal m => on_model IsIdeal m (c _ ideal_model) s
    | IsMutualInterference m => on_model IsMutualInterference m (c _ mi_model) s
    end.
#[export] Instance any_model : RadioModel AnyRadioModel := {|
  rm_AddNode l := on_any (fun _ _ => rm_AddNode l);
  rm_DeleteNode id := on_any (fun _ _ => rm_DeleteNode id);
  rm_CheckRadioReachable src dst := on_any (fun _ _ => rm_CheckRadioReachable src dst);
  rm_GetTxRssi src dst := on_any (fun _ _ => rm_GetTxRssi src dst);
  rm_OnEventDispatch src dst evt := on_any (fun _ _ => rm_OnEventDispatch src dst evt);
  rm_OnNextEventTime ts := on_any (fun _ _ => rm_OnNextEventTime ts);
  rm_HandleEvent l evt := on_any (fun _ _ => rm_HandleEvent l evt);
  rm_OnParametersModified := on_any (fun _ _ => rm_OnParametersModified);
  rm_GetChannelStats ch := on_any (fun _ _ => rm_GetChannelStats ch);
  rm_ResetChannelStats ch := on_any (fun _ _ => rm_ResetChannelStats ch);
  rm_GetNodePhyStats id := on_any (fun _ _ => rm_GetNodePhyStats id);
  rm_GetPhyStats := on_any (fun _ _ => rm_GetPhyStats);
  rm_GetName m := match m with IsIdeal m => rm_GetName m | IsMutualInterference m => rm_GetName m end;
  rm_GetParameters m := match m with IsIdeal m => rm_GetParameters m | IsMutualInterference m => rm_GetParameters m end;
  rm_SetParameters p m :=
    match m with IsIdeal m => IsIdeal (rm_SetParameters p m) | IsMutualInterference m => IsMutualInterference (rm_SetParameters p m) end;
  rm_New := NewRadioModel;
|}.
End instances.

(** ** Exchanging the model

    The nodes leave the old model and join the new one, one after the other. *)
Section transfer.
Context {M : Type} `{!RadioModel M}.
Fixpoint transfer (nodes : list (NodeId * nloc)) (new : M) : st (radio_st M) () :=
  match nodes with
  | [] => mod_model (fun _ => new)
  | (id, l) :: nodes =>
    _ ← rm_DeleteNode id;
    old ← model;
    _ ← mod_model (fun _ => new);
    _ ← rm_AddNode l;
    new ← model;
    _ ← mod_model (fun _ => old);
    transfer nodes new
  end.
(** Parameters are assigned, and the model is told if they changed. *)
Definition modify_params (p : RadioModelParams) (isChanged : bool) : st (radio_st M) () :=
  _ ← mod_model (rm_SetParameters p);
  when isChanged rm_OnParametersModified.
End transfer.
