(* ===== verification/RadioLaws.v ===== *)
(** * What radio models promise

    The promises of the [RadioModel] interface that the dispatcher relies on, as a class
    of laws, proved for the ideal model and for the model with mutual interference; and
    the properties of each model. *)

From S2P Require Import Prelude State Types Event GoFloat RadioNode RadioModel.

(** An event that a model schedules while it handles [evt]. *)
Definition derived (evt e : Event) : Prop :=
  ev_NodeId e = ev_NodeId evt /\ ev_Delay e = ev_Delay evt /\
  rc_Duration (ev_RadioCommData e) = rc_Duration (ev_RadioCommData evt) /\
  (ev_Timestamp e = ev_Timestamp evt \/
   ev_Timestamp e = u64 (ev_Timestamp evt + 1) \/
   ev_Timestamp e = u64 (ev_Timestamp evt + rc_Duration (ev_RadioCommData evt)))%Z.

(** A log line that a model writes while it lets [evt] be dispatched. *)
Definition log_of (evt e : Event) : Prop :=
  ev_Type e = EventTypeRadioLog /\ ev_MustDispatch e = false /\ ev_Timestamp e = ev_Timestamp evt /\
  ev_Delay e = 0%Z /\ rc_Duration (ev_RadioCommData e) = 0%Z.

(** The fields of an event that dispatching leaves alone. *)
Definition same_envelope (a b : Event) : Prop :=
  ev_NodeId a = ev_NodeId b /\ ev_Timestamp a = ev_Timestamp b /\ ev_Type a = ev_Type b /\
  ev_MustDispatch a = ev_MustDispatch b /\ ev_MsgId a = ev_MsgId b /\ ev_Conn a = ev_Conn b.

(** From [s], only events of kind [Φ] were added and no radio node appeared or vanished. *)
Definition extends {M} (Φ : Event -> Prop) (s s' : radio_st M) : Prop :=
  dom (rs_nodes s') = dom (rs_nodes s) /\ exists new, rs_out s' = rs_out s ++ new /\ Forall Φ new.

(** What the dispatcher requires of a node before it hands it a frame. *)
Definition can_receive {M} (s : radio_st M) (src dst : nloc) : Prop :=
  src <> dst /\ exists a b, rs_nodes s !! src = Some a /\ rs_nodes s !! dst = Some b /\
    rn_RadioState b = RadioRx /\ rn_RadioChannel a = rn_RadioChannel b.

Class RadioModelLaws (M : Type) `{!RadioModel M} := {
  law_HandleEvent l evt s u s' :
    rm_HandleEvent l evt s = Ok (u, s') -> extends (derived evt) s s';
  law_OnEventDispatch src dst evt s b evt' s' :
    rm_OnEventDispatch src dst evt s = Ok ((b, evt'), s') ->
    extends (log_of evt) s s' /\ same_envelope evt' evt;
  law_CheckRadioReachable src dst s b s' :
    rm_CheckRadioReachable src dst s = Ok (b, s') ->
    rs_out s' = rs_out s /\ rs_nodes s' = rs_nodes s /\ (b = true -> can_receive s src dst);
  law_OnNextEventTime ts s u s' :
    rm_OnNextEventTime ts s = Ok (u, s') -> rs_out s' = rs_out s /\ rs_nodes s' = rs_nodes s;
  law_AddNode l s u s' :
    rm_AddNode l s = Ok (u, s') -> rs_out s' = rs_out s /\ rs_nodes s' = rs_nodes s;
  law_DeleteNode id s u s' :
    rm_DeleteNode id s = Ok (u, s') -> rs_out s' = rs_out s /\ rs_nodes s' = rs_nodes s;
  law_GetPhyStats s m s' :
    rm_GetPhyStats s = Ok (m, s') -> rs_out s' = rs_out s /\ rs_nodes s' = rs_nodes s;
  law_GetChannelStats ch s o s' :
    rm_GetChannelStats ch s = Ok (o, s') -> rs_out s' = rs_out s /\ rs_nodes s' = rs_nodes s;
  law_ResetChannelStats ch s u s' :
    rm_ResetChannelStats ch s = Ok (u, s') -> rs_out s' = rs_out s /\ rs_nodes s' = rs_nodes s;
  law_OnParametersModified s u s' :
    rm_OnParametersModified s = Ok (u, s') -> rs_out s' = rs_out s /\ rs_nodes s' = rs_nodes s /\
      rm_GetParameters (rs_model s') = rm_GetParameters (rs_model s);
  law_SetParameters p m : rm_GetParameters (rm_SetParameters p m) = p;
}.

(** ** Rules for the store *)
Section store_rules.
Context {M : Type} (Φ : Event -> Prop) (s0 : radio_st M).

Lemma extends_refl : extends Φ s0 s0.
Proof. split; [done|]. exists []. by rewrite app_nil_r. Qed.

Lemma pres_get_rn l : preserves (extends Φ s0) (get_rn l).
Proof. unfold get_rn. pres. Qed.

Lemma pres_mod_rn l f : preserves (extends Φ s0) (mod_rn l f).
Proof.
  intros s u s' [HD HN] E. unfold mod_rn, get_rn, get, put_rn, modify, lift, mbind, st_bind in E.
  destruct (rs_nodes s !! l) eqn:El; simpl in E; simplify_eq. split; [|done]. simpl.
  rewrite dom_insert_lookup_L; [done|by eexists].
Qed.

Lemma pres_mod_rn_res l f : preserves (extends Φ s0) (mod_rn_res l f).
Proof.
  intros s u s' [HD HN] E. unfold mod_rn_res, get_rn, get, put_rn, modify, lift, mbind, st_bind in E.
  destruct (rs_nodes s !! l) eqn:El; simpl in E; [|done]. destruct (f r); simplify_eq.
  split; [|done]. simpl. rewrite dom_insert_lookup_L; [done|by eexists].
Qed.

Lemma pres_model : preserves (extends Φ s0) model.
Proof. apply pres_gets. Qed.

Lemma pres_mod_model f : preserves (extends Φ s0) (mod_model f).
Proof. apply hoare_modify. done. Qed.

Lemma pres_emit e : Φ e -> preserves (extends Φ s0) (emit e).
Proof.
  intros He. apply hoare_modify. intros s (HD & new & HN & HF). split; [done|].
  exists (new ++ [e]). simpl. rewrite HN, <- app_assoc. split; [done|]. by apply Forall_app_2; [|constructor].
Qed.
End store_rules.
#[export] Hint Resolve pres_get_rn pres_mod_rn pres_mod_rn_res pres_model pres_mod_model pres_emit : hoare.

(** An operation that keeps [extends] from every state has it from its own start. *)
Lemma extends_from {M A} (Φ : Event -> Prop) (m : st (radio_st M) A) s a s' :
  (forall s0, preserves (extends Φ s0) m) -> m s = Ok (a, s') -> extends Φ s s'.
Proof. intros H E. eapply (H s); [apply extends_refl|done]. Qed.

Section embedded_rules.
Context {env : RadioEnv} {M : Type} (sub : M -> Ideal.RadioModelIdeal)
  (upd : (Ideal.RadioModelIdeal -> Ideal.RadioModelIdeal) -> M -> M) (Φ : Event -> Prop) (s0 : radio_st M).

Lemma pres_ideal : preserves (extends Φ s0) (Ideal.ideal sub).
Proof. unfold Ideal.ideal. pres. Qed.
Lemma pres_mod_ideal f : preserves (extends Φ s0) (Ideal.mod_ideal upd f).
Proof. apply pres_mod_model. Qed.
Lemma pres_put_stats ch cs : preserves (extends Φ s0) (Ideal.put_stats upd ch cs).
Proof. apply pres_mod_model. Qed.
#[local] Hint Resolve pres_ideal pres_mod_ideal pres_put_stats : hoare.

Lemma pres_addEvent e : Φ e -> preserves (extends Φ s0) (Ideal.addEvent sub e).
Proof. intros H. unfold Ideal.addEvent. pres. Qed.
Lemma pres_statsTxStart l evt : preserves (extends Φ s0) (Ideal.statsTxStart sub upd l evt).
Proof. unfold Ideal.statsTxStart. pres. Qed.
Lemma pres_statsTxStop l evt : preserves (extends Φ s0) (Ideal.statsTxStop sub upd l evt).
Proof. unfold Ideal.statsTxStop. pres. Qed.
Lemma pres_statsDeleteNode l : preserves (extends Φ s0) (Ideal.statsDeleteNode sub upd l).
Proof. unfold Ideal.statsDeleteNode. pres. Qed.
Lemma pres_statsChannelSampleStart l evt :
  preserves (extends Φ s0) (Ideal.statsChannelSampleStart l evt).
Proof. unfold Ideal.statsChannelSampleStart. pres. Qed.
Lemma pres_handleRadioState l evt : preserves (extends Φ s0) (Ideal.handleRadioState l evt).
Proof. unfold Ideal.handleRadioState. pres. Qed.
End embedded_rules.
#[export] Hint Resolve pres_ideal pres_mod_ideal pres_put_stats pres_addEvent pres_statsTxStart
  pres_statsTxStop pres_statsDeleteNode pres_statsChannelSampleStart pres_handleRadioState : hoare.

(** Events made from [evt] by copying it and changing its radio fields. *)
Ltac solve_derived := unfold derived, after; simpl; repeat (split; [done|]); tauto.
#[export] Hint Extern 1 (derived _ _) => solve_derived : hoare.

(** ** Operations that change neither the queue nor a radio node *)
Definition quiet {M} (s s' : radio_st M) : Prop := rs_out s' = rs_out s /\ rs_nodes s' = rs_nodes s.

Lemma quiet_from {M A} (m : st (radio_st M) A) s a s' :
  (forall s0, preserves (quiet s0) m) -> m s = Ok (a, s') -> quiet s s'.
Proof. intros H E. by eapply (H s). Qed.

Section quiet_rules.
Context {env : RadioEnv} {M : Type} (sub : M -> Ideal.RadioModelIdeal)
  (upd : (Ideal.RadioModelIdeal -> Ideal.RadioModelIdeal) -> M -> M) (s0 : radio_st M).

Lemma quiet_get_rn l : preserves (quiet s0) (get_rn l).
Proof. unfold get_rn. pres. Qed.
Lemma quiet_model : preserves (quiet s0) model.
Proof. apply pres_gets. Qed.
Lemma quiet_mod_model f : preserves (quiet s0) (mod_model f).
Proof. apply hoare_modify. done. Qed.
#[local] Hint Resolve quiet_get_rn quiet_model quiet_mod_model : hoare.
Lemma quiet_ideal : preserves (quiet s0) (Ideal.ideal sub).
Proof. unfold Ideal.ideal. pres. Qed.
Lemma quiet_put_stats ch cs : preserves (quiet s0) (Ideal.put_stats upd ch cs).
Proof. apply quiet_mod_model. Qed.
#[local] Hint Resolve quiet_ideal quiet_put_stats : hoare.
Lemma quiet_statsDeleteNode l : preserves (quiet s0) (Ideal.statsDeleteNode sub upd l).
Proof. unfold Ideal.statsDeleteNode. pres. Qed.
End quiet_rules.
#[export] Hint Resolve quiet_get_rn quiet_model quiet_mod_model quiet_ideal quiet_put_stats
  quiet_statsDeleteNode : hoare.

Lemma quiet_extends {M} Φ (s s' : radio_st M) : quiet s s' -> extends Φ s s'.
Proof. intros [H1 H2]. split; [by rewrite H2|]. exists []. by rewrite H1, app_nil_r. Qed.

Lemma extends_trans {M} Φ (a b c : radio_st M) : extends Φ a b -> extends Φ b c -> extends Φ a c.
Proof.
  intros (D1 & n1 & E1 & F1) (D2 & n2 & E2 & F2). split; [congruence|]. exists (n1 ++ n2).
  split; [by rewrite E2, E1, app_assoc|by apply Forall_app_2].
Qed.

(** A quiet operation keeps [extends]. *)
Lemma extends_of_quiet {M A} (m : st (radio_st M) A) Φ :
  (forall s0, preserves (quiet s0) m) -> forall s0, preserves (extends Φ s0) m.
Proof.
  intros H s0 s a s' Hs E. eapply extends_trans; [exact Hs|]. eapply quiet_extends, quiet_from; done.
Qed.

(** ** The ideal model keeps its promises *)
Section ideal_laws.
Context {env : RadioEnv}.

Lemma quiet_Ideal_GetTxRssi src dst s0 : preserves (quiet s0) (Ideal.GetTxRssi src dst).
Proof. unfold Ideal.GetTxRssi. pres. Qed.
#[local] Hint Resolve quiet_Ideal_GetTxRssi : hoare.

Lemma Ideal_HandleEvent_extends l evt s0 : preserves (extends (derived evt) s0) (Ideal.HandleEvent l evt).
Proof.
  unfold Ideal.HandleEvent, Ideal.txStart, Ideal.txStop, Ideal.channelSampleStart. pres.
Qed.

Lemma Ideal_OnEventDispatch_quiet src dst evt s0 :
  preserves (quiet s0) (Ideal.OnEventDispatch src dst evt).
Proof. unfold Ideal.OnEventDispatch. pres. Qed.

(** The result of dispatching keeps the envelope of the event. *)
Lemma Ideal_OnEventDispatch_envelope src dst evt :
  hoare (fun _ => True) (Ideal.OnEventDispatch src dst evt) (fun r _ => same_envelope (snd r) evt).
Proof.
  unfold Ideal.OnEventDispatch. repeat case_match;
  try (eapply hoare_bind; [intros ? ? ? _ _; exact I|]; intros ?);
  intros s r s' _ E; unfold mret, st_ret in E; simplify_eq; done.
Qed.

Lemma get_rn_Ok {M} l (s : radio_st M) rn s' :
  get_rn l s = Ok (rn, s') <-> rs_nodes s !! l = Some rn /\ s' = s.
Proof.
  unfold get_rn, get, lift, mbind, st_bind. destruct (rs_nodes s !! l); simpl; split; naive_solver.
Qed.

#[export] Instance ideal_laws : RadioModelLaws Ideal.RadioModelIdeal.
Proof.
  split; simpl.
  - intros. eapply extends_from; [|done]. intros. apply Ideal_HandleEvent_extends.
  - intros src dst evt s b evt' s' E. split.
    + eapply quiet_extends, quiet_from; [|done]. intros. apply Ideal_OnEventDispatch_quiet.
    + by apply (Ideal_OnEventDispatch_envelope src dst evt s (b, evt') s').
  - intros src dst s b s' E. unfold Ideal.CheckRadioReachable in E. case_decide.
    + unfold mret, st_ret in E. by simplify_eq.
    + apply bind_st_Ok in E as (a & s1 & [Ea ->]%get_rn_Ok & E).
      apply bind_st_Ok in E as (d & s1 & [Ed ->]%get_rn_Ok & E).
      unfold mret, st_ret in E. simplify_eq. split; [done|]. split; [done|].
      intros H1. apply andb_true_iff in H1 as [[H1%Z.eqb_eq H2%Z.eqb_eq]%andb_true_iff _].
      split; [done|]. by exists a, d.
  - intros ts s u s' E. eapply (quiet_from (Ideal.OnNextEventTime ts)); [|done].
    intros. apply quiet_mod_model.
  - intros l s u s' E. eapply (quiet_from (Ideal.AddNode l)); [|done].
    intros. unfold Ideal.AddNode. pres.
  - intros id s u s' E. eapply (quiet_from (Ideal.DeleteNode id)); [|done].
    intros. unfold Ideal.DeleteNode. pres.
  - intros s m s' E. eapply (quiet_from (Ideal.GetPhyStats Ideal.self)); [|done].
    intros. unfold Ideal.GetPhyStats. pres.
  - intros ch s o s' E. eapply (quiet_from (Ideal.GetChannelStats Ideal.self Ideal.self_upd ch)); [|done].
    intros. unfold Ideal.GetChannelStats, Ideal.put_stats. pres.
  - intros ch s u s' E. eapply (quiet_from (Ideal.ResetChannelStats Ideal.self_upd ch)); [|done].
    intros. unfold Ideal.ResetChannelStats. pres.
  - intros s u s' [_ <-]%ret_st_Ok. done.
  - done.
Qed.
End ideal_laws.

(** ** The model with mutual interference keeps its promises *)
Section mi_laws.
Context {env : RadioEnv}.
Import MutualInterference.

Lemma quiet_GetTxRssi src dst s0 : preserves (quiet s0) (GetTxRssi src dst).
Proof. unfold GetTxRssi. pres. Qed.
#[local] Hint Resolve quiet_GetTxRssi : hoare.
Lemma extends_GetTxRssi src dst Φ s0 : preserves (extends Φ s0) (GetTxRssi src dst).
Proof. apply extends_of_quiet, quiet_GetTxRssi. Qed.
#[local] Hint Resolve extends_GetTxRssi : hoare.

Lemma extends_rssi_loop l tx r Φ s0 : preserves (extends Φ s0) (rssi_loop l tx r).
Proof. revert r. induction tx as [|[i v] tx IH]; intros r; cbn [rssi_loop]; pres. Qed.
#[local] Hint Resolve extends_rssi_loop : hoare.
Lemma extends_getRssiOnChannel l ch Φ s0 : preserves (extends Φ s0) (getRssiOnChannel l ch).
Proof. unfold getRssiOnChannel. pres. Qed.
#[local] Hint Resolve extends_getRssiOnChannel : hoare.
Lemma extends_interference_loop dst intf p Φ s0 :
  preserves (extends Φ s0) (interference_loop dst intf p).
Proof. revert p. induction intf as [|[i v] intf IH]; intros p; cbn [interference_loop]; pres. Qed.
#[local] Hint Resolve extends_interference_loop : hoare.

Lemma extends_applyBer sir id evt Φ s0 : preserves (extends Φ s0) (applyBer sir id evt).
Proof.
  unfold applyBer. pres. apply hoare_modify. done.
Qed.
#[local] Hint Resolve extends_applyBer : hoare.

Lemma extends_channelSampleStart l evt s0 :
  preserves (extends (derived evt) s0) (channelSampleStart l evt).
Proof.
  unfold channelSampleStart, addEvent. apply pres_bind; [pres|intros m].
  apply pres_bind; [pres|intros node].
  apply hoare_bind with (R := fun e s => extends (derived evt) s0 s /\
    (e = evt \/ e = set_comm_Error OT_ERROR_ABORT evt)).
  - destruct (is_active _ _ _).
    + intros s e s' Hs E. unfold mret, st_ret in E. simplify_eq. auto.
    + apply hoare_and; [pres|]. intros s e s' _ E.
      apply bind_st_Ok in E as (? & ? & _ & E). apply bind_st_Ok in E as (? & ? & _ & E).
      apply bind_st_Ok in E as (? & ? & _ & E). unfold mret, st_ret in E. simplify_eq. auto.
  - intros e s u s' [Hs He] E.
    eapply (pres_addEvent mi_ideal (derived evt) s0); [|exact Hs|exact E].
    destruct He as [->| ->]; solve_derived.
Qed.
#[local] Hint Resolve extends_channelSampleStart : hoare.

Lemma MI_HandleEvent_extends l evt s0 : preserves (extends (derived evt) s0) (HandleEvent l evt).
Proof.
  unfold HandleEvent, txStart, txStop, updateChannelSamplingNodes, addEvent. pres.
Qed.

(** Dispatching writes at most log lines. *)
Lemma extends_log evt ts id msg s0 :
  ts = ev_Timestamp evt -> preserves (extends (log_of evt) s0) (log ts id msg).
Proof. intros ->. unfold log, addEvent. apply pres_addEvent. done. Qed.

Lemma applyBer_envelope sir id evt :
  hoare (fun _ => True) (applyBer sir id evt) (fun r _ => same_envelope (fst r) evt).
Proof.
  intros s [e m] s' _ E. unfold applyBer in E.
  apply bind_st_Ok in E as (s1 & s2 & _ & E). apply bind_st_Ok in E as ([e1 m1] & s3 & E1 & E).
  apply bind_st_Ok in E as (? & ? & _ & E). unfold mret, st_ret in E. simplify_eq. simpl.
  unfold lift in E1. case_match eqn:EB; simplify_eq. unfold applyBerModel in EB.
  destruct (if (sir <? -10)%gf then _ else _) as [[p nb] rnd]. destruct (_ && _).
  - apply bind_Ok in EB as (data & _ & EB). by simplify_eq.
  - by simplify_eq.
Qed.

Lemma applyInterference_law src dst evt s0 :
  hoare (extends (log_of evt) s0) (applyInterference src dst evt)
    (fun e s => extends (log_of evt) s0 s /\ same_envelope e evt).
Proof.
  unfold applyInterference.
  do 3 (eapply hoare_bind; [solve [pres]|intros ?]).
  eapply hoare_bind; [solve [pres]|intros [pow|]].
  - eapply hoare_bind; [solve [pres]|intros rssi].
    apply hoare_bind with (R := fun r s => extends (log_of evt) s0 s /\ same_envelope (fst r) evt).
    + intros s r s' Hs E. split; [by eapply extends_applyBer|by eapply applyBer_envelope].
    + intros [e msg] s u s' [Hs He] E. simpl in He. apply bind_st_Ok in E as (? & s2 & E2 & E).
      unfold mret, st_ret in E. simplify_eq. split; [|done]. destruct msg as [t|].
      * eapply (extends_log evt); [by apply He|exact Hs|exact E2].
      * unfold mret, st_ret in E2. by simplify_eq.
  - intros s e s' Hs E. apply bind_st_Ok in E as (? & s2 & E2 & E).
    st_inv. subst. split; [|done]. by eapply (extends_log evt).
Qed.

Lemma MI_OnEventDispatch_law src dst evt s0 :
  hoare (extends (log_of evt) s0) (OnEventDispatch src dst evt)
    (fun r s => extends (log_of evt) s0 s /\ same_envelope (snd r) evt).
Proof.
  unfold OnEventDispatch. repeat case_match.
  - eapply hoare_bind; [solve [pres]|intros rssi]. intros s e s' Hs E.
    unfold mret, st_ret in E. by simplify_eq.
  - eapply hoare_bind; [solve [pres]|intros rssi]. intros s r s' Hs E.
    apply bind_st_Ok in E as (e & s1 & E1 & E). unfold mret, st_ret in E. simplify_eq. simpl.
    by apply (applyInterference_law src dst (set_comm_PowerDbm (clipRssi rssi) evt) s0 s e s').
  - apply hoare_and; [pres|]. intros s r s' _ E.
    repeat (apply bind_st_Ok in E as (? & ? & _ & E)). unfold mret, st_ret in E. by simplify_eq.
  - intros s e s' Hs E. unfold mret, st_ret in E. by simplify_eq.
  - intros s e s' Hs E. unfold mret, st_ret in E. by simplify_eq.
Qed.

#[export] Instance mi_laws : RadioModelLaws RadioModelMutualInterference.
Proof.
  split; simpl.
  - intros. eapply extends_from; [|done]. intros. apply MI_HandleEvent_extends.
  - intros src dst evt s b evt' s' E.
    eapply (MI_OnEventDispatch_law src dst evt s s (b, evt') s'); [apply extends_refl|done].
  - intros src dst s b s' E.
    assert (quiet s s') as [HQ1 HQ2].
    { eapply (quiet_from (CheckRadioReachable src dst)); [|done]. intros s0.
      unfold CheckRadioReachable. pres. }
    split; [done|]. split; [done|]. intros ->. unfold CheckRadioReachable in E. case_decide; [done|].
    apply bind_st_Ok in E as (m & s1 & [_ <-]%gets_st_Ok & E).
    apply bind_st_Ok in E as (a & s2 & [Ea ->]%get_rn_Ok & E).
    apply bind_st_Ok in E as (d & s2 & [Ed ->]%get_rn_Ok & E).
    destruct (Z.eqb_spec (rn_RadioState d) RadioRx); [|done].
    destruct (Z.eqb_spec (rn_RadioChannel a) (rn_RadioChannel d)); [|done].
    split; [done|]. by exists a, d.
  - intros ts s u s' E. eapply (quiet_from (OnNextEventTime ts)); [|done].
    intros. unfold OnNextEventTime. pres.
  - intros l s u s' E. eapply (quiet_from (AddNode l)); [|done]. intros. unfold AddNode. pres.
  - intros id s u s' E. eapply (quiet_from (DeleteNode id)); [|done]. intros. unfold DeleteNode. pres.
  - intros s m s' E. eapply (quiet_from (Ideal.GetPhyStats mi_ideal)); [|done].
    intros. unfold Ideal.GetPhyStats. pres.
  - intros ch s o s' E. eapply (quiet_from (Ideal.GetChannelStats mi_ideal upd_ideal ch)); [|done].
    intros. unfold Ideal.GetChannelStats, Ideal.put_stats. pres.
  - intros ch s u s' E. eapply (quiet_from (Ideal.ResetChannelStats upd_ideal ch)); [|done].
    intros. unfold Ideal.ResetChannelStats. pres.
  - intros s u s' E. apply and_assoc. split; [eapply (quiet_from OnParametersModified); [|done]; intros; unfold OnParametersModified; pres|].
    unfold OnParametersModified in E. apply bind_st_Ok in E as (m & s1 & [_ <-]%gets_st_Ok & E).
    apply bind_st_Ok in E as ([] & s2 & E2 & <-%modify_st_Ok). cbn. unfold when in E2. revert E2.
    case_match; [intros <-%modify_st_Ok|intros [_ <-]%ret_st_Ok]; done.
  - done.
Qed.
End mi_laws.

(** ** Any of the models keeps the promises *)
Section any_laws.
Context {env : RadioEnv}.
Lemma on_any_Ok {T} (c : forall M, RadioModel M -> st (radio_st M) T) s a s' : on_any c s = Ok (a, s') ->
  exists (M : Type) (model : RadioModel M) (laws : RadioModelLaws M) (m : M) (r : radio_st M),
    c M model (mkRadioSt (rs_nodes s) m (rs_draws s) (rs_out s)) = Ok (a, r) /\ rs_nodes s' = rs_nodes r /\ rs_out s' = rs_out r /\
    rm_GetParameters (rs_model s) = rm_GetParameters m /\ rm_GetParameters (rs_model s') = rm_GetParameters (rs_model r).
Proof.
  unfold on_any, on_model. destruct (rs_model s) as [m|m]; (destruct (c _ _ _) as [[a' r]|] eqn:E; [|done]); intros [= <- <-].
  - exists _, ideal_model, ideal_laws, m, r. done.
  - exists _, mi_model, mi_laws, m, r. done.
Qed.
#[export] Instance any_laws : RadioModelLaws AnyRadioModel.
Proof.
  split; simpl.
  - intros l evt s u s' (M & mo & laws & m & r & E & HN & HO & _)%on_any_Ok. apply law_HandleEvent in E as [E1 E2].
    split; rewrite ?HN, ?HO; [exact E1|exact E2].
  - intros src dst evt s b evt' s' (M & mo & laws & m & r & E & HN & HO & _)%on_any_Ok.
    apply law_OnEventDispatch in E as [[E1 E2] E3]. split; [|done]. split; rewrite ?HN, ?HO; [exact E1|exact E2].
  - intros src dst s b s' (M & mo & laws & m & r & E & -> & -> & _)%on_any_Ok. exact (law_CheckRadioReachable _ _ _ _ _ E).
  - intros ts s u s' (M & mo & laws & m & r & E & -> & -> & _)%on_any_Ok. exact (law_OnNextEventTime _ _ _ _ E).
  - intros l s u s' (M & mo & laws & m & r & E & -> & -> & _)%on_any_Ok. exact (law_AddNode _ _ _ _ E).
  - intros id s u s' (M & mo & laws & m & r & E & -> & -> & _)%on_any_Ok. exact (law_DeleteNode _ _ _ _ E).
  - intros s x s' (M & mo & laws & m & r & E & -> & -> & _)%on_any_Ok. exact (law_GetPhyStats _ _ _ E).
  - intros ch s o s' (M & mo & laws & m & r & E & -> & -> & _)%on_any_Ok. exact (law_GetChannelStats _ _ _ _ E).
  - intros ch s u s' (M & mo & laws & m & r & E & -> & -> & _)%on_any_Ok. exact (law_ResetChannelStats _ _ _ _ E).
  - intros s u s' (M & mo & laws & m & r & E & HN & HO & HP & HQ)%on_any_Ok.
    apply law_OnParametersModified in E as (E1 & E2 & E3). split; [by rewrite HO|]. split; [by rewrite HN|].
    etransitivity; [exact HQ|]. etransitivity; [exact E3|]. by symmetry.
  - by intros p [m|m].
Qed.
End any_laws.

(** ** Exchanging the model and its parameters *)
Section transfer_laws.
Context {M : Type} `{!RadioModel M} `{!RadioModelLaws M}.
Lemma transfer_quiet nodes new s u s' : transfer nodes new s = Ok (u, s') -> rs_out s' = rs_out s /\ rs_nodes s' = rs_nodes s.
Proof.
  revert new s. induction nodes as [|[id l] nodes IH]; intros new s; cbn [transfer].
  - intros E. by apply modify_st_Ok in E as <-.
  - intros E. apply bind_st_Ok in E as ([] & s1 & [H1 H2]%law_DeleteNode & E). apply bind_st_Ok in E as (? & ? & [_ <-]%gets_st_Ok & E).
    apply bind_st_Ok in E as ([] & s2 & <-%modify_st_Ok & E). apply bind_st_Ok in E as ([] & s3 & [H3 H4]%law_AddNode & E).
    apply bind_st_Ok in E as (? & ? & [_ <-]%gets_st_Ok & E). apply bind_st_Ok in E as ([] & s4 & <-%modify_st_Ok & E).
    apply IH in E as [-> ->]. cbn. rewrite H3, H4. done.
Qed.
Lemma modify_params_quiet p b s u s' : modify_params p b s = Ok (u, s') -> rs_out s' = rs_out s /\ rs_nodes s' = rs_nodes s.
Proof.
  unfold modify_params. intros E. apply bind_st_Ok in E as ([] & s1 & <-%modify_st_Ok & E).
  destruct b; [by apply law_OnParametersModified in E as (-> & -> & _)|]. by apply ret_st_Ok in E as [_ <-].
Qed.
Lemma modify_params_assigns p b s u s' : modify_params p b s = Ok (u, s') -> rm_GetParameters (rs_model s') = p.
Proof.
  unfold modify_params. intros E. apply bind_st_Ok in E as ([] & s1 & <-%modify_st_Ok & E).
  destruct b; [apply law_OnParametersModified in E as (_ & _ & ->)|apply ret_st_Ok in E as [_ <-]]; apply law_SetParameters.
Qed.
End transfer_laws.

(** The nodes that a model knows. *)
Section known_nodes.
Context {env : RadioEnv}.
Definition known_nodes (m : AnyRadioModel) : gmap NodeId nloc :=
  match m with
  | IsIdeal m => Ideal.im_nodes m
  | IsMutualInterference m => Ideal.im_nodes (MutualInterference.mi_ideal m)
  end.
Lemma AddNode_known l s u s' : rm_AddNode (M := AnyRadioModel) l s = Ok (u, s') ->
  exists rn, rs_nodes s !! l = Some rn /\ known_nodes (rs_model s') = <[rn_Id rn:=l]> (known_nodes (rs_model s)).
Proof.
  cbn [rm_AddNode any_model]. unfold on_any, on_model. destruct (rs_model s) as [m|m]; case_match; try done;
    match goal with H : _ = Ok ?p |- _ => destruct p as [a r]; rename H into E end; intros [= <- <-]; cbn in E.
  - apply bind_st_Ok in E as (rn & ? & [El ->]%get_rn_Ok & <-%modify_st_Ok). by exists rn.
  - apply bind_st_Ok in E as (rn & ? & [El ->]%get_rn_Ok & E). apply bind_st_Ok in E as ([] & ? & <-%modify_st_Ok & <-%modify_st_Ok).
    by exists rn.
Qed.
(** After the model is exchanged, the new model knows the nodes that were handed over, each
    under its id, besides those that it knew before. *)
Theorem transfer_complete nodes new s u s' :
  NoDup (fst <$> nodes) ->
  (forall id l, (id, l) ∈ nodes -> exists rn, rs_nodes s !! l = Some rn /\ rn_Id rn = id) ->
  transfer (M := AnyRadioModel) nodes new s = Ok (u, s') ->
  rs_nodes s' = rs_nodes s /\ known_nodes (rs_model s') = list_to_map nodes ∪ known_nodes new.
Proof.
  revert new s. induction nodes as [|[id l] nodes IH]; intros new s HN HI; cbn [transfer].
  - intros <-%modify_st_Ok. split; [done|]. cbn. by rewrite (left_id_L ∅ (∪)).
  - intros E. apply bind_st_Ok in E as ([] & s1 & [H1 H2]%law_DeleteNode & E). apply bind_st_Ok in E as (old & ? & [_ <-]%gets_st_Ok & E).
    apply bind_st_Ok in E as ([] & s2 & <-%modify_st_Ok & E). apply bind_st_Ok in E as ([] & s3 & E3 & E).
    pose proof (law_AddNode _ _ _ _ E3) as [H3 H4]. apply AddNode_known in E3 as (rn & Hrn & HK).
    apply bind_st_Ok in E as (new' & ? & [<- <-]%gets_st_Ok & E). apply bind_st_Ok in E as ([] & s4 & <-%modify_st_Ok & E).
    cbn in *. apply NoDup_cons in HN as [HN1 HN2]. destruct (HI id l) as (rn' & Hrn' & Hid); [by left|].
    assert (rn' = rn) as -> by congruence. apply IH in E as [HE1 HE2]; [|done|].
    + split; [cbn in HE1; by rewrite HE1, H4|]. rewrite HE2, HK, Hid. apply map_eq. intros k. rewrite !lookup_union.
      destruct (decide (k = id)) as [->|Hk].
      * rewrite !lookup_insert_eq, (not_elem_of_list_to_map_1 nodes id) by exact HN1. by destruct (known_nodes new !! id).
      * by rewrite !lookup_insert_ne.
    + intros k l' Hin. cbn. rewrite H4, H2. apply HI. by right.
Qed.
End known_nodes.

(** ** Channel sampling *)
Section sampling.
Context {env : RadioEnv} {env_ok : RadioEnvOk env}.
Import MutualInterference.
Abbreviation MIst := (radio_st RadioModelMutualInterference) (only parsing).

(** The operations of the interface. *)
Inductive mi_op :=
| OpAddNode (l : nloc) | OpDeleteNode (id : NodeId) | OpReachable (src dst : nloc)
| OpGetTxRssi (src dst : nloc) | OpDispatch (src dst : nloc) (evt : Event) | OpTime (ts : Z)
| OpHandle (l : nloc) (evt : Event) | OpParams | OpGetStats (ch : ChannelId) | OpReset (ch : ChannelId).

Definition run_op (op : mi_op) : st MIst () :=
  match op with
  | OpAddNode l => rm_AddNode l
  | OpDeleteNode id => rm_DeleteNode id
  | OpReachable a b => _ ← rm_CheckRadioReachable a b; mret tt
  | OpGetTxRssi a b => _ ← rm_GetTxRssi a b; mret tt
  | OpDispatch a b evt => _ ← rm_OnEventDispatch a b evt; mret tt
  | OpTime ts => rm_OnNextEventTime ts
  | OpHandle l evt => rm_HandleEvent l evt
  | OpParams => rm_OnParametersModified
  | OpGetStats ch => _ ← rm_GetChannelStats ch; mret tt
  | OpReset ch => rm_ResetChannelStats ch
  end.

(** The states of a model in use: between its operations, other code may change the radio
    nodes and take the events it queued. *)
Inductive mi_reachable : MIst -> Prop :=
| mir_init name params prev fading nodes n out :
    mi_reachable (mkRadioSt nodes (init name params prev fading) n out)
| mir_op s op s' : mi_reachable s -> run_op op s = Ok (tt, s') -> mi_reachable s'
| mir_outside s nodes n out : mi_reachable s -> mi_reachable (mkRadioSt nodes (rs_model s) n out).

Definition no_samplers (s : MIst) : Prop :=
  forall ch, entries ch (mi_activeChannelSamplers (rs_model s)) = ∅.

Lemma ns_mod_model f :
  (forall m, (forall ch, entries ch (mi_activeChannelSamplers m) = ∅) ->
     forall ch, entries ch (mi_activeChannelSamplers (f m)) = ∅) ->
  preserves no_samplers (mod_model f).
Proof. intros H. apply hoare_modify. intros s Hs. exact (H (rs_model s) Hs). Qed.

Lemma ns_put_rn l rn : preserves no_samplers (put_rn l rn).
Proof. apply hoare_modify. done. Qed.
Lemma ns_model : preserves no_samplers model.
Proof. apply pres_gets. Qed.
Lemma ns_emit e : preserves no_samplers (emit e).
Proof. apply hoare_modify. done. Qed.
#[local] Hint Resolve ns_put_rn ns_model ns_emit : hoare.
#[local] Hint Extern 2 (hoare no_samplers (mod_model _) _) => apply ns_mod_model; let Hm := fresh in intros ? Hm ?; exact (Hm _) : hoare.
Lemma ns_get_rn l : preserves no_samplers (get_rn l).
Proof. unfold get_rn. pres. Qed.
#[local] Hint Resolve ns_get_rn : hoare.
Lemma ns_mod_rn l f : preserves no_samplers (mod_rn l f).
Proof. unfold mod_rn. pres. Qed.
Lemma ns_mod_rn_res l f : preserves no_samplers (mod_rn_res l f).
Proof. unfold mod_rn_res. pres. Qed.
#[local] Hint Resolve ns_mod_rn ns_mod_rn_res : hoare.
Lemma ns_ideal : preserves no_samplers (Ideal.ideal mi_ideal).
Proof. unfold Ideal.ideal. pres. Qed.
#[local] Hint Resolve ns_ideal : hoare.
Lemma ns_put_stats ch cs : preserves no_samplers (Ideal.put_stats upd_ideal ch cs).
Proof. unfold Ideal.put_stats, Ideal.mod_ideal. pres. Qed.
#[local] Hint Resolve ns_put_stats : hoare.
Lemma ns_addEvent e : preserves no_samplers (addEvent e).
Proof. unfold addEvent, Ideal.addEvent. pres. Qed.
Lemma ns_GetTxRssi a b : preserves no_samplers (GetTxRssi a b).
Proof. unfold GetTxRssi. pres. Qed.
#[local] Hint Resolve ns_addEvent ns_GetTxRssi : hoare.
Lemma ns_rssi_loop l tx r : preserves no_samplers (rssi_loop l tx r).
Proof. revert r. induction tx as [|[i v] tx IH]; intros r; cbn [rssi_loop]; pres. Qed.
Lemma ns_interference_loop dst intf p : preserves no_samplers (interference_loop dst intf p).
Proof. revert p. induction intf as [|[i v] intf IH]; intros p; cbn [interference_loop]; pres. Qed.
#[local] Hint Resolve ns_rssi_loop ns_interference_loop : hoare.
Lemma ns_getRssiOnChannel l ch : preserves no_samplers (getRssiOnChannel l ch).
Proof. unfold getRssiOnChannel. pres. Qed.
Lemma ns_applyBer sir id evt : preserves no_samplers (applyBer sir id evt).
Proof. unfold applyBer. pres. by apply hoare_modify. Qed.
#[local] Hint Resolve ns_getRssiOnChannel ns_applyBer : hoare.

Lemma ns_DeleteNode id : preserves no_samplers (DeleteNode id).
Proof.
  unfold DeleteNode, Ideal.statsDeleteNode. pres. apply ns_mod_model. intros m Hm ch. simpl.
  unfold entries, delete_entry in *. rewrite lookup_alter. specialize (Hm ch).
  case_decide; [|done]. subst. destruct (mi_activeChannelSamplers m !! _); simpl in *; [|done].
  by rewrite Hm, delete_empty.
Qed.

Lemma ns_HandleEvent l evt : preserves no_samplers (HandleEvent l evt).
Proof.
  unfold HandleEvent, txStart, txStop, channelSampleStart, updateChannelSamplingNodes,
    Ideal.statsTxStart, Ideal.statsTxStop, Ideal.statsChannelSampleStart, Ideal.handleRadioState. pres.
Qed.

Lemma ns_OnEventDispatch a b evt : preserves no_samplers (OnEventDispatch a b evt).
Proof. unfold OnEventDispatch, applyInterference, log. pres. Qed.

Lemma ns_run_op op : preserves no_samplers (run_op op).
Proof.
  destruct op; simpl;
    unfold AddNode, CheckRadioReachable, OnNextEventTime, OnParametersModified, Ideal.GetChannelStats,
      Ideal.ResetChannelStats, Ideal.mod_ideal; pres;
    eauto using ns_DeleteNode, ns_HandleEvent, ns_OnEventDispatch.
Qed.

Lemma entries_empty_channels ch : entries ch empty_channels = ∅.
Proof.
  unfold entries, empty_channels. destruct (list_to_map _ !! ch) as [m|] eqn:E; [|done].
  apply elem_of_list_to_map_2 in E. apply list_elem_of_fmap in E as (c & Heq & _). by injection Heq.
Qed.

Lemma mi_reachable_no_samplers s : mi_reachable s -> no_samplers s.
Proof.
  induction 1 as [|s op s' _ IH E|s nodes n out _ IH].
  - intros ch. apply entries_empty_channels.
  - by eapply (ns_run_op op).
  - done.
Qed.

(** a new transmission never reaches a node that is sampling the channel: the map of
    channel-sampling nodes is never filled, so that the update of their sample values at
    the start of a transmission does nothing, in every state of the model.  A transmission
    inside a sampling period is thus seen only when it still goes on at the end. *)
Theorem updateChannelSamplingNodes_dead s l evt :
  mi_reachable s -> ev_Type evt = EventTypeRadioCommStart ->
  updateChannelSamplingNodes l evt s = Ok (tt, s).
Proof.
  intros Hr Ht. unfold updateChannelSamplingNodes. rewrite Ht.
  unfold lift, model, gets, mbind, st_bind. simpl.
  rewrite (mi_reachable_no_samplers s Hr).
  assert (range ∅ = []) as ->; [|done].
  apply Permutation_nil. symmetry. rewrite (range_perm ∅), map_to_list_empty. done.
Qed.
End sampling.

(** A concrete environment for examples. *)
Definition const_rand : RandI () := {|
  rand_New := fun _ => tt;
  NormFloat64 := fun r => (0.5%float, r);
  Float64 := fun r => (0.5%float, r);
  ExpFloat64 := fun r => (0.5%float, r);
|}.
Definition ex_env : RadioEnv := {|
  Log10 := fun x => x; Exp := fun x => x; Pow := fun x _ => x; rng := (); rng_rand := const_rand;
  range := fun m => map_to_list m; NewUnitRandom := fun _ => 0.5%float;
  ber_log_text := fun _ _ _ _ _ => [];
|}.
Lemma ex_env_ok : RadioEnvOk ex_env.
Proof. intros m. reflexivity. Qed.

(** The start of a frame of 10 bytes on channel 11, sent by node 1 at time 100. *)
Definition ex_frame : Event :=
  set_RadioCommData (mkRadioComm 11 0 0 320) (set_NodeId 1 (set_Timestamp 100
    (set_Type EventTypeRadioCommStart (set_Data [11; 65; 216; 7; 255; 255; 255; 255; 1; 2]%Z zeroEvent)))).
Definition ex_nodes : gmap nat RadioNode :=
  {[ 0%nat := NewRadioNode 1 0 0 0 220; 1%nat := NewRadioNode 2 50 0 0 220 ]}.

Lemma updateChannelSamplingNodes_dead_witness :
  let s := mkRadioSt ex_nodes (MutualInterference.init (env := ex_env) "MI" newRadioModelParams
    newRadioModelParams (newFadingModel (rng := ()) 7)) 0 [] in
  @MutualInterference.updateChannelSamplingNodes ex_env 0 ex_frame s = Ok (tt, s).
Proof.
  apply (@updateChannelSamplingNodes_dead ex_env ex_env_ok); [|reflexivity].
  apply (@mir_init ex_env).
Defined.

(** ** A transmission in the ideal model *)
Section transmission.
Context {env : RadioEnv}.

(** The channel statistics, with the zero record for a channel without any. *)
Definition stats_of (ch : ChannelId) (m : Ideal.RadioModelIdeal) : ChannelStats :=
  default (mkChannelStats ch 0 0 ∅ 0) (Ideal.im_channelStats m !! ch).

(** The events of a frame: to the receivers at its start, to the model at its end, then to
    the sender and to the receivers. *)
Definition rx_start (evt : Event) : Event :=
  set_MustDispatch true (set_comm_Error OT_ERROR_NONE (set_Type EventTypeRadioCommStart evt)).
Definition tx_end (evt : Event) : Event :=
  after (rc_Duration (ev_RadioCommData evt)) (set_MustDispatch false (set_Type EventTypeRadioTxDone evt)).
Definition tx_done (evt : Event) : Event := set_MustDispatch true (set_Type EventTypeRadioTxDone (tx_end evt)).
Definition rx_done (evt : Event) : Event := set_MustDispatch true (set_Type EventTypeRadioRxDone (tx_end evt)).

(** Handle the start of the frame, then its end. *)
Definition transmit (l : nloc) (evt : Event) : st (radio_st Ideal.RadioModelIdeal) () :=
  _ ← Ideal.HandleEvent l evt; Ideal.HandleEvent l (tx_end evt).

Definition channel_ok (ch : ChannelId) : Prop := (0 <= ch <= 39)%Z.

Lemma SetChannel_Ok ch rn : channel_ok ch ->
  SetChannel ch rn = Ok (upd_radio rn (rn_TxPower rn) (rn_RxSensitivity rn) (rn_RadioState rn)
    (rn_RadioSubState rn) ch (rn_rssiSampleMax rn) (rn_stats rn)).
Proof.
  intros [H1 H2]. unfold SetChannel, MinChannelNumber, MaxChannelNumber.
  destruct (Z.leb_spec 0 ch); [|lia]. destruct (Z.leb_spec ch 39); [done|lia].
Qed.

(** Symbolic execution of the store operations. *)
Lemma run_bind {σ A B} (m : st σ A) (k : A -> st σ B) s a s1 :
  m s = Ok (a, s1) -> mbind k m s = k a s1.
Proof. intros E. unfold mbind, st_bind. by rewrite E. Qed.
Lemma run_get_rn {M} l rn (s : radio_st M) : rs_nodes s !! l = Some rn -> get_rn l s = Ok (rn, s).
Proof. intros E. apply get_rn_Ok. done. Qed.
Lemma run_mod_rn {M} l f rn (s : radio_st M) :
  rs_nodes s !! l = Some rn ->
  mod_rn l f s = Ok (tt, mkRadioSt (<[l:=f rn]> (rs_nodes s)) (rs_model s) (rs_draws s) (rs_out s)).
Proof. intros E. unfold mod_rn. by rewrite (run_bind _ _ _ _ _ (run_get_rn l rn s E)). Qed.
Lemma run_SetChannel {M} l ch rn (s : radio_st M) :
  channel_ok ch -> rs_nodes s !! l = Some rn ->
  exists rn', rn_Id rn' = rn_Id rn /\ mod_rn_res l (SetChannel ch) s =
    Ok (tt, mkRadioSt (<[l:=rn']> (rs_nodes s)) (rs_model s) (rs_draws s) (rs_out s)).
Proof.
  intros Hch E. unfold mod_rn_res. rewrite (run_bind _ _ _ _ _ (run_get_rn l rn s E)).
  rewrite SetChannel_Ok by done. eexists. split; [|reflexivity]. done.
Qed.

Abbreviation IS := (radio_st Ideal.RadioModelIdeal) (only parsing).
Lemma run_addEvent e (s : IS) :
  Ideal.im_eventQ (rs_model s) = true ->
  Ideal.addEvent Ideal.self e s =
    Ok (tt, mkRadioSt (rs_nodes s) (rs_model s) (rs_draws s) (rs_out s ++ [e])).
Proof.
  intros E. unfold Ideal.addEvent, Ideal.ideal, model, gets, mbind, st_bind, mret, st_ret.
  unfold Ideal.self. by rewrite E.
Qed.

Lemma run_txStart l evt rn (s : IS) :
  rs_nodes s !! l = Some rn -> Ideal.im_eventQ (rs_model s) = true ->
  rc_Error (ev_RadioCommData evt) = OT_ERROR_NONE -> channel_ok (rc_Channel (ev_RadioCommData evt)) ->
  exists rn', rn_Id rn' = rn_Id rn /\ Ideal.txStart l evt s =
    Ok (tt, mkRadioSt (<[l:=rn']> (rs_nodes s)) (rs_model s) (rs_draws s)
      (rs_out s ++ [rx_start evt; tx_end evt])).
Proof.
  intros Hl Hq He Hch. unfold Ideal.txStart. rewrite (run_bind _ _ _ _ _ (run_mod_rn _ _ _ _ Hl)).
  set (rn1 := set_TxPower (f_of_Z (rc_PowerDbm (ev_RadioCommData evt))) rn).
  destruct (run_SetChannel l (rc_Channel (ev_RadioCommData evt)) rn1
    (mkRadioSt (<[l:=rn1]> (rs_nodes s)) (rs_model s) (rs_draws s) (rs_out s))) as (rn' & Hid & E);
    [done|apply lookup_insert_eq|].
  rewrite (run_bind _ _ _ _ _ E). rewrite He. cbn [Z.eqb OT_ERROR_NONE when rs_nodes rs_model rs_draws rs_out].
  erewrite run_bind by (apply run_addEvent; exact Hq). cbn [rs_nodes rs_model rs_draws rs_out].
  exists rn'. split; [done|]. rewrite run_addEvent by done. cbn [rs_nodes rs_model rs_draws rs_out].
  by rewrite insert_insert_eq, <- app_assoc.
Qed.

Lemma run_txStop l evt rn (s : IS) :
  rs_nodes s !! l = Some rn -> Ideal.im_eventQ (rs_model s) = true ->
  rc_Error (ev_RadioCommData evt) = OT_ERROR_NONE ->
  Ideal.txStop l evt s =
    Ok (tt, mkRadioSt (<[l:=SetTxDone rn]> (rs_nodes s)) (rs_model s) (rs_draws s)
      (rs_out s ++ [set_MustDispatch true (set_Type EventTypeRadioTxDone evt);
                    set_MustDispatch true (set_Type EventTypeRadioRxDone evt)])).
Proof.
  intros Hl Hq He. unfold Ideal.txStop. rewrite (run_bind _ _ _ _ _ (run_mod_rn _ _ _ _ Hl)).
  erewrite run_bind by (apply run_addEvent; exact Hq).
  rewrite He. cbn [Z.eqb OT_ERROR_NONE when]. rewrite run_addEvent by done. cbn [rs_nodes rs_model rs_draws rs_out].
  by rewrite <- app_assoc.
Qed.

Lemma run_statsTxStart l evt rn (s : IS) :
  rs_nodes s !! l = Some rn ->
  let ch := rc_Channel (ev_RadioCommData evt) in
  let cs := stats_of ch (rs_model s) in
  cs_numTransmitters cs = ∅ ->
  exists rn', rn_Id rn' = rn_Id rn /\ Ideal.statsTxStart Ideal.self Ideal.self_upd l evt s =
    Ok (tt, mkRadioSt (<[l:=rn']> (rs_nodes s))
      (Ideal.set_channelStats (<[ch:=mkChannelStats (cs_Channel cs) (cs_TxTimeUs cs)
         (u64 (cs_NumFrames cs + 1)) {[rn_Id rn]} (ev_Timestamp evt)]>
         (Ideal.im_channelStats (rs_model s))) (rs_model s)) (rs_draws s) (rs_out s)).
Proof.
  intros Hl ch cs Hidle. unfold Ideal.statsTxStart.
  rewrite run_bind with (a := rs_model s) (s1 := s) by done.
  rewrite (run_bind _ _ _ _ _ (run_get_rn _ _ _ Hl)).
  fold ch. change (default _ (Ideal.im_channelStats (rs_model s) !! ch)) with cs.
  rewrite Hidle, bool_decide_true by done. rewrite union_empty_r_L.
  erewrite run_bind by reflexivity. erewrite run_mod_rn by exact Hl.
  eexists. split; [|reflexivity]. done.
Qed.

Lemma run_statsTxStop l evt rn cs (s : IS) :
  rs_nodes s !! l = Some rn ->
  let ch := rc_Channel (ev_RadioCommData evt) in
  Ideal.im_channelStats (rs_model s) !! ch = Some cs -> cs_numTransmitters cs = {[rn_Id rn]} ->
  Ideal.statsTxStop Ideal.self Ideal.self_upd l evt s =
    Ok (tt, mkRadioSt (rs_nodes s)
      (Ideal.set_channelStats (<[ch:=mkChannelStats (cs_Channel cs)
         (u64 (cs_TxTimeUs cs + u64 (ev_Timestamp evt - cs_txStartTime cs))) (cs_NumFrames cs) ∅
         (cs_txStartTime cs)]> (Ideal.im_channelStats (rs_model s))) (rs_model s)) (rs_draws s) (rs_out s)).
Proof.
  intros Hl ch Hcs Htx. unfold Ideal.statsTxStop.
  rewrite run_bind with (a := rs_model s) (s1 := s) by done.
  rewrite (run_bind _ _ _ _ _ (run_get_rn _ _ _ Hl)). fold ch. rewrite Hcs.
  erewrite run_bind by reflexivity. rewrite Htx.
  rewrite run_bind with (a := tt) (s1 := s) by (by rewrite bool_decide_true by set_solver).
  replace ({[rn_Id rn]} ∖ {[rn_Id rn]} : gset NodeId) with (∅ : gset NodeId) by set_solver.
  by rewrite bool_decide_true.
Qed.

(** The two handlers. *)
Lemma run_start l evt (s : IS) rn :
  rs_nodes s !! l = Some rn -> ev_Type evt = EventTypeRadioCommStart ->
  let ch := rc_Channel (ev_RadioCommData evt) in
  let cs := stats_of ch (rs_model s) in
  rc_Error (ev_RadioCommData evt) = OT_ERROR_NONE -> channel_ok ch -> cs_numTransmitters cs = ∅ ->
  exists rn', rn_Id rn' = rn_Id rn /\ Ideal.HandleEvent l evt s =
    Ok (tt, mkRadioSt (<[l:=rn']> (rs_nodes s))
      (Ideal.set_channelStats (<[ch:=mkChannelStats (cs_Channel cs) (cs_TxTimeUs cs)
         (u64 (cs_NumFrames cs + 1)) {[rn_Id rn]} (ev_Timestamp evt)]>
         (Ideal.im_channelStats (rs_model s))) (Ideal.set_eventQ (rs_model s))) (rs_draws s)
      (rs_out s ++ [rx_start evt; tx_end evt])).
Proof.
  intros Hl Ht ch cs He Hch Hidle. unfold Ideal.HandleEvent. rewrite Ht. cbn [Z.eqb].
  set (s1 := mkRadioSt (rs_nodes s) (Ideal.set_eventQ (rs_model s)) (rs_draws s) (rs_out s)).
  rewrite run_bind with (a := tt) (s1 := s1) by reflexivity. simpl.
  destruct (run_txStart l evt rn s1) as (rn1 & Hid & E); [done..|].
  rewrite (run_bind _ _ _ _ _ E). unfold s1. cbn [rs_nodes rs_model rs_draws rs_out].
  edestruct (run_statsTxStart l evt rn1 (mkRadioSt (<[l:=rn1]> (rs_nodes s)) (Ideal.set_eventQ (rs_model s))
    (rs_draws s) (rs_out s ++ [rx_start evt; tx_end evt]))) as (rn2 & Hid2 & E2);
    [apply lookup_insert_eq|done|].
  rewrite E2. exists rn2. split; [congruence|]. simpl. by rewrite insert_insert_eq, Hid.
Qed.

Lemma run_stop l evt rn cs (s : IS) :
  rs_nodes s !! l = Some rn -> ev_Type evt = EventTypeRadioTxDone ->
  let ch := rc_Channel (ev_RadioCommData evt) in
  rc_Error (ev_RadioCommData evt) = OT_ERROR_NONE -> Ideal.im_eventQ (rs_model s) = true ->
  cs_numTransmitters cs = {[rn_Id rn]} -> Ideal.im_channelStats (rs_model s) !! ch = Some cs ->
  Ideal.HandleEvent l evt s =
    Ok (tt, mkRadioSt (<[l:=SetTxDone rn]> (rs_nodes s))
      (Ideal.set_channelStats (<[ch:=mkChannelStats (cs_Channel cs)
         (u64 (cs_TxTimeUs cs + u64 (ev_Timestamp evt - cs_txStartTime cs))) (cs_NumFrames cs) ∅
         (cs_txStartTime cs)]> (Ideal.im_channelStats (rs_model s))) (Ideal.set_eventQ (rs_model s))) (rs_draws s)
      (rs_out s ++ [set_MustDispatch true (set_Type EventTypeRadioTxDone evt);
                    set_MustDispatch true (set_Type EventTypeRadioRxDone evt)])).
Proof.
  intros Hl Ht ch He Hq Htx Hcs. unfold Ideal.HandleEvent. rewrite Ht. cbn [Z.eqb].
  set (s1 := mkRadioSt (rs_nodes s) (Ideal.set_eventQ (rs_model s)) (rs_draws s) (rs_out s)).
  rewrite run_bind with (a := tt) (s1 := s1) by reflexivity. simpl.
  rewrite (run_bind _ _ _ _ _ (run_txStop l evt rn s1 Hl eq_refl He)).
  erewrite run_statsTxStop; [reflexivity|apply lookup_insert_eq|done|].
  rewrite Htx. unfold SetTxDone. by destruct (_ =? _)%Z.
Qed.



(** resetting the statistics of a channel while a node transmits on it stops the
    simulation: the end of the transmission finds no statistics and fails an assertion. *)
Theorem ResetChannelStats_panics l evt s rn :
  rs_nodes s !! l = Some rn -> ev_Type evt = EventTypeRadioTxDone ->
  rc_Error (ev_RadioCommData evt) = OT_ERROR_NONE ->
  (_ ← rm_ResetChannelStats (rc_Channel (ev_RadioCommData evt)); Ideal.HandleEvent l evt) s =
    Panic AssertFailed.
Proof.
  intros Hl Ht He. simpl.
  set (ch := rc_Channel (ev_RadioCommData evt)).
  set (s1 := mkRadioSt (rs_nodes s) (Ideal.set_eventQ (Ideal.set_channelStats (delete ch
    (Ideal.im_channelStats (rs_model s))) (rs_model s))) (rs_draws s) (rs_out s)).
  erewrite run_bind by reflexivity. unfold Ideal.HandleEvent. rewrite Ht. cbn [Z.eqb].
  rewrite run_bind with (a := tt) (s1 := s1) by reflexivity. simpl.
  rewrite (run_bind _ _ _ _ _ (run_txStop l evt rn s1 Hl eq_refl He)).
  unfold Ideal.statsTxStop. erewrite run_bind by reflexivity.
  rewrite run_bind with (a := SetTxDone rn) (s1 := mkRadioSt (<[l:=SetTxDone rn]> (rs_nodes s1)) (rs_model s1)
    (rs_draws s1) (rs_out s1 ++ [set_MustDispatch true (set_Type EventTypeRadioTxDone evt);
                    set_MustDispatch true (set_Type EventTypeRadioRxDone evt)]))
    by (apply run_get_rn, lookup_insert_eq).
  simpl. unfold Ideal.self. simpl. fold ch. by rewrite lookup_delete_eq.
Qed.
End transmission.

Definition ex_ideal : radio_st Ideal.RadioModelIdeal :=
  mkRadioSt ex_nodes (Ideal.init "Ideal" newRadioModelParams) 0 [].


Lemma ResetChannelStats_panics_witness :
  (_ ← @rm_ResetChannelStats _ (@ideal_model ex_env) 11; Ideal.HandleEvent 0 (tx_end ex_frame)) ex_ideal
  = Panic AssertFailed.
Proof.
  apply (ResetChannelStats_panics (env := ex_env) 0 (tx_end ex_frame) ex_ideal (NewRadioNode 1 0 0 0 220));
    reflexivity.
Defined.

(** ** Interference *)
Section interference.
Context {env : RadioEnv} {env_ok : RadioEnvOk env}.
Import MutualInterference.
Abbreviation IB := (gmap NodeId (gmap NodeId nloc)) (only parsing).

(** The marks that a new transmission of node [id], at [l], leaves for each transmitter
    of the list. *)
Definition mark_body (id : NodeId) (l : nloc) : NodeId * nloc -> st (radio_st RadioModelMutualInterference) () :=
  fun '(i, intf) =>
    _ ← lift (assert_true (negb (i =? id)%Z));
    m ← model;
    b ← lift (insert_entry id i intf (mi_interferedBy m));
    b ← lift (insert_entry i id l b);
    mod_model (set_interferedBy b).

(** What the loop establishes: [b'] has the marks of [tx] on top of [b]. *)
Definition marked (id : NodeId) (l : nloc) (tx : list (NodeId * nloc)) (b b' : IB) : Prop :=
  (forall i v, (i, v) ∈ tx -> entries id b' !! i = Some v /\ entries i b' !! id = Some l) /\
  (forall i v, i ∉ tx.*1 -> entries id b' !! i = Some v <-> entries id b !! i = Some v) /\
  (forall i, i ∉ tx.*1 -> i <> id -> entries i b' = entries i b).

Lemma entries_insert k m (b : IB) k' :
  entries k' (<[k:=m]> b) = if decide (k = k') then m else entries k' b.
Proof. unfold entries. rewrite lookup_insert. by case_decide. Qed.

Lemma mark_loop id l tx s u s' :
  NoDup tx.*1 -> for_each tx (mark_body id l) s = Ok (u, s') ->
  marked id l tx (mi_interferedBy (rs_model s)) (mi_interferedBy (rs_model s')) /\ id ∉ tx.*1.
Proof.
  revert s. induction tx as [|[i v] tx IH]; intros s HN E; cbn [for_each] in E.
  - apply ret_st_Ok in E as [_ <-]. unfold marked. set_solver.
  - cbn [fmap list_fmap fst] in HN. apply NoDup_cons in HN as [Hi HN].
    apply bind_st_Ok in E as (u1 & s1 & E1 & E).
    destruct (IH s1 HN E) as [(M1 & M2 & M3) Hid].
    unfold mark_body in E1. apply bind_st_Ok in E1 as (? & ? & [Ha <-]%lift_st_Ok & E1).
    apply assert_true_Ok, negb_true_iff, Z.eqb_neq in Ha.
    apply bind_st_Ok in E1 as (m & ? & [<- <-]%gets_st_Ok & E1).
    apply bind_st_Ok in E1 as (b1 & ? & [H1 <-]%lift_st_Ok & E1).
    apply bind_st_Ok in E1 as (b2 & ? & [H2 <-]%lift_st_Ok & E1).
    unfold insert_entry in H1, H2. res_inv.
    apply modify_st_Ok in E1. subst s1. cbn [rs_model set_interferedBy mi_interferedBy] in M1, M2, M3.
    set (b := mi_interferedBy (rs_model s)) in *. subst b1 b2.
    match goal with H : b !! id = Some ?e |- _ => assert (entries id b = e) as Heid by (unfold entries; by rewrite H) end.
    match goal with H : <[id:=?e]> b !! i = Some _ |- _ => rewrite lookup_insert_ne in H by done;
      assert (entries i b = x0) as Hei by (unfold entries; by rewrite H) end.
    split; [|set_solver]. split; [|split].
    + intros j w [Hj|Hj]%elem_of_cons; [|by apply M1]. injection Hj as -> ->. split.
      * apply M2; [done|]. rewrite !entries_insert, decide_False, decide_True by done. apply lookup_insert_eq.
      * rewrite M3, entries_insert, decide_True by done. apply lookup_insert_eq.
    + intros j w Hj. cbn [fmap list_fmap fst] in Hj. apply not_elem_of_cons in Hj as [Hj1 Hj2].
      rewrite M2 by done. rewrite !entries_insert, decide_False, decide_True by done.
      rewrite lookup_insert_ne by done. by rewrite Heid.
    + intros j Hj Hne. cbn [fmap list_fmap fst] in Hj. apply not_elem_of_cons in Hj as [Hj1 Hj2].
      rewrite M3 by done. rewrite !entries_insert, !decide_False by done. done.
Qed.

(** The loop leaves the active transmitters alone, queueing an event the whole model. *)
Lemma mark_loop_active id l tx a :
  preserves (fun s => mi_activeTransmitters (rs_model s) = a) (for_each tx (mark_body id l)).
Proof.
  apply pres_for_each. intros [i v] _. unfold mark_body.
  apply pres_bind; [apply pres_lift|intros _]. apply pres_bind; [apply pres_gets|intros m].
  apply pres_bind; [apply pres_lift|intros b1]. apply pres_bind; [apply pres_lift|intros b2].
  by apply hoare_modify.
Qed.

Lemma addEvent_model e a : preserves (fun s => rs_model s = a) (addEvent e).
Proof.
  unfold addEvent, Ideal.addEvent, Ideal.ideal, model, emit.
  repeat pres_step; eauto with hoare. by apply hoare_modify.
Qed.

(** interference is booked on both sides.  When a node starts to transmit, the model
    marks it as interfered by exactly the transmitters that are active on the channel, and
    marks each of them as interfered by the new one; the node then counts as active. *)
Theorem txStart_interference l evt s s' rn :
  rs_nodes s !! l = Some rn ->
  let ch := rc_Channel (ev_RadioCommData evt) in
  let id := rn_Id rn in
  is_active ch id (rs_model s) = false ->
  txStart l evt s = Ok (tt, s') ->
  let tx := entries ch (mi_activeTransmitters (rs_model s)) in
  let b' := mi_interferedBy (rs_model s') in
  entries id b' = tx /\ (forall i v, tx !! i = Some v -> entries i b' !! id = Some l) /\
  entries ch (mi_activeTransmitters (rs_model s')) = <[id:=l]> tx.
Proof.
  intros Hl ch id Ha E tx b'. unfold txStart in E.
  apply bind_st_Ok in E as (m & s1 & [<- <-]%gets_st_Ok & E).
  apply bind_st_Ok in E as (rn1 & s1 & [Hl1 ->]%get_rn_Ok & E).
  rewrite Hl in Hl1. injection Hl1 as <-. fold ch id in E. rewrite Ha in E.
  apply bind_st_Ok in E as (? & s2 & E2 & E). apply bind_st_Ok in E as (? & s3 & E3 & E).
  assert (rs_model s3 = rs_model s) as Hm.
  { unfold mod_rn, mod_rn_res, put_rn in E2, E3. st_inv. subst.
    repeat match goal with H : get_rn _ _ = Ok _ |- _ => apply get_rn_Ok in H as [_ ->] end. done. }
  apply bind_st_Ok in E as (? & s4 & E4%modify_st_Ok & E).
  apply bind_st_Ok in E as (? & s5 & E5 & E).
  assert (NoDup (range tx).*1) as HN.
  { rewrite range_perm. apply NoDup_fst_map_to_list. }
  assert (rs_model s4 = set_interferedBy (<[id:=∅]> (mi_interferedBy (rs_model s))) (rs_model s)) as Hm4.
  { rewrite <- E4. simpl. by rewrite Hm. }
  pose proof (mark_loop_active id l _ _ s4 _ _ eq_refl E5) as Hact.
  apply mark_loop in E5 as [(M1 & M2 & _) _]; [|done].
  rewrite Hm4 in M2, Hact. cbn [mi_interferedBy set_interferedBy mi_activeTransmitters] in M2, Hact.
  assert (mi_interferedBy (rs_model s') = mi_interferedBy (rs_model s5) /\
    entries ch (mi_activeTransmitters (rs_model s')) = <[id:=l]> tx) as [Hb' Htx'].
  { apply bind_st_Ok in E as (m & s6 & [<- <-]%gets_st_Ok & E).
    apply bind_st_Ok in E as (txs & s6 & [Hi <-]%lift_st_Ok & E).
    apply bind_st_Ok in E as (? & s6 & E6%modify_st_Ok & E).
    assert (rs_model s' = rs_model s6) as ->.
    { apply bind_st_Ok in E as (? & s7 & E7 & E). apply (addEvent_model _ (rs_model s6)) in E; [done|].
      destruct (rc_Error _ =? _)%Z; [by apply (addEvent_model _ (rs_model s6)) in E7|]. by apply ret_st_Ok in E7 as [_ <-]. }
    subst s6. simpl. split; [done|]. unfold insert_entry in Hi. res_inv. subst txs.
    rewrite entries_insert, decide_True by done. f_equal. unfold tx, entries. rewrite <- Hact.
    match goal with H : _ !! ch = Some _ |- _ => by rewrite H end. }
  unfold b'. rewrite Hb'. split; [|split; [|done]].
  - apply map_eq. intros i. destruct (tx !! i) as [v|] eqn:Ei.
    + apply M1. by rewrite range_perm, elem_of_map_to_list.
    + destruct (entries id (mi_interferedBy (rs_model s5)) !! i) as [v|] eqn:Ej; [|done].
      apply M2 in Ej.
      * rewrite entries_insert, decide_True in Ej by done. done.
      * rewrite range_perm. intros ([j w] & -> & Hj)%list_elem_of_fmap.
        apply elem_of_map_to_list in Hj. fold tx in Hj. cbn [fst] in Ei. by rewrite Hj in Ei.
  - intros i v Hi. apply (M1 i v). by rewrite range_perm, elem_of_map_to_list.
Qed.
End interference.

(** Node 2 transmits on channel 11 when node 1 starts. *)
Definition ex_busy : radio_st (@MutualInterference.RadioModelMutualInterference ex_env) :=
  mkRadioSt ex_nodes (MutualInterference.mkMI (env := ex_env)
    (Ideal.set_eventQ (Ideal.init "MI" newRadioModelParams)) newRadioModelParams
    (newFadingModel (rng := ()) 7) {[ 11%Z := {[ 2%Z := 1%nat ]} ]} ∅ {[ 1%Z := ∅; 2%Z := ∅ ]}) 0 [].

Lemma txStart_interference_witness :
  exists s', @MutualInterference.txStart ex_env 0 ex_frame ex_busy = Ok (tt, s') /\
    MutualInterference.entries 1 (MutualInterference.mi_interferedBy (rs_model s')) = {[ 2%Z := 1%nat ]}.
Proof.
  destruct (@MutualInterference.txStart ex_env 0 ex_frame ex_busy) as [[[] s']|p] eqn:E.
  - exists s'. split; [reflexivity|].
    apply (@txStart_interference ex_env ex_env_ok 0 ex_frame ex_busy s' (NewRadioNode 1 0 0 0 220));
      [reflexivity|reflexivity|exact E].
  - assert ((match @MutualInterference.txStart ex_env 0 ex_frame ex_busy with Ok _ => true | Panic _ => false end) = true) as H
      by (vm_compute; reflexivity).
    rewrite E in H. discriminate H.
Defined.

(** ** Exchanging the model *)
Definition ex_any : radio_st (@AnyRadioModel ex_env) := mkRadioSt ex_nodes (IsIdeal (Ideal.init "Ideal" newRadioModelParams)) 0 [].
Definition ex_new (name : string) : AnyRadioModel := default (rs_model ex_any) (NewRadioModel (env := ex_env) name 5).
Definition ex_joined : radio_st (@AnyRadioModel ex_env) :=
  match (_ ← rm_AddNode 0; rm_AddNode 1) ex_any with Ok (_, s) => s | Panic _ => ex_any end.
Lemma transfer_complete_witness :
  exists s', transfer [(1%Z, 0%nat); (2%Z, 1%nat)] (ex_new "MI") ex_joined = Ok (tt, s') /\
    known_nodes (rs_model s') = list_to_map [(1%Z, 0%nat); (2%Z, 1%nat)] ∪ known_nodes (ex_new "MI").
Proof.
  destruct (transfer [(1%Z, 0%nat); (2%Z, 1%nat)] (ex_new "MI") ex_joined) as [[[] s']|] eqn:E; [|by vm_compute in E].
  exists s'. split; [done|]. refine (proj2 (transfer_complete _ _ _ _ _ _ _ E)).
  - repeat constructor; set_solver.
  - intros id l [[= -> ->]|[[= -> ->]|[]%not_elem_of_nil]%elem_of_cons]%elem_of_cons; eexists; (split; [vm_compute; reflexivity|reflexivity]).
Defined.
(** When a node transmits while the model is exchanged, the new model does not know of the
    transmission, and its end fails an assertion. *)
Example exchange_while_transmitting :
  (_ ← rm_HandleEvent 0 ex_frame; _ ← transfer [(1%Z, 0%nat); (2%Z, 1%nat)] (ex_new "MI"); rm_HandleEvent 0 (tx_end ex_frame)) ex_joined
  = Panic AssertFailed.
Proof. vm_compute. reflexivity. Qed.
