(* ===== verification/Rloc16Map.v ===== *)
(** * Short addresses

    [rloc16Map] (src/dispatcher/rloc16_map.go): the nodes that use a short address, in the
    order in which they took it.  Nodes are pointers: locations here. *)

From S2P Require Import Prelude Types.

Abbreviation rloc16Map := (gmap Z (list nat)) (only parsing).

Definition nodes_at (m : rloc16Map) (rloc16 : Z) : list nat := default [] (m !! rloc16).

Definition Contains (m : rloc16Map) (rloc16 : Z) (node : nat) : bool :=
  existsb (Nat.eqb node) (nodes_at m rloc16).

Fixpoint removeFromList (nodes : list nat) (node : nat) : list nat :=
  match nodes with
  | [] => []
  | n :: nodes => if (n =? node)%nat then nodes else n :: removeFromList nodes node
  end.

Definition Remove (rloc16 : Z) (node : nat) (m : rloc16Map) : res rloc16Map :=
  _ ← assert_true (negb (rloc16 =? InvalidRloc16)%Z);
  _ ← assert_true (Contains m rloc16 node);
  let m := <[rloc16:=removeFromList (nodes_at m rloc16) node]> m in
  _ ← assert_true (negb (Contains m rloc16 node));
  Ok m.

Definition Add (rloc16 : Z) (node : nat) (m : rloc16Map) : res rloc16Map :=
  _ ← assert_true (negb (rloc16 =? InvalidRloc16)%Z);
  _ ← assert_true (negb (Contains m rloc16 node));
  let m := <[rloc16:=nodes_at m rloc16 ++ [node]]> m in
  _ ← assert_true (Contains m rloc16 node);
  Ok m.

(** ** What the map means: a relation between addresses and nodes *)
Definition rm_wf (m : rloc16Map) : Prop := forall r, NoDup (nodes_at m r).

Lemma Contains_true m r n : Contains m r n = true <-> n ∈ nodes_at m r.
Proof.
  unfold Contains. rewrite existsb_exists. split.
  - intros (x & Hx & ->%Nat.eqb_eq). by apply list_elem_of_In.
  - intros H. exists n. split; [by apply list_elem_of_In|apply Nat.eqb_refl].
Qed.
Lemma Contains_false m r n : Contains m r n = false <-> n ∉ nodes_at m r.
Proof. rewrite <- Contains_true. by destruct (Contains m r n). Qed.

Lemma nodes_at_insert m r r' l :
  nodes_at (<[r:=l]> m) r' = if decide (r = r') then l else nodes_at m r'.
Proof. unfold nodes_at. rewrite lookup_insert. by case_decide. Qed.

Lemma removeFromList_spec l n :
  NoDup l -> NoDup (removeFromList l n) /\ forall x, x ∈ removeFromList l n <-> x ∈ l /\ x <> n.
Proof.
  induction 1 as [|y l Hy Hl [IH1 IH2]]; simpl; [split; [constructor|set_solver]|].
  destruct (Nat.eqb_spec y n) as [->|].
  - split; [done|]. set_solver.
  - split; [constructor; [rewrite IH2; set_solver|done]|]. set_solver.
Qed.

Lemma rm_Add_spec r n m :
  rm_wf m -> r <> InvalidRloc16 -> n ∉ nodes_at m r ->
  exists m', Add r n m = Ok m' /\ rm_wf m' /\
    forall r' x, x ∈ nodes_at m' r' <-> x ∈ nodes_at m r' \/ (r' = r /\ x = n).
Proof.
  intros W Hr Hn. unfold Add. destruct (Z.eqb_spec r InvalidRloc16); [done|]. simpl.
  rewrite (proj2 (Contains_false m r n)) by done. simpl.
  rewrite (proj2 (Contains_true _ r n)).
  2:{ rewrite nodes_at_insert, decide_True by done. set_solver. }
  simpl. eexists. split; [reflexivity|]. split.
  - intros r'. rewrite nodes_at_insert. case_decide; [|done]. apply NoDup_app. repeat split; [done| |].
    + intros x Hx ->%list_elem_of_singleton. done.
    + apply NoDup_singleton.
  - intros r' x. rewrite nodes_at_insert. case_decide; [subst; set_solver|naive_solver].
Qed.

Lemma rm_Remove_spec r n m :
  rm_wf m -> r <> InvalidRloc16 -> n ∈ nodes_at m r ->
  exists m', Remove r n m = Ok m' /\ rm_wf m' /\
    forall r' x, x ∈ nodes_at m' r' <-> x ∈ nodes_at m r' /\ ~ (r' = r /\ x = n).
Proof.
  intros W Hr Hn. unfold Remove. destruct (Z.eqb_spec r InvalidRloc16); [done|]. simpl.
  rewrite (proj2 (Contains_true m r n)) by done. simpl.
  destruct (removeFromList_spec (nodes_at m r) n (W r)) as [H1 H2].
  rewrite (proj2 (Contains_false _ r n)).
  2:{ rewrite nodes_at_insert, decide_True by done. rewrite H2. naive_solver. }
  simpl. eexists. split; [reflexivity|]. split.
  - intros r'. rewrite nodes_at_insert. by case_decide.
  - intros r' x. rewrite nodes_at_insert. case_decide; [subst; rewrite H2; naive_solver|naive_solver].
Qed.

(** A call that returns was allowed. *)
Lemma Add_Ok r n m m' :
  rm_wf m -> Add r n m = Ok m' ->
  rm_wf m' /\ r <> InvalidRloc16 /\
  forall r' x, x ∈ nodes_at m' r' <-> x ∈ nodes_at m r' \/ (r' = r /\ x = n).
Proof.
  intros W E. pose proof E as E0. unfold Add in E. res_inv.
  apply negb_true_iff, Z.eqb_neq in H.
  match goal with H : negb (Contains m r n) = true |- _ => apply negb_true_iff, Contains_false in H; rename H into Hn end.
  destruct (rm_Add_spec r n m W H Hn) as (m1 & E1 & W1 & S1). rewrite E0 in E1. injection E1 as <-. done.
Qed.
Lemma Remove_Ok r n m m' :
  rm_wf m -> Remove r n m = Ok m' ->
  rm_wf m' /\ r <> InvalidRloc16 /\
  forall r' x, x ∈ nodes_at m' r' <-> x ∈ nodes_at m r' /\ ~ (r' = r /\ x = n).
Proof.
  intros W E. pose proof E as E0. unfold Remove in E. res_inv.
  apply negb_true_iff, Z.eqb_neq in H.
  match goal with H : Contains m r n = true |- _ => apply Contains_true in H; rename H into Hn end.
  destruct (rm_Remove_spec r n m W H Hn) as (m1 & E1 & W1 & S1). rewrite E0 in E1. injection E1 as <-. done.
Qed.

(** ** Sequences of operations *)
Inductive rm_op := RmAdd (r : Z) (n : nat) | RmRemove (r : Z) (n : nat).
Definition run_rm_op (op : rm_op) (m : rloc16Map) : res rloc16Map :=
  match op with RmAdd r n => Add r n m | RmRemove r n => Remove r n m end.
Fixpoint run_rm_ops (ops : list rm_op) (m : rloc16Map) : res rloc16Map :=
  match ops with [] => Ok m | op :: ops => m ← run_rm_op op m; run_rm_ops ops m end.

(** The same on a set of pairs: adding a pair that is there, removing one that is not, or
    using the invalid address is an error. *)
Definition spec_rm_op (op : rm_op) (s : gset (Z * nat)) : option (gset (Z * nat)) :=
  match op with
  | RmAdd r n => if decide (r <> InvalidRloc16 /\ (r, n) ∉ s) then Some ({[(r, n)]} ∪ s) else None
  | RmRemove r n => if decide (r <> InvalidRloc16 /\ (r, n) ∈ s) then Some (s ∖ {[(r, n)]}) else None
  end.
Fixpoint spec_rm_ops (ops : list rm_op) (s : gset (Z * nat)) : option (gset (Z * nat)) :=
  match ops with [] => Some s | op :: ops => s ← spec_rm_op op s; spec_rm_ops ops s end.

Definition represents (m : rloc16Map) (s : gset (Z * nat)) : Prop :=
  rm_wf m /\ forall r n, n ∈ nodes_at m r <-> (r, n) ∈ s.

Lemma run_rm_op_spec op m s :
  represents m s ->
  match spec_rm_op op s with
  | Some s' => exists m', run_rm_op op m = Ok m' /\ represents m' s'
  | None => run_rm_op op m = Panic AssertFailed
  end.
Proof.
  intros [W R]. destruct op as [r n|r n]; simpl; case_decide as H.
  - destruct H as [H1 H2]. rewrite <- R in H2. destruct (rm_Add_spec r n m W H1 H2) as (m' & E & W' & R').
    exists m'. split; [done|]. split; [done|]. intros r' x. rewrite R', R. set_solver.
  - unfold Add. destruct (Z.eqb_spec r InvalidRloc16); [done|]. simpl.
    rewrite (proj2 (Contains_true m r n)); [done|]. rewrite R. destruct (decide ((r, n) ∈ s)); tauto.
  - destruct H as [H1 H2]. rewrite <- R in H2. destruct (rm_Remove_spec r n m W H1 H2) as (m' & E & W' & R').
    exists m'. split; [done|]. split; [done|]. intros r' x. rewrite R', R. set_solver.
  - unfold Remove. destruct (Z.eqb_spec r InvalidRloc16); [done|]. simpl.
    rewrite (proj2 (Contains_false m r n)); [done|]. rewrite R. tauto.
Qed.

(** the short-address map refines a set of pairs of address and node: for every
    sequence of additions and removals on an empty map, it holds exactly the pairs of the
    set, and it fails, with an assertion, exactly when a pair is added twice, removed
    while absent, or has the invalid address. *)
Theorem rloc16Map_refines_set ops :
  match spec_rm_ops ops ∅ with
  | Some s => exists m, run_rm_ops ops ∅ = Ok m /\ forall r n, Contains m r n = true <-> (r, n) ∈ s
  | None => run_rm_ops ops ∅ = Panic AssertFailed
  end.
Proof.
  assert (forall m s, represents m s ->
    match spec_rm_ops ops s with
    | Some s' => exists m', run_rm_ops ops m = Ok m' /\ represents m' s'
    | None => run_rm_ops ops m = Panic AssertFailed
    end) as H.
  { induction ops as [|op ops IH]; intros m s R; simpl; [by exists m|].
    pose proof (run_rm_op_spec op m s R) as H. destruct (spec_rm_op op s) as [s1|]; simpl.
    - destruct H as (m1 & -> & R1). simpl. by apply IH.
    - by rewrite H. }
  specialize (H ∅ ∅). destruct (spec_rm_ops ops ∅) as [s|].
  - destruct H as (m & E & _ & R).
    { split; [intros r; unfold nodes_at; rewrite lookup_empty; constructor|].
      intros r n. unfold nodes_at. rewrite lookup_empty. set_solver. }
    exists m. split; [done|]. intros r n. by rewrite Contains_true.
  - apply H. split; [intros r; unfold nodes_at; rewrite lookup_empty; constructor|].
    intros r n. unfold nodes_at. rewrite lookup_empty. set_solver.
Qed.
