(* ===== verification/Coaps.v ===== *)
(** * CoAP message tracking

    [coapsHandler] (src/dispatcher/coaps.go): the CoAP messages that nodes report, each
    with the nodes that received it.  A message record is owned by the handler's list. *)

From S2P Require Import Prelude Types.

Record CoapMessageRecvInfo := mkCoapRecv {
  cr_Timestamp : Z; cr_DstNode : NodeId; cr_SrcAddr : string; cr_SrcPort : Z;
}.
Record CoapMessage := mkCoapMessage {
  cm_Timestamp : Z; cm_SrcNode : NodeId; cm_ID : Z; cm_Type : Z; cm_Code : Z; cm_URI : string;
  cm_DstAddr : string; cm_DstPort : Z; cm_Error : string; cm_Receivers : list CoapMessageRecvInfo;
}.
Abbreviation coapsHandler := (list CoapMessage) (only parsing).

Definition newCoapsHandler : coapsHandler := [].

Definition OnSend (curTime : Z) (nodeId : NodeId) (messageId coapType coapCode : Z) (uri peerAddr : string)
    (peerPort : Z) (coaps : coapsHandler) : coapsHandler :=
  coaps ++ [mkCoapMessage curTime nodeId messageId coapType coapCode uri peerAddr peerPort "" []].

Definition coap_matches (id coapType coapCode : Z) (uri : string) (m : CoapMessage) : bool :=
  (cm_ID m =? id)%Z && (cm_Type m =? coapType)%Z && (cm_Code m =? coapCode)%Z && String.eqb (cm_URI m) uri.

(** The index of the last matching message: the loop runs from the end of the list. *)
Fixpoint find_last (p : CoapMessage -> bool) (coaps : coapsHandler) : option nat :=
  match coaps with
  | [] => None
  | m :: coaps =>
    match find_last p coaps with
    | Some i => Some (S i)
    | None => if p m then Some 0%nat else None
    end
  end.
Definition findMessage (id coapType coapCode : Z) (uri : string) (coaps : coapsHandler) : option nat :=
  find_last (coap_matches id coapType coapCode uri) coaps.

Definition add_receiver (r : CoapMessageRecvInfo) (m : CoapMessage) : CoapMessage :=
  mkCoapMessage (cm_Timestamp m) (cm_SrcNode m) (cm_ID m) (cm_Type m) (cm_Code m) (cm_URI m)
    (cm_DstAddr m) (cm_DstPort m) (cm_Error m) (cm_Receivers m ++ [r]).
Definition set_error (err : string) (m : CoapMessage) : CoapMessage :=
  mkCoapMessage (cm_Timestamp m) (cm_SrcNode m) (cm_ID m) (cm_Type m) (cm_Code m) (cm_URI m)
    (cm_DstAddr m) (cm_DstPort m) err (cm_Receivers m).

Definition OnRecv (curTime : Z) (nodeId : NodeId) (messageId coapType coapCode : Z) (uri peerAddr : string)
    (peerPort : Z) (coaps : coapsHandler) : coapsHandler :=
  match findMessage messageId coapType coapCode uri coaps with
  | None => coaps
  | Some i => alter (add_receiver (mkCoapRecv curTime nodeId peerAddr peerPort)) i coaps
  end.

Definition OnSendError (nodeId : NodeId) (messageId coapType coapCode : Z) (uri peerAddr : string)
    (peerPort : Z) (error : string) (coaps : coapsHandler) : coapsHandler :=
  match findMessage messageId coapType coapCode uri coaps with
  | None => coaps
  | Some i => alter (set_error error) i coaps
  end.

Definition DumpMessages (clearCollectedMessages : bool) (coaps : coapsHandler)
    : list CoapMessage * coapsHandler :=
  (coaps, if clearCollectedMessages then [] else coaps).

Lemma find_last_spec p coaps :
  match find_last p coaps with
  | Some i => exists l m r, coaps = l ++ m :: r /\ i = length l /\ p m = true /\ Forall (fun x => p x = false) r
  | None => Forall (fun x => p x = false) coaps
  end.
Proof.
  induction coaps as [|x coaps IH]; simpl; [constructor|].
  destruct (find_last p coaps) as [i|].
  - destruct IH as (l & m & r & -> & -> & H1 & H2). by exists (x :: l), m, r.
  - destruct (p x) eqn:E; [by exists [], x, coaps|]. by constructor.
Qed.

(** a reception is credited to the latest matching message: it is added to the last
    message with that id, type, code and URI, and to no other; without one, the reception
    is dropped. *)
Theorem OnRecv_latest cur node id ty code uri addr port coaps :
  let p := coap_matches id ty code uri in
  let r := mkCoapRecv cur node addr port in
  (exists l m l', coaps = l ++ m :: l' /\ p m = true /\ Forall (fun x => p x = false) l' /\
     OnRecv cur node id ty code uri addr port coaps = l ++ add_receiver r m :: l') \/
  (Forall (fun x => p x = false) coaps /\ OnRecv cur node id ty code uri addr port coaps = coaps).
Proof.
  intros p r. unfold OnRecv, findMessage. fold p. pose proof (find_last_spec p coaps) as H.
  destruct (find_last p coaps) as [i|]; [|by right].
  destruct H as (l & m & l' & -> & -> & H1 & H2). left. exists l, m, l'.
  split; [done|]. split; [done|]. split; [done|].
  rewrite alter_app_r_alt by lia. by rewrite Nat.sub_diag.
Qed.
