(* ===== verification/GoStrings.v ===== *)
(** * Strings and number parsing

    What the sources use of Go's [strings] and [strconv]: splitting at a one-character
    separator, and decimal and hexadecimal numbers with their range checks. *)

From S2P Require Import Prelude.
From Stdlib Require Import Ascii.

(** [string(data)] and [\[\]byte(s)] *)
Definition string_of_bytes (l : list Z) : string :=
  String.string_of_list_ascii (map (fun b => ascii_of_N (Z.to_N b)) l).
Definition bytes_of_string (s : string) : list Z :=
  map (fun c => Z.of_N (N_of_ascii c)) (String.list_ascii_of_string s).

(** [strings.Split(s, sep)] for a separator of one character: never empty. *)
Fixpoint Split (s : string) (sep : ascii) : list string :=
  match s with
  | EmptyString => [EmptyString]
  | String c s =>
    if Ascii.eqb c sep then EmptyString :: Split s sep
    else match Split s sep with
         | [] => [String c EmptyString]
         | w :: ws => String c w :: ws
         end
  end.

(** The value of a digit, below 16. *)
Definition digit (c : ascii) : option Z :=
  let n := Z.of_N (N_of_ascii c) in
  if (48 <=? n)%Z && (n <=? 57)%Z then Some (n - 48)%Z
  else if (97 <=? n)%Z && (n <=? 102)%Z then Some (n - 87)%Z
  else if (65 <=? n)%Z && (n <=? 70)%Z then Some (n - 55)%Z
  else None.

Fixpoint digits (base : Z) (s : string) (acc : Z) : option Z :=
  match s with
  | EmptyString => Some acc
  | String c s =>
    match digit c with
    | Some d => if (d <? base)%Z then digits base s (acc * base + d)%Z else None
    | None => None
    end
  end.

(** [strconv.ParseUint(s, base, bitSize)]; an error is [Panic Panicf], as every caller
    panics on it. *)
Definition ParseUint (s : string) (base bitSize : Z) : res Z :=
  match s with
  | EmptyString => Panic Panicf
  | _ => match digits base s 0 with
         | Some n => if (n <? 2 ^ bitSize)%Z then Ok n else Panic Panicf
         | None => Panic Panicf
         end
  end.

(** [strconv.Atoi] with its error as a panic. *)
Definition Atoi (s : string) : res Z :=
  match s with
  | String "-"%char t =>
    n ← ParseUint t 10 64; if (n <=? 2 ^ 63)%Z then Ok (- n)%Z else Panic Panicf
  | String "+"%char t => n ← ParseUint t 10 64; if (n <? 2 ^ 63)%Z then Ok n else Panic Panicf
  | _ => n ← ParseUint s 10 64; if (n <? 2 ^ 63)%Z then Ok n else Panic Panicf
  end.

Example Split_ex : Split "role=4;;rloc16=1024" ";"%char = ["role=4"; ""; "rloc16=1024"]%string.
Proof. reflexivity. Qed.
Example Atoi_ex : Atoi "-12" = Ok (-12)%Z /\ Atoi "" = Panic Panicf /\ Atoi "1a" = Panic Panicf.
Proof. repeat split; reflexivity. Qed.
Example ParseUint_ex : ParseUint "fFe1" 16 32 = Ok 65505%Z /\ ParseUint "100000000" 16 32 = Panic Panicf.
Proof. split; reflexivity. Qed.

Fixpoint concat_sep (sep : ascii) (ws : list string) : string :=
  match ws with
  | [] => EmptyString
  | [w] => w
  | w :: ws => (w +:+ String sep (concat_sep sep ws))%string
  end.
Definition no_char (c : ascii) (s : string) : Prop := c ∉ String.list_ascii_of_string s.

Lemma Split_nonempty s sep : Split s sep <> [].
Proof.
  destruct s as [|c s]; simpl; [done|]. destruct (Ascii.eqb c sep); [done|].
  by destruct (Split s sep).
Qed.

(** Joining and splitting are inverse on words without the separator. *)
Lemma Split_word w s sep :
  no_char sep w -> Split (w +:+ String sep s)%string sep = w :: Split s sep.
Proof.
  intros H. induction w as [|c w IH]; simpl; [by rewrite Ascii.eqb_refl|].
  unfold no_char in *. simpl in H. apply not_elem_of_cons in H as [H1 H2].
  destruct (Ascii.eqb_spec c sep); [congruence|]. by rewrite IH.
Qed.
Lemma Split_last w sep : no_char sep w -> Split w sep = [w].
Proof.
  intros H. induction w as [|c w IH]; simpl; [done|]. unfold no_char in *. simpl in H.
  apply not_elem_of_cons in H as [H1 H2].
  destruct (Ascii.eqb_spec c sep); [congruence|]. by rewrite IH.
Qed.
Lemma Split_concat ws sep : ws <> [] -> Forall (no_char sep) ws -> Split (concat_sep sep ws) sep = ws.
Proof.
  intros Hne HF. induction HF as [|w ws Hw HF IH]; [done|]. destruct ws as [|w' ws].
  - simpl. by apply Split_last.
  - change (concat_sep sep (w :: w' :: ws)) with (w +:+ String sep (concat_sep sep (w' :: ws)))%string.
    rewrite Split_word by done. by rewrite IH.
Qed.
