(* ===== verification/Pcap.v ===== *)
(** * PCAP files

    The frame recorder (src/pcap/PcapFile.go and PcapTapFile.go, and the writer loop
    [pcapFrameWriter] of src/dispatcher/dispatcher.go).  A file is the bytes written to
    it; every write and sync may fail, and a failed write leaves any part of its bytes in
    the file.  A reader of the format is the specification: what was appended can be read
    back.

    A float32 is represented by its bits ([math.Float32bits] is the identity). *)

From S2P Require Import Prelude State GoStrings.

Local Open Scope Z_scope.

(** ** float32

    The conversion of an integer of at most 24 bits is exact. *)
Definition float32_of_int (z : Z) : Z :=
  if z =? 0 then 0 else
  let m := Z.abs z in
  let e := Z.log2 m in
  (if z <? 0 then 2 ^ 31 else 0) + (127 + e) * 2 ^ 23 + (m * 2 ^ (23 - e) - 2 ^ 23).
(** The integer that the bits of a float32 stand for, when they stand for one. *)
Definition int_of_float32 (bits : Z) : Z :=
  let e := Z.shiftr bits 23 mod 256 in
  let m := Z.shiftr (2 ^ 23 + bits mod 2 ^ 23) (150 - e) in
  if e =? 0 then 0 else if Z.testbit bits 31 then - m else m.

(** ** Data *)
Definition FrameTypeOff : Z := 0.
Definition FrameTypeWpan : Z := 1.
Definition FrameTypeWpanTap : Z := 2.
Definition FrameTypeUnknown : Z := 3.
Definition FrameTypeOffStr : string := "off".
Definition FrameTypeWpanStr : string := "wpan".
Definition FrameTypeWpanTapStr : string := "wpan-tap".

Definition dltIeee802154 : Z := 195.
Definition pcapMagicNumber : Z := 0xA1B2C3D4.
Definition pcapVersionMajor : Z := 2.
Definition pcapVersionMinor : Z := 4.
Definition pcapFileHeaderSize : nat := 24.
Definition pcapFrameHeaderSize : nat := 16.
Definition dltIeee802154Tap : Z := 283.
Definition pcapTapFrameHeaderSize : nat := 28.
Definition tlvFcsType : Z := 0.
Definition tlvRss : Z := 1.
Definition tlvChannelAssignment : Z := 3.

Definition timeReference802154frameData : list Z :=
  [0x04; 0x21] ++ bytes_of_string "This is an OTNS simulation PCAP-start t=0 reference frame." ++ [0x61; 0x3f].

Record Frame := mkFrame { f_Timestamp : Z; f_Data : list Z; f_Channel : Z; f_Rssi : Z }.

Definition ParseFrameTypeStr (tp : string) : Z :=
  if String.eqb tp FrameTypeOffStr then FrameTypeOff
  else if String.eqb tp FrameTypeWpanStr then FrameTypeWpan
  else if String.eqb tp FrameTypeWpanTapStr then FrameTypeWpanTap
  else FrameTypeUnknown.

(** ** The operating system's file *)
Record fd := mkFd { fd_bytes : list Z; fd_calls : nat; fd_closed : bool }.
Class FileEnv := {
  (** whether the file can be opened *)
  os_OpenFile : bool;
  (** the outcome of the [n]-th call: an error after some of the bytes, or none *)
  fd_fault : nat -> option nat;
}.

(** The two implementations of the interface [File]. *)
Inductive File := wpanFile | tapFile.

Section pcap.
Context {env : FileEnv}.
Abbreviation FM := (st fd) (only parsing).

(** The results tell whether there was no error. *)
Definition Write (b : list Z) : FM bool := fun f =>
  if fd_closed f then Ok (false, f) else
  match fd_fault (fd_calls f) with
  | None => Ok (true, mkFd (fd_bytes f ++ b) (S (fd_calls f)) false)
  | Some n => Ok (false, mkFd (fd_bytes f ++ take n b) (S (fd_calls f)) false)
  end.
Definition Sync : FM bool := fun f =>
  if fd_closed f then Ok (false, f) else
  Ok (match fd_fault (fd_calls f) with None => true | Some _ => false end,
      mkFd (fd_bytes f) (S (fd_calls f)) false).
Definition Close : FM bool := fun f => Ok (negb (fd_closed f), mkFd (fd_bytes f) (fd_calls f) true).

(** [header[off:off+n]] of a fixed array is overwritten with [v]. *)
Definition put (n : nat) (v : Z) (off : nat) (header : list Z) : list Z := copy_at header off (le_put n v).

Definition wpan_file_header (dlt : Z) : list Z :=
  put 4 dlt 20 (put 4 256 16 (put 4 0 12 (put 4 0 8 (put 2 pcapVersionMinor 6 (put 2 pcapVersionMajor 4
    (put 4 pcapMagicNumber 0 (replicate pcapFileHeaderSize 0))))))).
Definition writeHeader (file : File) : FM bool :=
  ok ← Write (wpan_file_header (match file with wpanFile => dltIeee802154 | tapFile => dltIeee802154Tap end));
  if (ok : bool) then Sync else mret false.

(** [newWpanFile] and [newWpanTapFile] *)
Definition newFile (file : File) : FM (option File) :=
  if negb os_OpenFile then mret None else
  ok ← writeHeader file;
  if (ok : bool) then mret (Some file) else _ ← Close; mret None.

(** The frame header of a [size]-byte array. *)
Definition frame_header (size : nat) (frame : Frame) (len : Z) : list Z :=
  let sec := u32 (f_Timestamp frame / 1000000) in
  let usec := u32 (f_Timestamp frame mod 1000000) in
  put 4 len 12 (put 4 len 8 (put 4 usec 4 (put 4 sec 0 (replicate size 0)))).

Definition setTlv (hdr : list Z) (idx : nat) (tlvType : Z) (data : list Z) : list Z * nat :=
  let lenData := u16 (Z.of_nat (length data)) in
  let l := Z.land lenData 0xFFFC in
  let l := if Z.land lenData 3 >? 0 then u16 (l + 4) else l in
  let tlv := replicate (Z.to_nat (4 + l)) 0 in
  let tlv := put 2 lenData 2 (put 2 tlvType 0 tlv) in
  let tlv := copy_at tlv 4 data in
  (copy_at hdr idx tlv, (idx + Z.to_nat (4 + l))%nat).

Definition wpan_header (frame : Frame) : list Z :=
  frame_header pcapFrameHeaderSize frame (u32 (Z.of_nat (length (f_Data frame)))).

Definition tap_header (frame : Frame) : list Z :=
  let frLen := u32 (u32 (Z.of_nat (length (f_Data frame))) + Z.of_nat pcapTapFrameHeaderSize) in
  let header := frame_header (pcapFrameHeaderSize + pcapTapFrameHeaderSize) frame frLen in
  let n := pcapFrameHeaderSize in
  let header := <[n:=0]> header in
  let n := (n + 1)%nat in
  let header := <[n:=0]> header in
  let n := (n + 1)%nat in
  let header := put 2 (Z.of_nat pcapTapFrameHeaderSize) n header in
  let n := (n + 2)%nat in
  let '(header, n) := setTlv header n tlvFcsType [1] in
  let '(header, n) := setTlv header n tlvRss (put 4 (f_Rssi frame) 0 (replicate 4 0)) in
  let channelAssign := <[2%nat:=0]> (put 2 (u16 (f_Channel frame)) 0 (replicate 3 0)) in
  fst (setTlv header n tlvChannelAssignment channelAssign).

Definition AppendFrame (file : File) (frame : Frame) : FM bool :=
  ok ← Write (match file with wpanFile => wpan_header frame | tapFile => tap_header frame end);
  if (ok : bool) then Write (f_Data frame) else mret false.

Definition timeReference : Frame := mkFrame 0 timeReference802154frameData 0 0.

Definition NewFile (frameType : Z) (useTimeRefFrame : bool) : FM (option File) :=
  f ← (if frameType =? FrameTypeWpan then newFile wpanFile
       else if frameType =? FrameTypeWpanTap then newFile tapFile
       else mret None);
  match f with
  | Some file =>
    if useTimeRefFrame then
      ok ← AppendFrame file timeReference;
      if (ok : bool) then mret f else panics Panicf
    else mret f
  | None => mret None
  end.

(** [Dispatcher.pcapFrameWriter]: the frames that come out of the channel, until it is
    closed; errors are only logged. *)
Definition pcapFrameWriter (file : File) (frames : list Frame) : FM () :=
  _ ← for_each frames (fun item => _ ← AppendFrame file item; mret tt);
  _ ← Close;
  mret tt.
End pcap.

(** ** A reader of the format

    A file header with the link type, then records: seconds, microseconds, the length
    twice, and the packet.  An incomplete record at the end is ignored. *)
Record PcapRecord := mkRecord { r_sec : Z; r_usec : Z; r_orig : Z; r_packet : list Z }.

Definition read_header (bs : list Z) : option (Z * list Z) :=
  if bool_decide (pcapFileHeaderSize <= length bs)%nat &&
     (le_get (take 4 bs) =? pcapMagicNumber) &&
     (le_get (take 2 (drop 4 bs)) =? 2) && (le_get (take 2 (drop 6 bs)) =? 4)
  then Some (le_get (take 4 (drop 20 bs)), drop 24 bs) else None.

Fixpoint read_records (fuel : nat) (bs : list Z) : list PcapRecord :=
  match fuel with
  | O => []
  | S fuel =>
    let incl := Z.to_nat (le_get (take 4 (drop 8 bs))) in
    if bool_decide (pcapFrameHeaderSize + incl <= length bs)%nat then
      mkRecord (le_get (take 4 bs)) (le_get (take 4 (drop 4 bs))) (le_get (take 4 (drop 12 bs)))
        (take incl (drop 16 bs)) :: read_records fuel (drop incl (drop 16 bs))
    else []
  end.

(** The type-length-value fields of a TAP header, each padded to 4 bytes. *)
Fixpoint read_tlvs (fuel : nat) (bs : list Z) : list (Z * list Z) :=
  match fuel with
  | O => []
  | S fuel =>
    if bool_decide (4 <= length bs)%nat then
      let len := le_get (take 2 (drop 2 bs)) in
      (le_get (take 2 bs), take (Z.to_nat len) (drop 4 bs)) ::
        read_tlvs fuel (drop (Z.to_nat (4 * ((len + 3) / 4))) (drop 4 bs))
    else []
  end.
Definition tlv (t : Z) (tlvs : list (Z * list Z)) : option (list Z) :=
  snd <$> List.find (fun x => fst x =? t) tlvs.

(** What a reader learns of a frame: when it was sent, its bytes, and, with a TAP header,
    its signal level and channel. *)
Record Capture := mkCapture { c_time : Z; c_rss : option Z; c_channel : option Z; c_frame : list Z }.
Definition read_packet (dlt : Z) (r : PcapRecord) : Capture :=
  let time := r_sec r * 1000000 + r_usec r in
  if dlt =? dltIeee802154Tap then
    let hlen := Z.to_nat (le_get (take 2 (drop 2 (r_packet r)))) in
    let tlvs := read_tlvs hlen (take (hlen - 4) (drop 4 (r_packet r))) in
    mkCapture time (le_get <$> tlv 1 tlvs) ((fun v => le_get (take 2 v)) <$> tlv 3 tlvs) (drop hlen (r_packet r))
  else mkCapture time None None (r_packet r).

Definition read_pcap (bs : list Z) : option (Z * list Capture) :=
  '(dlt, bs) ← read_header bs;
  Some (dlt, read_packet dlt <$> read_records (length bs) bs).

(** What should be read back of a frame. *)
Definition dlt_of (file : File) : Z := match file with wpanFile => dltIeee802154 | tapFile => dltIeee802154Tap end.
Definition capture_of (file : File) (f : Frame) : Capture :=
  match file with
  | wpanFile => mkCapture (f_Timestamp f) None None (f_Data f)
  | tapFile => mkCapture (f_Timestamp f) (Some (f_Rssi f)) (Some (f_Channel f)) (f_Data f)
  end.
(** The times, lengths, signal levels and channels that the format can hold. *)
Definition frame_ok (f : Frame) : Prop :=
  0 <= f_Timestamp f < 2 ^ 32 * 1000000 /\ Z.of_nat (length (f_Data f)) + 28 < 2 ^ 32 /\
  in_u 32 (f_Rssi f) /\ in_u 8 (f_Channel f).

(** ** The layout of the headers *)
Definition head16 (f : Frame) (len : Z) : list Z :=
  le_put 4 (u32 (f_Timestamp f / 1000000)) ++ le_put 4 (u32 (f_Timestamp f mod 1000000)) ++ le_put 4 len ++ le_put 4 len.
Definition tap28 (f : Frame) : list Z :=
  [0; 0; 28; 0] ++ [0; 0; 1; 0; 1; 0; 0; 0] ++ [1; 0; 4; 0] ++ le_put 4 (f_Rssi f) ++
  [3; 0; 3; 0] ++ le_put 2 (u16 (f_Channel f)) ++ [0; 0].

Lemma wpan_header_layout f : wpan_header f = head16 f (u32 (Z.of_nat (length (f_Data f)))).
Proof. reflexivity. Qed.
Lemma tap_header_layout f :
  tap_header f = head16 f (u32 (u32 (Z.of_nat (length (f_Data f))) + 28)) ++ tap28 f.
Proof. reflexivity. Qed.

(** ** Reading what was written *)
Definition packet (file : File) (f : Frame) : list Z :=
  match file with wpanFile => f_Data f | tapFile => tap28 f ++ f_Data f end.
Definition entry (file : File) (f : Frame) : list Z :=
  (match file with wpanFile => wpan_header f | tapFile => tap_header f end) ++ f_Data f.

Lemma length_head16 f len : length (head16 f len) = 16%nat.
Proof. reflexivity. Qed.
Lemma length_tap28 f : length (tap28 f) = 28%nat.
Proof. reflexivity. Qed.

Lemma entry_layout file f :
  frame_ok f -> entry file f = head16 f (Z.of_nat (length (packet file f))) ++ packet file f.
Proof.
  intros (_ & HL & _). unfold entry. destruct file; cbn [packet].
  - rewrite wpan_header_layout, u32_id; [done|]. unfold in_u. lia.
  - rewrite tap_header_layout, <- app_assoc. rewrite length_app, length_tap28.
    rewrite (u32_id (Z.of_nat (length (f_Data f)))), u32_id by (unfold in_u; lia).
    do 2 f_equal. lia.
Qed.

Lemma read_records_fuel fuel fuel' bs :
  (length bs <= fuel)%nat -> (length bs <= fuel')%nat -> read_records fuel bs = read_records fuel' bs.
Proof.
  revert fuel' bs. induction fuel as [|fuel IH]; intros [|fuel'] bs H H'; [done|..]; cbn [read_records];
    rewrite ?bool_decide_false by (unfold pcapFrameHeaderSize; lia); try done.
  case_bool_decide as HB; [|done]. f_equal. unfold pcapFrameHeaderSize in HB.
  apply IH; rewrite !length_drop; lia.
Qed.

Lemma cut_mid {A} (a b c : list A) n m : n = length a -> m = length b -> take m (drop n (a ++ b ++ c)) = b.
Proof. intros -> ->. by rewrite drop_app_length, take_app_length. Qed.
Lemma head16_fields f len rest :
  take 4 (head16 f len ++ rest) = le_put 4 (u32 (f_Timestamp f / 1000000)) /\
  take 4 (drop 4 (head16 f len ++ rest)) = le_put 4 (u32 (f_Timestamp f mod 1000000)) /\
  take 4 (drop 8 (head16 f len ++ rest)) = le_put 4 len /\
  take 4 (drop 12 (head16 f len ++ rest)) = le_put 4 len /\ drop 16 (head16 f len ++ rest) = rest.
Proof.
  unfold head16. set (a := le_put 4 (u32 (_ / _))). set (b := le_put 4 (u32 (_ mod _))). set (c := le_put 4 len).
  assert (length a = 4 /\ length b = 4 /\ length c = 4)%nat as (Ha & Hb & Hc) by (split_and!; apply length_le_put).
  clearbody a b c. rewrite <- !app_assoc. split_and!.
  - apply (cut_mid [] a _ 0 4); done.
  - by apply (cut_mid a b).
  - rewrite (app_assoc a b). apply cut_mid; [rewrite length_app|]; lia.
  - rewrite (app_assoc a b), (app_assoc (a ++ b) c). apply cut_mid; [rewrite !length_app|]; lia.
  - rewrite (app_assoc a b), (app_assoc (a ++ b) c), (app_assoc ((a ++ b) ++ c) c).
    apply drop_app_length'. rewrite !length_app. lia.
Qed.

Lemma read_records_entry file f rest :
  frame_ok f ->
  read_records (length (entry file f ++ rest)) (entry file f ++ rest) =
    mkRecord (f_Timestamp f / 1000000) (f_Timestamp f mod 1000000) (Z.of_nat (length (packet file f))) (packet file f)
      :: read_records (length rest) rest.
Proof.
  intros Hf. rewrite entry_layout by done. set (p := packet file f). set (len := Z.of_nat (length p)).
  assert (in_u 32 len) as Hlen.
  { unfold in_u, len, p. destruct Hf as (_ & HL & _). destruct file; cbn [packet]; rewrite ?length_app, ?length_tap28; lia. }
  destruct Hf as (HT & _).
  rewrite <- app_assoc. set (bs := head16 f len ++ p ++ rest).
  assert (length bs = 16 + (length p + length rest))%nat as Hbs by (unfold bs; by rewrite !length_app, length_head16).
  rewrite (read_records_fuel _ (S (length bs))) by lia. cbn [read_records].
  destruct (head16_fields f len (p ++ rest)) as (E1 & E2 & E3 & E4 & E5). fold bs in E1, E2, E3, E4, E5.
  rewrite E1, E2, E3, E4, E5.
  pose proof (Z.mod_pos_bound (f_Timestamp f) 1000000 ltac:(lia)).
  assert (0 <= f_Timestamp f / 1000000 < 2 ^ 32).
  { split; [apply Z.div_pos; lia|apply Z.div_lt_upper_bound; lia]. }
  rewrite !(u32_id (_ / _)), !(u32_id (_ mod _)) by (unfold in_u; lia).
  rewrite !(le_get_put_id 4) by (done || unfold in_u; simpl; lia).
  replace (Z.to_nat len) with (length p) by (unfold len; lia).
  rewrite bool_decide_true by (unfold pcapFrameHeaderSize; lia).
  rewrite take_app_length, drop_app_length. f_equal. apply read_records_fuel; lia.
Qed.

Lemma read_packet_entry file f :
  frame_ok f ->
  read_packet (dlt_of file) (mkRecord (f_Timestamp f / 1000000) (f_Timestamp f mod 1000000)
    (Z.of_nat (length (packet file f))) (packet file f)) = capture_of file f.
Proof.
  intros (HT & _ & HR & HC).
  assert (f_Timestamp f / 1000000 * 1000000 + f_Timestamp f mod 1000000 = f_Timestamp f) as E
    by (pose proof (Z.div_mod (f_Timestamp f) 1000000); lia).
  destruct file; unfold read_packet; cbn [dlt_of packet r_sec r_usec r_packet].
  - by rewrite E.
  - change (dltIeee802154Tap =? dltIeee802154Tap) with true. cbn iota. rewrite E.
    set (r := f_Rssi f) in *. set (c := f_Channel f) in *.
    assert (u16 c = c) as Hc by (apply u16_id; unfold in_u in *; lia).
    assert (le_get (le_put 4 r) = r) as E4 by (by apply le_get_put_id).
    assert (le_get (le_put 2 (u16 c)) = c) as E2 by (rewrite Hc; apply le_get_put_id; unfold in_u in *; simpl; lia).
    transitivity (mkCapture (f_Timestamp f) (Some (le_get (le_put 4 r))) (Some (le_get (le_put 2 (u16 c)))) (f_Data f));
      [reflexivity|]. by rewrite E4, E2.
Qed.

Lemma read_entries file fs rest :
  Forall frame_ok fs ->
  read_packet (dlt_of file) <$> read_records (length (concat (entry file <$> fs) ++ rest)) (concat (entry file <$> fs) ++ rest) =
    (capture_of file <$> fs) ++ (read_packet (dlt_of file) <$> read_records (length rest) rest).
Proof.
  induction 1 as [|f fs Hf _ IH]; [done|]. cbn [fmap list_fmap concat]. rewrite <- app_assoc.
  rewrite read_records_entry by done. cbn [fmap list_fmap]. rewrite read_packet_entry by done.
  rewrite <- app_comm_cons. f_equal. exact IH.
Qed.
Lemma read_pcap_file file bs :
  read_pcap (wpan_file_header (dlt_of file) ++ bs) =
    Some (dlt_of file, read_packet (dlt_of file) <$> read_records (length bs) bs).
Proof. destruct file; reflexivity. Qed.

(** ** The writer *)
Section writer.
Context {env : FileEnv}.

Definition header_of (file : File) (f : Frame) : list Z :=
  match file with wpanFile => wpan_header f | tapFile => tap_header f end.

(** Whatever happens, bytes are only added at the end. *)
Definition grown (bs : list Z) (f : fd) : Prop := bs `prefix_of` fd_bytes f.
Lemma grown_Write bs b : preserves (grown bs) (Write b).
Proof.
  intros f ok f' H E. unfold Write in E. destruct (fd_closed f); [by simplify_eq|].
  destruct (fd_fault _); simplify_eq; by apply prefix_app_r.
Qed.
#[local] Hint Resolve grown_Write : hoare.
Lemma grown_AppendFrame bs file fr : preserves (grown bs) (AppendFrame file fr).
Proof. unfold AppendFrame. pres. Qed.
Lemma grown_Close bs : preserves (grown bs) Close.
Proof. intros f ok f' H E. unfold Close in E. by simplify_eq. Qed.
#[local] Hint Resolve grown_AppendFrame grown_Close : hoare.
Lemma grown_writer bs file frames : preserves (grown bs) (pcapFrameWriter file frames).
Proof. unfold pcapFrameWriter. pres. Qed.

(** A write that reports no error was done. *)
Lemma Write_true b f f' :
  Write b f = Ok (true, f') -> fd_bytes f' = fd_bytes f ++ b /\ fd_closed f' = false.
Proof. unfold Write. intros E. destruct (fd_closed f); [done|]. destruct (fd_fault _); by simplify_eq. Qed.
Lemma AppendFrame_true file fr f f' :
  AppendFrame file fr f = Ok (true, f') -> fd_bytes f' = fd_bytes f ++ entry file fr /\ fd_closed f' = false.
Proof.
  unfold AppendFrame. intros (ok & f1 & E1 & E)%bind_st_Ok. destruct ok; [|by apply ret_st_Ok in E as [? _]].
  apply Write_true in E1 as [B1 _]. apply Write_true in E as [B2 ?]. split; [|done].
  rewrite B2, B1. unfold entry. by destruct file; rewrite <- app_assoc.
Qed.
Lemma NewFile_Some frameType file f f' :
  NewFile frameType true f = Ok (Some file, f') ->
  fd_bytes f' = fd_bytes f ++ wpan_file_header (dlt_of file) ++ entry file timeReference /\ fd_closed f' = false /\
  frameType = match file with wpanFile => FrameTypeWpan | tapFile => FrameTypeWpanTap end.
Proof.
  assert (forall g f1 r, newFile g f = Ok (r, f1) -> r = None \/ r = Some g /\
    fd_bytes f1 = fd_bytes f ++ wpan_file_header (dlt_of g)) as HN.
  { intros g f1 r E. unfold newFile in E. destruct os_OpenFile; simpl in E; [|left; by apply ret_st_Ok in E as [? _]].
    apply bind_st_Ok in E as (ok & f2 & E1 & E). destruct ok.
    - right. apply ret_st_Ok in E as [<- <-]. split; [done|]. unfold writeHeader in E1.
      apply bind_st_Ok in E1 as (ok & f3 & E3 & E1). destruct ok; [|by apply ret_st_Ok in E1 as [? _]].
      apply Write_true in E3 as [B3 _]. unfold Sync in E1. destruct (fd_closed f3); [done|].
      injection E1 as _ <-. simpl. by destruct g.
    - left. apply bind_st_Ok in E as (? & ? & _ & E). by apply ret_st_Ok in E as [? _]. }
  unfold NewFile. intros (r & f1 & E1 & E)%bind_st_Ok.
  assert (exists g, r = Some g /\ fd_bytes f1 = fd_bytes f ++ wpan_file_header (dlt_of g) /\
    frameType = match g with wpanFile => FrameTypeWpan | tapFile => FrameTypeWpanTap end) as (g & -> & B1 & Ht).
  { destruct r as [g|]; [|by apply ret_st_Ok in E as [? _]]. exists g. split; [done|].
    destruct (Z.eqb_spec frameType FrameTypeWpan) as [->|]; [|destruct (Z.eqb_spec frameType FrameTypeWpanTap) as [->|]];
      [| |by apply ret_st_Ok in E1 as [? _]]; apply HN in E1 as [?|[[= ->] ?]]; done. }
  apply bind_st_Ok in E as (ok & f2 & E2 & E). destruct ok; [|done]. apply ret_st_Ok in E as [[= <-] <-].
  apply AppendFrame_true in E2 as [B2 ?]. split; [|done]. by rewrite B2, B1, app_assoc.
Qed.

Lemma for_each_app {σ A} (l1 l2 : list A) (body : A -> st σ ()) s :
  for_each (l1 ++ l2) body s = (_ ← for_each l1 body; for_each l2 body) s.
Proof.
  revert s. induction l1 as [|x l1 IH]; intros s; [done|]. simpl. unfold mbind, st_bind in *.
  destruct (body x s) as [[[] s1]|]; [apply IH|done].
Qed.

(** The frames are appended, as long as the calls succeed. *)
Definition file_ops (file : File) (frames : list Frame) : st fd () :=
  for_each frames (fun item => _ ← AppendFrame file item; mret tt).
Lemma file_ops_good file frames f :
  fd_closed f = false ->
  (forall n, (fd_calls f <= n < fd_calls f + 2 * length frames)%nat -> fd_fault n = None) ->
  file_ops file frames f =
    Ok (tt, mkFd (fd_bytes f ++ concat (entry file <$> frames)) (fd_calls f + 2 * length frames) false).
Proof.
  revert f. induction frames as [|fr frames IH]; intros [bs n c] Hc HF; simpl in *.
  - subst. by rewrite app_nil_r, Nat.add_0_r.
  - unfold file_ops in *. cbn [for_each]. unfold mbind at 1 2, st_bind at 1 2. unfold AppendFrame, mbind, st_bind, Write.
    cbn [fd_closed fd_calls fd_bytes]. rewrite Hc. rewrite (HF n) by lia. cbn [fd_closed fd_calls fd_bytes].
    rewrite (HF (S n)) by lia. cbn [fd_closed fd_calls fd_bytes]. unfold mret, st_ret.
    rewrite IH; [|done|intros m Hm; apply HF; simpl in Hm; lia]. simpl. do 2 f_equal. f_equal; [|lia].
    unfold entry. by destruct file; rewrite <- !app_assoc.
Qed.

(** C33: What is recorded can be read back.  When the file was created and every call for the
    first frames succeeds, a reader of the PCAP format finds the link type of the file, the
    time reference frame, and then these frames with their times and bytes (and with their
    signal level and channel in a TAP file), whatever becomes of the calls that follow; and
    nothing else if no frames follow. *)
Theorem pcap_roundtrip frameType file frames rest f f1 u f2 :
  fd_bytes f = [] -> NewFile frameType true f = Ok (Some file, f1) ->
  (forall n, (fd_calls f1 <= n < fd_calls f1 + 2 * length frames)%nat -> fd_fault n = None) ->
  Forall frame_ok frames ->
  pcapFrameWriter file (frames ++ rest) f1 = Ok (u, f2) ->
  exists more, read_pcap (fd_bytes f2) =
      Some (dlt_of file, (capture_of file <$> timeReference :: frames) ++ more) /\ (rest = [] -> more = []).
Proof.
  intros B0 EN HF Hok EW. apply NewFile_Some in EN as (B1 & Hc & _). rewrite B0, app_nil_l in B1.
  assert (Forall frame_ok (timeReference :: frames)) as Hok'.
  { constructor; [|done]. split; [simpl; lia|]. split; [vm_compute; reflexivity|]. by split; vm_compute. }
  set (bs := wpan_file_header (dlt_of file) ++ concat (entry file <$> timeReference :: frames)).
  assert (exists s, fd_bytes f2 = bs ++ s /\ (rest = [] -> s = [])) as (s & -> & Hs).
  { unfold pcapFrameWriter in EW. apply bind_st_Ok in EW as ([] & f3 & E3 & EW). rewrite for_each_app in E3.
    apply bind_st_Ok in E3 as ([] & f4 & E4 & E3). pose proof (file_ops_good file frames f1 Hc HF) as E4'.
    unfold file_ops in E4'. rewrite E4' in E4. injection E4 as <-.
    assert (grown bs f2) as [s Hs].
    { assert (preserves (grown bs) (_ ← file_ops file rest; _ ← Close; mret tt)) as HP by (unfold file_ops; pres).
      eapply HP; [|unfold mbind, st_bind; unfold file_ops; rewrite E3; exact EW].
      unfold grown, bs. cbn [fd_bytes]. rewrite B1. cbn [fmap list_fmap concat]. by rewrite <- !app_assoc. }
    exists s. split; [done|]. intros ->. apply ret_st_Ok in E3 as [_ <-].
    apply bind_st_Ok in EW as (? & f5 & E5 & EW). injection E5 as _ <-. apply ret_st_Ok in EW as [_ <-].
    cbn [fd_bytes] in Hs. rewrite B1 in Hs. unfold bs in Hs. cbn [fmap list_fmap concat] in Hs.
    rewrite <- !app_assoc in Hs. do 2 apply app_inv_head in Hs.
    rewrite <- (app_nil_r (concat _)) in Hs at 1. by apply app_inv_head in Hs. }
  unfold bs. rewrite <- app_assoc, read_pcap_file, read_entries by done.
  eexists. split; [reflexivity|]. by intros ->%Hs.
Qed.
End writer.

Lemma float32_exact z : -128 <= z < 128 -> int_of_float32 (float32_of_int z) = z /\ in_u 32 (float32_of_int z).
Proof.
  intros Hz. assert (forallb (fun k => let z := Z.of_nat k - 128 in (int_of_float32 (float32_of_int z) =? z) &&
    (0 <=? float32_of_int z) && (float32_of_int z <? 2 ^ 32)) (seq 0 256) = true) as HB by (vm_compute; reflexivity).
  rewrite forallb_forall in HB. specialize (HB (Z.to_nat (z + 128))).
  replace (Z.of_nat (Z.to_nat (z + 128)) - 128) with z in HB by lia.
  assert (In (Z.to_nat (z + 128)) (seq 0 256)) as HI by (apply in_seq; lia). specialize (HB HI).
  unfold in_u. apply andb_true_iff in HB as [[? ?]%andb_true_iff ?]. lia.
Qed.

(** ** An example: two frames are recorded and the third write fails *)
Definition ex_file_env : FileEnv := {| os_OpenFile := true; fd_fault n := if (n =? 8)%nat then Some 3%nat else None |}.
Definition ex_frames : list Frame :=
  [mkFrame 1500000 [1; 2; 3] 11 (float32_of_int (-20)); mkFrame 2000001 [4; 5] 26 (float32_of_int 8)].
Lemma pcap_roundtrip_witness :
  exists f1 u f2 more,
    NewFile (env := ex_file_env) FrameTypeWpanTap true (mkFd [] 0 false) = Ok (Some tapFile, f1) /\
    pcapFrameWriter (env := ex_file_env) tapFile (ex_frames ++ [mkFrame 3000000 [6] 11 0]) f1 = Ok (u, f2) /\
    read_pcap (fd_bytes f2) = Some (283, (capture_of tapFile <$> timeReference :: ex_frames) ++ more).
Proof.
  destruct (NewFile (env := ex_file_env) FrameTypeWpanTap true (mkFd [] 0 false)) as [[r f1]|] eqn:E1;
    [|vm_compute in E1; discriminate]. assert (r = Some tapFile /\ fd_calls f1 = 4%nat) as [-> Hn].
  { vm_compute in E1. injection E1 as <- <-. by split. }
  destruct (pcapFrameWriter (env := ex_file_env) tapFile (ex_frames ++ [mkFrame 3000000 [6] 11 0]) f1) as [[u f2]|] eqn:E2.
  - destruct (pcap_roundtrip (env := ex_file_env) FrameTypeWpanTap tapFile ex_frames [mkFrame 3000000 [6] 11 0]
      (mkFd [] 0 false) f1 u f2 eq_refl E1) as (more & H & _); [| |exact E2|].
    + rewrite Hn. intros n H. simpl in *. destruct (Nat.eqb_spec n 8); [lia|done].
    + repeat constructor; simpl; try lia; try (vm_compute; reflexivity); try (vm_compute; discriminate).
    + by exists f1, u, f2, more.
  - vm_compute in E1. injection E1 as <-. vm_compute in E2. discriminate.
Defined.
