(* ===== verification/Dispatcher.v ===== *)
(** * The dispatcher

    The core of the simulator (src/dispatcher/dispatcher.go, with [Node.sendEvent] of
    Node.go and the statistics of stats.go): it owns the nodes and the simulation time,
    handles the events that node processes send, keeps future events in the event queue
    and the alarm manager, and dispatches radio frames through the radio model.

    State.  [Node] objects are pointers held by several maps, so they live in a store and
    the maps hold locations; a node's [RadioNode] has the same location in the radio
    model's store.  Calls to the visualizer and to the callback handler, bytes written to
    a node's socket, recorded frames and printed lines are appended to [d_out].

    Environment.  Results of socket writes, drawn random numbers, the order in which Go
    ranges over maps, and the wall clock are parameters.  Log output is left out. *)

From S2P Require Import Prelude State Pcap Types Event GoFloat GoStrings.
From S2P Require Import SendQueue AlarmMgr Wpan Visualize DNode Rloc16Map Coaps Energy RadioNode RadioModel.
From Stdlib Require Import Ascii.

Local Open Scope Z_scope.

Record Config := mkConfig {
  cfg_Realtime : bool;
  cfg_DumpPackets : bool;
  cfg_PcapEnabled : bool;
  cfg_DefaultWatchOn : bool;
  cfg_PhyTxStats : bool;
  (** whether [DefaultWatchLevel] is the name of a log level *)
  cfg_WatchLevelOk : bool;
  cfg_Speed : float;
}.

Record VisualizationOptions := mkVisOptions {
  vo_BroadcastMessage : bool; vo_UnicastMessage : bool; vo_AckMessage : bool;
  vo_RouterTable : bool; vo_ChildTable : bool;
}.
Definition defaultVisualizationOptions : VisualizationOptions := mkVisOptions true true false true true.

Record TimeWindowStats := mkTimeWindowStats {
  tw_WinStartUs : Z;
  tw_WinWidthUs : Z;
  tw_PhyStats : gmap NodeId PhyStats;
  tw_statsWinStart : gmap NodeId PhyStats;
}.
Definition defaultTimeWindowStats : TimeWindowStats := mkTimeWindowStats 0 1000000 ∅ ∅.

Record Counters := mkCounters {
  AlarmEvents : Z; RadioEvents : Z; StatusPushEvents : Z; UartWriteEvents : Z; LogWriteEvents : Z;
  HostEvents : Z; OtherEvents : Z; DispatchByExtAddrSucc : Z; DispatchByExtAddrFail : Z;
  DispatchByShortAddrSucc : Z; DispatchByShortAddrFail : Z; DispatchAllInRange : Z; TopologyChanges : Z;
}.
Definition zeroCounters : Counters := mkCounters 0 0 0 0 0 0 0 0 0 0 0 0 0.
Definition add_counters (a b : Counters) : Counters :=
  mkCounters (u64 (AlarmEvents a + AlarmEvents b)) (u64 (RadioEvents a + RadioEvents b))
    (u64 (StatusPushEvents a + StatusPushEvents b)) (u64 (UartWriteEvents a + UartWriteEvents b))
    (u64 (LogWriteEvents a + LogWriteEvents b)) (u64 (HostEvents a + HostEvents b))
    (u64 (OtherEvents a + OtherEvents b)) (u64 (DispatchByExtAddrSucc a + DispatchByExtAddrSucc b))
    (u64 (DispatchByExtAddrFail a + DispatchByExtAddrFail b))
    (u64 (DispatchByShortAddrSucc a + DispatchByShortAddrSucc b))
    (u64 (DispatchByShortAddrFail a + DispatchByShortAddrFail b))
    (u64 (DispatchAllInRange a + DispatchAllInRange b)) (u64 (TopologyChanges a + TopologyChanges b)).
Definition oneAlarm := mkCounters 1 0 0 0 0 0 0 0 0 0 0 0 0.
Definition oneRadio := mkCounters 0 1 0 0 0 0 0 0 0 0 0 0 0.
Definition oneStatusPush := mkCounters 0 0 1 0 0 0 0 0 0 0 0 0 0.
Definition oneUartWrite := mkCounters 0 0 0 1 0 0 0 0 0 0 0 0 0.
Definition oneLogWrite := mkCounters 0 0 0 0 1 0 0 0 0 0 0 0 0.
Definition oneHost := mkCounters 0 0 0 0 0 1 0 0 0 0 0 0 0.
Definition oneOther := mkCounters 0 0 0 0 0 0 1 0 0 0 0 0 0.
Definition oneExtAddrSucc := mkCounters 0 0 0 0 0 0 0 1 0 0 0 0 0.
Definition oneExtAddrFail := mkCounters 0 0 0 0 0 0 0 0 1 0 0 0 0.
Definition oneShortAddrSucc := mkCounters 0 0 0 0 0 0 0 0 0 1 0 0 0.
Definition oneShortAddrFail := mkCounters 0 0 0 0 0 0 0 0 0 0 1 0 0.
Definition oneAllInRange := mkCounters 0 0 0 0 0 0 0 0 0 0 0 1 0.
Definition oneTopology := mkCounters 0 0 0 0 0 0 0 0 0 0 0 0 1.

(** [CallbackHandler], except for [OnNewNodeDetected], which answers. *)
Inductive Callback :=
| OnUartWrite (id : NodeId) (data : list Z)
| OnLogWrite (id : NodeId) (data : list Z) (isFromHost : bool)
| OnNextEventTime (ts : Z)
| OnRfSimEvent (id : NodeId) (evt : Event)
| OnMsgToHost (id : NodeId) (evt : Event)
| OnUartDisconnected (id : NodeId)
| OnNodeDisconnected (id : NodeId).

Inductive Output :=
| OVis (v : VisCall)
| OCb (c : Callback)
| OWrite (id : NodeId) (conn : nat) (bytes : list Z)
| OPcap (f : Frame)
| ODump (ts : Z) (id : NodeId) (data : list Z)
| OClose (conn : nat).

Record Dispatcher (M : Type) := mkDispatcher {
  d_CurTime : Z;
  d_Counters : Counters;
  d_cfg : Config;
  d_pauseTime : Z;
  d_alarmMgr : alarmMgr;
  d_eventQueue : list Event;
  d_store : gmap nat Node;
  d_nodes : gmap NodeId nat;
  d_nodesArray : list nat;
  d_deletedNodes : gset NodeId;
  d_aliveNodes : gset NodeId;
  d_isFirstNodeAdded : bool;
  d_speedStartTime : Z;
  d_speed : float;
  (** wall clock times are in nanoseconds since the start of the program *)
  d_speedStartRealTime : Z;
  d_lastEnergyVizTime : Z;
  d_extaddrMap : gmap Z nat;
  d_rloc16Map : gmap Z (list nat);
  d_globalPacketLossRatio : float;
  d_visOptions : VisualizationOptions;
  d_coaps : option (list CoapMessage);
  d_watchingNodes : gset NodeId;
  d_energyAnalyser : option EnergyAnalyser;
  d_radio : radio_st M;
  d_oldStats : NodeStats;
  d_timeWinStats : TimeWindowStats;
  d_next : nat;
  d_writes : nat;
  d_fails : nat;
  (** the wall clock, and how often it was read *)
  d_now : Z;
  d_reads : nat;
  d_out : list Output;
}.
Arguments mkDispatcher {M}.
Arguments d_CurTime {M}. Arguments d_Counters {M}. Arguments d_cfg {M}. Arguments d_pauseTime {M}.
Arguments d_alarmMgr {M}. Arguments d_eventQueue {M}. Arguments d_store {M}. Arguments d_nodes {M}.
Arguments d_nodesArray {M}. Arguments d_deletedNodes {M}. Arguments d_aliveNodes {M}. Arguments d_isFirstNodeAdded {M}.
Arguments d_speedStartTime {M}. Arguments d_speed {M}. Arguments d_speedStartRealTime {M}. Arguments d_lastEnergyVizTime {M}.
Arguments d_extaddrMap {M}. Arguments d_rloc16Map {M}. Arguments d_globalPacketLossRatio {M}. Arguments d_visOptions {M}.
Arguments d_coaps {M}. Arguments d_watchingNodes {M}. Arguments d_energyAnalyser {M}. Arguments d_radio {M}.
Arguments d_oldStats {M}. Arguments d_timeWinStats {M}. Arguments d_next {M}. Arguments d_writes {M}.
Arguments d_fails {M}. Arguments d_now {M}. Arguments d_reads {M}. Arguments d_out {M}.

Section fields.
Context {M : Type}.
Definition set_d_CurTime (v : Z) (d : Dispatcher M) : Dispatcher M :=
  mkDispatcher
    v (d_Counters d) (d_cfg d) (d_pauseTime d) (d_alarmMgr d) (d_eventQueue d) (d_store d)
    (d_nodes d) (d_nodesArray d) (d_deletedNodes d) (d_aliveNodes d) (d_isFirstNodeAdded d)
    (d_speedStartTime d) (d_speed d) (d_speedStartRealTime d) (d_lastEnergyVizTime d)
    (d_extaddrMap d) (d_rloc16Map d) (d_globalPacketLossRatio d) (d_visOptions d) (d_coaps d)
    (d_watchingNodes d) (d_energyAnalyser d) (d_radio d) (d_oldStats d) (d_timeWinStats d)
    (d_next d) (d_writes d) (d_fails d) (d_now d) (d_reads d) (d_out d).
Definition set_d_Counters (v : Counters) (d : Dispatcher M) : Dispatcher M :=
  mkDispatcher
    (d_CurTime d) v (d_cfg d) (d_pauseTime d) (d_alarmMgr d) (d_eventQueue d) (d_store d)
    (d_nodes d) (d_nodesArray d) (d_deletedNodes d) (d_aliveNodes d) (d_isFirstNodeAdded d)
    (d_speedStartTime d) (d_speed d) (d_speedStartRealTime d) (d_lastEnergyVizTime d)
    (d_extaddrMap d) (d_rloc16Map d) (d_globalPacketLossRatio d) (d_visOptions d) (d_coaps d)
    (d_watchingNodes d) (d_energyAnalyser d) (d_radio d) (d_oldStats d) (d_timeWinStats d)
    (d_next d) (d_writes d) (d_fails d) (d_now d) (d_reads d) (d_out d).
Definition set_d_cfg (v : Config) (d : Dispatcher M) : Dispatcher M :=
  mkDispatcher
    (d_CurTime d) (d_Counters d) v (d_pauseTime d) (d_alarmMgr d) (d_eventQueue d) (d_store d)
    (d_nodes d) (d_nodesArray d) (d_deletedNodes d) (d_aliveNodes d) (d_isFirstNodeAdded d)
    (d_speedStartTime d) (d_speed d) (d_speedStartRealTime d) (d_lastEnergyVizTime d)
    (d_extaddrMap d) (d_rloc16Map d) (d_globalPacketLossRatio d) (d_visOptions d) (d_coaps d)
    (d_watchingNodes d) (d_energyAnalyser d) (d_radio d) (d_oldStats d) (d_timeWinStats d)
    (d_next d) (d_writes d) (d_fails d) (d_now d) (d_reads d) (d_out d).
Definition set_d_pauseTime (v : Z) (d : Dispatcher M) : Dispatcher M :=
  mkDispatcher
    (d_CurTime d) (d_Counters d) (d_cfg d) v (d_alarmMgr d) (d_eventQueue d) (d_store d)
    (d_nodes d) (d_nodesArray d) (d_deletedNodes d) (d_aliveNodes d) (d_isFirstNodeAdded d)
    (d_speedStartTime d) (d_speed d) (d_speedStartRealTime d) (d_lastEnergyVizTime d)
    (d_extaddrMap d) (d_rloc16Map d) (d_globalPacketLossRatio d) (d_visOptions d) (d_coaps d)
    (d_watchingNodes d) (d_energyAnalyser d) (d_radio d) (d_oldStats d) (d_timeWinStats d)
    (d_next d) (d_writes d) (d_fails d) (d_now d) (d_reads d) (d_out d).
Definition set_d_alarmMgr (v : alarmMgr) (d : Dispatcher M) : Dispatcher M :=
  mkDispatcher
    (d_CurTime d) (d_Counters d) (d_cfg d) (d_pauseTime d) v (d_eventQueue d) (d_store d)
    (d_nodes d) (d_nodesArray d) (d_deletedNodes d) (d_aliveNodes d) (d_isFirstNodeAdded d)
    (d_speedStartTime d) (d_speed d) (d_speedStartRealTime d) (d_lastEnergyVizTime d)
    (d_extaddrMap d) (d_rloc16Map d) (d_globalPacketLossRatio d) (d_visOptions d) (d_coaps d)
    (d_watchingNodes d) (d_energyAnalyser d) (d_radio d) (d_oldStats d) (d_timeWinStats d)
    (d_next d) (d_writes d) (d_fails d) (d_now d) (d_reads d) (d_out d).
Definition set_d_eventQueue (v : list Event) (d : Dispatcher M) : Dispatcher M :=
  mkDispatcher
    (d_CurTime d) (d_Counters d) (d_cfg d) (d_pauseTime d) (d_alarmMgr d) v (d_store d)
    (d_nodes d) (d_nodesArray d) (d_deletedNodes d) (d_aliveNodes d) (d_isFirstNodeAdded d)
    (d_speedStartTime d) (d_speed d) (d_speedStartRealTime d) (d_lastEnergyVizTime d)
    (d_extaddrMap d) (d_rloc16Map d) (d_globalPacketLossRatio d) (d_visOptions d) (d_coaps d)
    (d_watchingNodes d) (d_energyAnalyser d) (d_radio d) (d_oldStats d) (d_timeWinStats d)
    (d_next d) (d_writes d) (d_fails d) (d_now d) (d_reads d) (d_out d).
Definition set_d_store (v : gmap nat Node) (d : Dispatcher M) : Dispatcher M :=
  mkDispatcher
    (d_CurTime d) (d_Counters d) (d_cfg d) (d_pauseTime d) (d_alarmMgr d) (d_eventQueue d) v
    (d_nodes d) (d_nodesArray d) (d_deletedNodes d) (d_aliveNodes d) (d_isFirstNodeAdded d)
    (d_speedStartTime d) (d_speed d) (d_speedStartRealTime d) (d_lastEnergyVizTime d)
    (d_extaddrMap d) (d_rloc16Map d) (d_globalPacketLossRatio d) (d_visOptions d) (d_coaps d)
    (d_watchingNodes d) (d_energyAnalyser d) (d_radio d) (d_oldStats d) (d_timeWinStats d)
    (d_next d) (d_writes d) (d_fails d) (d_now d) (d_reads d) (d_out d).
Definition set_d_nodes (v : gmap NodeId nat) (d : Dispatcher M) : Dispatcher M :=
  mkDispatcher
    (d_CurTime d) (d_Counters d) (d_cfg d) (d_pauseTime d) (d_alarmMgr d) (d_eventQueue d)
    (d_store d) v (d_nodesArray d) (d_deletedNodes d) (d_aliveNodes d) (d_isFirstNodeAdded d)
    (d_speedStartTime d) (d_speed d) (d_speedStartRealTime d) (d_lastEnergyVizTime d)
    (d_extaddrMap d) (d_rloc16Map d) (d_globalPacketLossRatio d) (d_visOptions d) (d_coaps d)
    (d_watchingNodes d) (d_energyAnalyser d) (d_radio d) (d_oldStats d) (d_timeWinStats d)
    (d_next d) (d_writes d) (d_fails d) (d_now d) (d_reads d) (d_out d).
Definition set_d_nodesArray (v : list nat) (d : Dispatcher M) : Dispatcher M :=
  mkDispatcher
    (d_CurTime d) (d_Counters d) (d_cfg d) (d_pauseTime d) (d_alarmMgr d) (d_eventQueue d)
    (d_store d) (d_nodes d) v (d_deletedNodes d) (d_aliveNodes d) (d_isFirstNodeAdded d)
    (d_speedStartTime d) (d_speed d) (d_speedStartRealTime d) (d_lastEnergyVizTime d)
    (d_extaddrMap d) (d_rloc16Map d) (d_globalPacketLossRatio d) (d_visOptions d) (d_coaps d)
    (d_watchingNodes d) (d_energyAnalyser d) (d_radio d) (d_oldStats d) (d_timeWinStats d)
    (d_next d) (d_writes d) (d_fails d) (d_now d) (d_reads d) (d_out d).
Definition set_d_deletedNodes (v : gset NodeId) (d : Dispatcher M) : Dispatcher M :=
  mkDispatcher
    (d_CurTime d) (d_Counters d) (d_cfg d) (d_pauseTime d) (d_alarmMgr d) (d_eventQueue d)
    (d_store d) (d_nodes d) (d_nodesArray d) v (d_aliveNodes d) (d_isFirstNodeAdded d)
    (d_speedStartTime d) (d_speed d) (d_speedStartRealTime d) (d_lastEnergyVizTime d)
    (d_extaddrMap d) (d_rloc16Map d) (d_globalPacketLossRatio d) (d_visOptions d) (d_coaps d)
    (d_watchingNodes d) (d_energyAnalyser d) (d_radio d) (d_oldStats d) (d_timeWinStats d)
    (d_next d) (d_writes d) (d_fails d) (d_now d) (d_reads d) (d_out d).
Definition set_d_aliveNodes (v : gset NodeId) (d : Dispatcher M) : Dispatcher M :=
  mkDispatcher
    (d_CurTime d) (d_Counters d) (d_cfg d) (d_pauseTime d) (d_alarmMgr d) (d_eventQueue d)
    (d_store d) (d_nodes d) (d_nodesArray d) (d_deletedNodes d) v (d_isFirstNodeAdded d)
    (d_speedStartTime d) (d_speed d) (d_speedStartRealTime d) (d_lastEnergyVizTime d)
    (d_extaddrMap d) (d_rloc16Map d) (d_globalPacketLossRatio d) (d_visOptions d) (d_coaps d)
    (d_watchingNodes d) (d_energyAnalyser d) (d_radio d) (d_oldStats d) (d_timeWinStats d)
    (d_next d) (d_writes d) (d_fails d) (d_now d) (d_reads d) (d_out d).
Definition set_d_isFirstNodeAdded (v : bool) (d : Dispatcher M) : Dispatcher M :=
  mkDispatcher
    (d_CurTime d) (d_Counters d) (d_cfg d) (d_pauseTime d) (d_alarmMgr d) (d_eventQueue d)
    (d_store d) (d_nodes d) (d_nodesArray d) (d_deletedNodes d) (d_aliveNodes d) v
    (d_speedStartTime d) (d_speed d) (d_speedStartRealTime d) (d_lastEnergyVizTime d)
    (d_extaddrMap d) (d_rloc16Map d) (d_globalPacketLossRatio d) (d_visOptions d) (d_coaps d)
    (d_watchingNodes d) (d_energyAnalyser d) (d_radio d) (d_oldStats d) (d_timeWinStats d)
    (d_next d) (d_writes d) (d_fails d) (d_now d) (d_reads d) (d_out d).
Definition set_d_speedStartTime (v : Z) (d : Dispatcher M) : Dispatcher M :=
  mkDispatcher
    (d_CurTime d) (d_Counters d) (d_cfg d) (d_pauseTime d) (d_alarmMgr d) (d_eventQueue d)
    (d_store d) (d_nodes d) (d_nodesArray d) (d_deletedNodes d) (d_aliveNodes d)
    (d_isFirstNodeAdded d) v (d_speed d) (d_speedStartRealTime d) (d_lastEnergyVizTime d)
    (d_extaddrMap d) (d_rloc16Map d) (d_globalPacketLossRatio d) (d_visOptions d) (d_coaps d)
    (d_watchingNodes d) (d_energyAnalyser d) (d_radio d) (d_oldStats d) (d_timeWinStats d)
    (d_next d) (d_writes d) (d_fails d) (d_now d) (d_reads d) (d_out d).
Definition set_d_speed (v : float) (d : Dispatcher M) : Dispatcher M :=
  mkDispatcher
    (d_CurTime d) (d_Counters d) (d_cfg d) (d_pauseTime d) (d_alarmMgr d) (d_eventQueue d)
    (d_store d) (d_nodes d) (d_nodesArray d) (d_deletedNodes d) (d_aliveNodes d)
    (d_isFirstNodeAdded d) (d_speedStartTime d) v (d_speedStartRealTime d) (d_lastEnergyVizTime d)
    (d_extaddrMap d) (d_rloc16Map d) (d_globalPacketLossRatio d) (d_visOptions d) (d_coaps d)
    (d_watchingNodes d) (d_energyAnalyser d) (d_radio d) (d_oldStats d) (d_timeWinStats d)
    (d_next d) (d_writes d) (d_fails d) (d_now d) (d_reads d) (d_out d).
Definition set_d_speedStartRealTime (v : Z) (d : Dispatcher M) : Dispatcher M :=
  mkDispatcher
    (d_CurTime d) (d_Counters d) (d_cfg d) (d_pauseTime d) (d_alarmMgr d) (d_eventQueue d)
    (d_store d) (d_nodes d) (d_nodesArray d) (d_deletedNodes d) (d_aliveNodes d)
    (d_isFirstNodeAdded d) (d_speedStartTime d) (d_speed d) v (d_lastEnergyVizTime d)
    (d_extaddrMap d) (d_rloc16Map d) (d_globalPacketLossRatio d) (d_visOptions d) (d_coaps d)
    (d_watchingNodes d) (d_energyAnalyser d) (d_radio d) (d_oldStats d) (d_timeWinStats d)
    (d_next d) (d_writes d) (d_fails d) (d_now d) (d_reads d) (d_out d).
Definition set_d_lastEnergyVizTime (v : Z) (d : Dispatcher M) : Dispatcher M :=
  mkDispatcher
    (d_CurTime d) (d_Counters d) (d_cfg d) (d_pauseTime d) (d_alarmMgr d) (d_eventQueue d)
    (d_store d) (d_nodes d) (d_nodesArray d) (d_deletedNodes d) (d_aliveNodes d)
    (d_isFirstNodeAdded d) (d_speedStartTime d) (d_speed d) (d_speedStartRealTime d) v
    (d_extaddrMap d) (d_rloc16Map d) (d_globalPacketLossRatio d) (d_visOptions d) (d_coaps d)
    (d_watchingNodes d) (d_energyAnalyser d) (d_radio d) (d_oldStats d) (d_timeWinStats d)
    (d_next d) (d_writes d) (d_fails d) (d_now d) (d_reads d) (d_out d).
Definition set_d_extaddrMap (v : gmap Z nat) (d : Dispatcher M) : Dispatcher M :=
  mkDispatcher
    (d_CurTime d) (d_Counters d) (d_cfg d) (d_pauseTime d) (d_alarmMgr d) (d_eventQueue d)
    (d_store d) (d_nodes d) (d_nodesArray d) (d_deletedNodes d) (d_aliveNodes d)
    (d_isFirstNodeAdded d) (d_speedStartTime d) (d_speed d) (d_speedStartRealTime d)
    (d_lastEnergyVizTime d) v (d_rloc16Map d) (d_globalPacketLossRatio d) (d_visOptions d)
    (d_coaps d) (d_watchingNodes d) (d_energyAnalyser d) (d_radio d) (d_oldStats d)
    (d_timeWinStats d) (d_next d) (d_writes d) (d_fails d) (d_now d) (d_reads d) (d_out d).
Definition set_d_rloc16Map (v : gmap Z (list nat)) (d : Dispatcher M) : Dispatcher M :=
  mkDispatcher
    (d_CurTime d) (d_Counters d) (d_cfg d) (d_pauseTime d) (d_alarmMgr d) (d_eventQueue d)
    (d_store d) (d_nodes d) (d_nodesArray d) (d_deletedNodes d) (d_aliveNodes d)
    (d_isFirstNodeAdded d) (d_speedStartTime d) (d_speed d) (d_speedStartRealTime d)
    (d_lastEnergyVizTime d) (d_extaddrMap d) v (d_globalPacketLossRatio d) (d_visOptions d)
    (d_coaps d) (d_watchingNodes d) (d_energyAnalyser d) (d_radio d) (d_oldStats d)
    (d_timeWinStats d) (d_next d) (d_writes d) (d_fails d) (d_now d) (d_reads d) (d_out d).
Definition set_d_globalPacketLossRatio (v : float) (d : Dispatcher M) : Dispatcher M :=
  mkDispatcher
    (d_CurTime d) (d_Counters d) (d_cfg d) (d_pauseTime d) (d_alarmMgr d) (d_eventQueue d)
    (d_store d) (d_nodes d) (d_nodesArray d) (d_deletedNodes d) (d_aliveNodes d)
    (d_isFirstNodeAdded d) (d_speedStartTime d) (d_speed d) (d_speedStartRealTime d)
    (d_lastEnergyVizTime d) (d_extaddrMap d) (d_rloc16Map d) v (d_visOptions d) (d_coaps d)
    (d_watchingNodes d) (d_energyAnalyser d) (d_radio d) (d_oldStats d) (d_timeWinStats d)
    (d_next d) (d_writes d) (d_fails d) (d_now d) (d_reads d) (d_out d).
Definition set_d_visOptions (v : VisualizationOptions) (d : Dispatcher M) : Dispatcher M :=
  mkDispatcher
    (d_CurTime d) (d_Counters d) (d_cfg d) (d_pauseTime d) (d_alarmMgr d) (d_eventQueue d)
    (d_store d) (d_nodes d) (d_nodesArray d) (d_deletedNodes d) (d_aliveNodes d)
    (d_isFirstNodeAdded d) (d_speedStartTime d) (d_speed d) (d_speedStartRealTime d)
    (d_lastEnergyVizTime d) (d_extaddrMap d) (d_rloc16Map d) (d_globalPacketLossRatio d) v
    (d_coaps d) (d_watchingNodes d) (d_energyAnalyser d) (d_radio d) (d_oldStats d)
    (d_timeWinStats d) (d_next d) (d_writes d) (d_fails d) (d_now d) (d_reads d) (d_out d).
Definition set_d_coaps (v : option (list CoapMessage)) (d : Dispatcher M) : Dispatcher M :=
  mkDispatcher
    (d_CurTime d) (d_Counters d) (d_cfg d) (d_pauseTime d) (d_alarmMgr d) (d_eventQueue d)
    (d_store d) (d_nodes d) (d_nodesArray d) (d_deletedNodes d) (d_aliveNodes d)
    (d_isFirstNodeAdded d) (d_speedStartTime d) (d_speed d) (d_speedStartRealTime d)
    (d_lastEnergyVizTime d) (d_extaddrMap d) (d_rloc16Map d) (d_globalPacketLossRatio d)
    (d_visOptions d) v (d_watchingNodes d) (d_energyAnalyser d) (d_radio d) (d_oldStats d)
    (d_timeWinStats d) (d_next d) (d_writes d) (d_fails d) (d_now d) (d_reads d) (d_out d).
Definition set_d_watchingNodes (v : gset NodeId) (d : Dispatcher M) : Dispatcher M :=
  mkDispatcher
    (d_CurTime d) (d_Counters d) (d_cfg d) (d_pauseTime d) (d_alarmMgr d) (d_eventQueue d)
    (d_store d) (d_nodes d) (d_nodesArray d) (d_deletedNodes d) (d_aliveNodes d)
    (d_isFirstNodeAdded d) (d_speedStartTime d) (d_speed d) (d_speedStartRealTime d)
    (d_lastEnergyVizTime d) (d_extaddrMap d) (d_rloc16Map d) (d_globalPacketLossRatio d)
    (d_visOptions d) (d_coaps d) v (d_energyAnalyser d) (d_radio d) (d_oldStats d)
    (d_timeWinStats d) (d_next d) (d_writes d) (d_fails d) (d_now d) (d_reads d) (d_out d).
Definition set_d_energyAnalyser (v : option EnergyAnalyser) (d : Dispatcher M) : Dispatcher M :=
  mkDispatcher
    (d_CurTime d) (d_Counters d) (d_cfg d) (d_pauseTime d) (d_alarmMgr d) (d_eventQueue d)
    (d_store d) (d_nodes d) (d_nodesArray d) (d_deletedNodes d) (d_aliveNodes d)
    (d_isFirstNodeAdded d) (d_speedStartTime d) (d_speed d) (d_speedStartRealTime d)
    (d_lastEnergyVizTime d) (d_extaddrMap d) (d_rloc16Map d) (d_globalPacketLossRatio d)
    (d_visOptions d) (d_coaps d) (d_watchingNodes d) v (d_radio d) (d_oldStats d)
    (d_timeWinStats d) (d_next d) (d_writes d) (d_fails d) (d_now d) (d_reads d) (d_out d).
Definition set_d_radio (v : radio_st M) (d : Dispatcher M) : Dispatcher M :=
  mkDispatcher
    (d_CurTime d) (d_Counters d) (d_cfg d) (d_pauseTime d) (d_alarmMgr d) (d_eventQueue d)
    (d_store d) (d_nodes d) (d_nodesArray d) (d_deletedNodes d) (d_aliveNodes d)
    (d_isFirstNodeAdded d) (d_speedStartTime d) (d_speed d) (d_speedStartRealTime d)
    (d_lastEnergyVizTime d) (d_extaddrMap d) (d_rloc16Map d) (d_globalPacketLossRatio d)
    (d_visOptions d) (d_coaps d) (d_watchingNodes d) (d_energyAnalyser d) v (d_oldStats d)
    (d_timeWinStats d) (d_next d) (d_writes d) (d_fails d) (d_now d) (d_reads d) (d_out d).
Definition set_d_oldStats (v : NodeStats) (d : Dispatcher M) : Dispatcher M :=
  mkDispatcher
    (d_CurTime d) (d_Counters d) (d_cfg d) (d_pauseTime d) (d_alarmMgr d) (d_eventQueue d)
    (d_store d) (d_nodes d) (d_nodesArray d) (d_deletedNodes d) (d_aliveNodes d)
    (d_isFirstNodeAdded d) (d_speedStartTime d) (d_speed d) (d_speedStartRealTime d)
    (d_lastEnergyVizTime d) (d_extaddrMap d) (d_rloc16Map d) (d_globalPacketLossRatio d)
    (d_visOptions d) (d_coaps d) (d_watchingNodes d) (d_energyAnalyser d) (d_radio d) v
    (d_timeWinStats d) (d_next d) (d_writes d) (d_fails d) (d_now d) (d_reads d) (d_out d).
Definition set_d_timeWinStats (v : TimeWindowStats) (d : Dispatcher M) : Dispatcher M :=
  mkDispatcher
    (d_CurTime d) (d_Counters d) (d_cfg d) (d_pauseTime d) (d_alarmMgr d) (d_eventQueue d)
    (d_store d) (d_nodes d) (d_nodesArray d) (d_deletedNodes d) (d_aliveNodes d)
    (d_isFirstNodeAdded d) (d_speedStartTime d) (d_speed d) (d_speedStartRealTime d)
    (d_lastEnergyVizTime d) (d_extaddrMap d) (d_rloc16Map d) (d_globalPacketLossRatio d)
    (d_visOptions d) (d_coaps d) (d_watchingNodes d) (d_energyAnalyser d) (d_radio d)
    (d_oldStats d) v (d_next d) (d_writes d) (d_fails d) (d_now d) (d_reads d) (d_out d).
Definition set_d_next (v : nat) (d : Dispatcher M) : Dispatcher M :=
  mkDispatcher
    (d_CurTime d) (d_Counters d) (d_cfg d) (d_pauseTime d) (d_alarmMgr d) (d_eventQueue d)
    (d_store d) (d_nodes d) (d_nodesArray d) (d_deletedNodes d) (d_aliveNodes d)
    (d_isFirstNodeAdded d) (d_speedStartTime d) (d_speed d) (d_speedStartRealTime d)
    (d_lastEnergyVizTime d) (d_extaddrMap d) (d_rloc16Map d) (d_globalPacketLossRatio d)
    (d_visOptions d) (d_coaps d) (d_watchingNodes d) (d_energyAnalyser d) (d_radio d)
    (d_oldStats d) (d_timeWinStats d) v (d_writes d) (d_fails d) (d_now d) (d_reads d) (d_out d).
Definition set_d_writes (v : nat) (d : Dispatcher M) : Dispatcher M :=
  mkDispatcher
    (d_CurTime d) (d_Counters d) (d_cfg d) (d_pauseTime d) (d_alarmMgr d) (d_eventQueue d)
    (d_store d) (d_nodes d) (d_nodesArray d) (d_deletedNodes d) (d_aliveNodes d)
    (d_isFirstNodeAdded d) (d_speedStartTime d) (d_speed d) (d_speedStartRealTime d)
    (d_lastEnergyVizTime d) (d_extaddrMap d) (d_rloc16Map d) (d_globalPacketLossRatio d)
    (d_visOptions d) (d_coaps d) (d_watchingNodes d) (d_energyAnalyser d) (d_radio d)
    (d_oldStats d) (d_timeWinStats d) (d_next d) v (d_fails d) (d_now d) (d_reads d) (d_out d).
Definition set_d_fails (v : nat) (d : Dispatcher M) : Dispatcher M :=
  mkDispatcher
    (d_CurTime d) (d_Counters d) (d_cfg d) (d_pauseTime d) (d_alarmMgr d) (d_eventQueue d)
    (d_store d) (d_nodes d) (d_nodesArray d) (d_deletedNodes d) (d_aliveNodes d)
    (d_isFirstNodeAdded d) (d_speedStartTime d) (d_speed d) (d_speedStartRealTime d)
    (d_lastEnergyVizTime d) (d_extaddrMap d) (d_rloc16Map d) (d_globalPacketLossRatio d)
    (d_visOptions d) (d_coaps d) (d_watchingNodes d) (d_energyAnalyser d) (d_radio d)
    (d_oldStats d) (d_timeWinStats d) (d_next d) (d_writes d) v (d_now d) (d_reads d) (d_out d).
Definition set_d_now (v : Z) (d : Dispatcher M) : Dispatcher M :=
  mkDispatcher
    (d_CurTime d) (d_Counters d) (d_cfg d) (d_pauseTime d) (d_alarmMgr d) (d_eventQueue d)
    (d_store d) (d_nodes d) (d_nodesArray d) (d_deletedNodes d) (d_aliveNodes d)
    (d_isFirstNodeAdded d) (d_speedStartTime d) (d_speed d) (d_speedStartRealTime d)
    (d_lastEnergyVizTime d) (d_extaddrMap d) (d_rloc16Map d) (d_globalPacketLossRatio d)
    (d_visOptions d) (d_coaps d) (d_watchingNodes d) (d_energyAnalyser d) (d_radio d)
    (d_oldStats d) (d_timeWinStats d) (d_next d) (d_writes d) (d_fails d) v (d_reads d) (d_out d).
Definition set_d_reads (v : nat) (d : Dispatcher M) : Dispatcher M :=
  mkDispatcher
    (d_CurTime d) (d_Counters d) (d_cfg d) (d_pauseTime d) (d_alarmMgr d) (d_eventQueue d)
    (d_store d) (d_nodes d) (d_nodesArray d) (d_deletedNodes d) (d_aliveNodes d)
    (d_isFirstNodeAdded d) (d_speedStartTime d) (d_speed d) (d_speedStartRealTime d)
    (d_lastEnergyVizTime d) (d_extaddrMap d) (d_rloc16Map d) (d_globalPacketLossRatio d)
    (d_visOptions d) (d_coaps d) (d_watchingNodes d) (d_energyAnalyser d) (d_radio d)
    (d_oldStats d) (d_timeWinStats d) (d_next d) (d_writes d) (d_fails d) (d_now d) v (d_out d).
Definition set_d_out (v : list Output) (d : Dispatcher M) : Dispatcher M :=
  mkDispatcher
    (d_CurTime d) (d_Counters d) (d_cfg d) (d_pauseTime d) (d_alarmMgr d) (d_eventQueue d)
    (d_store d) (d_nodes d) (d_nodesArray d) (d_deletedNodes d) (d_aliveNodes d)
    (d_isFirstNodeAdded d) (d_speedStartTime d) (d_speed d) (d_speedStartRealTime d)
    (d_lastEnergyVizTime d) (d_extaddrMap d) (d_rloc16Map d) (d_globalPacketLossRatio d)
    (d_visOptions d) (d_coaps d) (d_watchingNodes d) (d_energyAnalyser d) (d_radio d)
    (d_oldStats d) (d_timeWinStats d) (d_next d) (d_writes d) (d_fails d) (d_now d) (d_reads d) v.
End fields.

(** What the dispatcher takes from outside the repository. *)
Class DispEnv := {
  de_radio :: RadioEnv;
  (** whether the [n]-th write to a node socket succeeds *)
  conn_Write : nat -> bool;
  (** the [n]-th number that [prng.NewFailTime] draws, below the given bound *)
  NewFailTime : nat -> Z -> Z;
  (** the order in which Go ranges over the map of alive nodes and over the energy nodes *)
  range_alive : gset NodeId -> list NodeId;
  range_energy : gmap Z NodeEnergy -> list (Z * NodeEnergy);
  (** the nanoseconds that pass before the wall clock is read for the [n]-th time, sleeping
      excepted *)
  clock_step : nat -> N;
}.

Section dispatcher.
Context {env : DispEnv} {M : Type} `{!RadioModel M}.
Abbreviation DM := (st (Dispatcher M)) (only parsing).

(** ** Small steps *)
Definition output (o : Output) : DM () := modify (fun d => set_d_out (d_out d ++ [o]) d).
Definition vis (v : VisCall) : DM () := output (OVis v).
Definition vis_all (vs : list VisCall) : DM () := for_each vs vis.
Definition callback (c : Callback) : DM () := output (OCb c).
Definition count (c : Counters) : DM () := modify (fun d => set_d_Counters (add_counters (d_Counters d) c) d).
Definition assert (b : bool) : DM () := lift (assert_true b).

Definition get_node (l : nat) : DM Node := d ← get; lift (deref (d_store d !! l)).
Definition put_node (l : nat) (n : Node) : DM () := modify (fun d => set_d_store (<[l:=n]> (d_store d)) d).
Definition mod_node (l : nat) (f : Node -> Node) : DM () := n ← get_node l; put_node l (f n).
(** [d.nodes[id]] *)
Definition lookup_node (id : NodeId) : DM (option nat) := gets (fun d => d_nodes d !! id).

Definition mod_alarm (f : alarmMgr -> res alarmMgr) : DM () :=
  update (fun d => a ← f (d_alarmMgr d); Ok (set_d_alarmMgr a d)).
Definition queue_add (e : Event) : DM () :=
  update (fun d => q ← SendQueue.Add e (d_eventQueue d); Ok (set_d_eventQueue q d)).

(** Run an operation of the radio model; the events it puts into the queue follow. *)
Definition radio {A} (m : st (radio_st M) A) : DM A :=
  fun d =>
    match m (mkRadioSt (rs_nodes (d_radio d)) (rs_model (d_radio d)) (rs_draws (d_radio d)) []) with
    | Panic p => Panic p
    | Ok (a, r) =>
      (_ ← for_each (rs_out r) queue_add; mret a)
        (set_d_radio (mkRadioSt (rs_nodes r) (rs_model r) (rs_draws r) []) d)
    end.

(** ** The wall clock and the speed *)
(** [time.Now] *)
Definition time_Now : DM Z :=
  d ← get;
  let now := d_now d + Z.of_N (clock_step (d_reads d)) in
  _ ← modify (fun d => set_d_now now (set_d_reads (S (d_reads d)) d));
  mret now.
Definition time_Sleep (t : Z) : DM () := modify (fun d => set_d_now (d_now d + Z.max 0 t) d).
(** The difference of two times is a [time.Duration]: it saturates. *)
Definition time_Sub (t u : Z) : Z := Z.max (- 2 ^ 63) (Z.min (2 ^ 63 - 1) (t - u)).
Definition Microsecond : Z := 1000.
Definition Millisecond : Z := 1000 * Microsecond.
Definition Hour : Z := 3600 * 1000 * Millisecond.
Definition time_Since (t : Z) : DM Z := now ← time_Now; mret (time_Sub now t).

Definition DefaultDispatcherSpeed : float := -1%float.
Definition MaxSimulateSpeed : float := 1000000%float.
Definition MaxConsecutiveSleepTime : Z := 10 * Millisecond.
Definition normalizeSpeed (f : float) : float :=
  if PrimFloat.leb f 0 then 0%float
  else if PrimFloat.leb MaxSimulateSpeed f then MaxSimulateSpeed
  else f.

(** The start of a period at one speed is now. *)
Definition syncSpeedStart : DM () :=
  now ← time_Now;
  modify (fun d => set_d_speedStartRealTime now (set_d_speedStartTime (d_CurTime d) d)).
Definition SetSpeed (f : float) : DM () :=
  let ns := normalizeSpeed f in
  d ← get;
  if PrimFloat.eqb ns (d_speed d) then mret tt
  else
    _ ← syncSpeedStart;
    _ ← modify (set_d_speed ns);
    when (negb (cfg_Realtime (d_cfg d))) (vis (VisSetSpeed ns)).
Definition GetSpeed : DM float := gets d_speed.

(** A new dispatcher; the radio model is the one that the simulation sets right away.  The
    calls recorded are those to the visualizer that is set then, which is told the speed. *)
Definition NewDispatcher (cfg : Config) (model : M) (rnd : nat) : res (Dispatcher M) :=
  _ ← assert_true (negb (cfg_Realtime cfg) || PrimFloat.eqb (cfg_Speed cfg) 1);
  q ← newSendQueue;
  am ← newAlarmMgr;
  let now := Z.of_N (clock_step 0) in
  let speed := normalizeSpeed (cfg_Speed cfg) in
  Ok (mkDispatcher 0 zeroCounters cfg 0 am q ∅ ∅ [] ∅ ∅ false 0 speed now 0 ∅ ∅ 0%float
        defaultVisualizationOptions None ∅ None (mkRadioSt ∅ model rnd [])
        (mkNodeStats 0 0 0 0 0 0 0 0 0) defaultTimeWindowStats 0 0 0 now 1 [OVis (VisSetSpeed speed)]).

(** ** Alive nodes *)
Definition setAlive (nodeid : NodeId) : DM () :=
  l ← lookup_node nodeid;
  l ← lift (assert_not_nil l);
  n ← get_node l;
  if n_hasDisconnected n then mret tt
  else modify (fun d => set_d_aliveNodes ({[nodeid]} ∪ d_aliveNodes d) d).
Definition IsAlive (nodeid : NodeId) : DM bool := gets (fun d => bool_decide (nodeid ∈ d_aliveNodes d)).
Definition setSleeping (nodeid : NodeId) : DM () :=
  modify (fun d => set_d_aliveNodes (d_aliveNodes d ∖ {[nodeid]}) d).

(** ** Sending an event to a node (Node.go) *)
Definition sendRawData (l : nat) (msg : list Z) : DM bool :=
  n ← get_node l;
  c ← lift (assert_not_nil (n_conn n));
  d ← get;
  _ ← modify (fun d => set_d_writes (S (d_writes d)) d);
  if conn_Write (d_writes d) then _ ← output (OWrite (n_Id n) c msg); mret true else mret false.

(** The failure controller is re-evaluated when the node's time advances; a new
    operation time is put into the queue as a wake-up. *)
Definition reEvaluate (l : nat) (oldTime : Z) : DM () :=
  n ← get_node l;
  d ← get;
  let ft := fc_failTime (n_failureCtrl n) in
  let rel := NewFailTime (d_fails d) (FailInterval ft - FailDuration ft) in
  '(reEvaluateTime, isUpdated, n', vs) ← lift (OnTimeAdvanced rel oldTime n);
  _ ← modify (fun d => set_d_fails (S (d_fails d)) d);
  _ ← put_node l n';
  _ ← vis_all vs;
  when isUpdated (queue_add (set_Timestamp reEvaluateTime (set_NodeId (n_Id n)
    (set_Type EventTypeAlarmFired zeroEvent)))).

Definition sendEvent (l : nat) (evt : Event) : DM () :=
  n ← get_node l;
  d ← get;
  let oldTime := n_CurTime n in
  let msgId := u64 (n_msgId n + 1) in
  _ ← mod_node l (set_msgId msgId);
  let evt := set_MsgId msgId (set_NodeId (n_Id n) evt) in
  _ ← assert (ev_Timestamp evt =? d_CurTime d);
  let evt := set_Delay (u64 (ev_Timestamp evt - oldTime)) evt in
  _ ← mod_alarm (SetNotified (n_Id n));
  _ ← mod_node l (fun n => set_CurTime (u64 (n_CurTime n + ev_Delay evt)) n);
  n ← get_node l;
  _ ← assert (n_CurTime n =? d_CurTime d);
  _ ← when (ev_Timestamp evt >? oldTime) (reEvaluate l oldTime);
  ok ← sendRawData l (Serialize evt);
  if (ok : bool) then setAlive (n_Id n)
  else _ ← mod_node l (set_err true); mod_node l DisconnectSocket.

Definition SendToVirtualUART (l : nat) (data : list Z) : DM bool :=
  d ← get;
  n ← get_node l;
  _ ← sendEvent l (set_Data data (set_NodeId (n_Id n) (set_Timestamp (d_CurTime d)
        (set_Type EventTypeUartWrite zeroEvent))));
  n ← get_node l;
  mret (n_err n).

Definition SendRfSimEvent (l : nat) (writeValue : bool) (param value : Z) : DM bool :=
  d ← get;
  n ← get_node l;
  let ty := if writeValue then EventTypeRadioRfSimParamSet else EventTypeRadioRfSimParamGet in
  _ ← sendEvent l (set_RfSimParamData (mkRfSimParam param (to_signed 32 value))
        (set_NodeId (n_Id n) (set_Timestamp (d_CurTime d) (set_Type ty zeroEvent))));
  n ← get_node l;
  mret (n_err n).

Definition advanceNodeTime (l : nat) (timestamp : Z) (force : bool) : DM () :=
  n ← get_node l;
  if (timestamp <=? n_CurTime n) && negb force then mret tt
  else if negb (IsConnected n) then mod_alarm (SetNotified (n_Id n))
  else sendEvent l (set_Timestamp timestamp (set_Type EventTypeAlarmFired zeroEvent)).

(** ** Visualization of frames *)
Definition visSend (srcid dstid : NodeId) (info : MsgVisualizeInfo) : DM () :=
  d ← get;
  let o := d_visOptions d in
  let shown :=
    if dstid =? BroadcastNodeId then
      (if fc_FrameType (mv_FrameControl info) =? FrameTypeAck then vo_AckMessage o else vo_BroadcastMessage o)
    else vo_UnicastMessage o in
  when shown (vis (VisSend srcid dstid info)).

Definition visSendFrame (srcid dstid : NodeId) (f : MacFrame) (rc : RadioCommEventData) : DM () :=
  visSend srcid dstid (mkMsgVisualizeInfo (mf_Channel f) (mf_FrameControl f) (mf_Seq f)
    (mf_DstAddrShort f) (mf_DstAddrExtended f) (u32 (rc_Duration rc)) (rc_PowerDbm rc)
    (mf_LengthBytes f + mf_PhyHdrLength f)).

Definition visSendInterference (srcid dstid : NodeId) (rc : RadioCommEventData) : DM () :=
  visSend srcid dstid (mkMsgVisualizeInfo (rc_Channel rc) 4 0 0 0 (u32 (rc_Duration rc)) (rc_PowerDbm rc) 0).

(** ** Dispatching radio frames *)
Definition checkRadioReachable (src dst : nat) : DM bool :=
  if decide (src = dst) then mret false else radio (rm_CheckRadioReachable src dst).

(** A random number of the generator that the radio model shares. *)
Definition drawUnit : DM float :=
  n ← gets (fun d => rs_draws (d_radio d));
  _ ← modify (fun d => let r := d_radio d in
        set_d_radio (mkRadioSt (rs_nodes r) (rs_model r) (S (rs_draws r)) (rs_out r)) d);
  mret (NewUnitRandom n).

(** Whether the frame is lost by the dispatcher's global packet loss. *)
Definition packetLost (evt : Event) : DM bool :=
  d ← get;
  let plr := d_globalPacketLossRatio d in
  if (plr >? 0)%gf then
    let datalenMac := Z.of_nat (length (ev_Data evt)) - 1 in
    let succRate := Pow (1 - plr)%gf (f_of_Z datalenMac / f_of_Z MacFrameLenBytes)%gf in
    rnd ← drawUnit;
    mret (rnd >=? succRate)%gf
  else mret false.

Definition sendOneRadioFrame (evt : Event) (src dst : nat) : DM () :=
  _ ← assert ((EventTypeRadioCommStart =? ev_Type evt) || (EventTypeRadioRxDone =? ev_Type evt));
  _ ← assert (negb (src =? dst)%nat);
  n ← get_node dst;
  if n_isFailed n then mret tt else
  lost ← packetLost evt;
  if (lost : bool) then mret tt else
  '(ok, evt2) ← radio (rm_OnEventDispatch src dst (set_NodeId (n_Id n) (Copy evt)));
  when ok (sendEvent dst evt2).

(** The frame to every node of a list that is in reach; the ids of those nodes. *)
Fixpoint dispatch_to (evt : Event) (src : nat) (dsts : list nat) : DM (list NodeId) :=
  match dsts with
  | [] => mret []
  | dst :: dsts =>
    ok ← checkRadioReachable src dst;
    if (ok : bool) then
      _ ← sendOneRadioFrame evt src dst;
      n ← get_node dst;
      ids ← dispatch_to evt src dsts;
      mret (n_Id n :: ids)
    else dispatch_to evt src dsts
  end.

(** [neighborNodes[dstNode.Id] != nil] *)
Definition is_neighbor (ids : list NodeId) (id : NodeId) : bool := existsb (Z.eqb id) ids.

Definition sendRadioCommRxStartEvents (src : nat) (evt : Event) : DM () :=
  _ ← assert (ev_Type evt =? EventTypeRadioCommStart);
  srcNode ← get_node src;
  if n_isFailed srcNode then mret tt else
  d ← get;
  _ ← when (cfg_PcapEnabled (d_cfg d))
        (data ← lift (slice (ev_Data evt) RadioMessagePsduOffset (length (ev_Data evt)));
         output (OPcap (mkFrame (ev_Timestamp evt) data (rc_Channel (ev_RadioCommData evt))
           (float32_of_int (rc_PowerDbm (ev_RadioCommData evt))))));
  _ ← when (cfg_DumpPackets (d_cfg d)) (output (ODump (ev_Timestamp evt) (ev_NodeId evt) (ev_Data evt)));
  neighborNodes ← dispatch_to evt src (d_nodesArray d);
  _ ← count oneAllInRange;
  f ← lift (Wpan.Dissect (ev_Data evt));
  d ← get;
  let srcid := n_Id srcNode in
  let rc := ev_RadioCommData evt in
  let mode := DestAddrMode (mf_FrameControl f) in
  if mode =? AddrModeExtended then
    match d_extaddrMap d !! mf_DstAddrExtended f with
    | Some dst =>
      n ← get_node dst;
      visSendFrame srcid (if is_neighbor neighborNodes (n_Id n) then n_Id n else InvalidNodeId) f rc
    | None => visSendFrame srcid InvalidNodeId f rc
    end
  else if (mode =? AddrModeShort) && negb (mf_DstAddrShort f =? BroadcastRloc16) then
    match nodes_at (d_rloc16Map d) (mf_DstAddrShort f) with
    | [] => visSendFrame srcid InvalidNodeId f rc
    | dsts => for_each dsts (fun dst =>
        n ← get_node dst;
        when (is_neighbor neighborNodes (n_Id n)) (visSendFrame srcid (n_Id n) f rc))
    end
  else visSendFrame srcid BroadcastNodeId f rc.

Definition sendRadioCommRxDoneEvents (src : nat) (evt : Event) : DM () :=
  _ ← assert (ev_Type evt =? EventTypeRadioRxDone);
  srcNode ← get_node src;
  if n_isFailed srcNode then mret tt else
  f ← lift (Wpan.Dissect (ev_Data evt));
  d ← get;
  let mode := DestAddrMode (mf_FrameControl f) in
  if mode =? AddrModeExtended then
    match d_extaddrMap d !! mf_DstAddrExtended f with
    | Some dst =>
      if (dst =? src)%nat then count oneExtAddrFail else
      _ ← dispatch_to evt src [dst]; count oneExtAddrSucc
    | None => count oneExtAddrFail
    end
  else if (mode =? AddrModeShort) && negb (mf_DstAddrShort f =? BroadcastRloc16) then
    match nodes_at (d_rloc16Map d) (mf_DstAddrShort f) with
    | [] => count oneShortAddrFail
    | dsts => _ ← dispatch_to evt src dsts; count oneShortAddrSucc
    end
  else _ ← dispatch_to evt src (d_nodesArray d); count oneAllInRange.

(** ** Statistics (stats.go) *)
Definition all_nodes (d : Dispatcher M) : list Node :=
  omap (fun '(_, l) => d_store d !! l) (map_to_list (d_nodes d)).
Definition count_if (p : Node -> bool) (ns : list Node) : Z := Z.of_nat (length (List.filter p ns)).
Definition countRole (ns : list Node) (role : OtDeviceRole) : Z := count_if (fun n => n_Role n =? role) ns.
Definition countUniquePts (ns : list Node) : Z :=
  Z.of_nat (size (list_to_set (map n_PartitionId (List.filter (fun n => n_PartitionId n >? 0) ns)) : gset Z)).
Definition countSleepy (ns : list Node) : Z := count_if (fun n => negb (RxOnWhenIdle (n_Mode n))) ns.
Definition countFailed (ns : list Node) : Z := count_if n_isFailed ns.

Definition calcStats (d : Dispatcher M) : NodeStats :=
  let ns := all_nodes d in
  mkNodeStats (Z.of_nat (size (d_nodes d))) (countRole ns OtDeviceRoleLeader) (countUniquePts ns)
    (countRole ns OtDeviceRoleRouter) (countRole ns OtDeviceRoleChild) (countRole ns OtDeviceRoleDetached)
    (countRole ns OtDeviceRoleDisabled) (countSleepy ns) (countFailed ns).

Definition updateNodeStats : DM () :=
  d ← get;
  let s := calcStats d in
  when (negb (bool_decide (s = d_oldStats d))) (vis (VisUpdateNodeStats (d_CurTime d) s)).

Definition calcPhyStatsDiff (statsStart statsEnd : gmap NodeId PhyStats) : gmap NodeId PhyStats :=
  map_imap (fun id st2 => Some (match statsStart !! id with
    | Some st1 => PhyStats_Minus st2 st1 | None => st2 end)) statsEnd.
Definition clearMapValuesPhyStats (m : gmap NodeId PhyStats) : gmap NodeId PhyStats :=
  (fun _ => zeroPhyStats) <$> m.

Definition windowInfo (start width : Z) (stats : gmap NodeId PhyStats) : TimeWindowStatsInfo :=
  mkTimeWindowStatsInfo start width (TxBytes <$> stats) (ChanSampleCount <$> stats) stats.
Definition visSendTimeWindowStats : DM () :=
  d ← get;
  let tw := d_timeWinStats d in
  vis (VisUpdateTimeWindowStats (windowInfo (tw_WinStartUs tw) (tw_WinWidthUs tw) (tw_PhyStats tw))).

(** The windows without events: sent empty, one per turn of the loop. *)
Fixpoint emptyWindows (fuel : nat) : DM () :=
  match fuel with
  | O => panics OutOfFuel
  | S fuel =>
    d ← get;
    let tw := d_timeWinStats d in
    if d_CurTime d >? u64 (tw_WinStartUs tw + tw_WinWidthUs tw) then
      _ ← modify (set_d_timeWinStats (mkTimeWindowStats (tw_WinStartUs tw) (tw_WinWidthUs tw)
            (clearMapValuesPhyStats (tw_PhyStats tw)) (tw_statsWinStart tw)));
      _ ← visSendTimeWindowStats;
      _ ← modify (fun d => let tw := d_timeWinStats d in set_d_timeWinStats
            (mkTimeWindowStats (u64 (tw_WinStartUs tw + tw_WinWidthUs tw)) (tw_WinWidthUs tw)
              (tw_PhyStats tw) (tw_statsWinStart tw)) d);
      emptyWindows fuel
    else mret tt
  end.
(** One turn per window up to the current time, and the turn that ends the loop. *)
Definition window_fuel (d : Dispatcher M) : nat :=
  S (S (Z.to_nat (d_CurTime d / tw_WinWidthUs (d_timeWinStats d)))).

Definition updateTimeWindowStats : DM () :=
  d ← get;
  let tw := d_timeWinStats d in
  if d_CurTime d >? u64 (tw_WinStartUs tw + tw_WinWidthUs tw) then
    statsEnd ← radio rm_GetPhyStats;
    _ ← modify (set_d_timeWinStats (mkTimeWindowStats (tw_WinStartUs tw) (tw_WinWidthUs tw)
          (calcPhyStatsDiff (tw_statsWinStart tw) statsEnd) (tw_statsWinStart tw)));
    _ ← visSendTimeWindowStats;
    _ ← modify (fun d => let tw := d_timeWinStats d in set_d_timeWinStats
          (mkTimeWindowStats (u64 (tw_WinStartUs tw + tw_WinWidthUs tw)) (tw_WinWidthUs tw)
            (tw_PhyStats tw) statsEnd) d);
    emptyWindows (window_fuel d)
  else mret tt.

Definition finalizeTimeWindowStats : DM () :=
  d ← get;
  let tw := d_timeWinStats d in
  statsEnd ← radio rm_GetPhyStats;
  _ ← modify (set_d_timeWinStats (mkTimeWindowStats (tw_WinStartUs tw) (tw_WinWidthUs tw)
        (calcPhyStatsDiff (tw_statsWinStart tw) statsEnd) (tw_statsWinStart tw)));
  visSendTimeWindowStats.

(** ** Simulation time *)
Definition storeEnergy (ts : Z) : DM () :=
  d ← get;
  match d_energyAnalyser d with
  | None => mret tt
  | Some e =>
    when ((ts >=? u64 (d_lastEnergyVizTime d + ComputePeriod)) || ((d_lastEnergyVizTime d =? 0) && (ts >? 0)))
      (e ← lift (StoreNetworkEnergy range_energy ts e);
       nodes ← lift (GetLatestEnergyOfNodes e);
       _ ← modify (set_d_energyAnalyser (Some e));
       _ ← vis (VisUpdateNodesEnergy nodes ts true);
       modify (set_d_lastEnergyVizTime ts))
  end.

(** The speed that is shown: simulated time over elapsed time. *)
Definition measuredSpeed : DM float :=
  d ← get;
  let elapsedTime := to_signed 64 (d_CurTime d - d_speedStartTime d) in
  since ← time_Since (d_speedStartRealTime d);
  let elapsedRealTime := Z.quot since Microsecond in
  mret (if elapsedRealTime >? 0 then PrimFloat.div (f_of_Z elapsedTime) (f_of_Z elapsedRealTime) else MaxSimulateSpeed).
Definition advanceTime (ts : Z) : DM () :=
  d ← get;
  _ ← assert (d_CurTime d <=? ts);
  if d_CurTime d =? ts then mret tt else
  _ ← radio (rm_OnNextEventTime ts);
  _ ← callback (OnNextEventTime ts);
  _ ← modify (set_d_CurTime ts);
  speed ← measuredSpeed;
  _ ← vis (VisAdvanceTime ts speed);
  _ ← storeEnergy ts;
  when (cfg_PhyTxStats (d_cfg d)) updateTimeWindowStats.

(** ** Events taken from the queue *)
Definition handleRadioState (l : nat) (evt : Event) : DM () :=
  n ← get_node l;
  d ← get;
  _ ← match d_energyAnalyser d with
      | None => mret tt
      | Some e =>
        e ← lift (update_radio (n_Id n) (rs_EnergyState (ev_RadioStateData evt)) (d_CurTime d) e);
        modify (set_d_energyAnalyser (Some e))
      end;
  when (ev_Delay evt >? 0)
    (queue_add (set_Timestamp (u64 (d_CurTime d + ev_Delay evt)) (set_NodeId (n_Id n)
      (set_Type EventTypeAlarmFired zeroEvent)))).

Definition processEvent (evt : Event) : DM () :=
  l ← lookup_node (ev_NodeId evt);
  match l with
  | None => mret tt
  | Some l =>
    let ty := ev_Type evt in
    if negb (ev_MustDispatch evt) then
      if ty =? EventTypeAlarmFired then d ← get; advanceNodeTime l (d_CurTime d) false
      else if ty =? EventTypeRadioLog then mret tt
      else if ty =? EventTypeRadioCommStart then
        _ ← when (rc_Error (ev_RadioCommData evt) =? OT_TX_TYPE_INTF)
              (visSendInterference (ev_NodeId evt) BroadcastNodeId (ev_RadioCommData evt));
        radio (rm_HandleEvent l evt)
      else if ty =? EventTypeRadioState then _ ← handleRadioState l evt; radio (rm_HandleEvent l evt)
      else radio (rm_HandleEvent l evt)
    else
      if ty =? EventTypeRadioCommStart then sendRadioCommRxStartEvents l evt
      else if ty =? EventTypeRadioRxDone then sendRadioCommRxDoneEvents l evt
      else if (ty =? EventTypeUdpFromHost) || (ty =? EventTypeIp6FromHost) then sendEvent l evt
      else
        '(ok, evt) ← radio (rm_OnEventDispatch l l evt);
        when ok (sendEvent l evt)
  end.

Definition nextTimes (d : Dispatcher M) : Z * Z :=
  (AlarmMgr.NextTimestamp (d_alarmMgr d), SendQueue.NextTimestamp (d_eventQueue d)).

(** The next alarm: the node's time is advanced. *)
Definition processAlarm (realtime : bool) (nextAlarmTime : Z) : DM () :=
  d ← get;
  a ← lift (assert_not_nil (NextAlarm (d_alarmMgr d)));
  l ← lookup_node (ae_NodeId a);
  match l with
  | Some l => advanceNodeTime l (if realtime then nextAlarmTime else ae_Timestamp a) false
  | None => if realtime then mod_alarm (SetNotified (ae_NodeId a)) else mret tt
  end.

(** The next event of the queue. *)
Definition processQueued (realtime : bool) (nextAlarmTime nextSendTime nextEventTime : Z) : DM () :=
  d ← get;
  '(evt, q) ← lift (PopNext (d_eventQueue d));
  _ ← modify (set_d_eventQueue q);
  _ ← assert (ev_Timestamp evt =? nextEventTime);
  _ ← assert (if realtime then (nextAlarmTime <=? d_CurTime d) || (nextSendTime <=? d_CurTime d)
              else (nextAlarmTime =? d_CurTime d) || (nextSendTime =? d_CurTime d));
  processEvent evt.

(** The loop over everything that happens until [procUntilTime]; the time of the next
    thing that happens later. *)
Fixpoint processLoop (realtime : bool) (fuel : nat) (procUntilTime nextAlarmTime nextSendTime : Z) : DM Z :=
  match fuel with
  | O => panics OutOfFuel
  | S fuel =>
    let nextEventTime := Z.min nextAlarmTime nextSendTime in
    if nextEventTime <=? procUntilTime then
      _ ← (if nextAlarmTime <=? nextSendTime then processAlarm realtime nextAlarmTime
           else processQueued realtime nextAlarmTime nextSendTime nextEventTime);
      '(nextAlarmTime, nextSendTime) ← gets nextTimes;
      processLoop realtime fuel procUntilTime nextAlarmTime nextSendTime
    else mret nextEventTime
  end.

(** How long to sleep: until the next event is due at this speed, but for a short time only. *)
Definition sleepTime (simSpeed : float) (nextEventTime now : Z) (d : Dispatcher M) : Z :=
  let needSleepDuration :=
    if PrimFloat.eqb simSpeed 0 then Hour
    else
      let sleepUntilTime := if nextEventTime >? d_pauseTime d then d_pauseTime d else nextEventTime in
      to_signed 64 (int64_of (PrimFloat.div (f_of_Z (u64 (sleepUntilTime - d_speedStartTime d))) simSpeed) * Microsecond) in
  let sleepUntilRealTime := d_speedStartRealTime d + needSleepDuration in
  Z.min (time_Sub sleepUntilRealTime now) MaxConsecutiveSleepTime.
(** The simulation time that the wall clock asks for, a duration after the start. *)
Definition simTimeAt (simSpeed : float) (start since : Z) : Z :=
  u64 (start + uint64_of (PrimFloat.mul (f_of_Z (Z.quot since Microsecond)) simSpeed)).

(** Sleep; the simulation time that the wall clock asks for then. *)
Definition sleepUntil (simSpeed : float) (nextEventTime : Z) : DM Z :=
  d ← get;
  now ← time_Now;
  _ ← time_Sleep (sleepTime simSpeed nextEventTime now d);
  since ← time_Since (d_speedStartRealTime d);
  mret (simTimeAt simSpeed (d_speedStartTime d) since).

Definition processNextEvents (fuel : nat) (simSpeed : float) : DM bool :=
  d ← get;
  _ ← assert (d_CurTime d <=? d_pauseTime d);
  _ ← assert (PrimFloat.leb 0 simSpeed);
  let '(nextAlarmTime, nextSendTime) := nextTimes d in
  _ ← assert ((nextSendTime >=? d_CurTime d) && (nextAlarmTime >=? d_CurTime d));
  let nextEventTime := Z.min nextAlarmTime nextSendTime in
  let pause := d_pauseTime d in
  curTime ← sleepUntil simSpeed nextEventTime;
  if ((curTime <? nextEventTime) && (nextEventTime <=? pause)) ||
     ((curTime <? pause) && (nextEventTime >? pause)) then
    _ ← advanceTime curTime; mret true
  else if nextEventTime >? pause then mret false
  else
    _ ← advanceTime nextEventTime;
    t ← processLoop false fuel nextEventTime nextAlarmTime nextSendTime;
    mret (t <=? pause).

Definition RealtimeMaxMoveAheadUs : Z := 100.

Definition processNextEventsRealtime (fuel : nat) (simTime : Z) : DM Z :=
  d ← get;
  let '(nextAlarmTime, nextSendTime) := nextTimes d in
  let nextEventTime := Z.min nextAlarmTime nextSendTime in
  _ ← assert (nextEventTime >=? d_CurTime d);
  if nextEventTime >? u64 (simTime + RealtimeMaxMoveAheadUs) then
    _ ← advanceTime simTime; mret nextEventTime
  else
    _ ← when (nextEventTime >? d_CurTime d) (advanceTime nextEventTime);
    processLoop true fuel nextEventTime nextAlarmTime nextSendTime.

(** ** Node bookkeeping *)
Definition setNodeRole (l : nat) (role : OtDeviceRole) : DM () :=
  n ← get_node l;
  _ ← mod_node l (set_Role role);
  vis (VisSetNodeRole (n_Id n) role).

Definition mod_rloc16Map (f : gmap Z (list nat) -> res (gmap Z (list nat))) : DM () :=
  update (fun d => m ← f (d_rloc16Map d); Ok (set_d_rloc16Map m d)).

Definition setNodeRloc16 (srcid : NodeId) (rloc16 : Z) : DM () :=
  l ← lookup_node srcid;
  l ← lift (assert_not_nil l);
  n ← get_node l;
  _ ← when (negb (n_Rloc16 n =? InvalidRloc16)) (mod_rloc16Map (Rloc16Map.Remove (n_Rloc16 n) l));
  _ ← mod_node l (set_Rloc16 rloc16);
  _ ← when (negb (rloc16 =? InvalidRloc16)) (mod_rloc16Map (Rloc16Map.Add rloc16 l));
  vis (VisSetNodeRloc16 srcid rloc16).

(** [Dispatcher.onStatusPushExtAddr] *)
Definition onExtAddrChanged (l : nat) (oldExtAddr : Z) : DM () :=
  d ← get;
  _ ← (if oldExtAddr =? InvalidExtAddr then assert (bool_decide (d_extaddrMap d !! oldExtAddr = None))
       else
         _ ← assert (bool_decide (d_extaddrMap d !! oldExtAddr = Some l));
         modify (fun d => set_d_extaddrMap (delete oldExtAddr (d_extaddrMap d)) d));
  n ← get_node l;
  d ← get;
  _ ← assert (bool_decide (d_extaddrMap d !! n_ExtAddr n = None));
  _ ← modify (fun d => set_d_extaddrMap (<[n_ExtAddr n:=l]> (d_extaddrMap d)) d);
  vis (VisOnExtAddrChange (n_Id n) (n_ExtAddr n)).

(** [Node.onStatusPushExtAddr] *)
Definition onStatusPushExtAddr (l : nat) (extaddr : Z) : DM () :=
  _ ← assert (negb (extaddr =? InvalidExtAddr));
  n ← get_node l;
  if n_ExtAddr n =? extaddr then mret tt else
  _ ← mod_node l (set_ExtAddr extaddr);
  onExtAddrChanged l (n_ExtAddr n).

Definition nodeMilliTimeWrap : Z := 4294967295 * 1000.
Fixpoint milliTime_loop (fuel : nat) (curTime ts : Z) : res Z :=
  match fuel with
  | O => Panic OutOfFuel
  | S fuel =>
    if u64 (ts + nodeMilliTimeWrap) <? curTime then milliTime_loop fuel curTime (u64 (ts + nodeMilliTimeWrap))
    else Ok ts
  end.
(** One turn per period of the node's clock, and the turn that ends the loop. *)
Definition convertNodeMilliTime (l : nat) (milliTime : Z) : DM Z :=
  n ← get_node l;
  d ← get;
  lift (milliTime_loop (S (S (Z.to_nat (d_CurTime d / nodeMilliTimeWrap)))) (d_CurTime d)
    (u64 (n_CreateTime n + milliTime * 1000))).

Definition handleCoapEvent (l : nat) (argsStr : string) : DM () :=
  d ← get;
  n ← get_node l;
  match d_coaps d with
  | None => mret tt
  | Some coaps =>
    let args := Split argsStr ","%char in
    _ ← assert (bool_decide (0 < length args)%nat);
    action ← lift (index args 0);
    if String.eqb action "send" || String.eqb action "recv" || String.eqb action "send_error" then
      _ ← assert (bool_decide (7 <= length args)%nat);
      messageId ← lift (a ← index args 1; Atoi a);
      coapType ← lift (a ← index args 2; Atoi a);
      coapCode ← lift (a ← index args 3; Atoi a);
      uri ← lift (index args 4);
      ip ← lift (index args 5);
      port ← lift (a ← index args 6; Atoi a);
      threadError ← lift (index args 6);
      modify (set_d_coaps (Some (
        if String.eqb action "send" then OnSend (d_CurTime d) (n_Id n) messageId coapType coapCode uri ip port coaps
        else if String.eqb action "recv" then OnRecv (d_CurTime d) (n_Id n) messageId coapType coapCode uri ip port coaps
        else OnSendError (n_Id n) messageId coapType coapCode uri ip port threadError coaps)))
    else mret tt
  end.

(** The arguments of [ping_request] and [ping_reply]: address, size and time. *)
Definition ping_args (s : string) : res (string * Z * Z * list string) :=
  let args := Split s ","%char in
  dstaddr ← index args 0;
  datasize ← (a ← index args 1; Atoi a);
  timestamp ← (a ← index args 2; ParseUint a 10 64);
  Ok (dstaddr, datasize, timestamp, args).

Definition topology : DM () := count oneTopology.

(** One [key=value] of a status push. *)
Definition handleStatus (l : nat) (key value : string) : DM () :=
  n ← get_node l;
  d ← get;
  let srcid := n_Id n in
  let is_key := String.eqb key in
  let extaddr := lift (ParseUint value 16 64) in
  if is_key "transmit" then mret tt
  else if is_key "role" then role ← lift (Atoi value); _ ← setNodeRole l role; topology
  else if is_key "rloc16" then rloc16 ← lift (Atoi value); setNodeRloc16 srcid (u16 rloc16)
  else if is_key "ping_request" then
    '(dstaddr, datasize, timestamp, _) ← lift (ping_args value);
    ts ← convertNodeMilliTime l (u32 timestamp);
    mod_node l (onPingRequest ts dstaddr datasize)
  else if is_key "ping_reply" then
    '(dstaddr, datasize, timestamp, args) ← lift (ping_args value);
    hoplimit ← lift (a ← index args 3; Atoi a);
    ts ← convertNodeMilliTime l (u32 timestamp);
    mod_node l (onPingReply (d_CurTime d) ts dstaddr datasize hoplimit)
  else if is_key "coap" then handleCoapEvent l value
  else if is_key "parid" then
    parid ← lift (ParseUint value 16 32);
    _ ← mod_node l (set_PartitionId (u32 parid));
    _ ← vis (VisSetNodePartitionId srcid (u32 parid));
    topology
  else if is_key "router_added" then
    a ← extaddr; _ ← when (vo_RouterTable (d_visOptions d)) (vis (VisAddRouterTable srcid a)); topology
  else if is_key "router_removed" then
    a ← extaddr; _ ← when (vo_RouterTable (d_visOptions d)) (vis (VisRemoveRouterTable srcid a)); topology
  else if is_key "child_added" then
    a ← extaddr; _ ← when (vo_ChildTable (d_visOptions d)) (vis (VisAddChildTable srcid a)); topology
  else if is_key "child_removed" then
    a ← extaddr; _ ← when (vo_ChildTable (d_visOptions d)) (vis (VisRemoveChildTable srcid a)); topology
  else if is_key "parent" then a ← extaddr; _ ← vis (VisSetParent srcid a); topology
  else if is_key "joiner_state" then st ← lift (Atoi value); mod_node l (onJoinerState st)
  else if is_key "extaddr" then a ← extaddr; onStatusPushExtAddr l a
  else if is_key "mode" then
    let mode := ParseNodeMode value in
    _ ← mod_node l (set_Mode mode);
    _ ← vis (VisSetNodeMode srcid mode);
    topology
  else mret tt.

Definition handleStatusPush (l : nat) (data : string) : DM () :=
  old ← gets (fun d => TopologyChanges (d_Counters d));
  _ ← for_each (Split data ";"%char) (fun status =>
        match Split status "="%char with
        | [key; value] => handleStatus l key value
        | _ => mret tt
        end);
  new ← gets (fun d => TopologyChanges (d_Counters d));
  when (new >? old) updateNodeStats.

(** ** Adding and deleting nodes *)
Definition WatchNode (id : NodeId) : DM () :=
  modify (fun d => set_d_watchingNodes ({[id]} ∪ d_watchingNodes d) d).
Definition UnwatchNode (id : NodeId) : DM () :=
  modify (fun d => set_d_watchingNodes (d_watchingNodes d ∖ {[id]}) d).
Definition GetWatchingNodes (d : Dispatcher M) : list NodeId := merge_sort Z.le (elements (d_watchingNodes d)).

(** The node locations sorted by node id. *)
Definition sorted_nodes (nodes : gmap NodeId nat) : list nat :=
  omap (fun id => nodes !! id) (merge_sort Z.le (elements (dom nodes))).
Definition reconstructNodesArray : DM () :=
  modify (fun d => set_d_nodesArray (sorted_nodes (d_nodes d)) d).

Definition mod_energy (f : EnergyAnalyser -> EnergyAnalyser) : DM () :=
  update (fun d => e ← deref (d_energyAnalyser d); Ok (set_d_energyAnalyser (Some (f e)) d)).

(** [newNode]: the node and its radio node are allocated together. *)
Definition alloc_node (nodeid : NodeId) (cfg : NodeConfig) : DM nat :=
  d ← get;
  n ← lift (DNode.newNode (d_CurTime d) nodeid cfg);
  let l := d_next d in
  let r := d_radio d in
  _ ← modify (fun d => set_d_next (S l) (set_d_store (<[l:=n]> (d_store d)) d));
  _ ← modify (set_d_radio (mkRadioSt (<[l:=NewRadioNode nodeid (nc_X cfg) (nc_Y cfg) (nc_Z cfg)
        (nc_RadioRange cfg)]> (rs_nodes r)) (rs_model r) (rs_draws r) (rs_out r)));
  mret l.

Definition AddNode (nodeid : NodeId) (cfg : NodeConfig) : DM nat :=
  l ← lookup_node nodeid;
  _ ← assert (bool_decide (l = None));
  l ← alloc_node nodeid cfg;
  _ ← modify (fun d => set_d_deletedNodes (d_deletedNodes d ∖ {[nodeid]}) d);
  _ ← modify (fun d => set_d_nodes (<[nodeid:=l]> (d_nodes d)) d);
  _ ← reconstructNodesArray;
  _ ← topology;
  _ ← mod_alarm (AlarmMgr.AddNode nodeid);
  d ← get;
  _ ← mod_energy (Energy.AddNode nodeid (d_CurTime d));
  _ ← vis (VisAddNode nodeid cfg);
  _ ← radio (rm_AddNode l);
  _ ← updateNodeStats;
  _ ← when (cfg_DefaultWatchOn (d_cfg d) && cfg_WatchLevelOk (d_cfg d)) (WatchNode nodeid);
  _ ← when (negb (d_isFirstNodeAdded d))
        (_ ← syncSpeedStart; modify (set_d_isFirstNodeAdded true));
  mret l.

Definition DeleteNode (id : NodeId) : DM () :=
  l ← lookup_node id;
  l ← lift (assert_not_nil l);
  _ ← modify (fun d => set_d_nodes (delete id (d_nodes d)) d);
  _ ← reconstructNodesArray;
  _ ← topology;
  _ ← modify (fun d => set_d_aliveNodes (d_aliveNodes d ∖ {[id]}) d);
  _ ← UnwatchNode id;
  n ← get_node l;
  _ ← when (negb (n_Rloc16 n =? InvalidRloc16)) (mod_rloc16Map (Rloc16Map.Remove (n_Rloc16 n) l));
  d ← get;
  _ ← when (negb (n_ExtAddr n =? InvalidExtAddr))
        (_ ← assert (bool_decide (d_extaddrMap d !! n_ExtAddr n = Some l));
         modify (fun d => set_d_extaddrMap (delete (n_ExtAddr n) (d_extaddrMap d)) d));
  _ ← mod_alarm (AlarmMgr.DeleteNode id);
  _ ← modify (fun d => set_d_deletedNodes ({[id]} ∪ d_deletedNodes d) d);
  _ ← mod_energy (Energy.DeleteNode id);
  _ ← vis (VisDeleteNode id);
  _ ← radio (rm_DeleteNode id);
  _ ← modify (fun d => set_d_eventQueue (DisableEventsForNode id (d_eventQueue d)) d);
  updateNodeStats.

(** ** The radio model

    [radio_nodes] are the nodes in the order of the array. *)
Definition GetRadioModel : DM M := gets (fun d => rs_model (d_radio d)).
Definition radio_nodes : DM (list (NodeId * nat)) :=
  d ← get; lift (mapM (fun l => n ← deref (d_store d !! l); Ok (n_Id n, l)) (d_nodesArray d)).
Definition SetRadioModel (model : M) : DM () := nodes ← radio_nodes; radio (transfer nodes model).
(** [NewRadioModel] and [SetRadioModel]: the new model, if the name is that of one. *)
Definition ReplaceRadioModel (name : string) (seed : Z) : DM (option M) :=
  match rm_New name seed with
  | Some model => _ ← SetRadioModel model; mret (Some model)
  | None => mret None
  end.

Definition SetNodePos (id : NodeId) (x y z : Z) : DM () :=
  l ← lookup_node id;
  l ← lift (assert_not_nil l);
  _ ← mod_node l (set_Pos x y z);
  _ ← radio (mod_rn l (RadioNode.SetNodePos x y z));
  vis (VisSetNodePos id x y z).

Definition SetNodeFailed (id : NodeId) (fail : bool) : DM () :=
  l ← lookup_node id;
  l ← lift (assert_not_nil l);
  n ← get_node l;
  '(n, vs) ← lift (switch_radio fail n);
  _ ← put_node l n;
  vis_all vs.

Definition GetFailedCount (d : Dispatcher M) : Z :=
  count_if n_isFailed (omap (fun l => d_store d !! l) (d_nodesArray d)).

Definition SetGlobalPacketLossRatio (plr : float) : DM () :=
  modify (set_d_globalPacketLossRatio (if (plr >? 1)%gf then 1%float else if (plr <? 0)%gf then 0%float else plr)).

Definition EnableCoaps : DM () :=
  modify (fun d => match d_coaps d with None => set_d_coaps (Some newCoapsHandler) d | Some _ => d end).
Definition CollectCoapMessages (clear : bool) : DM (option (list CoapMessage)) :=
  d ← get;
  match d_coaps d with
  | Some c => let '(ms, c) := DumpMessages clear c in _ ← modify (set_d_coaps (Some c)); mret (Some ms)
  | None => mret None
  end.

(** [Node.SetFailTime], [Node.CollectPings] and [Node.CollectJoins] on a node object. *)
Definition SetFailTime (l : nat) (failTime : FailTime) : DM () :=
  n ← get_node l;
  d ← get;
  let rel := NewFailTime (d_fails d) (FailInterval failTime - FailDuration failTime) in
  '(n, vs) ← lift (DNode.SetFailTime rel failTime n);
  _ ← modify (fun d => set_d_fails (S (d_fails d)) d);
  _ ← put_node l n;
  vis_all vs.
Definition CollectPings (l : nat) : DM (list PingResult) :=
  n ← get_node l;
  let '(pings, n) := DNode.CollectPings n in
  _ ← put_node l n;
  mret pings.
Definition CollectJoins (l : nat) : DM (list JoinResult) :=
  n ← get_node l;
  let '(joins, n) := DNode.CollectJoins n in
  _ ← put_node l n;
  mret joins.

Definition SetEnergyAnalyser (e : EnergyAnalyser) : DM () := modify (set_d_energyAnalyser (Some e)).
Definition SetVisualizationOptions (opts : VisualizationOptions) : DM () := modify (set_d_visOptions opts).

Definition NotifyCommand (nodeid : NodeId) : DM () :=
  l ← lookup_node nodeid;
  match l with
  | None => mret tt
  | Some l => _ ← setAlive nodeid; d ← get; advanceNodeTime l (d_CurTime d) true
  end.

(** ** Events from the nodes *)
Definition MaxInt32 : Z := 2 ^ 31 - 1.

(** The switch of [HandleEvent], for an event of a known node. *)
Definition handleNodeEvent (l : nat) (evt : Event) : DM () :=
  n ← get_node l;
  d ← get;
  let id := n_Id n in
  let ty := ev_Type evt in
  if ty =? EventTypeAlarmFired then
    _ ← count oneAlarm;
    _ ← when (ev_MsgId evt =? n_msgId n) (setSleeping id);
    let delay := if ev_Delay evt >=? MaxInt32 then Ever else ev_Delay evt in
    mod_alarm (SetTimestamp (ev_NodeId evt) (u64 (d_CurTime d + delay)))
  else if (ty =? EventTypeRadioCommStart) || (ty =? EventTypeRadioState) || (ty =? EventTypeRadioChannelSample) then
    _ ← count oneRadio; queue_add evt
  else if ty =? EventTypeStatusPush then
    _ ← count oneStatusPush; handleStatusPush l (string_of_bytes (ev_Data evt))
  else if ty =? EventTypeUartWrite then _ ← count oneUartWrite; callback (OnUartWrite id (ev_Data evt))
  else if ty =? EventTypeUartDisconnected then
    _ ← count oneOther;
    _ ← when (negb (IsConnected n)) (_ ← mod_node l DisconnectSocket; setSleeping id);
    callback (OnUartDisconnected id)
  else if ty =? EventTypeLogWrite then _ ← count oneLogWrite; callback (OnLogWrite id (ev_Data evt) false)
  else if ty =? EventTypeLogWriteHost then _ ← count oneLogWrite; callback (OnLogWrite id (ev_Data evt) true)
  else if ty =? EventTypeExtAddr then
    _ ← count oneOther;
    b ← lift (slice (ev_Data evt) 0 8);
    onStatusPushExtAddr l (be_get b)
  else if ty =? EventTypeNodeInfo then count oneOther
  else if ty =? EventTypeNodeDisconnected then
    _ ← count oneOther;
    _ ← mod_alarm (SetNotified id);
    _ ← mod_node l DisconnectSocket;
    _ ← setSleeping id;
    callback (OnNodeDisconnected id)
  else if (ty =? EventTypeUdpToHost) || (ty =? EventTypeIp6ToHost) then
    _ ← count oneHost; callback (OnMsgToHost id evt)
  else if (ty =? EventTypeUdpFromHost) || (ty =? EventTypeIp6FromHost) then
    _ ← count oneHost; queue_add (set_MustDispatch true (Copy evt))
  else _ ← count oneOther; callback (OnRfSimEvent id evt).

Section handler.
Variable OnNewNodeDetected : NodeId -> DM bool.

(** The node of the event; an unknown node that introduces itself may be accepted. *)
Definition findNode (evt : Event) : DM (option nat) :=
  l ← lookup_node (ev_NodeId evt);
  match l, ev_Conn evt with
  | Some l, _ => mret (Some l)
  | None, Some c =>
    if ev_Type evt =? EventTypeNodeInfo then
      isAccepted ← OnNewNodeDetected (ev_NodeId evt);
      if (isAccepted : bool) then
        l ← lookup_node (ev_NodeId evt);
        l ← lift (assert_not_nil l);
        n ← get_node l;
        _ ← lift (assert_not_nil (n_conn n));
        mret (Some l)
      else _ ← output (OClose c); mret None
    else mret None
  | None, None => mret None
  end.

Definition HandleEvent (evt : Event) : DM () :=
  l ← findNode evt;
  match l with
  | None => mret tt
  | Some l =>
    n ← get_node l;
    d ← get;
    match n_conn n, ev_Conn evt with
    | None, c =>
      _ ← mod_node l (set_conn c);
      handleNodeEvent l (set_Timestamp (d_CurTime d) evt)
    | Some c, Some c' =>
      if (c =? c')%nat then handleNodeEvent l (set_Timestamp (d_CurTime d) evt) else output (OClose c')
    | Some _, None => handleNodeEvent l (set_Timestamp (d_CurTime d) evt)
    end
  end.

(** ** Running for a duration

    [RecvEvents] handles the events that arrive until no node is alive; which ones arrive
    is up to the nodes.  [syncAliveNodes] and [syncAllNodes] advance lagging nodes. *)
Definition RecvEvents (evts : list Event) : DM () := for_each evts HandleEvent.

Definition syncAliveNodes : DM () :=
  d ← get;
  for_each (range_alive (d_aliveNodes d)) (fun id =>
    l ← lookup_node id;
    l ← lift (assert_not_nil l);
    d ← get;
    advanceNodeTime l (d_CurTime d) true).

Definition syncAllNodes (evts : list Event) : DM () :=
  d ← get;
  _ ← for_each (d_nodesArray d) (fun l => d ← get; advanceNodeTime l (d_CurTime d) false);
  RecvEvents evts.

(** The operations that the simulation performs in the tasks it posts. *)
Inductive Task :=
| TaskRecvEvents (evts : list Event)
| TaskAddNode (nodeid : NodeId) (cfg : NodeConfig)
| TaskDeleteNode (id : NodeId)
| TaskSetNodePos (id : NodeId) (x y z : Z)
| TaskSetNodeFailed (id : NodeId) (fail : bool)
| TaskSetFailTime (id : NodeId) (failTime : FailTime)
| TaskCollectPings (node : nat)
| TaskCollectJoins (node : nat)
| TaskNotifyCommand (id : NodeId)
| TaskSendToVirtualUART (node : nat) (data : list Z)
| TaskSendRfSimEvent (node : nat) (writeValue : bool) (param value : Z)
| TaskSetGlobalPacketLossRatio (plr : float)
| TaskWatchNode (id : NodeId)
| TaskUnwatchNode (id : NodeId)
| TaskEnableCoaps
| TaskCollectCoapMessages (clear : bool)
| TaskSetEnergyAnalyser (e : EnergyAnalyser)
| TaskSetVisualizationOptions (opts : VisualizationOptions)
| TaskSetSpeed (f : float)
| TaskReplaceRadioModel (name : string) (seed : Z)
| TaskModifyRadioParams (p : RadioModelParams) (isChanged : bool).

Definition run_task (t : Task) : DM () :=
  match t with
  | TaskRecvEvents evts => RecvEvents evts
  | TaskAddNode id cfg => _ ← AddNode id cfg; mret tt
  | TaskDeleteNode id => DeleteNode id
  | TaskSetNodePos id x y z => SetNodePos id x y z
  | TaskSetNodeFailed id fail => SetNodeFailed id fail
  | TaskSetFailTime id ft => l ← lookup_node id; match l with Some l => SetFailTime l ft | None => mret tt end
  | TaskCollectPings l => _ ← CollectPings l; mret tt
  | TaskCollectJoins l => _ ← CollectJoins l; mret tt
  | TaskNotifyCommand id => NotifyCommand id
  | TaskSendToVirtualUART l data => _ ← SendToVirtualUART l data; mret tt
  | TaskSendRfSimEvent l w p v => _ ← SendRfSimEvent l w p v; mret tt
  | TaskSetGlobalPacketLossRatio plr => SetGlobalPacketLossRatio plr
  | TaskWatchNode id => WatchNode id
  | TaskUnwatchNode id => UnwatchNode id
  | TaskEnableCoaps => EnableCoaps
  | TaskCollectCoapMessages clear => _ ← CollectCoapMessages clear; mret tt
  | TaskSetEnergyAnalyser e => SetEnergyAnalyser e
  | TaskSetVisualizationOptions opts => SetVisualizationOptions opts
  | TaskSetSpeed f => SetSpeed f
  | TaskReplaceRadioModel name seed => _ ← ReplaceRadioModel name seed; mret tt
  | TaskModifyRadioParams p isChanged => radio (modify_params p isChanged)
  end.
Definition handleTasks (tasks : list Task) : DM () := for_each tasks run_task.

(** What a turn of the loop finds: the events received and the tasks posted. *)
Record Turn := mkTurn { tn_events : list Event; tn_tasks : list Task }.

(** One turn of the loop; whether the loop goes on. *)
Definition simulateTurn (fuel : nat) (t : Turn) : DM bool :=
  _ ← RecvEvents (tn_events t);
  _ ← syncAliveNodes;
  _ ← handleTasks (tn_tasks t);
  d ← get;
  if bool_decide (d_aliveNodes d = ∅) then
    goon ← processNextEvents fuel (d_speed d);
    d ← get;
    _ ← assert (d_CurTime d <=? d_pauseTime d);
    if negb goon && bool_decide (d_aliveNodes d = ∅) then _ ← advanceTime (d_pauseTime d); mret false
    else mret true
  else mret true.

(** The loop until the pause time; the period is cancelled when [turns] ends.  The result
    tells whether it was. *)
Fixpoint simulateLoop (fuel : nat) (turns : list Turn) : DM bool :=
  d ← get;
  if d_CurTime d <=? d_pauseTime d then
    match turns with
    | [] => mret true
    | t :: turns =>
      goon ← simulateTurn fuel t;
      if (goon : bool) then simulateLoop fuel turns else mret false
    end
  else mret false.

Definition pause_after (curTime durationUs : Z) : Z :=
  let p := u64 (curTime + durationUs) in if p >? Ever then Ever else p.

(** [speed] is the speed of the period, or [DefaultDispatcherSpeed].  [goBegin] is what is done
    before the loop, with the speed to restore as its result, and [goEnd] what is done after it. *)
Definition ownSpeed (speed : float) : bool := negb (PrimFloat.eqb speed DefaultDispatcherSpeed).
Definition goBegin (durationUs : Z) (speed : float) : DM float :=
  _ ← syncSpeedStart;
  postSpeed ← gets d_speed;
  _ ← when (ownSpeed speed) (SetSpeed speed);
  _ ← modify (fun d => set_d_pauseTime (pause_after (d_CurTime d) durationUs) d);
  d ← get;
  _ ← assert (d_CurTime d <=? d_pauseTime d);
  mret postSpeed.
Definition goEnd (speed postSpeed : float) : DM () :=
  _ ← when (ownSpeed speed) (SetSpeed postSpeed);
  modify (fun d => if d_pauseTime d >? d_CurTime d then set_d_pauseTime (d_CurTime d) d else d).
Definition goSimulateForDuration (fuel : nat) (durationUs : Z) (speed : float) (turns : list Turn) : DM bool :=
  postSpeed ← goBegin durationUs speed;
  cancelled ← simulateLoop fuel turns;
  _ ← goEnd speed postSpeed;
  mret cancelled.

(** ** The main loops

    [Run] serves one request at a time: an event, a task, or a period to simulate.  The
    tasks are the operations above, posted by the simulation. *)
Definition runGo (fuel : nat) (durationUs : Z) (speed : float) (turns : list Turn) (evts : list Event) : DM () :=
  d ← get;
  _ ← assert (d_CurTime d =? d_pauseTime d);
  _ ← goSimulateForDuration fuel durationUs speed turns;
  d ← get;
  _ ← assert (d_CurTime d =? d_pauseTime d);
  syncAllNodes evts.

(** One turn of [RunRealtime] after the requests: the simulation time that it aims at, and the
    time of the next event. *)
Definition realtimeTarget : DM Z :=
  d ← get;
  if negb (d_isFirstNodeAdded d) then mret 0
  else
    since ← time_Since (d_speedStartRealTime d);
    let simTimeTarget := u64 (Z.quot since Microsecond) in
    mret (if simTimeTarget <? d_CurTime d then d_CurTime d else simTimeTarget).
Definition realtimeTurn (fuel : nat) : DM (Z * Z) :=
  simTimeTarget ← realtimeTarget;
  d ← get;
  nextEventTime ← (if bool_decide (d_aliveNodes d = ∅) then processNextEventsRealtime fuel simTimeTarget else mret 0);
  mret (simTimeTarget, nextEventTime).
Definition MinReliableSleepTime : Z := Millisecond.
Definition RealtimeMaxVizIntervalUs : Z := 200000.
(** For how long the loop waits then, at most, for an event or a task. *)
Definition realtimeSleep (simTimeTarget nextEventTime : Z) (alive : gset NodeId) : Z :=
  let minReliableSleepTimeUs := Z.quot MinReliableSleepTime Microsecond in
  if nextEventTime >? u64 (simTimeTarget + RealtimeMaxVizIntervalUs) then RealtimeMaxVizIntervalUs * Microsecond
  else if nextEventTime >=? u64 (simTimeTarget + minReliableSleepTimeUs) then
    to_signed 64 ((nextEventTime - simTimeTarget) * Microsecond)
  else if bool_decide (alive = ∅) then 0
  else minReliableSleepTimeUs * Microsecond.

Inductive Request :=
| ReqEvent (evt : Event)
| ReqTask (t : Task)
| ReqGo (fuel : nat) (durationUs : Z) (speed : float) (turns : list Turn) (evts : list Event)
| ReqRealtime (fuel : nat).

Definition serve (r : Request) : DM () :=
  match r with
  | ReqEvent evt => HandleEvent evt
  | ReqTask t => run_task t
  | ReqGo fuel durationUs speed turns evts => runGo fuel durationUs speed turns evts
  | ReqRealtime fuel => _ ← realtimeTurn fuel; mret tt
  end.

(** The states that the loops go through. *)
Inductive reachable (cfg : Config) (model : M) (rnd : nat) : Dispatcher M -> Prop :=
| reach_new d : NewDispatcher cfg model rnd = Ok d -> reachable cfg model rnd d
| reach_serve r d d' : reachable cfg model rnd d -> serve r d = Ok (tt, d') -> reachable cfg model rnd d'.
End handler.

(** ** Properties that do not depend on the clock

    Reading the clock, sleeping and changing the speed keep every property that does not
    mention the fields of the clock. *)
Definition on_clock (P : Dispatcher M -> Prop) : Prop :=
  forall d t n, 0 <= t -> P d -> P (set_d_now (d_now d + t) (set_d_reads n d)).
Record on_speed (P : Dispatcher M -> Prop) : Prop := {
  os_start d : P d -> P (set_d_speedStartRealTime (d_now d) (set_d_speedStartTime (d_CurTime d) d));
  os_speed d f : P d -> d_speedStartRealTime d = d_now d -> d_speedStartTime d = d_CurTime d ->
    P (set_d_speed (normalizeSpeed f) d);
}.

Lemma time_Now_run d now d' : time_Now d = Ok (now, d') ->
  exists t, 0 <= t /\ now = d_now d + t /\ d' = set_d_now now (set_d_reads (S (d_reads d)) d).
Proof.
  unfold time_Now, get, modify, mbind, st_bind, mret, st_ret. intros [= <- <-].
  exists (Z.of_N (clock_step (d_reads d))). split; [lia|done].
Qed.
Lemma pres_time_Now P : on_clock P -> preserves P time_Now.
Proof. intros HP d now d' Hd E. apply time_Now_run in E as (t & Ht & -> & ->). by apply HP. Qed.
Lemma pres_time_Sleep P t : on_clock P -> preserves P (time_Sleep t).
Proof. intros HP. apply hoare_modify. intros d Hd. apply (HP d (Z.max 0 t) (d_reads d)) in Hd; [|lia]. by destruct d. Qed.
#[local] Hint Resolve pres_time_Now : hoare.
Lemma pres_time_Since P t : on_clock P -> preserves P (time_Since t).
Proof. intros HP. unfold time_Since. pres. Qed.
#[local] Hint Resolve pres_time_Since : hoare.
Lemma pres_measuredSpeed P : on_clock P -> preserves P measuredSpeed.
Proof. intros HP. unfold measuredSpeed. pres. Qed.
Lemma pres_sleepUntil P speed t : on_clock P -> preserves P (sleepUntil speed t).
Proof. intros HP. unfold sleepUntil. pres. by apply pres_time_Sleep. Qed.
Lemma syncSpeedStart_run d u d' : syncSpeedStart d = Ok (u, d') ->
  exists t n, 0 <= t /\ let d1 := set_d_now (d_now d + t) (set_d_reads n d) in
    d' = set_d_speedStartRealTime (d_now d1) (set_d_speedStartTime (d_CurTime d1) d1).
Proof.
  unfold syncSpeedStart. intros E. apply bind_st_Ok in E as (now & d1 & (t & Ht & -> & ->)%time_Now_run & E).
  apply modify_st_Ok in E as <-. by exists t, (S (d_reads d)).
Qed.
Lemma pres_syncSpeedStart P : on_clock P -> on_speed P -> preserves P syncSpeedStart.
Proof.
  intros HP [HS _] d u d' Hd E. apply syncSpeedStart_run in E as (t & n & Ht & ->). by apply HS, HP.
Qed.
Lemma pres_SetSpeed P f : on_clock P -> on_speed P -> (forall ns, preserves P (vis (VisSetSpeed ns))) -> preserves P (SetSpeed f).
Proof.
  intros HP HS HV d u d' Hd E. unfold SetSpeed in E. apply bind_st_Ok in E as (? & ? & [<- <-]%get_st_Ok & E).
  destruct (PrimFloat.eqb _ _); [by apply ret_st_Ok in E as [_ <-]|].
  apply bind_st_Ok in E as ([] & d1 & E1 & E). apply bind_st_Ok in E as ([] & d2 & <-%modify_st_Ok & E).
  refine (hoare_run P _ _ _ _ E _ _); [|pres].
  pose proof (pres_syncSpeedStart P HP HS _ _ _ Hd E1) as H1. apply syncSpeedStart_run in E1 as (t & n & Ht & ->).
  by apply (os_speed P HS).
Qed.
End dispatcher.
#[export] Hint Resolve pres_sleepUntil pres_time_Now pres_time_Sleep pres_time_Since pres_measuredSpeed pres_syncSpeedStart pres_SetSpeed : hoare.
#[export] Hint Extern 1 (on_clock _) => let H := fresh in intros ? ? ? _ H; first [exact H|destruct H; split; assumption] : hoare.
#[export] Hint Extern 1 (on_speed _) =>
  let H := fresh in split; [intros ? H|intros ? ? H _ _]; first [exact H|destruct H; split; assumption] : hoare.
