(* ===== verification/DispatcherIndex.v ===== *)
(** * The dispatcher's indexes

    The dispatcher finds nodes by id, by extended address, by short address, in a sorted
    array and in the alarm manager.  This file shows that these stay consistent with each
    other: an invariant that every operation of the dispatcher preserves, for every radio
    model that keeps the promises of the interface. *)

From S2P Require Import Prelude State Types Event GoFloat GoStrings.
From S2P Require Import SendQueue AlarmMgr Wpan Visualize DNode Rloc16Map Coaps Energy RadioNode RadioModel.
From S2P Require Import RadioLaws Dispatcher.

Local Open Scope Z_scope.

Section index.
Context {env : DispEnv} {M : Type} `{!RadioModel M} `{!RadioModelLaws M}.
Implicit Types d : Dispatcher M.

(** ** The part of the state that the indexes are about *)

(** A node's id and addresses. *)
Definition idx (n : Node) : Z * Z * Z := (n_Id n, n_ExtAddr n, n_Rloc16 n).

(** [d'] has the same nodes, addresses and indexes as [d]. *)
Record same_index (d d' : Dispatcher M) : Prop := {
  si_nodes : d_nodes d' = d_nodes d;
  si_array : d_nodesArray d' = d_nodesArray d;
  si_next : d_next d' = d_next d;
  si_ext : d_extaddrMap d' = d_extaddrMap d;
  si_rloc : d_rloc16Map d' = d_rloc16Map d;
  si_store : idx <$> d_store d' = idx <$> d_store d;
  si_radio : dom (rs_nodes (d_radio d')) = dom (rs_nodes (d_radio d));
}.

#[export] Instance same_index_equiv : Equivalence same_index.
Proof.
  split.
  - intros d. by split.
  - intros d d' []. by split.
  - intros a b c [] []. split; congruence.
Qed.

(** ** Operations that leave it alone *)
Abbreviation quiet_op m := (forall d0, preserves (same_index d0) m).

Lemma same_from {A} (m : st (Dispatcher M) A) d a d' : quiet_op m -> m d = Ok (a, d') -> same_index d d'.
Proof. intros H E. by eapply (H d). Qed.

(** Assigning a field outside the indexes. *)
Lemma si_modify f d0 : (forall d, same_index d (f d)) -> preserves (same_index d0) (modify f).
Proof. intros H. apply hoare_modify. intros d Hd. by transitivity d. Qed.
Ltac si_field := apply si_modify; intros ?; split; reflexivity.

Lemma si_output o d0 : preserves (same_index d0) (output o).
Proof. si_field. Qed.
Lemma si_count c d0 : preserves (same_index d0) (count c).
Proof. si_field. Qed.
Lemma si_assert b d0 : preserves (same_index d0) (assert b).
Proof. apply pres_lift. Qed.
Lemma si_lookup_node id d0 : preserves (same_index d0) (lookup_node id).
Proof. apply pres_gets. Qed.
#[local] Hint Resolve si_output si_count si_assert si_lookup_node : hoare.
Lemma si_vis v d0 : preserves (same_index d0) (vis v).
Proof. apply si_output. Qed.
Lemma si_callback v d0 : preserves (same_index d0) (callback v).
Proof. apply si_output. Qed.
#[local] Hint Resolve si_vis si_callback : hoare.
Lemma si_vis_all vs d0 : preserves (same_index d0) (vis_all vs).
Proof. unfold vis_all. pres. Qed.
Lemma si_get_node l d0 : preserves (same_index d0) (get_node l).
Proof. unfold get_node. pres. Qed.
#[local] Hint Resolve si_vis_all si_get_node : hoare.

Lemma get_node_Ok l d n d' : get_node l d = Ok (n, d') <-> d_store d !! l = Some n /\ d' = d.
Proof.
  unfold get_node, get, lift, mbind, st_bind. destruct (d_store d !! l); simpl; split; naive_solver.
Qed.

Lemma mod_node_Ok l f d u d' :
  mod_node l f d = Ok (u, d') <->
  exists n, d_store d !! l = Some n /\ d' = set_d_store (<[l:=f n]> (d_store d)) d.
Proof.
  unfold mod_node, put_node. rewrite bind_st_Ok. split.
  - intros (n & d1 & [Hn ->]%get_node_Ok & E%modify_st_Ok). eauto.
  - intros (n & Hn & ->). exists n, d. rewrite get_node_Ok, modify_st_Ok. done.
Qed.

Lemma fmap_insert_same {A B} (f : A -> B) (m : gmap nat A) l x y :
  m !! l = Some x -> f y = f x -> f <$> <[l:=y]> m = f <$> m.
Proof. intros H E. rewrite fmap_insert, E. apply insert_id. by rewrite lookup_fmap, H. Qed.

Lemma si_mod_node l f d0 : (forall n, idx (f n) = idx n) -> preserves (same_index d0) (mod_node l f).
Proof.
  intros Hf d u d' Hd (n & Hn & ->)%mod_node_Ok. transitivity d; [done|]. split; try done. simpl.
  by apply fmap_insert_same with n.
Qed.
#[local] Hint Extern 2 (hoare _ (mod_node _ _) _) => apply si_mod_node; intros []; reflexivity : hoare.

Lemma si_mod_alarm f d0 : preserves (same_index d0) (mod_alarm f).
Proof. apply hoare_update. intros d d' Hd E. res_inv. subst. transitivity d; [done|]. by split. Qed.
Lemma si_queue_add e d0 : preserves (same_index d0) (queue_add e).
Proof. apply hoare_update. intros d d' Hd E. res_inv. subst. transitivity d; [done|]. by split. Qed.
#[local] Hint Resolve si_mod_alarm si_queue_add : hoare.

(** An operation of the radio model that neither adds nor removes radio nodes. *)
Definition keeps_nodes {A} (m : st (radio_st M) A) : Prop :=
  forall s a s', m s = Ok (a, s') -> dom (rs_nodes s') = dom (rs_nodes s).

Lemma si_radio_op {A} (m : st (radio_st M) A) d0 : keeps_nodes m -> preserves (same_index d0) (radio m).
Proof.
  intros Hm d a d' Hd E. unfold radio in E.
  destruct (m _) as [[b r]|] eqn:Em; [|done]. apply Hm in Em. simpl in Em.
  assert (preserves (same_index d0) (_ ← for_each (rs_out r) queue_add; mret b : st (Dispatcher M) A)) as HP
    by pres.
  eapply HP; [|exact E]. transitivity d; [done|]. by split.
Qed.

Lemma kn_HandleEvent l evt : keeps_nodes (rm_HandleEvent l evt).
Proof. intros s a s' E. by eapply law_HandleEvent. Qed.
Lemma kn_OnEventDispatch src dst evt : keeps_nodes (rm_OnEventDispatch src dst evt).
Proof. intros s [b e] s' E. by eapply law_OnEventDispatch. Qed.
Lemma kn_CheckRadioReachable src dst : keeps_nodes (rm_CheckRadioReachable src dst).
Proof. intros s a s' E. apply law_CheckRadioReachable in E as (_ & -> & _). done. Qed.
Lemma kn_OnNextEventTime ts : keeps_nodes (rm_OnNextEventTime ts).
Proof. intros s a s' E. apply law_OnNextEventTime in E as (_ & ->). done. Qed.
Lemma kn_AddNode l : keeps_nodes (rm_AddNode l).
Proof. intros s a s' E. apply law_AddNode in E as (_ & ->). done. Qed.
Lemma kn_DeleteNode id : keeps_nodes (rm_DeleteNode id).
Proof. intros s a s' E. apply law_DeleteNode in E as (_ & ->). done. Qed.
Lemma kn_transfer nodes new : keeps_nodes (transfer nodes new).
Proof. intros s a s' E. apply transfer_quiet in E as (_ & ->). done. Qed.
Lemma kn_modify_params p b : keeps_nodes (modify_params p b).
Proof. intros s a s' E. apply modify_params_quiet in E as (_ & ->). done. Qed.
Lemma kn_mod_rn l f : keeps_nodes (mod_rn l f).
Proof.
  intros s a s' E. assert (extends (fun _ => True) s s') as [H _]; [|done].
  eapply pres_mod_rn; [apply extends_refl|exact E].
Qed.
Lemma kn_GetPhyStats : keeps_nodes rm_GetPhyStats.
Proof. intros s a s' E. apply law_GetPhyStats in E as (_ & ->). done. Qed.
#[local] Hint Resolve si_radio_op kn_GetPhyStats kn_HandleEvent kn_OnEventDispatch kn_CheckRadioReachable
  kn_OnNextEventTime kn_AddNode kn_DeleteNode kn_mod_rn kn_transfer kn_modify_params : hoare.

(** *** Sending *)
(** The failure controller only touches the failure state of its node: every part [g] of
    the node outside of it stays. *)
Definition outside_failure {B} (g : Node -> B) : Prop :=
  (forall b n, g (set_isFailed b n) = g n) /\ (forall f n, g (set_failureCtrl f n) = g n).
Lemma idx_outside : outside_failure idx.
Proof. split; by intros ? []. Qed.

Section outside.
Context {B : Type} (g : Node -> B) (Hg : outside_failure g).

Lemma out_Recover n : g (fst (Recover n)) = g n.
Proof. unfold Recover. destruct (n_isFailed n); [apply Hg|done]. Qed.
Lemma out_Fail n : g (fst (Fail n)) = g n.
Proof. unfold Fail. destruct (n_isFailed n); [done|apply Hg]. Qed.
Lemma out_calcNext rel n n' : calcNextFailTimestamp rel n = Ok n' -> g n' = g n.
Proof.
  unfold calcNextFailTimestamp. destruct (negb _); [by intros [= <-]|]. intros E. res_inv.
  destruct (_ <=? 0); [done|]. res_inv. subst. apply Hg.
Qed.
Lemma out_SetFailTime rel ft n n' vs : DNode.SetFailTime rel ft n = Ok (n', vs) -> g n' = g n.
Proof.
  unfold DNode.SetFailTime. set (n1 := set_failureCtrl _ n). intros E.
  destruct (if _ && _ then _ else _) as [n2 v2] eqn:E2. res_inv. subst.
  match goal with H : calcNextFailTimestamp _ _ = _ |- _ => apply out_calcNext in H as -> end.
  transitivity (g n1); [|apply Hg]. destruct (_ && _); [|by injection E2 as <- _].
  by rewrite <- (out_Recover n1), E2.
Qed.
Lemma out_OnTimeAdvanced rel old n ts upd n' vs :
  OnTimeAdvanced rel old n = Ok (ts, upd, n', vs) -> g n' = g n.
Proof.
  unfold OnTimeAdvanced. destruct (negb _); [by intros [= _ _ <- _]|]. intros E. res_inv.
  destruct (n_isFailed n).
  - res_inv. destruct (_ >=? _); [|injection E as _ _ <- _; apply Hg]. res_inv.
    match goal with H : calcNextFailTimestamp _ _ = Ok ?x |- _ => apply out_calcNext in H;
      rewrite (proj2 Hg) in H; pose proof (out_Recover x) as HR; destruct (Recover x) as [n2 v2] end.
    injection E as _ _ <- _. rewrite (proj2 Hg). simpl in HR. congruence.
  - res_inv. destruct (_ >=? _); [|injection E as _ _ <- _; apply Hg].
    match goal with H : context [Fail ?x] |- _ => pose proof (out_Fail x) as HF; destruct (Fail x) as [n2 v2] end.
    injection E as _ _ <- _. simpl in HF. by rewrite HF, (proj2 Hg).
Qed.
Lemma out_switch_radio b n n' vs : switch_radio b n = Ok (n', vs) -> g n' = g n.
Proof.
  unfold switch_radio. intros E. apply bind_Ok in E as ([n1 v1] & E1 & E).
  apply out_SetFailTime in E1 as <-. pose proof (out_Fail n1). pose proof (out_Recover n1).
  destruct b; [destruct (Fail n1)|destruct (Recover n1)]; by injection E as <- _.
Qed.
End outside.

Lemma si_setAlive id d0 : preserves (same_index d0) (setAlive id).
Proof. unfold setAlive. pres. si_field. Qed.
Lemma si_setSleeping id d0 : preserves (same_index d0) (setSleeping id).
Proof. si_field. Qed.
Lemma si_sendRawData l msg d0 : preserves (same_index d0) (sendRawData l msg).
Proof. unfold sendRawData. pres. si_field. Qed.
#[local] Hint Resolve si_setAlive si_setSleeping si_sendRawData : hoare.

(** Replacing a node by one with the same id and addresses. *)
Lemma si_put_node l n' d0 :
  hoare (fun d => same_index d0 d /\ exists n, d_store d !! l = Some n /\ idx n' = idx n)
    (put_node l n') (fun _ => same_index d0).
Proof.
  apply hoare_modify. intros d (Hd & n & Hn & E). transitivity d; [done|]. split; try done. simpl.
  by apply fmap_insert_same with n.
Qed.

Lemma si_reEvaluate l old d0 : preserves (same_index d0) (reEvaluate l old).
Proof.
  intros d u d' Hd E. unfold reEvaluate in E.
  apply bind_st_Ok in E as (n & d1 & [Hn ->]%get_node_Ok & E).
  apply bind_st_Ok in E as (? & ? & [<- <-]%get_st_Ok & E).
  apply bind_st_Ok in E as ([[[ts upd] n'] vs] & ? & [Ha <-]%lift_st_Ok & E).
  apply bind_st_Ok in E as (? & d1 & <-%modify_st_Ok & E).
  apply bind_st_Ok in E as (? & d1 & Ep & E).
  apply (si_put_node l n' d0) in Ep.
  - revert E. intros E. eapply (pres_bind (same_index d0)) in E; [exact E| |  |exact Ep]; pres.
  - split; [transitivity d; [done|by split]|]. exists n. split; [done|]. by eapply (out_OnTimeAdvanced idx idx_outside).
Qed.
#[local] Hint Resolve si_reEvaluate : hoare.

Lemma si_sendEvent l evt d0 : preserves (same_index d0) (sendEvent l evt).
Proof. unfold sendEvent. pres. Qed.
#[local] Hint Resolve si_sendEvent : hoare.
Lemma si_advanceNodeTime l ts force d0 : preserves (same_index d0) (advanceNodeTime l ts force).
Proof. unfold advanceNodeTime. pres. Qed.
Lemma si_visSend a b i d0 : preserves (same_index d0) (visSend a b i).
Proof. unfold visSend. pres. Qed.
#[local] Hint Resolve si_advanceNodeTime si_visSend : hoare.
Lemma si_checkRadioReachable a b d0 : preserves (same_index d0) (checkRadioReachable a b).
Proof. unfold checkRadioReachable. pres. Qed.
Lemma si_packetLost evt d0 : preserves (same_index d0) (packetLost evt).
Proof. unfold packetLost, drawUnit. pres. si_field. Qed.
#[local] Hint Resolve si_checkRadioReachable si_packetLost : hoare.
Lemma si_sendOneRadioFrame evt a b d0 : preserves (same_index d0) (sendOneRadioFrame evt a b).
Proof. unfold sendOneRadioFrame. pres. Qed.
#[local] Hint Resolve si_sendOneRadioFrame : hoare.
Lemma si_dispatch_to evt src dsts d0 : preserves (same_index d0) (dispatch_to evt src dsts).
Proof. induction dsts as [|x dsts IH]; cbn [dispatch_to]; pres. Qed.
#[local] Hint Resolve si_dispatch_to : hoare.
Lemma si_sendRadioCommRxStartEvents src evt d0 : preserves (same_index d0) (sendRadioCommRxStartEvents src evt).
Proof. unfold sendRadioCommRxStartEvents, visSendFrame. pres. Qed.
Lemma si_sendRadioCommRxDoneEvents src evt d0 : preserves (same_index d0) (sendRadioCommRxDoneEvents src evt).
Proof. unfold sendRadioCommRxDoneEvents. pres. Qed.
Lemma si_updateNodeStats d0 : preserves (same_index d0) updateNodeStats.
Proof. unfold updateNodeStats. pres. Qed.
#[local] Hint Resolve si_sendRadioCommRxStartEvents si_sendRadioCommRxDoneEvents si_updateNodeStats : hoare.

(** *** Time and queued events *)
Lemma si_visSendTimeWindowStats d0 : preserves (same_index d0) visSendTimeWindowStats.
Proof. unfold visSendTimeWindowStats. pres. Qed.
#[local] Hint Resolve si_visSendTimeWindowStats : hoare.
#[local] Hint Extern 3 (hoare _ (modify _) _) => si_field : hoare.
Lemma si_emptyWindows fuel d0 : preserves (same_index d0) (emptyWindows fuel).
Proof. induction fuel; cbn [emptyWindows]; pres. Qed.
#[local] Hint Resolve si_emptyWindows : hoare.
Lemma si_updateTimeWindowStats d0 : preserves (same_index d0) updateTimeWindowStats.
Proof. unfold updateTimeWindowStats. pres. Qed.
Lemma si_storeEnergy ts d0 : preserves (same_index d0) (storeEnergy ts).
Proof. unfold storeEnergy. pres. Qed.
#[local] Hint Resolve si_updateTimeWindowStats si_storeEnergy : hoare.
Lemma si_advanceTime ts d0 : preserves (same_index d0) (advanceTime ts).
Proof. unfold advanceTime. pres. Qed.
Lemma si_handleRadioState l evt d0 : preserves (same_index d0) (handleRadioState l evt).
Proof. unfold handleRadioState. pres. Qed.
#[local] Hint Resolve si_advanceTime si_handleRadioState : hoare.
Lemma si_processEvent evt d0 : preserves (same_index d0) (processEvent evt).
Proof. unfold processEvent, visSendInterference. pres. Qed.
#[local] Hint Resolve si_processEvent : hoare.
Lemma si_processLoop rt fuel p a b d0 : preserves (same_index d0) (processLoop rt fuel p a b).
Proof.
  revert a b. induction fuel as [|fuel IH]; intros a b; cbn [processLoop]; [apply pres_panics|].
  unfold processAlarm, processQueued. pres.
Qed.
#[local] Hint Resolve si_processLoop : hoare.
Lemma si_SetSpeed f d0 : preserves (same_index d0) (SetSpeed f).
Proof. pres. Qed.
Lemma si_goBegin dur speed d0 : preserves (same_index d0) (goBegin dur speed).
Proof. unfold goBegin. pres. Qed.
Lemma si_goEnd speed post d0 : preserves (same_index d0) (goEnd speed post).
Proof. unfold goEnd. pres. apply si_modify. intros d. by destruct (_ >? _). Qed.
Lemma si_processNextEvents fuel t d0 : preserves (same_index d0) (processNextEvents fuel t).
Proof. unfold processNextEvents. pres. Qed.
Lemma si_processNextEventsRealtime fuel t d0 : preserves (same_index d0) (processNextEventsRealtime fuel t).
Proof. unfold processNextEventsRealtime. pres. Qed.

(** *** Node reports *)
Lemma si_setNodeRole l r d0 : preserves (same_index d0) (setNodeRole l r).
Proof. unfold setNodeRole. pres. Qed.
Lemma si_convertNodeMilliTime l t d0 : preserves (same_index d0) (convertNodeMilliTime l t).
Proof. unfold convertNodeMilliTime. pres. Qed.
Lemma si_handleCoapEvent l s d0 : preserves (same_index d0) (handleCoapEvent l s).
Proof. unfold handleCoapEvent. pres. Qed.
Lemma idx_onPingRequest ts dst sz n : idx (onPingRequest ts dst sz n) = idx n.
Proof. unfold onPingRequest. by destruct (_ <? _). Qed.
Lemma idx_onPingReply cur ts dst sz h n : idx (onPingReply cur ts dst sz h n) = idx n.
Proof. unfold onPingReply. destruct (_ <? _); [done|]. by destruct (pingReply_loop _ _ _ _ _ _). Qed.
Lemma idx_onJoinerState st n : idx (onJoinerState st n) = idx n.
Proof.
  unfold onJoinerState, startNewJoinerSession, closeJoinerSession. repeat (case_match; try done).
Qed.
#[local] Hint Resolve si_setNodeRole si_convertNodeMilliTime si_handleCoapEvent : hoare.
#[local] Hint Extern 1 (hoare _ (mod_node _ (onPingRequest _ _ _)) _) => apply si_mod_node, idx_onPingRequest : hoare.
#[local] Hint Extern 1 (hoare _ (mod_node _ (onPingReply _ _ _ _ _)) _) => apply si_mod_node; intros; apply idx_onPingReply : hoare.
#[local] Hint Extern 1 (hoare _ (mod_node _ (onJoinerState _)) _) => apply si_mod_node, idx_onJoinerState : hoare.

Lemma si_SetNodePos id x y z d0 : preserves (same_index d0) (SetNodePos id x y z).
Proof. unfold SetNodePos. pres. Qed.
Lemma si_NotifyCommand id d0 : preserves (same_index d0) (NotifyCommand id).
Proof. unfold NotifyCommand. pres. Qed.
Lemma si_SetNodeFailed id b d0 : preserves (same_index d0) (SetNodeFailed id b).
Proof.
  intros d u d' Hd E. unfold SetNodeFailed in E.
  apply bind_st_Ok in E as (ol & ? & [_ <-]%gets_st_Ok & E).
  apply bind_st_Ok in E as (l & ? & [_ <-]%lift_st_Ok & E).
  apply bind_st_Ok in E as (n & ? & [Hn ->]%get_node_Ok & E).
  apply bind_st_Ok in E as ([n' vs] & ? & [Hs <-]%lift_st_Ok & E).
  apply bind_st_Ok in E as (? & d1 & Ep & E).
  apply (si_put_node l n' d0) in Ep; [by eapply si_vis_all|].
  split; [done|]. exists n. split; [done|]. by eapply (out_switch_radio idx idx_outside).
Qed.
Lemma si_SetFailTime l ft d0 : preserves (same_index d0) (SetFailTime l ft).
Proof.
  intros d u d' Hd E. unfold SetFailTime in E.
  apply bind_st_Ok in E as (n & ? & [Hn ->]%get_node_Ok & E). apply bind_st_Ok in E as (? & ? & [<- <-]%get_st_Ok & E).
  apply bind_st_Ok in E as ([n' vs] & ? & [Hs <-]%lift_st_Ok & E).
  apply bind_st_Ok in E as ([] & ? & <-%modify_st_Ok & E). apply bind_st_Ok in E as (? & d1 & Ep & E).
  apply (si_put_node l n' d0) in Ep; [by eapply si_vis_all|].
  split; [transitivity d; [done|by split]|]. exists n. split; [done|]. by eapply (out_SetFailTime idx idx_outside).
Qed.
(** Replacing a node by a function of it that keeps its id and addresses. *)
Lemma si_get_put {A} l (f : Node -> A * Node) d0 :
  (forall n, idx (snd (f n)) = idx n) ->
  preserves (same_index d0) (n ← get_node l; let '(a, n) := f n in _ ← put_node l n; mret a).
Proof.
  intros Hf d a d' Hd E. apply bind_st_Ok in E as (n & ? & [Hn ->]%get_node_Ok & E).
  specialize (Hf n). destruct (f n) as [b n']. apply bind_st_Ok in E as (? & d1 & Ep & E).
  apply ret_st_Ok in E as [_ <-]. apply (si_put_node l n' d0) in Ep; [done|]. split; [done|]. by exists n.
Qed.
Lemma si_CollectPings l d0 : preserves (same_index d0) (CollectPings l).
Proof. apply (si_get_put l DNode.CollectPings). by intros []. Qed.
Lemma si_CollectJoins l d0 : preserves (same_index d0) (CollectJoins l).
Proof. apply (si_get_put l DNode.CollectJoins). by intros []. Qed.
Lemma si_syncAliveNodes d0 : preserves (same_index d0) syncAliveNodes.
Proof. unfold syncAliveNodes. pres. Qed.

(** ** The invariant *)

(** [l] is the location of a node of the simulation. *)
Definition live d (l : nat) (n : Node) : Prop :=
  d_nodes d !! n_Id n = Some l /\ d_store d !! l = Some n.
Definition owns_ext d (a : Z) (l : nat) : Prop :=
  a <> InvalidExtAddr /\ exists n, live d l n /\ n_ExtAddr n = a.
Definition owns_rloc d (r : Z) (l : nat) : Prop :=
  r <> InvalidRloc16 /\ exists n, live d l n /\ n_Rloc16 n = r.

Record maps_ok d : Prop := {
  mo_nodes : forall id l, d_nodes d !! id = Some l -> exists n, d_store d !! l = Some n /\ n_Id n = id;
  mo_next : forall l, is_Some (d_store d !! l) -> (l < d_next d)%nat;
  mo_array : d_nodesArray d = sorted_nodes (d_nodes d);
  mo_ext : forall a l, d_extaddrMap d !! a = Some l <-> owns_ext d a l;
  mo_rloc : rm_wf (d_rloc16Map d);
  mo_rloc_owner : forall r l, l ∈ nodes_at (d_rloc16Map d) r <-> owns_rloc d r l;
  mo_radio : dom (rs_nodes (d_radio d)) = dom (d_store d);
}.

(** Each node has one alarm, and only nodes are alive. *)
Record alarm_ok d : Prop := {
  ao_wf : am_wf (d_alarmMgr d);
  ao_ids : forall id, is_Some (am_alarms (d_alarmMgr d) !! id) <-> is_Some (d_nodes d !! id);
  ao_alive : forall id, id ∈ d_aliveNodes d -> is_Some (d_nodes d !! id);
}.

Record disp_wf d : Prop := { dw_maps : maps_ok d; dw_alarm : alarm_ok d }.

(** The first part only depends on the indexes. *)
Lemma idx_eq a b : idx a = idx b -> n_Id a = n_Id b /\ n_ExtAddr a = n_ExtAddr b /\ n_Rloc16 a = n_Rloc16 b.
Proof. unfold idx. by intros [= -> -> ->]. Qed.

Lemma store_idx d d' l n :
  idx <$> d_store d' = idx <$> d_store d -> d_store d' !! l = Some n ->
  exists n', d_store d !! l = Some n' /\ idx n' = idx n.
Proof.
  intros H Hl. apply (f_equal (.!! l)) in H. rewrite !lookup_fmap, Hl in H. simpl in H.
  destruct (d_store d !! l) as [n'|]; [|done]. apply (inj Some) in H. by exists n'.
Qed.

Lemma live_same d d' l n :
  same_index d d' -> live d' l n -> exists n', live d l n' /\ idx n' = idx n.
Proof.
  intros [Hn _ _ _ _ Hs _] [H1 H2]. destruct (store_idx d d' l n Hs H2) as (n' & Hn' & Hi).
  exists n'. split; [|done]. split; [|done]. rewrite <- Hn. apply idx_eq in Hi as (-> & _). done.
Qed.

Lemma owns_same d d' : same_index d d' ->
  (forall a l, owns_ext d' a l <-> owns_ext d a l) /\ (forall r l, owns_rloc d' r l <-> owns_rloc d r l).
Proof.
  intros H. assert (same_index d' d) as H' by (by symmetry).
  split; intros x l; (split; intros (Hx & n & Hl & <-); split; [done| |done|]).
  - destruct (live_same _ _ _ _ H Hl) as (n' & ? & Hi). exists n'. split; [done|]. by apply idx_eq in Hi as (? & ? & ?).
  - destruct (live_same _ _ _ _ H' Hl) as (n' & ? & Hi). exists n'. split; [done|]. by apply idx_eq in Hi as (? & ? & ?).
  - destruct (live_same _ _ _ _ H Hl) as (n' & ? & Hi). exists n'. split; [done|]. by apply idx_eq in Hi as (? & ? & ?).
  - destruct (live_same _ _ _ _ H' Hl) as (n' & ? & Hi). exists n'. split; [done|]. by apply idx_eq in Hi as (? & ? & ?).
Qed.

Lemma dom_same d d' : same_index d d' -> dom (d_store d') = dom (d_store d).
Proof. intros [_ _ _ _ _ Hs _]. rewrite <- (dom_fmap_L idx (d_store d')), Hs. apply dom_fmap_L. Qed.

#[export] Instance maps_ok_proper : Proper (same_index ==> iff) maps_ok.
Proof.
  assert (forall d d', same_index d d' -> maps_ok d -> maps_ok d') as Himp.
  { intros d d' H [M1 M2 M3 M4 M5 M6 M7]. pose proof (owns_same d d' H) as [O1 O2].
    pose proof (dom_same d d' H) as HD. pose proof H as [Hn Ha Hx He Hr Hs Hd]. split.
    - rewrite Hn. intros id l Hl. destruct (M1 id l Hl) as (n & Hs' & <-).
      destruct (store_idx d' d l n) as (n' & Hn' & Hi); [done|done|]. exists n'. split; [done|]. by apply idx_eq in Hi as (? & ? & ?).
    - intros l Hl. rewrite Hx. apply M2. by rewrite <- elem_of_dom, <- HD, elem_of_dom.
    - by rewrite Ha, Hn.
    - intros a l. by rewrite He, O1.
    - by rewrite Hr.
    - intros r l. by rewrite Hr, O2.
    - by rewrite Hd, HD. }
  intros d d' H. split; apply Himp; [done|by symmetry].
Qed.

Lemma maps_quiet {A} (m : st (Dispatcher M) A) : quiet_op m -> preserves maps_ok m.
Proof. intros H d a d' Hd E. apply (same_from m) in E; [|done]. by rewrite <- E. Qed.

(** ** Alarms and alive nodes *)
Lemma ao_modify f :
  (forall d, d_alarmMgr (f d) = d_alarmMgr d /\ d_nodes (f d) = d_nodes d /\ d_aliveNodes (f d) ⊆ d_aliveNodes d) ->
  preserves alarm_ok (modify f).
Proof.
  intros H. apply hoare_modify. intros d [A1 A2 A3]. destruct (H d) as (E1 & E2 & E3). split.
  - by rewrite E1.
  - by rewrite E1, E2.
  - rewrite E2. set_solver.
Qed.
Ltac ao_field := apply ao_modify; intros ?; repeat split; simpl; set_solver.
#[local] Hint Extern 3 (hoare alarm_ok (modify _) _) => ao_field : hoare.
Lemma ao_output o : preserves alarm_ok (output o).
Proof. ao_field. Qed.
Lemma ao_count c : preserves alarm_ok (count c).
Proof. ao_field. Qed.
Lemma ao_assert b : preserves alarm_ok (assert b).
Proof. apply pres_lift. Qed.
Lemma ao_lookup_node id : preserves alarm_ok (lookup_node id).
Proof. apply pres_gets. Qed.
Lemma ao_get_node l : preserves alarm_ok (get_node l).
Proof. unfold get_node. pres. Qed.
Lemma ao_put_node l n : preserves alarm_ok (put_node l n).
Proof. ao_field. Qed.
#[local] Hint Resolve ao_output ao_count ao_assert ao_lookup_node ao_get_node ao_put_node : hoare.
Lemma ao_mod_node l f : preserves alarm_ok (mod_node l f).
Proof. unfold mod_node. pres. Qed.
Lemma ao_vis v : preserves alarm_ok (vis v).
Proof. apply ao_output. Qed.
Lemma ao_callback v : preserves alarm_ok (callback v).
Proof. apply ao_output. Qed.
#[local] Hint Resolve ao_mod_node ao_vis ao_callback : hoare.
Lemma ao_vis_all vs : preserves alarm_ok (vis_all vs).
Proof. unfold vis_all. pres. Qed.
Lemma ao_queue_add e : preserves alarm_ok (queue_add e).
Proof. apply hoare_update. intros d d' [] E. res_inv. subst. by split. Qed.
#[local] Hint Resolve ao_vis_all ao_queue_add : hoare.

Lemma run_op_Ok (o : am_op) am am' :
  am_wf am -> AlarmMgr.run_op o am = Ok am' -> am_wf am' /\ spec_op o (am_alarms am) = Ok (am_alarms am').
Proof.
  intros W E. pose proof (AlarmMgr.run_op_spec o am W) as H. destruct (spec_op o _) as [m|]; [|congruence].
  destruct H as (am1 & E1 & W1 & <-). rewrite E in E1. by injection E1 as <-.
Qed.
Lemma ao_SetTimestamp id ts : preserves alarm_ok (mod_alarm (SetTimestamp id ts)).
Proof.
  apply hoare_update. intros d d' [A1 A2 A3] E. res_inv. subst.
  match goal with H : SetTimestamp _ _ _ = _ |- _ => apply (run_op_Ok (OpSet id ts)) in H as (W & HA); [|done] end.
  simpl in HA. destruct (am_alarms _ !! id) as [t|] eqn:Ht; [|done]. injection HA as HA.
  split; simpl; [done| |done]. intros id'. rewrite <- HA, <- A2, lookup_insert_is_Some'. naive_solver.
Qed.
Lemma ao_SetNotified id : preserves alarm_ok (mod_alarm (SetNotified id)).
Proof. apply ao_SetTimestamp. Qed.
#[local] Hint Resolve ao_SetTimestamp ao_SetNotified : hoare.

Lemma ao_setAlive id : preserves alarm_ok (setAlive id).
Proof.
  intros d u d' Hd E. unfold setAlive in E.
  apply bind_st_Ok in E as (ol & ? & [Hl <-]%gets_st_Ok & E).
  apply bind_st_Ok in E as (l & ? & [Hn <-]%lift_st_Ok & E). apply assert_not_nil_Ok in Hn. subst ol.
  apply bind_st_Ok in E as (n & ? & [_ ->]%get_node_Ok & E).
  destruct (n_hasDisconnected n); [by apply ret_st_Ok in E as [_ <-]|].
  apply modify_st_Ok in E. subst. destruct Hd as [A1 A2 A3]. split; [done..|]. simpl.
  intros id' [->%elem_of_singleton|H]%elem_of_union; [by rewrite Hn|by apply A3].
Qed.
Lemma ao_setSleeping id : preserves alarm_ok (setSleeping id).
Proof. ao_field. Qed.
#[local] Hint Resolve ao_setAlive ao_setSleeping : hoare.

Lemma ao_radio {A} (m : st (radio_st M) A) : preserves alarm_ok (radio m).
Proof.
  intros d a d' Hd E. unfold radio in E. destruct (m _) as [[b r]|]; [|done].
  assert (preserves alarm_ok (_ ← for_each (rs_out r) queue_add; mret b : st (Dispatcher M) A)) as HP by pres.
  eapply HP; [|exact E]. destruct Hd. by split.
Qed.
#[local] Hint Resolve ao_radio : hoare.
Lemma ao_reEvaluate l old : preserves alarm_ok (reEvaluate l old).
Proof. unfold reEvaluate. pres. Qed.
#[local] Hint Resolve ao_reEvaluate : hoare.
Lemma ao_sendEvent l evt : preserves alarm_ok (sendEvent l evt).
Proof. unfold sendEvent, sendRawData. pres. Qed.
#[local] Hint Resolve ao_sendEvent : hoare.
Lemma ao_advanceNodeTime l ts f : preserves alarm_ok (advanceNodeTime l ts f).
Proof. unfold advanceNodeTime. pres. Qed.
Lemma ao_visSend a b i : preserves alarm_ok (visSend a b i).
Proof. unfold visSend. pres. Qed.
#[local] Hint Resolve ao_advanceNodeTime ao_visSend : hoare.
Lemma ao_sendOneRadioFrame evt a b : preserves alarm_ok (sendOneRadioFrame evt a b).
Proof. unfold sendOneRadioFrame, packetLost, drawUnit. pres. Qed.
#[local] Hint Resolve ao_sendOneRadioFrame : hoare.
Lemma ao_dispatch_to evt src dsts : preserves alarm_ok (dispatch_to evt src dsts).
Proof. induction dsts as [|x dsts IH]; cbn [dispatch_to]; unfold checkRadioReachable; pres. Qed.
#[local] Hint Resolve ao_dispatch_to : hoare.
Lemma ao_updateNodeStats : preserves alarm_ok updateNodeStats.
Proof. unfold updateNodeStats. pres. Qed.
Lemma ao_emptyWindows fuel : preserves alarm_ok (emptyWindows fuel).
Proof. induction fuel; cbn [emptyWindows]; unfold visSendTimeWindowStats; pres. Qed.
#[local] Hint Resolve ao_updateNodeStats ao_emptyWindows : hoare.
Lemma ao_advanceTime ts : preserves alarm_ok (advanceTime ts).
Proof. unfold advanceTime, storeEnergy, updateTimeWindowStats, visSendTimeWindowStats. pres. Qed.
#[local] Hint Resolve ao_advanceTime : hoare.
Lemma ao_processEvent evt : preserves alarm_ok (processEvent evt).
Proof.
  unfold processEvent, visSendInterference, handleRadioState, sendRadioCommRxStartEvents,
    sendRadioCommRxDoneEvents, visSendFrame. pres.
Qed.
#[local] Hint Resolve ao_processEvent : hoare.
Lemma ao_processLoop rt fuel p a b : preserves alarm_ok (processLoop rt fuel p a b).
Proof.
  revert a b. induction fuel as [|fuel IH]; intros a b; cbn [processLoop]; [apply pres_panics|].
  unfold processAlarm, processQueued. pres.
Qed.
#[local] Hint Resolve ao_processLoop : hoare.

(** ** Address changes *)

(** Only the node at [l] differs between the stores of [d] and [d'], where it is now
    [n'] instead of [n]. *)
Record readdressed d d' (l : nat) (n n' : Node) : Prop := {
  ra_live : live d l n;
  ra_id : n_Id n' = n_Id n;
  ra_nodes : d_nodes d' = d_nodes d;
  ra_array : d_nodesArray d' = d_nodesArray d;
  ra_next : d_next d' = d_next d;
  ra_store : d_store d' = <[l:=n']> (d_store d);
  ra_radio : dom (rs_nodes (d_radio d')) = dom (rs_nodes (d_radio d));
}.

Lemma live_readdressed d d' l n n' :
  readdressed d d' l n n' -> forall x y, live d' x y <-> if decide (x = l) then y = n' else live d x y.
Proof.
  intros [[L1 L2] Hid Hn _ _ Hs _] x y. unfold live. rewrite Hn, Hs. case_decide as Hx.
  - subst x. rewrite lookup_insert_eq. split; [by intros [_ [= ->]]|]. intros ->. by rewrite Hid.
  - by rewrite lookup_insert_ne.
Qed.

Lemma owns_ext_readdressed d d' l n n' a x :
  readdressed d d' l n n' ->
  owns_ext d' a x <-> (x <> l /\ owns_ext d a x) \/ (x = l /\ a = n_ExtAddr n' /\ a <> InvalidExtAddr).
Proof.
  intros R. unfold owns_ext. setoid_rewrite (live_readdressed d d' l n n' R). case_decide; naive_solver.
Qed.
Lemma owns_rloc_readdressed d d' l n n' r x :
  readdressed d d' l n n' ->
  owns_rloc d' r x <-> (x <> l /\ owns_rloc d r x) \/ (x = l /\ r = n_Rloc16 n' /\ r <> InvalidRloc16).
Proof.
  intros R. unfold owns_rloc. setoid_rewrite (live_readdressed d d' l n n' R). case_decide; naive_solver.
Qed.

Lemma lookup_live d id l n :
  maps_ok d -> d_nodes d !! id = Some l -> d_store d !! l = Some n -> live d l n /\ n_Id n = id.
Proof.
  intros MO Hl Hn. destruct (mo_nodes d MO id l Hl) as (n' & Hn' & Hid). rewrite Hn in Hn'.
  injection Hn' as <-. subst id. done.
Qed.

(** The invariant after a node changed its addresses. *)
Lemma maps_readdressed d d' l n n' :
  maps_ok d -> readdressed d d' l n n' ->
  (forall a x, d_extaddrMap d' !! a = Some x <->
     (x <> l /\ owns_ext d a x) \/ (x = l /\ a = n_ExtAddr n' /\ a <> InvalidExtAddr)) ->
  rm_wf (d_rloc16Map d') ->
  (forall r x, x ∈ nodes_at (d_rloc16Map d') r <->
     (x <> l /\ owns_rloc d r x) \/ (x = l /\ r = n_Rloc16 n' /\ r <> InvalidRloc16)) ->
  maps_ok d'.
Proof.
  intros MO R H1 H2 H3. pose proof R as [[L1 L2] Hid Hn Ha Hx Hs Hr]. split; try done.
  - intros id x. rewrite Hn, Hs. intros Hl. destruct (mo_nodes d MO id x Hl) as (y & Hy & Hyid).
    destruct (decide (l = x)) as [<-|].
    + rewrite lookup_insert_eq. exists n'. rewrite L2 in Hy. injection Hy as <-. split; [done|congruence].
    + rewrite lookup_insert_ne by done. by exists y.
  - intros x. rewrite Hs, Hx. intros [y Hy]. apply (mo_next d MO).
    destruct (decide (l = x)) as [<-|]; [by rewrite L2|]. rewrite lookup_insert_ne in Hy by done. by rewrite Hy.
  - rewrite Ha, Hn. apply MO.
  - intros a x. by rewrite H1, (owns_ext_readdressed d d' l n n' a x R).
  - intros r x. by rewrite H3, (owns_rloc_readdressed d d' l n n' r x R).
  - rewrite Hr, Hs. rewrite dom_insert_lookup_L by (by rewrite L2). apply MO.
Qed.

(** The address of a node that is not at [l] anymore, or that [l] never had. *)
Lemma owns_ext_live d a l n : live d l n -> owns_ext d a l <-> a = n_ExtAddr n /\ a <> InvalidExtAddr.
Proof.
  intros [L1 L2]. split; [|intros [-> H]; by split; [|exists n]].
  intros (H & y & [_ Hy] & <-). rewrite L2 in Hy. by injection Hy as <-.
Qed.
Lemma owns_rloc_live d r l n : live d l n -> owns_rloc d r l <-> r = n_Rloc16 n /\ r <> InvalidRloc16.
Proof.
  intros [L1 L2]. split; [|intros [-> H]; by split; [|exists n]].
  intros (H & y & [_ Hy] & <-). rewrite L2 in Hy. by injection Hy as <-.
Qed.
Lemma owns_ext_functional d a l l' : maps_ok d -> owns_ext d a l -> owns_ext d a l' -> l = l'.
Proof. intros MO H1%(mo_ext d MO) H2%(mo_ext d MO). congruence. Qed.

Lemma mod_rloc16Map_Ok f d u d' :
  mod_rloc16Map f d = Ok (u, d') <-> exists m, f (d_rloc16Map d) = Ok m /\ d' = set_d_rloc16Map m d.
Proof.
  unfold mod_rloc16Map. rewrite update_st_Ok, bind_Ok. split; intros (m & H1 & H2); exists m; by simplify_eq.
Qed.

Lemma when_Ok b (m : st (Dispatcher M) ()) d u d' :
  when b m d = Ok (u, d') <-> if b then m d = Ok (u, d') else d' = d.
Proof. destruct b; simpl; [done|]. destruct u. rewrite ret_st_Ok. naive_solver. Qed.
Lemma set_rloc16Map_id d : set_d_rloc16Map (d_rloc16Map d) d = d.
Proof. by destruct d. Qed.

(** Taking a node out of the short address index, and putting it in. *)
Lemma rloc_remove d d0 d' l n u :
  maps_ok d0 -> live d0 l n -> d_rloc16Map d = d_rloc16Map d0 ->
  when (negb (n_Rloc16 n =? InvalidRloc16)) (mod_rloc16Map (Rloc16Map.Remove (n_Rloc16 n) l)) d = Ok (u, d') ->
  exists m, d' = set_d_rloc16Map m d /\ rm_wf m /\ forall r x, x ∈ nodes_at m r <-> x <> l /\ owns_rloc d0 r x.
Proof.
  intros MO L Hm E%when_Ok. destruct (Z.eqb_spec (n_Rloc16 n) InvalidRloc16) as [Hinv|Hval]; simpl in E.
  - exists (d_rloc16Map d). rewrite set_rloc16Map_id, Hm. split; [done|]. split; [apply MO|]. intros r x.
    rewrite (mo_rloc_owner d0 MO). split; [|tauto]. intros H. split; [|done]. intros ->.
    apply (owns_rloc_live d0 r l n L) in H as [-> ?]. done.
  - apply mod_rloc16Map_Ok in E as (m & Em & ->). rewrite Hm in Em.
    apply Remove_Ok in Em as (W & _ & S); [|apply MO].
    exists m. split; [done|]. split; [done|]. intros r x. rewrite S, (mo_rloc_owner d0 MO).
    split; [intros [H1 H2]|naive_solver]. split; [|done]. intros ->.
    apply (owns_rloc_live d0 r l n L) in H1 as [-> ?]. tauto.
Qed.
Lemma rloc_add d d' l r u :
  rm_wf (d_rloc16Map d) ->
  when (negb (r =? InvalidRloc16)) (mod_rloc16Map (Rloc16Map.Add r l)) d = Ok (u, d') ->
  exists m, d' = set_d_rloc16Map m d /\ rm_wf m /\
    forall r' x, x ∈ nodes_at m r' <-> x ∈ nodes_at (d_rloc16Map d) r' \/ (x = l /\ r' = r /\ r' <> InvalidRloc16).
Proof.
  intros W E%when_Ok. destruct (Z.eqb_spec r InvalidRloc16) as [Hinv|Hval]; simpl in E.
  - exists (d_rloc16Map d). rewrite set_rloc16Map_id. split; [done|]. split; [done|]. naive_solver.
  - apply mod_rloc16Map_Ok in E as (m & Em & ->). apply Add_Ok in Em as (W' & _ & S); [|done].
    exists m. split; [done|]. split; [done|]. intros r' x. rewrite S. naive_solver.
Qed.

Lemma maps_setNodeRloc16 id r : preserves maps_ok (setNodeRloc16 id r).
Proof.
  intros d u d' MO E. unfold setNodeRloc16 in E.
  apply bind_st_Ok in E as (ol & ? & [Hl <-]%gets_st_Ok & E).
  apply bind_st_Ok in E as (l & ? & [Hol <-]%lift_st_Ok & E). apply assert_not_nil_Ok in Hol. subst ol.
  apply bind_st_Ok in E as (n & ? & [Hn ->]%get_node_Ok & E).
  destruct (lookup_live d id l n MO Hol Hn) as [L Hid].
  apply bind_st_Ok in E as ([] & d1 & (m1 & -> & W1 & S1)%(rloc_remove _ d _ l n) & E); [|done..].
  apply bind_st_Ok in E as ([] & d2 & (n1 & Hn1 & ->)%mod_node_Ok & E).
  simpl in Hn1. rewrite Hn in Hn1. injection Hn1 as <-.
  apply bind_st_Ok in E as ([] & d3 & (m3 & -> & W3 & S3)%rloc_add & E); [|done].
  apply modify_st_Ok in E. subst d'.
  eapply (maps_readdressed d _ l n (set_Rloc16 r n)); try done.
  - intros a x. simpl. rewrite (mo_ext d MO). destruct (decide (x = l)) as [->|]; [|tauto].
    rewrite (owns_ext_live d a l n L). naive_solver.
  - intros r' x. simpl. rewrite S3. simpl. by rewrite S1.
Qed.

(** Taking a node out of the extended address index. *)
Lemma ext_remove d l n a x :
  maps_ok d -> live d l n -> n_ExtAddr n <> InvalidExtAddr ->
  delete (n_ExtAddr n) (d_extaddrMap d) !! a = Some x <-> x <> l /\ owns_ext d a x.
Proof.
  intros MO L Hinv. rewrite lookup_delete_Some, (mo_ext d MO). split; intros [H1 H2]; (split; [|done]).
  - intros ->. apply (owns_ext_live d a l n L) in H2 as [-> ?]. done.
  - intros <-. apply H1. eapply (owns_ext_functional d); [done..|]. by apply (owns_ext_live d _ l n L).
Qed.

Lemma ext_drop d d0 l n d' u :
  maps_ok d0 -> live d0 l n -> d_extaddrMap d = d_extaddrMap d0 ->
  (if n_ExtAddr n =? InvalidExtAddr then assert (bool_decide (d_extaddrMap d !! n_ExtAddr n = None))
   else _ ← assert (bool_decide (d_extaddrMap d !! n_ExtAddr n = Some l));
        modify (fun d => set_d_extaddrMap (delete (n_ExtAddr n) (d_extaddrMap d)) d)) d = Ok (u, d') ->
  exists m, d' = set_d_extaddrMap m d /\ forall a x, m !! a = Some x <-> x <> l /\ owns_ext d0 a x.
Proof.
  intros MO L Hm. destruct (Z.eqb_spec (n_ExtAddr n) InvalidExtAddr) as [Hinv|Hval]; intros E.
  - apply lift_st_Ok in E as [_ <-]. exists (d_extaddrMap d). split; [by destruct d|]. intros a x.
    rewrite Hm, (mo_ext d0 MO). split; [|tauto]. intros H. split; [|done]. intros ->.
    apply (owns_ext_live d0 a l n L) in H as [-> ?]. done.
  - apply bind_st_Ok in E as ([] & ? & [_ <-]%lift_st_Ok & E). apply modify_st_Ok in E. subst d'.
    eexists. split; [done|]. intros a x. rewrite Hm. by apply ext_remove.
Qed.

Lemma maps_onStatusPushExtAddr l a : hoare (fun d => maps_ok d /\ exists id, d_nodes d !! id = Some l)
  (onStatusPushExtAddr l a) (fun _ => maps_ok).
Proof.
  intros d u d' [MO [id Hid]] E. unfold onStatusPushExtAddr in E.
  apply bind_st_Ok in E as ([] & ? & [Hv%assert_true_Ok%negb_true_iff%Z.eqb_neq <-]%lift_st_Ok & E).
  apply bind_st_Ok in E as (n & ? & [Hn ->]%get_node_Ok & E).
  destruct (lookup_live d id l n MO Hid Hn) as [L _].
  destruct (n_ExtAddr n =? a); [by apply ret_st_Ok in E as [_ <-]|].
  apply bind_st_Ok in E as ([] & d1 & (n1 & Hn1 & ->)%mod_node_Ok & E). rewrite Hn in Hn1. injection Hn1 as <-.
  unfold onExtAddrChanged in E. apply bind_st_Ok in E as (? & ? & [<- <-]%get_st_Ok & E).
  apply bind_st_Ok in E as ([] & d1 & (m & -> & Hm)%(ext_drop _ d l n) & E); [|done..].
  apply bind_st_Ok in E as (n2 & ? & [Hn2 ->]%get_node_Ok & E). simpl in Hn2. rewrite lookup_insert_eq in Hn2.
  injection Hn2 as <-. apply bind_st_Ok in E as (? & ? & [<- <-]%get_st_Ok & E).
  apply bind_st_Ok in E as ([] & d2 & [Hf%assert_true_Ok%bool_decide_eq_true <-]%lift_st_Ok & E). simpl in Hf.
  apply bind_st_Ok in E as ([] & d3 & <-%modify_st_Ok & E). apply modify_st_Ok in E. subst d'.
  eapply (maps_readdressed d _ l n (set_ExtAddr a n)); try done; [| apply MO |].
  - intros b y. simpl. rewrite lookup_insert_Some, Hm. split; [|naive_solver].
    intros [[<- <-]|[? ?]]; [by right|by left].
  - intros r y. simpl. rewrite (mo_rloc_owner d MO). destruct (decide (y = l)) as [->|]; [|tauto].
    rewrite (owns_rloc_live d r l n L). naive_solver.
Qed.

(** ** Node reports

    The handlers work on a node that was found by its id. *)
Definition mapped (l : nat) d : Prop := exists id, d_nodes d !! id = Some l.
Definition maps_at (l : nat) d : Prop := maps_ok d /\ mapped l d.

Lemma maps_at_quiet {A} l (m : st (Dispatcher M) A) : quiet_op m -> preserves (maps_at l) m.
Proof.
  intros H d a d' [Hd [id Hid]] E. split; [by eapply maps_quiet|]. apply (same_from m) in E; [|done].
  exists id. by rewrite (si_nodes d d' E).
Qed.

Definition keeps_ids {A} (m : st (Dispatcher M) A) : Prop := forall d a d', m d = Ok (a, d') -> d_nodes d' = d_nodes d.
Lemma ki_ids {A} (m : st (Dispatcher M) A) :
  (forall v, preserves (fun d => d_nodes d = v) m) -> keeps_ids m.
Proof. intros H d a d' E. by eapply (H (d_nodes d)). Qed.
Ltac ki_field := apply hoare_modify; intros ?; done.
Lemma ki_setNodeRloc16 id r : keeps_ids (setNodeRloc16 id r).
Proof.
  apply ki_ids. intros v. unfold setNodeRloc16, get_node, mod_node, put_node, get_node, mod_rloc16Map. pres.
  all: try ki_field. all: apply hoare_update; intros d d' ? E; res_inv; by subst.
Qed.
Lemma ki_onStatusPushExtAddr l a : keeps_ids (onStatusPushExtAddr l a).
Proof.
  apply ki_ids. intros v. unfold onStatusPushExtAddr, onExtAddrChanged, mod_node, put_node, get_node, assert. pres.
  all: ki_field.
Qed.

Lemma at_setNodeRloc16 l id r : preserves (maps_at l) (setNodeRloc16 id r).
Proof.
  intros d a d' [MO [x Hx]] E. split; [by eapply maps_setNodeRloc16|]. exists x. by rewrite (ki_setNodeRloc16 _ _ _ _ _ E).
Qed.
Lemma at_onStatusPushExtAddr l a : preserves (maps_at l) (onStatusPushExtAddr l a).
Proof.
  intros d u d' [MO [x Hx]] E. split; [by eapply maps_onStatusPushExtAddr; [split; [|exists x]|]|].
  exists x. by rewrite (ki_onStatusPushExtAddr _ _ _ _ _ E).
Qed.
#[local] Hint Resolve at_setNodeRloc16 at_onStatusPushExtAddr : hoare.
#[local] Hint Extern 5 (hoare (maps_at _) _ _) => apply maps_at_quiet; intros ?; solve [pres] : hoare.

Lemma at_handleStatus l k v : preserves (maps_at l) (handleStatus l k v).
Proof. unfold handleStatus, topology. repeat pres_step; eauto with hoare. Qed.
#[local] Hint Resolve at_handleStatus : hoare.
Lemma at_handleStatusPush l data : preserves (maps_at l) (handleStatusPush l data).
Proof. unfold handleStatusPush. repeat pres_step; eauto with hoare. Qed.
#[local] Hint Resolve at_handleStatusPush : hoare.
Lemma at_handleNodeEvent l evt : preserves (maps_at l) (handleNodeEvent l evt).
Proof. unfold handleNodeEvent. repeat pres_step; eauto with hoare. Qed.

Lemma ao_convertNodeMilliTime l t : preserves alarm_ok (convertNodeMilliTime l t).
Proof. unfold convertNodeMilliTime. pres. Qed.
Lemma ao_handleCoapEvent l s : preserves alarm_ok (handleCoapEvent l s).
Proof. unfold handleCoapEvent. pres. Qed.
Lemma ao_mod_rloc16Map f : preserves alarm_ok (mod_rloc16Map f).
Proof. apply hoare_update. intros d d' [] E. res_inv. subst. by split. Qed.
#[local] Hint Resolve ao_convertNodeMilliTime ao_handleCoapEvent ao_mod_rloc16Map : hoare.
Lemma ao_handleStatus l k v : preserves alarm_ok (handleStatus l k v).
Proof.
  unfold handleStatus, topology, setNodeRole, setNodeRloc16, onStatusPushExtAddr, onExtAddrChanged. pres.
Qed.
#[local] Hint Resolve ao_handleStatus : hoare.
Lemma ao_handleStatusPush l data : preserves alarm_ok (handleStatusPush l data).
Proof. unfold handleStatusPush. pres. Qed.
#[local] Hint Resolve ao_handleStatusPush : hoare.
Lemma ao_handleNodeEvent l evt : preserves alarm_ok (handleNodeEvent l evt).
Proof. unfold handleNodeEvent, onStatusPushExtAddr, onExtAddrChanged. pres. Qed.
Lemma ao_SetNodeFailed id b : preserves alarm_ok (SetNodeFailed id b).
Proof. unfold SetNodeFailed. pres. Qed.
Lemma ao_SetFailTime l ft : preserves alarm_ok (SetFailTime l ft).
Proof. unfold SetFailTime. pres. Qed.
Lemma ao_CollectPings l : preserves alarm_ok (CollectPings l).
Proof. unfold CollectPings. pres. Qed.
Lemma ao_CollectJoins l : preserves alarm_ok (CollectJoins l).
Proof. unfold CollectJoins. pres. Qed.
Lemma ao_NotifyCommand id : preserves alarm_ok (NotifyCommand id).
Proof. unfold NotifyCommand. pres. Qed.
Lemma ao_SetNodePos id x y z : preserves alarm_ok (SetNodePos id x y z).
Proof. unfold SetNodePos. pres. Qed.
Lemma ao_syncAliveNodes : preserves alarm_ok syncAliveNodes.
Proof. unfold syncAliveNodes. pres. Qed.
Lemma ao_processNextEvents fuel t : preserves alarm_ok (processNextEvents fuel t).
Proof. unfold processNextEvents. pres. Qed.
Lemma ao_processNextEventsRealtime fuel t : preserves alarm_ok (processNextEventsRealtime fuel t).
Proof. unfold processNextEventsRealtime. pres. Qed.

(** ** Adding and deleting nodes *)
Lemma si_mod_energy f d0 : preserves (same_index d0) (mod_energy f).
Proof. apply hoare_update. intros x y Hx Ey. res_inv. subst. transitivity x; [done|]. by split. Qed.
Lemma ao_mod_energy f : preserves alarm_ok (mod_energy f).
Proof. apply hoare_update. intros x y [] Ey. res_inv. subst. by split. Qed.
#[local] Hint Resolve si_mod_energy ao_mod_energy : hoare.

Lemma maps_added d d' id n :
  maps_ok d -> d_nodes d !! id = None -> n_Id n = id -> n_ExtAddr n = InvalidExtAddr -> n_Rloc16 n = InvalidRloc16 ->
  d_nodes d' = <[id:=d_next d]> (d_nodes d) -> d_nodesArray d' = sorted_nodes (d_nodes d') ->
  d_next d' = S (d_next d) -> d_store d' = <[d_next d:=n]> (d_store d) ->
  dom (rs_nodes (d_radio d')) = {[d_next d]} ∪ dom (rs_nodes (d_radio d)) ->
  d_extaddrMap d' = d_extaddrMap d -> d_rloc16Map d' = d_rloc16Map d -> maps_ok d'.
Proof.
  intros MO Hid Hn He Hr En Ea Ex Es Er Ee El.
  assert (d_store d !! d_next d = None) as Hf.
  { apply eq_None_not_Some. intros H%(mo_next d MO). lia. }
  assert (forall x y, live d' x y <-> (x = d_next d /\ y = n) \/ live d x y) as HL.
  { intros x y. unfold live. rewrite En, Es. destruct (decide (x = d_next d)) as [->|Hx].
    - rewrite lookup_insert_eq. rewrite Hf. split; [by intros [_ [= ->]]; left|].
      intros [[_ ->]|[_ ?]]; [|done]. by rewrite Hn, lookup_insert_eq.
    - rewrite (lookup_insert_ne (d_store d)) by done. split.
      + intros [H1 H2]. right. destruct (decide (id = n_Id y)) as [Hy|].
        * rewrite <- Hy, lookup_insert_eq in H1. congruence.
        * by rewrite lookup_insert_ne in H1.
      + intros [[? _]|[H1 H2]]; [done|]. split; [|done]. rewrite lookup_insert_ne; [done|]. congruence. }
  split.
  - intros i x. rewrite En, Es. intros [[<- <-]|[Hi Hx]]%lookup_insert_Some; [exists n; by rewrite lookup_insert_eq|].
    destruct (mo_nodes d MO i x Hx) as (y & Hy & Hyi). exists y. split; [|done].
    rewrite lookup_insert_ne; [done|]. congruence.
  - intros x. rewrite Es, Ex. intros [y [[<- _]|[_ Hy]]%lookup_insert_Some]; [lia|].
    assert (x < d_next d)%nat; [|lia]. apply (mo_next d MO). by eexists.
  - done.
  - intros a x. rewrite Ee, (mo_ext d MO). unfold owns_ext. setoid_rewrite HL. naive_solver.
  - rewrite El. apply MO.
  - intros r x. rewrite El, (mo_rloc_owner d MO). unfold owns_rloc. setoid_rewrite HL. naive_solver.
  - rewrite Er, Es, dom_insert_L, (mo_radio d MO). done.
Qed.

Lemma alloc_node_Ok id cfg d l d' :
  alloc_node id cfg d = Ok (l, d') -> exists n, DNode.newNode (d_CurTime d) id cfg = Ok n /\ l = d_next d /\
    d' = set_d_radio (mkRadioSt (<[d_next d:=NewRadioNode id (nc_X cfg) (nc_Y cfg) (nc_Z cfg) (nc_RadioRange cfg)]>
            (rs_nodes (d_radio d))) (rs_model (d_radio d)) (rs_draws (d_radio d)) (rs_out (d_radio d)))
         (set_d_next (S (d_next d)) (set_d_store (<[d_next d:=n]> (d_store d)) d)).
Proof.
  unfold alloc_node. intros E. apply bind_st_Ok in E as (? & ? & [<- <-]%get_st_Ok & E).
  apply bind_st_Ok in E as (n & ? & [Hn <-]%lift_st_Ok & E).
  apply bind_st_Ok in E as (? & ? & <-%modify_st_Ok & E). apply bind_st_Ok in E as (? & ? & <-%modify_st_Ok & E).
  apply ret_st_Ok in E as [<- <-]. by exists n.
Qed.

Lemma newNode_Ok cur id cfg n :
  DNode.newNode cur id cfg = Ok n ->
  n_Id n = id /\ n_ExtAddr n = InvalidExtAddr /\ n_Rloc16 n = InvalidRloc16 /\ n_CurTime n = cur /\
  n_isFailed n = false /\ n_failureCtrl n = newFailureCtrl NonFailTime /\ n_conn n = None.
Proof. unfold DNode.newNode. intros E. res_inv. by subst. Qed.

#[local] Hint Extern 6 (hoare maps_ok _ _) => apply maps_quiet; intros ?; solve [pres] : hoare.

Lemma maps_AddNode id cfg :
  hoare maps_ok (AddNode id cfg) (fun _ d => maps_ok d /\ is_Some (d_nodes d !! id)).
Proof.
  intros d u d' MO E. unfold AddNode in E.
  apply bind_st_Ok in E as (ol & ? & [Hl <-]%gets_st_Ok & E).
  apply bind_st_Ok in E as ([] & ? & [Hf%assert_true_Ok%bool_decide_eq_true <-]%lift_st_Ok & E). subst ol.
  apply bind_st_Ok in E as (l & d1 & (n & Hn & -> & ->)%alloc_node_Ok & E).
  apply newNode_Ok in Hn as (N1 & N2 & N3 & _).
  apply bind_st_Ok in E as ([] & d2 & <-%modify_st_Ok & E).
  apply bind_st_Ok in E as ([] & d3 & <-%modify_st_Ok & E).
  apply bind_st_Ok in E as ([] & d4 & E4%modify_st_Ok & E).
  assert (maps_ok d4) as MO4.
  { subst d4. eapply (maps_added d _ id n); try done. simpl. apply dom_insert_L. }
  assert (d_nodes d4 !! id = Some (d_next d)) as H4 by (subst d4; simpl; by rewrite lookup_insert_eq).
  clear E4 N1 N2 N3 Hf MO n. eapply same_from in E; [|intros d0; unfold topology, WatchNode; pres].
  split; [by rewrite <- E|]. by rewrite (si_nodes _ _ E), H4.
Qed.

Lemma maps_deleted d d' l n :
  maps_ok d -> live d l n -> d_nodes d' = delete (n_Id n) (d_nodes d) -> d_nodesArray d' = sorted_nodes (d_nodes d') ->
  d_next d' = d_next d -> d_store d' = d_store d ->
  dom (rs_nodes (d_radio d')) = dom (rs_nodes (d_radio d)) ->
  (forall a x, d_extaddrMap d' !! a = Some x <-> x <> l /\ owns_ext d a x) ->
  rm_wf (d_rloc16Map d') -> (forall r x, x ∈ nodes_at (d_rloc16Map d') r <-> x <> l /\ owns_rloc d r x) ->
  maps_ok d'.
Proof.
  intros MO [L1 L2] En Ea Ex Es Er He Hw Hr.
  assert (forall x y, live d' x y <-> x <> l /\ live d x y) as HL.
  { intros x y. unfold live. rewrite En, Es, lookup_delete_Some. split.
    - intros [[H1 H2] H3]. split; [|done]. intros ->. congruence.
    - intros (H1 & H2 & H3). split; [|done]. split; [|done]. congruence. }
  split; try done.
  - intros i x. rewrite En, Es, lookup_delete_Some. intros [_ Hx]. by apply MO.
  - rewrite Es, Ex. apply MO.
  - intros a x. rewrite He. unfold owns_ext. setoid_rewrite HL. naive_solver.
  - intros r x. rewrite Hr. unfold owns_rloc. setoid_rewrite HL. naive_solver.
  - rewrite Er, Es. apply MO.
Qed.

(** The extended address of the node is given up, if it has one. *)
Lemma ext_forget d d0 l n d' u :
  maps_ok d0 -> live d0 l n -> d_extaddrMap d = d_extaddrMap d0 ->
  when (negb (n_ExtAddr n =? InvalidExtAddr))
    (_ ← assert (bool_decide (d_extaddrMap d !! n_ExtAddr n = Some l));
     modify (fun d => set_d_extaddrMap (delete (n_ExtAddr n) (d_extaddrMap d)) d)) d = Ok (u, d') ->
  exists m, d' = set_d_extaddrMap m d /\ forall a x, m !! a = Some x <-> x <> l /\ owns_ext d0 a x.
Proof.
  intros MO L Hm E%when_Ok. apply (ext_drop d d0 l n d' tt MO L Hm).
  destruct (Z.eqb_spec (n_ExtAddr n) InvalidExtAddr) as [Hinv|Hval]; simpl in E; [|by destruct u].
  subst d'. rewrite bool_decide_true; [done|]. rewrite Hm. apply eq_None_not_Some.
  intros [x Hx%(mo_ext d0 MO)]. by destruct Hx.
Qed.

Lemma maps_DeleteNode id : preserves maps_ok (DeleteNode id).
Proof.
  intros d u d' MO E. unfold DeleteNode in E.
  apply bind_st_Ok in E as (ol & ? & [Hl <-]%gets_st_Ok & E).
  apply bind_st_Ok in E as (l & ? & [Hol <-]%lift_st_Ok & E). apply assert_not_nil_Ok in Hol. subst ol.
  do 5 (apply bind_st_Ok in E as ([] & ? & <-%modify_st_Ok & E)).
  apply bind_st_Ok in E as (n & ? & [Hn ->]%get_node_Ok & E). simpl in Hn.
  destruct (lookup_live d id l n MO Hol Hn) as [L <-].
  apply bind_st_Ok in E as (? & d1 & E1 & E).
  eapply (rloc_remove _ d) in E1 as (m1 & -> & W1 & S1); [|done..].
  apply bind_st_Ok in E as (? & ? & [<- <-]%get_st_Ok & E).
  apply bind_st_Ok in E as (? & d2 & (m2 & -> & S2)%(ext_forget _ d l n) & E); [|done..].
  eapply same_from in E; [rewrite <- E; by eapply (maps_deleted d _ l n)|].
  intros d0. pres.
Qed.

(** The nodes and the alarms change together. *)
Lemma ao_add id d d' :
  alarm_ok d -> AlarmMgr.AddNode id (d_alarmMgr d) = Ok (d_alarmMgr d') ->
  (forall i, is_Some (d_nodes d' !! i) <-> i = id \/ is_Some (d_nodes d !! i)) -> d_aliveNodes d' = d_aliveNodes d ->
  alarm_ok d'.
Proof.
  intros [A1 A2 A3] E Hn Ha. apply (run_op_Ok (OpAdd id)) in E as [W HA]; [|done]. simpl in HA.
  destruct (am_alarms (d_alarmMgr d) !! id); [done|]. injection HA as HA. split; [done| |].
  - intros i. rewrite Hn, <- HA, <- A2, lookup_insert_is_Some'. naive_solver.
  - rewrite Ha. intros i Hi. rewrite Hn. right. by apply A3.
Qed.
Lemma ao_delete id d d' :
  alarm_ok d -> AlarmMgr.DeleteNode id (d_alarmMgr d) = Ok (d_alarmMgr d') ->
  d_nodes d' = delete id (d_nodes d) -> d_aliveNodes d' = d_aliveNodes d ∖ {[id]} -> alarm_ok d'.
Proof.
  intros [A1 A2 A3] E Hn Ha. apply (run_op_Ok (OpDel id)) in E as [W HA]; [|done]. simpl in HA.
  destruct (am_alarms (d_alarmMgr d) !! id); [|done]. injection HA as HA. split; [done| |].
  - intros i. rewrite Hn, <- HA, !lookup_delete_is_Some. by rewrite A2.
  - rewrite Ha, Hn. intros i [Hi Hne]%elem_of_difference. rewrite lookup_delete_is_Some.
    split; [set_solver|by apply A3].
Qed.

Lemma when_keeps {B} (f : Dispatcher M -> B) b (m : st (Dispatcher M) ()) d u d' :
  (forall d u d', m d = Ok (u, d') -> f d' = f d) -> when b m d = Ok (u, d') -> f d' = f d.
Proof. intros H E%when_Ok. destruct b; [by eapply H|by subst]. Qed.

Lemma mod_alarm_Ok f d u d' :
  mod_alarm f d = Ok (u, d') -> exists am, f (d_alarmMgr d) = Ok am /\ d' = set_d_alarmMgr am d.
Proof. unfold mod_alarm. intros E%update_st_Ok. res_inv. subst. eauto. Qed.

Lemma ao_AddNode id cfg : preserves alarm_ok (AddNode id cfg).
Proof.
  intros d u d' HA E. unfold AddNode in E.
  apply bind_st_Ok in E as (ol & ? & [Hl <-]%gets_st_Ok & E).
  apply bind_st_Ok in E as ([] & ? & [_ <-]%lift_st_Ok & E).
  apply bind_st_Ok in E as (l & d1 & (n & Hn & -> & ->)%alloc_node_Ok & E).
  do 4 (apply bind_st_Ok in E as ([] & ? & <-%modify_st_Ok & E)).
  apply bind_st_Ok in E as ([] & d2 & (am & Em & ->)%mod_alarm_Ok & E). simpl in Em.
  eapply (hoare_run alarm_ok) in E; [done| |].
  - eapply (ao_add id d); [done|done| |done]. intros i. simpl. rewrite lookup_insert_is_Some'. naive_solver.
  - unfold WatchNode. pres.
Qed.

Lemma ao_DeleteNode id : preserves alarm_ok (DeleteNode id).
Proof.
  intros d u d' HA E. unfold DeleteNode in E.
  apply bind_st_Ok in E as (ol & ? & [Hl <-]%gets_st_Ok & E).
  apply bind_st_Ok in E as (l & ? & [Hol <-]%lift_st_Ok & E).
  do 5 (apply bind_st_Ok in E as ([] & ? & <-%modify_st_Ok & E)).
  apply bind_st_Ok in E as (n & ? & [Hn ->]%get_node_Ok & E).
  apply bind_st_Ok in E as ([] & d1 & E1 & E).
  apply (when_keeps (fun d => (d_alarmMgr d, d_nodes d, d_aliveNodes d))) in E1;
    [|intros ? ? ? (m & _ & ->)%mod_rloc16Map_Ok; done].
  apply bind_st_Ok in E as (? & ? & [<- <-]%get_st_Ok & E).
  apply bind_st_Ok in E as ([] & d2 & E2 & E).
  apply (when_keeps (fun d => (d_alarmMgr d, d_nodes d, d_aliveNodes d))) in E2.
  2: { intros ? ? ? ([] & ? & [_ <-]%lift_st_Ok & <-%modify_st_Ok)%bind_st_Ok. done. }
  rewrite E1 in E2. simpl in E2. injection E2 as H1 H2 H3.
  apply bind_st_Ok in E as ([] & d3 & (am & Em & ->)%mod_alarm_Ok & E). rewrite H1 in Em.
  eapply (hoare_run alarm_ok) in E; [done| |].
  - by eapply (ao_delete id d).
  - pres.
Qed.

(** ** Every operation keeps the invariant *)
Lemma wf_both {A} (m : st (Dispatcher M) A) : preserves maps_ok m -> preserves alarm_ok m -> preserves disp_wf m.
Proof. intros H1 H2 d a d' [] E. split; [by eapply H1|by eapply H2]. Qed.
Lemma wf_quiet {A} (m : st (Dispatcher M) A) : quiet_op m -> preserves alarm_ok m -> preserves disp_wf m.
Proof. intros H1 H2. apply wf_both; [by apply maps_quiet|done]. Qed.

Lemma wf_NewDispatcher cfg model rnd d : NewDispatcher cfg model rnd = Ok d -> disp_wf d.
Proof.
  unfold NewDispatcher. intros E. apply bind_Ok in E as (? & _ & E). apply bind_Ok in E as (q & _ & E). apply bind_Ok in E as (am & Ea & E).
  destruct newAlarmMgr_wf as (am' & E' & W & Hal). rewrite Ea in E'. injection E' as <-. injection E as <-.
  match goal with |- disp_wf ?d0 => assert (forall l n, ~ live d0 l n) as HL by (by intros l n [? ?]) end.
  split; split; simpl; try done.
  - intros l [n Hn]. done.
  - intros a l. split; [done|]. intros (_ & n & Hn & _). by destruct (HL l n).
  - intros r. apply NoDup_nil_2.
  - intros r l. split; [by intros ?%elem_of_nil|]. intros (_ & n & Hn & _). by destruct (HL l n).
  - intros id. rewrite Hal. by split; intros [].
Qed.

Section handler.
Variable OnNewNodeDetected : NodeId -> st (Dispatcher M) bool.
(** What the dispatcher needs of the simulation's callback: it may use the dispatcher,
    in any way that keeps the dispatcher's invariant. *)
Hypothesis OnNewNodeDetected_wf : forall id, preserves disp_wf (OnNewNodeDetected id).

Lemma wf_findNode evt : hoare disp_wf (findNode OnNewNodeDetected evt)
  (fun ol d => disp_wf d /\ forall l, ol = Some l -> mapped l d).
Proof.
  intros d ol d' W E. unfold findNode in E. apply bind_st_Ok in E as (ol' & ? & [Hl <-]%gets_st_Ok & E).
  destruct ol' as [l|]; [apply ret_st_Ok in E as [<- <-]; split; [done|]; intros y [= <-]; by eexists|].
  assert (forall e : Dispatcher M, disp_wf e -> disp_wf e /\ forall l, None = Some l -> mapped l e) as HN by done.
  destruct (ev_Conn evt) as [c|]; [|apply ret_st_Ok in E as [<- <-]; by apply HN].
  destruct (_ =? _); [|apply ret_st_Ok in E as [<- <-]; by apply HN].
  apply bind_st_Ok in E as (b & d1 & E1 & E). apply OnNewNodeDetected_wf in E1; [|done]. destruct b.
  - apply bind_st_Ok in E as (ol' & ? & [Hl' <-]%gets_st_Ok & E).
    apply bind_st_Ok in E as (l & ? & [Hn <-]%lift_st_Ok & E). apply assert_not_nil_Ok in Hn. subst ol'.
    apply bind_st_Ok in E as (n & ? & [_ ->]%get_node_Ok & E).
    apply bind_st_Ok in E as (? & ? & [_ <-]%lift_st_Ok & E). apply ret_st_Ok in E as [<- <-].
    split; [done|]. intros y [= <-]. by eexists.
  - apply bind_st_Ok in E as ([] & d2 & E2 & E). apply ret_st_Ok in E as [<- <-]. apply HN.
    eapply wf_quiet in E2; [done|..|done]; [intros ?; apply si_output|apply ao_output].
Qed.

Lemma wf_handleNodeEvent l evt : hoare (fun d => disp_wf d /\ mapped l d) (handleNodeEvent l evt) (fun _ => disp_wf).
Proof.
  intros d u d' [[W1 W2] Hm] E. split; [|by eapply ao_handleNodeEvent]. eapply at_handleNodeEvent in E; [apply E|done].
Qed.
Lemma wf_HandleEvent evt : preserves disp_wf (HandleEvent OnNewNodeDetected evt).
Proof.
  unfold HandleEvent. eapply hoare_bind; [apply wf_findNode|]. intros [l|]; [|intros d u d' [? _] [_ <-]%ret_st_Ok; done].
  intros d u d' [W Hl] E. specialize (Hl l eq_refl).
  apply bind_st_Ok in E as (n & ? & [Hn ->]%get_node_Ok & E). apply bind_st_Ok in E as (? & ? & [<- <-]%get_st_Ok & E).
  destruct (n_conn n) as [c|].
  - destruct (ev_Conn evt); [destruct (_ =? _)%nat|]; try by eapply wf_handleNodeEvent.
    eapply wf_quiet; [intros ?; apply si_output|apply ao_output|done|exact E].
  - apply bind_st_Ok in E as ([] & d1 & E1 & E). eapply wf_handleNodeEvent; [|exact E].
    destruct W as [W1 W2]. pose proof E1 as E2. eapply (maps_at_quiet l) in E1 as [? ?]; [|intros ?; pres|done].
    by split; [split; [|eapply ao_mod_node]|].
Qed.
Lemma wf_RecvEvents evts : preserves disp_wf (RecvEvents OnNewNodeDetected evts).
Proof. apply pres_for_each. intros evt _. apply wf_HandleEvent. Qed.
#[local] Hint Resolve wf_HandleEvent wf_RecvEvents : hoare.

Lemma wf_processNextEvents fuel t : preserves disp_wf (processNextEvents fuel t).
Proof. apply wf_quiet; [intros ?; apply si_processNextEvents|apply ao_processNextEvents]. Qed.
Lemma wf_syncAliveNodes : preserves disp_wf syncAliveNodes.
Proof. apply wf_quiet; [intros ?; apply si_syncAliveNodes|apply ao_syncAliveNodes]. Qed.
Lemma wf_advanceTime ts : preserves disp_wf (advanceTime ts).
Proof. apply wf_quiet; [intros ?; apply si_advanceTime|apply ao_advanceTime]. Qed.
Lemma wf_advanceNodeTime l ts force : preserves disp_wf (advanceNodeTime l ts force).
Proof. apply wf_quiet; [intros ?; apply si_advanceNodeTime|apply ao_advanceNodeTime]. Qed.
Lemma wf_assert b : preserves disp_wf (assert b).
Proof. apply pres_lift. Qed.
#[local] Hint Resolve wf_processNextEvents wf_syncAliveNodes wf_advanceTime wf_advanceNodeTime wf_assert : hoare.
#[local] Hint Extern 3 (hoare disp_wf (modify _) _) => apply wf_quiet; [intros ?; si_field|ao_field] : hoare.

Lemma wf_AddNode id cfg : preserves disp_wf (AddNode id cfg).
Proof.
  apply wf_both; [|apply ao_AddNode]. intros d l d' W E. by apply maps_AddNode in E as [? _].
Qed.
Lemma wf_DeleteNode id : preserves disp_wf (DeleteNode id).
Proof. apply wf_both; [apply maps_DeleteNode|apply ao_DeleteNode]. Qed.
#[local] Hint Resolve wf_AddNode wf_DeleteNode : hoare.

Lemma si_ReplaceRadioModel name seed d0 : preserves (same_index d0) (ReplaceRadioModel name seed).
Proof. unfold ReplaceRadioModel, SetRadioModel, radio_nodes. pres. Qed.
Lemma wf_run_task t : preserves disp_wf (run_task OnNewNodeDetected t).
Proof.
  destruct t; simpl; pres.
  all: apply wf_quiet; [intros ?|].
  all: unfold SetNodePos, NotifyCommand, SendToVirtualUART, SendRfSimEvent, CollectCoapMessages,
    SetGlobalPacketLossRatio, WatchNode, UnwatchNode, SetEnergyAnalyser, SetVisualizationOptions, EnableCoaps,
    ReplaceRadioModel, SetRadioModel, radio_nodes.
  all: first [apply si_SetNodeFailed|apply ao_SetNodeFailed|apply si_SetFailTime|apply ao_SetFailTime|
    apply si_CollectPings|apply ao_CollectPings|apply si_CollectJoins|apply ao_CollectJoins|solve [pres]|
    apply si_modify; intros d; by destruct (d_coaps d)|apply ao_modify; intros d; by destruct (d_coaps d)].
Qed.
#[local] Hint Resolve wf_run_task : hoare.

Lemma wf_simulateTurn fuel t : preserves disp_wf (simulateTurn OnNewNodeDetected fuel t).
Proof. unfold simulateTurn, handleTasks. pres. Qed.
#[local] Hint Resolve wf_simulateTurn : hoare.
Lemma wf_simulateLoop fuel turns : preserves disp_wf (simulateLoop OnNewNodeDetected fuel turns).
Proof. induction turns as [|t turns IH]; cbn [simulateLoop]; pres. Qed.
#[local] Hint Resolve wf_simulateLoop : hoare.
Lemma wf_SetSpeed f : preserves disp_wf (SetSpeed f).
Proof. apply wf_quiet; [intros ?|]; pres. Qed.
Lemma wf_syncSpeedStart : preserves disp_wf syncSpeedStart.
Proof. apply wf_quiet; [intros ?|]; pres. Qed.
#[local] Hint Resolve wf_SetSpeed wf_syncSpeedStart : hoare.
Lemma wf_goSimulateForDuration fuel dur speed turns :
  preserves disp_wf (goSimulateForDuration OnNewNodeDetected fuel dur speed turns).
Proof.
  unfold goSimulateForDuration, goBegin, goEnd. pres.
  all: apply wf_quiet; [intros ?; apply si_modify|apply ao_modify]; intros d; by destruct (_ >? _).
Qed.
#[local] Hint Resolve wf_goSimulateForDuration : hoare.
Lemma wf_runGo fuel dur speed turns evts : preserves disp_wf (runGo OnNewNodeDetected fuel dur speed turns evts).
Proof. unfold runGo, syncAllNodes. pres. Qed.

#[local] Hint Resolve wf_runGo : hoare.
Lemma wf_realtimeTurn fuel : preserves disp_wf (realtimeTurn fuel).
Proof.
  apply wf_quiet; [intros ?|]; unfold realtimeTurn, realtimeTarget; pres.
  - apply si_processNextEventsRealtime.
  - apply ao_processNextEventsRealtime.
Qed.
#[local] Hint Resolve wf_realtimeTurn : hoare.
Lemma wf_serve r : preserves disp_wf (serve OnNewNodeDetected r).
Proof. destruct r; simpl; pres. Qed.

Lemma reachable_disp_wf cfg model rnd d : reachable OnNewNodeDetected cfg model rnd d -> disp_wf d.
Proof.
  induction 1 as [d E|r d d' _ IH E]; [by eapply wf_NewDispatcher|by eapply wf_serve].
Qed.

End handler.
End index.

(** ** An example *)
Definition ex_disp_env : DispEnv := {|
  de_radio := ex_env;
  conn_Write := fun _ => true;
  NewFailTime := fun _ _ => 0;
  range_alive := fun s => elements s;
  range_energy := fun m => map_to_list m;
  clock_step := fun _ => 1000%N;
|}.
Definition ex_config : Config := mkConfig false false false false false false 1%float.
Definition ex_model : Ideal.RadioModelIdeal := Ideal.init "Ideal" newRadioModelParams.
Definition ex_node_config : NodeConfig :=
  mkNodeConfig 0 "router" "" 0 0 0 false false false false true false false false false 220 "" "" "" false [] 0 ∅.

(** An external node is accepted at once. *)
Definition ex_accept (id : NodeId) : st (Dispatcher Ideal.RadioModelIdeal) bool :=
  l ← AddNode (env := ex_disp_env) (RadioModel0 := @ideal_model ex_env) id ex_node_config;
  _ ← mod_node l (set_conn (Some 7%nat)); mret true.

(** Two nodes are added; the second tells its addresses and changes one of them; an
    external node appears; the first node is deleted. *)
Definition ex_event (id ty : Z) (conn : nat) (data : list Z) : Event :=
  set_Conn (Some conn) (set_NodeId id (set_Type ty (set_Data data zeroEvent))).
Definition ex_requests : list Request := [
  ReqTask (TaskSetEnergyAnalyser (NewEnergyAnalyser "tmp" 0));
  ReqTask (TaskAddNode 1 ex_node_config); ReqTask (TaskAddNode 2 ex_node_config);
  ReqEvent (ex_event 2 EventTypeExtAddr 1 [1; 2; 3; 4; 5; 6; 7; 8]);
  ReqEvent (ex_event 2 EventTypeExtAddr 1 [1; 2; 3; 4; 5; 6; 7; 9]);
  ReqEvent (ex_event 9 EventTypeNodeInfo 7 []);
  ReqTask (TaskDeleteNode 1)].

Fixpoint serve_all (rs : list Request) : st (Dispatcher Ideal.RadioModelIdeal) () :=
  match rs with
  | [] => mret tt
  | r :: rs => _ ← serve (env := ex_disp_env) (RadioModel0 := @ideal_model ex_env) ex_accept r; serve_all rs
  end.
Abbreviation ex_reachable :=
  (reachable (env := ex_disp_env) (RadioModel0 := @ideal_model ex_env) ex_accept ex_config ex_model 0).
Lemma serve_all_reachable rs d u d' : ex_reachable d -> serve_all rs d = Ok (u, d') -> ex_reachable d'.
Proof.
  revert d. induction rs as [|r rs IH]; intros d H E; cbn [serve_all] in E; [by apply ret_st_Ok in E as [_ <-]|].
  apply bind_st_Ok in E as ([] & d1 & E1 & E). eapply IH; [|exact E]. by eapply reach_serve.
Qed.
Definition ex_start : res (Dispatcher Ideal.RadioModelIdeal) := NewDispatcher (env := ex_disp_env) ex_config ex_model 0.
(** The ids and extended addresses that the nodes have at the end. *)
Definition ex_end : res (list (NodeId * nat) * list (Z * nat)) :=
  d ← ex_start; r ← serve_all ex_requests d;
  Ok (map_to_list (d_nodes (snd r)), map_to_list (d_extaddrMap (snd r))).

Lemma ex_accept_wf id : preserves disp_wf (ex_accept id).
Proof.
  unfold ex_accept. apply pres_bind; [apply wf_AddNode|]. intros l.
  apply pres_bind; [|intros; apply pres_ret]. apply wf_quiet; [intros ?; apply si_mod_node; by intros []|].
  apply (ao_mod_node (RadioModel0 := @ideal_model ex_env)).
Qed.

