(* ===== verification/DispatcherTime.v ===== *)
(** * Simulation time

    How the dispatcher moves the simulation time: it never goes back, a simulated period
    ends exactly at its end, and nothing that was due in the period is left over.  Also
    the two loops that work on times alone: the conversion of a node's millisecond clock,
    and the statistics windows. *)

From S2P Require Import Prelude State Types Event GoFloat GoStrings.
From S2P Require Import SendQueue AlarmMgr Wpan Visualize DNode Rloc16Map Coaps Energy RadioNode RadioModel.
From S2P Require Import RadioLaws Dispatcher DispatcherIndex.

Local Open Scope Z_scope.

Section time.
Context {env : DispEnv} {M : Type} `{!RadioModel M} `{!RadioModelLaws M}.
Implicit Types d : Dispatcher M.

Definition timing d : Z * Z := (d_CurTime d, d_pauseTime d).
Definition pace d : float * Z * Z * Z := (d_speed d, d_speedStartTime d, d_speedStartRealTime d, d_now d).
(** Properties of the simulation time and the clock that passing time and a change of the
    speed keep. *)
Record timely (P : Dispatcher M -> Prop) : Prop := {
  tm_same d d' : timing d' = timing d -> pace d' = pace d -> P d -> P d';
  tm_clock : on_clock P;
  tm_speed : on_speed P;
}.
Lemma timing_timely v : timely (fun d => timing d = v).
Proof. split; [|intros ? ? ? _ H; exact H|split; [intros ? H; exact H|intros ? ? H _ _; exact H]]. intros d d' H _. congruence. Qed.
(** Operations that leave the simulation time alone. *)
Abbreviation timeless m := (forall P, timely P -> preserves P m).

Lemma timeless_from {A} (m : st (Dispatcher M) A) d a d' : timeless m -> m d = Ok (a, d') -> timing d' = timing d.
Proof. intros H E. by eapply (H _ (timing_timely (timing d))). Qed.

Ltac tl_same := match goal with HP : timely ?P, Hd : ?P _ |- ?P _ => refine (tm_same P HP _ _ _ _ Hd); reflexivity end.
Ltac tl_field := apply hoare_modify; intros ? ?; tl_same.
#[local] Hint Extern 3 (hoare _ (modify _) _) => tl_field : hoare.
#[local] Hint Resolve tm_clock tm_speed : hoare.
Lemma tl_output o : timeless (output o).
Proof. intros P HP. tl_field. Qed.
Lemma tl_count c : timeless (count c).
Proof. intros P HP. tl_field. Qed.
Lemma tl_get_node l : timeless (get_node l).
Proof. intros P HP. unfold get_node. pres. Qed.
Lemma tl_put_node l n : timeless (put_node l n).
Proof. intros P HP. tl_field. Qed.
Lemma tl_mod_alarm f : timeless (mod_alarm f).
Proof. intros P HP. apply hoare_update. intros d d' Hd E. res_inv. subst. tl_same. Qed.
Lemma tl_queue_add e : timeless (queue_add e).
Proof. intros P HP. apply hoare_update. intros d d' Hd E. res_inv. subst. tl_same. Qed.
Lemma tl_mod_energy f : timeless (mod_energy f).
Proof. intros P HP. apply hoare_update. intros d d' Hd E. res_inv. subst. tl_same. Qed.
Lemma tl_mod_rloc16Map f : timeless (mod_rloc16Map f).
Proof. intros P HP. apply hoare_update. intros d d' Hd E. res_inv. subst. tl_same. Qed.
#[local] Hint Resolve tl_output tl_count tl_get_node tl_put_node tl_mod_alarm tl_queue_add tl_mod_energy
  tl_mod_rloc16Map : hoare.
Lemma tl_mod_node l f : timeless (mod_node l f).
Proof. intros P HP. unfold mod_node. pres. Qed.
Lemma tl_lookup_node id : timeless (lookup_node id).
Proof. intros P HP. apply pres_gets. Qed.
Lemma tl_assert b : timeless (assert b).
Proof. intros P HP. apply pres_lift. Qed.
Lemma tl_vis o : timeless (vis o).
Proof. intros P HP. tl_field. Qed.
Lemma tl_callback o : timeless (callback o).
Proof. intros P HP. tl_field. Qed.
#[local] Hint Resolve tl_mod_node tl_lookup_node tl_assert tl_vis tl_callback : hoare.
Lemma tl_vis_all vs : timeless (vis_all vs).
Proof. intros P HP. unfold vis_all. pres. Qed.
Lemma tl_setAlive id : timeless (setAlive id).
Proof. intros P HP. unfold setAlive. pres. Qed.
Lemma tl_setSleeping id : timeless (setSleeping id).
Proof. intros P HP. tl_field. Qed.
#[local] Hint Resolve tl_vis_all tl_setAlive tl_setSleeping : hoare.
Lemma tl_radio {A} (m : st (radio_st M) A) : timeless (radio m).
Proof.
  intros P HP d a d' Hd E. unfold radio in E. destruct (m _) as [[b r]|]; [|done].
  refine (hoare_run P _ _ _ _ E _ _); [tl_same|pres].
Qed.
#[local] Hint Resolve tl_radio : hoare.
Lemma tl_sendEvent l evt : timeless (sendEvent l evt).
Proof. intros P HP. unfold sendEvent, reEvaluate, sendRawData. pres. Qed.
#[local] Hint Resolve tl_sendEvent : hoare.
Lemma tl_advanceNodeTime l ts f : timeless (advanceNodeTime l ts f).
Proof. intros P HP. unfold advanceNodeTime. pres. Qed.
Lemma tl_visSend a b i : timeless (visSend a b i).
Proof. intros P HP. unfold visSend. pres. Qed.
#[local] Hint Resolve tl_advanceNodeTime tl_visSend : hoare.
Lemma tl_dispatch_to evt src dsts : timeless (dispatch_to evt src dsts).
Proof.
  intros P HP. induction dsts as [|x dsts IH]; cbn [dispatch_to]; [pres|].
  unfold checkRadioReachable, sendOneRadioFrame, packetLost, drawUnit. pres.
Qed.
#[local] Hint Resolve tl_dispatch_to : hoare.
Lemma tl_updateNodeStats : timeless updateNodeStats.
Proof. intros P HP. unfold updateNodeStats. pres. Qed.
#[local] Hint Resolve tl_updateNodeStats : hoare.
Lemma tl_processEvent evt : timeless (processEvent evt).
Proof.
  intros P HP. unfold processEvent, visSendInterference, handleRadioState, sendRadioCommRxStartEvents,
    sendRadioCommRxDoneEvents, visSendFrame. pres.
Qed.
#[local] Hint Resolve tl_processEvent : hoare.
Lemma tl_processLoop rt fuel p a b : timeless (processLoop rt fuel p a b).
Proof.
  intros P HP. revert a b. induction fuel as [|fuel IH]; intros a b; cbn [processLoop]; [apply pres_panics|].
  unfold processAlarm, processQueued. pres.
Qed.
#[local] Hint Resolve tl_processLoop : hoare.
Lemma tl_handleStatus l k s : timeless (handleStatus l k s).
Proof.
  intros P HP. unfold handleStatus, topology, setNodeRole, setNodeRloc16, onStatusPushExtAddr, onExtAddrChanged,
    handleCoapEvent, convertNodeMilliTime. pres.
Qed.
#[local] Hint Resolve tl_handleStatus : hoare.
Lemma tl_handleNodeEvent l evt : timeless (handleNodeEvent l evt).
Proof. intros P HP. unfold handleNodeEvent, handleStatusPush, onStatusPushExtAddr, onExtAddrChanged. pres. Qed.
Lemma tl_AddNode id cfg : timeless (AddNode id cfg).
Proof. intros P HP. unfold AddNode, alloc_node, reconstructNodesArray, topology, WatchNode. pres. Qed.
Lemma tl_DeleteNode id : timeless (DeleteNode id).
Proof. intros P HP. unfold DeleteNode, reconstructNodesArray, topology, UnwatchNode. pres. Qed.
Lemma tl_syncAliveNodes : timeless syncAliveNodes.
Proof. intros P HP. unfold syncAliveNodes. pres. Qed.
#[local] Hint Resolve tl_handleNodeEvent tl_AddNode tl_DeleteNode tl_syncAliveNodes : hoare.
Lemma tl_emptyWindows fuel : timeless (emptyWindows fuel).
Proof. intros P HP. induction fuel; cbn [emptyWindows]; unfold visSendTimeWindowStats; pres. Qed.
#[local] Hint Resolve tl_emptyWindows : hoare.
Lemma tl_storeEnergy ts : timeless (storeEnergy ts).
Proof. intros P HP. unfold storeEnergy. pres. Qed.
Lemma tl_updateTimeWindowStats : timeless updateTimeWindowStats.
Proof. intros P HP. unfold updateTimeWindowStats, visSendTimeWindowStats. pres. Qed.
#[local] Hint Resolve tl_storeEnergy tl_updateTimeWindowStats : hoare.

Lemma tl_sleepUntil speed t : timeless (sleepUntil speed t).
Proof. intros P HP. pres. Qed.
Lemma tl_time_Since t : timeless (time_Since t).
Proof. intros P HP. pres. Qed.
Lemma tl_syncSpeedStart : timeless syncSpeedStart.
Proof. intros P HP. pres. Qed.
Lemma tl_SetSpeed f : timeless (SetSpeed f).
Proof. intros P HP. pres. Qed.
#[local] Hint Resolve tl_sleepUntil tl_syncSpeedStart tl_SetSpeed : hoare.

(** ** Advancing the time *)
Lemma advanceTime_timing ts d u d' :
  advanceTime ts d = Ok (u, d') -> d_CurTime d <= ts /\ timing d' = (ts, d_pauseTime d).
Proof.
  unfold advanceTime. intros E. apply bind_st_Ok in E as (? & ? & [<- <-]%get_st_Ok & E).
  apply bind_st_Ok in E as ([] & ? & [H%assert_true_Ok%Z.leb_le <-]%lift_st_Ok & E). split; [done|].
  destruct (Z.eqb_spec (d_CurTime d) ts) as [<-|]; [by apply ret_st_Ok in E as [_ <-]|].
  apply bind_st_Ok in E as ([] & d1 & E1%timeless_from & E); [|intros ? ?; pres].
  apply bind_st_Ok in E as ([] & d2 & E2%timeless_from & E); [|intros ? ?; pres].
  apply bind_st_Ok in E as ([] & d3 & <-%modify_st_Ok & E).
  assert (d_pauseTime d2 = d_pauseTime d) as Hp by (unfold timing in *; congruence).
  apply timeless_from in E; [|intros ? ?; pres]. rewrite E. unfold timing. simpl. by rewrite Hp.
Qed.

(** The alarms, the queue and the alive nodes stay when only the time advances. *)
Definition pending d : alarmMgr * list Event * gset NodeId := (d_alarmMgr d, d_eventQueue d, d_aliveNodes d).
#[local] Hint Extern 4 (hoare _ (modify _) _) => apply hoare_modify; intros ?; done : hoare.
Lemma pn_radio {A} (m : st (radio_st M) A) v :
  (forall s a s', m s = Ok (a, s') -> rs_out s' = rs_out s) -> preserves (fun d => pending d = v) (radio m).
Proof.
  intros Hm d a d' Hd E. unfold radio in E. destruct (m _) as [[b r]|] eqn:Em; [|done].
  apply Hm in Em. simpl in Em. rewrite Em in E. by apply ret_st_Ok in E as [_ <-].
Qed.
Lemma pn_advanceTime ts v : preserves (fun d => pending d = v) (advanceTime ts).
Proof.
  assert (preserves (fun d => pending d = v) (radio (rm_OnNextEventTime ts))) as H1.
  { apply pn_radio. intros s a s' E. by apply law_OnNextEventTime in E as [? _]. }
  assert (preserves (fun d => pending d = v) (radio rm_GetPhyStats)) as H2.
  { apply pn_radio. intros s a s' E. by apply law_GetPhyStats in E as [? _]. }
  assert (forall fuel, preserves (fun d => pending d = v) (emptyWindows fuel)) as H3.
  { induction fuel; cbn [emptyWindows]; unfold visSendTimeWindowStats, vis, output; pres. }
  unfold advanceTime, storeEnergy, updateTimeWindowStats, visSendTimeWindowStats, vis, callback, output, assert. pres.
Qed.

(** The time of the next alarm or queued event. *)
Definition nextTime d : Z := let '(a, s) := nextTimes d in Z.min a s.
Lemma nextTime_pending d d' : pending d' = pending d -> nextTime d' = nextTime d.
Proof. intros [= E1 E2 _]. unfold nextTime, nextTimes. by rewrite E1, E2. Qed.

(** The loop ends with nothing due at its instant, and tells what is due next. *)
Lemma processLoop_next rt fuel p a b d t d' :
  nextTimes d = (a, b) -> processLoop rt fuel p a b d = Ok (t, d') -> t = nextTime d' /\ p < t.
Proof.
  revert a b d. induction fuel as [|fuel IH]; intros a b d Hn E; cbn [processLoop] in E; [done|].
  destruct (Z.leb_spec (Z.min a b) p).
  - apply bind_st_Ok in E as ([] & d1 & _ & E). apply bind_st_Ok in E as ([a' b'] & ? & [Hn' <-]%gets_st_Ok & E).
    by eapply IH.
  - apply ret_st_Ok in E as [<- <-]. unfold nextTime. by rewrite Hn.
Qed.

(** ** One step of a simulated period *)
(** The wall clock does not touch the simulation. *)
Lemma sleepUntil_same speed t d v d' : sleepUntil speed t d = Ok (v, d') -> timing d' = timing d /\ pending d' = pending d.
Proof.
  intros E. split.
  - refine (hoare_run (fun x => timing x = timing d) _ _ _ _ E eq_refl _). pres.
  - refine (hoare_run (fun x => pending x = pending d) _ _ _ _ E eq_refl _). pres.
Qed.
Lemma processNextEvents_time fuel speed d goon d' :
  processNextEvents fuel speed d = Ok (goon, d') ->
  d_CurTime d <= d_CurTime d' <= d_pauseTime d /\ d_pauseTime d' = d_pauseTime d /\
  (goon = false -> d_pauseTime d < nextTime d').
Proof.
  unfold processNextEvents. intros E. apply bind_st_Ok in E as (? & ? & [<- <-]%get_st_Ok & E).
  apply bind_st_Ok in E as ([] & ? & [Hp%assert_true_Ok%Z.leb_le <-]%lift_st_Ok & E).
  apply bind_st_Ok in E as ([] & ? & [_ <-]%lift_st_Ok & E).
  destruct (nextTimes d) as [a b] eqn:Hn.
  apply bind_st_Ok in E as ([] & ? & [_ <-]%lift_st_Ok & E).
  apply bind_st_Ok in E as (t & d0 & [[= Ht0 Hp0] HP0]%sleepUntil_same & E).
  assert (nextTimes d0 = (a, b)) as Hn0 by (rewrite <- Hn; unfold nextTimes; by injection HP0 as -> -> _).
  destruct (((t <? _) && _) || ((t <? _) && _)) eqn:Hw.
  - apply bind_st_Ok in E as ([] & d1 & [Hle [= Ht Hp']]%advanceTime_timing & E). apply ret_st_Ok in E as [<- <-].
    rewrite Ht, Hp'. split; [|done]. split; [lia|].
    apply orb_true_iff in Hw as [[? ?]%andb_true_iff|[? _]%andb_true_iff]; lia.
  - destruct (Z.min a b >? d_pauseTime d) eqn:Hg.
    + apply ret_st_Ok in E as [<- <-]. split; [lia|]. split; [done|]. intros _. unfold nextTime. rewrite Hn0. lia.
    + apply bind_st_Ok in E as ([] & d1 & E1 & E). pose proof E1 as E1'.
      apply advanceTime_timing in E1 as [Hle [= Ht Hp']].
      apply bind_st_Ok in E as (t' & d2 & E2 & E). apply ret_st_Ok in E as [<- <-].
      pose proof E2 as [= Ht2 Hp2]%timeless_from; [|intros ? ?; pres].
      apply processLoop_next in E2 as [-> Hlt].
      * split; [lia|]. split; [congruence|]. lia.
      * assert (pending d1 = pending d0) as HP by exact (pn_advanceTime _ (pending d0) d0 _ _ eq_refl E1').
        injection HP as HA HQ _. unfold nextTimes in *. by rewrite HA, HQ.
Qed.

(** ** A simulated period *)
Section handler.
Variable OnNewNodeDetected : NodeId -> st (Dispatcher M) bool.
(** The callback adds the node without simulating. *)
Hypothesis OnNewNodeDetected_timeless : forall id, timeless (OnNewNodeDetected id).

Lemma tl_HandleEvent evt : timeless (HandleEvent OnNewNodeDetected evt).
Proof. intros P HP. unfold HandleEvent, findNode. pres. Qed.
#[local] Hint Resolve tl_HandleEvent : hoare.
Lemma tl_RecvEvents evts : timeless (RecvEvents OnNewNodeDetected evts).
Proof. intros P HP. unfold RecvEvents. pres. Qed.
#[local] Hint Resolve tl_RecvEvents : hoare.
Lemma tl_run_task t : timeless (run_task OnNewNodeDetected t).
Proof.
  intros P HP. destruct t; simpl; unfold SetNodePos, SetNodeFailed, SetFailTime, CollectPings, CollectJoins, NotifyCommand, SendToVirtualUART, SendRfSimEvent,
    CollectCoapMessages, SetGlobalPacketLossRatio, WatchNode, UnwatchNode, SetEnergyAnalyser,
    SetVisualizationOptions, EnableCoaps, ReplaceRadioModel, SetRadioModel, radio_nodes; pres.
  apply hoare_modify. intros d Hd. destruct (d_coaps d); [done|tl_same].
Qed.
#[local] Hint Resolve tl_run_task : hoare.
Lemma tl_syncAllNodes evts : timeless (syncAllNodes OnNewNodeDetected evts).
Proof. intros P HP. unfold syncAllNodes. pres. Qed.

Lemma when_SetSpeed_same b f d u d' :
  when b (SetSpeed f) d = Ok (u, d') -> timing d' = timing d /\ pending d' = pending d.
Proof.
  intros E. split.
  - refine (timeless_from (when b (SetSpeed f)) _ _ _ _ E). intros P HP. pres.
  - refine (hoare_run (fun x => pending x = pending d) _ _ _ _ E eq_refl _). apply pres_when, pres_SetSpeed; pres.
    intros v. by apply hoare_modify.
Qed.
(** The period up to [d_pauseTime d] is over: no node is alive and nothing is due in it. *)
Definition period_over d : Prop :=
  d_CurTime d = d_pauseTime d /\ d_aliveNodes d = ∅ /\ d_pauseTime d < nextTime d.

Lemma simulateTurn_time fuel t d goon d' :
  d_CurTime d <= d_pauseTime d -> simulateTurn OnNewNodeDetected fuel t d = Ok (goon, d') ->
  d_CurTime d <= d_CurTime d' <= d_pauseTime d /\ d_pauseTime d' = d_pauseTime d /\
  (goon = false -> period_over d').
Proof.
  unfold simulateTurn, handleTasks. intros Hle E.
  apply bind_st_Ok in E as ([] & d1 & E1%timeless_from & E); [|intros ? ?; pres].
  apply bind_st_Ok in E as ([] & d2 & E2%timeless_from & E); [|intros ? ?; pres].
  apply bind_st_Ok in E as ([] & d3 & E3%timeless_from & E); [|intros ? ?; pres].
  rewrite E2, E1 in E3. injection E3 as Hc Hp.
  apply bind_st_Ok in E as (? & ? & [<- <-]%get_st_Ok & E).
  destruct (bool_decide (d_aliveNodes d3 = ∅)); [|apply ret_st_Ok in E as [<- <-]; by rewrite Hc, Hp].
  apply bind_st_Ok in E as (g & d4 & (T1 & T2 & T3)%processNextEvents_time & E).
  apply bind_st_Ok in E as (? & ? & [<- <-]%get_st_Ok & E).
  apply bind_st_Ok in E as ([] & ? & [_ <-]%lift_st_Ok & E).
  destruct (negb g && _) eqn:Hg; [|apply ret_st_Ok in E as [<- <-]; rewrite T2, Hp; by split; [lia|]].
  apply andb_true_iff in Hg as [->%negb_true_iff Ha%bool_decide_eq_true]. specialize (T3 eq_refl).
  apply bind_st_Ok in E as ([] & d5 & E5 & E). apply ret_st_Ok in E as [<- <-].
  pose proof (pn_advanceTime _ (pending d4) d4 _ _ eq_refl E5) as HP.
  apply advanceTime_timing in E5 as [Hle5 [= Ht5 Hp5]].
  split; [lia|]. split; [congruence|]. intros _. unfold period_over.
  rewrite (nextTime_pending d4 d5 HP), Ht5, Hp5. split; [done|]. split; [|lia]. by injection HP as _ _ ->.
Qed.

Lemma simulateLoop_time fuel turns d c d' :
  d_CurTime d <= d_pauseTime d -> simulateLoop OnNewNodeDetected fuel turns d = Ok (c, d') ->
  d_CurTime d <= d_CurTime d' <= d_pauseTime d /\ d_pauseTime d' = d_pauseTime d /\
  (c = false -> period_over d').
Proof.
  revert d. induction turns as [|t turns IH]; intros d Hle E; cbn [simulateLoop] in E;
    apply bind_st_Ok in E as (? & ? & [<- <-]%get_st_Ok & E); rewrite (proj2 (Z.leb_le _ _) Hle) in E.
  - by apply ret_st_Ok in E as [<- <-].
  - apply bind_st_Ok in E as (g & d1 & (T1 & T2 & T3)%simulateTurn_time & E); [|done]. destruct g.
    + apply IH in E as (U1 & U2 & U3); [|lia]. split; [lia|]. split; [congruence|done].
    + apply ret_st_Ok in E as [<- <-]. split; [lia|]. split; [done|]. by intros _; apply T3.
Qed.

(** C11: A simulated period: the time moves forward and never beyond the end of the period,
    and the dispatcher is paused exactly where it stopped.  Unless it was cancelled, it
    stopped at the end of the period, with every node asleep and no alarm and no queued
    event left that is due up to and including the end. *)
Theorem goSimulateForDuration_spec fuel durationUs speed turns d cancelled d' :
  goSimulateForDuration OnNewNodeDetected fuel durationUs speed turns d = Ok (cancelled, d') ->
  d_CurTime d <= d_CurTime d' <= pause_after (d_CurTime d) durationUs /\ d_pauseTime d' = d_CurTime d' /\
  (cancelled = false ->
     d_CurTime d' = pause_after (d_CurTime d) durationUs /\ d_aliveNodes d' = ∅ /\ d_CurTime d' < nextTime d').
Proof.
  unfold goSimulateForDuration. intros E. apply bind_st_Ok in E as (post & d5 & E5 & E).
  unfold goBegin in E5. apply bind_st_Ok in E5 as ([] & d0 & E0%timeless_from & E5); [|intros ? ?; pres].
  apply bind_st_Ok in E5 as (post' & ? & [_ <-]%gets_st_Ok & E5).
  apply bind_st_Ok in E5 as ([] & d2 & E2%timeless_from & E5); [|intros ? ?; pres].
  rewrite E0 in E2. injection E2 as Hc _.
  apply bind_st_Ok in E5 as ([] & ? & <-%modify_st_Ok & E5). apply bind_st_Ok in E5 as (? & ? & [<- <-]%get_st_Ok & E5).
  apply bind_st_Ok in E5 as ([] & ? & [H%assert_true_Ok%Z.leb_le <-]%lift_st_Ok & E5). apply ret_st_Ok in E5 as [_ <-].
  apply bind_st_Ok in E as (c & d1 & (T1 & T2 & T3)%simulateLoop_time & E); [|done]. simpl in T1, T2. rewrite Hc in T1, T2.
  apply bind_st_Ok in E as ([] & d4 & E4 & E). apply ret_st_Ok in E as [<- <-].
  apply bind_st_Ok in E4 as ([] & d3 & [[= Hc3 Hp3] HP3]%when_SetSpeed_same & <-%modify_st_Ok).
  destruct (d_pauseTime d3 >? d_CurTime d3) eqn:Hg; simpl.
  - rewrite Hc3. split; [done|]. split; [done|]. intros HC%T3. unfold period_over in HC. lia.
  - rewrite Hc3. split; [done|]. split; [lia|]. intros (O1 & O2 & O3)%T3. rewrite (nextTime_pending d1 d3 HP3).
    split; [congruence|]. split; [by injection HP3 as _ _ ->|lia].
Qed.

(** ** The wall clock *)
(** Properties of the clock and the speed alone. *)
Record lasting (P : Dispatcher M -> Prop) : Prop := {
  la_pace d d' : pace d' = pace d -> P d -> P d';
  la_clock : on_clock P;
  la_speed : on_speed P;
}.
Lemma lasting_timely P : lasting P -> timely P.
Proof. intros [H1 H2 H3]. split; [|done|done]. intros d d' _ HP. by apply H1. Qed.
#[local] Hint Resolve lasting_timely : hoare.
Section lasting.
Variable P : Dispatcher M -> Prop.
Hypothesis HP : lasting P.
Lemma la_modify f : (forall d, pace (f d) = pace d) -> preserves P (modify f).
Proof. intros H. apply hoare_modify. intros d Hd. exact (la_pace P HP d _ (H d) Hd). Qed.
#[local] Hint Extern 2 (hoare P (modify _) _) => apply la_modify; intros ?; reflexivity : hoare.
Lemma la_advanceTime ts : preserves P (advanceTime ts).
Proof. unfold advanceTime. pres. Qed.
#[local] Hint Resolve la_advanceTime : hoare.
Lemma la_simulateTurn fuel t : preserves P (simulateTurn OnNewNodeDetected fuel t).
Proof. unfold simulateTurn, handleTasks, processNextEvents. pres. Qed.
#[local] Hint Resolve la_simulateTurn : hoare.
Lemma la_simulateLoop fuel turns : preserves P (simulateLoop OnNewNodeDetected fuel turns).
Proof. induction turns as [|t turns IH]; cbn [simulateLoop]; pres. Qed.
#[local] Hint Resolve la_simulateLoop tl_syncAllNodes : hoare.
Lemma la_serve r : preserves P (serve OnNewNodeDetected r).
Proof.
  destruct r; cbn [serve]; unfold runGo, goSimulateForDuration, goBegin, goEnd, realtimeTurn, realtimeTarget, processNextEventsRealtime; pres.
  apply la_modify. intros d. by destruct (_ >? _).
Qed.
End lasting.

(** The start of the present speed is not in the future, and the speed is in its range. *)
Record wall_ok d : Prop := {
  wl_start : 0 <= d_speedStartRealTime d <= d_now d;
  wl_speed : exists f, d_speed d = normalizeSpeed f;
}.
Lemma wall_lasting : lasting wall_ok.
Proof.
  split.
  - intros d d' [= E1 E2 E3 E4] [H1 H2]. split; [by rewrite E3, E4|by rewrite E1].
  - intros d t n Ht [H1 H2]. split; [simpl; lia|done].
  - split; [intros d [H1 H2]; split; [simpl; lia|done]|]. intros d f [H1 H2] _ _. split; [done|by exists f].
Qed.
Lemma wall_serve r : preserves wall_ok (serve OnNewNodeDetected r).
Proof. apply la_serve, wall_lasting. Qed.
Lemma wall_NewDispatcher cfg model rnd d : NewDispatcher cfg model rnd = Ok d -> wall_ok d.
Proof.
  unfold NewDispatcher. intros E. apply bind_Ok in E as (? & _ & E). apply bind_Ok in E as (q & _ & E).
  apply bind_Ok in E as (am & _ & E). injection E as <-. split; [simpl; lia|by eexists].
Qed.
End handler.
End time.

(** ** Loops over times *)
Section loops.
Context {env : DispEnv} {M : Type} `{!RadioModel M} `{!RadioModelLaws M}.
Implicit Types d : Dispatcher M.

Lemma milliTime_loop_spec fuel cur ts :
  0 <= ts -> cur < 2 ^ 62 -> (Z.to_nat (cur / nodeMilliTimeWrap) + 1 < fuel)%nat ->
  ts < 2 ^ 63 ->
  exists k, 0 <= k /\ milliTime_loop fuel cur ts = Ok (ts + k * nodeMilliTimeWrap) /\
    cur <= ts + k * nodeMilliTimeWrap + nodeMilliTimeWrap /\ (k = 0 \/ ts + k * nodeMilliTimeWrap < cur).
Proof.
  intros Ht Hc Hf Hb. assert (cur < Z.of_nat fuel * nodeMilliTimeWrap + ts) as HF.
  { pose proof (Z.mod_pos_bound cur nodeMilliTimeWrap eq_refl). pose proof (Z.div_mod cur nodeMilliTimeWrap ltac:(done)).
    unfold nodeMilliTimeWrap in *. nia. }
  assert (0 < fuel)%nat as Hf0 by lia. clear Hf.
  revert ts Ht Hb HF Hf0. induction fuel as [|fuel IH]; intros ts Ht Hb HF Hf0; [lia|]. cbn [milliTime_loop].
  rewrite u64_id by (unfold in_u, nodeMilliTimeWrap; lia).
  destruct (Z.ltb_spec (ts + nodeMilliTimeWrap) cur) as [Hlt|Hge].
  - destruct (IH (ts + nodeMilliTimeWrap)) as (k & Hk & E & H1 & H2); [unfold nodeMilliTimeWrap in *; lia..|].
    exists (k + 1). rewrite E. split; [lia|]. split; [f_equal; lia|]. split; [lia|]. right. destruct H2 as [->|H2]; lia.
  - exists 0. rewrite Z.mul_0_l, Z.add_0_r. split; [lia|]. split; [done|]. split; [lia|by left].
Qed.

(** The conversion of a node's millisecond clock always ends, and gives the reported
    time relative to the node's creation, moved ahead by as many clock periods as needed to
    be less than one period in the past; it is never moved to the current time or later. *)
Theorem convertNodeMilliTime_spec l milliTime d n :
  d_store d !! l = Some n -> 0 <= n_CreateTime n <= d_CurTime d -> d_CurTime d < 2 ^ 62 -> in_u 32 milliTime ->
  exists k, 0 <= k /\
    let ts := n_CreateTime n + milliTime * 1000 + k * nodeMilliTimeWrap in
    convertNodeMilliTime l milliTime d = Ok (ts, d) /\
    d_CurTime d <= ts + nodeMilliTimeWrap /\ (k = 0 \/ ts < d_CurTime d).
Proof.
  intros Hn Hc Hd Hm. unfold in_u in Hm.
  destruct (milliTime_loop_spec (S (S (Z.to_nat (d_CurTime d / nodeMilliTimeWrap)))) (d_CurTime d)
    (n_CreateTime n + milliTime * 1000)) as (k & Hk & E & H1 & H2); [lia..|].
  exists k. split; [done|]. cbv zeta. split; [|by split].
  unfold convertNodeMilliTime. unfold mbind, st_bind, get_node, get, lift, mbind, st_bind. rewrite Hn. simpl deref.
  cbv iota beta. rewrite u64_id by (unfold in_u; lia). by rewrite E.
Qed.

(** *** Statistics windows *)

(** The windows from number [i] on that have no events are reported as empty. *)
Definition empty_window (start width : Z) (stats : gmap NodeId PhyStats) (i : nat) : Output :=
  OVis (VisUpdateTimeWindowStats (windowInfo (start + Z.of_nat i * width) width (clearMapValuesPhyStats stats))).

Lemma clear_clear m : clearMapValuesPhyStats (clearMapValuesPhyStats m) = clearMapValuesPhyStats m.
Proof. unfold clearMapValuesPhyStats. by rewrite <- map_fmap_compose. Qed.

Lemma windows_S s w st k :
  map (empty_window s w st) (seq 0 (S k)) =
  OVis (VisUpdateTimeWindowStats (windowInfo s w (clearMapValuesPhyStats st))) ::
    map (empty_window (s + w) w (clearMapValuesPhyStats st)) (seq 0 k).
Proof.
  cbn [seq map]. unfold empty_window at 1. rewrite Z.mul_0_l, Z.add_0_r. f_equal.
  rewrite <- seq_shift, map_map. apply map_ext. intros i. unfold empty_window. rewrite clear_clear. do 3 f_equal. lia.
Qed.

Lemma emptyWindows_spec fuel d :
  let tw := d_timeWinStats d in
  let s := tw_WinStartUs tw in let w := tw_WinWidthUs tw in
  0 <= s -> 0 < w -> d_CurTime d + w < 2 ^ 64 -> s + w < 2 ^ 64 -> d_CurTime d <= s + Z.of_nat fuel * w -> (0 < fuel)%nat ->
  exists k d', emptyWindows fuel d = Ok (tt, d') /\
    tw_WinStartUs (d_timeWinStats d') = s + Z.of_nat k * w /\ tw_WinWidthUs (d_timeWinStats d') = w /\
    tw_statsWinStart (d_timeWinStats d') = tw_statsWinStart tw /\
    d_CurTime d <= s + Z.of_nat k * w + w /\ (k = 0%nat \/ s + Z.of_nat k * w < d_CurTime d) /\
    d_out d' = d_out d ++ map (empty_window s w (tw_PhyStats tw)) (seq 0 k).
Proof.
  revert d. induction fuel as [|fuel IH]; intros d tw s w Hs Hw Hb Hb' Hf Hf0; [lia|].
  cbn [emptyWindows]. unfold mbind at 1, st_bind at 1, get. fold tw.
  change (tw_WinStartUs tw) with s. change (tw_WinWidthUs tw) with w.
  rewrite u64_id by (unfold in_u; lia).
  destruct (Z.gtb_spec (d_CurTime d) (s + w)) as [Hgt|Hle].
  - unfold mbind, st_bind, modify, visSendTimeWindowStats, vis, output, get, mbind, st_bind, modify.
    cbv beta iota zeta. simpl d_timeWinStats. cbn [tw_WinStartUs tw_WinWidthUs tw_PhyStats tw_statsWinStart].
    rewrite u64_id by (unfold in_u; lia).
    match goal with |- context [emptyWindows fuel ?x] => destruct (IH x) as (k & d' & E & T1 & T2 & T3 & T4 & T5 & T6) end;
      simpl in *; try lia.
    exists (S k), d'. rewrite E. split; [done|]. rewrite T1. split; [lia|]. split; [done|]. split; [done|].
    split; [lia|]. split; [right; destruct T5; subst; lia|].
    rewrite T6, windows_S. simpl. by rewrite <- app_assoc.
  - exists 0%nat, d. split; [done|]. simpl. rewrite Z.mul_0_l, !Z.add_0_r, app_nil_r. by repeat split; try lia; left.
Qed.

(** The statistics windows follow each other without gap or overlap: when the time has
    left the current window, the window is reported with the difference of the counters,
    every window that passed after it is reported as empty, and the new current window is
    the one that contains the current time.  The loop over the passed windows ends. *)
Theorem updateTimeWindowStats_spec d d1 statsEnd :
  let tw := d_timeWinStats d in let s := tw_WinStartUs tw in let w := tw_WinWidthUs tw in
  0 <= s -> 0 < w -> d_CurTime d + 2 * w < 2 ^ 64 -> s + w < d_CurTime d ->
  radio rm_GetPhyStats d = Ok (statsEnd, d1) ->
  exists k d', updateTimeWindowStats d = Ok (tt, d') /\
    let tw' := d_timeWinStats d' in
    let diff := calcPhyStatsDiff (tw_statsWinStart tw) statsEnd in
    d_out d' = d_out d ++ OVis (VisUpdateTimeWindowStats (windowInfo s w diff)) :: map (empty_window (s + w) w diff) (seq 0 k) /\
    tw_WinStartUs tw' = s + Z.of_nat (S k) * w /\ tw_WinWidthUs tw' = w /\ tw_statsWinStart tw' = statsEnd /\
    tw_WinStartUs tw' < d_CurTime d <= tw_WinStartUs tw' + w.
Proof.
  intros tw s w Hs Hw Hb Hgt ER. unfold updateTimeWindowStats. unfold mbind at 1, st_bind at 1, get at 1. fold tw.
  change (tw_WinStartUs tw) with s. change (tw_WinWidthUs tw) with w.
  rewrite u64_id by (unfold in_u; lia). rewrite (proj2 (Z.gtb_lt _ _) Hgt).
  unfold mbind at 1, st_bind at 1. rewrite ER.
  assert (d_CurTime d1 = d_CurTime d /\ d_out d1 = d_out d) as [Ht Ho].
  { unfold radio in ER. destruct (rm_GetPhyStats _) as [[m r]|] eqn:EG; [|done].
    apply law_GetPhyStats in EG as [EG _]. simpl in EG. rewrite EG in ER. by apply ret_st_Ok in ER as [_ <-]. }
  unfold visSendTimeWindowStats, vis, output, mbind, st_bind, modify, get, mbind, st_bind, modify.
  cbv beta iota zeta. simpl d_timeWinStats. cbn [tw_WinStartUs tw_WinWidthUs tw_PhyStats tw_statsWinStart].
  rewrite u64_id by (unfold in_u; lia).
  match goal with |- context [emptyWindows _ ?x] =>
    destruct (emptyWindows_spec (window_fuel d) x) as (k & d' & E & T1 & T2 & T3 & T4 & T5 & T6) end; simpl in *; try lia.
  - unfold window_fuel. fold tw. change (tw_WinWidthUs tw) with w.
    pose proof (Z.div_mod (d_CurTime d) w ltac:(lia)). pose proof (Z.mod_pos_bound (d_CurTime d) w Hw).
    assert (0 <= d_CurTime d / w) by (apply Z.div_pos; lia). nia.
  - unfold window_fuel. lia.
  - exists k, d'. rewrite E. split; [done|]. rewrite T1, T2, T3, T6, Ho, <- app_assoc. simpl. split; [done|].
    split; [lia|]. split; [done|]. split; [done|]. destruct T5; subst; lia.
Qed.

(** *** An alarm that is not in the future of its node *)
Lemma processLoop_stuck fuel p a b d e l n :
  nextTimes d = (a, b) -> a <= b -> a <= p ->
  NextAlarm (d_alarmMgr d) = Some e -> d_nodes d !! ae_NodeId e = Some l -> d_store d !! l = Some n ->
  ae_Timestamp e <= n_CurTime n -> processLoop false fuel p a b d = Panic OutOfFuel.
Proof.
  intros Hn Hab Hap He Hl Hs Hts. induction fuel as [|fuel IH]; [done|]. cbn [processLoop].
  rewrite Z.min_l by done. rewrite (proj2 (Z.leb_le a p) Hap), (proj2 (Z.leb_le a b) Hab).
  assert (processAlarm false a d = Ok (tt, d)) as HA.
  { unfold processAlarm, lookup_node, advanceNodeTime, get_node, get, gets, lift, mbind, st_bind. rewrite He. simpl.
    rewrite Hl. simpl. unfold mbind, st_bind. rewrite Hs. simpl. by rewrite (proj2 (Z.leb_le _ _) Hts). }
  unfold mbind, st_bind. rewrite HA. unfold gets. cbv beta iota. by rewrite Hn.
Qed.

(** A node that asks for an alarm at a time that its own clock has already reached
    (an alarm event with delay 0) hangs the dispatcher: [processNextEvents] takes the alarm
    as due, [advanceNodeTime] ignores it because the node is up to date, nobody clears it,
    and the loop never ends, however much fuel it gets. *)
Lemma sleepUntil_run speed t d v d' :
  sleepUntil speed t d = Ok (v, d') -> exists now n, d' = set_d_now now (set_d_reads n d).
Proof.
  unfold sleepUntil, time_Since, time_Now, time_Sleep, get, modify, mbind, st_bind, mret, st_ret. intros [= _ <-].
  eexists _, _. by destruct d.
Qed.
Theorem processNextEvents_stuck fuel speed d b e l n t d0 :
  nextTimes d = (d_CurTime d, b) -> d_CurTime d <= b -> d_CurTime d <= d_pauseTime d ->
  PrimFloat.leb 0 speed = true -> sleepUntil speed (d_CurTime d) d = Ok (t, d0) -> d_CurTime d <= t ->
  NextAlarm (d_alarmMgr d) = Some e -> d_nodes d !! ae_NodeId e = Some l -> d_store d !! l = Some n ->
  ae_Timestamp e <= n_CurTime n ->
  processNextEvents fuel speed d = Panic OutOfFuel.
Proof.
  intros Hn Hb Hp Hf E0 Hc He Hl Hs Hts. unfold processNextEvents. unfold mbind, st_bind, get, assert, lift.
  rewrite (proj2 (Z.leb_le _ _) Hp), Hf. cbn [assert_true]. rewrite Hn.
  rewrite (proj2 (Z.geb_le _ _) Hb), (proj2 (Z.geb_le _ _) (Z.le_refl _)). cbn [andb assert_true].
  rewrite Z.min_l, E0 by done. apply sleepUntil_run in E0 as (now & k & ->).
  rewrite (proj2 (Z.ltb_ge t (d_CurTime d)) Hc). simpl.
  assert ((d_CurTime d >? d_pauseTime d) = false) as -> by lia.
  rewrite andb_false_r. simpl. set (d0 := set_d_now _ _).
  assert (advanceTime (d_CurTime d) d0 = Ok (tt, d0)) as ->.
  { unfold advanceTime, mbind, st_bind, get, assert, lift. subst d0. simpl. rewrite Z.leb_refl. simpl. by rewrite Z.eqb_refl. }
  by rewrite (processLoop_stuck fuel _ _ b d0 e l n).
Qed.
End loops.

(** ** An example: a node asks for an alarm after 100 us, and 2000 us when it is fired *)
Definition ex_alarm (delay msgId : Z) : Event :=
  set_MsgId msgId (set_Delay delay (ex_event 1 EventTypeAlarmFired 1 [])).
Definition ex_setup : list Request := [
  ReqTask (TaskSetEnergyAnalyser (NewEnergyAnalyser "tmp" 0)); ReqTask (TaskAddNode 1 ex_node_config);
  ReqEvent (ex_alarm 100 0)].
Definition ex_turns : list Turn := [mkTurn [] []; mkTurn [ex_alarm 2000 1] []].

Lemma ex_accept_timeless id P : timely P -> preserves P (ex_accept id).
Proof.
  intros HP. unfold ex_accept. apply pres_bind; [by apply tl_AddNode|]. intros l.
  apply pres_bind; [by apply tl_mod_node|intros; apply pres_ret].
Qed.

Abbreviation ex_go := (goSimulateForDuration (env := ex_disp_env) (RadioModel0 := @ideal_model ex_env) ex_accept).
(** The state from which the period starts, and the outcome of the period. *)
Definition ex_ready : res (Dispatcher Ideal.RadioModelIdeal) := d ← ex_start; r ← serve_all ex_setup d; Ok (snd r).
Definition ex_outcome : res (Z * bool * Z) :=
  d ← ex_ready; r ← ex_go 20 1000 MaxSimulateSpeed ex_turns d; Ok (d_CurTime d, fst r, d_CurTime (snd r)).

Lemma goSimulateForDuration_spec_witness :
  ex_outcome = Ok (0, false, 1000) /\
  exists d d', ex_ready = Ok d /\ ex_go 20 1000 MaxSimulateSpeed ex_turns d = Ok (false, d') /\
    d_CurTime d' = pause_after (d_CurTime d) 1000 /\ d_aliveNodes d' = ∅ /\ d_CurTime d' < nextTime d'.
Proof.
  assert (ex_outcome = Ok (0, false, 1000)) as H by (vm_compute; reflexivity). split; [exact H|].
  unfold ex_outcome in H. destruct ex_ready as [d|]; [|discriminate]. cbn [mbind res_bind] in H.
  destruct (ex_go 20 1000 MaxSimulateSpeed ex_turns d) as [[c d']|] eqn:E; [|discriminate]. cbn [mbind res_bind fst snd] in H.
  injection H as _ -> _. exists d, d'. split; [reflexivity|]. split; [exact E|].
  exact (proj2 (proj2 (goSimulateForDuration_spec (env := ex_disp_env) ex_accept ex_accept_timeless 20 1000 MaxSimulateSpeed ex_turns
    d false d' E)) eq_refl).
Defined.

#[local] Existing Instance ex_env.
(** The dispatcher of the examples, 3.5 seconds after its start. *)
Definition run_from (rs : list Request) : Dispatcher Ideal.RadioModelIdeal :=
  let d0 := mkDispatcher 0 zeroCounters ex_config 0 (mkAlarmMgr (mkAlarmQueue [] ∅) ∅ 0) [] ∅ ∅ [] ∅ ∅ false 0 1%float 0 0 ∅ ∅ 0%float
    defaultVisualizationOptions None ∅ None (mkRadioSt ∅ ex_model 0 []) (mkNodeStats 0 0 0 0 0 0 0 0 0)
    defaultTimeWindowStats 0 0 0 0 0 [] in
  match (d ← ex_start; serve_all rs d) with Ok (_, d) => d | Panic _ => d0 end.
Definition ex_late : Dispatcher Ideal.RadioModelIdeal := set_d_CurTime 3500000 (run_from ex_setup).

Lemma convertNodeMilliTime_spec_witness :
  let d := set_d_CurTime (2 ^ 52) ex_late in
  exists k ts, convertNodeMilliTime 0 5 d = Ok (ts, d) /\ ts = 5000 + k * nodeMilliTimeWrap /\
    2 ^ 52 <= ts + nodeMilliTimeWrap /\ (k = 0 \/ ts < 2 ^ 52).
Proof.
  destruct (convertNodeMilliTime_spec 0 5 (set_d_CurTime (2 ^ 52) ex_late)
    (default (mkNode 0 0 0 0 0 0 0 0 0 DefaultNodeMode 0 None false 0 false (newFailureCtrl NonFailTime) false [] [] 0 None [])
       (d_store ex_late !! 0%nat))) as (k & _ & E & H1 & H2).
  - vm_compute. reflexivity.
  - split; vm_compute; congruence.
  - reflexivity.
  - split; vm_compute; congruence.
  - exists k. eexists. split; [exact E|]. split; [reflexivity|]. split; [exact H1|exact H2].
Defined.

Lemma updateTimeWindowStats_spec_witness :
  exists k d', updateTimeWindowStats ex_late = Ok (tt, d') /\
    tw_WinStartUs (d_timeWinStats d') = 0 + Z.of_nat (S k) * 1000000 /\
    tw_WinStartUs (d_timeWinStats d') < 3500000 <= tw_WinStartUs (d_timeWinStats d') + 1000000.
Proof.
  destruct (radio rm_GetPhyStats ex_late) as [[st d1]|] eqn:E; [|vm_compute in E; discriminate].
  destruct (updateTimeWindowStats_spec ex_late d1 st) as (k & d' & E' & _ & H1 & _ & _ & H2); try exact E.
  - vm_compute. congruence.
  - reflexivity.
  - reflexivity.
  - reflexivity.
  - exists k, d'. split; [exact E'|]. split; [exact H1|exact H2].
Defined.

(** The node asks for an alarm right now. *)
Definition ex_stuck : Dispatcher Ideal.RadioModelIdeal :=
  set_d_pauseTime 1000 (run_from [ReqTask (TaskSetEnergyAnalyser (NewEnergyAnalyser "tmp" 0));
    ReqTask (TaskAddNode 1 ex_node_config); ReqEvent (ex_alarm 0 0)]).
Lemma processNextEvents_stuck_witness :
  processNextEvents (env := ex_disp_env) (RadioModel0 := @ideal_model ex_env) 1000 1 ex_stuck = Panic OutOfFuel.
Proof.
  assert (match sleepUntil (env := ex_disp_env) 1 (d_CurTime ex_stuck) ex_stuck with
    | Ok (t, _) => d_CurTime ex_stuck <=? t | Panic _ => false end = true) as H by (vm_compute; reflexivity).
  destruct (sleepUntil (env := ex_disp_env) 1 (d_CurTime ex_stuck) ex_stuck) as [[t d0]|] eqn:E; [|discriminate].
  apply (processNextEvents_stuck (env := ex_disp_env) 1000 1 ex_stuck Ever
    (mkAlarmEvent 1 0 0) 0 (default (mkNode 0 0 0 0 0 0 0 0 0 DefaultNodeMode 0 None false 0 false
       (newFailureCtrl NonFailTime) false [] [] 0 None []) (d_store ex_stuck !! 0%nat)) t d0).
  - vm_compute. reflexivity.
  - vm_compute. congruence.
  - vm_compute. congruence.
  - reflexivity.
  - exact E.
  - apply Z.leb_le, H.
  - vm_compute. reflexivity.
  - vm_compute. reflexivity.
  - vm_compute. reflexivity.
  - vm_compute. congruence.
Defined.
