(* ===== verification/DispatcherSend.v ===== *)
(** * Sending to nodes

    What reaches a node's socket: the message that [sendEvent] writes and the state it
    leaves, and which nodes a radio frame is delivered to. *)

From S2P Require Import Prelude State Types GoHeap Event GoFloat GoStrings.
From S2P Require Import SendQueue AlarmMgr Wpan Visualize DNode Rloc16Map Coaps Energy RadioNode RadioModel.
From S2P Require Import RadioLaws Dispatcher DispatcherIndex DispatcherTime.

Local Open Scope Z_scope.

(** The messages written to sockets: node, connection and bytes. *)
Definition sent (out : list Output) : list (NodeId * nat * list Z) :=
  omap (fun o => match o with OWrite id c bytes => Some (id, c, bytes) | _ => None end) out.
Lemma sent_app a b : sent (a ++ b) = sent a ++ sent b.
Proof. apply omap_app. Qed.

Section send.
Context {env : DispEnv} {M : Type} `{!RadioModel M} `{!RadioModelLaws M}.
Implicit Types d : Dispatcher M.

Lemma bind_run {A B} (m : st (Dispatcher M) A) (k : A -> st (Dispatcher M) B) d a d1 :
  m d = Ok (a, d1) -> mbind k m d = k a d1.
Proof. unfold mbind, st_bind. by intros ->. Qed.
Lemma get_node_run l d n : d_store d !! l = Some n -> get_node l d = Ok (n, d).
Proof. intros H. by apply get_node_Ok. Qed.
Lemma mod_node_run l f d n :
  d_store d !! l = Some n -> mod_node l f d = Ok (tt, set_d_store (<[l:=f n]> (d_store d)) d).
Proof. intros H. apply mod_node_Ok. eauto. Qed.
Lemma assert_run b d : b = true -> assert b d = Ok (tt, d).
Proof. by intros ->. Qed.

(** ** The failure controller when a message is sent *)

(** What a node keeps when only its failure state changes. *)
Definition core (n : Node) := (idx n, n_CurTime n, n_msgId n, n_conn n, n_hasDisconnected n, n_err n).
Lemma core_outside : outside_failure core.
Proof. split; by intros ? []. Qed.

(** The state apart from the nodes, the queue and the visualization. *)
Definition rest d := (timing d, d_alarmMgr d, d_nodes d, d_aliveNodes d, d_writes d, sent (d_out d)).

Lemma vis_all_run vs d : exists d', vis_all vs d = Ok (tt, d') /\ rest d' = rest d /\ d_store d' = d_store d /\
  d_eventQueue d' = d_eventQueue d.
Proof.
  revert d. induction vs as [|v vs IH]; intros d; [by exists d|]. unfold vis_all. cbn [for_each].
  rewrite (bind_run _ _ d tt (set_d_out (d_out d ++ [OVis v]) d)) by done.
  destruct (IH (set_d_out (d_out d ++ [OVis v]) d)) as (d' & E & R & S & Q).
  exists d'. split; [exact E|]. split; [|done]. rewrite R. unfold rest. simpl. by rewrite sent_app, app_nil_r.
Qed.

Lemma queue_add_run e d :
  heap_ordered ts_le (d_eventQueue d) -> exists d', queue_add e d = Ok (tt, d') /\ rest d' = rest d /\ d_store d' = d_store d.
Proof.
  intros H. destruct (SendQueue.Add_spec e (d_eventQueue d) H) as (q & E & _ & _).
  exists (set_d_eventQueue q d). split; [|done]. unfold queue_add, update. by rewrite E.
Qed.

(** The number that the failure controller draws. *)
Definition next_draw d (n : Node) : Z :=
  NewFailTime (d_fails d) (FailInterval (n_failTime n) - FailDuration (n_failTime n)).

Lemma reEvaluate_run l t n d :
  d_store d !! l = Some (set_CurTime t n) -> n_CurTime n < t -> fc_wf n -> draw_ok (n_failTime n) (next_draw d n) ->
  heap_ordered ts_le (d_eventQueue d) ->
  exists n' d', reEvaluate l (n_CurTime n) d = Ok (tt, d') /\ rest d' = rest d /\
    d_store d' = <[l:=n']> (d_store d) /\ core n' = core (set_CurTime t n).
Proof.
  intros Hn Ht HF HD HQ. destruct (advance_wf (next_draw d n) t n HF Ht HD) as (ts & upd & n' & vs & E & _ & _ & _).
  pose proof (out_OnTimeAdvanced core core_outside _ _ _ _ _ _ _ E) as HC.
  unfold reEvaluate. rewrite (bind_run _ _ _ _ _ (get_node_run l d _ Hn)).
  rewrite (bind_run _ _ d d d) by done.
  rewrite (bind_run _ _ d (ts, upd, n', vs) d) by (unfold lift; unfold advance, next_draw, n_failTime in E; simpl; by rewrite E).
  cbv beta iota. rewrite (bind_run _ _ d tt (set_d_fails (S (d_fails d)) d)) by done.
  set (d1 := set_d_fails _ d). rewrite (bind_run _ _ d1 tt (set_d_store (<[l:=n']> (d_store d)) d1)) by done.
  destruct (vis_all_run vs (set_d_store (<[l:=n']> (d_store d)) d1)) as (d2 & E2 & R2 & S2 & Q2).
  rewrite (bind_run _ _ _ _ _ E2). destruct upd; [|by exists n', d2].
  destruct (queue_add_run (set_Timestamp ts (set_NodeId (n_Id (set_CurTime t n)) (set_Type EventTypeAlarmFired zeroEvent))) d2)
    as (d3 & E3 & R3 & S3); [by rewrite Q2|].
  exists n', d3. split; [done|]. by rewrite R3, S3.
Qed.

Lemma SetNotified_run id d :
  alarm_ok d -> is_Some (d_nodes d !! id) ->
  exists am, mod_alarm (SetNotified id) d = Ok (tt, set_d_alarmMgr am d) /\
    am_alarms am = <[id:=Ever]> (am_alarms (d_alarmMgr d)).
Proof.
  intros [W I _] H%I. destruct (SetTimestamp_spec id Ever (d_alarmMgr d) W H) as (am & E & _ & A).
  exists am. split; [|done]. unfold mod_alarm, update, SetNotified. by rewrite E.
Qed.

(** The node's time catches up; the failure controller is asked if the time has moved. *)
Lemma catch_up_run l t n d :
  d_store d !! l = Some (set_CurTime t n) -> n_CurTime n <= t -> fc_wf n -> draw_ok (n_failTime n) (next_draw d n) ->
  heap_ordered ts_le (d_eventQueue d) ->
  exists n' d', when (t >? n_CurTime n) (reEvaluate l (n_CurTime n)) d = Ok (tt, d') /\ rest d' = rest d /\
    d_store d' = <[l:=n']> (d_store d) /\ core n' = core (set_CurTime t n).
Proof.
  intros Hn Ht HF HD HQ. destruct (Z.gtb_spec t (n_CurTime n)); [by apply reEvaluate_run|].
  exists (set_CurTime t n), d. split; [done|]. split; [done|]. split; [|done]. by rewrite insert_id.
Qed.

(** Writing the message, and what follows success or failure of the write. *)
Definition delivered d d' (l : nat) (n n' : Node) (c : nat) (msg : list Z) : Prop :=
  if conn_Write (d_writes d) then
    sent (d_out d') = sent (d_out d) ++ [(n_Id n, c, msg)] /\ n_hasDisconnected n' = n_hasDisconnected n /\
    d_aliveNodes d' = (if n_hasDisconnected n then d_aliveNodes d else {[n_Id n]} ∪ d_aliveNodes d)
  else
    sent (d_out d') = sent (d_out d) /\ n_hasDisconnected n' = true /\ d_aliveNodes d' = d_aliveNodes d.

Lemma sendRawData_run l n c msg d :
  d_store d !! l = Some n -> n_conn n = Some c ->
  sendRawData l msg d = Ok (conn_Write (d_writes d), let d1 := set_d_writes (S (d_writes d)) d in
    if conn_Write (d_writes d) then set_d_out (d_out d ++ [OWrite (n_Id n) c msg]) d1 else d1).
Proof.
  intros L2 Hc. unfold sendRawData. rewrite (bind_run _ _ _ _ _ (get_node_run l d n L2)).
  rewrite (bind_run _ _ d c d) by (by rewrite Hc). rewrite (bind_run _ _ d d d) by done.
  rewrite (bind_run _ _ d tt (set_d_writes (S (d_writes d)) d)) by done. by destruct (conn_Write (d_writes d)).
Qed.

Lemma deliver_run l n c msg d :
  live d l n -> n_conn n = Some c ->
  exists n' d', (ok ← sendRawData l msg;
                 if (ok : bool) then setAlive (n_Id n) else _ ← mod_node l (set_err true); mod_node l DisconnectSocket) d
                = Ok (tt, d') /\
    d_store d' = <[l:=n']> (d_store d) /\ idx n' = idx n /\ n_CurTime n' = n_CurTime n /\ n_msgId n' = n_msgId n /\
    d_alarmMgr d' = d_alarmMgr d /\ delivered d d' l n n' c msg.
Proof.
  intros [L1 L2] Hc. unfold delivered. rewrite (bind_run _ _ _ _ _ (sendRawData_run l n c msg d L2 Hc)).
  destruct (conn_Write (d_writes d)); cbv iota zeta.
  - set (d1 := set_d_out _ _). unfold setAlive.
    rewrite (bind_run _ _ d1 (Some l) d1) by (change (Ok (d_nodes d !! n_Id n, d1) = Ok (Some l, d1)); by rewrite L1).
    rewrite (bind_run _ _ d1 l d1) by done.
    rewrite (bind_run _ _ _ _ _ (get_node_run l d1 n L2)).
    assert (sent (d_out d1) = sent (d_out d) ++ [(n_Id n, c, msg)]) as HS by (simpl; by rewrite sent_app).
    exists n. destruct (n_hasDisconnected n); eexists; (split; [reflexivity|]); simpl; rewrite insert_id by done; done.
  - rewrite (bind_run _ _ _ _ _ (mod_node_run l _ (set_d_writes (S (d_writes d)) d) n L2)).
    eexists _, _. split; [apply mod_node_run; simpl; by rewrite lookup_insert_eq|]. simpl.
    rewrite insert_insert_eq. done.
Qed.

(** C13: [sendEvent] brings the node to the current simulation time with one message: the
    bytes written are the event with the node's id, a fresh message id and the time that
    passed for the node as its delay; the node's alarm is cleared, its clock equals the
    simulation time, and it is alive until it answers.  If the write fails the node is
    marked as disconnected and nothing is sent.  No other node is touched. *)
Theorem sendEvent_spec l evt d n c :
  alarm_ok d -> live d l n -> n_conn n = Some c -> fc_wf n -> draw_ok (n_failTime n) (next_draw d n) ->
  heap_ordered ts_le (d_eventQueue d) -> 0 <= n_CurTime n <= d_CurTime d -> d_CurTime d < 2 ^ 64 ->
  ev_Timestamp evt = d_CurTime d ->
  let msgId := u64 (n_msgId n + 1) in
  let msg := set_Delay (d_CurTime d - n_CurTime n) (set_MsgId msgId (set_NodeId (n_Id n) evt)) in
  exists n' d', sendEvent l evt d = Ok (tt, d') /\
    d_store d' = <[l:=n']> (d_store d) /\ idx n' = idx n /\ n_CurTime n' = d_CurTime d /\ n_msgId n' = msgId /\
    am_alarms (d_alarmMgr d') = <[n_Id n:=Ever]> (am_alarms (d_alarmMgr d)) /\
    delivered d d' l n n' c (Serialize msg).
Proof.
  intros AO L Hc HF HD HQ Ht Hb Hts msgId msg. pose proof L as [L1 L2].
  unfold sendEvent. rewrite (bind_run _ _ _ _ _ (get_node_run l d n L2)). rewrite (bind_run _ _ d d d) by done.
  rewrite (bind_run _ _ _ _ _ (mod_node_run l _ d n L2)).
  set (n1 := set_msgId (u64 (n_msgId n + 1)) n). set (d1 := set_d_store _ d).
  rewrite (bind_run _ _ d1 tt d1) by (apply assert_run; simpl; by apply Z.eqb_eq). simpl ev_Timestamp. rewrite Hts.
  rewrite (u64_id (d_CurTime d - _)) by (unfold in_u; lia).
  destruct (SetNotified_run (n_Id n) d1) as (am & EA & HA); [by destruct AO; split|by exists l|].
  rewrite (bind_run _ _ _ _ _ EA). set (d2 := set_d_alarmMgr am d1).
  rewrite (bind_run _ _ _ _ _ (mod_node_run l _ d2 n1 ltac:(apply lookup_insert_eq))).
  simpl ev_Delay. simpl (n_CurTime n1). replace (n_CurTime n + (d_CurTime d - n_CurTime n)) with (d_CurTime d) by lia.
  rewrite (u64_id (d_CurTime d)) by (unfold in_u; lia). set (d3 := set_d_store _ d2).
  assert (d_store d3 !! l = Some (set_CurTime (d_CurTime d) n1)) as H3 by apply lookup_insert_eq.
  rewrite (bind_run _ _ _ _ _ (get_node_run l d3 _ H3)).
  rewrite (bind_run _ _ d3 tt d3) by (apply assert_run; simpl; apply Z.eqb_refl).
  destruct (catch_up_run l (d_CurTime d) n1 d3 H3) as (n4 & d4 & E4 & R4 & S4 & C4); [simpl; lia|done..|].
  change (n_CurTime n1) with (n_CurTime n) in E4. rewrite (bind_run _ _ _ _ _ E4).
  injection C4 as C41 C42 C43 C44 C45 C46 C47 C48. injection R4 as R41 R42 R43 R44 R45 R46 R47.
  destruct (deliver_run l n4 c (Serialize msg) d4) as (n5 & d5 & E5 & S5 & I5 & T5 & M5 & A5 & D5).
  - split; [by rewrite R44, C41|by rewrite S4, lookup_insert_eq].
  - by rewrite C46.
  - exists n5, d5. split; [by rewrite <- E5, C41|].
    rewrite S5, S4. simpl. rewrite !insert_insert_eq. split; [done|].
    split; [rewrite I5; unfold idx; by rewrite C41, C42, C43|]. rewrite T5, M5, A5, R43. repeat split; try done.
    unfold delivered in *. rewrite R46 in D5. rewrite R45, R47, C41, C47 in D5. done.
Qed.
End send.

(** ** An example *)
#[local] Existing Instances ex_env ex_disp_env.
Lemma run_from_wf rs :
  match (d ← ex_start; serve_all rs d) with Ok _ => true | Panic _ => false end = true -> disp_wf (run_from rs).
Proof.
  unfold run_from. destruct ex_start as [d0|] eqn:E0; cbn [mbind res_bind]; [|done].
  destruct (serve_all rs d0) as [[u d]|] eqn:E; [|done]. intros _.
  apply (reachable_disp_wf (env := ex_disp_env) ex_accept ex_accept_wf ex_config ex_model 0).
  eapply serve_all_reachable; [|exact E]. by apply reach_new.
Qed.

Lemma alarm_ok_at {M} t (d : Dispatcher M) : alarm_ok d -> alarm_ok (set_d_CurTime t d).
Proof. intros []. by split. Qed.

(** Time 700 in the example where one node is connected. *)
Definition ex_sending : Dispatcher Ideal.RadioModelIdeal := set_d_CurTime 700 (run_from ex_setup).
Definition ex_receiver : Node :=
  default (mkNode 0 0 0 0 0 0 0 0 0 DefaultNodeMode 0 None false 0 false (newFailureCtrl NonFailTime) false [] [] 0 None [])
    (d_store ex_sending !! 0%nat).
Definition ex_uart : Event := set_Timestamp 700 (set_Type EventTypeUartWrite (set_Data [65; 10] zeroEvent)).

Lemma sendEvent_spec_witness :
  exists n' d', sendEvent (M := Ideal.RadioModelIdeal) 0 ex_uart ex_sending = Ok (tt, d') /\ n_CurTime n' = 700 /\
    d_store d' = <[0%nat:=n']> (d_store ex_sending) /\
    sent (d_out d') = [(1, 1%nat, Serialize (set_Delay 700 (set_MsgId 1 (set_NodeId 1 ex_uart))))].
Proof.
  destruct (sendEvent_spec 0 ex_uart ex_sending ex_receiver 1) as (n' & d' & E & S & _ & T & _ & _ & D).
  - apply alarm_ok_at, run_from_wf. vm_compute. reflexivity.
  - split; vm_compute; reflexivity.
  - vm_compute. reflexivity.
  - split; [repeat split; vm_compute; congruence|vm_compute; reflexivity].
  - intros H. vm_compute in H. discriminate.
  - assert (d_eventQueue ex_sending = []) as -> by (vm_compute; reflexivity). intros k Hk. simpl in Hk. lia.
  - split; vm_compute; congruence.
  - vm_compute. reflexivity.
  - vm_compute. reflexivity.
  - exists n', d'. split; [exact E|]. split; [exact T|]. split; [exact S|].
    assert (n_Id ex_receiver = 1 /\ n_msgId ex_receiver = 0 /\ n_CurTime ex_receiver = 0) as (HI & HM & HT)
      by (vm_compute; auto).
    assert (sent (d_out ex_sending) = []) as HO by (vm_compute; reflexivity).
    unfold delivered in D. cbv iota in D. destruct D as [D _]. rewrite HO, HI, HM, HT in D. exact D.
Defined.
