(* ===== verification/DispatcherDeliver.v ===== *)
(** * Delivery of radio frames

    Which nodes a frame that has been received is written to. *)

From S2P Require Import Prelude State Types Event GoFloat GoStrings.
From S2P Require Import SendQueue AlarmMgr Wpan Visualize DNode Rloc16Map Coaps Energy RadioNode RadioModel.
From S2P Require Import RadioLaws Dispatcher DispatcherIndex DispatcherTime DispatcherSend.

Local Open Scope Z_scope.

Section deliver.
Context {env : DispEnv} {M : Type} `{!RadioModel M} `{!RadioModelLaws M}.
Implicit Types d : Dispatcher M.

(** ** Silent operations: nothing is written to a socket, and no node but [l] changes *)
Definition others (l : nat) d := (sent (d_out d), delete l (d_store d)).
Abbreviation silent l m := (forall v, preserves (fun d => others l d = v) m).

Ltac sl_field := apply hoare_modify; intros ?; done.
#[local] Hint Extern 3 (hoare _ (modify _) _) => sl_field : hoare.
Lemma sl_get_node l x : silent l (get_node x).
Proof. intros v. unfold get_node. pres. Qed.
Lemma sl_put_node l n : silent l (put_node l n).
Proof. intros v. apply hoare_modify. intros d <-. unfold others. simpl. by rewrite delete_insert_eq. Qed.
Lemma sl_mod_alarm l f : silent l (mod_alarm f).
Proof. intros v. apply hoare_update. intros d d' Hd E. res_inv. by subst. Qed.
Lemma sl_queue_add l e : silent l (queue_add e).
Proof. intros v. apply hoare_update. intros d d' Hd E. res_inv. by subst. Qed.
Lemma sl_vis l o : silent l (vis o).
Proof. intros v. apply hoare_modify. intros d <-. unfold others. simpl. by rewrite sent_app, app_nil_r. Qed.
Lemma sl_assert l b : silent l (assert b).
Proof. intros v. apply pres_lift. Qed.
Lemma sl_lookup_node l id : silent l (lookup_node id).
Proof. intros v. apply pres_gets. Qed.
#[local] Hint Resolve sl_get_node sl_put_node sl_mod_alarm sl_queue_add sl_vis sl_assert sl_lookup_node : hoare.
Lemma sl_mod_node l f : silent l (mod_node l f).
Proof. intros v. unfold mod_node. pres. Qed.
Lemma sl_setAlive l id : silent l (setAlive id).
Proof. intros v. unfold setAlive. pres. Qed.
Lemma sl_radio {A} l (m : st (radio_st M) A) : silent l (radio m).
Proof.
  intros v d a d' Hd E. unfold radio in E. destruct (m _) as [[b r]|]; [|done].
  assert (preserves (fun d => others l d = v) (_ ← for_each (rs_out r) queue_add; mret b : st (Dispatcher M) A)) as HP
    by pres.
  by eapply HP; [|exact E].
Qed.
#[local] Hint Resolve sl_mod_node sl_setAlive sl_radio : hoare.
Lemma sl_reEvaluate l old : silent l (reEvaluate l old).
Proof. intros v. unfold reEvaluate, vis_all. pres. Qed.
#[local] Hint Resolve sl_reEvaluate : hoare.

(** ** Writes to a set of nodes *)

(** Since [d0], messages were written only to nodes of [S], the indexes are the same,
    and the nodes that had failed are as they were. *)
Record only_to (S : NodeId -> Prop) d0 d : Prop := {
  ot_sent : exists new, sent (d_out d) = sent (d_out d0) ++ new /\ Forall (fun '(id, _, _) => S id) new;
  ot_index : same_index d0 d;
  ot_failed : forall l n, d_store d0 !! l = Some n -> n_isFailed n = true -> d_store d !! l = Some n;
}.

Lemma only_to_refl S d : only_to S d d.
Proof. split; [|done|done]. exists []. by rewrite app_nil_r. Qed.

(** Steps that leave the other nodes and the sockets alone; [l] had not failed. *)
Definition working d0 (l : nat) : Prop := exists n, d_store d0 !! l = Some n /\ n_isFailed n = false.

Lemma ot_silent {A} S d0 l (m : st (Dispatcher M) A) :
  working d0 l -> (forall v, preserves (same_index v) m) -> silent l m -> preserves (only_to S d0) m.
Proof.
  intros (n0 & Hn0 & Hf0) Hi Hs d a d' [H1 H2 H3] E. pose proof (Hs _ d a d' eq_refl E) as [= Eo Es].
  split; [by rewrite Eo|by eapply Hi|]. intros x n Hx Hf. destruct (decide (x = l)) as [->|Hne]; [congruence|].
  specialize (H3 x n Hx Hf). apply (f_equal (.!! x)) in Es. rewrite !lookup_delete_ne in Es by done. by rewrite Es.
Qed.

Lemma node_id d0 d l n n0 : same_index d0 d -> d_store d0 !! l = Some n0 -> d_store d !! l = Some n -> n_Id n = n_Id n0.
Proof.
  intros [_ _ _ _ _ Hs _] H0 H. destruct (store_idx d0 d l n Hs H) as (n' & Hn' & Hi).
  rewrite H0 in Hn'. injection Hn' as <-. by apply idx_eq in Hi as (-> & _).
Qed.

Lemma ot_sendRawData (S : NodeId -> Prop) d0 l msg n0 :
  d_store d0 !! l = Some n0 -> n_isFailed n0 = false -> S (n_Id n0) -> preserves (only_to S d0) (sendRawData l msg).
Proof.
  intros H0 Hf HS d a d' HP E. pose proof E as EI. apply (si_sendRawData l msg d0) in EI; [|apply HP].
  unfold sendRawData in E. apply bind_st_Ok in E as (n & ? & [Hn ->]%get_node_Ok & E).
  apply bind_st_Ok in E as (c & ? & [_ <-]%lift_st_Ok & E). apply bind_st_Ok in E as (? & ? & [<- <-]%get_st_Ok & E).
  apply bind_st_Ok in E as ([] & d1 & E1%modify_st_Ok & E).
  destruct HP as [(new & HN & HF) HI HX]. destruct (conn_Write (d_writes d)).
  - apply bind_st_Ok in E as ([] & d2 & E2%modify_st_Ok & E). apply ret_st_Ok in E as [_ <-]. subst d2 d1.
    split; [|done|done]. exists (new ++ [(n_Id n, c, msg)]). simpl. rewrite sent_app, HN, <- app_assoc. split; [done|].
    apply Forall_app_2; [done|]. constructor; [|done]. by rewrite (node_id d0 d l n n0).
  - apply ret_st_Ok in E as [_ <-]. subst d1. split; [by exists new|done|done].
Qed.

Lemma ot_sendEvent (S : NodeId -> Prop) d0 l evt n0 :
  d_store d0 !! l = Some n0 -> n_isFailed n0 = false -> S (n_Id n0) -> preserves (only_to S d0) (sendEvent l evt).
Proof.
  intros H0 Hf HS. assert (working d0 l) as HW by (by exists n0).
  pose proof (ot_sendRawData S d0 l) as HR. unfold sendEvent. pres.
  all: try (apply (ot_silent S d0 l); [done|intros ?|intros ?]).
  all: try (apply si_mod_node; by intros []).
  all: eauto using si_get_node, si_assert, si_mod_alarm, si_reEvaluate, si_setAlive with hoare.
Qed.

(** Steps that change neither nodes nor sockets. *)
Definition nodes_and_sent d := (sent (d_out d), d_store d).
Lemma ot_steady {A} S d0 (m : st (Dispatcher M) A) :
  (forall v, preserves (same_index v) m) -> (forall v, preserves (fun d => nodes_and_sent d = v) m) ->
  preserves (only_to S d0) m.
Proof.
  intros Hi Hs d a d' [H1 H2 H3] E. pose proof (Hs _ d a d' eq_refl E) as [= Eo Es].
  split; [by rewrite Eo|by eapply Hi|]. by rewrite Es.
Qed.
Lemma ns_queue_add e v : preserves (fun d => nodes_and_sent d = v) (queue_add e).
Proof. apply hoare_update. intros d d' Hd E. res_inv. by subst. Qed.
#[local] Hint Resolve ns_queue_add : hoare.
Lemma ns_radio {A} (m : st (radio_st M) A) v : preserves (fun d => nodes_and_sent d = v) (radio m).
Proof.
  intros d a d' Hd E. unfold radio in E. destruct (m _) as [[b r]|]; [|done].
  assert (preserves (fun d => nodes_and_sent d = v) (_ ← for_each (rs_out r) queue_add; mret b : st (Dispatcher M) A))
    as HP by pres.
  by eapply HP; [|exact E].
Qed.
#[local] Hint Resolve ns_radio : hoare.
Lemma ot_packetLost S d0 evt : preserves (only_to S d0) (packetLost evt).
Proof.
  apply ot_steady; [intros ?; apply si_packetLost|]. intros v. unfold packetLost, drawUnit. pres.
Qed.
Lemma ot_checkRadioReachable S d0 a b : preserves (only_to S d0) (checkRadioReachable a b).
Proof.
  apply ot_steady; [intros ?; apply si_checkRadioReachable|]. intros v. unfold checkRadioReachable. pres.
Qed.
Lemma ot_get_node S d0 l : preserves (only_to S d0) (get_node l).
Proof. apply ot_steady; [intros ?; apply si_get_node|]. intros v. unfold get_node. pres. Qed.
Lemma ot_count S d0 c : preserves (only_to S d0) (count c).
Proof. apply ot_steady; [intros ?; apply si_count|]. intros v. sl_field. Qed.

(** A frame for one node: it is written if the node works. *)
Lemma ot_sendOneRadioFrame (S : NodeId -> Prop) d0 evt src dst :
  (forall n, d_store d0 !! dst = Some n -> n_isFailed n = false -> S (n_Id n)) ->
  preserves (only_to S d0) (sendOneRadioFrame evt src dst).
Proof.
  intros HS d u d' HP E. unfold sendOneRadioFrame in E.
  apply bind_st_Ok in E as ([] & ? & [_ <-]%lift_st_Ok & E). apply bind_st_Ok in E as ([] & ? & [_ <-]%lift_st_Ok & E).
  apply bind_st_Ok in E as (n & ? & [Hn ->]%get_node_Ok & E).
  destruct (n_isFailed n) eqn:Hf; [by apply ret_st_Ok in E as [_ <-]|].
  destruct (store_idx d0 d dst n) as (n0 & Hn0 & _); [apply HP|done|].
  assert (n_isFailed n0 = false) as Hf0.
  { destruct (n_isFailed n0) eqn:Hx; [|done]. pose proof (ot_failed S d0 d HP dst n0 Hn0 Hx). congruence. }
  revert HP E. apply hoare_run_flip. pres.
  - apply ot_packetLost.
  - apply ot_steady; [intros ?; apply si_radio_op, kn_OnEventDispatch|intros ?; apply ns_radio].
  - by eapply ot_sendEvent, HS.
Qed.

Lemma ot_dispatch_to (S : NodeId -> Prop) d0 evt src dsts :
  (forall dst n, dst ∈ dsts -> dst <> src -> d_store d0 !! dst = Some n -> n_isFailed n = false -> S (n_Id n)) ->
  preserves (only_to S d0) (dispatch_to evt src dsts).
Proof.
  induction dsts as [|dst dsts IH]; intros HS; cbn [dispatch_to]; [pres|].
  assert (preserves (only_to S d0) (dispatch_to evt src dsts)) as IH'.
  { apply IH. intros x n Hx. apply HS. by right. }
  unfold checkRadioReachable. destruct (decide (src = dst)) as [->|Hne]; [pres|].
  pose proof (ot_sendOneRadioFrame S d0 evt src dst) as H1.
  assert (preserves (only_to S d0) (sendOneRadioFrame evt src dst)) as H2.
  { apply H1. intros n. apply HS; [by left|done]. }
  pose proof (ot_get_node S d0). pres.
  apply ot_steady; [intros ?; apply si_radio_op, kn_CheckRadioReachable|intros ?; apply ns_radio].
Qed.

(** ** The addressees of a frame *)
Definition addressed (f : MacFrame) (n : Node) : Prop :=
  let mode := DestAddrMode (mf_FrameControl f) in
  if mode =? AddrModeExtended then n_ExtAddr n = mf_DstAddrExtended f
  else if (mode =? AddrModeShort) && negb (mf_DstAddrShort f =? BroadcastRloc16) then n_Rloc16 n = mf_DstAddrShort f
  else True.
(** The nodes that may be handed the frame [f] of the node at [src]. *)
Definition addressee d (src : nat) (f : MacFrame) (id : NodeId) : Prop :=
  exists l n, live d l n /\ n_Id n = id /\ l <> src /\ n_isFailed n = false /\ addressed f n.

Lemma sorted_nodes_mapped (nodes : gmap NodeId nat) l : l ∈ sorted_nodes nodes -> exists id, nodes !! id = Some l.
Proof. unfold sorted_nodes. intros (id & _ & H)%list_elem_of_omap. eauto. Qed.

(** C14: A received frame is written only to nodes it is addressed to: the owner of its
    extended destination address, the nodes that have its short destination address, or
    any node for a broadcast; never to its sender, and never to a failed node. *)
Theorem sendRadioCommRxDoneEvents_addressed src evt d d' f :
  maps_ok d -> Wpan.Dissect (ev_Data evt) = Ok f -> sendRadioCommRxDoneEvents src evt d = Ok (tt, d') ->
  exists new, sent (d_out d') = sent (d_out d) ++ new /\ Forall (fun '(id, _, _) => addressee d src f id) new.
Proof.
  intros MO Hf E. apply (ot_sent (addressee d src f) d d').
  eapply hoare_run; [exact E|apply only_to_refl|]. clear E. unfold sendRadioCommRxDoneEvents. rewrite Hf.
  intros d1 u d2 HP E. apply bind_st_Ok in E as ([] & ? & [_ <-]%lift_st_Ok & E).
  apply bind_st_Ok in E as (n & ? & [Hn ->]%get_node_Ok & E). destruct (n_isFailed n); [by apply ret_st_Ok in E as [_ <-]|].
  apply bind_st_Ok in E as (f' & ? & [[= <-] <-]%lift_st_Ok & E).
  apply bind_st_Ok in E as (? & ? & [<- <-]%get_st_Ok & E).
  pose proof (ot_index _ _ _ HP) as [_ Ha _ He Hr _ _]. rewrite Ha, He, Hr in E. revert HP E. apply hoare_run_flip.
  unfold addressee. pose proof (ot_count (addressee d src f) d) as HC. unfold addressee, addressed in *.
  destruct (DestAddrMode (mf_FrameControl f) =? AddrModeExtended).
  { destruct (d_extaddrMap d !! mf_DstAddrExtended f) as [dst|] eqn:El; [|apply HC].
    destruct (dst =? src)%nat; [apply HC|]. apply pres_bind; [|intros ?; apply HC]. apply ot_dispatch_to.
    intros x n0 ->%list_elem_of_singleton Hx Hn0 Hf0. apply (mo_ext d MO) in El as (_ & y & Hy & Ha').
    exists dst, n0. destruct Hy as [? Hy]. rewrite Hn0 in Hy. injection Hy as <-. done. }
  destruct (_ && _).
  { destruct (nodes_at (d_rloc16Map d) (mf_DstAddrShort f)) as [|x0 xs] eqn:El; [apply HC|].
    apply pres_bind; [|intros ?; apply HC]. apply ot_dispatch_to.
    intros x n0 Hin Hx Hn0 Hf0. rewrite <- El in Hin. apply (mo_rloc_owner d MO) in Hin as (_ & y & Hy & Ha').
    exists x, n0. destruct Hy as [? Hy]. rewrite Hn0 in Hy. injection Hy as <-. done. }
  apply pres_bind; [|intros ?; apply HC]. apply ot_dispatch_to. intros x n0 Hin Hx Hn0 Hf0.
  rewrite (mo_array d MO) in Hin. apply sorted_nodes_mapped in Hin as (id & Hid).
  exists x, n0. by destruct (lookup_live d id x n0 MO Hid Hn0).
Qed.
End deliver.

(** ** An example

    Three connected nodes listen on channel 11; the first has sent a frame to the extended
    address of the second. *)
#[local] Existing Instances ex_env ex_disp_env.
Definition ex_listen (rn : RadioNode) : RadioNode :=
  upd_radio rn 0%float 0%float RadioRx 0 11 (rn_rssiSampleMax rn) (rn_stats rn).
Definition ex_net_setup : list Request := [
  ReqTask (TaskSetEnergyAnalyser (NewEnergyAnalyser "tmp" 0)); ReqTask (TaskAddNode 1 ex_node_config);
  ReqTask (TaskAddNode 2 ex_node_config); ReqTask (TaskAddNode 3 ex_node_config);
  ReqEvent (ex_event 1 EventTypeExtAddr 1 [1; 2; 3; 4; 5; 6; 7; 1]);
  ReqEvent (ex_event 2 EventTypeExtAddr 2 [1; 2; 3; 4; 5; 6; 7; 2]);
  ReqEvent (ex_event 3 EventTypeExtAddr 3 [1; 2; 3; 4; 5; 6; 7; 3])].
Definition set_radio_nodes (f : RadioNode -> RadioNode) {M} (d : Dispatcher M) : Dispatcher M :=
  set_d_radio (mkRadioSt (f <$> rs_nodes (d_radio d)) (rs_model (d_radio d)) (rs_draws (d_radio d)) []) d.
Definition ex_net : Dispatcher Ideal.RadioModelIdeal := set_radio_nodes ex_listen (run_from ex_net_setup).
Definition ex_mac : MacFrame := mkMacFrame 11 3073 7 4660 0 0 0 72623859790382850 0 15 6.
Definition ex_rx_done : Event := set_Type EventTypeRadioRxDone (set_NodeId 1 (set_Data (encode_frame ex_mac [1; 2]) zeroEvent)).

Lemma maps_ok_radio {M} f (d : Dispatcher M) : maps_ok d -> maps_ok (set_radio_nodes f d).
Proof.
  intros H. assert (same_index d (set_radio_nodes f d)) as S; [|by rewrite <- S].
  split; try done. simpl. by rewrite dom_fmap_L.
Qed.

Lemma sendRadioCommRxDoneEvents_addressed_witness :
  exists d', sendRadioCommRxDoneEvents 0 ex_rx_done ex_net = Ok (tt, d') /\
    map (fun '(id, c, _) => (id, c)) (sent (d_out d')) = [(2, 2%nat)] /\
    exists new, sent (d_out d') = sent (d_out ex_net) ++ new /\
      Forall (fun '(id, _, _) => addressee ex_net 0 ex_mac id) new.
Proof.
  destruct (sendRadioCommRxDoneEvents 0 ex_rx_done ex_net) as [[[] d']|] eqn:E.
  - exists d'. split; [reflexivity|]. split.
    + assert (match sendRadioCommRxDoneEvents 0 ex_rx_done ex_net with
        Ok (_, d) => map (fun '(id, c, _) => (id, c)) (sent (d_out d)) | Panic _ => [] end = [(2, 2%nat)]) as H
        by (vm_compute; reflexivity).
      rewrite E in H. exact H.
    + apply (sendRadioCommRxDoneEvents_addressed 0 ex_rx_done ex_net d' ex_mac); [| |exact E].
      * apply maps_ok_radio, run_from_wf. vm_compute. reflexivity.
      * vm_compute. reflexivity.
  - exfalso. assert (match sendRadioCommRxDoneEvents 0 ex_rx_done ex_net with
      Ok _ => true | Panic _ => false end = true) as H by (vm_compute; reflexivity).
    rewrite E in H. discriminate.
Defined.
