(* ===== verification/DispatcherClock.v ===== *)
(** * Causality

    Nothing is ever scheduled in the past: in every state the dispatcher reaches, each
    queued event and each alarm is due now or later, and no node's clock is ahead of the
    simulation time.  This is what the time assertions in [processNextEvents] and
    [sendEvent] rely on. *)

From S2P Require Import Prelude State GoHeap Types Event GoFloat GoStrings.
From S2P Require Import SendQueue AlarmMgr Wpan Visualize DNode Rloc16Map Coaps Energy RadioNode RadioModel.
From S2P Require Import RadioLaws Dispatcher DispatcherIndex DispatcherTime.

Local Open Scope Z_scope.

Lemma Ever_value : Ever = 2 ^ 63 - 1.
Proof. reflexivity. Qed.

(** ** The failure controller in time *)

(** The lengths of a failure schedule are far from the end of time. *)
Definition ft_small (ft : FailTime) : Prop :=
  0 <= FailDuration ft < 2 ^ 62 /\ 0 <= FailInterval ft < 2 ^ 62 /\
  (CanFail ft = true -> FailDuration ft < FailInterval ft).
Definition fc_small (fc : FailureCtrl) : Prop := ft_small (fc_failTime fc) /\ 0 <= fc_remainTm fc < 2 ^ 62.

Lemma calcNext_time rel n n' :
  calcNextFailTimestamp rel n = Ok n' -> fc_small (n_failureCtrl n) -> n_CurTime n <= Ever -> 0 <= n_CurTime n ->
  draw_ok (n_failTime n) rel ->
  fc_small (n_failureCtrl n') /\ n_CurTime n' = n_CurTime n /\ n_isFailed n' = n_isFailed n /\
  (CanFail (n_failTime n) = true -> n_CurTime n <= fc_failTs (n_failureCtrl n')).
Proof.
  unfold calcNextFailTimestamp. intros E S Hc Hc0 HD. unfold draw_ok, n_failTime in *.
  destruct (CanFail (fc_failTime (n_failureCtrl n))) eqn:EC; simpl in E; [|by injection E as <-].
  specialize (HD eq_refl). res_inv. destruct (_ <=? 0); [done|]. res_inv. subst. simpl.
  destruct S as [S S3]. pose proof S as (S1 & S2 & S4).
  rewrite Ever_value in Hc. rewrite !u64_id by (unfold in_u; lia).
  split; [split; [exact S|simpl; lia]|]. repeat split; simpl; lia.
Qed.

Lemma OnTimeAdvanced_time rel old n ts upd n' vs :
  OnTimeAdvanced rel old n = Ok (ts, upd, n', vs) -> fc_small (n_failureCtrl n) -> 0 <= n_CurTime n <= Ever ->
  draw_ok (n_failTime n) rel ->
  fc_small (n_failureCtrl n') /\ n_CurTime n' = n_CurTime n /\ (upd = true -> n_CurTime n <= ts).
Proof.
  unfold OnTimeAdvanced. intros E S Hc HD. destruct (CanFail (fc_failTime (n_failureCtrl n))) eqn:EC; simpl in E;
    [|by injection E as <- <- <- <-].
  apply bind_Ok in E as ([] & _ & E). destruct (n_isFailed n) eqn:Hf.
  - apply bind_Ok in E as ([] & _ & E). destruct (Z.geb_spec (n_CurTime n) (fc_recoverTs (n_failureCtrl n))).
    + apply bind_Ok in E as (n1 & E1 & E). apply calcNext_time in E1 as (C1 & C2 & C3 & C4); [|done|simpl; lia..|done].
      simpl in C2, C3, C4. specialize (C4 EC). unfold Recover in E. rewrite C3, Hf in E.
      injection E as <- <- <- <-. simpl. by repeat split; try apply C1.
    + injection E as <- <- <- <-. simpl. repeat split; try apply S. lia.
  - apply bind_Ok in E as ([] & _ & E). destruct (Z.geb_spec (n_CurTime n) (fc_failTs (n_failureCtrl n))).
    + unfold Fail in E. simpl in E. rewrite Hf in E. injection E as <- <- <- <-. simpl.
      split; [exact S|]. split; [done|]. intros _. destruct S as [(? & ? & ?) ?]. rewrite Ever_value in Hc.
      rewrite u64_id by (unfold in_u; lia). lia.
    + injection E as <- <- <- <-. simpl. repeat split; try apply S. lia.
Qed.

Lemma SetFailTime_time rel ft n n' vs :
  DNode.SetFailTime rel ft n = Ok (n', vs) -> ft_small ft -> 0 <= n_CurTime n <= Ever -> draw_ok ft rel ->
  fc_small (n_failureCtrl n') /\ n_CurTime n' = n_CurTime n.
Proof.
  unfold DNode.SetFailTime. set (n1 := set_failureCtrl _ n). intros E S Hc HD.
  destruct (if _ && _ then _ else _) as [n2 v2] eqn:E2.
  assert (n_failureCtrl n2 = n_failureCtrl n1 /\ n_CurTime n2 = n_CurTime n) as [H1 H2].
  { destruct (_ && _); [|by injection E2 as <- _]. unfold Recover in E2.
    destruct (n_isFailed n1); by injection E2 as <- _. }
  apply bind_Ok in E as (n3 & E3 & E). injection E as <- <-.
  apply calcNext_time in E3 as (C1 & C2 & _); [by rewrite C2| | | |].
  - rewrite H1. split; [done|simpl; lia].
  - lia.
  - lia.
  - unfold n_failTime. by rewrite H1.
Qed.

(** What the drawn failure times and the events of the nodes have to satisfy. *)
Class DispEnvOk (env : DispEnv) : Prop := {
  NewFailTime_range k m : 0 < m -> 0 <= NewFailTime k m < m;
}.
Definition span_ok (e : Event) : Prop :=
  0 <= ev_Delay e < 2 ^ 63 /\ 0 <= rc_Duration (ev_RadioCommData e) < 2 ^ 63.

Section clock.
Context {env : DispEnv} {env_ok : DispEnvOk env} {M : Type} `{!RadioModel M} `{!RadioModelLaws M}.
Implicit Types d : Dispatcher M.

(** ** The invariant *)
Definition due (t : Z) (e : Event) : Prop := t <= ev_Timestamp e /\ span_ok e.
Definition node_ok (t : Z) (n : Node) : Prop := 0 <= n_CurTime n <= t /\ fc_small (n_failureCtrl n).

(** At time [t], with everything scheduled for [t] or later. *)
Record time_ok (t : Z) d : Prop := {
  to_cur : d_CurTime d = t;
  to_range : 0 <= t <= Ever;
  to_heap : heap_ordered ts_le (d_eventQueue d);
  to_queue : Forall (due t) (d_eventQueue d);
  to_am : am_wf (d_alarmMgr d);
  to_alarms : forall id ts, am_alarms (d_alarmMgr d) !! id = Some ts -> t <= ts;
  to_nodes : forall l n, d_store d !! l = Some n -> node_ok t n;
}.

(** ** Steps that do not concern it *)
Definition tn (n : Node) := (n_CurTime n, n_failureCtrl n).
Lemma node_ok_tn t n n' : tn n' = tn n -> node_ok t n -> node_ok t n'.
Proof. unfold node_ok. by intros [= -> ->]. Qed.

Lemma tk_modify t f :
  (forall d, d_CurTime (f d) = d_CurTime d /\ d_eventQueue (f d) = d_eventQueue d /\ d_alarmMgr (f d) = d_alarmMgr d /\
     d_store (f d) = d_store d) -> preserves (time_ok t) (modify f).
Proof.
  intros H. apply hoare_modify. intros d []. destruct (H d) as (E1 & E2 & E3 & E4). split; rewrite ?E1, ?E2, ?E3, ?E4; done.
Qed.
Ltac tk_field := apply tk_modify; intros ?; done.
#[local] Hint Extern 3 (hoare _ (modify _) _) => tk_field : hoare.

(** What is known about a value that was just read. *)
Lemma tk_get_bind {A} t (k : Dispatcher M -> st (Dispatcher M) A) :
  (forall d, time_ok t d -> preserves (time_ok t) (k d)) -> preserves (time_ok t) (mbind k get).
Proof. intros H d a d' Hd E. apply bind_st_Ok in E as (? & ? & [<- <-]%get_st_Ok & E). by eapply H. Qed.
Lemma tk_get_node_bind {A} t l (k : Node -> st (Dispatcher M) A) :
  (forall n, node_ok t n -> preserves (time_ok t) (k n)) -> preserves (time_ok t) (mbind k (get_node l)).
Proof.
  intros H d a d' Hd E. apply bind_st_Ok in E as (n & ? & [Hn ->]%get_node_Ok & E).
  eapply H; [by eapply (to_nodes t d Hd)|done|exact E].
Qed.
Lemma tk_assert_bind {A} t b (k : () -> st (Dispatcher M) A) :
  (b = true -> preserves (time_ok t) (k tt)) -> preserves (time_ok t) (mbind k (assert b)).
Proof.
  intros H d a d' Hd E. apply bind_st_Ok in E as ([] & ? & [Hb%assert_true_Ok <-]%lift_st_Ok & E). by eapply H.
Qed.
Ltac tk_step :=
  match goal with
  | |- hoare (time_ok _) (mbind _ get) _ => apply tk_get_bind; intros ? ?
  | |- hoare (time_ok _) (mbind _ (get_node _)) _ => apply tk_get_node_bind; intros ? ?
  | |- hoare (time_ok _) (mbind _ (assert _)) _ => apply tk_assert_bind; intros ?
  | |- hoare _ (when _ _) _ => apply pres_when_true; intros ?
  | |- _ => pres_step
  end.
Ltac tk := repeat first [progress eauto with hoare nocore|tk_step]; eauto with hoare.

Lemma tk_output t o : preserves (time_ok t) (output o).
Proof. tk_field. Qed.
Lemma tk_count t c : preserves (time_ok t) (count c).
Proof. tk_field. Qed.
Lemma tk_vis t v : preserves (time_ok t) (vis v).
Proof. tk_field. Qed.
Lemma tk_callback t v : preserves (time_ok t) (callback v).
Proof. tk_field. Qed.
Lemma tk_assert t b : preserves (time_ok t) (assert b).
Proof. apply pres_lift. Qed.
Lemma tk_lookup_node t id : preserves (time_ok t) (lookup_node id).
Proof. apply pres_gets. Qed.
Lemma tk_get_node t l : preserves (time_ok t) (get_node l).
Proof. unfold get_node. tk. Qed.
#[local] Hint Resolve tk_output tk_count tk_vis tk_callback tk_assert tk_lookup_node tk_get_node : hoare.
Lemma tk_vis_all t vs : preserves (time_ok t) (vis_all vs).
Proof. unfold vis_all. tk. Qed.
Lemma tk_put_node t l n : node_ok t n -> preserves (time_ok t) (put_node l n).
Proof.
  intros Hn. apply hoare_modify. intros d []. split; try done. simpl.
  intros x y [[<- <-]|[_ ?]]%lookup_insert_Some; [done|eauto].
Qed.
Lemma tk_mod_node t l f : (forall n, tn (f n) = tn n) -> preserves (time_ok t) (mod_node l f).
Proof. intros Hf. unfold mod_node. tk. apply tk_put_node. eapply node_ok_tn; [apply Hf|done]. Qed.
#[local] Hint Resolve tk_vis_all : hoare.
#[local] Hint Extern 2 (hoare _ (mod_node _ _) _) => apply tk_mod_node; intros []; reflexivity : hoare.

(** ** Steps that schedule something *)
Lemma tk_queue_add t e : due t e -> preserves (time_ok t) (queue_add e).
Proof.
  intros He. apply hoare_update. intros d d' [] E. res_inv. subst.
  match goal with H : SendQueue.Add _ _ = Ok _ |- _ => rename H into EA end.
  destruct (SendQueue.Add_spec (R := ts_le) e (d_eventQueue d)) as (q & E & P & H); [done|].
  rewrite E in EA. injection EA as <-. split; try done. simpl. rewrite P. by constructor.
Qed.
Lemma tk_SetTimestamp t id ts : t <= ts -> preserves (time_ok t) (mod_alarm (SetTimestamp id ts)).
Proof.
  intros Ht. apply hoare_update. intros d d' [] E. res_inv. subst.
  match goal with H : SetTimestamp _ _ _ = _ |- _ => apply (run_op_Ok (OpSet id ts)) in H as (W & HA); [|done] end.
  simpl in HA. destruct (am_alarms _ !! id) as [old|] eqn:Hx; [|done]. injection HA as HA.
  split; simpl; try done. rewrite <- HA. intros i y [[<- <-]|[_ ?]]%lookup_insert_Some; eauto.
Qed.
Lemma tk_SetNotified t id : preserves (time_ok t) (mod_alarm (SetNotified id)).
Proof. intros d u d' Hd E. eapply tk_SetTimestamp; [|done|exact E]. apply (to_range t d Hd). Qed.
#[local] Hint Resolve tk_SetNotified : hoare.

(** A radio model that schedules only due events. *)
Lemma tk_radio {A} t (m : st (radio_st M) A) :
  (forall s a s', m s = Ok (a, s') -> exists new, rs_out s' = rs_out s ++ new /\ Forall (due t) new) ->
  preserves (time_ok t) (radio m).
Proof.
  intros Hm d a d' Hd E. unfold radio in E. destruct (m _) as [[b r]|] eqn:Em; [|done].
  apply Hm in Em as (new & Hn & HF). simpl in Hn. subst new.
  assert (preserves (time_ok t) (_ ← for_each (rs_out r) queue_add; mret b : st (Dispatcher M) A)) as HP.
  { tk. apply tk_queue_add. by eapply Forall_forall in HF. }
  eapply HP; [|exact E]. by destruct Hd.
Qed.
Lemma due_derived t evt e : 0 <= t <= Ever -> ev_Timestamp evt = t -> span_ok evt -> derived evt e -> due t e.
Proof.
  intros Ht He [S1 S2] (_ & D1 & D2 & D3). rewrite Ever_value in Ht. unfold due, span_ok. rewrite D1, D2.
  split; [|done]. destruct D3 as [->|[->| ->]]; rewrite ?u64_id by (unfold in_u; lia); lia.
Qed.
Lemma tk_radio_HandleEvent t l evt :
  0 <= t <= Ever -> ev_Timestamp evt = t -> span_ok evt -> preserves (time_ok t) (radio (rm_HandleEvent l evt)).
Proof.
  intros Ht He HS. apply tk_radio. intros s a s' E. apply law_HandleEvent in E as (_ & new & Hn & HF).
  exists new. split; [done|]. eapply Forall_impl; [exact HF|]. intros e. by eapply due_derived.
Qed.
Lemma tk_radio_OnEventDispatch t src dst evt :
  t <= ev_Timestamp evt -> preserves (time_ok t) (radio (rm_OnEventDispatch src dst evt)).
Proof.
  intros He. apply tk_radio. intros s [b e'] s' E. apply law_OnEventDispatch in E as ((_ & new & Hn & HF) & _).
  exists new. split; [done|]. eapply Forall_impl; [exact HF|]. intros e (_ & _ & L1 & L2 & L3).
  unfold due, span_ok. rewrite L1, L2, L3. lia.
Qed.
Lemma tk_radio_quiet {A} t (m : st (radio_st M) A) :
  (forall s a s', m s = Ok (a, s') -> rs_out s' = rs_out s) -> preserves (time_ok t) (radio m).
Proof. intros H. apply tk_radio. intros s a s' E. exists []. rewrite app_nil_r. by split; [eapply H|]. Qed.

(** ** Sending *)
Lemma tk_setAlive t id : preserves (time_ok t) (setAlive id).
Proof. unfold setAlive. tk. Qed.
Lemma tk_setSleeping t id : preserves (time_ok t) (setSleeping id).
Proof. tk_field. Qed.
Lemma tk_sendRawData t l msg : preserves (time_ok t) (sendRawData l msg).
Proof. unfold sendRawData. tk. Qed.
#[local] Hint Resolve tk_setAlive tk_setSleeping tk_sendRawData : hoare.

Lemma draw_range k ft : ft_small ft -> draw_ok ft (NewFailTime k (FailInterval ft - FailDuration ft)).
Proof. intros (_ & _ & HV) HC. apply NewFailTime_range. specialize (HV HC). lia. Qed.

Lemma tk_reEvaluate t l old :
  hoare (fun d => time_ok t d /\ exists n, d_store d !! l = Some n /\ n_CurTime n = t)
    (reEvaluate l old) (fun _ => time_ok t).
Proof.
  intros d u d' (Hd & n & Hn & Hc) E. unfold reEvaluate in E.
  apply bind_st_Ok in E as (n0 & ? & [Hn0 ->]%get_node_Ok & E). rewrite Hn in Hn0. injection Hn0 as <-.
  apply bind_st_Ok in E as (? & ? & [<- <-]%get_st_Ok & E).
  apply bind_st_Ok in E as ([[[ts upd] n'] vs] & ? & [Ha <-]%lift_st_Ok & E).
  destruct (to_nodes t d Hd l n Hn) as [H1 H2]. pose proof (to_range t d Hd) as HR.
  apply OnTimeAdvanced_time in Ha as (A1 & A2 & A3); [|done|lia|].
  - refine (hoare_run (time_ok t) _ _ _ _ E Hd _). tk.
    + apply tk_put_node. split; [lia|done].
    + apply tk_queue_add. split; [simpl; rewrite <- Hc; by apply A3|]. split; simpl; lia.
  - apply draw_range, H2.
Qed.

Lemma tk_sendEvent t l evt : preserves (time_ok t) (sendEvent l evt).
Proof.
  intros d u d' Hd E. unfold sendEvent in E. pose proof (to_cur t d Hd) as HC. pose proof (to_range t d Hd) as HR.
  apply bind_st_Ok in E as (n & ? & [Hn ->]%get_node_Ok & E). apply bind_st_Ok in E as (? & ? & [<- <-]%get_st_Ok & E).
  destruct (to_nodes t d Hd l n Hn) as [H1 H2]. rewrite Ever_value in HR.
  apply bind_st_Ok in E as ([] & d1 & E1 & E). 
  pose proof (tk_mod_node t l (set_msgId (u64 (n_msgId n + 1))) ltac:(by intros []) d _ _ Hd E1) as Hd1.
  apply mod_node_Ok in E1 as (n1 & Hn1 & ->). rewrite Hn in Hn1. injection Hn1 as <-.
  apply bind_st_Ok in E as ([] & ? & [HT%assert_true_Ok%Z.eqb_eq <-]%lift_st_Ok & E). simpl in HT.
  apply bind_st_Ok in E as ([] & d2 & E2 & E). pose proof (tk_SetNotified t _ _ _ _ Hd1 E2) as Hd2.
  apply mod_alarm_Ok in E2 as (am & _ & ->).
  apply bind_st_Ok in E as ([] & d3 & (n3 & Hn3 & E3)%mod_node_Ok & E). simpl in Hn3. rewrite lookup_insert_eq in Hn3.
  injection Hn3 as <-. simpl in E3. rewrite HT, HC, (u64_id (t - _)) in E3 by (unfold in_u; lia).
  replace (n_CurTime n + (t - n_CurTime n)) with t in E3 by lia. rewrite u64_id in E3 by (unfold in_u; lia).
  assert (time_ok t d3 /\ exists n', d_store d3 !! l = Some n' /\ n_CurTime n' = t) as [Hd3 Hn3].
  { split; [|subst d3; simpl; rewrite lookup_insert_eq; by eexists]. subst d3.
    refine (tk_put_node t l _ _ _ tt _ Hd2 eq_refl). split; [simpl; lia|exact H2]. }
  clear E3 Hd2 Hd1. apply bind_st_Ok in E as (n4 & ? & [Hn4 ->]%get_node_Ok & E).
  apply bind_st_Ok in E as ([] & ? & [_ <-]%lift_st_Ok & E).
  apply bind_st_Ok in E as ([] & d4 & E4 & E).
  assert (time_ok t d4) as Hd4.
  { apply when_Ok in E4. destruct (_ >? _); [|by subst]. eapply tk_reEvaluate; [|exact E4]. done. }
  refine (hoare_run (time_ok t) _ _ _ _ E Hd4 _). tk.
Qed.
#[local] Hint Resolve tk_sendEvent : hoare.
Lemma tk_advanceNodeTime t l ts force : preserves (time_ok t) (advanceNodeTime l ts force).
Proof. unfold advanceNodeTime. tk. Qed.
Lemma tk_visSend t a b i : preserves (time_ok t) (visSend a b i).
Proof. unfold visSend. tk. Qed.
#[local] Hint Resolve tk_advanceNodeTime tk_visSend : hoare.
Lemma tk_packetLost t evt : preserves (time_ok t) (packetLost evt).
Proof. unfold packetLost, drawUnit. tk. Qed.
Lemma tk_checkRadioReachable t a b : preserves (time_ok t) (checkRadioReachable a b).
Proof.
  unfold checkRadioReachable. tk. apply tk_radio_quiet. intros s x s' E.
  by apply law_CheckRadioReachable in E as (? & _).
Qed.
#[local] Hint Resolve tk_packetLost tk_checkRadioReachable : hoare.
Lemma tk_dispatch_to t evt src dsts : t <= ev_Timestamp evt -> preserves (time_ok t) (dispatch_to evt src dsts).
Proof.
  intros He. induction dsts as [|x dsts IH]; cbn [dispatch_to]; [tk|]. unfold sendOneRadioFrame. tk.
  by apply tk_radio_OnEventDispatch.
Qed.
Lemma tk_updateNodeStats t : preserves (time_ok t) updateNodeStats.
Proof. unfold updateNodeStats. tk. Qed.
#[local] Hint Resolve tk_dispatch_to tk_updateNodeStats : hoare.

(** ** Taking events from the queue *)
Lemma tk_handleRadioState t l evt : span_ok evt -> preserves (time_ok t) (handleRadioState l evt).
Proof.
  intros [S1 S2]. unfold handleRadioState. tk.
  apply tk_queue_add. pose proof (to_cur t _ ltac:(eassumption)) as HC. pose proof (to_range t _ ltac:(eassumption)) as HR.
  rewrite Ever_value in HR. split; [|split; simpl; lia]. simpl. rewrite HC, u64_id by (unfold in_u; lia). lia.
Qed.
Lemma tk_sendRadioCommRxStartEvents t l evt :
  t <= ev_Timestamp evt -> preserves (time_ok t) (sendRadioCommRxStartEvents l evt).
Proof. intros He. unfold sendRadioCommRxStartEvents, visSendFrame. tk. Qed.
Lemma tk_sendRadioCommRxDoneEvents t l evt :
  t <= ev_Timestamp evt -> preserves (time_ok t) (sendRadioCommRxDoneEvents l evt).
Proof. intros He. unfold sendRadioCommRxDoneEvents. tk. Qed.
#[local] Hint Resolve tk_handleRadioState tk_sendRadioCommRxStartEvents tk_sendRadioCommRxDoneEvents : hoare.

Lemma tk_processEvent t evt :
  0 <= t <= Ever -> ev_Timestamp evt = t -> span_ok evt -> preserves (time_ok t) (processEvent evt).
Proof.
  intros Ht He HS. unfold processEvent, visSendInterference.
  assert (t <= ev_Timestamp evt) as Hle by lia.
  pose proof (fun l => tk_radio_HandleEvent t l evt Ht He HS) as H1.
  pose proof (fun a b => tk_radio_OnEventDispatch t a b evt Hle) as H2. tk.
Qed.

Lemma PopNext_due t q e q' :
  heap_ordered ts_le q -> Forall (due t) q -> PopNext q = Ok (e, q') ->
  due t e /\ heap_ordered ts_le q' /\ Forall (due t) q'.
Proof.
  intros H HF E. destruct (PopNext_cons _ _ _ E) as (e0 & l & ->).
  destruct (PopNext_spec (R := ts_le) e0 l H) as (q2 & E2 & P & Hh & _). rewrite E in E2. injection E2 as -> ->.
  apply Forall_cons in HF as [? ?]. split; [done|]. split; [done|]. by rewrite P.
Qed.

Lemma tk_processQueued t rt a b m :
  m <= t -> preserves (time_ok t) (processQueued rt a b m).
Proof.
  intros Hm d u d' Hd E. unfold processQueued in E. apply bind_st_Ok in E as (? & ? & [<- <-]%get_st_Ok & E).
  apply bind_st_Ok in E as ([evt q] & ? & [EP <-]%lift_st_Ok & E). pose proof (to_range t d Hd) as HR.
  destruct (PopNext_due t _ _ _ (to_heap t d Hd) (to_queue t d Hd) EP) as ([D1 D2] & Hh & HF).
  apply bind_st_Ok in E as ([] & d1 & <-%modify_st_Ok & E).
  apply bind_st_Ok in E as ([] & ? & [HT%assert_true_Ok%Z.eqb_eq <-]%lift_st_Ok & E).
  apply bind_st_Ok in E as ([] & ? & [_ <-]%lift_st_Ok & E).
  eapply tk_processEvent; [exact HR| |exact D2| |exact E]; [lia|]. destruct Hd. by split.
Qed.
Lemma tk_processLoop t rt fuel p a b : p <= t -> preserves (time_ok t) (processLoop rt fuel p a b).
Proof.
  intros Hp. revert a b. induction fuel as [|fuel IH]; intros a b; cbn [processLoop]; [apply pres_panics|].
  destruct (Z.leb_spec (Z.min a b) p) as [Hle|]; [|tk].
  pose proof (tk_processQueued t rt a b (Z.min a b) ltac:(lia)) as HQ. unfold processAlarm. tk.
Qed.

(** ** Advancing the time *)
Lemma st_advanceTime ts v : preserves (fun d => d_store d = v) (advanceTime ts).
Proof.
  assert (forall {A} (m : st (radio_st M) A), preserves (fun d => d_store d = v) (radio m)) as HR.
  { intros A m d a d' Hd E. unfold radio in E. destruct (m _) as [[b r]|]; [|done].
    assert (preserves (fun d => d_store d = v) (_ ← for_each (rs_out r) queue_add; mret b : st (Dispatcher M) A)) as HP.
    { pres. apply hoare_update. intros d1 d2 H12 E12. res_inv. by subst. }
    by eapply HP; [|exact E]. }
  assert (forall fuel, preserves (fun d => d_store d = v) (emptyWindows fuel)) as H3.
  { induction fuel; cbn [emptyWindows]; unfold visSendTimeWindowStats, vis, output; pres.
    all: apply hoare_modify; done. }
  unfold advanceTime, storeEnergy, updateTimeWindowStats, visSendTimeWindowStats, vis, callback, output, assert. pres.
  all: apply hoare_modify; done.
Qed.

Lemma am_next_le am id ts : am_wf am -> am_alarms am !! id = Some ts -> AlarmMgr.NextTimestamp am <= ts.
Proof.
  intros W H. destruct (view (am_q am)) as [|a v] eqn:V.
  - unfold am_alarms in H. by rewrite V in H.
  - destruct (NextTimestamp_view am a v W V) as (-> & _ & _ & Hmin).
    apply alarms_elem in H as [l Hl]; [|apply W]. exact (Hmin _ Hl).
Qed.

Lemma advanceTime_ok t ts d u d' :
  time_ok t d -> ts <= nextTime d -> ts <= Ever -> advanceTime ts d = Ok (u, d') -> time_ok ts d'.
Proof.
  intros Hd Hn He E. pose proof (st_advanceTime ts _ d u d' eq_refl E) as HS.
  pose proof (pn_advanceTime ts _ d u d' eq_refl E) as [= HA HQ _].
  apply advanceTime_timing in E as [Hle [= HT HP]]. destruct Hd as [T1 T2 T3 T4 T5 T6 T7].
  unfold nextTime, nextTimes in Hn. split.
  - done.
  - lia.
  - by rewrite HQ.
  - rewrite HQ. apply Forall_forall. intros e He'. split; [|by eapply Forall_forall in T4 as [_ ?]; [|exact He']].
    pose proof (NextTimestamp_head (R := ts_le) (d_eventQueue d) T3 (fun _ _ H => H) e He'). lia.
  - by rewrite HA.
  - rewrite HA. intros id x Hx. pose proof (am_next_le _ _ _ T5 Hx). lia.
  - rewrite HS. intros l n Hl. destruct (T7 l n Hl) as [? ?]. split; [lia|done].
Qed.

(** ** Node reports *)
Lemma tn_onPingRequest ts dst sz n : tn (onPingRequest ts dst sz n) = tn n.
Proof. unfold onPingRequest. by destruct (_ <? _). Qed.
Lemma tn_onPingReply cur ts dst sz h n : tn (onPingReply cur ts dst sz h n) = tn n.
Proof. unfold onPingReply. destruct (_ <? _); [done|]. by destruct (pingReply_loop _ _ _ _ _ _). Qed.
Lemma tn_onJoinerState s n : tn (onJoinerState s n) = tn n.
Proof. unfold onJoinerState, startNewJoinerSession, closeJoinerSession. repeat (case_match; try done). Qed.
#[local] Hint Extern 1 (hoare _ (mod_node _ (onPingRequest _ _ _)) _) => apply tk_mod_node, tn_onPingRequest : hoare.
#[local] Hint Extern 1 (hoare _ (mod_node _ (onPingReply _ _ _ _ _)) _) => apply tk_mod_node; intros; apply tn_onPingReply : hoare.
#[local] Hint Extern 1 (hoare _ (mod_node _ (onJoinerState _)) _) => apply tk_mod_node, tn_onJoinerState : hoare.
Lemma tk_mod_rloc16Map t f : preserves (time_ok t) (mod_rloc16Map f).
Proof. apply hoare_update. intros d d' [] E. res_inv. subst. by split. Qed.
Lemma tk_mod_energy t f : preserves (time_ok t) (mod_energy f).
Proof. apply hoare_update. intros d d' [] E. res_inv. subst. by split. Qed.
#[local] Hint Resolve tk_mod_rloc16Map tk_mod_energy : hoare.
Lemma tk_onStatusPushExtAddr t l a : preserves (time_ok t) (onStatusPushExtAddr l a).
Proof. unfold onStatusPushExtAddr, onExtAddrChanged. tk. Qed.
#[local] Hint Resolve tk_onStatusPushExtAddr : hoare.
Lemma tk_handleStatus t l k v : preserves (time_ok t) (handleStatus l k v).
Proof.
  unfold handleStatus, topology, setNodeRole, setNodeRloc16, handleCoapEvent, convertNodeMilliTime. tk.
Qed.
#[local] Hint Resolve tk_handleStatus : hoare.
Lemma tk_handleStatusPush t l data : preserves (time_ok t) (handleStatusPush l data).
Proof. unfold handleStatusPush. tk. Qed.
#[local] Hint Resolve tk_handleStatusPush : hoare.

Lemma tk_alarm t d id delay :
  time_ok t d -> 0 <= delay < 2 ^ 63 ->
  preserves (time_ok t) (mod_alarm (SetTimestamp id (u64 (d_CurTime d + (if delay >=? MaxInt32 then Ever else delay))))).
Proof.
  intros Hd Hx. apply tk_SetTimestamp. rewrite (to_cur t d Hd). pose proof (to_range t d Hd) as HR.
  rewrite Ever_value in *. destruct (_ >=? _); rewrite u64_id by (unfold in_u; lia); lia.
Qed.
Lemma tk_handleNodeEvent t l evt :
  ev_Timestamp evt = t -> span_ok evt -> preserves (time_ok t) (handleNodeEvent l evt).
Proof.
  intros He HS. assert (due t evt) as HD by (split; [lia|done]). pose proof HS as [S1 S2].
  pose proof (tk_queue_add t evt HD) as Q1.
  assert (preserves (time_ok t) (queue_add (set_MustDispatch true (Copy evt)))) as Q2 by (by apply tk_queue_add).
  unfold handleNodeEvent. tk. by apply tk_alarm.
Qed.

(** ** Nodes come and go *)
Lemma tk_alarm_op t o :
  preserves (time_ok t) (mod_alarm (AlarmMgr.run_op o)) \/ exists id ts, o = OpSet id ts.
Proof.
  destruct o as [id|id ts|id]; [left|by right; exists id, ts|left]; apply hoare_update; intros d d' [] E; res_inv; subst.
  - match goal with H : AlarmMgr.run_op _ _ = _ |- _ => apply (run_op_Ok (OpAdd id)) in H as (W & HA); [|done] end.
    simpl in HA. destruct (am_alarms _ !! id); [done|]. injection HA as HA. split; simpl; try done.
    rewrite <- HA. intros i y [[<- <-]|[_ ?]]%lookup_insert_Some; [lia|eauto].
  - match goal with H : AlarmMgr.run_op _ _ = _ |- _ => apply (run_op_Ok (OpDel id)) in H as (W & HA); [|done] end.
    simpl in HA. destruct (am_alarms _ !! id); [|done]. injection HA as HA. split; simpl; try done.
    rewrite <- HA. intros i y [_ ?]%lookup_delete_Some. eauto.
Qed.
Lemma tk_am_AddNode t id : preserves (time_ok t) (mod_alarm (AlarmMgr.AddNode id)).
Proof. destruct (tk_alarm_op t (OpAdd id)) as [H|(? & ? & ?)]; done. Qed.
Lemma tk_am_DeleteNode t id : preserves (time_ok t) (mod_alarm (AlarmMgr.DeleteNode id)).
Proof. destruct (tk_alarm_op t (OpDel id)) as [H|(? & ? & ?)]; done. Qed.
Lemma tk_alloc_node t id cfg : preserves (time_ok t) (alloc_node id cfg).
Proof.
  intros d l d' Hd (n & Hn & -> & ->)%alloc_node_Ok. apply newNode_Ok in Hn as (_ & _ & _ & N1 & _ & N2 & _).
  destruct Hd as [T1 T2 T3 T4 T5 T6 T7]. split; try done. simpl.
  intros x y [[<- <-]|[_ ?]]%lookup_insert_Some; [|eauto]. split; [lia|]. rewrite N2. repeat split; simpl; lia || done.
Qed.
#[local] Hint Resolve tk_am_AddNode tk_am_DeleteNode tk_alloc_node : hoare.
Lemma tk_AddNode t id cfg : preserves (time_ok t) (AddNode id cfg).
Proof.
  unfold AddNode, reconstructNodesArray, topology, WatchNode. tk. apply tk_radio_quiet.
  intros s x s' E. by apply law_AddNode in E as [? _].
Qed.
Lemma tk_disable t id : preserves (time_ok t) (modify (fun d => set_d_eventQueue (DisableEventsForNode id (d_eventQueue d)) d)).
Proof.
  apply hoare_modify. intros d [T1 T2 T3 T4 T5 T6 T7]. split; try done; simpl.
  - by apply disable_heap.
  - unfold DisableEventsForNode. apply Forall_map. eapply Forall_impl; [exact T4|]. intros e [? ?].
    unfold due, span_ok, disable_event. by destruct (_ =? _).
Qed.
#[local] Hint Resolve tk_disable : hoare.
Lemma tk_DeleteNode t id : preserves (time_ok t) (DeleteNode id).
Proof.
  unfold DeleteNode, reconstructNodesArray, topology, UnwatchNode. tk. apply tk_radio_quiet.
  intros s x s' E. by apply law_DeleteNode in E as [? _].
Qed.
#[local] Hint Resolve tk_AddNode tk_DeleteNode : hoare.

(** ** Failures set from outside *)
Lemma NonFailTime_small : ft_small NonFailTime.
Proof. repeat split; simpl; lia || done. Qed.
Lemma tk_SetNodeFailed t id b : preserves (time_ok t) (SetNodeFailed id b).
Proof.
  intros d u d' Hd E. unfold SetNodeFailed in E. apply bind_st_Ok in E as (ol & ? & [_ <-]%gets_st_Ok & E).
  apply bind_st_Ok in E as (l & ? & [_ <-]%lift_st_Ok & E). apply bind_st_Ok in E as (n & ? & [Hn ->]%get_node_Ok & E).
  apply bind_st_Ok in E as ([n' vs] & ? & [ES <-]%lift_st_Ok & E).
  destruct (to_nodes t d Hd l n Hn) as [H1 H2]. pose proof (to_range t d Hd) as HR.
  assert (node_ok t n') as Hn'.
  { unfold switch_radio in ES. apply bind_Ok in ES as ([n1 v1] & E1 & ES).
    apply SetFailTime_time in E1 as [F1 F2]; [|apply NonFailTime_small|lia|done].
    assert (node_ok t n1) as K by (split; [lia|done]). unfold Fail, Recover in ES.
    destruct b, (n_isFailed n1); injection ES as <- _; exact K. }
  refine (hoare_run (time_ok t) _ _ _ _ E Hd _). tk. by apply tk_put_node.
Qed.
Lemma tk_SetFailTime t l ft : ft_small ft -> preserves (time_ok t) (SetFailTime l ft).
Proof.
  intros HF d u d' Hd E. unfold SetFailTime in E. apply bind_st_Ok in E as (n & ? & [Hn ->]%get_node_Ok & E).
  apply bind_st_Ok in E as (? & ? & [<- <-]%get_st_Ok & E).
  apply bind_st_Ok in E as ([n' vs] & ? & [ES <-]%lift_st_Ok & E).
  destruct (to_nodes t d Hd l n Hn) as [H1 H2]. pose proof (to_range t d Hd) as HR.
  apply SetFailTime_time in ES as [F1 F2]; [|done|lia|by apply draw_range].
  refine (hoare_run (time_ok t) _ _ _ _ E Hd _). tk. apply tk_put_node. split; [lia|done].
Qed.
#[local] Hint Resolve tk_SetNodeFailed tk_SetFailTime : hoare.

(** ** Everything the dispatcher does at one time *)
Definition sane_task (x : Task) : Prop :=
  match x with
  | TaskRecvEvents evts => Forall span_ok evts
  | TaskSetFailTime _ ft => ft_small ft
  | _ => True
  end.

Section handler.
Variable OnNewNodeDetected : NodeId -> st (Dispatcher M) bool.
(** The simulation's callback adds a node, at the present time. *)
Hypothesis OnNewNodeDetected_ok : forall t id, preserves (time_ok t) (OnNewNodeDetected id).

Lemma tk_HandleEvent t evt : span_ok evt -> preserves (time_ok t) (HandleEvent OnNewNodeDetected evt).
Proof.
  intros HS. unfold HandleEvent, findNode. tk.
  all: apply tk_handleNodeEvent; [by eapply to_cur|done].
Qed.
Lemma tk_RecvEvents t evts : Forall span_ok evts -> preserves (time_ok t) (RecvEvents OnNewNodeDetected evts).
Proof. intros HF. unfold RecvEvents. tk. apply tk_HandleEvent. by eapply Forall_forall in HF. Qed.
#[local] Hint Resolve tk_HandleEvent tk_RecvEvents : hoare.
Lemma tk_syncAliveNodes t : preserves (time_ok t) syncAliveNodes.
Proof. unfold syncAliveNodes. tk. Qed.
Lemma tk_syncAllNodes t evts : Forall span_ok evts -> preserves (time_ok t) (syncAllNodes OnNewNodeDetected evts).
Proof. intros HF. unfold syncAllNodes. tk. Qed.
Lemma tk_CollectPings t l : preserves (time_ok t) (CollectPings l).
Proof. unfold CollectPings. tk_step. cbn [DNode.CollectPings]. tk. by apply tk_put_node. Qed.
Lemma tk_CollectJoins t l : preserves (time_ok t) (CollectJoins l).
Proof. unfold CollectJoins. tk_step. cbn [DNode.CollectJoins]. tk. by apply tk_put_node. Qed.
Lemma tk_SetNodePos t id x y z : preserves (time_ok t) (SetNodePos id x y z).
Proof.
  unfold SetNodePos. tk. apply tk_radio_quiet. intros s [] s' E. unfold mod_rn, get_rn, put_rn in E. st_inv. by subst.
Qed.
#[local] Hint Resolve tk_CollectPings tk_CollectJoins tk_SetNodePos : hoare.
Lemma tk_ReplaceRadioModel t name seed : preserves (time_ok t) (ReplaceRadioModel name seed).
Proof.
  unfold ReplaceRadioModel, SetRadioModel, radio_nodes. tk. apply tk_radio_quiet. intros s [] s' E. by apply transfer_quiet in E as [? _].
Qed.
Lemma tk_modify_params t p b : preserves (time_ok t) (radio (modify_params p b)).
Proof. apply tk_radio_quiet. intros s [] s' E. by apply modify_params_quiet in E as [? _]. Qed.
#[local] Hint Resolve tk_ReplaceRadioModel tk_modify_params : hoare.
Lemma tk_run_task t x : sane_task x -> preserves (time_ok t) (run_task OnNewNodeDetected x).
Proof.
  intros HS. destruct x; simpl in HS; cbn [run_task]; tk.
  all: unfold NotifyCommand, SendToVirtualUART, SendRfSimEvent, CollectCoapMessages, EnableCoaps,
    WatchNode, UnwatchNode, SetEnergyAnalyser, SetVisualizationOptions, SetGlobalPacketLossRatio; tk.
  apply tk_modify. intros d. by destruct (d_coaps d).
Qed.

(** ** The simulation *)
Hypothesis OnNewNodeDetected_timeless : forall id P, timely P -> preserves P (OnNewNodeDetected id).

(** The present is [d_CurTime d]; the pause is not after the end of time. *)
Definition clock_ok d : Prop := time_ok (d_CurTime d) d /\ d_pauseTime d <= Ever.
Lemma ck_timeless {A} (m : st (Dispatcher M) A) :
  (forall t, preserves (time_ok t) m) -> (forall P, timely P -> preserves P m) -> preserves clock_ok m.
Proof.
  intros H1 H2 d a d' [Hd Hp] E. apply (timeless_from m d a d' H2) in E as HT. injection HT as T1 T2.
  split; [|lia]. rewrite T1. by eapply H1.
Qed.
Lemma ck_advanceTime ts d u d' :
  clock_ok d -> ts <= nextTime d -> ts <= Ever -> advanceTime ts d = Ok (u, d') -> clock_ok d'.
Proof.
  intros [Hd Hp] Hn He E. pose proof (advanceTime_timing _ _ _ _ E) as [_ [= T1 T2]].
  split; [|lia]. rewrite T1. by eapply advanceTime_ok.
Qed.
Lemma ck_processLoop rt fuel a b d v d' :
  clock_ok d -> processLoop rt fuel (d_CurTime d) a b d = Ok (v, d') -> clock_ok d'.
Proof.
  intros [Hd Hp] E. pose proof (timeless_from _ _ _ _ (tl_processLoop rt fuel (d_CurTime d) a b) E) as [= T1 T2].
  split; [|lia]. rewrite T1. eapply tk_processLoop; [|exact Hd|exact E]. lia.
Qed.
Lemma ck_processNextEvents fuel speed : preserves clock_ok (processNextEvents fuel speed).
Proof.
  intros d g d' Hd E. unfold processNextEvents in E. apply bind_st_Ok in E as (? & ? & [<- <-]%get_st_Ok & E).
  apply bind_st_Ok in E as ([] & ? & [_ <-]%lift_st_Ok & E). apply bind_st_Ok in E as ([] & ? & [_ <-]%lift_st_Ok & E).
  destruct (nextTimes d) as [a b] eqn:Hn.
  assert (nextTime d = Z.min a b) as HN by (unfold nextTime; by rewrite Hn). pose proof (proj2 Hd) as Hp.
  apply bind_st_Ok in E as ([] & ? & [_ <-]%lift_st_Ok & E).
  apply bind_st_Ok in E as (t & d0 & E0 & E). pose proof (sleepUntil_same _ _ _ _ _ E0) as [[= T0 P0] HP0].
  rewrite <- (nextTime_pending d d0 HP0) in HN. rewrite <- P0 in *.
  assert (clock_ok d0) as Hd0.
  { refine (hoare_run clock_ok _ _ _ _ E0 Hd _). apply ck_timeless; [intros; pres|apply tl_sleepUntil]. }
  clear Hd E0. rename Hd0 into Hd.
  destruct (((t <? _) && _) || ((t <? _) && _)) eqn:Hw.
  - apply bind_st_Ok in E as ([] & d1 & E1 & E). apply ret_st_Ok in E as [_ <-].
    assert (t <= nextTime d0 /\ t <= Ever) as [? ?].
    { apply orb_true_iff in Hw as [[? ?]%andb_true_iff|[? ?]%andb_true_iff]; lia. }
    by eapply ck_advanceTime.
  - destruct (Z.min a b >? d_pauseTime d0) eqn:Hg; [by apply ret_st_Ok in E as [_ <-]|].
    apply bind_st_Ok in E as ([] & d1 & E1 & E). apply bind_st_Ok in E as (v & d2 & E2 & E).
    apply ret_st_Ok in E as [_ <-]. pose proof (advanceTime_timing _ _ _ _ E1) as [_ [= T1 T2]]. rewrite <- T1 in E2.
    eapply ck_processLoop; [|exact E2]. eapply ck_advanceTime; [exact Hd| | |exact E1]; lia.
Qed.

(** What a turn of the loop finds is within bounds. *)
Definition sane_turn (x : Turn) : Prop := Forall span_ok (tn_events x) /\ Forall sane_task (tn_tasks x).
Lemma ck_handleTasks xs : Forall sane_task xs -> preserves clock_ok (handleTasks OnNewNodeDetected xs).
Proof.
  intros HF. apply pres_for_each. intros x Hx. eapply Forall_forall in HF; [|exact Hx].
  apply ck_timeless; [intros; by apply tk_run_task|by apply tl_run_task].
Qed.
Lemma ck_RecvEvents evts : Forall span_ok evts -> preserves clock_ok (RecvEvents OnNewNodeDetected evts).
Proof. intros HF. apply ck_timeless; [intros; by apply tk_RecvEvents|by apply tl_RecvEvents]. Qed.
Lemma ck_simulateTurn fuel x : sane_turn x -> preserves clock_ok (simulateTurn OnNewNodeDetected fuel x).
Proof.
  intros [S1 S2] d g d' Hd E. unfold simulateTurn in E.
  apply bind_st_Ok in E as ([] & d1 & E1 & E). apply ck_RecvEvents in E1; [|done..].
  apply bind_st_Ok in E as ([] & d2 & E2 & E).
  apply (ck_timeless _ tk_syncAliveNodes tl_syncAliveNodes) in E2; [|done].
  apply bind_st_Ok in E as ([] & d3 & E3 & E). apply ck_handleTasks in E3; [|done..].
  apply bind_st_Ok in E as (? & ? & [<- <-]%get_st_Ok & E).
  destruct (bool_decide (d_aliveNodes d3 = ∅)); [|by apply ret_st_Ok in E as [_ <-]].
  apply bind_st_Ok in E as (b & d4 & E4 & E). pose proof (processNextEvents_time _ _ _ _ _ E4) as (T1 & T2 & T3).
  apply ck_processNextEvents in E4; [|done].
  apply bind_st_Ok in E as (? & ? & [<- <-]%get_st_Ok & E). apply bind_st_Ok in E as ([] & ? & [_ <-]%lift_st_Ok & E).
  destruct (negb b && _) eqn:Hg; [|by apply ret_st_Ok in E as [_ <-]].
  apply andb_true_iff in Hg as [->%negb_true_iff _]. specialize (T3 eq_refl).
  apply bind_st_Ok in E as ([] & d5 & E5 & E). apply ret_st_Ok in E as [_ <-].
  eapply ck_advanceTime; [exact E4| | |exact E5]; [lia|apply E4].
Qed.
Lemma ck_simulateLoop fuel xs : Forall sane_turn xs -> preserves clock_ok (simulateLoop OnNewNodeDetected fuel xs).
Proof.
  induction 1 as [|x xs Hx _ IH]; cbn [simulateLoop]; pres. by apply ck_simulateTurn.
Qed.
Lemma ck_goSimulate fuel dur speed xs :
  Forall sane_turn xs -> preserves clock_ok (goSimulateForDuration OnNewNodeDetected fuel dur speed xs).
Proof.
  intros HF. unfold goSimulateForDuration, goBegin, goEnd. pose proof (ck_simulateLoop fuel xs HF).
  assert (forall f, preserves clock_ok (SetSpeed f)).
  { intros f. apply ck_timeless; [intros; pres|apply tl_SetSpeed]. }
  assert (preserves clock_ok syncSpeedStart) by (apply ck_timeless; [intros; pres|apply tl_syncSpeedStart]). pres.
  - apply hoare_modify. intros d [Hd Hp]. split; [by destruct Hd|]. simpl. unfold pause_after.
    destruct (Z.gtb_spec (u64 (d_CurTime d + dur)) Ever); lia.
  - apply hoare_modify. intros d [Hd Hp]. destruct (Z.gtb_spec (d_pauseTime d) (d_CurTime d)); [|by split].
    split; [by destruct Hd|]. simpl. lia.
Qed.
Lemma ck_realtime fuel sim d v d' :
  clock_ok d -> 0 <= sim <= Ever - RealtimeMaxMoveAheadUs ->
  processNextEventsRealtime fuel sim d = Ok (v, d') -> clock_ok d'.
Proof.
  intros Hd Hs E. unfold processNextEventsRealtime in E. apply bind_st_Ok in E as (? & ? & [<- <-]%get_st_Ok & E).
  destruct (nextTimes d) as [a b] eqn:Hn.
  assert (nextTime d = Z.min a b) as HN by (unfold nextTime; by rewrite Hn).
  apply bind_st_Ok in E as ([] & ? & [HG%assert_true_Ok <-]%lift_st_Ok & E).
  unfold RealtimeMaxMoveAheadUs in *. pose proof Ever_value. rewrite u64_id in E by (unfold in_u; lia).
  destruct (Z.gtb_spec (Z.min a b) (sim + 100)).
  - apply bind_st_Ok in E as ([] & d1 & E1 & E). apply ret_st_Ok in E as [_ <-].
    eapply ck_advanceTime; [exact Hd| | |exact E1]; lia.
  - apply bind_st_Ok in E as ([] & d1 & E1%when_Ok & E).
    destruct (Z.gtb_spec (Z.min a b) (d_CurTime d)).
    + pose proof (advanceTime_timing _ _ _ _ E1) as [_ [= T1 T2]]. rewrite <- T1 in E.
      eapply ck_processLoop; [|exact E]. eapply ck_advanceTime; [exact Hd| | |exact E1]; lia.
    + subst d1. replace (Z.min a b) with (d_CurTime d) in E by lia. by eapply ck_processLoop.
Qed.

(** The time that the loop in real time aims at; a duration is at most 292 years. *)
Lemma time_Sub_range t u : u <= t -> 0 <= Z.quot (time_Sub t u) Microsecond <= 2 ^ 53 + 2 ^ 52.
Proof.
  intros H. unfold time_Sub, Microsecond. rewrite Z.quot_div_nonneg by lia. split; [apply Z.div_pos; lia|].
  apply Z.div_le_upper_bound; lia.
Qed.
Lemma ck_realtimeTarget d sim d' :
  clock_ok d -> wall_ok d -> d_CurTime d <= Ever - RealtimeMaxMoveAheadUs ->
  realtimeTarget d = Ok (sim, d') -> clock_ok d' /\ 0 <= sim <= Ever - RealtimeMaxMoveAheadUs.
Proof.
  intros Hd [Hw _] Hc E. unfold realtimeTarget in E. apply bind_st_Ok in E as (? & ? & [<- <-]%get_st_Ok & E).
  unfold RealtimeMaxMoveAheadUs in *. pose proof Ever_value. pose proof (to_range _ _ (proj1 Hd)) as HR.
  destruct (negb _); [apply ret_st_Ok in E as [<- <-]; split; [done|lia]|].
  apply bind_st_Ok in E as (since & d1 & E1 & E). apply ret_st_Ok in E as [<- <-]. split.
  - refine (hoare_run clock_ok _ _ _ _ E1 Hd _). apply ck_timeless; [intros; pres|apply tl_time_Since].
  - unfold time_Since in E1. apply bind_st_Ok in E1 as (now & d2 & (t & Ht & -> & ->)%time_Now_run & E1).
    apply ret_st_Ok in E1 as [<- _].
    pose proof (time_Sub_range (d_now d + t) (d_speedStartRealTime d) ltac:(lia)) as HS.
    rewrite u64_id by (unfold in_u; lia). destruct (Z.ltb_spec (Z.quot (time_Sub (d_now d + t) (d_speedStartRealTime d)) Microsecond) (d_CurTime d)); lia.
Qed.

(** The requests that are within bounds: delays and failure times are below half of the
    range of their types, and the real-time clock is not at the end of time. *)
Definition sane_request (r : Request) d : Prop :=
  match r with
  | ReqEvent evt => span_ok evt
  | ReqTask x => sane_task x
  | ReqGo _ _ _ turns evts => Forall sane_turn turns /\ Forall span_ok evts
  | ReqRealtime _ => d_CurTime d <= Ever - RealtimeMaxMoveAheadUs
  end.
Lemma ck_serve r d u d' :
  clock_ok d -> wall_ok d -> sane_request r d -> serve OnNewNodeDetected r d = Ok (u, d') -> clock_ok d'.
Proof.
  intros Hd HW HS E. destruct r as [evt|x|fuel dur speed turns evts|fuel]; cbn [serve sane_request] in *.
  - refine (ck_RecvEvents [evt] _ d u d' Hd _); [by constructor|]. unfold RecvEvents. cbn [for_each].
    unfold mbind, st_bind. rewrite E. by destruct u.
  - eapply (ck_handleTasks [x]); [by constructor|exact Hd|]. unfold handleTasks. cbn [for_each].
    unfold mbind, st_bind. rewrite E. by destruct u.
  - destruct HS as [H1 H2]. refine (hoare_run clock_ok _ _ _ _ E Hd _). unfold runGo.
    pose proof (ck_goSimulate fuel dur speed turns H1).
    assert (preserves clock_ok (syncAllNodes OnNewNodeDetected evts)).
    { apply ck_timeless; [intros; by apply tk_syncAllNodes|by apply tl_syncAllNodes]. }
    assert (forall b, preserves clock_ok (assert b)) by (intros; apply pres_lift). pres.
  - apply bind_st_Ok in E as (v & d1 & E & [_ <-]%ret_st_Ok). unfold realtimeTurn in E.
    apply bind_st_Ok in E as (sim & d2 & E2 & E). apply (ck_realtimeTarget _ _ _ Hd HW HS) in E2 as [Hd2 Hs].
    apply bind_st_Ok in E as (? & ? & [<- <-]%get_st_Ok & E). apply bind_st_Ok in E as (n & d3 & E3 & [_ <-]%ret_st_Ok).
    destruct (bool_decide _); [|by apply ret_st_Ok in E3 as [_ <-]]. by eapply ck_realtime.
Qed.

(** The states reached by requests within bounds. *)
Inductive sane_reachable (cfg : Config) (model : M) (rnd : nat) : Dispatcher M -> Prop :=
| sane_new d : NewDispatcher cfg model rnd = Ok d -> sane_reachable cfg model rnd d
| sane_serve r d d' :
    sane_reachable cfg model rnd d -> sane_request r d -> serve OnNewNodeDetected r d = Ok (tt, d') ->
    sane_reachable cfg model rnd d'.

Lemma ck_NewDispatcher cfg model rnd d : NewDispatcher cfg model rnd = Ok d -> clock_ok d.
Proof.
  unfold NewDispatcher. intros E. apply bind_Ok in E as (? & _ & E). apply bind_Ok in E as (q & Eq & E). apply bind_Ok in E as (am & Ea & E).
  injection Eq as <-. destruct newAlarmMgr_wf as (am' & E' & W & Hal). rewrite Ea in E'. injection E' as <-.
  injection E as <-. split; [|done]. split; simpl; try done.
  intros id ts. by rewrite Hal.
Qed.
Lemma sane_reachable_clock cfg model rnd d : sane_reachable cfg model rnd d -> clock_ok d /\ wall_ok d.
Proof.
  induction 1 as [d E|r d d' _ [IH IW] HS E].
  - split; [by eapply ck_NewDispatcher|by eapply wall_NewDispatcher].
  - split; [by eapply ck_serve|]. by refine (hoare_run wall_ok _ _ _ _ E IW (wall_serve _ _ _)).
Qed.
Lemma alarm_next_ge t am :
  am_wf am -> t <= Ever -> (forall id ts, am_alarms am !! id = Some ts -> t <= ts) -> t <= AlarmMgr.NextTimestamp am.
Proof.
  intros W He H. destruct (view (am_q am)) as [|[l [id ts]] v] eqn:V.
  - unfold AlarmMgr.NextTimestamp. destruct (aq (am_q am)) eqn:Q; [done|]. unfold view in V. by rewrite Q in V.
  - destruct (NextTimestamp_view am _ v W V) as (-> & _ & _ & _). apply (H id).
    apply alarms_elem; [apply W|]. exists l. rewrite V. by left.
Qed.
Lemma clock_nextTime d : clock_ok d -> d_CurTime d <= nextTime d.
Proof.
  intros [[_ HR _ HQ W HA _] _]. unfold nextTime, nextTimes. apply Z.min_glb; [apply alarm_next_ge; [done|lia|done]|].
  destruct (d_eventQueue d) as [|e q]; [apply HR|]. by apply Forall_cons in HQ as [[? _] _].
Qed.

(** C19: Nothing is ever scheduled in the past.  In every state that is reached by requests
    within bounds, the events in the queue and the alarms are due now or later, no node's
    clock is ahead of the simulation, and so the time assertion that opens every step of
    the simulation holds. *)
Theorem reachable_causal cfg model rnd d :
  sane_reachable cfg model rnd d ->
  Forall (fun e => d_CurTime d <= ev_Timestamp e) (d_eventQueue d) /\
  (forall id ts, am_alarms (d_alarmMgr d) !! id = Some ts -> d_CurTime d <= ts) /\
  (forall l n, d_store d !! l = Some n -> n_CurTime n <= d_CurTime d) /\
  d_CurTime d <= nextTime d /\ d_CurTime d <= Ever.
Proof.
  intros [HR _]%sane_reachable_clock. pose proof (clock_nextTime d HR). destruct HR as [[_ T2 _ T4 _ T6 T7] _].
  split; [eapply Forall_impl; [exact T4|by intros e [? _]]|]. split; [exact T6|].
  split; [by intros l n [[? ?] _]%T7|]. split; [done|lia].
Qed.
End handler.
End clock.

(** ** An example: the period of an alarm *)
Lemma ex_disp_env_ok : DispEnvOk ex_disp_env.
Proof. split. intros k m Hm. simpl. lia. Qed.
#[local] Existing Instance ex_disp_env_ok.
#[local] Existing Instance ex_env.
Lemma ex_accept_ok t id : preserves (time_ok t) (ex_accept id).
Proof.
  unfold ex_accept. apply pres_bind; [apply tk_AddNode|]. intros l.
  apply pres_bind; [apply tk_mod_node; by intros []|intros; apply pres_ret].
Qed.

Definition ex_period : list Request := ex_setup ++ [ReqGo 20 1000 MaxSimulateSpeed ex_turns [ex_alarm 1100 2]].
Abbreviation ex_sane :=
  (sane_reachable (env := ex_disp_env) (RadioModel0 := @ideal_model ex_env) ex_accept ex_config ex_model 0).
Lemma serve_all_sane rs d u d' :
  Forall (fun r => forall d, sane_request (M := Ideal.RadioModelIdeal) r d) rs -> ex_sane d ->
  serve_all rs d = Ok (u, d') -> ex_sane d'.
Proof.
  intros HF. revert d. induction HF as [|r rs Hr _ IH]; intros d H E; cbn [serve_all] in E;
    [by apply ret_st_Ok in E as [_ <-]|].
  apply bind_st_Ok in E as ([] & d1 & E1 & E). eapply IH; [|exact E]. by eapply sane_serve.
Qed.
Lemma ex_period_sane : Forall (fun r => forall d, sane_request (M := Ideal.RadioModelIdeal) r d) ex_period.
Proof.
  unfold ex_period, ex_setup, ex_turns. cbn [app].
  repeat first [apply Forall_nil_2|apply Forall_cons_2|intros ?|split]; try done.
  all: split; simpl; lia.
Qed.
Definition ex_period_end : res (Z * list Z) :=
  d ← ex_start; r ← serve_all ex_period d;
  Ok (d_CurTime (snd r), map snd (map_to_list (am_alarms (d_alarmMgr (snd r))))).

Lemma reachable_causal_witness :
  ex_period_end = Ok (1000, [2100]) /\ exists d, ex_sane d /\ d_CurTime d <= nextTime d.
Proof.
  assert (ex_period_end = Ok (1000, [2100])) as H by (vm_compute; reflexivity). split; [exact H|].
  unfold ex_period_end in H. destruct ex_start as [d0|] eqn:E0; [|discriminate]. cbn [mbind res_bind] in H.
  destruct (serve_all ex_period d0) as [[u d]|] eqn:E; [|discriminate]. clear H.
  assert (ex_sane d) as H.
  { eapply serve_all_sane; [exact ex_period_sane| |exact E]. by apply sane_new. }
  exists d. split; [exact H|].
  apply (reachable_causal (env := ex_disp_env) ex_accept ex_accept_ok ex_accept_timeless ex_config ex_model 0 d H).
Defined.
