(* ===== verification/DispatcherPace.v ===== *)
(** * The pace of the simulation

    While a period is simulated the dispatcher sleeps, and then asks the wall clock how far the
    simulation should be: the start of the period, or of the present speed, plus the time that
    passed since then times the speed, computed in floating point.  Shown here: the simulation
    is never ahead of this time until the period ends, so it is never asked to go back, whatever
    tasks change the speed meanwhile.  At its end a period may be cut short: when the last event
    leaves all nodes asleep, the rest is skipped without waiting ([period_cut_short]). *)

From S2P Require Import Prelude State Types Event GoFloat FloatMono GoStrings.
From S2P Require Import SendQueue AlarmMgr Wpan Visualize DNode Rloc16Map Coaps Energy RadioNode RadioModel.
From S2P Require Import RadioLaws Dispatcher DispatcherIndex DispatcherTime DispatcherClock.

Local Open Scope Z_scope.

(** ** Speeds *)
Lemma leb_zero f : PrimFloat.leb 0 f = true -> nonneg (Prim2SF f) \/ Prim2SF f = S754_infinity false.
Proof.
  rewrite leb_spec. change (Prim2SF 0) with (S754_zero false). unfold SFleb.
  destruct (Prim2SF f) as [b|[]| |[] m e]; cbn; auto; discriminate.
Qed.
Lemma below_max f : PrimFloat.leb 0 f = true -> PrimFloat.leb MaxSimulateSpeed f = false -> speed_ok f.
Proof.
  intros [N|E]%leb_zero H; rewrite leb_spec in H;
    change (Prim2SF MaxSimulateSpeed) with (S754_finite false (Z.to_pos (1000000 * 2 ^ 33)) (-33)) in H; [|by rewrite E in H].
  split; [done|]. destruct (Prim2SF f) as [b| | |[] m e] eqn:E; try done. cbn [sval].
  assert (Z.pos m < 2 ^ 53) as Hm by (apply (valid_mantissa false m e); rewrite <- E; apply Prim2SF_valid).
  pose proof (finite_valid f m e E) as He. unfold SFleb, SFcompare in H.
  destruct (Z.compare_spec (-33) e) as [H'|H'|H']; try discriminate H.
  - rewrite <- H'. replace (20 + 1074) with (53 + (-33 + 1074)) by lia. rewrite (Z.pow_add_r 2 53) by lia.
    apply Z.mul_le_mono_nonneg_r; [apply Z.pow_nonneg|]; lia.
  - transitivity (2 ^ 53 * 2 ^ (e + 1074)); [apply Z.mul_le_mono_nonneg_r; [apply Z.pow_nonneg|]; lia|].
    rewrite <- Z.pow_add_r by lia. apply Z.pow_le_mono_r; lia.
Qed.
(** A speed in the range is a number between 0 and the maximum, or not a number at all. *)
Lemma normalizeSpeed_ok f : PrimFloat.leb 0 (normalizeSpeed f) = true -> speed_ok (normalizeSpeed f).
Proof.
  unfold normalizeSpeed. destruct (PrimFloat.leb f 0) eqn:E1; [intros _; split; [done|vm_compute; congruence]|].
  destruct (PrimFloat.leb MaxSimulateSpeed f) eqn:E2; [intros _; split; [done|vm_compute; congruence]|].
  intros H. by apply below_max.
Qed.

Section pace.
Context {env : DispEnv} {env_ok : DispEnvOk env} {M : Type} `{!RadioModel M} `{!RadioModelLaws M}.
Implicit Types d : Dispatcher M.

(** ** The time that the clock asks for *)
Definition clockTarget d : Z :=
  simTimeAt (d_speed d) (d_speedStartTime d) (time_Sub (d_now d) (d_speedStartRealTime d)).
(** The program has run for less than 50 days. *)
Definition young d : Prop := d_now d <= 2 ^ 42 * Microsecond.

Lemma simTimeAt_mono speed start t u : speed_ok speed -> 0 <= start <= Ever -> 0 <= t <= u -> u <= 2 ^ 42 * Microsecond ->
  start <= simTimeAt speed start t <= simTimeAt speed start u.
Proof.
  intros S Hs Ht Hu. unfold simTimeAt, Microsecond in *.
  assert (0 <= Z.quot t 1000 <= Z.quot u 1000) by (split; [apply Z.quot_pos; lia|apply Z.quot_le_mono; lia]).
  assert (Z.quot u 1000 <= 2 ^ 42) by (rewrite Z.quot_div_nonneg by lia; apply Z.div_le_upper_bound; lia).
  destruct (scale_mono speed (Z.quot t 1000) (Z.quot u 1000) S) as [H1 H2]; [done..|].
  pose proof Ever_value. rewrite !u64_id by (unfold in_u; lia). lia.
Qed.
Lemma time_Sub_small t u : 0 <= u <= t -> t <= 2 ^ 42 * Microsecond -> time_Sub t u = t - u.
Proof. unfold time_Sub, Microsecond. lia. Qed.

(** ** The invariant of a period *)
Record paced d : Prop := {
  pc_wall : wall_ok d;
  pc_start : 0 <= d_speedStartTime d <= d_CurTime d;
  pc_end : d_CurTime d <= Ever /\ d_pauseTime d <= Ever;
  pc_ahead : young d -> PrimFloat.leb 0 (d_speed d) = true -> d_CurTime d <= clockTarget d;
}.
(** The clock only moves the target forward. *)
Lemma clockTarget_later d t n : wall_ok d -> 0 <= d_speedStartTime d <= Ever -> 0 <= t ->
  let d' := set_d_now (d_now d + t) (set_d_reads n d) in
  young d' -> PrimFloat.leb 0 (d_speed d) = true -> d_speedStartTime d <= clockTarget d <= clockTarget d'.
Proof.
  intros [HW [f Hf]] Hs Ht d' HY HS. unfold young in HY. subst d'. unfold clockTarget. simpl in *.
  rewrite !time_Sub_small by lia. apply simTimeAt_mono; [rewrite Hf in *; by apply normalizeSpeed_ok|done|lia|lia].
Qed.
(** At the start of a speed. *)
Lemma clockTarget_start d : wall_ok d -> d_speedStartRealTime d = d_now d -> 0 <= d_speedStartTime d <= Ever ->
  young d -> PrimFloat.leb 0 (d_speed d) = true -> d_speedStartTime d <= clockTarget d.
Proof.
  intros [HW [f Hf]] HR Hs HY HS. unfold clockTarget, young in *. rewrite time_Sub_small by lia.
  eapply simTimeAt_mono; [rewrite Hf in *; by apply normalizeSpeed_ok|done| |exact HY]; lia.
Qed.
Lemma paced_timely : timely paced.
Proof.
  destruct (wall_lasting (M := M)) as [W1 W2 [W3 W4]]. split.
  - intros d d' [= T1 T2] HP [H1 H2 H3 H4]. pose proof HP as [= P1 P2 P3 P4].
    split; [by eapply W1|by rewrite T1, P2|by rewrite T1, T2|]. unfold young, clockTarget. by rewrite T1, P1, P2, P3, P4.
  - intros d t n Ht [H1 H2 H3 H4]. split; [by apply W2|done|done|]. intros HY HS. simpl in HS |- *.
    pose proof (clockTarget_later d t n H1 ltac:(lia) Ht HY HS) as [_ HT]. etransitivity; [|exact HT].
    apply H4; [|done]. unfold young in *. simpl in HY. lia.
  - split.
    + intros d [H1 H2 H3 H4]. split; [by apply W3|simpl; lia|done|]. intros HY HS.
      apply (clockTarget_start (set_d_speedStartRealTime (d_now d) (set_d_speedStartTime (d_CurTime d) d)));
        [by apply W3|done|simpl; lia|done|done].
    + intros d f [H1 H2 H3 H4] E1 E2. split; [by apply W4|done|done|]. intros HY HS. simpl. rewrite <- E2.
      apply (clockTarget_start (set_d_speed (normalizeSpeed f) d)); [by apply W4|done|simpl; lia|done|done].
Qed.

(** ** Advancing the time *)
Lemma pace_radio {A} (m : st (radio_st M) A) d a d' : radio m d = Ok (a, d') -> pace d' = pace d.
Proof.
  intros E. unfold radio in E. destruct (m _) as [[b r]|]; [|done].
  refine (hoare_run (fun x => pace x = pace d) _ _ _ _ E eq_refl _).
  apply pres_bind; [|intros; apply pres_ret]. apply pres_for_each. intros e _.
  apply hoare_update. intros x x' Hx E'. res_inv. by subst.
Qed.
Lemma paced_advanceTime ts d u d' : paced d -> ts <= Ever ->
  (young d -> PrimFloat.leb 0 (d_speed d) = true -> ts <= clockTarget d) -> advanceTime ts d = Ok (u, d') -> paced d'.
Proof.
  intros Hd He Ht E. unfold advanceTime in E. apply bind_st_Ok in E as (? & ? & [<- <-]%get_st_Ok & E).
  apply bind_st_Ok in E as ([] & ? & [H%assert_true_Ok%Z.leb_le <-]%lift_st_Ok & E).
  destruct (d_CurTime d =? ts); [by apply ret_st_Ok in E as [_ <-]|].
  apply bind_st_Ok in E as ([] & d1 & E1 & E). pose proof (pace_radio _ _ _ _ E1) as HP.
  apply (timeless_from _ _ _ _ (tl_radio (rm_OnNextEventTime ts))) in E1 as [= T1 T2].
  apply bind_st_Ok in E as ([] & d2 & <-%modify_st_Ok & E). apply bind_st_Ok in E as ([] & d3 & <-%modify_st_Ok & E).
  refine (hoare_run paced _ _ _ _ E _ _).
  - pose proof HP as [= P1 P2 P3 P4]. destruct Hd as [H1 H2 H3 H4]. split; simpl.
    + by eapply (la_pace _ wall_lasting d).
    + lia.
    + lia.
    + unfold young, clockTarget in *. simpl. by rewrite P1, P2, P3, P4.
  - pose proof paced_timely as HT. pose proof HT as [_ HC _].
    apply pres_bind; [by apply pres_measuredSpeed|intros speed]. apply pres_bind; [by apply tl_vis|intros _].
    apply pres_bind; [by apply tl_storeEnergy|intros _]. by apply pres_when, tl_updateTimeWindowStats.
Qed.

(** ** One step *)
Lemma sleepUntil_target speed x d t d' : sleepUntil speed x d = Ok (t, d') ->
  t = simTimeAt speed (d_speedStartTime d') (time_Sub (d_now d') (d_speedStartRealTime d')) /\ d_speed d' = d_speed d.
Proof.
  unfold sleepUntil, time_Since, time_Now, time_Sleep, get, modify, mbind, st_bind, mret, st_ret. by intros [= <- <-].
Qed.
Lemma paced_processNextEvents fuel d goon d' : paced d -> processNextEvents fuel (d_speed d) d = Ok (goon, d') -> paced d'.
Proof.
  intros Hd E. unfold processNextEvents in E. apply bind_st_Ok in E as (? & ? & [<- <-]%get_st_Ok & E).
  apply bind_st_Ok in E as ([] & ? & [_ <-]%lift_st_Ok & E). apply bind_st_Ok in E as ([] & ? & [_ <-]%lift_st_Ok & E).
  destruct (nextTimes d) as [a b]. apply bind_st_Ok in E as ([] & ? & [_ <-]%lift_st_Ok & E).
  apply bind_st_Ok in E as (t & d0 & E0 & E). pose proof (sleepUntil_same _ _ _ _ _ E0) as [[= T1 T2] _].
  pose proof (sleepUntil_target _ _ _ _ _ E0) as [Ht HS]. rewrite <- HS in Ht. change (t = clockTarget d0) in Ht.
  apply (tl_sleepUntil _ _ paced paced_timely _ _ _ Hd) in E0. pose proof (pc_end d0 E0) as [_ Hp].
  destruct (((t <? _) && _) || ((t <? _) && _)) eqn:Hw.
  - apply bind_st_Ok in E as ([] & d1 & E1 & E). apply ret_st_Ok in E as [_ <-].
    apply (paced_advanceTime t d0 tt); [exact E0| |intros _ _; lia|exact E1].
    apply orb_true_iff in Hw as [[? ?]%andb_true_iff|[? ?]%andb_true_iff]; lia.
  - destruct (Z.min a b >? d_pauseTime d) eqn:Hg; [by apply ret_st_Ok in E as [_ <-]|].
    apply bind_st_Ok in E as ([] & d1 & E1 & E). apply bind_st_Ok in E as (v & d2 & E2 & E).
    apply ret_st_Ok in E as [_ <-]. refine (hoare_run paced _ _ _ _ E2 _ (tl_processLoop _ _ _ _ _ _ paced_timely)).
    apply orb_false_iff in Hw as [Hw1 Hw2].
    apply (paced_advanceTime (Z.min a b) d0 tt); [exact E0|lia|intros _ _; lia|exact E1].
Qed.

Section handler.
Variable OnNewNodeDetected : NodeId -> st (Dispatcher M) bool.
Hypothesis OnNewNodeDetected_ok : forall t id, preserves (time_ok t) (OnNewNodeDetected id).
Hypothesis OnNewNodeDetected_timeless : forall id P, timely P -> preserves P (OnNewNodeDetected id).
Abbreviation turn := (simulateTurn OnNewNodeDetected).

Lemma paced_turn fuel t d d' : paced d -> turn fuel t d = Ok (true, d') -> paced d'.
Proof.
  intros Hd E. unfold simulateTurn in E.
  apply bind_st_Ok in E as ([] & d1 & E1 & E). apply (tl_RecvEvents _ OnNewNodeDetected_timeless _ _ paced_timely _ _ _ Hd) in E1.
  apply bind_st_Ok in E as ([] & d2 & E2 & E). apply (tl_syncAliveNodes _ paced_timely _ _ _ E1) in E2.
  apply bind_st_Ok in E as ([] & d3 & E3 & E).
  refine (let E3' := hoare_run paced _ _ _ _ E3 E2 _ in _). Unshelve.
  2:{ apply pres_for_each. intros x _. by apply tl_run_task, paced_timely. }
  apply bind_st_Ok in E as (? & ? & [<- <-]%get_st_Ok & E).
  destruct (bool_decide (d_aliveNodes d3 = ∅)); [|by apply ret_st_Ok in E as [_ <-]].
  apply bind_st_Ok in E as (b & d4 & E4 & E). apply paced_processNextEvents in E4; [|done].
  apply bind_st_Ok in E as (? & ? & [<- <-]%get_st_Ok & E). apply bind_st_Ok in E as ([] & ? & [_ <-]%lift_st_Ok & E).
  destruct (negb b && _); [|by apply ret_st_Ok in E as [_ <-]].
  apply bind_st_Ok in E as ([] & d5 & _ & E). by apply ret_st_Ok in E as [? _].
Qed.
(** The states of a period: after its begin, and after turns of the loop that go on. *)
Inductive in_period (durationUs : Z) (speed : float) (d : Dispatcher M) : Dispatcher M -> Prop :=
| ip_begin post d0 : goBegin durationUs speed d = Ok (post, d0) -> in_period durationUs speed d d0
| ip_turn fuel t d1 d2 : in_period durationUs speed d d1 -> turn fuel t d1 = Ok (true, d2) -> in_period durationUs speed d d2.

Lemma paced_start d u d' : wall_ok d -> 0 <= d_CurTime d <= Ever -> d_pauseTime d <= Ever ->
  syncSpeedStart d = Ok (u, d') -> paced d'.
Proof.
  intros HW HC HP E. destruct (wall_lasting (M := M)) as [_ W2 [W3 _]].
  apply syncSpeedStart_run in E as (t & n & Ht & E). cbv zeta in E. pose proof (W3 _ (W2 d t n Ht HW)) as HW'. rewrite <- E in HW'.
  assert (d_speedStartTime d' = d_CurTime d') as HS by (by subst d').
  assert (0 <= d_CurTime d' <= Ever) as HC' by (by subst d').
  split; [done|lia|split; [lia|by subst d']|]. intros HY HN. rewrite <- HS.
  apply clockTarget_start; [done|by subst d'|lia|done|done].
Qed.
Lemma paced_goBegin dur speed d post d' :
  wall_ok d -> 0 <= d_CurTime d <= Ever -> d_pauseTime d <= Ever -> goBegin dur speed d = Ok (post, d') -> paced d'.
Proof.
  intros HW HC HP E. unfold goBegin in E. apply bind_st_Ok in E as ([] & d1 & E1 & E). apply paced_start in E1; [|done..].
  apply bind_st_Ok in E as (? & ? & [_ <-]%gets_st_Ok & E). apply bind_st_Ok in E as ([] & d2 & E2 & E).
  apply (hoare_run_flip paced _ _ _ _ (pres_when _ _ _ (tl_SetSpeed speed paced paced_timely)) E1) in E2.
  apply bind_st_Ok in E as ([] & ? & <-%modify_st_Ok & E). apply bind_st_Ok in E as (? & ? & [<- <-]%get_st_Ok & E).
  apply bind_st_Ok in E as ([] & ? & [_ <-]%lift_st_Ok & E). apply ret_st_Ok in E as [_ <-].
  destruct E2 as [H1 H2 [H3 _] H4]. split; [by refine (la_pace _ wall_lasting d2 _ _ H1)|done| |done].
  split; [done|]. simpl. unfold pause_after. destruct (Z.gtb_spec (u64 (d_CurTime d2 + dur)) Ever); lia.
Qed.
Lemma in_period_paced dur speed d d' :
  clock_ok d -> wall_ok d -> in_period dur speed d d' -> paced d'.
Proof.
  intros [HC HP] HW. pose proof (to_range _ _ HC). induction 1 as [post d0 E|fuel t d1 d2 _ IH E].
  - by eapply paced_goBegin.
  - by eapply paced_turn.
Qed.

(** C12: The simulation keeps its pace.  While a period is simulated, whatever events arrive and
    whatever tasks change the speed, the simulation time is never ahead of the time that the wall
    clock asks for, and the time asked for next, however long the dispatcher sleeps, is never
    before the present: the assertion that time does not go back holds.  This is for the first
    50 days of the program and for a speed that is a number. *)
Theorem period_keeps_pace cfg model rnd durationUs speed d d' :
  sane_reachable OnNewNodeDetected cfg model rnd d -> in_period durationUs speed d d' ->
  young d' -> PrimFloat.leb 0 (d_speed d') = true ->
  d_CurTime d' <= clockTarget d' /\
  forall nextEventTime t d2, sleepUntil (d_speed d') nextEventTime d' = Ok (t, d2) -> young d2 -> d_CurTime d' <= t.
Proof.
  intros HR HP HY HS. apply (sane_reachable_clock _ OnNewNodeDetected_ok OnNewNodeDetected_timeless) in HR as [HC HW].
  apply in_period_paced in HP; [|done..]. split; [by apply (pc_ahead d' HP)|]. intros next t d2 E HY2.
  pose proof (sleepUntil_same _ _ _ _ _ E) as [[= T1 _] _]. pose proof (sleepUntil_target _ _ _ _ _ E) as [Ht HE].
  apply (tl_sleepUntil _ _ paced paced_timely _ _ _ HP) in E. rewrite <- T1. rewrite <- HE in *.
  change (t = clockTarget d2) in Ht. rewrite Ht. by apply (pc_ahead d2 E).
Qed.

(** A period at a speed of its own restores the speed from before, so it undoes whatever was
    done to the speed while it lasted. *)
Lemma SetSpeed_speed f d u d' : SetSpeed f d = Ok (u, d') ->
  d_speed d' = normalizeSpeed f \/ PrimFloat.eqb (normalizeSpeed f) (d_speed d') = true.
Proof.
  unfold SetSpeed. intros E. apply bind_st_Ok in E as (? & ? & [<- <-]%get_st_Ok & E).
  destruct (PrimFloat.eqb _ _) eqn:EQ; [apply ret_st_Ok in E as [_ <-]; by right|]. left.
  apply bind_st_Ok in E as ([] & d1 & _ & E). apply bind_st_Ok in E as ([] & d2 & <-%modify_st_Ok & E).
  refine (hoare_run (fun x => d_speed x = normalizeSpeed f) _ _ _ _ E _ _); [done|].
  apply pres_when, hoare_modify. done.
Qed.
Theorem period_restores_speed fuel durationUs speed turns d c d' :
  goSimulateForDuration OnNewNodeDetected fuel durationUs speed turns d = Ok (c, d') -> ownSpeed speed = true ->
  d_speed d' = normalizeSpeed (d_speed d) \/ PrimFloat.eqb (normalizeSpeed (d_speed d)) (d_speed d') = true.
Proof.
  unfold goSimulateForDuration. intros E HO. apply bind_st_Ok in E as (post & d1 & E1 & E).
  apply bind_st_Ok in E as (b & d2 & _ & E). apply bind_st_Ok in E as ([] & d3 & E3 & E). apply ret_st_Ok in E as [_ <-].
  unfold goEnd in E3. rewrite HO in E3. apply bind_st_Ok in E3 as ([] & d4 & E4 & <-%modify_st_Ok).
  assert (post = d_speed d) as <-.
  { unfold goBegin in E1. apply bind_st_Ok in E1 as ([] & d5 & E5 & E1). apply bind_st_Ok in E1 as (p & ? & [<- <-]%gets_st_Ok & E1).
    apply syncSpeedStart_run in E5 as (t & n & _ & ->). apply bind_st_Ok in E1 as ([] & ? & _ & E1).
    apply bind_st_Ok in E1 as ([] & ? & _ & E1). apply bind_st_Ok in E1 as (? & ? & _ & E1).
    apply bind_st_Ok in E1 as ([] & ? & _ & E1). by apply ret_st_Ok in E1 as [<- _]. }
  destruct (d_pauseTime d4 >? d_CurTime d4); exact (SetSpeed_speed _ _ _ _ E4).
Qed.
End handler.
End pace.

(** ** An example: the first turn of a period at speed 1 *)
#[local] Existing Instance ex_env.
Abbreviation ex_begin := (goBegin (env := ex_disp_env) 1000 1).
Abbreviation ex_turn := (simulateTurn (env := ex_disp_env) (RadioModel0 := @ideal_model ex_env) ex_accept 20 (mkTurn [] [])).
Definition ex_paced : res (Dispatcher Ideal.RadioModelIdeal * bool * Dispatcher Ideal.RadioModelIdeal) :=
  d ← ex_ready; r ← ex_begin d; r ← ex_turn (snd r); Ok (d, fst r, snd r).
(** After the turn: the simulation time, the time that the clock asks for, and the wall clock. *)
Definition ex_pace : res (bool * Z * Z * Z) :=
  '(d, goon, d') ← ex_paced; Ok (goon, d_CurTime d', clockTarget d', d_now d').

Lemma period_keeps_pace_witness :
  ex_pace = Ok (true, 100, 102, 105000) /\
  exists d d', ex_sane d /\ in_period (env := ex_disp_env) (RadioModel0 := @ideal_model ex_env) ex_accept 1000 1 d d' /\
    d_CurTime d' <= clockTarget d'.
Proof.
  assert (ex_pace = Ok (true, 100, 102, 105000)) as H by (vm_compute; reflexivity). split; [exact H|].
  assert (match ex_paced with Ok (_, goon, d') => goon && PrimFloat.leb 0 (d_speed d') && (d_now d' <=? 2 ^ 42 * Microsecond)
    | Panic _ => false end = true) as HE by (vm_compute; reflexivity).
  clear H. unfold ex_paced, ex_ready in HE. destruct ex_start as [d0|] eqn:E0; [|discriminate HE]. cbn [mbind res_bind] in HE.
  destruct (serve_all ex_setup d0) as [[u d]|] eqn:E; [|discriminate HE]. cbn [mbind res_bind snd] in HE.
  destruct (ex_begin d) as [[post d1]|] eqn:E1; [|discriminate HE]. cbn [mbind res_bind snd] in HE.
  destruct (ex_turn d1) as [[goon d2]|] eqn:E2; [|discriminate HE]. cbn [mbind res_bind fst snd] in HE.
  apply andb_true_iff in HE as [[-> H1]%andb_true_iff H2%Z.leb_le].
  assert (ex_sane d) as HS.
  { eapply (serve_all_sane ex_setup); [|by apply sane_new|exact E]. pose proof ex_period_sane as HF.
    unfold ex_period in HF. by apply Forall_app in HF as [? _]. }
  assert (in_period (env := ex_disp_env) (RadioModel0 := @ideal_model ex_env) ex_accept 1000 1 d d2) as HP.
  { eapply ip_turn; [|exact E2]. eapply ip_begin. exact E1. }
  exists d, d2. split; [exact HS|]. split; [exact HP|].
  exact (proj1 (period_keeps_pace (env := ex_disp_env) (env_ok := ex_disp_env_ok) ex_accept ex_accept_ok ex_accept_timeless
    ex_config ex_model 0 1000 1 d d2 HS HP H2 H1)).
Defined.

(** A node's radio event leaves an event for later, and the node is deleted.  In the next
    period, of 1000 us at speed 1, this event comes after 400 us and wakes nobody: the
    simulation jumps to the end of the period when only 404 us have passed. *)
Definition ex_rest : list Request := [
  ReqTask (TaskSetEnergyAnalyser (NewEnergyAnalyser "tmp" 0)); ReqTask (TaskAddNode 1 ex_node_config);
  ReqEvent (ex_alarm 100000 0); ReqEvent (set_Delay 500 (ex_event 1 EventTypeRadioState 1 []));
  ReqGo 20 100 MaxSimulateSpeed [mkTurn [] []; mkTurn [] []] []; ReqTask (TaskDeleteNode 1)].
Definition ex_cut_short : res (Z * Z * Z) :=
  d ← ex_start; r ← serve_all ex_rest d;
  let d := snd r in
  r ← ex_go 20 1000 1 [mkTurn [] []; mkTurn [] []] d;
  let d' := snd r in
  Ok (d_CurTime d, d_CurTime d' - d_CurTime d, Z.quot (d_now d' - d_now d) Microsecond).
Example period_cut_short : ex_cut_short = Ok (100, 1000, 404).
Proof. vm_compute. reflexivity. Qed.

(** A task sets the speed to 5 during a period at the maximal speed; afterwards it is 1 again. *)
Example speed_undone :
  (d ← ex_ready; r ← ex_go 20 1000 MaxSimulateSpeed [mkTurn [] [TaskSetSpeed 5]; mkTurn [ex_alarm 2000 1] []] d;
   Ok (d_speed d, fst r, d_speed (snd r))) = Ok (1%float, false, 1%float).
Proof. vm_compute. reflexivity. Qed.
