(* ===== verification/EventsReader.v ===== *)
(** * The socket reader

    The goroutine that [Dispatcher.eventsReader] (src/dispatcher/dispatcher.go) starts for
    each node connection: it reads from the stream socket into a buffer, takes the events
    out of the buffer, labels them with the node and the connection, and hands them to the
    dispatcher through [eventChan]. *)

From S2P Require Import Prelude Types Event.

Local Open Scope Z_scope.

(** The events in [buf[bufIdx:n]]: what is handed over, the node id that is known then, and
    whether the connection stays open. *)
Fixpoint readBuffer (fuel : nat) (conn : nat) (myNodeId : NodeId) (buf : list Z) :
    res (list Event * NodeId * bool) :=
  match fuel with
  | O => Panic OutOfFuel
  | S fuel =>
    match buf with
    | [] => Ok ([], myNodeId, true)
    | _ =>
      '(nextEventOffset, evt) ← Deserialize zeroEvent buf;
      if nextEventOffset =? 0 then Ok ([], myNodeId, false) else
      let myNodeId :=
        if (myNodeId =? InvalidNodeId) && (ev_Type evt =? EventTypeNodeInfo)
        then ni_NodeId (ev_NodeInfoData evt) else myNodeId in
      if myNodeId <=? InvalidNodeId then Ok ([], myNodeId, false) else
      '(evts, id, open) ← readBuffer fuel conn myNodeId (drop (Z.to_nat nextEventOffset) buf);
      Ok (set_Conn (Some conn) (set_NodeId myNodeId evt) :: evts, id, open)
    end
  end.

(** [myConn.Read(buf)] for a buffer of [size] bytes: [chunks] are the bytes that are
    available at successive reads, [\[\]] is the end of the stream.  What does not fit stays
    for the next read. *)
Definition Read (size : nat) (chunks : list (list Z)) : option (list Z * list (list Z)) :=
  match chunks with
  | [] => None
  | avail :: later =>
    Some (take size avail, match drop size avail with [] => later | rest => rest :: later end)
  end.

Fixpoint connLoop (fuel : nat) (conn : nat) (size : nat) (myNodeId : NodeId) (chunks : list (list Z)) :
    res (list Event * NodeId) :=
  match fuel with
  | O => Panic OutOfFuel
  | S fuel =>
    match Read size chunks with
    | None => Ok ([], myNodeId)
    | Some (buf, chunks) =>
      '(evts, myNodeId, open) ← readBuffer (S (length buf)) conn myNodeId buf;
      if (open : bool) then
        let size := if bool_decide (size / 2 < length buf)%nat then (size * 2)%nat else size in
        '(evts', myNodeId) ← connLoop fuel conn size myNodeId chunks;
        Ok (evts ++ evts', myNodeId)
      else Ok (evts, myNodeId)
    end
  end.

Definition bufSize : nat := Z.to_nat 65536.
Definition disconnectEvent (id : NodeId) : Event := set_NodeId id (set_Type EventTypeNodeDisconnected (set_Delay 0 zeroEvent)).

(** The events that the goroutine of a connection puts into [eventChan]. *)
Definition handleConnection (conn : nat) (chunks : list (list Z)) : res (list Event) :=
  '(evts, myNodeId) ← connLoop (S (length chunks + length (concat chunks))) conn bufSize InvalidNodeId chunks;
  Ok (evts ++ if myNodeId >? InvalidNodeId then [disconnectEvent myNodeId] else []).

(** ** What is read of a stream of frames *)
Record WireFrame := mkWireFrame { w_delay : Z; w_type : Z; w_msgId : Z; w_payload : list Z }.
Definition wire (f : WireFrame) : list Z :=
  header (w_delay f) (w_type f) (w_msgId f) (length (w_payload f)) ++ w_payload f.
(** The frame stands for the event [e]. *)
Definition stands_for (f : WireFrame) (e : Event) : Prop :=
  in_u 64 (w_delay f) /\ in_u 8 (w_type f) /\ in_u 64 (w_msgId f) /\ bytes_ok (w_payload f) /\
  decode_payload (with_header (w_delay f) (w_type f) (w_msgId f) (w_payload f) zeroEvent) =
    Ok (Z.of_nat (length (wire f)), e).
Definition label (conn : nat) (id : NodeId) (e : Event) : Event := set_Conn (Some conn) (set_NodeId id e).

Lemma length_wire f : length (wire f) = (19 + length (w_payload f))%nat.
Proof. unfold wire. by rewrite length_app, length_header. Qed.
Lemma wire_bytes f e : stands_for f e -> bytes_ok (wire f).
Proof.
  intros (_ & H & _ & HB & _). unfold wire, header. repeat apply Forall_app_2; try apply le_put_ok; try done.
  by constructor.
Qed.
Lemma Deserialize_wire f e rest :
  stands_for f e -> Z.of_nat (length (wire f ++ rest)) < 65536 ->
  Deserialize zeroEvent (wire f ++ rest) = Ok (Z.of_nat (length (wire f)), e).
Proof.
  intros (H1 & _ & H2 & _ & E) HL. rewrite length_app, length_wire in HL. unfold wire at 1. rewrite <- app_assoc.
  rewrite Deserialize_frame by (done || lia). exact E.
Qed.
(** A piece of a frame is not taken for an event. *)
Lemma frame_length_wire f n :
  (19 <= n)%nat -> Z.of_nat (length (w_payload f)) < 65536 ->
  frame_length (take n (wire f)) = Z.of_nat (length (wire f)).
Proof.
  intros Hn HL. unfold frame_length, eventMsgHeaderLen, wire, header. rewrite length_app.
  set (a := le_put 8 (w_delay f)). set (b := le_put 8 (w_msgId f)). set (c := le_put 2 _).
  assert (length a = 8 /\ length b = 8 /\ length c = 2)%nat as (Ha & Hb & Hc) by (split_and!; apply length_le_put).
  assert (le_get c = Z.of_nat (length (w_payload f))) as E.
  { apply (le_get_put_id 2). unfold in_u. simpl. lia. }
  rewrite skipn_firstn_comm, take_take, Nat.min_l by lia.
  replace (drop 17 _) with (c ++ w_payload f).
  - rewrite take_app_length' by done. rewrite E, !length_app. simpl. lia.
  - rewrite <- !app_assoc, (app_assoc a), (app_assoc (a ++ _) b).
    symmetry. apply drop_app_length'. rewrite !length_app. simpl. lia.
Qed.
Lemma Deserialize_piece f n :
  (n < length (wire f))%nat -> Z.of_nat (length (w_payload f)) < 65536 ->
  exists e, Deserialize zeroEvent (take n (wire f)) = Ok (0, e).
Proof.
  intros Hn HL. assert (length (take n (wire f)) = n) as Hl by (rewrite length_take; lia).
  destruct (decide (n < 19)%nat).
  - eexists. unfold Deserialize. rewrite bool_decide_true by (unfold eventMsgHeaderLen; lia). reflexivity.
  - destruct (Deserialize_unfold zeroEvent (take n (wire f)) ltac:(lia)) as (dl & ty & mi & ->).
    rewrite frame_length_wire, Hl by lia. rewrite length_wire in *.
    destruct (Z.gtb_spec (Z.of_nat (19 + length (w_payload f)) - 19) (u16 (Z.of_nat (n - 19)))) as [_|H]; [by eexists|].
    rewrite u16_id in H by (unfold in_u; lia). lia.
Qed.

Section reader.
Variable conn : nat.
Variable id : NodeId.
Hypothesis Hid : InvalidNodeId < id.
Variable event_of : WireFrame -> Event.
Abbreviation good f := (stands_for f (event_of f)).
Definition wires (g : list WireFrame) : list Z := concat (wire <$> g).

(** The node is known, or the event introduces it. *)
Definition known (cur : NodeId) (f : WireFrame) : Prop :=
  cur = id \/ cur = InvalidNodeId /\ ev_Type (event_of f) = EventTypeNodeInfo /\
    ni_NodeId (ev_NodeInfoData (event_of f)) = id.

Lemma readBuffer_frame fuel cur f rest :
  good f -> known cur f -> Z.of_nat (length (wire f ++ rest)) < 65536 ->
  readBuffer (S fuel) conn cur (wire f ++ rest) =
    '(evts, i, open) ← readBuffer fuel conn id rest; Ok (label conn id (event_of f) :: evts, i, open).
Proof.
  intros Hf Hk HL. cbn [readBuffer]. rewrite (Deserialize_wire f _ rest Hf HL). cbn [mbind res_bind].
  pose proof (length_wire f) as Hw. destruct (wire f ++ rest) as [|z l] eqn:E; [|rewrite <- E; clear E].
  { apply (f_equal length) in E. rewrite length_app in E. simpl in E. lia. }
  destruct (Z.eqb_spec (Z.of_nat (length (wire f))) 0); [lia|].
  assert ((if (cur =? InvalidNodeId) && (ev_Type (event_of f) =? EventTypeNodeInfo)
    then ni_NodeId (ev_NodeInfoData (event_of f)) else cur) = id) as ->.
  { destruct Hk as [->|(-> & -> & ->)]; [|done]. by destruct (Z.eqb_spec id InvalidNodeId); [lia|]. }
  destruct (Z.leb_spec id InvalidNodeId); [lia|]. rewrite Nat2Z.id, drop_app_length. done.
Qed.

Lemma readBuffer_frames g fuel cur rest r :
  Forall (fun f => good f) g -> Forall (known cur) (take 1 g) -> (g = [] -> cur = id) ->
  Z.of_nat (length (wires g ++ rest)) < 65536 -> (length g <= fuel)%nat ->
  readBuffer (fuel - length g) conn id rest = Ok r ->
  readBuffer fuel conn cur (wires g ++ rest) = Ok ((label conn id <$> (event_of <$> g)) ++ r.1.1, r.1.2, r.2).
Proof.
  intros Hg. revert fuel cur. induction Hg as [|f g Hf _ IH]; intros fuel cur Hk Hc HL Hfuel E.
  - rewrite (Hc eq_refl). cbn [length] in E. rewrite Nat.sub_0_r in E. cbn [wires fmap list_fmap concat app]. rewrite E. by destruct r as [[? ?] ?].
  - unfold wires in *. cbn [fmap list_fmap concat length] in *. rewrite <- app_assoc in *.
    destruct fuel as [|fuel]; [lia|]. rewrite readBuffer_frame; [|done|by apply Forall_cons in Hk as [? _]|done].
    rewrite (IH fuel id); [done| |done| |lia|by rewrite <- E].
    + destruct g; simpl; [done|]. constructor; [by left|done].
    + rewrite length_app in HL. lia.
Qed.

Lemma readBuffer_group g cur fuel :
  Forall (fun f => good f) g -> Forall (known cur) (take 1 g) -> (g = [] -> cur = id) ->
  Z.of_nat (length (wires g)) < 65536 -> (length g < fuel)%nat ->
  readBuffer fuel conn cur (wires g) = Ok (label conn id <$> (event_of <$> g), id, true).
Proof.
  intros Hg Hk Hc HL Hfuel. rewrite <- (app_nil_r (wires g)) in HL |- *.
  rewrite (readBuffer_frames g fuel cur [] ([], id, true)); [|done..|lia|].
  - simpl. by rewrite app_nil_r.
  - by destruct (fuel - length g)%nat eqn:E; [lia|].
Qed.
Lemma readBuffer_cut g cur f n fuel :
  Forall (fun f => good f) g -> Forall (known cur) (take 1 g) -> (g = [] -> cur = id) ->
  (0 < n < length (wire f))%nat -> Z.of_nat (length (wires g ++ wire f)) < 65536 -> (length g < fuel)%nat ->
  readBuffer fuel conn cur (wires g ++ take n (wire f)) = Ok (label conn id <$> (event_of <$> g), id, false).
Proof.
  intros Hg Hk Hc Hn HL Hfuel.
  assert (length (take n (wire f)) = n) as Hl by (rewrite length_take; lia). rewrite length_app in HL.
  rewrite (readBuffer_frames g fuel cur (take n (wire f)) ([], id, false)); [|done..| |lia|].
  - simpl. by rewrite app_nil_r.
  - rewrite length_app. lia.
  - destruct (fuel - length g)%nat eqn:E; [lia|]. cbn [readBuffer].
    destruct (Deserialize_piece f n) as [e ->]; [lia|rewrite length_wire in HL; lia|].
    destruct (take n (wire f)); [simpl in Hl; lia|done].
Qed.
Lemma length_wires g : (length g <= length (wires g))%nat.
Proof.
  induction g as [|f g IH]; [done|]. unfold wires in *. cbn [fmap list_fmap concat length].
  rewrite length_app, length_wire. lia.
Qed.

(** Reads that each hold whole frames, and then a read that ends inside one. *)
Definition small (g : list WireFrame) : Prop := Z.of_nat (length (wires g)) < 65536.
Inductive stream : list (list WireFrame) -> list (list Z) -> Prop :=
| stream_end : stream [] []
| stream_read g gs chunks : g <> [] -> small g -> stream gs chunks -> stream (g :: gs) (wires g :: chunks)
| stream_cut g f n later :
    Z.of_nat (length (wires g ++ wire f)) < 65536 -> (0 < n < length (wire f))%nat ->
    stream [g] ((wires g ++ take n (wire f)) :: later).

Lemma connLoop_stream gs chunks size fuel cur :
  stream gs chunks -> Forall (fun f => good f) (concat gs) -> Forall (known cur) (take 1 (concat gs)) ->
  (concat gs = [] -> cur = id) -> (bufSize <= size)%nat -> (length gs < fuel)%nat ->
  connLoop fuel conn size cur chunks = Ok (label conn id <$> (event_of <$> concat gs), id).
Proof.
  intros HS. revert size fuel cur. induction HS as [|g gs chunks Hne HL _ IH|g f n later HL Hn];
    intros size fuel cur Hg Hk Hc Hsz Hfuel; (destruct fuel as [|fuel]; [simpl in *; lia|]); cbn [connLoop Read].
  - by rewrite (Hc eq_refl).
  - unfold small, bufSize in *. rewrite take_ge, drop_ge by lia. cbn [concat] in *. apply Forall_app in Hg as [Hg Hgs].
    rewrite readBuffer_group; [|done| |done|done|pose proof (length_wires g); lia].
    2: { destruct g; [done|exact Hk]. }
    cbn [mbind res_bind]. rewrite (IH _ _ id); [| |..].
    + cbn [mbind res_bind]. by rewrite !fmap_app.
    + done.
    + destruct (concat gs); simpl; [done|]. constructor; [by left|done].
    + done.
    + case_bool_decide; lia.
    + simpl in Hfuel. lia.
  - unfold bufSize in *. rewrite length_app in HL.
    assert (length (wires g ++ take n (wire f)) < Z.to_nat 65536)%nat by (rewrite length_app, length_take; lia).
    rewrite take_ge, drop_ge by lia. cbn [concat] in *. rewrite app_nil_r in *.
    rewrite readBuffer_cut; [done|done|done|done|done|rewrite length_app; lia|].
    pose proof (length_wires g). rewrite length_app, length_take. lia.
Qed.
End reader.


(** ** An example: the second read ends inside an event *)
Definition ex_hello : WireFrame := mkWireFrame 0 EventTypeNodeInfo 0 [5; 0; 0; 0].
Definition ex_uart (c : Z) : WireFrame := mkWireFrame 0 EventTypeUartWrite 0 [c; 10].
Definition ex_event_of (f : WireFrame) : Event :=
  match decode_payload (with_header (w_delay f) (w_type f) (w_msgId f) (w_payload f) zeroEvent) with
  | Ok (_, e) => e | Panic _ => zeroEvent end.
Definition ex_chunks : list (list Z) :=
  [wires [ex_hello]; wires [ex_uart 65] ++ take 20 (wire (ex_uart 66)); drop 20 (wire (ex_uart 66))].
