(* ===== verification/Datagram.v ===== *)
(** * IPv6 and UDP datagrams

    The datagrams that a simulated host sends into the mesh (src/simulation/utils.go):
    serialization of the headers and the UDP checksum.  The reference for the checksum is
    the one's complement addition of RFC 1071, with the carry added back at every step. *)

From S2P Require Import Prelude Event.

Local Open Scope Z_scope.

(** The fields of [ipv6.Header] that are serialized. *)
Record Ip6Header := mkIp6Header {
  i6_Version : Z; i6_TrafficClass : Z; i6_FlowLabel : Z; i6_NextHeader : Z; i6_HopLimit : Z;
  i6_Src : list Z; i6_Dst : list Z;
}.
Record UdpHeader := mkUdpHeader { uh_SrcPort : Z; uh_DstPort : Z; uh_Length : Z; uh_Checksum : Z }.
Definition set_Checksum (v : Z) (h : UdpHeader) : UdpHeader :=
  mkUdpHeader (uh_SrcPort h) (uh_DstPort h) (uh_Length h) v.

Definition serializeIp6Header (h : Ip6Header) (payloadLen : Z) : list Z :=
  let data := replicate 40 0 in
  let data := <[0%nat := Z.lor (u8 (Z.shiftl (i6_Version h) 4)) (u8 (Z.shiftr (i6_TrafficClass h) 4))]> data in
  let data := <[1%nat := Z.lor (u8 (Z.shiftl (i6_TrafficClass h) 4)) (u8 (Z.shiftr (i6_FlowLabel h) 16))]> data in
  let data := copy_at data 2 (be_put 2 (u16 (i6_FlowLabel h))) in
  let data := copy_at data 4 (be_put 2 (u16 payloadLen)) in
  let data := <[6%nat := u8 (i6_NextHeader h)]> data in
  let data := <[7%nat := u8 (i6_HopLimit h)]> data in
  let data := copy_at data 8 (i6_Src h) in
  copy_at data 24 (i6_Dst h).

Definition serializeUdpHeader (h : UdpHeader) : list Z :=
  let data := replicate 8 0 in
  let data := copy_at data 0 (be_put 2 (uh_SrcPort h)) in
  let data := copy_at data 2 (be_put 2 (uh_DstPort h)) in
  let data := copy_at data 4 (be_put 2 (uh_Length h)) in
  copy_at data 6 (be_put 2 (uh_Checksum h)).

(** [for ; len(data) >= 2; data = data\[2:\] { ... }] and the byte that remains *)
Fixpoint sum_words (data : list Z) (sum : Z) : Z :=
  match data with
  | a :: b :: data => sum_words data (u32 (sum + Z.lor (Z.shiftl a 8) b))
  | [a] => u32 (sum + Z.shiftl a 8)
  | [] => sum
  end.
(** [for sum > 0xffff { sum = (sum >> 16) + (sum & 0xffff) }]: a 32-bit sum takes at most
    two turns. *)
Fixpoint fold_carries (fuel : nat) (sum : Z) : res Z :=
  match fuel with
  | O => Panic OutOfFuel
  | S fuel =>
    if sum >? 0xffff then fold_carries fuel (u32 (Z.shiftr sum 16 + Z.land sum 0xffff)) else Ok sum
  end.

Definition pseudoHeader (src dst : Addr) (udpLen : Z) : list Z :=
  let hdr := replicate 40 0 in
  let hdr := copy_at hdr 0 (take 16 (AsSlice src)) in
  let hdr := copy_at hdr 16 (take 16 (AsSlice dst)) in
  let hdr := copy_at hdr 32 (be_put 4 udpLen) in
  <[39%nat := 17]> hdr.

Definition calcUdpChecksum (src dst : Addr) (h : UdpHeader) (udpPayload : list Z) : res UdpHeader :=
  let udpLen := u16 (Z.of_nat (length udpPayload) + 8) in
  let h := set_Checksum 0 h in
  let data := pseudoHeader src dst udpLen ++ serializeUdpHeader h ++ udpPayload in
  sum ← fold_carries 3 (sum_words data 0);
  let csum := 0xffff - u16 sum in
  Ok (set_Checksum (if csum =? 0 then 0xffff else csum) h).

Definition createIp6UdpDatagram (srcPort dstPort : Z) (src dst : Addr) (hopLimit : Z) (udpPayload : list Z) :
    res (list Z) :=
  let udpLen := Z.of_nat (length udpPayload) + 8 in
  h ← calcUdpChecksum src dst (mkUdpHeader srcPort dstPort (u16 udpLen) 0) udpPayload;
  let ip6 := mkIp6Header 6 0 0 17 hopLimit (AsSlice src) (AsSlice dst) in
  Ok (serializeIp6Header ip6 udpLen ++ serializeUdpHeader h ++ udpPayload).

(** ** The reference: RFC 1071 *)
Definition ones_add (a b : Z) : Z := if a + b >? 0xffff then a + b - 0xffff else a + b.
Fixpoint words (data : list Z) : list Z :=
  match data with
  | a :: b :: data => (256 * a + b) :: words data
  | [a] => [256 * a]
  | [] => []
  end.
Definition ones_sum (data : list Z) : Z := foldl ones_add 0 (words data).

(** ** The checksum loop computes the reference

    Both are the representative of the sum modulo 0xffff that is 0 only for 0. *)
Definition norm (s : Z) : Z := if s =? 0 then 0 else (s - 1) mod 0xffff + 1.
Definition word_sum (data : list Z) : Z := foldr Z.add 0 (words data).

Lemma norm_range s : 0 <= s -> 0 <= norm s <= 0xffff.
Proof.
  unfold norm. destruct (Z.eqb_spec s 0); [lia|]. pose proof (Z.mod_pos_bound (s - 1) 0xffff). lia.
Qed.
Lemma norm_small s : 0 <= s <= 0xffff -> norm s = s.
Proof. unfold norm. destruct (Z.eqb_spec s 0); [lia|]. intros. rewrite Z.mod_small; lia. Qed.
Lemma norm_sub s : 0xffff < s -> norm (s - 0xffff) = norm s.
Proof.
  intros H. unfold norm. destruct (Z.eqb_spec (s - 0xffff) 0); [lia|]. destruct (Z.eqb_spec s 0); [lia|].
  replace (s - 0xffff - 1) with (s - 1 + (-1) * 0xffff) by lia. by rewrite Z_mod_plus_full.
Qed.
Lemma norm_sub_mul s k : 0 <= k -> 0 < s -> norm (s + k * 0xffff) = norm s.
Proof.
  intros Hk Hs. unfold norm. destruct (Z.eqb_spec (s + k * 0xffff) 0); [lia|]. destruct (Z.eqb_spec s 0); [lia|].
  replace (s + k * 0xffff - 1) with (s - 1 + k * 0xffff) by lia. by rewrite Z_mod_plus_full.
Qed.
Lemma norm_add s w : 0 <= s -> 0 <= w -> norm (norm s + w) = norm (s + w).
Proof.
  intros Hs Hw. unfold norm at 2. destruct (Z.eqb_spec s 0) as [->|]; [done|].
  pose proof (Z.div_mod (s - 1) 0xffff ltac:(lia)) as E. pose proof (Z.mod_pos_bound (s - 1) 0xffff ltac:(lia)).
  replace (s + w) with ((s - 1) mod 0xffff + 1 + w + (s - 1) / 0xffff * 0xffff) by lia.
  symmetry. apply norm_sub_mul; [apply Z.div_pos; lia|lia].
Qed.
Lemma norm_full s : 0 < s -> s mod 0xffff = 0 -> norm s = 0xffff.
Proof.
  intros Hs Hm. unfold norm. destruct (Z.eqb_spec s 0); [lia|].
  pose proof (Z.div_mod s 0xffff ltac:(lia)) as E. rewrite Hm in E.
  replace (s - 1) with (0xfffe + (s / 0xffff - 1) * 0xffff) by lia. by rewrite Z_mod_plus_full.
Qed.

Lemma words_range data : bytes_ok data -> Forall (fun w => 0 <= w <= 0xffff) (words data).
Proof.
  revert data. fix IH 1. intros [|a [|b data]] H; simpl; [done| |].
  - apply Forall_cons in H as [Ha _]. constructor; [unfold byte_ok, in_u in Ha; lia|done].
  - apply Forall_cons in H as [Ha H]. apply Forall_cons in H as [Hb H].
    constructor; [unfold byte_ok, in_u in *; lia|]. by apply IH.
Qed.
Lemma word_sum_nonneg data : bytes_ok data -> 0 <= word_sum data.
Proof. intros H%words_range. unfold word_sum. induction H; simpl; lia. Qed.
Lemma word_sum_bound data : bytes_ok data -> 2 * word_sum data <= 0xffff * (Z.of_nat (length data) + 1).
Proof.
  unfold word_sum. revert data. fix IH 1. intros [|a [|b data]] H; [simpl; lia| |].
  - apply Forall_cons in H as [Ha _]. simpl. unfold byte_ok, in_u in Ha. lia.
  - apply Forall_cons in H as [Ha H]. apply Forall_cons in H as [Hb H]. specialize (IH data H).
    cbn [words foldr length]. unfold byte_ok, in_u in *. lia.
Qed.
Lemma words_app a b : Nat.Even (length a) -> words (a ++ b) = words a ++ words b.
Proof.
  revert a. fix IH 1. intros [|x [|y a]] H; [done| |].
  - destruct H as [k Hk]. simpl in Hk. lia.
  - cbn [words app]. f_equal. apply IH. destruct H as [k Hk]. exists (k - 1)%nat. simpl in Hk. lia.
Qed.
Lemma word_sum_app a b : Nat.Even (length a) -> word_sum (a ++ b) = word_sum a + word_sum b.
Proof.
  intros H. unfold word_sum. rewrite words_app by done. generalize (words a).
  intros ws. induction ws as [|w ws IH]; simpl; lia.
Qed.

Lemma ones_sum_norm data : bytes_ok data -> ones_sum data = norm (word_sum data).
Proof.
  intros HR%words_range. unfold ones_sum, word_sum.
  assert (forall a, 0 <= a -> foldl ones_add (norm a) (words data) = norm (a + foldr Z.add 0 (words data))) as H.
  { induction HR as [|w ws Hw _ IH]; intros a Ha; simpl; [by rewrite Z.add_0_r|].
    assert (ones_add (norm a) w = norm (a + w)) as ->.
    { pose proof (norm_range a Ha). unfold ones_add. rewrite <- norm_add by lia.
      destruct (Z.gtb_spec (norm a + w) 0xffff); [rewrite <- (norm_sub (norm a + w)) by lia|];
      symmetry; apply norm_small; lia. }
    rewrite IH by lia. f_equal. lia. }
  by apply (H 0).
Qed.

Lemma lor_word a b : 0 <= b < 2 ^ 8 -> Z.lor (Z.shiftl a 8) b = 256 * a + b.
Proof.
  intros Hb. assert (Z.land (Z.shiftl a 8) b = 0) as E.
  { apply Z.bits_inj'. intros n Hn. rewrite Z.land_spec, Z.bits_0. destruct (Z.lt_ge_cases n 8).
    - by rewrite Z.shiftl_spec_low.
    - rewrite <- (Z.mod_small b (2 ^ 8)) by done. by rewrite Z.mod_pow2_bits_high, andb_false_r by lia. }
  pose proof (Z.add_lor_land (Z.shiftl a 8) b) as H. rewrite E, (Z.shiftl_mul_pow2 a 8) in H by lia.
  rewrite Z.shiftl_mul_pow2 by lia. lia.
Qed.
Lemma sum_words_exact data s :
  bytes_ok data -> 0 <= s -> s + word_sum data < 2 ^ 32 -> sum_words data s = s + word_sum data.
Proof.
  unfold word_sum. revert data s. fix IH 1. intros [|a [|b data]] s HB Hs HL; cbn [words foldr sum_words] in *.
  - lia.
  - apply Forall_cons in HB as [Ha _]. unfold byte_ok, in_u in Ha. rewrite Z.shiftl_mul_pow2 by lia.
    rewrite u32_id; unfold in_u; lia.
  - apply Forall_cons in HB as [Ha HB]. apply Forall_cons in HB as [Hb HB]. unfold byte_ok, in_u in Ha, Hb.
    pose proof (word_sum_nonneg data HB) as Hn. unfold word_sum in Hn. rewrite lor_word by done.
    rewrite u32_id by (unfold in_u; lia). rewrite IH; [lia|done|lia|lia].
Qed.

Lemma fold_step s :
  0xffff < s < 2 ^ 32 ->
  u32 (Z.shiftr s 16 + Z.land s 0xffff) = s / 2 ^ 16 + s mod 2 ^ 16 /\ 0 < s / 2 ^ 16 < 2 ^ 16 /\
  norm (s / 2 ^ 16 + s mod 2 ^ 16) = norm s.
Proof.
  intros Hs. rewrite Z.shiftr_div_pow2 by lia. change 0xffff with (Z.ones 16). rewrite Z.land_ones by lia.
  pose proof (Z.div_mod s (2 ^ 16) ltac:(lia)) as E. pose proof (Z.mod_pos_bound s (2 ^ 16) ltac:(lia)) as Hm.
  assert (0 < s / 2 ^ 16 < 2 ^ 16) as Hd by (change (Z.ones 16) with 65535 in Hs; lia).
  split; [apply u32_id; unfold in_u; lia|]. split; [done|].
  replace s with (s / 2 ^ 16 + s mod 2 ^ 16 + s / 2 ^ 16 * 0xffff) at 3 by lia.
  symmetry. apply norm_sub_mul; lia.
Qed.
Lemma fold_carries_norm s : 0 <= s < 2 ^ 32 -> fold_carries 3 s = Ok (norm s).
Proof.
  intros Hs. cbn [fold_carries]. destruct (Z.gtb_spec s 0xffff) as [H1|H1]; [|by rewrite norm_small by lia].
  destruct (fold_step s ltac:(lia)) as (-> & D1 & <-). pose proof (Z.mod_pos_bound s (2 ^ 16) ltac:(lia)) as M1.
  set (t := s / 2 ^ 16 + s mod 2 ^ 16) in *.
  destruct (Z.gtb_spec t 0xffff) as [H2|H2]; [|by rewrite norm_small by lia].
  destruct (fold_step t ltac:(lia)) as (-> & D2 & <-).
  pose proof (Z.div_mod t (2 ^ 16) ltac:(lia)). pose proof (Z.mod_pos_bound t (2 ^ 16) ltac:(lia)) as M2.
  destruct (Z.gtb_spec (t / 2 ^ 16 + t mod 2 ^ 16) 0xffff); [lia|by rewrite norm_small by lia].
Qed.

Lemma checksum_loop data :
  bytes_ok data -> (length data <= Z.to_nat 65600)%nat ->
  fold_carries 3 (sum_words data 0) = Ok (norm (word_sum data)).
Proof.
  intros HB HL. pose proof (word_sum_nonneg data HB). pose proof (word_sum_bound data HB).
  rewrite sum_words_exact by (done || lia). apply fold_carries_norm. lia.
Qed.

(** The checksum loop adds 32-bit words and folds the carries at the end; for any data of
    up to 64 KB it terminates, nothing overflows, and the result is the one's complement sum
    of RFC 1071. *)
Theorem checksum_ones_sum data :
  bytes_ok data -> Z.of_nat (length data) <= 65600 ->
  fold_carries 3 (sum_words data 0) = Ok (ones_sum data).
Proof. intros HB HL. rewrite ones_sum_norm by done. apply checksum_loop; [done|lia]. Qed.
Lemma checksum_ones_sum_witness :
  fold_carries 3 (sum_words [255; 255; 0; 1; 7] 0) = Ok (ones_sum [255; 255; 0; 1; 7]) /\
  ones_sum [255; 255; 0; 1; 7] = 1793.
Proof.
  split; [|reflexivity]. apply (checksum_ones_sum [255; 255; 0; 1; 7]); [|simpl; lia].
  repeat constructor; intros ?; discriminate.
Defined.

(** ** What a receiver checks

    RFC 8200: the version, the lengths, the next header, and the checksum over the pseudo
    header and the segment, which must not be 0. *)
Definition udp_valid (d : list Z) : bool :=
  let plen := be_get (take 2 (drop 4 d)) in
  let udp := drop 40 d in
  bool_decide (Z.shiftr (hd 0 d) 4 = 6) && bool_decide (d !! 6%nat = Some 17) &&
  bool_decide (plen = Z.of_nat (length udp)) && bool_decide (be_get (take 2 (drop 4 udp)) = plen) &&
  bool_decide (be_get (take 2 (drop 6 udp)) <> 0) &&
  bool_decide (ones_sum (take 32 (drop 8 d) ++ be_put 4 plen ++ [0; 0; 0; 17] ++ udp) = 0xffff).

Definition ip6_bytes (a : Addr) : Prop := length (AsSlice a) = 16%nat /\ bytes_ok (AsSlice a).
Lemma ip6_list a : ip6_bytes a -> exists x0 x1 x2 x3 x4 x5 x6 x7 x8 x9 xa xb xc xd xe xf,
  AsSlice a = [x0; x1; x2; x3; x4; x5; x6; x7; x8; x9; xa; xb; xc; xd; xe; xf].
Proof.
  intros [HL _]. remember (AsSlice a) as l eqn:E. clear E.
  do 16 (destruct l as [|? l]; [discriminate HL|]). destruct l; [|discriminate HL].
  by repeat eexists.
Qed.
Lemma pseudoHeader_layout src dst len :
  ip6_bytes src -> ip6_bytes dst ->
  pseudoHeader src dst len = (AsSlice src ++ AsSlice dst) ++ be_put 4 len ++ [0; 0; 0; 17].
Proof.
  intros Hs Hd. apply ip6_list in Hs as (? & ? & ? & ? & ? & ? & ? & ? & ? & ? & ? & ? & ? & ? & ? & ? & Es).
  apply ip6_list in Hd as (? & ? & ? & ? & ? & ? & ? & ? & ? & ? & ? & ? & ? & ? & ? & ? & Ed).
  unfold pseudoHeader. rewrite Es, Ed. reflexivity.
Qed.
Lemma ip6Header_layout src dst hop len :
  ip6_bytes src -> ip6_bytes dst ->
  serializeIp6Header (mkIp6Header 6 0 0 17 hop (AsSlice src) (AsSlice dst)) len =
    [0x60; 0; 0; 0] ++ be_put 2 (u16 len) ++ [17; u8 hop] ++ AsSlice src ++ AsSlice dst.
Proof.
  intros Hs Hd. apply ip6_list in Hs as (? & ? & ? & ? & ? & ? & ? & ? & ? & ? & ? & ? & ? & ? & ? & ? & Es).
  apply ip6_list in Hd as (? & ? & ? & ? & ? & ? & ? & ? & ? & ? & ? & ? & ? & ? & ? & ? & Ed).
  rewrite Es, Ed. reflexivity.
Qed.
Lemma udpHeader_layout h :
  serializeUdpHeader h =
    (be_put 2 (uh_SrcPort h) ++ be_put 2 (uh_DstPort h) ++ be_put 2 (uh_Length h)) ++ be_put 2 (uh_Checksum h).
Proof. reflexivity. Qed.

Lemma be_put_ok n z : bytes_ok (be_put n z).
Proof. unfold be_put. apply Forall_rev, le_put_ok. Qed.
Lemma word_sum_be2 z : in_u 16 z -> word_sum (be_put 2 z) = z.
Proof.
  intros Hz. change (word_sum (be_put 2 z)) with (256 * ((z / 256) mod 256) + z mod 256 + 0).
  unfold in_u in Hz. rewrite (Z.mod_small (z / 256)); [pose proof (Z.div_mod z 256); lia|].
  split; [apply Z.div_pos; lia|apply Z.div_lt_upper_bound; lia].
Qed.
(** The checksum makes the sum a multiple of 0xffff. *)
Lemma norm_checksum s :
  0 < s -> let c := if 0xffff - norm s =? 0 then 0xffff else 0xffff - norm s in
  norm (s + c) = 0xffff /\ 0 < c < 2 ^ 16.
Proof.
  intros Hs c. unfold norm in c. destruct (Z.eqb_spec s 0); [lia|].
  pose proof (Z.div_mod (s - 1) 0xffff ltac:(lia)) as E. pose proof (Z.mod_pos_bound (s - 1) 0xffff ltac:(lia)) as Hm.
  set (q := (s - 1) / 0xffff) in *. set (r := (s - 1) mod 0xffff) in *.
  assert (0 < c < 2 ^ 16 /\ exists k, s + c = k * 0xffff) as [Hc [k Hk]].
  { unfold c. destruct (Z.eqb_spec (0xffff - (r + 1)) 0); (split; [lia|]).
    - exists (q + 2). lia.
    - exists (q + 1). lia. }
  split; [|done]. rewrite Hk. apply norm_full; [lia|apply Z_mod_mult].
Qed.

Section datagram.
Context (src dst : Addr) (srcPort dstPort : Z) (payload : list Z).
Hypothesis Hsrc : ip6_bytes src.
Hypothesis Hdst : ip6_bytes dst.
Hypothesis Hsp : in_u 16 srcPort.
Hypothesis Hdp : in_u 16 dstPort.
Hypothesis Hpl : bytes_ok payload.
Hypothesis Hlen : Z.of_nat (length payload) + 8 < 2 ^ 16.
Let len := Z.of_nat (length payload) + 8.
(** Everything that is summed before the checksum field. *)
Let before := ((AsSlice src ++ AsSlice dst) ++ be_put 4 len ++ [0; 0; 0; 17]) ++
  be_put 2 srcPort ++ be_put 2 dstPort ++ be_put 2 len.

Lemma before_facts : bytes_ok before /\ length before = 46%nat /\ 0 < word_sum before.
Proof.
  destruct Hsrc as [L1 B1], Hdst as [L2 B2]. unfold before.
  assert (bytes_ok ([0; 0; 0; 17])) as B3 by (repeat constructor; intros ?; discriminate).
  split; [rewrite !Forall_app; split_and!; done || apply be_put_ok|].
  split; [rewrite !length_app, L1, L2, !length_be_put; done|].
  rewrite !word_sum_app by (rewrite ?length_app, ?L1, ?L2, ?length_be_put; by apply Nat.even_spec).
  change (word_sum [0; 0; 0; 17]) with 17.
  pose proof (word_sum_nonneg _ B1). pose proof (word_sum_nonneg _ B2).
  pose proof (word_sum_nonneg _ (be_put_ok 4 len)). pose proof (word_sum_nonneg _ (be_put_ok 2 srcPort)).
  pose proof (word_sum_nonneg _ (be_put_ok 2 dstPort)). pose proof (word_sum_nonneg _ (be_put_ok 2 len)). lia.
Qed.
Lemma word_sum_around c :
  in_u 16 c -> word_sum (before ++ be_put 2 c ++ payload) = word_sum before + word_sum payload + c.
Proof.
  intros Hc. destruct before_facts as (_ & HL & _).
  rewrite !word_sum_app by (rewrite ?HL, ?length_be_put; by apply Nat.even_spec).
  rewrite word_sum_be2 by done. lia.
Qed.
Lemma bytes_around c : bytes_ok (before ++ be_put 2 c ++ payload).
Proof. destruct before_facts as (HB & _ & _). rewrite !Forall_app. split_and!; done || apply be_put_ok. Qed.

Lemma calcUdpChecksum_sum cs0 :
  exists c, calcUdpChecksum src dst (mkUdpHeader srcPort dstPort len cs0) payload =
      Ok (mkUdpHeader srcPort dstPort len c) /\
    0 < c < 2 ^ 16 /\ ones_sum (before ++ be_put 2 c ++ payload) = 0xffff.
Proof.
  destruct before_facts as (HB & HL & HS). pose proof (word_sum_nonneg payload Hpl) as HN.
  destruct (norm_checksum (word_sum before + word_sum payload) ltac:(lia)) as [Hn Hc].
  set (c := if _ =? 0 then _ else _) in *. exists c. split_and!; [|lia|lia|].
  - unfold calcUdpChecksum. fold len. rewrite u16_id by (unfold in_u; unfold len; lia).
    rewrite pseudoHeader_layout, udpHeader_layout by done. cbn [set_Checksum uh_SrcPort uh_DstPort uh_Length uh_Checksum].
    rewrite <- (app_assoc _ (be_put 2 0)), (app_assoc _ _ (be_put 2 0 ++ payload)).
    change (((AsSlice src ++ AsSlice dst) ++ be_put 4 len ++ [0; 0; 0; 17]) ++
      be_put 2 srcPort ++ be_put 2 dstPort ++ be_put 2 len) with before.
    rewrite checksum_loop; [|apply bytes_around|rewrite !length_app, HL, length_be_put; lia].
    rewrite word_sum_around by done. rewrite Z.add_0_r. cbn [mbind res_bind].
    rewrite (u16_id (norm _)); [done|]. pose proof (norm_range (word_sum before + word_sum payload)). unfold in_u. lia.
  - rewrite ones_sum_norm by apply bytes_around. rewrite word_sum_around by (unfold in_u; lia). exact Hn.
Qed.
End datagram.

Lemma two_bytes z : exists b1 b0, be_put 2 z = [b1; b0].
Proof. by do 2 eexists. Qed.

Lemma createIp6UdpDatagram_ok srcPort dstPort src dst hopLimit payload :
  in_u 16 srcPort -> in_u 16 dstPort -> ip6_bytes src -> ip6_bytes dst -> in_u 8 hopLimit -> bytes_ok payload ->
  Z.of_nat (length payload) + 8 < 2 ^ 16 ->
  exists d, createIp6UdpDatagram srcPort dstPort src dst hopLimit payload = Ok d /\ udp_valid d = true /\
    take 16 (drop 8 d) = AsSlice src /\ take 16 (drop 24 d) = AsSlice dst /\ d !! 7%nat = Some hopLimit /\
    be_get (take 2 (drop 40 d)) = srcPort /\ be_get (take 2 (drop 42 d)) = dstPort /\ drop 48 d = payload.
Proof.
  intros Hsp Hdp Hs Hd Hh Hp HL. unfold createIp6UdpDatagram.
  set (len := Z.of_nat (length payload) + 8) in *. rewrite (u16_id len) by (unfold in_u, len; lia).
  destruct (calcUdpChecksum_sum src dst srcPort dstPort payload Hs Hd Hp HL 0) as (c & Hcalc & Hc & Hsum).
  fold len in Hcalc, Hsum. rewrite Hcalc. cbn [mbind res_bind].
  rewrite ip6Header_layout, udpHeader_layout, (u16_id len), (u8_id hopLimit) by (done || unfold in_u, len; lia).
  cbn [uh_SrcPort uh_DstPort uh_Length uh_Checksum].
  assert (be_get (be_put 2 len) = len /\ be_get (be_put 2 srcPort) = srcPort /\ be_get (be_put 2 dstPort) = dstPort /\
    be_get (be_put 2 c) = c) as (G1 & G2 & G3 & G4).
  { split_and!; apply be_get_put_id; try done; unfold in_u; simpl; unfold len; lia. }
  destruct (two_bytes len) as (l1 & l0 & E1), (two_bytes srcPort) as (s1 & s0 & E2),
    (two_bytes dstPort) as (p1 & p0 & E3), (two_bytes c) as (c1 & c0 & E4).
  rewrite E1, E2, E3, E4 in *.
  apply ip6_list in Hs as (? & ? & ? & ? & ? & ? & ? & ? & ? & ? & ? & ? & ? & ? & ? & ? & Es).
  apply ip6_list in Hd as (? & ? & ? & ? & ? & ? & ? & ? & ? & ? & ? & ? & ? & ? & ? & ? & Ed).
  rewrite Es, Ed in *. eexists. split; [reflexivity|]. split.
  - unfold udp_valid. cbn [app take drop hd length lookup list_lookup].
    rewrite !bool_decide_true; [done|..]; rewrite ?G1; [exact Hsum| |done|unfold len; lia|done|done].
    intros H. assert (c = 0) by (by rewrite <- G4). lia.
  - split_and!; done.
Qed.

(** C34: The datagram that carries the payload of a simulated host into the mesh is a valid
    IPv6 UDP datagram: a receiver finds version, next header and lengths right and a checksum
    that is present and verifies, and gets the ports, the addresses, the hop limit and the
    payload that were given. *)
Theorem createIp6UdpDatagram_valid srcPort dstPort src dst hopLimit payload :
  in_u 16 srcPort -> in_u 16 dstPort -> ip6_bytes src -> ip6_bytes dst -> in_u 8 hopLimit -> bytes_ok payload ->
  Z.of_nat (length payload) + 8 < 2 ^ 16 ->
  exists d, createIp6UdpDatagram srcPort dstPort src dst hopLimit payload = Ok d /\ udp_valid d = true /\
    take 16 (drop 8 d) = AsSlice src /\ take 16 (drop 24 d) = AsSlice dst /\ d !! 7%nat = Some hopLimit /\
    be_get (take 2 (drop 40 d)) = srcPort /\ be_get (take 2 (drop 42 d)) = dstPort /\ drop 48 d = payload.
Proof. apply createIp6UdpDatagram_ok. Qed.

Lemma createIp6UdpDatagram_valid_witness :
  exists d, createIp6UdpDatagram 5683 49152 (AddrFrom16 (replicate 15 0 ++ [1])) (AddrFrom16 (253 :: replicate 14 0 ++ [9]))
      63 [104; 105; 33] = Ok d /\ udp_valid d = true /\ length d = 51%nat /\ drop 48 d = [104; 105; 33].
Proof.
  assert (ip6_bytes (AddrFrom16 (replicate 15 0 ++ [1])) /\ ip6_bytes (AddrFrom16 (253 :: replicate 14 0 ++ [9]))) as [H1 H2].
  { split; (split; [reflexivity|]); repeat constructor; intros ?; discriminate. }
  destruct (createIp6UdpDatagram_valid 5683 49152 (AddrFrom16 (replicate 15 0 ++ [1]))
    (AddrFrom16 (253 :: replicate 14 0 ++ [9])) 63 [104; 105; 33]) as (d & E & Hv & _ & _ & _ & _ & _ & Hd);
    try done; try (unfold in_u; lia); try (simpl; lia).
  - repeat constructor; intros ?; discriminate.
  - exists d. split; [exact E|]. split; [exact Hv|]. split; [|exact Hd].
    vm_compute in E. injection E as <-. reflexivity.
Defined.
