(* ===== verification/SimHosts.v ===== *)
(** * Simulated hosts

    Traffic between nodes and processes on the simulator's machine
    (src/simulation/sim_hosts.go).  A node's datagram to the address of a simulated host goes
    to a local UDP socket; what comes back is sent to the node as an event, with addresses
    and ports reversed.  [SimConn] objects are shared by the connection table and the reader
    goroutine of the connection, so they live in a store.

    Parameters: the order in which Go ranges over the table of hosts, the outcomes of dialing
    and of writes, and [ipv6.ParseHeader] of golang.org/x/net. *)

From S2P Require Import Prelude State Types Event Datagram.

Local Open Scope Z_scope.

#[export] Instance Addr_countable : Countable Addr.
Proof.
  apply (inj_countable' (fun a => match a with
      | AddrZero => inl () | AddrV4 b => inr (inl b) | AddrV6 b z => inr (inr (b, z)) end)
    (fun x : () + (list Z + list Z * string) => match x with
      | inl _ => AddrZero | inr (inl b) => AddrV4 b | inr (inr (b, z)) => AddrV6 b z end)).
  by intros [].
Defined.

Record ConnId := mkConnId { ci_NodeIp6Addr : Addr; ci_ExtIp6Addr : Addr; ci_NodePort : Z; ci_ExtPort : Z }.
#[export] Instance ConnId_eq_dec : EqDecision ConnId.
Proof. solve_decision. Defined.
#[export] Instance ConnId_countable : Countable ConnId.
Proof.
  apply (inj_countable' (fun c => (ci_NodeIp6Addr c, ci_ExtIp6Addr c, ci_NodePort c, ci_ExtPort c))
    (fun '(a, b, c, d) => mkConnId a b c d)). by intros [].
Defined.

Record SimHostEndpoint := mkEndpoint { se_HostName : string; se_Ip6Addr : Addr; se_Port : Z; se_PortMapped : Z }.
#[export] Instance SimHostEndpoint_eq_dec : EqDecision SimHostEndpoint.
Proof. solve_decision. Defined.
#[export] Instance SimHostEndpoint_countable : Countable SimHostEndpoint.
Proof.
  apply (inj_countable' (fun h => (se_HostName h, se_Ip6Addr h, se_Port h, se_PortMapped h))
    (fun '(a, b, c, d) => mkEndpoint a b c d)). by intros [].
Defined.

(** A connection; [sc_Conn] is the local port it is connected to, [sc_closed] whether its
    socket was closed. *)
Record SimConn := mkSimConn {
  sc_Node : NodeId;
  sc_Conn : Z;
  sc_closed : bool;
  sc_Nat66State : MsgToHostEventData;
  sc_PortMapped : Z;
  sc_UdpBytesUpstream : Z;
  sc_UdpBytesDownstream : Z;
}.
Definition set_closed (c : SimConn) : SimConn :=
  mkSimConn (sc_Node c) (sc_Conn c) true (sc_Nat66State c) (sc_PortMapped c) (sc_UdpBytesUpstream c)
    (sc_UdpBytesDownstream c).
Definition add_up (n : Z) (c : SimConn) : SimConn :=
  mkSimConn (sc_Node c) (sc_Conn c) (sc_closed c) (sc_Nat66State c) (sc_PortMapped c)
    (u64 (sc_UdpBytesUpstream c + n)) (sc_UdpBytesDownstream c).
Definition add_down (n : Z) (c : SimConn) : SimConn :=
  mkSimConn (sc_Node c) (sc_Conn c) (sc_closed c) (sc_Nat66State c) (sc_PortMapped c)
    (sc_UdpBytesUpstream c) (u64 (sc_UdpBytesDownstream c + n)).

(** What leaves: datagrams to local ports, events posted to the dispatcher. *)
Inductive HostOutput :=
| HUdp (port : Z) (data : list Z)
| HPost (evt : Event).

Record SimHosts := mkSimHosts {
  sh_Hosts : gset SimHostEndpoint;
  sh_Conns : gmap ConnId nat;
  sh_store : gmap nat SimConn;
  sh_next : nat;
  sh_calls : nat;
  sh_out : list HostOutput;
}.
Definition NewSimHosts : SimHosts := mkSimHosts ∅ ∅ ∅ 0 0 [].

Class HostEnv := {
  range_hosts : gset SimHostEndpoint -> list SimHostEndpoint;
  range_hosts_perm hs : range_hosts hs ≡ₚ elements hs;
  (** whether the [n]-th call to [net.Dial] or [Write] succeeds *)
  net_ok : nat -> bool;
  (** [ipv6.ParseHeader]: version and next header *)
  ParseHeader : list Z -> option (Z * Z);
}.

Section hosts.
Context {env : HostEnv}.
Abbreviation HM := (st SimHosts) (only parsing).

Definition call : HM bool := fun s =>
  Ok (net_ok (sh_calls s),
      mkSimHosts (sh_Hosts s) (sh_Conns s) (sh_store s) (sh_next s) (S (sh_calls s)) (sh_out s)).
Definition emit (o : HostOutput) : HM () :=
  modify (fun s => mkSimHosts (sh_Hosts s) (sh_Conns s) (sh_store s) (sh_next s) (sh_calls s) (sh_out s ++ [o])).
Definition get_conn (l : nat) : HM SimConn := fun s =>
  match sh_store s !! l with Some c => Ok (c, s) | None => Panic NilDereference end.
Definition put_conn (l : nat) (c : SimConn) : HM () :=
  modify (fun s => mkSimHosts (sh_Hosts s) (sh_Conns s) (<[l:=c]> (sh_store s)) (sh_next s) (sh_calls s) (sh_out s)).

Definition AddHost (host : SimHostEndpoint) : HM () :=
  modify (fun s => mkSimHosts ({[host]} ∪ sh_Hosts s) (sh_Conns s) (sh_store s) (sh_next s) (sh_calls s) (sh_out s)).

(** Whether a connection leads to the address and port of [host]. *)
Definition leads_to (host : SimHostEndpoint) (c : SimConn) : bool :=
  bool_decide (mh_DstIp6Address (sc_Nat66State c) = se_Ip6Addr host) &&
  (mh_DstPort (sc_Nat66State c) =? se_Port host).
Definition RemoveHost (host : SimHostEndpoint) : HM () :=
  modify (fun s =>
    let gone l := match sh_store s !! l with Some c => leads_to host c | None => false end in
    mkSimHosts (sh_Hosts s ∖ {[host]})
      (filter (fun '(_, l) => gone l = false) (sh_Conns s))
      (map_imap (fun l c => Some (if bool_decide (l ∈ map_img (SA := gset nat) (sh_Conns s)) && gone l
                                  then set_closed c else c)) (sh_store s))
      (sh_next s) (sh_calls s) (sh_out s)).

Definition total_bytes (f : SimConn -> Z) (host : SimHostEndpoint) (s : SimHosts) : Z :=
  map_fold (fun id l n =>
    if bool_decide (se_Ip6Addr host = ci_ExtIp6Addr id) && (se_Port host =? ci_ExtPort id) then
      match sh_store s !! l with Some c => u64 (n + f c) | None => n end
    else n) 0 (sh_Conns s).
Definition GetTxBytes : SimHostEndpoint -> SimHosts -> Z := total_bytes sc_UdpBytesDownstream.
Definition GetRxBytes : SimHostEndpoint -> SimHosts -> Z := total_bytes sc_UdpBytesUpstream.

(** The loop over the hosts does not stop at a match: [host] is the last host of the range
    when it ends. *)
Definition find_host (md : MsgToHostEventData) (s : SimHosts) : option SimHostEndpoint :=
  let hosts := range_hosts (sh_Hosts s) in
  if existsb (fun h => (se_Port h =? mh_DstPort md) && bool_decide (se_Ip6Addr h = mh_DstIp6Address md)) hosts
  then last hosts else None.

Definition connId_of (md : MsgToHostEventData) : ConnId :=
  mkConnId (mh_SrcIp6Address md) (mh_DstIp6Address md) (mh_SrcPort md) (mh_DstPort md).

(** The existing or a new connection. *)
Definition getConn (node : NodeId) (md : MsgToHostEventData) (host : SimHostEndpoint) : HM (option nat) :=
  s ← get;
  match sh_Conns s !! connId_of md with
  | Some l => mret (Some l)
  | None =>
    ok ← call;
    if (ok : bool) then
      let l := sh_next s in
      _ ← put_conn l (mkSimConn node (se_PortMapped host) false md (se_PortMapped host) 0 0);
      _ ← modify (fun s => mkSimHosts (sh_Hosts s) (<[connId_of md:=l]> (sh_Conns s)) (sh_store s) (S l)
            (sh_calls s) (sh_out s));
      mret (Some l)
    else mret None
  end.

Definition handleUdpFromNode (node : NodeId) (md : MsgToHostEventData) (udpData : list Z) : HM () :=
  host ← gets (find_host md);
  match host with
  | None => mret tt
  | Some host =>
    l ← getConn node md host;
    match l with
    | None => mret tt
    | Some l =>
      c ← get_conn l;
      ok ← (if sc_closed c then mret false else call);
      if (ok : bool) then
        _ ← emit (HUdp (sc_Conn c) udpData);
        put_conn l (add_up (Z.of_nat (length udpData)) c)
      else mret tt
    end
  end.

Definition hopLim : Z := 63.
Definition IPv6Unspecified : Addr := AddrV6 (replicate 16 0) "".

Definition handleUdpFromSimHost (l : nat) (udpData : list Z) : HM () :=
  c ← get_conn l;
  _ ← put_conn l (add_down (Z.of_nat (length udpData)) c);
  let md := sc_Nat66State c in
  let back := mkMsgToHost (mh_DstPort md) (mh_SrcPort md) (mh_DstIp6Address md) (mh_SrcIp6Address md) in
  if bool_decide (mh_SrcIp6Address md = IPv6Unspecified) then
    emit (HPost (set_MsgToHostData back (set_NodeId (sc_Node c) (set_Data udpData
      (set_Type EventTypeUdpFromHost zeroEvent)))))
  else
    ip6Datagram ← lift (createIp6UdpDatagram (mh_DstPort md) (mh_SrcPort md) (mh_DstIp6Address md)
      (mh_SrcIp6Address md) hopLim udpData);
    emit (HPost (set_MsgToHostData back (set_NodeId (sc_Node c) (set_Data ip6Datagram
      (set_Type EventTypeIp6FromHost zeroEvent))))).

Definition OtMaxIp6DatagramLength : nat := 1280.
Definition OtMaxUdpPayloadLength : nat := 1232.

(** The reader goroutine: the datagrams that the local socket returns until it fails. *)
Fixpoint udpReaderGoRoutine (l : nat) (reads : list (list Z)) : HM () :=
  match reads with
  | [] => c ← get_conn l; put_conn l (set_closed c)
  | data :: reads =>
    let buf := take OtMaxIp6DatagramLength data in
    _ ← (if bool_decide (OtMaxUdpPayloadLength <= length buf)%nat then mret tt else handleUdpFromSimHost l buf);
    udpReaderGoRoutine l reads
  end.

Definition udpHeaderLen : nat := 8.
Definition ip6HeaderLen : nat := 40.
Definition protocolUdp : Z := 17.
Definition handleIp6FromNode (node : NodeId) (md : MsgToHostEventData) (ip6Data : list Z) : HM () :=
  match ParseHeader ip6Data with
  | None => mret tt
  | Some (version, nextHeader) =>
    if (version =? 6) && (nextHeader =? protocolUdp) &&
       bool_decide (ip6HeaderLen + udpHeaderLen < length ip6Data)%nat then
      udpData ← lift (slice ip6Data (ip6HeaderLen + udpHeaderLen) (length ip6Data));
      handleUdpFromNode node md udpData
    else mret tt
  end.
End hosts.

(** ** The connection table *)
Section laws.
Context {env : HostEnv}.
Implicit Types s : SimHosts.

Record sh_wf s : Prop := {
  (** a connection is stored under its own addresses and ports *)
  wf_conn id l : sh_Conns s !! id = Some l ->
    exists c, sh_store s !! l = Some c /\ connId_of (sc_Nat66State c) = id;
  wf_fresh l : is_Some (sh_store s !! l) -> (l < sh_next s)%nat;
}.

Inductive HostOp :=
| OpAddHost (h : SimHostEndpoint)
| OpRemoveHost (h : SimHostEndpoint)
| OpUdp (node : NodeId) (md : MsgToHostEventData) (data : list Z)
| OpIp6 (node : NodeId) (md : MsgToHostEventData) (data : list Z)
| OpReads (l : nat) (reads : list (list Z)).
Definition run_op (o : HostOp) : st SimHosts () :=
  match o with
  | OpAddHost h => AddHost h
  | OpRemoveHost h => RemoveHost h
  | OpUdp node md data => handleUdpFromNode node md data
  | OpIp6 node md data => handleIp6FromNode node md data
  | OpReads l reads => udpReaderGoRoutine l reads
  end.
Inductive sh_reachable : SimHosts -> Prop :=
| shr_new : sh_reachable NewSimHosts
| shr_op o s s' : sh_reachable s -> run_op o s = Ok (tt, s') -> sh_reachable s'.

(** Operations that leave table and store alone. *)
Lemma wf_call : preserves sh_wf call.
Proof. intros s b s' [] [= <- <-]. by split. Qed.
Lemma wf_emit o : preserves sh_wf (emit o).
Proof. apply hoare_modify. intros s []. by split. Qed.
(** A connection object is replaced by one with the same addresses. *)
Lemma wf_put_conn l c s :
  sh_wf s -> (exists c0, sh_store s !! l = Some c0 /\ sc_Nat66State c0 = sc_Nat66State c) ->
  sh_wf (mkSimHosts (sh_Hosts s) (sh_Conns s) (<[l:=c]> (sh_store s)) (sh_next s) (sh_calls s) (sh_out s)).
Proof.
  intros [W1 W2] (c0 & H0 & E). split; simpl.
  - intros id k Hk. destruct (W1 id k Hk) as (c1 & H1 & Hid). destruct (decide (l = k)) as [<-|].
    + exists c. rewrite lookup_insert_eq. split; [done|]. rewrite H0 in H1. injection H1 as <-. by rewrite <- E.
    + exists c1. by rewrite lookup_insert_ne.
  - intros k [c1 [[<- _]|[_ ?]]%lookup_insert_Some]; apply W2; by eexists.
Qed.
Lemma wf_update l f :
  (forall c, sc_Nat66State (f c) = sc_Nat66State c) -> preserves sh_wf (c ← get_conn l; put_conn l (f c)).
Proof.
  intros Hf s [] s' W E. apply bind_st_Ok in E as (c & s1 & Eg & E). unfold get_conn in Eg.
  destruct (sh_store s !! l) as [c0|] eqn:Hl; [|done]. injection Eg as <- <-. injection E as <-.
  apply wf_put_conn; [done|]. exists c0. by rewrite Hf.
Qed.
Lemma get_conn_Ok l s c s' : get_conn l s = Ok (c, s') <-> sh_store s !! l = Some c /\ s' = s.
Proof. unfold get_conn. destruct (sh_store s !! l); split; naive_solver. Qed.

Lemma wf_getConn node md host : hoare sh_wf (getConn node md host) (fun ol s =>
  sh_wf s /\ forall l, ol = Some l -> is_Some (sh_store s !! l)).
Proof.
  intros s ol s' W E. unfold getConn in E. apply bind_st_Ok in E as (? & ? & [<- <-]%get_st_Ok & E).
  destruct (sh_Conns s !! connId_of md) as [l|] eqn:Hc.
  - apply ret_st_Ok in E as [<- <-]. split; [done|]. intros k [= <-].
    destruct (wf_conn s W _ _ Hc) as (c & ? & _). by eexists.
  - apply bind_st_Ok in E as (ok & s1 & [= <- <-] & E). destruct (net_ok (sh_calls s)).
    + apply bind_st_Ok in E as ([] & s2 & <-%modify_st_Ok & E).
      apply bind_st_Ok in E as ([] & s3 & <-%modify_st_Ok & E). apply ret_st_Ok in E as [<- <-]. simpl.
      destruct W as [W1 W2].
      assert (sh_store s !! sh_next s = None) as Hfresh.
      { destruct (sh_store s !! sh_next s) eqn:Hx; [|done]. assert (sh_next s < sh_next s)%nat by (apply W2; eauto). lia. }
      split; [split; simpl|].
      * intros id l [[<- <-]|[_ Hl]]%lookup_insert_Some.
        -- eexists. rewrite lookup_insert_eq. by split.
        -- destruct (W1 id l Hl) as (c & Hcl & Hid). exists c. split; [|done].
           rewrite lookup_insert_ne; [done|]. intros <-. by rewrite Hfresh in Hcl.
      * intros l [c [[<- _]|[_ Hl]]%lookup_insert_Some]; [lia|].
        assert (l < sh_next s)%nat by (apply W2; by eexists). lia.
      * intros l [= <-]. simpl. rewrite lookup_insert_eq. by eexists.
    + apply ret_st_Ok in E as [<- <-]. destruct W as [W1 W2]. by split; [split|].
Qed.
#[local] Hint Resolve wf_call wf_emit : hoare.
Lemma wf_handleUdpFromNode node md data : preserves sh_wf (handleUdpFromNode node md data).
Proof.
  unfold handleUdpFromNode. apply pres_bind; [apply pres_gets|]. intros [h|]; [|apply pres_ret].
  eapply hoare_bind; [apply wf_getConn|]. intros [l|] s [] s' [W Hl] E; [|by apply ret_st_Ok in E as [_ <-]].
  apply bind_st_Ok in E as (c & ? & [Hc ->]%get_conn_Ok & E). apply bind_st_Ok in E as (ok & s1 & E1 & E).
  assert (sh_wf s1 /\ sh_store s1 = sh_store s) as [W1 HS].
  { destruct (sc_closed c); [by apply ret_st_Ok in E1 as [_ <-]|].
    split; [by eapply wf_call|by injection E1 as _ <-]. }
  destruct ok; [|by apply ret_st_Ok in E as [_ <-]]. apply bind_st_Ok in E as ([] & s2 & E2 & E).
  apply modify_st_Ok in E as <-. assert (sh_store s2 = sh_store s) as HS2 by (by injection E2 as <-).
  apply wf_emit in E2; [|done]. apply wf_put_conn; [done|]. exists c. rewrite HS2. by split.
Qed.

Lemma wf_handleUdpFromSimHost l data : preserves sh_wf (handleUdpFromSimHost l data).
Proof.
  intros s [] s' W E. unfold handleUdpFromSimHost in E. apply bind_st_Ok in E as (c & ? & [Hc ->]%get_conn_Ok & E).
  apply bind_st_Ok in E as ([] & s1 & <-%modify_st_Ok & E).
  refine (hoare_run sh_wf _ _ _ _ E _ _); [apply wf_put_conn; [done|by exists c]|]. pres.
Qed.
Lemma wf_udpReader l reads : preserves sh_wf (udpReaderGoRoutine l reads).
Proof.
  induction reads as [|data reads IH]; cbn [udpReaderGoRoutine]; [by apply wf_update|].
  apply pres_bind; [|done]. case_bool_decide; [apply pres_ret|apply wf_handleUdpFromSimHost].
Qed.
Lemma wf_RemoveHost h : preserves sh_wf (RemoveHost h).
Proof.
  apply hoare_modify. intros s [W1 W2]. split; simpl.
  - intros id l [Hl Hg]%map_lookup_filter_Some. destruct (W1 id l Hl) as (c & Hc & Hid). rewrite Hc in Hg.
    rewrite map_lookup_imap, Hc. simpl. eexists. split; [reflexivity|]. by rewrite Hg, andb_false_r.
  - intros l [c Hc]. rewrite map_lookup_imap in Hc. apply W2. destruct (sh_store s !! l); [by eexists|done].
Qed.
Lemma wf_run_op o : preserves sh_wf (run_op o).
Proof.
  destruct o; cbn [run_op].
  - apply hoare_modify. intros s []. by split.
  - apply wf_RemoveHost.
  - apply wf_handleUdpFromNode.
  - unfold handleIp6FromNode. pose proof wf_handleUdpFromNode. pres.
  - apply wf_udpReader.
Qed.
Lemma sh_reachable_wf s : sh_reachable s -> sh_wf s.
Proof.
  induction 1 as [|o s s' _ IH E]; [|by eapply wf_run_op]. split; simpl; [done|]. by intros l [c Hc].
Qed.

(** What is posted for a datagram that comes back. *)
Definition reversed (md : MsgToHostEventData) : MsgToHostEventData :=
  mkMsgToHost (mh_DstPort md) (mh_SrcPort md) (mh_DstIp6Address md) (mh_SrcIp6Address md).
Definition md_ok (md : MsgToHostEventData) : Prop :=
  in_u 16 (mh_SrcPort md) /\ in_u 16 (mh_DstPort md) /\ ip6_bytes (mh_SrcIp6Address md) /\ ip6_bytes (mh_DstIp6Address md).
End laws.


(** ** Which host gets a datagram *)
Definition addressed (md : MsgToHostEventData) (h : SimHostEndpoint) : Prop :=
  se_Port h = mh_DstPort md /\ se_Ip6Addr h = mh_DstIp6Address md.

(** The first datagram of a connection reaches a host if and only if some host has its
    address and port; but it goes to the mapped port of the host that the range over the
    table ends with, whether or not that is the host that was addressed. *)
Theorem handleUdpFromNode_last_host `{env : HostEnv} s node md data :
  sh_Conns s !! connId_of md = None -> net_ok (sh_calls s) = true -> net_ok (S (sh_calls s)) = true ->
  exists s', handleUdpFromNode node md data s = Ok (tt, s') /\
    ((exists h, h ∈ sh_Hosts s /\ addressed md h) ->
       exists h, h ∈ sh_Hosts s /\ last (range_hosts (sh_Hosts s)) = Some h /\
         sh_out s' = sh_out s ++ [HUdp (se_PortMapped h) data]) /\
    (~ (exists h, h ∈ sh_Hosts s /\ addressed md h) -> s' = s).
Proof.
  intros Hc N1 N2.
  assert (forall h, h ∈ range_hosts (sh_Hosts s) <-> h ∈ sh_Hosts s) as HP.
  { intros h. by rewrite range_hosts_perm, elem_of_elements. }
  unfold handleUdpFromNode, mbind, st_bind, gets, find_host.
  set (test := fun h => (se_Port h =? mh_DstPort md) && bool_decide (se_Ip6Addr h = mh_DstIp6Address md)).
  assert (forall h, test h = true <-> addressed md h) as Ht.
  { intros h. unfold test, addressed. by rewrite andb_true_iff, Z.eqb_eq, bool_decide_eq_true. }
  destruct (existsb test (range_hosts (sh_Hosts s))) eqn:EX.
  - apply existsb_exists in EX as (h & Hin & Hh). apply list_elem_of_In in Hin.
    destruct (last (range_hosts (sh_Hosts s))) as [h'|] eqn:HL.
    + unfold getConn, mbind, st_bind, get. rewrite Hc. unfold call. rewrite N1. unfold put_conn, modify, mret, st_ret.
      unfold get_conn. cbn [sh_store]. rewrite lookup_insert_eq. cbn [sc_closed sh_calls]. rewrite N2.
      eexists. split; [reflexivity|]. split; [|intros []; exists h; by rewrite <- HP, <- Ht].
      intros _. exists h'. split; [apply HP; by apply last_Some_elem_of|]. by split.
    + apply last_None in HL. rewrite HL in Hin. by apply elem_of_nil in Hin.
  - eexists. split; [reflexivity|]. split; [|done]. intros (h & Hh & Ha). exfalso.
    assert (existsb test (range_hosts (sh_Hosts s)) = true); [|congruence].
    apply existsb_exists. exists h. split; [apply list_elem_of_In; by apply HP|by apply Ht].
Qed.

(** ** An example: a node asks the first of two hosts *)
Definition ex_host_env : HostEnv := {|
  range_hosts hs := elements hs; range_hosts_perm hs := Permutation_refl _; net_ok _ := true;
  ParseHeader d := if bool_decide (40 <= length d)%nat then Some (6, 17) else None |}.
Definition ex_addr (n : Z) : Addr := AddrFrom16 (253 :: replicate 14 0 ++ [n]).
Definition ex_host (n : Z) : SimHostEndpoint := mkEndpoint "host" (ex_addr n) 5683 (9000 + n).
Definition ex_md : MsgToHostEventData := mkMsgToHost 49152 5683 (ex_addr 99) (ex_addr 1).
Definition ex_two_hosts : SimHosts := mkSimHosts ({[ex_host 1]} ∪ ({[ex_host 2]} ∪ ∅)) ∅ ∅ 0 0 [].
Definition ex_after_udp : SimHosts :=
  match handleUdpFromNode (env := ex_host_env) 7 ex_md [1; 2; 3] ex_two_hosts with Ok (_, s) => s | Panic _ => NewSimHosts end.

Lemma handleUdpFromNode_last_host_witness :
  addressed ex_md (ex_host 1) /\ sh_out ex_after_udp = [HUdp (se_PortMapped (ex_host 2)) [1; 2; 3]] /\
  exists h, last (range_hosts (HostEnv := ex_host_env) (sh_Hosts ex_two_hosts)) = Some h /\
    sh_out ex_after_udp = [HUdp (se_PortMapped h) [1; 2; 3]].
Proof.
  split; [by split|]. split; [vm_compute; reflexivity|].
  destruct (handleUdpFromNode_last_host (env := ex_host_env) ex_two_hosts 7 ex_md [1; 2; 3] eq_refl eq_refl eq_refl)
    as (s' & E & H & _).
  destruct H as (h & _ & Hl & Ho); [exists (ex_host 1); split; [set_solver|by split]|].
  exists h. split; [exact Hl|]. unfold ex_after_udp. rewrite E. exact Ho.
Defined.

Definition ex_hosts_ops : list HostOp := [OpAddHost (ex_host 1); OpUdp 7 ex_md [1; 2; 3]].
Fixpoint run_ops (ops : list HostOp) : st SimHosts () :=
  match ops with [] => mret tt | o :: ops => _ ← run_op (env := ex_host_env) o; run_ops ops end.
Lemma run_ops_reachable ops s u s' :
  sh_reachable (env := ex_host_env) s -> run_ops ops s = Ok (u, s') -> sh_reachable (env := ex_host_env) s'.
Proof.
  revert s. induction ops as [|o ops IH]; intros s H E; [by apply ret_st_Ok in E as [_ <-]|].
  apply bind_st_Ok in E as ([] & s1 & E1 & E). eapply IH; [|exact E]. by eapply shr_op.
Qed.
Definition ex_conn : SimConn := mkSimConn 7 9001 false ex_md 9001 3 0.
