(* ===== verification/GoText.v ===== *)
(** * More of Go's text functions

    What the simulation package uses of [strings], [bytes], [strconv], [fmt] and
    [path/filepath].  Go strings are byte strings. *)

From S2P Require Import Prelude GoStrings.
From Stdlib Require Import Ascii.
From stdpp Require Import pretty.

Local Open Scope string_scope.

(** ** strings *)
Definition HasPrefix (s p : string) : bool := String.prefix p s.
Fixpoint Join (l : list string) (sep : string) : string :=
  match l with
  | [] => ""
  | [s] => s
  | s :: l => s +:+ sep +:+ Join l sep
  end.
Fixpoint substr_from (n : nat) (s : string) : string :=
  match n, s with
  | O, _ => s
  | S n, String _ s => substr_from n s
  | S _, EmptyString => EmptyString
  end.
(** [strings.Index(s, sub)]: the first position, none if there is none (-1 in Go). *)
Fixpoint Index (s sub : string) : option nat :=
  if HasPrefix s sub then Some O else
  match s with
  | EmptyString => None
  | String _ s => S <$> Index s sub
  end.
(** The ASCII part of [unicode.IsSpace]. *)
Definition is_space (c : ascii) : bool :=
  let n := N_of_ascii c in ((9 <=? n)%N && (n <=? 13)%N) || (n =? 32)%N.
Fixpoint drop_while (p : ascii -> bool) (l : list ascii) : list ascii :=
  match l with
  | [] => []
  | c :: l => if p c then drop_while p l else c :: l
  end.
Definition trim_right (p : ascii -> bool) (l : list ascii) : list ascii := rev (drop_while p (rev l)).
Definition TrimSpace (s : string) : string :=
  String.string_of_list_ascii (trim_right is_space (drop_while is_space (String.list_ascii_of_string s))).
(** [strings.Split(s, sep)] for a separator that is not empty: the cut is made at every
    occurrence, from the left. *)
Fixpoint split_at (fuel : nat) (s sep : string) : list string :=
  match fuel with
  | O => [s]
  | S fuel =>
    match Index s sep with
    | None => [s]
    | Some i => String.substring 0 i s :: split_at fuel (substr_from (i + String.length sep) s) sep
    end
  end.
Definition SplitStr (s sep : string) : list string := split_at (S (String.length s)) s sep.
(** [strings.ReplaceAll(s, " ", "")] *)
Definition RemoveSpaces (s : string) : string :=
  String.string_of_list_ascii (List.filter (fun c => negb (Ascii.eqb c " ")) (String.list_ascii_of_string s)).

(** ** strconv and fmt *)
(** [strconv.Itoa], [%d] *)
Definition Itoa (z : Z) : string := pretty z.
Definition hex_digit (d : Z) : ascii :=
  ascii_of_N (Z.to_N (if (d <? 10)%Z then d + 48 else d + 87)%Z).
Fixpoint hex_digits (fuel : nat) (z : Z) (acc : string) : string :=
  match fuel with
  | O => acc
  | S fuel =>
    let acc := String (hex_digit (z mod 16)) acc in
    if (z <? 16)%Z then acc else hex_digits fuel (z / 16) acc
  end.
(** [%x] of a number of at most 64 bits *)
Definition fmt_x (z : Z) : string :=
  if (z <? 0)%Z then "-" +:+ hex_digits 16 (- z) "" else hex_digits 16 z "".
(** [hex.EncodeToString] *)
Definition EncodeToString (data : list Z) : string :=
  foldr (fun b s => String (hex_digit (b / 16)) (String (hex_digit (b mod 16)) s)) "" data.

(** ** path/filepath on Unix *)
Definition IsAbs (p : string) : bool := HasPrefix p "/".
(** The elements of a path after [Clean], in reverse: [.] and empty elements are dropped, [..]
    removes the element before it. *)
Fixpoint clean_elems (rooted : bool) (elems : list string) (acc : list string) : list string :=
  match elems with
  | [] => acc
  | e :: elems =>
    if String.eqb e "" || String.eqb e "." then clean_elems rooted elems acc
    else if String.eqb e ".." then
      match acc with
      | top :: rest =>
        if String.eqb top ".." then clean_elems rooted elems (e :: acc) else clean_elems rooted elems rest
      | [] => clean_elems rooted elems (if rooted then [] else [e])
      end
    else clean_elems rooted elems (e :: acc)
  end.
Definition Clean (p : string) : string :=
  let rooted := IsAbs p in
  let body := Join (rev (clean_elems rooted (Split p "/"%char) [])) "/" in
  if rooted then "/" +:+ body else if String.eqb body "" then "." else body.
(** [filepath.Join] of two elements: empty elements are ignored. *)
Definition JoinPath (a b : string) : string :=
  if String.eqb a "" then (if String.eqb b "" then "" else Clean b)
  else if String.eqb b "" then Clean a else Clean (a +:+ "/" +:+ b).

Example clean1 : map Clean [""; "/../a//b/./c/.."; "../x/../../y"; "a/.."] = ["."; "/a/b"; "../../y"; "."].
Proof. reflexivity. Qed.
Example join1 : map (fun a => JoinPath a "ot-cli-ftd") ["."; "./ot-rfsim/ot-versions"; "/opt/"; ""] =
  ["ot-cli-ftd"; "ot-rfsim/ot-versions/ot-cli-ftd"; "/opt/ot-cli-ftd"; "ot-cli-ftd"].
Proof. reflexivity. Qed.

(** [strconv.ParseInt(s, base, 0)] with its error as [None] *)
Definition ParseInt (s : string) (base : Z) : option Z :=
  let num t := match t with EmptyString => None | _ => digits base t 0 end in
  match s with
  | String "-"%char t => n ← num t; if (n <=? 2 ^ 63)%Z then Some (- n)%Z else None
  | String "+"%char t => n ← num t; if (n <? 2 ^ 63)%Z then Some n else None
  | _ => n ← num s; if (n <? 2 ^ 63)%Z then Some n else None
  end.
(** [s[n:]]: panics when the string is shorter. *)
Definition slice_from (s : string) (n : nat) : res string :=
  if bool_decide (n <= String.length s)%nat then Ok (substr_from n s) else Panic IndexOutOfRange.
