(* ===== verification/SafePath.v ===== *)
(** * The check of file names (src/simulation/kpi.go)

    The commands save, load and kpi save are given a file name by the user and must not leave
    the working directory.  [CheckSafePath] resolves the symbolic links of the part of the path
    that exists, and compares the result with the working directory, element by element.  Paths
    are strings, as in Go; [Dir], [Base], [Rel], [Abs] and [EvalSymlinks] are those of
    path/filepath on Unix.  What the operating system tells about files is the class [PathEnv].

    Shown here: an accepted path is below the working directory, and no link is on the way if
    the file exists; a plain name is accepted.  A link that points to no file is not seen
    through ([dangling_link_accepted]). *)

From S2P Require Import Prelude GoStrings GoText.
From Stdlib Require Import Ascii.

Local Open Scope string_scope.

Inductive FileMode := ModeDir | ModeFile | ModeSymlink.

Class PathEnv := {
  (** [os.Getwd]: an error or the working directory *)
  os_Getwd : string + string;
  (** [os.Lstat], which does not follow the last element, and [os.Readlink]; [None] is an error *)
  os_Lstat : string -> option FileMode;
  os_Readlink : string -> option string;
}.

(** ** path/filepath *)
(** All but what follows the last separator. *)
Definition Dir (p : string) : string :=
  Clean (foldr (fun w s => w +:+ "/" +:+ s) "" (removelast (Split p "/"%char))).
(** The last element. *)
Definition Base (p : string) : string :=
  match last (base.filter (fun w => w <> "") (Split p "/"%char)) with
  | Some w => w
  | None => if String.eqb p "" then "." else "/"
  end.
(** A path by its elements. *)
Definition path_of (rooted : bool) (es : list string) : string :=
  if rooted then "/" +:+ Join es "/" else Join es "/".

(** The elements of a clean path that [Rel] compares. *)
Definition rel_elems (s : string) : list string :=
  if String.eqb s "" then [] else if String.eqb s "/" then [""] else Split s "/"%char.
Fixpoint strip_common (b t : list string) : list string * list string :=
  match b, t with
  | x :: b', y :: t' => if String.eqb x y then strip_common b' t' else (b, t)
  | _, _ => (b, t)
  end.
Definition Rel (basepath targpath : string) : option string :=
  let base := Clean basepath in
  let targ := Clean targpath in
  if String.eqb targ base then Some "." else
  let base := if String.eqb base "." then "" else base in
  if negb (Bool.eqb (IsAbs base) (IsAbs targ)) then None else
  let '(b, t) := strip_common (rel_elems base) (rel_elems targ) in
  match b with
  | [] => Some (Join t "/")
  | x :: _ =>
    if String.eqb x ".." && bool_decide (t <> []) then None
    else Some (Join (replicate (length b) ".." ++ t)%list "/")
  end.

Section safe.
Context {env : PathEnv}.

(** One [..] behind the elements found so far: the last one goes, unless it is the only one
    behind the root, or itself a [..]; [Clean] deals with these at the end. *)
Definition walk_back (dest : list string) : list string :=
  match rev dest with
  | c :: _ :: _ => if String.eqb c ".." then (dest ++ [".."])%list else removelast dest
  | _ => (dest ++ [".."])%list
  end.
(** [links] more links may be followed; [parts] is what is left of the path. *)
Fixpoint walk (links : nat) : bool -> list string -> list string -> option (bool * list string) :=
  fix go rooted dest parts {struct parts} :=
    match parts with
    | [] => Some (rooted, dest)
    | p :: rest =>
      if String.eqb p "" || String.eqb p "." then go rooted dest rest
      else if String.eqb p ".." then go rooted (walk_back dest) rest
      else
        let dest' := (dest ++ [p])%list in
        match os_Lstat (path_of rooted dest') with
        | None => None
        | Some ModeDir => go rooted dest' rest
        | Some ModeFile => match rest with [] => Some (rooted, dest') | _ => None end
        | Some ModeSymlink =>
          match links, os_Readlink (path_of rooted dest') with
          | S links, Some link =>
            let parts := (Split link "/"%char ++ rest)%list in
            if IsAbs link then walk links true [] parts else walk links rooted dest parts
          | _, _ => None
          end
        end
    end.
Definition EvalSymlinks (path : string) : option string :=
  '(rooted, dest) ← walk 255 (IsAbs path) [] (Split path "/"%char);
  Some (Clean (path_of rooted dest)).
Definition Abs (path : string) : string + string :=
  if IsAbs path then inr (Clean path)
  else match os_Getwd with inl e => inl e | inr cwd => inr (JoinPath cwd path) end.

(** ** The check *)
(** [temp] is the path without the elements [rest], the last of which comes first in it.  The
    fuel is enough when it exceeds the number of elements of the path ([existing_fuel]). *)
Fixpoint existing (fuel : nat) (temp : string) (rest : list string) : option string :=
  match EvalSymlinks temp with
  | Some eval => Some (fold_left JoinPath (rev rest) eval)
  | None =>
    let parent := Dir temp in
    if String.eqb parent temp then None else
    match fuel with
    | O => None
    | S fuel => existing fuel parent (rest ++ [Base temp])%list
    end
  end.
Definition outside (filename : string) : string :=
  "access outside working directory is not allowed: " +:+ filename.
(** An error, or the path. *)
Definition CheckSafePath (filename : string) : string + string :=
  if String.eqb filename "" then inl "empty file path" else
  match os_Getwd with
  | inl e => inl e
  | inr cwd =>
    let evalCwd := default cwd (EvalSymlinks cwd) in
    match Abs filename with
    | inl e => inl e
    | inr abs =>
      let evalAbs := default abs (existing (length (Split abs "/"%char)) abs []) in
      match Rel evalCwd evalAbs with
      | None => inl (outside filename)
      | Some rel =>
        if String.eqb rel ".." || HasPrefix rel "../" then inl (outside filename) else inr evalAbs
      end
    end
  end.

(** ** Clean paths *)
(** An element of a clean path. *)
Definition plain (e : string) : Prop := e <> "" /\ e <> "." /\ e <> ".." /\ no_char "/"%char e.
Abbreviation abs_path := (path_of true).

Lemma Join_concat es : Join es "/" = concat_sep "/"%char es.
Proof. induction es as [|e [|e' es] IH]; [done..|]. cbn [Join concat_sep] in *. by rewrite IH. Qed.
Lemma Split_abs es : Forall (no_char "/"%char) es ->
  Split (abs_path es) "/"%char = "" :: match es with [] => [""] | _ => es end.
Proof.
  intros H. destruct es as [|e es]; [done|]. unfold path_of. rewrite Join_concat.
  change (Split ("/" +:+ ?s) "/"%char) with ("" :: Split s "/"%char). f_equal. by apply Split_concat.
Qed.
Lemma plain_Split es : Forall plain es -> Split (abs_path es) "/"%char = "" :: match es with [] => [""] | _ => es end.
Proof. intros H. apply Split_abs. eapply Forall_impl; [exact H|]. by intros ? (_ & _ & _ & ?). Qed.
Lemma no_char_Split s c : Forall (no_char c) (Split s c).
Proof.
  induction s as [|a s IH]; cbn; [repeat constructor; apply not_elem_of_nil|].
  destruct (Ascii.eqb_spec a c) as [->|N]; [constructor; [apply not_elem_of_nil|done]|].
  destruct (Split s c) as [|w ws]; [|apply Forall_cons in IH as [H IH]]; constructor; try done;
    apply not_elem_of_cons; split; try done; apply not_elem_of_nil.
Qed.

(** Cleaning a list of elements from the left, and a clean list is not changed. *)
Lemma clean_elems_plain es acc :
  Forall (no_char "/"%char) es -> Forall plain acc -> Forall plain (clean_elems true es acc).
Proof.
  revert acc. induction es as [|e es IH]; intros acc He Ha; cbn; [done|].
  apply Forall_cons in He as [He Hes]. destruct (String.eqb_spec e ""), (String.eqb_spec e "."); cbn; try by apply IH.
  destruct (String.eqb_spec e "..") as [->|].
  - destruct acc as [|top acc]; [by apply IH|]. apply Forall_cons in Ha as [Ht Ha].
    destruct (String.eqb_spec top "..") as [->|]; [by destruct Ht as (_ & _ & [] & _)|by apply IH].
  - apply IH; [done|]. constructor; [done|done].
Qed.
Lemma clean_elems_id es acc : Forall plain es -> clean_elems true es acc = (rev es ++ acc)%list.
Proof.
  revert acc. induction es as [|e es IH]; intros acc He; cbn; [done|]. apply Forall_cons in He as [(E1 & E2 & E3 & _) He].
  destruct (String.eqb_spec e ""), (String.eqb_spec e "."), (String.eqb_spec e ".."); try done. cbn.
  rewrite IH by done. by rewrite <- app_assoc.
Qed.
Lemma Clean_rooted p : IsAbs p = true -> exists es, Forall plain es /\ Clean p = abs_path es.
Proof.
  intros H. exists (rev (clean_elems true (Split p "/"%char) [])). split.
  - apply Forall_rev, clean_elems_plain; [apply no_char_Split|done].
  - unfold Clean. by rewrite H.
Qed.
Lemma IsAbs_slash s : IsAbs ("/" +:+ s) = true.
Proof. unfold IsAbs, HasPrefix. by destruct s. Qed.
Lemma IsAbs_abs es : IsAbs (abs_path es) = true.
Proof. apply IsAbs_slash. Qed.
Lemma Clean_abs es : Forall plain es -> Clean (abs_path es) = abs_path es.
Proof.
  intros H. unfold Clean. rewrite IsAbs_abs, plain_Split by done. unfold path_of. f_equal. f_equal.
  cbn [clean_elems String.eqb orb]. destruct es as [|e es]; [done|].
  rewrite clean_elems_id by done. by rewrite app_nil_r, rev_involutive.
Qed.

Lemma abs_path_inj a b : Forall plain a -> Forall plain b -> abs_path a = abs_path b -> a = b.
Proof.
  intros Ha Hb E. apply (f_equal (fun s => Split s "/"%char)) in E. rewrite !plain_Split in E by done.
  injection E as E. destruct a as [|x a], b as [|y b]; [done|..|done].
  - apply Forall_cons in Hb as [(N & _) _]. congruence.
  - apply Forall_cons in Ha as [(N & _) _]. congruence.
Qed.
Lemma abs_path_app es s : es <> [] -> abs_path es +:+ "/" +:+ s = "/" +:+ foldr (fun w s => w +:+ "/" +:+ s) s es.
Proof.
  intros H. unfold path_of. rewrite string_app_assoc. f_equal. induction es as [|e [|e' es] IH]; [done..|].
  cbn [Join foldr] in *. rewrite !string_app_assoc. f_equal. f_equal. by apply IH.
Qed.
(** Cleaning a path whose elements are plain except perhaps empty ones at its ends. *)
Lemma Clean_elems p es : IsAbs p = true -> clean_elems true (Split p "/"%char) [] = rev es -> Clean p = abs_path es.
Proof. intros H1 H2. unfold Clean. rewrite H1, H2. by rewrite rev_involutive. Qed.
Lemma Split_slashed es s : Forall plain es ->
  Split (foldr (fun w s => w +:+ "/" +:+ s) s es) "/"%char = (es ++ Split s "/"%char)%list.
Proof.
  induction 1 as [|e es (_ & _ & _ & H) _ IH]; [done|]. cbn [foldr app].
  rewrite <- IH. by apply (Split_word e _ "/"%char).
Qed.
Lemma clean_elems_app es es' acc :
  clean_elems true (es ++ es')%list acc = clean_elems true es' (clean_elems true es acc).
Proof.
  revert acc. induction es as [|e es IH]; intros acc; [done|]. cbn [app clean_elems].
  destruct (_ || _); [apply IH|]. destruct (String.eqb e ".."); [|apply IH].
  destruct acc as [|top acc]; [apply IH|]. destruct (String.eqb top ".."); apply IH.
Qed.

Lemma Dir_abs es e : Forall plain (es ++ [e])%list -> Dir (abs_path (es ++ [e])) = abs_path es.
Proof.
  intros H. unfold Dir. rewrite plain_Split by done.
  assert (match (es ++ [e])%list with [] => [""] | _ => (es ++ [e])%list end = (es ++ [e])%list) as -> by by destruct es.
  rewrite app_comm_cons, removelast_last. cbn [foldr]. apply Forall_app in H as [H _]. apply Clean_elems; [apply IsAbs_slash|].
  change ("" +:+ "/" +:+ ?s) with ("/" +:+ s). change (Split ("/" +:+ ?s) "/"%char) with ("" :: Split s "/"%char).
  rewrite Split_slashed by done. cbn [clean_elems String.eqb orb]. rewrite clean_elems_app, (clean_elems_id es) by done.
  by rewrite app_nil_r.
Qed.
Lemma Dir_root : Dir (abs_path []) = abs_path [].
Proof. done. Qed.
Lemma filter_plain es : Forall plain es -> base.filter (fun w => w <> "") es = es.
Proof.
  induction 1 as [|e es (H & _) _ IH]; [done|]. rewrite filter_cons_True by done. by rewrite IH.
Qed.
Lemma Base_abs es e : Forall plain (es ++ [e])%list -> Base (abs_path (es ++ [e])) = e.
Proof.
  intros H. unfold Base. rewrite plain_Split by done.
  assert (match (es ++ [e])%list with [] => [""] | _ => (es ++ [e])%list end = (es ++ [e])%list) as -> by by destruct es.
  rewrite filter_cons_False by auto. rewrite filter_plain by done. by rewrite last_snoc.
Qed.
Lemma JoinPath_abs es fs : Forall plain es -> Forall plain fs -> fs <> [] ->
  JoinPath (abs_path es) (Join fs "/") = abs_path (es ++ fs).
Proof.
  intros He Hf N. unfold JoinPath. destruct fs as [|f fs]; [done|].
  assert (Join (f :: fs) "/" <> "") as NE.
  { pose proof Hf as [(Hf0 & _) _]%Forall_cons. destruct f as [|c f]; [done|]. by destruct fs. }
  rewrite (proj2 (String.eqb_neq _ _) NE). cbn [path_of]. change (String.eqb ("/" +:+ ?s) "") with false. cbv iota.
  apply Clean_elems; [apply IsAbs_slash|]. change (("/" +:+ ?s) +:+ ?t) with ("/" +:+ s +:+ t).
  change (Split ("/" +:+ ?s) "/"%char) with ("" :: Split s "/"%char). cbn [clean_elems String.eqb orb].
  assert (Split (Join es "/" +:+ "/" +:+ Join (f :: fs) "/") "/"%char = (match es with [] => [""] | _ => es end ++ f :: fs)%list) as ->.
  { assert (Split (Join (f :: fs) "/") "/"%char = f :: fs) as ES.
    { rewrite Join_concat. apply Split_concat; [done|]. eapply Forall_impl; [exact Hf|]. by intros ? (_ & _ & _ & ?). }
    destruct es as [|e es]; [exact (f_equal (cons "") ES)|]. etransitivity; [|exact (f_equal (app (e :: es)) ES)].
    rewrite <- Split_slashed by done. f_equal.
    pose proof (abs_path_app (e :: es) (Join (f :: fs) "/") ltac:(done)) as E. by injection E. }
  rewrite clean_elems_app. replace (clean_elems true (match es with [] => [""] | _ => es end) []) with (rev es).
  - rewrite clean_elems_id by done. by rewrite rev_app_distr.
  - destruct es as [|e es]; [done|]. rewrite clean_elems_id by done. by rewrite app_nil_r.
Qed.

(** ** The relative path *)
#[local] Ltac app_cbn :=
  repeat change (String ?c ?p +:+ ?s) with (String c (p +:+ s)) in *; repeat change ("" +:+ ?s) with s in *; cbn [String.prefix] in *.
Lemma HasPrefix_app p s : HasPrefix (p +:+ s) p = true.
Proof.
  unfold HasPrefix. induction p as [|c p IH]; [by destruct s|]. app_cbn. by destruct (ascii_dec c c).
Qed.
Lemma Join_up n t : (0 < n)%nat -> let s := Join (replicate n ".." ++ t)%list "/" in
  String.eqb s ".." || HasPrefix s "../" = true.
Proof.
  intros H s. subst s. destruct n as [|n]; [lia|]. cbn [replicate app]. destruct (replicate n ".." ++ t)%list as [|x l]; [done|].
  cbn [Join]. apply orb_true_iff. right. apply (HasPrefix_app "../").
Qed.
(** A text that begins with an element and goes on with a separator, if at all. *)
Lemma elem_not_up e u : plain e -> u = "" \/ HasPrefix u "/" = true ->
  String.eqb (e +:+ u) ".." || HasPrefix (e +:+ u) "../" = false.
Proof.
  intros (N1 & N2 & N3 & C) Hu. apply orb_false_iff. unfold HasPrefix, no_char in *. split.
  - apply String.eqb_neq. intros E. destruct e as [|a [|b [|c e]]]; app_cbn; simplify_eq.
  - destruct e as [|a [|b [|c e]]]; app_cbn; [done|..]; (destruct (ascii_dec "." a) as [<-|]; [|done]).
    + destruct Hu as [->|Hu]; [done|]. destruct u as [|x u]; [done|]. app_cbn. by destruct (ascii_dec "/" x) as [<-|].
    + by destruct (ascii_dec "." b) as [<-|].
    + destruct (ascii_dec "." b) as [<-|]; [|done]. destruct (ascii_dec "/" c) as [<-|]; [|done]. destruct C. do 2 right. left.
Qed.
Lemma Join_down t : Forall plain t -> let s := Join t "/" in String.eqb s ".." || HasPrefix s "../" = false.
Proof.
  intros H s. subst s. destruct t as [|e t]; [done|]. apply Forall_cons in H as [H _]. destruct t as [|e' t]; cbn [Join].
  - rewrite <- (string_app_nil e). apply elem_not_up; auto.
  - apply elem_not_up; [done|]. right. apply (HasPrefix_app "/").
Qed.
Lemma strip_common_eq b t : let '(b', t') := strip_common b t in exists c, b = (c ++ b')%list /\ t = (c ++ t')%list.
Proof.
  revert t. induction b as [|x b IH]; intros [|y t]; cbn [strip_common]; try by exists [].
  destruct (String.eqb_spec x y) as [<-|]; [|by exists []]. specialize (IH t). destruct (strip_common b t) as [b' t'].
  destruct IH as (c & -> & ->). by exists (x :: c).
Qed.
Lemma strip_common_prefix b t : strip_common b (b ++ t) = ([], t).
Proof. induction b as [|x b IH]; [by destruct t|]. cbn. by rewrite String.eqb_refl. Qed.
Lemma rel_elems_abs es : Forall plain es -> rel_elems (abs_path es) = "" :: es.
Proof.
  intros H. unfold rel_elems. destruct es as [|e es]; [done|].
  rewrite (proj2 (String.eqb_neq _ _)) by done. rewrite (proj2 (String.eqb_neq _ "/")).
  - by rewrite plain_Split.
  - intros E. by apply (abs_path_inj (e :: es) []) in E.
Qed.
Definition goes_up (rel : string) : bool := String.eqb rel ".." || HasPrefix rel "../".
Lemma Rel_abs b t : Forall plain b -> Forall plain t ->
  Rel (abs_path b) (abs_path t) =
    if String.eqb (abs_path t) (abs_path b) then Some "." else
    let '(b', t') := strip_common b t in
    Some (Join (replicate (length b') ".." ++ t')%list "/").
Proof.
  intros Hb Ht. unfold Rel. rewrite !Clean_abs by done. destruct (String.eqb _ _); [done|].
  replace (String.eqb (abs_path b) ".") with false by (symmetry; by apply String.eqb_neq).
  rewrite !IsAbs_abs. cbn [negb Bool.eqb]. rewrite !rel_elems_abs by done. cbn [strip_common String.eqb].
  pose proof (strip_common_eq b t) as HE. destruct (strip_common b t) as [b' t']. destruct HE as (c & -> & ->).
  apply Forall_app in Hb as [_ Hb]. destruct b' as [|x b']; [done|].
  apply Forall_cons in Hb as [(_ & _ & N & _) _].
  by rewrite (proj2 (String.eqb_neq x "..") N).
Qed.
(** A path is accepted exactly when it is below the directory. *)
Lemma Rel_inside b t rel : Forall plain b -> Forall plain t -> Rel (abs_path b) (abs_path t) = Some rel ->
  (goes_up rel = false <-> exists rest, t = (b ++ rest)%list).
Proof.
  intros Hb Ht. rewrite Rel_abs by done. destruct (String.eqb_spec (abs_path t) (abs_path b)) as [E|NE].
  - apply abs_path_inj in E as ->; [|done..]. intros [= <-]. split; [|done]. exists []. by rewrite app_nil_r.
  - pose proof (strip_common_eq b t) as HE. destruct (strip_common b t) as [b' t'] eqn:ES. intros [= <-].
    destruct HE as (c & -> & ->). apply Forall_app in Hb as [_ Hb]. apply Forall_app in Ht as [_ Ht]. destruct b' as [|x b'].
    + split; [|intros _; by apply Join_down]. exists t'. by rewrite app_nil_r.
    + unfold goes_up. rewrite Join_up by (cbn; lia). split; [done|]. intros [rest E]. rewrite E in ES.
      rewrite strip_common_prefix in ES. done.
Qed.

(** ** Following links *)
(** What is found on the way of a path: directories. *)
Definition dirs (es : list string) : Prop :=
  forall q c r, es = (q ++ c :: r)%list -> c <> ".." -> os_Lstat (abs_path (q ++ [c])) = Some ModeDir.
(** The same, but the last element may be a file. *)
Definition found (es : list string) : Prop :=
  dirs es \/ exists es0 c, es = (es0 ++ [c])%list /\ dirs es0 /\ c <> ".." /\ os_Lstat (abs_path es) = Some ModeFile.
(** An element of a path on the way, where [..] may remain. *)
Definition step_ok (e : string) : Prop := e <> "" /\ e <> "." /\ no_char "/"%char e.

Lemma dirs_nil : dirs [].
Proof. intros q c r E. by destruct q. Qed.
Lemma dirs_snoc es c : dirs es -> (c <> ".." -> os_Lstat (abs_path (es ++ [c])) = Some ModeDir) -> dirs (es ++ [c]).
Proof.
  intros H1 H2 q x r E N. destruct (decide (r = [])) as [->|NE].
  - apply app_inj_tail in E as [<- <-]. by apply H2.
  - destruct (exists_last NE) as (r' & y & ->). rewrite app_comm_cons, app_assoc in E. apply app_inj_tail in E as [-> _].
    by apply (H1 q x r').
Qed.
Lemma dirs_app_l es r : dirs (es ++ r) -> dirs es.
Proof. intros H q c r' -> N. apply (H q c (r' ++ r)%list); [|done]. by rewrite <- app_assoc. Qed.
Lemma walk_back_ok es : dirs es -> Forall step_ok es -> dirs (walk_back es) /\ Forall step_ok (walk_back es).
Proof.
  intros H HF. assert (dirs (es ++ [".."]) /\ Forall step_ok (es ++ [".."])) as HB.
  { split; [by apply dirs_snoc|]. apply Forall_app. split; [done|]. repeat constructor; try done.
    unfold no_char. cbn. by rewrite !elem_of_cons, elem_of_nil; intros [|[|]]. }
  unfold walk_back. destruct (rev es) as [|c [|c' l]] eqn:E; [done..|]. destruct (String.eqb c ".."); [done|].
  apply (f_equal (@rev _)) in E. rewrite rev_involutive in E. cbn in E. subst es. rewrite removelast_last.
  split; [by eapply dirs_app_l|]. by apply Forall_app in HF as [? _].
Qed.
Lemma walk_nil links rooted dest : walk links rooted dest [] = Some (rooted, dest).
Proof. by destruct links. Qed.
Lemma walk_cons links rooted dest p rest : walk links rooted dest (p :: rest) =
  if String.eqb p "" || String.eqb p "." then walk links rooted dest rest
  else if String.eqb p ".." then walk links rooted (walk_back dest) rest
  else
    let dest' := (dest ++ [p])%list in
    match os_Lstat (path_of rooted dest') with
    | None => None
    | Some ModeDir => walk links rooted dest' rest
    | Some ModeFile => match rest with [] => Some (rooted, dest') | _ => None end
    | Some ModeSymlink =>
      match links, os_Readlink (path_of rooted dest') with
      | S links, Some link =>
        let parts := (Split link "/"%char ++ rest)%list in
        if IsAbs link then walk links true [] parts else walk links rooted dest parts
      | _, _ => None
      end
    end.
Proof. by destruct links. Qed.
Lemma walk_found links dest parts r dest' : walk links true dest parts = Some (r, dest') ->
  dirs dest -> Forall step_ok dest -> Forall (no_char "/"%char) parts -> r = true /\ found dest' /\ Forall step_ok dest'.
Proof.
  revert dest parts. induction links as [links IHl] using lt_wf_ind. intros dest parts. revert dest.
  induction parts as [|p parts IH]; intros dest; [rewrite walk_nil; intros [= <- <-] H1 H2 _; split_and!; [done|by left|done]|].
  rewrite walk_cons. intros E H1 H2 [Hp H3]%Forall_cons. destruct (_ || _) eqn:EE; [by eapply IH|].
  apply orb_false_iff in EE as [N1%String.eqb_neq N2%String.eqb_neq].
  destruct (String.eqb_spec p "..") as [->|N3]; [destruct (walk_back_ok dest H1 H2); by eapply IH|].
  assert (Forall step_ok (dest ++ [p])) as H4 by (apply Forall_app; split; [done|by repeat constructor]).
  cbv zeta in E. destruct (os_Lstat (path_of true (dest ++ [p]))) as [[]|] eqn:EL; [| | |done].
  - eapply IH; [exact E|by apply dirs_snoc|done..].
  - destruct parts; [|done]. injection E as <- <-. split_and!; [done| |done]. right. by exists dest, p.
  - destruct links as [|links]; [done|]. destruct (os_Readlink _) as [link|]; [|done].
    destruct (IsAbs link); (eapply (IHl links); [lia|exact E|try done; apply dirs_nil|done|]);
      apply Forall_app; split; try done; apply no_char_Split.
Qed.

(** What Unix says of a path: [..] after a directory that is no link goes back, and from the root
    it leads to the root. *)
Class PathEnvOk := {
  lstat_parent p c q : Forall step_ok (p ++ [c] ++ q) -> os_Lstat (abs_path (p ++ [c])) = Some ModeDir -> c <> ".." -> q <> [] ->
    os_Lstat (abs_path (p ++ [c; ".."] ++ q)) = os_Lstat (abs_path (p ++ q));
  lstat_root q : Forall step_ok q -> q <> [] -> os_Lstat (abs_path (".." :: q)) = os_Lstat (abs_path q);
}.

Section unix.
Context `{!PathEnvOk}.

(** Cleaning does not change what is found. *)
Lemma clean_dirs es : dirs es -> Forall step_ok es ->
  exists cs, clean_elems true es [] = rev cs /\ Forall plain cs /\ dirs cs /\
    forall q, Forall step_ok q -> q <> [] -> os_Lstat (abs_path (es ++ q)) = os_Lstat (abs_path (cs ++ q)).
Proof.
  induction es as [|c es IH] using rev_ind; intros HD HF; [exists []; split_and!; try done; apply dirs_nil|].
  apply Forall_app in HF as [HF HC]. pose proof HC as [(N1 & N2 & HC') _]%Forall_cons.
  destruct IH as (cs & E & HP & HD' & HL); [by eapply dirs_app_l|done|]. rewrite clean_elems_app, E. cbn [clean_elems].
  rewrite (proj2 (String.eqb_neq _ _) N1), (proj2 (String.eqb_neq _ _) N2). cbn [orb].
  assert (forall q, Forall step_ok q -> q <> [] -> Forall step_ok ([c] ++ q)) as HS by (intros; by apply Forall_app).
  destruct (String.eqb_spec c "..") as [->|N3].
  - destruct cs as [|x cs _] using rev_ind.
    + exists []. split_and!; [done..|]. intros q Hq N. rewrite <- app_assoc, HL by auto. by apply lstat_root.
    + pose proof HP as [HP1 [(_ & _ & N & _) _]%Forall_cons]%Forall_app. exists cs.
      rewrite rev_app_distr. cbn [rev app]. rewrite (proj2 (String.eqb_neq _ _) N). split_and!; [done..|by eapply dirs_app_l|].
      intros q Hq N0. rewrite <- app_assoc, HL, <- app_assoc by auto. apply lstat_parent; [| |done..].
      * rewrite app_assoc. apply Forall_app. split; [|done]. eapply Forall_impl; [exact HP|]. intros ? (? & ? & _ & ?). done.
      * by apply (HD' cs x []).
  - exists (cs ++ [c])%list. rewrite rev_app_distr. split_and!; [done| | |].
    + apply Forall_app. split; [done|]. by repeat constructor.
    + apply dirs_snoc; [done|]. intros _. rewrite <- HL by done. by apply (HD es c []).
    + intros q Hq N. rewrite <- !app_assoc. apply HL; auto.
Qed.
(** No link is met on the way. *)
Definition no_links (es : list string) : Prop :=
  forall q r, es = (q ++ r)%list -> q <> [] -> exists m, os_Lstat (abs_path q) = Some m /\ m <> ModeSymlink.
Lemma dirs_no_links es : Forall plain es -> dirs es -> no_links es.
Proof.
  intros HP HD q r -> N. destruct (exists_last N) as (q' & c & ->). exists ModeDir. split; [|done].
  apply Forall_app in HP as [HP _]. apply Forall_app in HP as [_ HP]. apply Forall_cons in HP as [(_ & _ & ? & _) _].
  apply (HD q' c r); [|done]. by rewrite <- app_assoc.
Qed.
Lemma no_links_snoc es c m : no_links es -> os_Lstat (abs_path (es ++ [c])) = Some m -> m <> ModeSymlink -> no_links (es ++ [c]).
Proof.
  intros H1 H2 H3 q r E N. destruct (decide (r = [])) as [->|NE]; [rewrite app_nil_r in E; subst q; by exists m|].
  destruct (exists_last NE) as (r' & y & ->). rewrite app_assoc in E. apply app_inj_tail in E as [-> _]. by apply (H1 q r').
Qed.
Lemma EvalSymlinks_real p q : IsAbs p = true -> EvalSymlinks p = Some q ->
  exists es, q = abs_path es /\ Forall plain es /\ no_links es.
Proof.
  unfold EvalSymlinks. intros HA. rewrite HA. destruct (walk _ _ _ _) as [[r es]|] eqn:E; [|done]. intros [= <-].
  apply walk_found in E as (-> & HF & HS); [|apply dirs_nil|done|apply no_char_Split].
  assert (forall cs, clean_elems true es [] = rev cs -> Clean (abs_path es) = abs_path cs) as HC.
  { intros cs Hcs. apply Clean_elems; [apply IsAbs_abs|].
    rewrite Split_abs by (eapply Forall_impl; [exact HS|by intros ? (_ & _ & ?)]). by destruct es. }
  destruct HF as [HD|(es0 & c & -> & HD & N & HL)].
  - destruct (clean_dirs es HD HS) as (cs & Hcs & HP & HD' & _). exists cs. split_and!; [by apply HC|done|by apply dirs_no_links].
  - apply Forall_app in HS as [HS HX]. apply Forall_cons in HX as [(N1 & N2 & HX) _].
    destruct (clean_dirs es0 HD HS) as (cs & Hcs & HP & HD' & HQ). exists (cs ++ [c])%list. split_and!.
    + apply HC. rewrite clean_elems_app, Hcs, rev_app_distr. cbn [clean_elems].
      by rewrite (proj2 (String.eqb_neq _ _) N1), (proj2 (String.eqb_neq _ _) N2), (proj2 (String.eqb_neq _ _) N).
    + apply Forall_app. split; [done|]. by repeat constructor.
    + apply (no_links_snoc _ _ ModeFile); [by apply dirs_no_links| |done]. rewrite <- HQ; [done|by repeat constructor|done].
Qed.
End unix.

(** ** The part of a path that exists *)
Lemma Join_elems es fs : Forall plain es -> Forall plain fs -> fold_left JoinPath fs (abs_path es) = abs_path (es ++ fs).
Proof.
  intros He Hf. revert es He. induction Hf as [|f fs Hf Hfs IH]; intros es He; cbn [fold_left]; [by rewrite app_nil_r|].
  assert (Forall plain [f]) as H1 by by apply Forall_singleton.
  change f with (Join [f] "/") at 1. rewrite (JoinPath_abs es [f]), IH by (done || by apply Forall_app).
  by rewrite <- app_assoc.
Qed.
Lemma Eval_root : EvalSymlinks (abs_path []) = Some (abs_path []).
Proof. done. Qed.
(** The root exists, so the loop always finds a directory: the one that [rest] is below. *)
Lemma existing_spec `{!PathEnvOk} fuel es rest : Forall plain es -> Forall plain rest -> (length es <= fuel)%nat ->
  exists es1 es2 ev, es = (es1 ++ es2)%list /\ EvalSymlinks (abs_path es1) = Some (abs_path ev) /\ Forall plain ev /\ no_links ev /\
    (is_Some (EvalSymlinks (abs_path es)) -> es2 = []) /\
    existing fuel (abs_path es) rest = Some (abs_path (ev ++ es2 ++ rev rest)).
Proof.
  revert es rest. induction fuel as [|fuel IH]; intros es rest He Hr HL; cbn [existing].
  all: destruct (EvalSymlinks (abs_path es)) as [q|] eqn:E;
    [destruct (EvalSymlinks_real _ _ (IsAbs_abs es) E) as (ev & -> & HP & HN); exists es, [], ev; rewrite app_nil_r;
     split_and!; try done; f_equal; apply Join_elems; [done|by apply Forall_rev]|].
  - destruct es; [|cbn in HL; lia]. by rewrite Eval_root in E.
  - destruct es as [|e es _] using rev_ind; [by rewrite Eval_root in E|]. rewrite Dir_abs, Base_abs by done.
    pose proof He as [He1 He2]%Forall_app. rewrite length_app in HL. cbn in HL.
    destruct (String.eqb_spec (abs_path es) (abs_path (es ++ [e]))) as [EQ|_].
    { apply abs_path_inj in EQ; [|done..]. apply (f_equal length) in EQ. rewrite length_app in EQ. cbn in EQ. lia. }
    destruct (IH es (rest ++ [e])%list) as (es1 & es2 & ev & -> & H1 & H2 & H3 & _ & H4); [done|by apply Forall_app|lia|].
    exists es1, (es2 ++ [e])%list, ev. rewrite app_assoc. split_and!; [done..|by intros []|].
    rewrite H4, rev_app_distr. by rewrite <- !app_assoc.
Qed.
Lemma existing_fuel `{!PathEnvOk} fuel es rest : Forall plain es -> Forall plain rest -> (length es <= fuel)%nat ->
  existing fuel (abs_path es) rest = existing (length es) (abs_path es) rest.
Proof.
  revert es rest. induction fuel as [|fuel IH]; intros es rest He Hr HL.
  - by destruct es; [|cbn in HL; lia].
  - destruct es as [|e es _] using rev_ind; [done|]. rewrite length_app, Nat.add_comm in *. cbn in HL. cbn [existing length Nat.add].
    destruct (EvalSymlinks _); [done|]. destruct (String.eqb _ _); [done|]. rewrite Dir_abs, Base_abs by done.
    apply Forall_app in He as [He1 He2]. apply IH; [done|by apply Forall_app|lia].
Qed.

(** ** The working directory is not left *)
Lemma IsAbs_app a b : IsAbs a = true -> IsAbs (a +:+ b) = true.
Proof.
  unfold IsAbs, HasPrefix. destruct a as [|c a]; [done|]. app_cbn. destruct (ascii_dec "/" c); [|done].
  by destruct (a +:+ b).
Qed.
Lemma Abs_clean cwd filename abs : os_Getwd = inr cwd -> IsAbs cwd = true -> filename <> "" -> Abs filename = inr abs ->
  exists es, Forall plain es /\ abs = abs_path es.
Proof.
  intros HW HA HN. unfold Abs. rewrite HW. destruct (IsAbs filename) eqn:HF.
  - intros [= <-]. destruct (Clean_rooted _ HF) as (es & ? & ->). by exists es.
  - intros [= <-]. unfold JoinPath. destruct (String.eqb_spec cwd "") as [->|_]; [done|].
    rewrite (proj2 (String.eqb_neq _ _) HN). destruct (Clean_rooted (cwd +:+ "/" +:+ filename)) as (es & ? & ->); [by apply IsAbs_app|].
    by exists es.
Qed.
Lemma Rel_Clean a b b' : Clean b = b -> Clean (Clean a) = Clean a -> Clean b' = b -> Rel a b' = Rel (Clean a) b.
Proof. intros H1 H2 H3. unfold Rel. by rewrite H1, H2, H3. Qed.
Lemma evalCwd_clean `{!PathEnvOk} cwd : IsAbs cwd = true ->
  exists base, Forall plain base /\ Clean (default cwd (EvalSymlinks cwd)) = abs_path base.
Proof.
  intros HA. destruct (EvalSymlinks cwd) as [e|] eqn:E; cbn [default]; [|exact (Clean_rooted cwd HA)].
  destruct (EvalSymlinks_real _ _ HA E) as (es & -> & HP & _). exists es. split; [done|]. by apply Clean_abs.
Qed.
(** What the check does with the path that the file name stands for. *)
Lemma CheckSafePath_unfold `{!PathEnvOk} cwd filename base es :
  os_Getwd = inr cwd -> Clean (default cwd (EvalSymlinks cwd)) = abs_path base -> Forall plain base ->
  filename <> "" -> Abs filename = inr (abs_path es) -> Forall plain es ->
  exists t, Forall plain t /\ existing (length es) (abs_path es) [] = Some (abs_path t) /\
    CheckSafePath filename = (if bool_decide (base `prefix_of` t) then inr (abs_path t) else inl (outside filename)).
Proof.
  intros HW HC Hb HN HA He. destruct (existing_spec (length es) es [] He (Forall_nil_2 _) (le_n _)) as (es1 & es2 & ev & -> & H1 & H2 & _ & _ & H3).
  rewrite app_nil_r in H3. exists (ev ++ es2)%list. assert (Forall plain (ev ++ es2)) as HP.
  { apply Forall_app. split; [done|]. by apply Forall_app in He as [_ ?]. }
  split_and!; [done..|]. unfold CheckSafePath. rewrite (proj2 (String.eqb_neq _ _) HN), HW, HA.
  rewrite existing_fuel; [|done|done|rewrite plain_Split by done; destruct (es1 ++ es2)%list; cbn; lia].
  rewrite H3. cbn [default]. rewrite (Rel_Clean _ (abs_path (ev ++ es2))) by (rewrite ?HC; by apply Clean_abs).
  rewrite HC. destruct (Rel (abs_path base) (abs_path (ev ++ es2))) as [rel|] eqn:ER.
  - apply Rel_inside in ER; [|done..]. change (String.eqb rel ".." || HasPrefix rel "../") with (goes_up rel).
    case_bool_decide as HB; [rewrite (proj2 ER HB); done|]. destruct (goes_up rel); [done|]. destruct HB. by apply ER.
  - rewrite Rel_abs in ER by done. destruct (String.eqb _ _); [done|]. by destruct (strip_common _ _).
Qed.

(** C28: A file name that is accepted stays below the working directory: the path that is returned is
    the directory, with its links resolved, followed by plain elements.  If the file exists, the
    path meets no symbolic link, so the file that is read or written is there. *)
Theorem accepted_inside `{!PathEnvOk} cwd filename p :
  os_Getwd = inr cwd -> IsAbs cwd = true -> CheckSafePath filename = inr p ->
  exists base rest abs, Clean (default cwd (EvalSymlinks cwd)) = abs_path base /\ Abs filename = inr abs /\
    Forall plain (base ++ rest) /\ p = abs_path (base ++ rest) /\
    (is_Some (EvalSymlinks abs) -> EvalSymlinks abs = Some p /\ no_links (base ++ rest)).
Proof.
  intros HW HA HC. assert (filename <> "") as HN by (intros ->; done).
  destruct (Abs filename) as [e|abs] eqn:EA.
  { unfold CheckSafePath in HC. by rewrite (proj2 (String.eqb_neq _ _) HN), HW, EA in HC. }
  destruct (evalCwd_clean cwd HA) as (base & Hb & Ec). destruct (Abs_clean _ _ _ HW HA HN EA) as (es & He & ->).
  destruct (CheckSafePath_unfold cwd filename base es HW Ec Hb HN EA He) as (t & Ht & H1 & H2).
  destruct (existing_spec (length es) es [] He (Forall_nil_2 _) (le_n _)) as (es1 & es2 & ev & -> & H3 & H4 & H5 & H6 & H7).
  cbn [rev] in H7. rewrite app_nil_r, H1 in H7. apply (inj Some), abs_path_inj in H7 as ->;
    [|done|apply Forall_app; split; [done|by apply Forall_app in He as [_ ?]]].
  rewrite HC in H2. case_bool_decide as HB; [|done]. destruct HB as [rest HB]. apply (inj inr) in H2 as ->.
  exists base, rest, (abs_path (es1 ++ es2)). rewrite <- HB. split_and!; [done..|]. intros HS.
  rewrite (H6 HS), !app_nil_r. done.
Qed.

(** ** Plain names are accepted *)
Lemma walk_plain links dest parts : Forall plain parts ->
  (forall q r, parts = (q ++ r)%list -> q <> [] -> os_Lstat (abs_path (dest ++ q)) <> Some ModeSymlink) ->
  walk links true dest parts = None \/ walk links true dest parts = Some (true, (dest ++ parts)%list).
Proof.
  intros HP. revert dest. induction HP as [|p parts (N1 & N2 & N3 & _) _ IH]; intros dest HL.
  { rewrite walk_nil, app_nil_r. by right. }
  rewrite walk_cons, (proj2 (String.eqb_neq _ _) N1), (proj2 (String.eqb_neq _ _) N2), (proj2 (String.eqb_neq _ _) N3).
  cbn [orb]. cbv zeta. pose proof (HL [p] parts eq_refl ltac:(done)) as Hp.
  destruct (os_Lstat _) as [[]|]; [| |done|by left].
  - destruct (IH (dest ++ [p])%list) as [->| ->]; [|by left|right; by rewrite <- app_assoc].
    intros q r -> Hq. rewrite <- app_assoc. by apply (HL (p :: q) r).
  - destruct parts; [by right|by left].
Qed.
Lemma Eval_plain es : Forall plain es -> (forall q r, es = (q ++ r)%list -> os_Lstat (abs_path q) <> Some ModeSymlink) ->
  EvalSymlinks (abs_path es) = None \/ EvalSymlinks (abs_path es) = Some (abs_path es).
Proof.
  intros HP HL. destruct es as [|e es]; [right; apply Eval_root|]. unfold EvalSymlinks. rewrite IsAbs_abs, plain_Split by done.
  rewrite walk_cons. cbn [String.eqb orb]. destruct (walk_plain 255 [] (e :: es) HP) as [->| ->]; [|by left|].
  - intros q r E _. by apply (HL q r).
  - right. cbn [mbind option_bind app]. by rewrite Clean_abs.
Qed.
Lemma existing_plain fuel es rest : Forall plain es -> Forall plain rest ->
  (forall q r, es = (q ++ r)%list -> os_Lstat (abs_path q) <> Some ModeSymlink) -> (length es <= fuel)%nat ->
  existing fuel (abs_path es) rest = Some (abs_path (es ++ rev rest)).
Proof.
  revert es rest. induction fuel as [|fuel IH]; intros es rest He Hr HL Hf; cbn [existing].
  all: destruct (Eval_plain es He HL) as [E| ->]; [rewrite E|by rewrite Join_elems by (done || by apply Forall_rev)].
  - destruct es; [|cbn in Hf; lia]. by rewrite Eval_root in E.
  - destruct es as [|e es _] using rev_ind; [by rewrite Eval_root in E|]. rewrite Dir_abs, Base_abs by done.
    pose proof He as [He1 He2]%Forall_app. rewrite length_app in Hf. cbn in Hf.
    destruct (String.eqb_spec (abs_path es) (abs_path (es ++ [e]))) as [EQ|_].
    { apply abs_path_inj in EQ; [|done..]. apply (f_equal length) in EQ. rewrite length_app in EQ. cbn in EQ. lia. }
    rewrite IH; [by rewrite rev_app_distr, <- !app_assoc|done|by apply Forall_app| |lia].
    intros q r -> . apply (HL q (r ++ [e])%list). by rewrite app_assoc.
Qed.
(** A relative name without [.] and [..], in a tree without links, is accepted as it is, whether or
    not the file exists. *)
Theorem plain_accepted `{!PathEnvOk} base es : os_Getwd = inr (abs_path base) -> Forall plain (base ++ es) -> es <> [] ->
  (forall q r, (base ++ es = q ++ r)%list -> os_Lstat (abs_path q) <> Some ModeSymlink) ->
  CheckSafePath (Join es "/") = inr (abs_path (base ++ es)).
Proof.
  intros HW HP HN HL. pose proof HP as [Hb He]%Forall_app.
  assert (Join es "/" <> "" /\ IsAbs (Join es "/") = false) as [HJ HR].
  { destruct es as [|e es]; [done|]. apply Forall_cons in He as [(H1 & _ & _ & H2) _].
    destruct e as [|c e]; [done|]. assert (c <> "/"%char) by (intros ->; apply H2; left).
    assert (exists s, Join (String c e :: es) "/" = String c s) as [s ->] by (destruct es; by eexists).
    split; [done|]. unfold IsAbs, HasPrefix. app_cbn. by destruct (ascii_dec "/" c) as [<-|]. }
  assert (Abs (Join es "/") = inr (abs_path (base ++ es))) as HA by (unfold Abs; by rewrite HR, HW, JoinPath_abs).
  assert (default (abs_path base) (EvalSymlinks (abs_path base)) = abs_path base) as HE.
  { destruct (Eval_plain base Hb) as [->| ->]; [|done..]. intros q r ->. apply (HL q (r ++ es)%list). by rewrite app_assoc. }
  destruct (CheckSafePath_unfold (abs_path base) (Join es "/") base (base ++ es)) as (t & Ht & H1 & H2); try done.
  { rewrite HE. by apply Clean_abs. }
  rewrite existing_plain in H1; [|done..]. cbn [rev] in H1. rewrite app_nil_r in H1. apply (inj Some), abs_path_inj in H1 as <-; [|done..].
  rewrite H2, bool_decide_true by by apply prefix_app_r. done.
Qed.
End safe.
Abbreviation abs_path := (path_of true).

(** ** A small file system

    A table of clean paths: a working directory with a file, a link that goes back up and in
    again, a link out of it, and a link to a file that does not exist outside. *)
Definition ex_files : list (string * (FileMode * string)) := [
  ("/work", (ModeDir, "")); ("/work/a.yaml", (ModeFile, "")); ("/work/sub", (ModeDir, ""));
  ("/work/sub/back", (ModeSymlink, "../a.yaml")); ("/work/etc", (ModeSymlink, "/etc"));
  ("/etc", (ModeDir, "")); ("/etc/passwd", (ModeFile, "")); ("/work/new", (ModeSymlink, "/etc/new"))].
Definition ex_entry (p : string) : option (FileMode * string) :=
  (fun x => x.2.2) <$> list_find (fun x => x.1 = Clean p) ex_files.
#[local] Instance ex_path_env : PathEnv := {|
  os_Getwd := inr "/work"; os_Lstat p := fst <$> ex_entry p; os_Readlink p := snd <$> ex_entry p |}.
#[local] Instance ex_path_env_ok : PathEnvOk.
Proof.
  assert (forall es es', Forall step_ok es -> Forall step_ok es' -> es <> [] -> es' <> [] ->
    clean_elems true es [] = clean_elems true es' [] -> os_Lstat (abs_path es) = os_Lstat (abs_path es')) as H.
  { intros es es' H1 H2 N1 N2 E. cbn [os_Lstat ex_path_env]. f_equal. unfold ex_entry.
    assert (Clean (abs_path es) = Clean (abs_path es')) as ->; [|done]. symmetry. unfold Clean. rewrite !IsAbs_abs.
    rewrite !Split_abs by (eapply Forall_impl; [eassumption|by intros ? (_ & _ & ?)]).
    destruct es, es'; try done. change (clean_elems true ("" :: ?l) []) with (clean_elems true l []). by rewrite E. }
  assert (step_ok "..") as Hup.
  { split_and!; [done..|]. unfold no_char. cbn. by rewrite !elem_of_cons, elem_of_nil; intros [|[|]]. }
  split.
  - intros p c q HF _ N Hq. apply Forall_app in HF as [Hp [Hc Hq']%Forall_app]. apply H.
    + rewrite !Forall_app. split_and!; [done| |done]. apply Forall_cons in Hc as [Hc _]. constructor; [exact Hc|]. constructor; [exact Hup|constructor].
    + by apply Forall_app.
    + by destruct p.
    + by destruct p.
    + apply Forall_cons in Hc as [(N1 & N2 & _) _]. rewrite !clean_elems_app. f_equal. cbn [clean_elems].
      rewrite (proj2 (String.eqb_neq _ _) N1), (proj2 (String.eqb_neq _ _) N2), !(proj2 (String.eqb_neq _ _) N). done.
  - intros q Hq N. apply H; [by apply Forall_cons|done..].
Qed.

Example ex_paths : map CheckSafePath ["a.yaml"; "sub/back"; "x/y/../z"; "..foo"; "/work/sub/"] =
  [inr "/work/a.yaml"; inr "/work/a.yaml"; inr "/work/x/z"; inr "/work/..foo"; inr "/work/sub"].
Proof. vm_compute. reflexivity. Qed.
Example ex_refused : map CheckSafePath ["../x"; "sub/../../x"; "etc/passwd"; "/etc/passwd"; ""] =
  [inl (outside "../x"); inl (outside "sub/../../x"); inl (outside "etc/passwd"); inl (outside "/etc/passwd"); inl "empty file path"].
Proof. vm_compute. reflexivity. Qed.

Lemma accepted_inside_witness :
  CheckSafePath "sub/back" = inr "/work/a.yaml" /\
  exists base rest abs, Clean (default "/work" (EvalSymlinks "/work")) = abs_path base /\ Abs "sub/back" = inr abs /\
    Forall plain (base ++ rest) /\ "/work/a.yaml" = abs_path (base ++ rest) /\
    (is_Some (EvalSymlinks abs) -> EvalSymlinks abs = Some "/work/a.yaml" /\ no_links (base ++ rest)).
Proof.
  assert (CheckSafePath "sub/back" = inr "/work/a.yaml") as H by (vm_compute; reflexivity). split; [exact H|].
  apply (accepted_inside "/work" "sub/back"); [reflexivity|reflexivity|exact H].
Defined.

(** The link [new] points to a file outside that does not exist.  It is accepted, because its
    target cannot be resolved and only the directory it is in is looked at; writing to it then
    makes the file outside. *)
Example dangling_link_accepted :
  CheckSafePath "new" = inr "/work/new" /\ os_Lstat "/work/new" = Some ModeSymlink /\ os_Readlink "/work/new" = Some "/etc/new".
Proof. split_and!; vm_compute; reflexivity. Qed.
