(* ===== verification/GoDuration.v ===== *)
(** * time.ParseDuration

    The parser of durations such as [1.5h] or [300ms] of Go's [time] package, with its checks
    for overflow; a duration is a number of nanoseconds in 64 bits. *)

From S2P Require Import Prelude GoFloat GoStrings.
From Stdlib Require Import Ascii.

Local Open Scope string_scope.
Local Open Scope Z_scope.

Definition is_digit (c : ascii) : bool := let k := N_of_ascii c in ((48 <=? k)%N && (k <=? 57)%N).
Definition digit_of (c : ascii) : Z := Z.of_N (N_of_ascii c) - 48.
(** [leadingInt]: the number, and what follows; an overflow is an error. *)
Fixpoint leadingInt (s : string) (x : Z) : option (Z * string) :=
  match s with
  | String c s' =>
    if is_digit c then
      if 2 ^ 63 / 10 <? x then None
      else let x := x * 10 + digit_of c in if 2 ^ 63 <? x then None else leadingInt s' x
    else Some (x, s)
  | EmptyString => Some (x, s)
  end.
(** [leadingFraction]: the digits, the power of ten, and what follows; more digits than fit are
    ignored. *)
Fixpoint leadingFraction (s : string) (x : Z) (scale : float) (overflow : bool) : Z * float * string :=
  match s with
  | String c s' =>
    if is_digit c then
      if overflow then leadingFraction s' x scale true
      else if (2 ^ 63 - 1) / 10 <? x then leadingFraction s' x scale true
      else let y := x * 10 + digit_of c in
        if 2 ^ 63 <? y then leadingFraction s' x scale true else leadingFraction s' y (scale * 10)%float false
    else (x, scale, s)
  | EmptyString => (x, scale, s)
  end.
Fixpoint leadingUnit (s : string) : string * string :=
  match s with
  | String c s' =>
    if Ascii.eqb c "."%char || is_digit c then (EmptyString, s)
    else let '(u, r) := leadingUnit s' in (String c u, r)
  | EmptyString => (EmptyString, s)
  end.
Definition micro1 : string := String "194"%char (String "181"%char "s").
Definition micro2 : string := String "206"%char (String "188"%char "s").
Definition unitMap (u : string) : option Z :=
  if String.eqb u "ns" then Some 1
  else if String.eqb u "us" || String.eqb u micro1 || String.eqb u micro2 then Some 1000
  else if String.eqb u "ms" then Some 1000000
  else if String.eqb u "s" then Some 1000000000
  else if String.eqb u "m" then Some 60000000000
  else if String.eqb u "h" then Some 3600000000000
  else None.

(** One number with its unit: its value, and what follows. *)
Definition parse_part (s : string) : option (Z * string) :=
  match s with
  | EmptyString => None
  | String c _ =>
    if negb (Ascii.eqb c "."%char || is_digit c) then None else
    '(v, s1) ← leadingInt s 0;
    let pre := negb (String.eqb s1 s) in
    let '(f, scale, s2, post) :=
      match s1 with
      | String "."%char r => let '(f, scale, s2) := leadingFraction r 0 1%float false in (f, scale, s2, negb (String.eqb s2 r))
      | _ => (0, 1%float, s1, false)
      end in
    if negb pre && negb post then None else
    let '(u, s3) := leadingUnit s2 in
    unit ← unitMap u;
    if 2 ^ 63 / unit <? v then None else
    let v := v * unit in
    if 0 <? f then
      let v := u64 (v + uint64_of (f_of_Z f * (f_of_Z unit / scale))%float) in
      if 2 ^ 63 <? v then None else Some (v, s3)
    else Some (v, s3)
  end.
(** A part takes at least one character, so the length of the text is enough fuel. *)
Fixpoint parse_parts (fuel : nat) (s : string) (d : Z) : option Z :=
  match s with
  | EmptyString => Some d
  | _ =>
    match fuel with
    | O => None
    | S fuel => '(v, s) ← parse_part s; let d := u64 (d + v) in if 2 ^ 63 <? d then None else parse_parts fuel s d
    end
  end.
Definition ParseDuration (s : string) : option Z :=
  let '(neg, s) := match s with
    | String "-"%char s => (true, s)
    | String "+"%char s => (false, s)
    | _ => (false, s)
    end in
  if String.eqb s "0" then Some 0
  else if String.eqb s "" then None
  else
    d ← parse_parts (String.length s) s 0;
    if (neg : bool) then Some (- d) else if 2 ^ 63 - 1 <? d then None else Some d.

Example durations : map ParseDuration ["1.5h"; "300ms"; "1h30m"; "-2us"; "10"; "0"; ".s"; "9223372036854775807ns"; "9223372036854775808ns"] =
  [Some 5400000000000; Some 300000000; Some 5400000000000; Some (-2000); None; Some 0; None; Some 9223372036854775807; None].
Proof. vm_compute. reflexivity. Qed.

(** A duration fits in 64 bits, and without a sign it is not negative. *)
Lemma parse_parts_range fuel s d d' : 0 <= d <= 2 ^ 63 -> parse_parts fuel s d = Some d' -> 0 <= d' <= 2 ^ 63.
Proof.
  revert s d. induction fuel as [|fuel IH]; intros [|c s] d Hd; cbn [parse_parts]; [by intros [= <-]|done|by intros [= <-]|].
  destruct (parse_part _) as [[v r]|]; [|done]. cbn [mbind option_bind]. destruct (Z.ltb_spec (2 ^ 63) (u64 (d + v))); [done|].
  apply IH. pose proof (u64_range (d + v)). unfold in_u in *. lia.
Qed.
Lemma ParseDuration_range s d : ParseDuration s = Some d -> in_s 64 d.
Proof.
  unfold ParseDuration, in_s. destruct (match s with String "-"%char _ => _ | _ => _ end) as [neg r].
  destruct (String.eqb r "0"); [intros [= <-]; lia|]. destruct (String.eqb r ""); [done|].
  destruct (parse_parts _ r 0) as [d0|] eqn:E; [|done]. apply parse_parts_range in E; [|lia]. cbn [mbind option_bind].
  destruct neg; [intros [= <-]; lia|]. destruct (Z.ltb_spec (2 ^ 63 - 1) d0); [done|]. intros [= <-]. lia.
Qed.
