(* ===== verification/Visualizers.v ===== *)
(** * Visualizers without a server

    src/visualize/nopVisualizer.go ignores every call; src/visualize/multi forwards every
    call to several visualizers; src/visualize/statslog writes statistics to a CSV file.
    The rows of that file are kept as data: the time in seconds and the numbers, of which
    the source prints the time with six decimals and the numbers with a fixed width. *)

From S2P Require Import Prelude State Types GoFloat GoText Energy Visualize.

Local Open Scope string_scope.
Local Open Scope Z_scope.

(** ** nopVisualizer.go *)
#[export] Instance nop_visualizer : Visualizer unit := {| vis_Init := mret tt; vis_Stop := mret tt; vis_call _ := mret tt |}.

(** ** multiVisualizer.go *)
(** A visualizer of some kind, with its state. *)
Inductive AnyVisualizer :=
| AnyVis (V : Type) (methods : Visualizer V) (state : V).
Arguments AnyVis {V}.
(** A method of it. *)
Definition any_run (m : forall V, Visualizer V -> st V ()) (v : AnyVisualizer) : res AnyVisualizer :=
  match v with
  | AnyVis methods s => '(_, s') ← m _ methods s; Ok (AnyVis methods s')
  end.
Definition any_call (c : VisCall) : AnyVisualizer -> res AnyVisualizer :=
  any_run (fun V H => @vis_call V H c).
(** [for _, v := range mv.vs { ... }] *)
Fixpoint each_vis (f : AnyVisualizer -> res AnyVisualizer) (vs : list AnyVisualizer) : res (list AnyVisualizer) :=
  match vs with
  | [] => Ok []
  | v :: vs => v' ← f v; vs' ← each_vis f vs; Ok (v' :: vs')
  end.
Abbreviation MultiVisualizer := (list AnyVisualizer) (only parsing).
Definition NewMultiVisualizer (vs : list AnyVisualizer) : MultiVisualizer := vs.
Definition AddVisualizer (vs : list AnyVisualizer) (mv : MultiVisualizer) : MultiVisualizer := (mv ++ vs)%list.
#[export] Instance multi_visualizer : Visualizer MultiVisualizer := {|
  vis_Init := update (each_vis (any_run (fun V H => @vis_Init V H)));
  vis_Stop := update (each_vis (any_run (fun V H => @vis_Stop V H)));
  vis_call c := update (each_vis (any_call c)) |}.

(** ** statslogVisualizer.go *)
Inductive StatsType := NodeStatsType | TxBytesStatsType | ChanSampleCountStatsType.
Inductive StatsLine :=
| LText (s : string)
| LRow (timeSec : float) (values : list Z).
Record statslogVisualizer := mkStatslog {
  sv_statsType : StatsType;
  (** what the open file has received, if it is open *)
  sv_logFile : option (list StatsLine);
  sv_logFileName : string;
  sv_isFileEnabled : bool;
  sv_changed : bool;
  sv_timestampUs : Z;
  sv_stats : NodeStats;
  sv_oldStats : NodeStats;
  sv_lastIdMax : NodeId;
  (** what closed files have received *)
  sv_closed : list StatsLine;
}.
Section sv_fields.
Implicit Types s : statslogVisualizer.
Definition set_sv_logFile v s := mkStatslog (sv_statsType s) v (sv_logFileName s) (sv_isFileEnabled s) (sv_changed s)
  (sv_timestampUs s) (sv_stats s) (sv_oldStats s) (sv_lastIdMax s) (sv_closed s).
Definition set_sv_enabled v s := mkStatslog (sv_statsType s) (sv_logFile s) (sv_logFileName s) v (sv_changed s)
  (sv_timestampUs s) (sv_stats s) (sv_oldStats s) (sv_lastIdMax s) (sv_closed s).
Definition set_sv_stats ts new old s := mkStatslog (sv_statsType s) (sv_logFile s) (sv_logFileName s) (sv_isFileEnabled s)
  (sv_changed s) ts new old (sv_lastIdMax s) (sv_closed s).
Definition set_sv_lastIdMax v s := mkStatslog (sv_statsType s) (sv_logFile s) (sv_logFileName s) (sv_isFileEnabled s)
  (sv_changed s) (sv_timestampUs s) (sv_stats s) (sv_oldStats s) v (sv_closed s).
Definition set_sv_closed v s := mkStatslog (sv_statsType s) (sv_logFile s) (sv_logFileName s) (sv_isFileEnabled s)
  (sv_changed s) (sv_timestampUs s) (sv_stats s) (sv_oldStats s) (sv_lastIdMax s) v.
End sv_fields.

Definition getStatsName (tp : StatsType) : string :=
  match tp with NodeStatsType => "stats" | TxBytesStatsType => "txbytes" | ChanSampleCountStatsType => "chansamples" end.
Definition getStatsLogFileName (tp : StatsType) (outputDir : string) (simId : Z) : string :=
  outputDir +:+ "/" +:+ Itoa simId +:+ "_" +:+ getStatsName tp +:+ ".csv".
Definition NewStatslogVisualizer (outputDir : string) (simulationId : Z) (csvDataType : StatsType) : statslogVisualizer :=
  let zero := mkNodeStats 0 0 0 0 0 0 0 0 0 in
  mkStatslog csvDataType None (getStatsLogFileName csvDataType outputDir simulationId) true true 0 zero zero 0 [].

Definition calcMinMaxNodeId (m : gmap NodeId Z) : NodeId * NodeId :=
  foldl (fun '(idMin, idMax) '(id, _) =>
    ((if (idMin =? 0) || (id <? idMin) then id else idMin), (if (idMax =? 0) || (id >? idMax) then id else idMax)))
    (0, 0) (map_to_list m).

(** The file system: whether the file can be opened, and whether the write of a line to a
    file with these lines works. *)
Class CsvEnv := { csv_open : string -> bool; csv_write : list StatsLine -> bool }.

Section statslog.
Context {env : CsvEnv}.
Abbreviation SVM := (st statslogVisualizer) (only parsing).

Definition close : SVM () :=
  s ← get;
  match sv_logFile s with
  | None => mret tt
  | Some lines => modify (fun s => set_sv_enabled false (set_sv_logFile None (set_sv_closed (sv_closed s ++ lines)%list s)))
  end.
Definition writeToLogFile (line : StatsLine) : SVM () :=
  s ← get;
  if negb (sv_isFileEnabled s) then mret tt
  else match sv_logFile s with
  | Some lines =>
    if csv_write lines then modify (set_sv_logFile (Some (lines ++ [line])%list))
    else _ ← close; modify (set_sv_enabled false)
  | None => _ ← close; modify (set_sv_enabled false)
  end.
Definition writeLogFileHeader : SVM () :=
  s ← get;
  match sv_statsType s with
  | NodeStatsType =>
    writeToLogFile (LText "timeSec,nNodes,nPartitions,nLeaders,nRouters,nChildren,nDetached,nDisabled,nSleepy,nFailed")
  | _ => mret tt
  end.
Definition createLogFile : SVM () :=
  s ← get;
  _ ← lift (assert_true (match sv_logFile s with None => true | Some _ => false end));
  if csv_open (sv_logFileName s) then _ ← modify (set_sv_logFile (Some [])); writeLogFileHeader
  else modify (set_sv_enabled false).
Definition timeSec (ts : Z) : float := (f_of_Z ts / 1000000)%float.
Definition stats_values (stats : NodeStats) : list Z :=
  [NumNodes stats; NumPartitions stats; NumLeaders stats; NumRouters stats; NumEndDevices stats; NumDetached stats;
   NumDisabled stats; NumSleepy stats; NumFailed stats].
Definition writeNodeStatsLogEntry (ts : Z) (stats : NodeStats) : SVM () := writeToLogFile (LRow (timeSec ts) (stats_values stats)).
(** The columns of the nodes 1 to [idMax]. *)
Definition phy_values (stats : gmap NodeId Z) (idMax : NodeId) : list Z :=
  map (fun id => default 0 (stats !! id)) (seqZ 1 idMax).
Definition writePhyStatsLogEntry (ts : Z) (stats : gmap NodeId Z) : SVM () :=
  s ← get;
  let '(_, idMax) := calcMinMaxNodeId stats in
  let idMax' := if sv_lastIdMax s >? idMax then sv_lastIdMax s else idMax in
  _ ← modify (set_sv_lastIdMax idMax');
  writeToLogFile (LRow (timeSec ts) (phy_values stats idMax')).

Definition Stop : SVM () :=
  s ← get;
  _ ← match sv_statsType s with NodeStatsType => writeNodeStatsLogEntry (sv_timestampUs s) (sv_stats s) | _ => mret tt end;
  close.
Definition UpdateNodeStats (info : NodeStatsInfo) : SVM () :=
  s ← get;
  match sv_statsType s with
  | NodeStatsType =>
    _ ← modify (set_sv_stats (nsi_TimeUs info) (nsi_Stats info) (sv_stats s));
    writeNodeStatsLogEntry (nsi_TimeUs info) (nsi_Stats info)
  | _ => mret tt
  end.
Definition UpdateTimeWindowStats (info : TimeWindowStatsInfo) : SVM () :=
  s ← get;
  let ts := u64 (ti_WinStartUs info + ti_WinWidthUs info) in
  match sv_statsType s with
  | TxBytesStatsType => writePhyStatsLogEntry ts (ti_PhyTxBytes info)
  | ChanSampleCountStatsType => writePhyStatsLogEntry ts (ti_ChanSampleCount info)
  | NodeStatsType => mret tt
  end.
#[export] Instance statslog_visualizer : Visualizer statslogVisualizer := {|
  vis_Init := createLogFile;
  vis_Stop := Stop;
  vis_call c :=
    match c with
    | VisUpdateNodeStats ts stats => UpdateNodeStats (mkNodeStatsInfo ts stats)
    | VisUpdateTimeWindowStats info => UpdateTimeWindowStats info
    | _ => mret tt
    end |}.
End statslog.

(** ** Theorems *)
Lemma each_vis_Ok f vs vs' : each_vis f vs = Ok vs' <-> Forall2 (fun v v' => f v = Ok v') vs vs'.
Proof.
  revert vs'. induction vs as [|v vs IH]; intros vs'; cbn [each_vis].
  - split; [intros [= <-]; constructor|by intros H; inversion H].
  - rewrite bind_Ok. setoid_rewrite bind_Ok. split.
    + intros (v' & E & ws & E2 & [= <-]). constructor; [done|]. by apply IH.
    + intros H. inversion H as [|? v' ? ws E E2]; subst. exists v'. split; [done|]. exists ws. split; [|done]. by apply IH.
Qed.

(** A sequence of calls to one visualizer. *)
Definition any_calls (cs : list VisCall) : AnyVisualizer -> res AnyVisualizer :=
  any_run (fun V H => @vis_calls V H cs).
Lemma any_calls_cons c cs v : any_calls (c :: cs) v = (v1 ← any_call c v; any_calls cs v1).
Proof.
  destruct v as [V H s]. unfold any_calls, any_call, any_run. cbn [vis_calls]. unfold mbind, st_bind, res_bind.
  by destruct (vis_call _ _) as [[[] s1]|].
Qed.
Lemma any_calls_nil v : any_calls [] v = Ok v.
Proof. by destruct v. Qed.

(** Through the multi visualizer each visualizer behaves as it would alone: after any sequence
    of calls it is in the state that these calls lead to, and the calls succeed for all of them
    together exactly if they do for each. *)
Theorem multi_independent cs (vs vs' : MultiVisualizer) :
  vis_calls cs vs = Ok (tt, vs') <-> Forall2 (fun v v' => any_calls cs v = Ok v') vs vs'.
Proof.
  revert vs vs'. induction cs as [|c cs IH]; intros vs vs'; cbn [vis_calls].
  - rewrite ret_st_Ok. split.
    + intros [_ <-]. apply Forall_Forall2_diag, Forall_true. apply any_calls_nil.
    + intros H. split; [done|]. induction H as [|v v' vs vs' E _ IHs]; [done|].
      rewrite any_calls_nil in E. injection E as ->. by rewrite IHs.
  - rewrite bind_st_Ok. cbn [vis_call multi_visualizer]. split.
    + intros ([] & vs1 & H1%update_st_Ok%each_vis_Ok & H2%IH). revert vs' H2.
      induction H1 as [|v v1 vs vs1 E _ IH1]; intros vs' H2; inversion H2; subst; constructor; [|by apply IH1].
      rewrite any_calls_cons, E. done.
    + intros H. exists tt.
      assert (exists vs1, Forall2 (fun v v' => any_call c v = Ok v') vs vs1 /\
        Forall2 (fun v v' => any_calls cs v = Ok v') vs1 vs') as (vs1 & H1 & H2).
      { induction H as [|v v' vs vs' E _ (vs1 & IH1 & IH2)]; [by exists []|].
        rewrite any_calls_cons in E. apply bind_Ok in E as (v1 & E1 & E2). exists (v1 :: vs1). split; by constructor. }
      exists vs1. split; [|by apply IH]. by apply update_st_Ok, each_vis_Ok.
Qed.

(** *** The protocol of the interface *)
#[export] Instance nop_follows : VisualizerFollows unit.
Proof. refine {| vis_knows _ _ := True |}. intros. by eexists. Defined.

(** Each of the visualizers knows the nodes. *)
Definition any_knows (nodes : gset NodeId) (v : AnyVisualizer) : Prop :=
  match v with AnyVis methods s => exists F : @VisualizerFollows _ methods, @vis_knows _ _ F nodes s end.
Lemma any_follows nodes nodes' c v :
  any_knows nodes v -> vis_track nodes c = Some nodes' -> exists v', any_call c v = Ok v' /\ any_knows nodes' v'.
Proof.
  destruct v as [V methods s]. intros [F HF] Ht. destruct (vis_follows nodes nodes' c s HF Ht) as (s' & E & H').
  exists (AnyVis methods s'). split; [|by exists F]. unfold any_call, any_run. by rewrite E.
Qed.
#[export] Instance multi_follows : VisualizerFollows MultiVisualizer.
Proof.
  refine {| vis_knows nodes vs := Forall (any_knows nodes) vs |}. intros nodes nodes' c vs Hk Ht.
  assert (exists vs', each_vis (any_call c) vs = Ok vs' /\ Forall (any_knows nodes') vs') as (vs' & E & H').
  { induction Hk as [|v vs Hv _ (vs' & IH1 & IH2)]; [by exists []|].
    destruct (any_follows nodes nodes' c v Hv Ht) as (v' & E & H'). exists (v' :: vs'). split; [|by constructor].
    cbn [each_vis]. rewrite E. cbn. by rewrite IH1. }
  exists vs'. split; [|exact H']. cbn. by apply update_st_Ok.
Defined.

(** *** Statistics of nodes *)
(** Writing a row never fails: an error of the file system closes the file. *)
Lemma writeToLogFile_total {env : CsvEnv} line s : exists s', writeToLogFile line s = Ok (tt, s').
Proof.
  unfold writeToLogFile, close, mbind, st_bind, get, modify. destruct (negb _); [by eexists|].
  destruct (sv_logFile s) as [lines|] eqn:E; [destruct (csv_write lines)|]; rewrite ?E; by eexists.
Qed.
#[export] Instance statslog_follows {env : CsvEnv} : VisualizerFollows statslogVisualizer.
Proof.
  refine {| vis_knows _ _ := True |}. intros nodes nodes' c s _ _.
  assert (exists s', vis_call c s = Ok (tt, s')) as [s' E]; [|by exists s'].
  destruct c; cbn; try (by eexists);
    unfold UpdateNodeStats, UpdateTimeWindowStats, writeNodeStatsLogEntry, writePhyStatsLogEntry, mbind, st_bind, get;
    destruct (sv_statsType s); try (by eexists).
  all: try destruct (calcMinMaxNodeId _); unfold modify; apply writeToLogFile_total.
Defined.

Lemma calcMax_spec m : (forall id, id ∈ dom m -> 0 < id) ->
  (forall id, id ∈ dom m -> id <= (calcMinMaxNodeId m).2) /\ 0 <= (calcMinMaxNodeId m).2 /\
  ((calcMinMaxNodeId m).2 = 0 \/ (calcMinMaxNodeId m).2 ∈ dom m).
Proof.
  intros Hp. unfold calcMinMaxNodeId.
  assert (forall id v, (id, v) ∈ map_to_list m -> 0 < id) as Hl.
  { intros id v H%elem_of_map_to_list. apply Hp. by apply elem_of_dom_2 in H. }
  assert (forall l a b, (forall id v, (id, v) ∈ l -> 0 < id) -> 0 <= b ->
    let r := (foldl (fun '(idMin, idMax) '(id, _) =>
      ((if (idMin =? 0) || (id <? idMin) then id else idMin), (if (idMax =? 0) || (id >? idMax) then id else idMax)))
      (a, b) (l : list (Z * Z))).2 in
    b <= r /\ (forall id v, (id, v) ∈ l -> id <= r) /\ (r = b \/ exists v, (r, v) ∈ l)) as HF.
  { induction l as [|[id v] l IH]; intros a b Hpos Hb; cbn [foldl].
    - cbn. split; [lia|]. split; [by intros ?? ?%not_elem_of_nil|by left].
    - assert (0 < id) as Hid by (eapply Hpos; left).
      destruct (IH (if (a =? 0) || (id <? a) then id else a) (if (b =? 0) || (id >? b) then id else b)) as (I1 & I2 & I3).
      + intros id' v' H. eapply Hpos. right. exact H.
      + destruct (_ || _); lia.
      + destruct ((b =? 0) || (id >? b)) eqn:Eb.
        * assert (b <= id) by (apply orb_true_iff in Eb as [E%Z.eqb_eq|E%Z.gtb_lt]; lia). split; [lia|]. split.
          -- intros id' v' [[= -> ->]|H']%elem_of_cons; [lia|by eapply I2].
          -- right. destruct I3 as [->|[v' H']]; [exists v; left|exists v'; by right].
        * apply orb_false_iff in Eb as [_ Eb]. rewrite Z.gtb_ltb in Eb. apply Z.ltb_ge in Eb. split; [lia|]. split.
          -- intros id' v' [[= -> ->]|H']%elem_of_cons; [lia|by eapply I2].
          -- destruct I3 as [->|[v' H']]; [by left|right; exists v'; by right]. }
  destruct (HF (map_to_list m) 0 0 Hl ltac:(lia)) as (H1 & H2 & H3). split_and!.
  - intros id [v Hv]%elem_of_dom. eapply H2. by apply elem_of_map_to_list.
  - done.
  - destruct H3 as [->|[v H3]]; [by left|right]. apply elem_of_dom. exists v. by apply elem_of_map_to_list.
Qed.

Lemma phy_value stats idMax id v : 0 < id <= idMax -> stats !! id = Some v -> phy_values stats idMax !! Z.to_nat (id - 1) = Some v.
Proof.
  intros Hid Hv. unfold phy_values. rewrite list_lookup_fmap, lookup_seqZ_lt by lia. cbn.
  replace (1 + Z.of_nat (Z.to_nat (id - 1))) with id by lia. by rewrite Hv.
Qed.

Section csv.
Context {env : CsvEnv}.
Implicit Types s : statslogVisualizer.
Definition window_stats (tp : StatsType) (info : TimeWindowStatsInfo) : gmap NodeId Z :=
  match tp with TxBytesStatsType => ti_PhyTxBytes info | ChanSampleCountStatsType => ti_ChanSampleCount info | NodeStatsType => ∅ end.
Definition window_end (info : TimeWindowStatsInfo) : Z := u64 (ti_WinStartUs info + ti_WinWidthUs info).
Definition window_row (tp : StatsType) (info : TimeWindowStatsInfo) (width : Z) : StatsLine :=
  LRow (timeSec (window_end info)) (phy_values (window_stats tp info) width).

Lemma write_window s info lines :
  sv_statsType s <> NodeStatsType -> sv_isFileEnabled s = true -> sv_logFile s = Some lines -> csv_write lines = true ->
  (forall id, id ∈ dom (window_stats (sv_statsType s) info) -> 0 < id) ->
  exists w s', UpdateTimeWindowStats info s = Ok (tt, s') /\ sv_statsType s' = sv_statsType s /\ sv_isFileEnabled s' = true /\
    sv_logFile s' = Some (lines ++ [window_row (sv_statsType s) info w])%list /\ sv_lastIdMax s' = w /\ sv_lastIdMax s <= w /\
    (forall id v, window_stats (sv_statsType s) info !! id = Some v -> 0 < id <= w).
Proof.
  intros Ht He Hl Hw Hpos.
  assert (UpdateTimeWindowStats info s = writePhyStatsLogEntry (window_end info) (window_stats (sv_statsType s) info) s) as ->.
  { unfold UpdateTimeWindowStats, mbind, st_bind, get, window_stats, window_end. by destruct (sv_statsType s). }
  destruct (calcMax_spec _ Hpos) as (M1 & M2 & _). unfold writePhyStatsLogEntry.
  destruct (calcMinMaxNodeId (window_stats (sv_statsType s) info)) as [mn mx] eqn:E. cbn in M1, M2.
  set (w := if sv_lastIdMax s >? mx then sv_lastIdMax s else mx).
  assert (sv_lastIdMax s <= w /\ mx <= w) as [W1 W2].
  { unfold w. destruct (sv_lastIdMax s >? mx) eqn:Eg; [apply Z.gtb_lt in Eg|rewrite Z.gtb_ltb in Eg; apply Z.ltb_ge in Eg]; lia. }
  eexists w, _. split_and!.
  - unfold modify, writeToLogFile, mbind, st_bind, get. cbn. rewrite He, Hl. cbn. rewrite Hw. reflexivity.
  - done.
  - done.
  - done.
  - done.
  - done.
  - intros id v Hv. apply elem_of_dom_2 in Hv. pose proof (Hpos id Hv). pose proof (M1 id Hv). lia.
Qed.

(** In the file of transmitted bytes or channel samples every window has a row, the rows are in
    order and never get shorter, and column [id] of a row has what the window says about
    node [id]: no value is lost, as long as the file can be written. *)
Theorem phy_rows_complete infos s lines :
  (forall l, csv_write l = true) ->
  sv_statsType s <> NodeStatsType -> sv_isFileEnabled s = true -> sv_logFile s = Some lines ->
  Forall (fun info => forall id, id ∈ dom (window_stats (sv_statsType s) info) -> 0 < id) infos ->
  exists s' widths, vis_calls (map VisUpdateTimeWindowStats infos) s = Ok (tt, s') /\
    length widths = length infos /\
    sv_logFile s' = Some (lines ++ zip_with (window_row (sv_statsType s)) infos widths)%list /\
    Sorted Z.le (sv_lastIdMax s :: widths) /\
    forall k info w id v, infos !! k = Some info -> widths !! k = Some w ->
      window_stats (sv_statsType s) info !! id = Some v ->
      phy_values (window_stats (sv_statsType s) info) w !! Z.to_nat (id - 1) = Some v.
Proof.
  intros Hw. revert s lines. induction infos as [|info infos IH]; intros s lines Ht He Hl Hpos.
  - exists s, []. split_and!; [done|done| |by repeat constructor|done]. cbn. by rewrite app_nil_r.
  - apply Forall_cons in Hpos as [Hp Hpos].
    destruct (write_window s info lines Ht He Hl (Hw _) Hp) as (w & s1 & E & T & F1 & F2 & F3 & F4 & F5).
    rewrite <- T in Ht, Hpos. destruct (IH s1 _ Ht F1 F2 Hpos) as (s' & ws & E2 & L & F & SO & V). rewrite T in *.
    exists s', (w :: ws). split_and!.
    + cbn [map vis_calls]. apply bind_st_Ok. by exists tt, s1.
    + cbn. by rewrite L.
    + rewrite F. cbn. by rewrite <- app_assoc.
    + rewrite F3 in SO. constructor; [done|]. by constructor.
    + intros [|k] info' w' id v; cbn; [|apply V]. intros [= <-] [= <-] Hv. apply phy_value; [|done]. by eapply F5.
Qed.
End csv.

(** ** Examples *)
Definition ex_csv : CsvEnv := {| csv_open _ := true; csv_write _ := true |}.
Definition ex_window (start : Z) (stats : gmap NodeId Z) : TimeWindowStatsInfo := mkTimeWindowStatsInfo start 1000000 stats ∅ ∅.
Definition ex_statslog : statslogVisualizer :=
  match createLogFile (env := ex_csv) (NewStatslogVisualizer "tmp" 0 TxBytesStatsType) with
  | Ok (_, s) => s
  | Panic _ => NewStatslogVisualizer "" 0 NodeStatsType
  end.
Lemma phy_rows_complete_witness :
  exists s' widths, vis_calls (Visualizer0 := statslog_visualizer (env := ex_csv))
      (map VisUpdateTimeWindowStats [ex_window 0 {[2 := 7]}; ex_window 1000000 {[1 := 5]}]) ex_statslog = Ok (tt, s') /\
    length widths = 2%nat /\
    sv_logFile s' = Some (zip_with (window_row TxBytesStatsType) [ex_window 0 {[2 := 7]}; ex_window 1000000 {[1 := 5]}] widths).
Proof.
  destruct (phy_rows_complete (env := ex_csv) [ex_window 0 {[2 := 7]}; ex_window 1000000 {[1 := 5]}] ex_statslog [])
    as (s' & ws & E & L & F & _).
  - done.
  - done.
  - done.
  - done.
  - apply Forall_cons_2; [|apply Forall_cons_2; [|apply Forall_nil_2]]; intros id;
      change (sv_statsType ex_statslog) with TxBytesStatsType; cbn [window_stats ex_window ti_PhyTxBytes];
      rewrite dom_singleton_L, elem_of_singleton; lia.
  - exists s', ws. split; [exact E|]. split; [exact L|exact F].
Defined.
(** Node 1 is not in the first window and node 2 not in the second; both rows have two columns. *)
Example two_windows :
  match vis_calls (Visualizer0 := statslog_visualizer (env := ex_csv))
      (map VisUpdateTimeWindowStats [ex_window 0 {[2 := 7]}; ex_window 1000000 {[1 := 5]}]) ex_statslog with
  | Ok (_, s) => sv_logFile s
  | Panic _ => None
  end = Some [LRow 1 [0; 7]; LRow 2 [5; 0]].
Proof. vm_compute. reflexivity. Qed.
