(* ===== verification/GrpcVisualizer.v ===== *)
(** * The gRPC visualizer

    src/visualize/grpc: the visualizer that web pages connect to.  It keeps a copy of what it
    was told ([grpcField], grpcField.go and grpcNode.go), turns every call into an event of
    its protocol and sends it to the connected streams ([SendEvent], grpcServer.go), and
    describes the present state to a stream that connects later ([prepareStream],
    grpcVisualizer.go).

    - A stream is a number.  Whether sending on it works, the order in which Go ranges over
      maps, and the clock are parameters ([StreamEnv]); [gv_sent] has every event that was
      sent, with the outcome.
    - The methods hold a lock, so they do not interleave; the heartbeat of a stream does not
      take it, but changes nothing else.
    - The encoding of events is a library, so are connections; the notification of the web
      page opener ([grpcClientAdded]) is left out.  Of src/visualize/grpc/replay the entries
      are kept, and that a closed file takes no more; the writing goroutine is left out. *)

From S2P Require Import Prelude State Types GoFloat Energy Visualize.

Local Open Scope string_scope.
Local Open Scope Z_scope.

Abbreviation int32 z := (to_signed 32 z) (only parsing).

(** ** A node as it was last reported (grpcNode.go) *)
Record grpcNode := mkGrpcNode {
  gn_nodeid : Z;
  gn_extaddr : Z;
  gn_x : Z;
  gn_y : Z;
  gn_z : Z;
  gn_radioRange : Z;
  gn_nodeType : string;
  gn_mode : NodeMode;
  gn_rloc16 : Z;
  gn_role : Z;
  gn_partitionId : Z;
  gn_failed : bool;
  gn_parent : Z;
  gn_routerTable : gset Z;
  gn_childTable : gset Z;
  gn_threadVersion : Z;
  gn_version : string;
  gn_commit : string;
}.
Definition set_gn_extaddr (v : Z) (n : grpcNode) : grpcNode :=
  mkGrpcNode (gn_nodeid n) v (gn_x n) (gn_y n) (gn_z n) (gn_radioRange n) (gn_nodeType n) (gn_mode n)
    (gn_rloc16 n) (gn_role n) (gn_partitionId n) (gn_failed n) (gn_parent n) (gn_routerTable n) (gn_childTable n)
    (gn_threadVersion n) (gn_version n) (gn_commit n).
Definition set_gn_mode (v : NodeMode) (n : grpcNode) : grpcNode :=
  mkGrpcNode (gn_nodeid n) (gn_extaddr n) (gn_x n) (gn_y n) (gn_z n) (gn_radioRange n) (gn_nodeType n) v
    (gn_rloc16 n) (gn_role n) (gn_partitionId n) (gn_failed n) (gn_parent n) (gn_routerTable n) (gn_childTable n)
    (gn_threadVersion n) (gn_version n) (gn_commit n).
Definition set_gn_rloc16 (v : Z) (n : grpcNode) : grpcNode :=
  mkGrpcNode (gn_nodeid n) (gn_extaddr n) (gn_x n) (gn_y n) (gn_z n) (gn_radioRange n) (gn_nodeType n) (gn_mode n)
    v (gn_role n) (gn_partitionId n) (gn_failed n) (gn_parent n) (gn_routerTable n) (gn_childTable n)
    (gn_threadVersion n) (gn_version n) (gn_commit n).
Definition set_gn_role (v : Z) (n : grpcNode) : grpcNode :=
  mkGrpcNode (gn_nodeid n) (gn_extaddr n) (gn_x n) (gn_y n) (gn_z n) (gn_radioRange n) (gn_nodeType n) (gn_mode n)
    (gn_rloc16 n) v (gn_partitionId n) (gn_failed n) (gn_parent n) (gn_routerTable n) (gn_childTable n)
    (gn_threadVersion n) (gn_version n) (gn_commit n).
Definition set_gn_partitionId (v : Z) (n : grpcNode) : grpcNode :=
  mkGrpcNode (gn_nodeid n) (gn_extaddr n) (gn_x n) (gn_y n) (gn_z n) (gn_radioRange n) (gn_nodeType n) (gn_mode n)
    (gn_rloc16 n) (gn_role n) v (gn_failed n) (gn_parent n) (gn_routerTable n) (gn_childTable n)
    (gn_threadVersion n) (gn_version n) (gn_commit n).
Definition set_gn_failed (v : bool) (n : grpcNode) : grpcNode :=
  mkGrpcNode (gn_nodeid n) (gn_extaddr n) (gn_x n) (gn_y n) (gn_z n) (gn_radioRange n) (gn_nodeType n) (gn_mode n)
    (gn_rloc16 n) (gn_role n) (gn_partitionId n) v (gn_parent n) (gn_routerTable n) (gn_childTable n)
    (gn_threadVersion n) (gn_version n) (gn_commit n).
Definition set_gn_parent (v : Z) (n : grpcNode) : grpcNode :=
  mkGrpcNode (gn_nodeid n) (gn_extaddr n) (gn_x n) (gn_y n) (gn_z n) (gn_radioRange n) (gn_nodeType n) (gn_mode n)
    (gn_rloc16 n) (gn_role n) (gn_partitionId n) (gn_failed n) v (gn_routerTable n) (gn_childTable n)
    (gn_threadVersion n) (gn_version n) (gn_commit n).
Definition set_gn_routerTable (v : gset Z) (n : grpcNode) : grpcNode :=
  mkGrpcNode (gn_nodeid n) (gn_extaddr n) (gn_x n) (gn_y n) (gn_z n) (gn_radioRange n) (gn_nodeType n) (gn_mode n)
    (gn_rloc16 n) (gn_role n) (gn_partitionId n) (gn_failed n) (gn_parent n) v (gn_childTable n)
    (gn_threadVersion n) (gn_version n) (gn_commit n).
Definition set_gn_childTable (v : gset Z) (n : grpcNode) : grpcNode :=
  mkGrpcNode (gn_nodeid n) (gn_extaddr n) (gn_x n) (gn_y n) (gn_z n) (gn_radioRange n) (gn_nodeType n) (gn_mode n)
    (gn_rloc16 n) (gn_role n) (gn_partitionId n) (gn_failed n) (gn_parent n) (gn_routerTable n) v
    (gn_threadVersion n) (gn_version n) (gn_commit n).
Definition set_gn_threadVersion (v : Z) (n : grpcNode) : grpcNode :=
  mkGrpcNode (gn_nodeid n) (gn_extaddr n) (gn_x n) (gn_y n) (gn_z n) (gn_radioRange n) (gn_nodeType n) (gn_mode n)
    (gn_rloc16 n) (gn_role n) (gn_partitionId n) (gn_failed n) (gn_parent n) (gn_routerTable n) (gn_childTable n)
    v (gn_version n) (gn_commit n).
Definition set_gn_version (v : string) (n : grpcNode) : grpcNode :=
  mkGrpcNode (gn_nodeid n) (gn_extaddr n) (gn_x n) (gn_y n) (gn_z n) (gn_radioRange n) (gn_nodeType n) (gn_mode n)
    (gn_rloc16 n) (gn_role n) (gn_partitionId n) (gn_failed n) (gn_parent n) (gn_routerTable n) (gn_childTable n)
    (gn_threadVersion n) v (gn_commit n).
Definition set_gn_commit (v : string) (n : grpcNode) : grpcNode :=
  mkGrpcNode (gn_nodeid n) (gn_extaddr n) (gn_x n) (gn_y n) (gn_z n) (gn_radioRange n) (gn_nodeType n) (gn_mode n)
    (gn_rloc16 n) (gn_role n) (gn_partitionId n) (gn_failed n) (gn_parent n) (gn_routerTable n) (gn_childTable n)
    (gn_threadVersion n) (gn_version n) v.
Definition set_gn_pos (v_x : Z) (v_y : Z) (v_z : Z) (n : grpcNode) : grpcNode :=
  mkGrpcNode (gn_nodeid n) (gn_extaddr n) v_x v_y v_z (gn_radioRange n) (gn_nodeType n) (gn_mode n) (gn_rloc16 n)
    (gn_role n) (gn_partitionId n) (gn_failed n) (gn_parent n) (gn_routerTable n) (gn_childTable n)
    (gn_threadVersion n) (gn_version n) (gn_commit n).
Definition newGrpcNode (id : NodeId) (cfg : NodeConfig) : grpcNode := {|
  gn_nodeid := id; gn_extaddr := InvalidExtAddr; gn_x := nc_X cfg; gn_y := nc_Y cfg; gn_z := nc_Z cfg;
  gn_radioRange := nc_RadioRange cfg; gn_nodeType := nc_Type cfg; gn_mode := DefaultNodeMode; gn_rloc16 := InvalidRloc16;
  gn_role := OtDeviceRoleDisabled; gn_partitionId := 0; gn_failed := false; gn_parent := 0; gn_routerTable := ∅;
  gn_childTable := ∅; gn_threadVersion := InvalidThreadVersion; gn_version := nc_Version cfg; gn_commit := "" |}.

(** ** All that was reported (grpcField.go) *)
Record grpcField := mkGrpcField {
  gf_nodes : gmap NodeId grpcNode;
  gf_curTime : Z;
  gf_curSpeed : float;
  gf_speed : float;
  gf_titleInfo : TitleInfo;
  gf_networkInfo : NetworkInfo;
  gf_nodeStatsInfo : NodeStatsInfo;
}.
Definition newGrpcField : grpcField := {|
  gf_nodes := ∅; gf_curTime := 0; gf_curSpeed := 1; gf_speed := 1; gf_titleInfo := mkTitleInfo "" 0 0 0;
  gf_networkInfo := DefaultNetworkInfo; gf_nodeStatsInfo := DefaultNodeStatsInfo |}.

Section field.
Implicit Types f : grpcField.
Definition set_gf_nodes v f : grpcField :=
  mkGrpcField v (gf_curTime f) (gf_curSpeed f) (gf_speed f) (gf_titleInfo f) (gf_networkInfo f) (gf_nodeStatsInfo f).
(** Writing through the pointer [f.nodes[id]]. *)
Definition on_gnode (id : NodeId) (g : grpcNode -> grpcNode) f : res grpcField :=
  n ← deref (gf_nodes f !! id); Ok (set_gf_nodes (<[id := g n]> (gf_nodes f)) f).
Definition addNode (id : NodeId) (cfg : NodeConfig) f : res grpcField :=
  _ ← assert_true (bool_decide (gf_nodes f !! id = None)); Ok (set_gf_nodes (<[id := newGrpcNode id cfg]> (gf_nodes f)) f).
Definition setNodeRloc16 id rloc16 : grpcField -> res grpcField := on_gnode id (set_gn_rloc16 rloc16).
Definition setNodeRole id role : grpcField -> res grpcField := on_gnode id (set_gn_role role).
Definition setNodeMode id mode : grpcField -> res grpcField := on_gnode id (set_gn_mode mode).
Definition setNodePartitionId id parid : grpcField -> res grpcField := on_gnode id (set_gn_partitionId parid).
Definition setNodeVersion id version : grpcField -> res grpcField := on_gnode id (set_gn_version version).
Definition setNodeCommit id commit : grpcField -> res grpcField := on_gnode id (set_gn_commit commit).
Definition setNodeThreadVersion id version : grpcField -> res grpcField := on_gnode id (set_gn_threadVersion version).
Definition onNodeFail id : grpcField -> res grpcField := on_gnode id (set_gn_failed true).
Definition onNodeRecover id : grpcField -> res grpcField := on_gnode id (set_gn_failed false).
Definition setNodePos id x y z : grpcField -> res grpcField := on_gnode id (set_gn_pos x y z).
Definition deleteNode (id : NodeId) f : grpcField := set_gf_nodes (delete id (gf_nodes f)) f.
Definition setParent id extaddr : grpcField -> res grpcField := on_gnode id (set_gn_parent extaddr).
Definition addRouterTable id extaddr : grpcField -> res grpcField :=
  on_gnode id (fun n => set_gn_routerTable (gn_routerTable n ∪ {[extaddr]}) n).
Definition removeRouterTable id extaddr : grpcField -> res grpcField :=
  on_gnode id (fun n => set_gn_routerTable (gn_routerTable n ∖ {[extaddr]}) n).
Definition addChildTable id extaddr : grpcField -> res grpcField :=
  on_gnode id (fun n => set_gn_childTable (gn_childTable n ∪ {[extaddr]}) n).
Definition removeChildTable id extaddr : grpcField -> res grpcField :=
  on_gnode id (fun n => set_gn_childTable (gn_childTable n ∖ {[extaddr]}) n).
Definition onExtAddrChange id extaddr : grpcField -> res grpcField := on_gnode id (set_gn_extaddr extaddr).
(** Whether anything changes, and the new state. *)
Definition advanceTime (ts : Z) (speed : float) f : bool * grpcField :=
  (negb (gf_curTime f =? ts) || negb (PrimFloat.eqb (gf_curSpeed f) speed),
   mkGrpcField (gf_nodes f) ts speed (gf_speed f) (gf_titleInfo f) (gf_networkInfo f) (gf_nodeStatsInfo f)).
Definition setSpeed (speed : float) f : grpcField :=
  mkGrpcField (gf_nodes f) (gf_curTime f) (gf_curSpeed f) speed (gf_titleInfo f) (gf_networkInfo f) (gf_nodeStatsInfo f).
Definition setTitleInfo (info : TitleInfo) f : grpcField :=
  mkGrpcField (gf_nodes f) (gf_curTime f) (gf_curSpeed f) (gf_speed f) info (gf_networkInfo f) (gf_nodeStatsInfo f).
Definition setNetworkInfo (info : NetworkInfo) f : grpcField :=
  mkGrpcField (gf_nodes f) (gf_curTime f) (gf_curSpeed f) (gf_speed f) (gf_titleInfo f) info (gf_nodeStatsInfo f).
Definition setNodeStatsInfo (info : NodeStatsInfo) f : grpcField :=
  mkGrpcField (gf_nodes f) (gf_curTime f) (gf_curSpeed f) (gf_speed f) (gf_titleInfo f) (gf_networkInfo f) info.
End field.

(** ** Events of the protocol (pb/visualize_grpc.proto) *)
Inductive VisualizeEvent :=
| EvAddNode (node_id x y z radio_range : Z) (node_type : string)
| EvDeleteNode (node_id : Z)
| EvSetNodeRloc16 (node_id rloc16 : Z)
| EvSetNodeRole (node_id role : Z)
| EvSetNodePos (node_id x y z : Z)
| EvSetNodePartitionId (node_id partition_id : Z)
| EvOnNodeFail (node_id : Z)
| EvOnNodeRecover (node_id : Z)
| EvSetParent (node_id ext_addr : Z)
| EvCountDown (duration_ms : Z) (text : string)
| EvShowDemoLegend (x y : Z) (title : string)
| EvAdvanceTime (timestamp : Z) (speed : float)
| EvAddRouterTable (node_id ext_addr : Z)
| EvRemoveRouterTable (node_id ext_addr : Z)
| EvAddChildTable (node_id ext_addr : Z)
| EvRemoveChildTable (node_id ext_addr : Z)
| EvSend (src_id dst_id : Z) (mv_info : MsgVisualizeInfo) (vis_true_duration : bool)
| EvSetSpeed (speed : float)
| EvHeartbeat
| EvOnExtAddrChange (node_id ext_addr : Z)
| EvSetTitle (title : string) (x y font_size : Z)
| EvSetNodeMode (node_id : Z) (node_mode : NodeMode)
| EvSetNetworkInfo (real : bool) (version commit : string) (node_id thread_version : Z)
| EvNodeStatsInfo (timestamp : Z) (node_stats : NodeStats).

Record EnergyEvent := mkEnergyEvent { ee_Timestamp : Z; ee_NodesEnergy : list (Z * float * float * float * float) }.

(** [uint32(ns.NumNodes)] and so on. *)
Definition pbNodeStats (s : NodeStats) : NodeStats :=
  mkNodeStats (u32 (NumNodes s)) (u32 (NumLeaders s)) (u32 (NumPartitions s)) (u32 (NumRouters s)) (u32 (NumEndDevices s))
    (u32 (NumDetached s)) (u32 (NumDisabled s)) (u32 (NumSleepy s)) (u32 (NumFailed s)).
(** The conversions of [MsgVisualizeInfo]. *)
Definition pbMsgInfo (i : MsgVisualizeInfo) : MsgVisualizeInfo :=
  mkMsgVisualizeInfo (u32 (mv_Channel i)) (u32 (mv_FrameControl i)) (u32 (mv_Seq i)) (u32 (mv_DstAddrShort i))
    (mv_DstAddrExtended i) (mv_SendDurationUs i) (int32 (mv_PowerDbm i)) (u32 (mv_FrameSizeBytes i)).

Inductive VizType := meshTopologyVizType | nodeStatsVizType.
(** Whether a stream of this type is sent the event (grpcStream.go). *)
Definition acceptsEvent (ty : VizType) (event : VisualizeEvent) : bool :=
  match ty with
  | meshTopologyVizType => match event with EvNodeStatsInfo _ _ => false | _ => true end
  | nodeStatsVizType =>
    match event with EvAdvanceTime _ _ | EvNodeStatsInfo _ _ | EvHeartbeat | EvSetTitle _ _ _ _ => true | _ => false end
  end.

(** ** The visualizer and its server *)
Record Replay := mkReplay { rep_entries : list (Z * VisualizeEvent); rep_closed : bool }.
Record grpcVisualizer := mkGv {
  gv_f : grpcField;
  gv_showDemoLegendEvent : option VisualizeEvent;
  gv_replay : option Replay;
  gv_visualizingStreams : gmap nat VizType;
  gv_energyStreams : gset nat;
  (** the next stream, and what was sent on which, with the outcome *)
  gv_next : nat;
  gv_sent : list (nat * VisualizeEvent * bool);
  gv_energySent : list (nat * EnergyEvent);
}.
Section gv_fields.
Implicit Types g : grpcVisualizer.
Definition set_gv_f v g := mkGv v (gv_showDemoLegendEvent g) (gv_replay g) (gv_visualizingStreams g) (gv_energyStreams g)
  (gv_next g) (gv_sent g) (gv_energySent g).
Definition set_gv_legend v g := mkGv (gv_f g) v (gv_replay g) (gv_visualizingStreams g) (gv_energyStreams g)
  (gv_next g) (gv_sent g) (gv_energySent g).
Definition set_gv_replay v g := mkGv (gv_f g) (gv_showDemoLegendEvent g) v (gv_visualizingStreams g) (gv_energyStreams g)
  (gv_next g) (gv_sent g) (gv_energySent g).
Definition set_gv_streams v g := mkGv (gv_f g) (gv_showDemoLegendEvent g) (gv_replay g) v (gv_energyStreams g)
  (gv_next g) (gv_sent g) (gv_energySent g).
Definition set_gv_energyStreams v g := mkGv (gv_f g) (gv_showDemoLegendEvent g) (gv_replay g) (gv_visualizingStreams g) v
  (gv_next g) (gv_sent g) (gv_energySent g).
Definition set_gv_next v g := mkGv (gv_f g) (gv_showDemoLegendEvent g) (gv_replay g) (gv_visualizingStreams g)
  (gv_energyStreams g) v (gv_sent g) (gv_energySent g).
Definition set_gv_sent v g := mkGv (gv_f g) (gv_showDemoLegendEvent g) (gv_replay g) (gv_visualizingStreams g)
  (gv_energyStreams g) (gv_next g) v (gv_energySent g).
Definition set_gv_energySent v g := mkGv (gv_f g) (gv_showDemoLegendEvent g) (gv_replay g) (gv_visualizingStreams g)
  (gv_energyStreams g) (gv_next g) (gv_sent g) v.
End gv_fields.

Class StreamEnv := {
  (** the outcome of the [i]-th [stream.Send] *)
  stream_Send : nat -> bool;
  (** the microseconds since the replay file was opened, when its [i]-th entry is made *)
  replay_time : nat -> Z;
  (** the orders in which Go ranges over maps; that of nodes differs from one loop to another *)
  range_streams : gmap nat VizType -> list (nat * VizType);
  range_nodes : nat -> gmap NodeId grpcNode -> list (NodeId * grpcNode);
  range_addrs : gset Z -> list Z;
  range_energy : gset nat -> list nat;
}.
(** Ranging over a map visits every entry once. *)
Class StreamEnvOk (env : StreamEnv) : Prop := {
  range_streams_perm m : range_streams m ≡ₚ map_to_list m;
  range_nodes_perm i m : range_nodes i m ≡ₚ map_to_list m;
  range_addrs_perm s : range_addrs s ≡ₚ elements s;
}.

(** [NewGrpcVisualizer]; whether a replay file is written. *)
Definition NewGrpcVisualizer (replay : bool) : grpcVisualizer :=
  mkGv newGrpcField None (if replay then Some (mkReplay [] false) else None) ∅ ∅ 0 [] [].

Section visualizer.
Context {env : StreamEnv}.
Abbreviation GM := (st grpcVisualizer) (only parsing).

(** *** The server (grpcServer.go) *)
Definition Send (stream : nat) (event : VisualizeEvent) : GM bool :=
  g ← get;
  let ok := stream_Send (length (gv_sent g)) in
  _ ← modify (set_gv_sent (gv_sent g ++ [(stream, event, ok)]));
  mret ok.
Definition SendEvent (event : VisualizeEvent) : GM () :=
  g ← get;
  for_each (range_streams (gv_visualizingStreams g)) (fun '(stream, ty) =>
    when (acceptsEvent ty event) (_ ← Send stream event; mret tt)).
Definition SendEnergyEvent (event : EnergyEvent) : GM () :=
  g ← get;
  for_each (range_energy (gv_energyStreams g)) (fun stream => modify (fun g => set_gv_energySent (gv_energySent g ++ [(stream, event)]) g)).

(** *** Reports (grpcVisualizer.go) *)
(** [Replay.Append] (replay.go) *)
Definition Append (event : VisualizeEvent) (r : Replay) : res Replay :=
  if rep_closed r then Panic Panicf
  else Ok (mkReplay (rep_entries r ++ [(replay_time (length (rep_entries r)), event)]) false).
Definition addVisualizeEvent (event : VisualizeEvent) : GM () :=
  g ← get;
  _ ← match gv_replay g with
      | None => mret tt
      | Some r => r ← lift (Append event r); modify (set_gv_replay (Some r))
      end;
  SendEvent event.
(** A call on [gv.f]. *)
Definition on_field (op : grpcField -> res grpcField) : GM () :=
  update (fun g => f ← op (gv_f g); Ok (set_gv_f f g)).

Definition SetNetworkInfo (networkInfo : NetworkInfo) : GM () :=
  let id := ni_NodeId networkInfo in
  _ ← (if id =? InvalidNodeId then on_field (fun f => Ok (setNetworkInfo networkInfo f))
       else
         _ ← on_field (setNodeVersion id (ni_Version networkInfo));
         _ ← on_field (setNodeCommit id (ni_Commit networkInfo));
         on_field (setNodeThreadVersion id (ni_ThreadVersion networkInfo)));
  addVisualizeEvent (EvSetNetworkInfo (ni_Real networkInfo) (ni_Version networkInfo) (ni_Commit networkInfo)
    (int32 id) (int32 (ni_ThreadVersion networkInfo))).
Definition Stop : GM () :=
  g ← get;
  match gv_replay g with
  | None => mret tt
  | Some r => if rep_closed r then panics Panicf else modify (set_gv_replay (Some (mkReplay (rep_entries r) true)))
  end.
Definition AddNode (nodeid : NodeId) (cfg : NodeConfig) : GM () :=
  _ ← on_field (addNode nodeid cfg);
  addVisualizeEvent (EvAddNode (int32 nodeid) (int32 (nc_X cfg)) (int32 (nc_Y cfg)) (int32 (nc_Z cfg))
    (int32 (nc_RadioRange cfg)) (nc_Type cfg)).
(** The log message looks the node up first. *)
Definition OnExtAddrChange (nodeid : NodeId) (extaddr : Z) : GM () :=
  _ ← on_field (onExtAddrChange nodeid extaddr); addVisualizeEvent (EvOnExtAddrChange (int32 nodeid) extaddr).
Definition SetNodeRloc16 (nodeid : NodeId) (rloc16 : Z) : GM () :=
  _ ← on_field (setNodeRloc16 nodeid rloc16); addVisualizeEvent (EvSetNodeRloc16 (int32 nodeid) (u32 rloc16)).
Definition SetNodeRole (nodeid : NodeId) (role : OtDeviceRole) : GM () :=
  _ ← on_field (setNodeRole nodeid role); addVisualizeEvent (EvSetNodeRole (int32 nodeid) (int32 role)).
Definition SetNodeMode (nodeid : NodeId) (mode : NodeMode) : GM () :=
  _ ← on_field (setNodeMode nodeid mode); addVisualizeEvent (EvSetNodeMode (int32 nodeid) mode).
(** The constant is 0.01. *)
Definition SendMsg (srcid dstid : NodeId) (mvinfo : MsgVisualizeInfo) : GM () :=
  g ← get;
  addVisualizeEvent (EvSend (int32 srcid) (int32 dstid) (pbMsgInfo mvinfo) (PrimFloat.leb (gf_speed (gv_f g)) 0x1.47ae147ae147bp-7)).
Definition SetNodePartitionId (nodeid : NodeId) (parid : Z) : GM () :=
  _ ← on_field (setNodePartitionId nodeid parid); addVisualizeEvent (EvSetNodePartitionId (int32 nodeid) parid).
Definition SetSpeed (speed : float) : GM () :=
  _ ← on_field (fun f => Ok (setSpeed speed f)); addVisualizeEvent (EvSetSpeed speed).
Definition AdvanceTime (ts : Z) (speed : float) : GM () :=
  g ← get;
  let '(hasChanged, f) := advanceTime ts speed (gv_f g) in
  _ ← modify (set_gv_f f);
  when hasChanged (addVisualizeEvent (EvAdvanceTime ts speed)).
Definition OnNodeFail (nodeid : NodeId) : GM () :=
  _ ← on_field (onNodeFail nodeid); addVisualizeEvent (EvOnNodeFail (int32 nodeid)).
Definition OnNodeRecover (nodeid : NodeId) : GM () :=
  _ ← on_field (onNodeRecover nodeid); addVisualizeEvent (EvOnNodeRecover (int32 nodeid)).
Definition SetNodePos (nodeid : NodeId) (x y z : Z) : GM () :=
  _ ← on_field (setNodePos nodeid x y z); addVisualizeEvent (EvSetNodePos (int32 nodeid) (int32 x) (int32 y) (int32 z)).
Definition DeleteNode (id : NodeId) : GM () :=
  _ ← on_field (fun f => Ok (deleteNode id f)); addVisualizeEvent (EvDeleteNode (int32 id)).
Definition AddRouterTable (id : NodeId) (extaddr : Z) : GM () :=
  _ ← on_field (addRouterTable id extaddr); addVisualizeEvent (EvAddRouterTable (int32 id) extaddr).
Definition RemoveRouterTable (id : NodeId) (extaddr : Z) : GM () :=
  _ ← on_field (removeRouterTable id extaddr); addVisualizeEvent (EvRemoveRouterTable (int32 id) extaddr).
Definition AddChildTable (id : NodeId) (extaddr : Z) : GM () :=
  _ ← on_field (addChildTable id extaddr); addVisualizeEvent (EvAddChildTable (int32 id) extaddr).
Definition RemoveChildTable (id : NodeId) (extaddr : Z) : GM () :=
  _ ← on_field (removeChildTable id extaddr); addVisualizeEvent (EvRemoveChildTable (int32 id) extaddr).
Definition ShowDemoLegend (x y : Z) (title : string) : GM () :=
  let e := EvShowDemoLegend (int32 x) (int32 y) title in
  _ ← modify (set_gv_legend (Some e)); addVisualizeEvent e.
Definition CountDown (durationMs : Z) (text : string) : GM () := addVisualizeEvent (EvCountDown durationMs text).
Definition SetParent (id : NodeId) (extaddr : Z) : GM () :=
  _ ← on_field (setParent id extaddr); addVisualizeEvent (EvSetParent (int32 id) extaddr).
Definition SetTitle (titleInfo : TitleInfo) : GM () :=
  _ ← on_field (fun f => Ok (setTitleInfo titleInfo f));
  addVisualizeEvent (EvSetTitle (ti_Title titleInfo) (int32 (ti_X titleInfo)) (int32 (ti_Y titleInfo)) (int32 (ti_FontSize titleInfo))).
Definition UpdateNodesEnergy (nodes : list NodeEnergy) (timestamp : Z) (updateView : bool) : GM () :=
  _ ← SendEnergyEvent (mkEnergyEvent (timestamp / 1000000)
        (map (fun n => (int32 (ne_NodeId n), ne_Disabled n, ne_Sleep n, ne_Tx n, ne_Rx n)) nodes));
  when updateView (SendEnergyEvent (mkEnergyEvent (2 ^ 64 - 1) [])).
Definition UpdateNodeStats (nsi : NodeStatsInfo) : GM () :=
  _ ← on_field (fun f => Ok (setNodeStatsInfo nsi f));
  addVisualizeEvent (EvNodeStatsInfo (nsi_TimeUs nsi) (pbNodeStats (nsi_Stats nsi))).

#[export] Instance grpc_visualizer : Visualizer grpcVisualizer := {|
  vis_Init := mret tt;
  vis_Stop := Stop;
  vis_call c :=
    match c with
    | VisAddNode id cfg => AddNode id cfg
    | VisSetNodeRloc16 id rloc16 => SetNodeRloc16 id rloc16
    | VisSetNodeRole id role => SetNodeRole id role
    | VisSetNodeMode id mode => SetNodeMode id mode
    | VisSend src dst info => SendMsg src dst info
    | VisSetNodePartitionId id parid => SetNodePartitionId id parid
    | VisAdvanceTime ts speed => AdvanceTime ts speed
    | VisOnNodeFail id => OnNodeFail id
    | VisOnNodeRecover id => OnNodeRecover id
    | VisSetNodePos id x y z => SetNodePos id x y z
    | VisDeleteNode id => DeleteNode id
    | VisAddRouterTable id a => AddRouterTable id a
    | VisRemoveRouterTable id a => RemoveRouterTable id a
    | VisAddChildTable id a => AddChildTable id a
    | VisRemoveChildTable id a => RemoveChildTable id a
    | VisSetParent id a => SetParent id a
    | VisOnExtAddrChange id a => OnExtAddrChange id a
    | VisUpdateNodesEnergy nodes ts upd => UpdateNodesEnergy nodes ts upd
    | VisUpdateNodeStats ts stats => UpdateNodeStats (mkNodeStatsInfo ts stats)
    | VisUpdateTimeWindowStats _ => mret tt
    | VisSetSpeed speed => SetSpeed speed
    | VisShowDemoLegend x y title => ShowDemoLegend x y title
    | VisCountDown ms text => CountDown ms text
    | VisSetTitle info => SetTitle info
    | VisSetNetworkInfo info => SetNetworkInfo info
    end |}.

(** *** A new stream *)
Definition add_event (id : NodeId) (n : grpcNode) : VisualizeEvent :=
  EvAddNode (int32 id) (int32 (gn_x n)) (int32 (gn_y n)) 0 (int32 (gn_radioRange n)) (gn_nodeType n).
Definition attribute_events (id : NodeId) (n : grpcNode) : list VisualizeEvent :=
  [EvOnExtAddrChange (int32 id) (gn_extaddr n); EvSetNodeRloc16 (int32 id) (u32 (gn_rloc16 n));
   EvSetNodeRole (int32 id) (int32 (gn_role n)); EvSetNodeMode (int32 id) (gn_mode n);
   EvSetNodePartitionId (int32 id) (gn_partitionId n); EvSetParent (int32 id) (gn_parent n)] ++
  map (EvAddChildTable (int32 id)) (range_addrs (gn_childTable n)) ++
  map (EvAddRouterTable (int32 id)) (range_addrs (gn_routerTable n)) ++
  (if gn_failed n then [EvOnNodeFail (int32 id)] else []) ++
  [EvSetNetworkInfo false (gn_version n) (gn_commit n) (int32 id) (int32 (gn_threadVersion n))].
(** The events that [prepareStream] sends, in order. *)
Definition present_state (ty : VizType) (g : grpcVisualizer) : list VisualizeEvent :=
  let f := gv_f g in
  let t := gf_titleInfo f in
  [EvSetNetworkInfo (ni_Real (gf_networkInfo f)) (ni_Version (gf_networkInfo f)) (ni_Commit (gf_networkInfo f))
     (int32 InvalidNodeId) 0] ++
  match gv_showDemoLegendEvent g with Some e => [e] | None => [] end ++
  [EvSetSpeed (gf_speed f)] ++
  (if String.eqb (ti_Title t) "" then [] else [EvSetTitle (ti_Title t) (int32 (ti_X t)) (int32 (ti_Y t)) (int32 (ti_FontSize t))]) ++
  [EvAdvanceTime (gf_curTime f) (gf_curSpeed f)] ++
  match ty with
  | meshTopologyVizType =>
    let i := length (gv_sent g) in
    map (fun '(id, n) => add_event id n) (range_nodes i (gf_nodes f)) ++
    concat (map (fun '(id, n) => attribute_events id n) (range_nodes (S i) (gf_nodes f)))
  | nodeStatsVizType => [EvNodeStatsInfo (gf_curTime f) (pbNodeStats (nsi_Stats (gf_nodeStatsInfo f)))]
  end.
(** Sending stops at the first error. *)
Fixpoint send_all (stream : nat) (es : list VisualizeEvent) : GM bool :=
  match es with
  | [] => mret true
  | e :: es => ok ← Send stream e; if (ok : bool) then send_all stream es else mret false
  end.
Definition prepareStream (stream : nat) (ty : VizType) : GM bool :=
  g ← get; send_all stream (present_state ty g).

(** The methods [Visualize] and [NodeStats] of the server up to the loop of the stream: the
    new stream, and whether it was accepted. *)
Definition runVisualizeStream (ty : VizType) : GM (nat * bool) :=
  stream ← gets gv_next;
  _ ← modify (set_gv_next (S stream));
  ok ← prepareStream stream ty;
  _ ← when ok (modify (fun g => set_gv_streams (<[stream := ty]> (gv_visualizingStreams g)) g));
  mret (stream, ok).
Definition disposeStream (stream : nat) : GM () :=
  modify (fun g => set_gv_streams (delete stream (gv_visualizingStreams g)) g).
(** A turn of that loop: a heartbeat, whose failure ends the stream. *)
Definition heartbeat (stream : nat) : GM () :=
  ok ← Send stream EvHeartbeat; if (ok : bool) then mret tt else disposeStream stream.
(** The method [Energy] up to waiting for the end of the stream: the history is sent by the
    method that reports energy. *)
Fixpoint sendHistory (hist : list (Z * list NodeEnergy)) : GM () :=
  match hist with
  | [] => mret tt
  | (ts, nodes) :: rest => _ ← UpdateNodesEnergy nodes ts (match rest with [] => true | _ => false end); sendHistory rest
  end.
Definition EnergyStream (hist : list (Z * list NodeEnergy)) : GM nat :=
  stream ← gets gv_next;
  _ ← modify (fun g => set_gv_energyStreams (gv_energyStreams g ∪ {[stream]}) (set_gv_next (S stream) g));
  _ ← sendHistory hist;
  mret stream.
Definition disposeEnergyStream (stream : nat) : GM () :=
  modify (fun g => set_gv_energyStreams (gv_energyStreams g ∖ {[stream]}) g).
End visualizer.
