(* ===== verification/GrpcLaws.v ===== *)
(** * What clients of the gRPC visualizer see

    A client applies the events of its stream to what it shows: [View] and [apply_event] are a
    specification of such a client.  The theorems say that, whenever a stream was opened and
    whatever happened since, the client shows what the visualizer was told. *)

From S2P Require Import Prelude State Types GoFloat Energy Visualize GrpcVisualizer.

Local Open Scope string_scope.
Local Open Scope Z_scope.

(** ** A client *)
Record NodeView := mkNodeView {
  nv_pos : Z * Z;
  nv_radioRange : Z;
  nv_type : string;
  nv_extaddr : Z;
  nv_rloc16 : Z;
  nv_role : Z;
  nv_mode : NodeMode;
  nv_partitionId : Z;
  nv_failed : bool;
  nv_parent : Z;
  nv_routers : gset Z;
  nv_children : gset Z;
  (** version, commit and Thread version, once known *)
  nv_info : option (string * string * Z);
}.
Record View := mkView {
  vw_nodes : gmap Z NodeView;
  vw_time : Z;
  vw_curSpeed : float;
  vw_speed : float;
  vw_title : option (string * Z * Z * Z);
  vw_network : bool * string * string;
  vw_legend : option (Z * Z * string);
  vw_stats : NodeStats;
}.
Definition view0 : View := mkView ∅ 0 0 0 None (false, "", "") None (mkNodeStats 0 0 0 0 0 0 0 0 0).

Definition on_view (id : Z) (f : NodeView -> NodeView) (v : View) : View :=
  mkView (alter f id (vw_nodes v)) (vw_time v) (vw_curSpeed v) (vw_speed v) (vw_title v) (vw_network v) (vw_legend v) (vw_stats v).
Definition set_nodes m (v : View) : View :=
  mkView m (vw_time v) (vw_curSpeed v) (vw_speed v) (vw_title v) (vw_network v) (vw_legend v) (vw_stats v).
(** A node of which only its position, range and type are known. *)
Definition new_view (x y range : Z) (ty : string) : NodeView :=
  mkNodeView (x, y) range ty InvalidExtAddr InvalidRloc16 OtDeviceRoleDisabled DefaultNodeMode 0 false 0 ∅ ∅ None.

(** What an event says about a node. *)
Definition node_event (e : VisualizeEvent) : option (Z * (NodeView -> NodeView)) :=
  match e with
  | EvSetNodeRloc16 id r => Some (id, fun n => mkNodeView (nv_pos n) (nv_radioRange n) (nv_type n) (nv_extaddr n) r (nv_role n)
      (nv_mode n) (nv_partitionId n) (nv_failed n) (nv_parent n) (nv_routers n) (nv_children n) (nv_info n))
  | EvSetNodeRole id r => Some (id, fun n => mkNodeView (nv_pos n) (nv_radioRange n) (nv_type n) (nv_extaddr n) (nv_rloc16 n) r
      (nv_mode n) (nv_partitionId n) (nv_failed n) (nv_parent n) (nv_routers n) (nv_children n) (nv_info n))
  | EvSetNodePos id x y _ => Some (id, fun n => mkNodeView (x, y) (nv_radioRange n) (nv_type n) (nv_extaddr n) (nv_rloc16 n) (nv_role n)
      (nv_mode n) (nv_partitionId n) (nv_failed n) (nv_parent n) (nv_routers n) (nv_children n) (nv_info n))
  | EvSetNodePartitionId id p => Some (id, fun n => mkNodeView (nv_pos n) (nv_radioRange n) (nv_type n) (nv_extaddr n) (nv_rloc16 n)
      (nv_role n) (nv_mode n) p (nv_failed n) (nv_parent n) (nv_routers n) (nv_children n) (nv_info n))
  | EvOnNodeFail id => Some (id, fun n => mkNodeView (nv_pos n) (nv_radioRange n) (nv_type n) (nv_extaddr n) (nv_rloc16 n)
      (nv_role n) (nv_mode n) (nv_partitionId n) true (nv_parent n) (nv_routers n) (nv_children n) (nv_info n))
  | EvOnNodeRecover id => Some (id, fun n => mkNodeView (nv_pos n) (nv_radioRange n) (nv_type n) (nv_extaddr n) (nv_rloc16 n)
      (nv_role n) (nv_mode n) (nv_partitionId n) false (nv_parent n) (nv_routers n) (nv_children n) (nv_info n))
  | EvSetParent id a => Some (id, fun n => mkNodeView (nv_pos n) (nv_radioRange n) (nv_type n) (nv_extaddr n) (nv_rloc16 n)
      (nv_role n) (nv_mode n) (nv_partitionId n) (nv_failed n) a (nv_routers n) (nv_children n) (nv_info n))
  | EvAddRouterTable id a => Some (id, fun n => mkNodeView (nv_pos n) (nv_radioRange n) (nv_type n) (nv_extaddr n) (nv_rloc16 n)
      (nv_role n) (nv_mode n) (nv_partitionId n) (nv_failed n) (nv_parent n) (nv_routers n ∪ {[a]}) (nv_children n) (nv_info n))
  | EvRemoveRouterTable id a => Some (id, fun n => mkNodeView (nv_pos n) (nv_radioRange n) (nv_type n) (nv_extaddr n) (nv_rloc16 n)
      (nv_role n) (nv_mode n) (nv_partitionId n) (nv_failed n) (nv_parent n) (nv_routers n ∖ {[a]}) (nv_children n) (nv_info n))
  | EvAddChildTable id a => Some (id, fun n => mkNodeView (nv_pos n) (nv_radioRange n) (nv_type n) (nv_extaddr n) (nv_rloc16 n)
      (nv_role n) (nv_mode n) (nv_partitionId n) (nv_failed n) (nv_parent n) (nv_routers n) (nv_children n ∪ {[a]}) (nv_info n))
  | EvRemoveChildTable id a => Some (id, fun n => mkNodeView (nv_pos n) (nv_radioRange n) (nv_type n) (nv_extaddr n) (nv_rloc16 n)
      (nv_role n) (nv_mode n) (nv_partitionId n) (nv_failed n) (nv_parent n) (nv_routers n) (nv_children n ∖ {[a]}) (nv_info n))
  | EvOnExtAddrChange id a => Some (id, fun n => mkNodeView (nv_pos n) (nv_radioRange n) (nv_type n) a (nv_rloc16 n)
      (nv_role n) (nv_mode n) (nv_partitionId n) (nv_failed n) (nv_parent n) (nv_routers n) (nv_children n) (nv_info n))
  | EvSetNodeMode id m => Some (id, fun n => mkNodeView (nv_pos n) (nv_radioRange n) (nv_type n) (nv_extaddr n) (nv_rloc16 n)
      (nv_role n) m (nv_partitionId n) (nv_failed n) (nv_parent n) (nv_routers n) (nv_children n) (nv_info n))
  | EvSetNetworkInfo _ ver com id th =>
    if id =? InvalidNodeId then None
    else Some (id, fun n => mkNodeView (nv_pos n) (nv_radioRange n) (nv_type n) (nv_extaddr n) (nv_rloc16 n) (nv_role n) (nv_mode n)
      (nv_partitionId n) (nv_failed n) (nv_parent n) (nv_routers n) (nv_children n) (Some (ver, com, th)))
  | _ => None
  end.
Definition apply_event (v : View) (e : VisualizeEvent) : View :=
  match node_event e with
  | Some (id, f) => on_view id f v
  | None =>
    match e with
    | EvAddNode id x y _ range ty => set_nodes (<[id := new_view x y range ty]> (vw_nodes v)) v
    | EvDeleteNode id => set_nodes (delete id (vw_nodes v)) v
    | EvShowDemoLegend x y t =>
      mkView (vw_nodes v) (vw_time v) (vw_curSpeed v) (vw_speed v) (vw_title v) (vw_network v) (Some (x, y, t)) (vw_stats v)
    | EvAdvanceTime ts sp =>
      mkView (vw_nodes v) ts sp (vw_speed v) (vw_title v) (vw_network v) (vw_legend v) (vw_stats v)
    | EvSetSpeed sp =>
      mkView (vw_nodes v) (vw_time v) (vw_curSpeed v) sp (vw_title v) (vw_network v) (vw_legend v) (vw_stats v)
    | EvSetTitle t x y s =>
      mkView (vw_nodes v) (vw_time v) (vw_curSpeed v) (vw_speed v) (if String.eqb t "" then None else Some (t, x, y, s))
        (vw_network v) (vw_legend v) (vw_stats v)
    | EvSetNetworkInfo real ver com _ _ =>
      mkView (vw_nodes v) (vw_time v) (vw_curSpeed v) (vw_speed v) (vw_title v) (real, ver, com) (vw_legend v) (vw_stats v)
    | EvNodeStatsInfo _ s =>
      mkView (vw_nodes v) (vw_time v) (vw_curSpeed v) (vw_speed v) (vw_title v) (vw_network v) (vw_legend v) s
    | _ => v
    end
  end.

(** ** What it should show *)
(** Equal as numbers, or the same. *)
Definition same_speed (a b : float) : Prop := a = b \/ PrimFloat.eqb a b = true.

Record node_shown (nv : NodeView) (n : grpcNode) : Prop := {
  ns_pos : nv_pos nv = (int32 (gn_x n), int32 (gn_y n));
  ns_radioRange : nv_radioRange nv = int32 (gn_radioRange n);
  ns_type : nv_type nv = gn_nodeType n;
  ns_extaddr : nv_extaddr nv = gn_extaddr n;
  ns_rloc16 : nv_rloc16 nv = u32 (gn_rloc16 n);
  ns_role : nv_role nv = int32 (gn_role n);
  ns_mode : nv_mode nv = gn_mode n;
  ns_partitionId : nv_partitionId nv = gn_partitionId n;
  ns_failed : nv_failed nv = gn_failed n;
  ns_parent : nv_parent nv = gn_parent n;
  ns_routers : nv_routers nv = gn_routerTable n;
  ns_children : nv_children nv = gn_childTable n;
  ns_info : nv_info nv = None \/ nv_info nv = Some (gn_version n, gn_commit n, int32 (gn_threadVersion n));
}.
Definition title_of (t : TitleInfo) : option (string * Z * Z * Z) :=
  if String.eqb (ti_Title t) "" then None else Some (ti_Title t, int32 (ti_X t), int32 (ti_Y t), int32 (ti_FontSize t)).
Definition legend_of (e : option VisualizeEvent) : option (Z * Z * string) :=
  match e with Some (EvShowDemoLegend x y t) => Some (x, y, t) | _ => None end.
Definition nodes_shown (m : gmap Z NodeView) (f : gmap NodeId grpcNode) : Prop :=
  dom m = dom f /\ forall id nv n, m !! id = Some nv -> f !! id = Some n -> node_shown nv n.
Definition shows (ty : VizType) (v : View) (f : grpcField) (legend : option VisualizeEvent) : Prop :=
  vw_time v = gf_curTime f /\ same_speed (vw_curSpeed v) (gf_curSpeed f) /\ vw_title v = title_of (gf_titleInfo f) /\
  match ty with
  | meshTopologyVizType =>
    vw_speed v = gf_speed f /\ vw_legend v = legend_of legend /\
    vw_network v = (ni_Real (gf_networkInfo f), ni_Version (gf_networkInfo f), ni_Commit (gf_networkInfo f)) /\
    nodes_shown (vw_nodes v) (gf_nodes f)
  | nodeStatsVizType => vw_stats v = pbNodeStats (nsi_Stats (gf_nodeStatsInfo f))
  end.

(** The events of a stream, and whether all of them arrived. *)
Definition on_stream (stream : nat) (sent : list (nat * VisualizeEvent * bool)) : list (VisualizeEvent * bool) :=
  omap (fun '(s, e, ok) => if decide (s = stream) then Some (e, ok) else None) sent.
Definition client_view (stream : nat) (g : grpcVisualizer) : View :=
  foldl apply_event view0 (on_stream stream (gv_sent g)).*1.
Definition all_arrived (stream : nat) (g : grpcVisualizer) : bool :=
  forallb snd (on_stream stream (gv_sent g)).

(** Node ids that fit the protocol. *)
Definition id_ok (id : NodeId) : Prop := 0 < id < 2 ^ 31.
Definition call_ok (c : VisCall) : Prop :=
  match c with
  | VisAddNode id _ | VisDeleteNode id => id_ok id
  | _ => True
  end.

(** ** Everything that can happen *)
Inductive gv_step {env : StreamEnv} : grpcVisualizer -> grpcVisualizer -> Prop :=
| gs_call g c g' : call_ok c -> vis_call c g = Ok (tt, g') -> gv_step g g'
| gs_stop g g' : vis_Stop g = Ok (tt, g') -> gv_step g g'
| gs_open g ty r g' : runVisualizeStream ty g = Ok (r, g') -> gv_step g g'
| gs_heartbeat g stream g' : is_Some (gv_visualizingStreams g !! stream) -> heartbeat stream g = Ok (tt, g') -> gv_step g g'
| gs_close g stream g' : disposeStream stream g = Ok (tt, g') -> gv_step g g'
| gs_energy g hist stream g' : EnergyStream hist g = Ok (stream, g') -> gv_step g g'
| gs_energy_close g stream g' : disposeEnergyStream stream g = Ok (tt, g') -> gv_step g g'.
Inductive gv_reachable {env : StreamEnv} (replay : bool) : grpcVisualizer -> Prop :=
| gr_new : gv_reachable replay (NewGrpcVisualizer replay)
| gr_step g g' : gv_reachable replay g -> gv_step g g' -> gv_reachable replay g'.

(** ** Lemmas *)
Lemma int32_id id : id_ok id -> int32 id = id.
Proof. intros [H1 H2]. unfold to_signed. rewrite Z.mod_small by lia. destruct (Z.ltb_spec id (2 ^ (32 - 1))); lia. Qed.

(** Comparing floats is transitive. *)
Lemma SFeqb_trans a b c : SFeqb a b = true -> SFeqb b c = true -> SFeqb a c = true.
Proof.
  unfold SFeqb. intros H1 H2.
  destruct a as [sa|sa| |sa ma ea], b as [sb|sb| |sb mb eb], c as [sc|sc| |sc mc ec]; try done; simpl in *;
    repeat match goal with s : bool |- _ => destruct s end; try done.
  all: destruct (Z.compare_spec ea eb) as [->| |], (Z.compare_spec eb ec) as [->| |]; try done; simpl in *;
    rewrite ?Z.compare_refl; simpl.
  all: destruct (Pos.compare_cont Eq ma mb) eqn:E1; try done; destruct (Pos.compare_cont Eq mb mc) eqn:E2; try done.
  all: apply Pos.compare_eq in E1; apply Pos.compare_eq in E2; subst; by rewrite Pos.compare_cont_refl.
Qed.
Lemma same_speed_trans a b c : same_speed a b -> same_speed b c -> same_speed a c.
Proof.
  intros [->|H1] [->|H2]; unfold same_speed; auto. right.
  rewrite FloatAxioms.eqb_spec in *. eapply SFeqb_trans; eassumption.
Qed.

#[local] Arguments on_stream : simpl never.
#[local] Arguments apply_event : simpl never.
Lemma on_stream_app s l1 l2 : on_stream s (l1 ++ l2) = (on_stream s l1 ++ on_stream s l2)%list.
Proof. unfold on_stream. apply omap_app. Qed.
Lemma on_stream_none s l : (forall s' e ok, (s', e, ok) ∈ l -> s' <> s) -> on_stream s l = [].
Proof.
  induction l as [|[[s' e] ok] l IH]; intros H; [done|]. unfold on_stream in *. simpl.
  rewrite decide_False by (eapply H; left). apply IH. intros ??? Hin. eapply H. right. exact Hin.
Qed.

Section laws.
Context {env : StreamEnv} {env_ok : StreamEnvOk env}.
Implicit Types g : grpcVisualizer.

(** *** Sending *)
Definition sending g new : grpcVisualizer := set_gv_sent (gv_sent g ++ new)%list g.
Lemma Send_run stream e g : exists ok, Send stream e g = Ok (ok, sending g [(stream, e, ok)]).
Proof. eexists. unfold Send, mbind, st_bind, get, modify, mret, st_ret. reflexivity. Qed.

Definition send_one (e : VisualizeEvent) (x : nat * VizType) : st grpcVisualizer () :=
  let '(stream, ty) := x in when (acceptsEvent ty e) (_ ← Send stream e; mret tt).
Lemma send_loop e l g : NoDup l.*1 -> exists new, for_each l (send_one e) g = Ok (tt, sending g new) /\
  (forall s, s ∉ l.*1 -> on_stream s new = []) /\
  (forall s ty, (s, ty) ∈ l -> if acceptsEvent ty e then exists b, on_stream s new = [(e, b)] else on_stream s new = []).
Proof.
  revert g. induction l as [|[s ty] l IH]; intros g HN.
  - exists []. split; [|split; [done|]]; [unfold sending; rewrite app_nil_r; by destruct g|].
    intros s ty H. by apply not_elem_of_nil in H.
  - apply NoDup_cons in HN as [Hs HN]. destruct (acceptsEvent ty e) eqn:Ea.
    + destruct (Send_run s e g) as [ok E]. destruct (IH (sending g [(s, e, ok)]) HN) as (new & E2 & H1 & H2).
      exists ((s, e, ok) :: new). split_and!.
      * cbn [for_each send_one]. rewrite Ea. cbn [when]. unfold mbind, st_bind in *. rewrite E. cbn.
        rewrite E2. unfold sending. cbn. by rewrite <- app_assoc.
      * intros s' Hs'. unfold on_stream. simpl. rewrite decide_False by (intros ->; apply Hs'; left).
        apply H1. intros H'. apply Hs'. by right.
      * intros s' ty' [[= -> ->]|Hin]%elem_of_cons.
        -- rewrite Ea. exists ok. unfold on_stream. simpl. rewrite decide_True by done. f_equal. by apply H1.
        -- unfold on_stream. simpl. rewrite decide_False; [by apply H2|]. intros ->. apply Hs.
           apply list_elem_of_fmap. by exists (s', ty').
    + destruct (IH g HN) as (new & E2 & H1 & H2). exists new. split_and!.
      * cbn [for_each send_one]. by rewrite Ea.
      * intros s' Hs'. apply H1. intros H'. apply Hs'. by right.
      * intros s' ty' [[= -> ->]|Hin]%elem_of_cons; [|by apply H2]. rewrite Ea. by apply H1.
Qed.

Lemma SendEvent_run e g : exists new, SendEvent e g = Ok (tt, sending g new) /\
  (forall s, gv_visualizingStreams g !! s = None -> on_stream s new = []) /\
  (forall s ty, gv_visualizingStreams g !! s = Some ty ->
    if acceptsEvent ty e then exists b, on_stream s new = [(e, b)] else on_stream s new = []).
Proof.
  destruct (send_loop e (range_streams (gv_visualizingStreams g)) g) as (new & E & H1 & H2).
  { rewrite range_streams_perm. apply NoDup_fst_map_to_list. }
  exists new. split; [exact E|]. split.
  - intros s Hs. apply H1. rewrite range_streams_perm. intros ([s' ty] & -> & Hin)%list_elem_of_fmap.
    apply elem_of_map_to_list in Hin. cbn in Hs. congruence.
  - intros s ty Hs. apply H2. rewrite range_streams_perm. by apply elem_of_map_to_list.
Qed.

(** *** The invariant *)
Definition legend_ok (e : option VisualizeEvent) : Prop :=
  match e with None | Some (EvShowDemoLegend _ _ _) => True | _ => False end.
(** A client that shows what the entries of the replay file say. *)
Definition view_init : View := mkView ∅ 0 1 1 None (false, "", "") None (mkNodeStats 0 0 0 0 0 0 0 0 0).
Definition replay_view (r : Replay) : View := foldl apply_event view_init (rep_entries r).*2.
Definition replay_ok (r : option Replay) (f : grpcField) (l : option VisualizeEvent) : Prop :=
  match r with Some r => shows meshTopologyVizType (replay_view r) f l | None => True end.
Record gv_ok g : Prop := {
  go_ids : forall id, id ∈ dom (gf_nodes (gv_f g)) -> id_ok id;
  go_legend : legend_ok (gv_showDemoLegendEvent g);
  go_fresh : forall s, (gv_next g <= s)%nat -> on_stream s (gv_sent g) = [] /\ gv_visualizingStreams g !! s = None;
  go_shows : forall s ty, gv_visualizingStreams g !! s = Some ty -> all_arrived s g = true ->
    shows ty (client_view s g) (gv_f g) (gv_showDemoLegendEvent g);
  go_replay : replay_ok (gv_replay g) (gv_f g) (gv_showDemoLegendEvent g);
}.

(** Sending [e] makes up for the step from [f], [l] to [f'], [l']. *)
Definition tells (e : VisualizeEvent) (f : grpcField) (l : option VisualizeEvent) (f' : grpcField) (l' : option VisualizeEvent) : Prop :=
  forall ty v, shows ty v f l -> shows ty (if acceptsEvent ty e then apply_event v e else v) f' l'.

Lemma ok_broadcast g f' l' r' e g' :
  gv_ok g -> tells e (gv_f g) (gv_showDemoLegendEvent g) f' l' ->
  (forall id, id ∈ dom (gf_nodes f') -> id_ok id) -> legend_ok l' -> replay_ok r' f' l' ->
  SendEvent e (set_gv_replay r' (set_gv_legend l' (set_gv_f f' g))) = Ok (tt, g') -> gv_ok g'.
Proof.
  intros [H1 H2 H3 H4 H5] HT Hid Hl Hr E.
  destruct (SendEvent_run e (set_gv_replay r' (set_gv_legend l' (set_gv_f f' g)))) as (new & E' & N1 & N2).
  rewrite E in E'. injection E' as ->. cbn in N1, N2. split; cbn.
  - exact Hid.
  - exact Hl.
  - intros s Hs. destruct (H3 s Hs) as [S1 S2]. rewrite on_stream_app, S1. split; [|exact S2]. by apply N1.
  - intros s ty Hs Ha. specialize (N2 s ty Hs). unfold all_arrived, client_view in *. cbn in *.
    rewrite on_stream_app, forallb_app in Ha. apply andb_true_iff in Ha as [Ha _].
    specialize (HT ty _ (H4 s ty Hs Ha)). rewrite on_stream_app, fmap_app, foldl_app.
    destruct (acceptsEvent ty e); [destruct N2 as [b ->]|rewrite N2]; exact HT.
  - exact Hr.
Qed.
(** Statistics are in the replay file too, and do not matter there. *)
Lemma replay_tells e f l f' l' v :
  tells e f l f' l' -> shows meshTopologyVizType v f l -> shows meshTopologyVizType (apply_event v e) f' l'.
Proof. intros HT Hv. specialize (HT _ _ Hv). destruct e; exact HT. Qed.

Lemma ok_report g f' l' e g' :
  gv_ok g -> tells e (gv_f g) (gv_showDemoLegendEvent g) f' l' ->
  (forall id, id ∈ dom (gf_nodes f') -> id_ok id) -> legend_ok l' ->
  addVisualizeEvent e (set_gv_legend l' (set_gv_f f' g)) = Ok (tt, g') -> gv_ok g'.
Proof.
  intros H HT Hid Hl E. unfold addVisualizeEvent in E. apply bind_st_Ok in E as (? & ? & [<- <-]%get_st_Ok & E).
  apply bind_st_Ok in E as ([] & g2 & E2 & E).
  assert (exists r, g2 = set_gv_replay r (set_gv_legend l' (set_gv_f f' g)) /\ replay_ok r f' l') as (r & -> & Hr).
  { pose proof (go_replay g H) as Hr. cbn in E2. destruct (gv_replay g) as [r|] eqn:Er.
    - apply bind_st_Ok in E2 as (r1 & ? & [Ea <-]%lift_st_Ok & <-%modify_st_Ok). exists (Some r1). split; [done|].
      unfold Append in Ea. destruct (rep_closed r); [done|]. injection Ea as <-. unfold replay_ok, replay_view. cbn.
      rewrite fmap_app, foldl_app. eapply replay_tells; eassumption.
    - apply ret_st_Ok in E2 as [_ <-]. exists None. split; [|done]. destruct g; cbn in *. by subst. }
  eapply ok_broadcast; eassumption.
Qed.
(** The same for a report that leaves the legend alone. *)
Lemma ok_report_field g f' e g' :
  gv_ok g -> addVisualizeEvent e (set_gv_f f' g) = Ok (tt, g') ->
  tells e (gv_f g) (gv_showDemoLegendEvent g) f' (gv_showDemoLegendEvent g) ->
  (forall id, id ∈ dom (gf_nodes f') -> id_ok id) -> gv_ok g'.
Proof. intros H E HT Hid. eapply (ok_report g f' (gv_showDemoLegendEvent g)); [done..|apply H|]. by destruct g. Qed.

(** *** Reports on a node *)
Lemma nodes_shown_insert m f id nv n : nodes_shown m f -> node_shown nv n -> nodes_shown (<[id := nv]> m) (<[id := n]> f).
Proof.
  intros [HD HN] H. split; [rewrite !dom_insert_L, HD; done|]. intros id' nv' n'.
  destruct (decide (id' = id)) as [->|Hne]; [rewrite !lookup_insert_eq; naive_solver|].
  rewrite !lookup_insert_ne by done. apply HN.
Qed.
Lemma nodes_shown_alter m f id k h n :
  nodes_shown m f -> f !! id = Some n -> (forall nv, node_shown nv n -> node_shown (k nv) (h n)) ->
  nodes_shown (alter k id m) (<[id := h n]> f).
Proof.
  intros [HD HN] Hn Hk. split.
  - rewrite dom_alter_L, dom_insert_L, HD. apply (elem_of_dom_2 (D := gset Z)) in Hn. set_solver.
  - intros id' nv' n'. destruct (decide (id' = id)) as [->|Hne].
    + rewrite lookup_alter_eq, lookup_insert_eq. intros (nv & E & ->)%fmap_Some [= <-]. by apply Hk, (HN id).
    + rewrite lookup_alter_ne, lookup_insert_ne by done. apply HN.
Qed.
Lemma tells_node e id k h f l n :
  node_event e = Some (id, k) -> acceptsEvent meshTopologyVizType e = true -> acceptsEvent nodeStatsVizType e = false ->
  gf_nodes f !! id = Some n -> (forall nv, node_shown nv n -> node_shown (k nv) (h n)) ->
  tells e f l (set_gf_nodes (<[id := h n]> (gf_nodes f)) f) l.
Proof.
  intros He Ha Hb Hn Hk [] v; [rewrite Ha|by rewrite Hb]. unfold apply_event. rewrite He.
  intros (H1 & H2 & H3 & H4 & H5 & H6 & H7). unfold shows. cbn. split_and!; [done..|]. by apply nodes_shown_alter.
Qed.
Lemma ids_insert g id n :
  gv_ok g -> id_ok id -> forall id', id' ∈ dom (<[id := n]> (gf_nodes (gv_f g))) -> id_ok id'.
Proof. intros H Hid id'. rewrite dom_insert_L. intros [->%elem_of_singleton|Hin]%elem_of_union; [done|]. by apply H. Qed.
(** The method that changes one node and reports it. *)
Lemma ok_node g id h e k g' :
  gv_ok g -> (_ ← on_field (on_gnode id h); addVisualizeEvent e) g = Ok (tt, g') ->
  (id_ok id -> node_event e = Some (id, k)) ->
  acceptsEvent meshTopologyVizType e = true -> acceptsEvent nodeStatsVizType e = false ->
  (forall nv n, node_shown nv n -> node_shown (k nv) (h n)) -> gv_ok g'.
Proof.
  intros H E He Ha Hb Hk. unfold on_field, on_gnode in E. st_inv. res_inv. subst. cbn in *.
  assert (id_ok id) as Hid by (eapply (go_ids g H), elem_of_dom_2; eassumption).
  eapply ok_report_field; [exact H|exact E| |].
  - eapply tells_node; eauto.
  - intros id'. cbn. by apply ids_insert.
Qed.

(** *** Every call *)
Ltac node_call H E :=
  eapply (ok_node _ _ _ _ _ _ H E); [intros ?; rewrite int32_id by assumption; reflexivity|reflexivity|reflexivity|];
  intros nv n []; split; cbn; first [done|congruence|by left].
Lemma on_gnode_twice id h1 h2 f : (f1 ← on_gnode id h1 f; on_gnode id h2 f1) = on_gnode id (fun n => h2 (h1 n)) f.
Proof.
  unfold on_gnode, mbind, res_bind. destruct (gf_nodes f !! id) as [n|] eqn:E; cbn; [|done].
  rewrite lookup_insert_eq. cbn. unfold set_gf_nodes. cbn. by rewrite insert_insert_eq.
Qed.
Lemma on_field_bind {B} op1 op2 (k : st grpcVisualizer B) g :
  (_ ← on_field op1; _ ← on_field op2; k) g = (_ ← on_field (fun f => f1 ← op1 f; op2 f1); k) g.
Proof. unfold on_field, update, mbind, st_bind, res_bind. destruct (op1 (gv_f g)) as [f1|]; cbn; [|done]. by destruct (op2 f1). Qed.
Lemma on_field_ext {B} op1 op2 (k : st grpcVisualizer B) g :
  op1 (gv_f g) = op2 (gv_f g) -> (_ ← on_field op1; k) g = (_ ← on_field op2; k) g.
Proof. unfold on_field, update, mbind, st_bind, res_bind. by intros ->. Qed.

Lemma ok_SetNetworkInfo info g g' : gv_ok g -> SetNetworkInfo info g = Ok (tt, g') -> gv_ok g'.
Proof.
  intros H E. unfold SetNetworkInfo in E. destruct (Z.eqb_spec (ni_NodeId info) InvalidNodeId) as [Hi|Hi].
  - apply bind_st_Ok in E as ([] & g1 & E1 & E). unfold on_field in E1. st_inv. cbn in E1. injection E1 as <-.
    refine (ok_report_field g _ _ g' H E _ (go_ids g H)).
    intros [] v; cbn [acceptsEvent]; [|done]. rewrite Hi. change (int32 InvalidNodeId) with 0. unfold shows, apply_event. cbn.
    intros (H1 & H2 & H3 & H4 & H5 & H6 & H7). by split_and!.
  - assert ((_ ← on_field (on_gnode (ni_NodeId info) (fun n => set_gn_threadVersion (ni_ThreadVersion info)
        (set_gn_commit (ni_Commit info) (set_gn_version (ni_Version info) n))));
      addVisualizeEvent (EvSetNetworkInfo (ni_Real info) (ni_Version info) (ni_Commit info)
        (int32 (ni_NodeId info)) (int32 (ni_ThreadVersion info)))) g = Ok (tt, g')) as E'.
    { rewrite <- E. unfold setNodeVersion, setNodeCommit, setNodeThreadVersion.
      transitivity ((_ ← on_field (fun f => f1 ← (f0 ← on_gnode (ni_NodeId info) (set_gn_version (ni_Version info)) f;
          on_gnode (ni_NodeId info) (set_gn_commit (ni_Commit info)) f0);
          on_gnode (ni_NodeId info) (set_gn_threadVersion (ni_ThreadVersion info)) f1);
        addVisualizeEvent (EvSetNetworkInfo (ni_Real info) (ni_Version info) (ni_Commit info)
          (int32 (ni_NodeId info)) (int32 (ni_ThreadVersion info)))) g).
      - apply on_field_ext. by rewrite !on_gnode_twice.
      - rewrite <- !on_field_bind. unfold mbind, st_bind. by repeat destruct (on_field _ _) as [[]|]. }
    clear E. eapply (ok_node g _ _ _ _ _ H E'); [|reflexivity|reflexivity|].
    + intros Hid. cbn. rewrite int32_id by done. apply Z.eqb_neq in Hi as ->. reflexivity.
    + intros nv n []. split; cbn; try done. by right.
Qed.

Lemma tells_time ts sp f l : tells (EvAdvanceTime ts sp) f l (advanceTime ts sp f).2 l.
Proof.
  intros [] v; cbn [acceptsEvent]; unfold shows, apply_event; cbn; intros (H1 & H2 & H3 & H4); split_and!; try done;
    try (by left); by destruct H4 as (? & ? & ? & ?).
Qed.
(** Nothing is sent when the time and the speed are the same. *)
Lemma shows_same_time ts sp f l ty v : (advanceTime ts sp f).1 = false -> shows ty v f l -> shows ty v (advanceTime ts sp f).2 l.
Proof.
  cbn. intros [Ht%negb_false_iff Hs%negb_false_iff]%orb_false_iff (H1 & H2 & H3). apply Z.eqb_eq in Ht.
  split; [cbn; congruence|]. split; [|done]. cbn. eapply same_speed_trans; [exact H2|]. by right.
Qed.
(** The state is changed, and nobody is told. *)
Lemma ok_silent g f' :
  gv_ok g -> (forall ty v, shows ty v (gv_f g) (gv_showDemoLegendEvent g) -> shows ty v f' (gv_showDemoLegendEvent g)) ->
  gf_nodes f' = gf_nodes (gv_f g) -> gv_ok (set_gv_f f' g).
Proof.
  intros [H1 H2 H3 H4 H5] HS HN. split; cbn; [by rewrite HN|done..| |].
  - intros s ty Hs Ha. by apply HS, H4.
  - unfold replay_ok in *. destruct (gv_replay g); [|done]. by apply HS.
Qed.
Lemma ok_AdvanceTime ts sp g g' : gv_ok g -> AdvanceTime ts sp g = Ok (tt, g') -> gv_ok g'.
Proof.
  intros H E. unfold AdvanceTime in E. apply bind_st_Ok in E as (? & ? & [<- <-]%get_st_Ok & E).
  destruct (advanceTime ts sp (gv_f g)) as [c f'] eqn:Ea. apply bind_st_Ok in E as ([] & g1 & E1 & E). st_inv. subst g1.
  assert (f' = (advanceTime ts sp (gv_f g)).2) as -> by by rewrite Ea. destruct c; cbn [when] in E.
  - exact (ok_report_field g _ _ g' H E (tells_time _ _ _ _) (go_ids g H)).
  - st_inv. subst. apply ok_silent; [done| |done]. intros ty v. apply shows_same_time. by rewrite Ea.
Qed.

Lemma energy_keeps g ev g' : SendEnergyEvent ev g = Ok (tt, g') -> exists l, g' = set_gv_energySent l g.
Proof.
  unfold SendEnergyEvent. intros E. apply bind_st_Ok in E as (? & ? & [<- <-]%get_st_Ok & E). revert E.
  generalize (range_energy (gv_energyStreams g)) as l. intros l. revert g. induction l as [|s l IH]; intros g E; cbn [for_each] in E.
  - apply ret_st_Ok in E as [_ <-]. exists (gv_energySent g). by destruct g.
  - apply bind_st_Ok in E as ([] & g1 & E1 & E). st_inv. subst g1. apply IH in E as [l' ->]. by exists l'.
Qed.
Lemma ok_energySent g l : gv_ok g -> gv_ok (set_gv_energySent l g).
Proof. by intros [H1 H2 H3 H4 H5]. Qed.
Lemma ok_UpdateNodesEnergy nodes ts upd g g' : gv_ok g -> UpdateNodesEnergy nodes ts upd g = Ok (tt, g') -> gv_ok g'.
Proof.
  intros H E. apply bind_st_Ok in E as ([] & g1 & [l ->]%energy_keeps & E). destruct upd; cbn [when] in E.
  - apply energy_keeps in E as [l' ->]. by repeat apply ok_energySent.
  - st_inv. subst. by apply ok_energySent.
Qed.

Lemma ok_AddNode id cfg g g' : id_ok id -> gv_ok g -> AddNode id cfg g = Ok (tt, g') -> gv_ok g'.
Proof.
  intros Hid H E. apply bind_st_Ok in E as ([] & g1 & E1 & E). unfold on_field, addNode in E1. st_inv. res_inv. subst.
  refine (ok_report_field g _ _ g' H E _ _).
  - intros [] v; [|done]. cbn [acceptsEvent]. unfold shows, apply_event. cbn. rewrite (int32_id id) by done.
    intros (V1 & V2 & V3 & V4 & V5 & V6 & V7). split_and!; [done..|]. apply nodes_shown_insert; [done|].
    split; cbn; try done. by left.
  - cbn. by apply ids_insert.
Qed.
Lemma ok_vis_DeleteNode id g g' : id_ok id -> gv_ok g -> DeleteNode id g = Ok (tt, g') -> gv_ok g'.
Proof.
  intros Hid H E. apply bind_st_Ok in E as ([] & g1 & E1 & E). unfold on_field in E1. st_inv. cbn in E1. injection E1 as <-.
  refine (ok_report_field g _ _ g' H E _ _).
  - intros [] v; [|done]. cbn [acceptsEvent]. unfold shows, apply_event. cbn. rewrite (int32_id id) by done.
    intros (H1 & H2 & H3 & H4 & H5 & H6 & H7 & H8). split_and!; [done..|]. split; [by rewrite !dom_delete_L, H7|].
    intros id' nv n [_ ?]%lookup_delete_Some [_ ?]%lookup_delete_Some. by apply (H8 id').
  - cbn. intros id'. rewrite dom_delete_L. intros [Hin _]%elem_of_difference. by apply H.
Qed.
(** A report that does not concern the nodes. *)
Lemma ok_plain g f' l' e g' :
  gv_ok g -> addVisualizeEvent e (set_gv_legend l' (set_gv_f f' g)) = Ok (tt, g') ->
  tells e (gv_f g) (gv_showDemoLegendEvent g) f' l' -> gf_nodes f' = gf_nodes (gv_f g) -> legend_ok l' -> gv_ok g'.
Proof. intros H E HT HN Hl. eapply ok_report; [exact H|exact HT| |exact Hl|exact E]. rewrite HN. apply H. Qed.
Lemma set_same_f g : set_gv_f (gv_f g) g = g.
Proof. by destruct g. Qed.
Lemma ok_field_plain f' e g g' :
  gv_ok g -> (_ ← on_field (fun f => Ok (f' f)); addVisualizeEvent e) g = Ok (tt, g') ->
  tells e (gv_f g) (gv_showDemoLegendEvent g) (f' (gv_f g)) (gv_showDemoLegendEvent g) ->
  gf_nodes (f' (gv_f g)) = gf_nodes (gv_f g) -> gv_ok g'.
Proof.
  intros H E HT HN. apply bind_st_Ok in E as ([] & g1 & E1 & E). unfold on_field in E1. st_inv. cbn in E1. injection E1 as <-.
  refine (ok_report_field g _ _ g' H E HT _). rewrite HN. apply H.
Qed.
(** An event that changes nothing. *)
Lemma ok_event_plain e g g' :
  gv_ok g -> addVisualizeEvent e g = Ok (tt, g') ->
  tells e (gv_f g) (gv_showDemoLegendEvent g) (gv_f g) (gv_showDemoLegendEvent g) -> gv_ok g'.
Proof. intros H E HT. rewrite <- (set_same_f g) in E. exact (ok_report_field g _ _ g' H E HT (go_ids g H)). Qed.
Ltac tell := intros [] v; cbn [acceptsEvent]; unfold shows, apply_event; cbn; intuition (auto; by left).

Lemma ok_grpc_call c g g' : call_ok c -> gv_ok g -> vis_call c g = Ok (tt, g') -> gv_ok g'.
Proof.
  intros Hc H E. destruct c; cbn [vis_call grpc_visualizer] in E.
  - by eapply ok_AddNode.
  - node_call H E.
  - node_call H E.
  - node_call H E.
  - apply bind_st_Ok in E as (? & ? & [<- <-]%get_st_Ok & E). eapply (ok_event_plain _ _ _ H E). tell.
  - node_call H E.
  - by eapply ok_AdvanceTime.
  - node_call H E.
  - node_call H E.
  - node_call H E.
  - by eapply ok_vis_DeleteNode.
  - node_call H E.
  - node_call H E.
  - node_call H E.
  - node_call H E.
  - node_call H E.
  - node_call H E.
  - by eapply ok_UpdateNodesEnergy.
  - eapply (ok_field_plain (setNodeStatsInfo _) _ _ _ H E); [tell|done].
  - st_inv. by subst.
  - eapply (ok_field_plain (setSpeed _) _ _ _ H E); [tell|done].
  - apply bind_st_Ok in E as ([] & g1 & E1 & E). st_inv. subst g1. rewrite <- (set_same_f g) in E.
    refine (ok_plain g _ _ _ _ H E _ eq_refl I). tell.
  - eapply (ok_event_plain _ _ _ H E). tell.
  - eapply (ok_field_plain (setTitleInfo _) _ _ _ H E); [|done]. tell.
  - by eapply ok_SetNetworkInfo.
Qed.

(** *** A new stream *)
Lemma send_all_run stream es g : exists new ok, send_all stream es g = Ok (ok, sending g new) /\
  (forall s, s <> stream -> on_stream s new = []) /\ (ok = true -> (on_stream stream new).*1 = es).
Proof.
  revert g. induction es as [|e es IH]; intros g.
  - exists [], true. split_and!; [|done..]. unfold sending. rewrite app_nil_r. by destruct g.
  - destruct (Send_run stream e g) as [ok E]. cbn [send_all]. destruct ok.
    + destruct (IH (sending g [(stream, e, true)])) as (new & ok & E2 & H1 & H2). exists ((stream, e, true) :: new), ok. split_and!.
      * unfold mbind, st_bind. rewrite E, E2. unfold sending. cbn. by rewrite <- app_assoc.
      * intros s Hs. change (on_stream s ([(stream, e, true)] ++ new) = []). rewrite on_stream_app, H1, app_nil_r by done.
        apply on_stream_none. by intros ??? [= -> -> ->]%list_elem_of_singleton.
      * intros Hok. change ((on_stream stream ([(stream, e, true)] ++ new)).*1 = e :: es). rewrite on_stream_app, fmap_app, H2 by done.
        unfold on_stream. cbn. by rewrite decide_True.
    + exists [(stream, e, false)], false. split_and!; [|intros s Hs; apply on_stream_none; by intros ??? [= -> -> ->]%list_elem_of_singleton|done].
      unfold mbind, st_bind. by rewrite E.
Qed.

(** What the events of one node do to its view. *)
Definition node_effect (nv : NodeView) (e : VisualizeEvent) : NodeView :=
  match node_event e with Some (_, k) => k nv | None => nv end.
Lemma apply_node_events id es v :
  Forall (fun e => exists k, node_event e = Some (id, k)) es ->
  foldl apply_event v es = on_view id (fun nv => foldl node_effect nv es) v.
Proof.
  revert v. induction es as [|e es IH]; intros v H; cbn [foldl].
  - unfold on_view. rewrite alter_id by done. by destruct v.
  - apply Forall_cons in H as [[k Hk] H]. rewrite IH by done. unfold apply_event. rewrite Hk.
    unfold on_view. cbn. rewrite alter_alter_eq. f_equal. apply alter_ext. intros nv _. cbn. f_equal. unfold node_effect. by rewrite Hk.
Qed.
Lemma children_effect id l nv : foldl node_effect nv (map (EvAddChildTable id) l) =
  mkNodeView (nv_pos nv) (nv_radioRange nv) (nv_type nv) (nv_extaddr nv) (nv_rloc16 nv) (nv_role nv) (nv_mode nv)
    (nv_partitionId nv) (nv_failed nv) (nv_parent nv) (nv_routers nv) (nv_children nv ∪ list_to_set l) (nv_info nv).
Proof.
  revert nv. induction l as [|a l IH]; intros nv; cbn [map foldl].
  - destruct nv. cbn. by rewrite union_empty_r_L.
  - rewrite IH. cbn. f_equal. set_solver.
Qed.
Lemma routers_effect id l nv : foldl node_effect nv (map (EvAddRouterTable id) l) =
  mkNodeView (nv_pos nv) (nv_radioRange nv) (nv_type nv) (nv_extaddr nv) (nv_rloc16 nv) (nv_role nv) (nv_mode nv)
    (nv_partitionId nv) (nv_failed nv) (nv_parent nv) (nv_routers nv ∪ list_to_set l) (nv_children nv) (nv_info nv).
Proof.
  revert nv. induction l as [|a l IH]; intros nv; cbn [map foldl].
  - destruct nv. cbn. by rewrite union_empty_r_L.
  - rewrite IH. cbn. f_equal. set_solver.
Qed.
Definition base_view (n : grpcNode) : NodeView := new_view (int32 (gn_x n)) (int32 (gn_y n)) (int32 (gn_radioRange n)) (gn_nodeType n).
Lemma scalars_effect id ext rloc role mode par parent nv :
  foldl node_effect nv [EvOnExtAddrChange id ext; EvSetNodeRloc16 id rloc; EvSetNodeRole id role; EvSetNodeMode id mode;
    EvSetNodePartitionId id par; EvSetParent id parent] =
  mkNodeView (nv_pos nv) (nv_radioRange nv) (nv_type nv) ext rloc role mode par (nv_failed nv) parent (nv_routers nv) (nv_children nv) (nv_info nv).
Proof. reflexivity. Qed.
Lemma attributes_shown id n : id_ok id -> node_shown (foldl node_effect (base_view n) (attribute_events id n)) n.
Proof.
  intros Hid. unfold attribute_events. rewrite (int32_id id Hid), !foldl_app, scalars_effect, children_effect, routers_effect.
  assert (forall s : gset Z, list_to_set (range_addrs s) = s) as HR.
  { intros s. rewrite range_addrs_perm. apply list_to_set_elements_L. }
  rewrite !HR. cbn [nv_pos nv_radioRange nv_type nv_extaddr nv_rloc16 nv_role nv_mode nv_partitionId nv_failed nv_parent
    nv_routers nv_children nv_info base_view new_view].
  rewrite !union_empty_l_L. assert ((id =? InvalidNodeId) = false) as Hi by (apply Z.eqb_neq; destruct Hid; unfold InvalidNodeId; lia).
  destruct (gn_failed n) eqn:Ef; cbn [foldl]; unfold node_effect; cbn [node_event]; rewrite Hi; split; cbn; try done; by right.
Qed.
Lemma attributes_node id n : id_ok id -> Forall (fun e => exists k, node_event e = Some (id, k)) (attribute_events id n).
Proof.
  intros Hid. unfold attribute_events. rewrite (int32_id id Hid). repeat apply Forall_app_2; repeat constructor; cbn; eauto.
  - apply Forall_map, Forall_true. cbn. eauto.
  - apply Forall_map, Forall_true. cbn. eauto.
  - destruct (gn_failed n); repeat constructor. cbn. eauto.
  - rewrite (proj2 (Z.eqb_neq id InvalidNodeId)) by (destruct Hid; unfold InvalidNodeId; lia). eauto.
Qed.

(** The two loops of [prepareStream] over the nodes. *)
Abbreviation ids_ok l := (Forall (fun x : NodeId * grpcNode => id_ok x.1) l).
Lemma add_loop l v : ids_ok l -> NoDup l.*1 -> exists m,
  foldl apply_event v (map (fun '(id, n) => add_event id n) l) = set_nodes m v /\
  (forall id n, (id, n) ∈ l -> m !! id = Some (base_view n)) /\ (forall id, id ∉ l.*1 -> m !! id = vw_nodes v !! id).
Proof.
  revert v. induction l as [|[id n] l IH]; intros v HI HN.
  - exists (vw_nodes v). split; [by destruct v|]. split; [|done]. intros ?? H. by apply not_elem_of_nil in H.
  - apply Forall_cons in HI as [Hid HI]. apply NoDup_cons in HN as [Hn HN]. cbn [map foldl].
    destruct (IH (apply_event v (add_event id n)) HI HN) as (m & E & H1 & H2). exists m. rewrite E.
    unfold add_event, apply_event in H2. cbn in H2, Hid. rewrite (int32_id id) in H2 by done. split_and!.
    + unfold add_event, apply_event. cbn. done.
    + intros id' n' [[= -> ->]|Hin]%elem_of_cons; [|by apply H1]. rewrite H2 by done. by rewrite lookup_insert_eq.
    + intros id' Hid'. apply not_elem_of_cons in Hid' as [Hne Hid']. rewrite H2 by done. by rewrite lookup_insert_ne.
Qed.
Lemma attribute_loop l v : ids_ok l -> NoDup l.*1 -> exists m,
  foldl apply_event v (concat (map (fun '(id, n) => attribute_events id n) l)) = set_nodes m v /\
  (forall id n, (id, n) ∈ l -> vw_nodes v !! id = Some (base_view n) -> exists nv, m !! id = Some nv /\ node_shown nv n) /\
  (forall id, id ∉ l.*1 -> m !! id = vw_nodes v !! id).
Proof.
  revert v. induction l as [|[id n] l IH]; intros v HI HN.
  - exists (vw_nodes v). split; [by destruct v|]. split; [|done]. intros ?? H. by apply not_elem_of_nil in H.
  - apply Forall_cons in HI as [Hid HI]. apply NoDup_cons in HN as [Hn HN]. cbn [map concat]. rewrite foldl_app.
    rewrite (apply_node_events id (attribute_events id n)) by by apply attributes_node.
    match goal with |- context[foldl apply_event ?v' _] => destruct (IH v' HI HN) as (m & E & H1 & H2) end.
    exists m. rewrite E. split_and!; [done| |].
    + intros id' n' [[= -> ->]|Hin]%elem_of_cons Hb.
      * rewrite H2 by done. cbn. rewrite lookup_alter_eq, Hb. cbn. eexists. split; [done|]. by apply attributes_shown.
      * apply H1; [done|]. cbn. rewrite lookup_alter_ne; [done|]. intros <-. apply Hn. apply list_elem_of_fmap. by exists (id, n').
    + intros id' Hid'. apply not_elem_of_cons in Hid' as [Hne Hid']. rewrite H2 by done. cbn. by rewrite lookup_alter_ne.
Qed.
Lemma mesh_loops i j nodes v :
  (forall id, id ∈ dom nodes -> id_ok id) -> vw_nodes v = ∅ -> exists m,
  foldl apply_event v (map (fun '(id, n) => add_event id n) (range_nodes i nodes) ++
    concat (map (fun '(id, n) => attribute_events id n) (range_nodes j nodes)))%list = set_nodes m v /\ nodes_shown m nodes.
Proof.
  intros Hok Hv.
  assert (forall k, ids_ok (range_nodes k nodes) /\ NoDup (range_nodes k nodes).*1) as HP.
  { intros k. rewrite range_nodes_perm. split; [|apply NoDup_fst_map_to_list]. apply Forall_forall. intros [id n] H.
    apply Hok, elem_of_dom. exists n. by apply elem_of_map_to_list. }
  assert (forall k id n, (id, n) ∈ range_nodes k nodes <-> nodes !! id = Some n) as HM.
  { intros k id n. rewrite range_nodes_perm. apply elem_of_map_to_list. }
  assert (forall k id, id ∉ (range_nodes k nodes).*1 <-> nodes !! id = None) as HO.
  { intros k id. rewrite eq_None_not_Some, list_elem_of_fmap. split.
    - intros H [n Hn]. apply H. exists (id, n). split; [done|]. by apply HM.
    - intros H ([id' n] & -> & Hin). apply H. exists n. by apply HM in Hin. }
  destruct (HP i) as [P1 P2], (HP j) as [P3 P4]. rewrite foldl_app.
  destruct (add_loop (range_nodes i nodes) v P1 P2) as (m1 & -> & A1 & A2).
  destruct (attribute_loop (range_nodes j nodes) (set_nodes m1 v) P3 P4) as (m & -> & B1 & B2).
  exists m. split; [done|]. cbn in B1, B2. split.
  - apply set_eq. intros id. rewrite !elem_of_dom. split; intros [x Hx].
    + destruct (nodes !! id) eqn:E; [done|]. rewrite B2, A2 in Hx by by eapply HO. by rewrite Hv in Hx.
    + destruct (B1 id x) as (nv & -> & _); [by apply HM| |done]. apply A1. by apply HM.
  - intros id nv n Hm Hn. destruct (B1 id n) as (nv' & Hm' & Hs); [by apply HM|apply A1; by apply HM|]. congruence.
Qed.
Lemma prepared_shows ty g : gv_ok g -> shows ty (foldl apply_event view0 (present_state ty g)) (gv_f g) (gv_showDemoLegendEvent g).
Proof.
  intros [H1 H2 _ _ _]. unfold present_state. cbv zeta. set (f := gv_f g) in *. set (l := gv_showDemoLegendEvent g) in *.
  rewrite 4!app_assoc, foldl_app. rewrite <- !app_assoc.
  assert (exists n s, foldl apply_event view0
    ([EvSetNetworkInfo (ni_Real (gf_networkInfo f)) (ni_Version (gf_networkInfo f)) (ni_Commit (gf_networkInfo f)) (int32 InvalidNodeId) 0] ++
     match l with Some e => [e] | None => [] end ++ [EvSetSpeed (gf_speed f)] ++
     (if String.eqb (ti_Title (gf_titleInfo f)) "" then [] else [EvSetTitle (ti_Title (gf_titleInfo f)) (int32 (ti_X (gf_titleInfo f)))
        (int32 (ti_Y (gf_titleInfo f))) (int32 (ti_FontSize (gf_titleInfo f)))]) ++
     [EvAdvanceTime (gf_curTime f) (gf_curSpeed f)])%list =
    mkView n (gf_curTime f) (gf_curSpeed f) (gf_speed f) (title_of (gf_titleInfo f))
      (ni_Real (gf_networkInfo f), ni_Version (gf_networkInfo f), ni_Commit (gf_networkInfo f)) (legend_of l) s /\ n = ∅) as (n & s & -> & ->).
  { unfold title_of. change (int32 InvalidNodeId) with 0.
    destruct l as [[]|]; try done; destruct (String.eqb _ "") eqn:Et; unfold apply_event; cbn; rewrite ?Et; by do 2 eexists. }
  destruct ty.
  - destruct (mesh_loops (length (gv_sent g)) (S (length (gv_sent g))) (gf_nodes f)
      (mkView ∅ (gf_curTime f) (gf_curSpeed f) (gf_speed f) (title_of (gf_titleInfo f))
      (ni_Real (gf_networkInfo f), ni_Version (gf_networkInfo f), ni_Commit (gf_networkInfo f)) (legend_of l) s) H1 eq_refl) as (m & E & Hm).
    match goal with |- shows _ ?v _ _ => replace v with (set_nodes m (mkView ∅ (gf_curTime f) (gf_curSpeed f) (gf_speed f)
      (title_of (gf_titleInfo f)) (ni_Real (gf_networkInfo f), ni_Version (gf_networkInfo f), ni_Commit (gf_networkInfo f)) (legend_of l) s))
      by (symmetry; exact E) end.
    unfold shows. cbn. split_and!; try done. by left.
  - unfold shows, apply_event. cbn. split_and!; try done. by left.
Qed.

Lemma ok_open ty r g g' : gv_ok g -> runVisualizeStream ty g = Ok (r, g') -> gv_ok g'.
Proof.
  intros H E. unfold runVisualizeStream in E. apply bind_st_Ok in E as (s & ? & [<- <-]%gets_st_Ok & E).
  apply bind_st_Ok in E as ([] & ? & <-%modify_st_Ok & E). apply bind_st_Ok in E as (ok & g1 & E1 & E).
  unfold prepareStream in E1. apply bind_st_Ok in E1 as (? & ? & [<- <-]%get_st_Ok & E1).
  change (present_state ty (set_gv_next (S (gv_next g)) g)) with (present_state ty g) in E1.
  destruct (send_all_run (gv_next g) (present_state ty g) (set_gv_next (S (gv_next g)) g)) as (new & ok' & E2 & N1 & N2).
  rewrite E1 in E2. injection E2 as -> ->. clear E1.
  pose proof (prepared_shows ty g H) as HS. destruct H as [H1 H2 H3 H4 H5].
  destruct (H3 (gv_next g) (le_n _)) as [Hs0 Hs1].
  assert (forall str m, (forall s, (S (gv_next g) <= s)%nat -> m !! s = None) ->
    (forall s ty', m !! s = Some ty' -> gv_visualizingStreams g !! s = Some ty' \/ s = gv_next g /\ ty' = ty /\ ok' = true) ->
    gv_ok (set_gv_streams m (sending (set_gv_next str g) new)) \/ str <> S (gv_next g)) as HG.
  { intros str m Hm Hm2. destruct (decide (str = S (gv_next g))) as [->|]; [left|by right]. split; cbn; try done.
    - intros s Hs. rewrite on_stream_app, N1 by lia. destruct (H3 s ltac:(lia)) as [-> _]. split; [done|]. by apply Hm.
    - intros s ty' Hs Ha. unfold all_arrived, client_view in *. cbn in *. rewrite on_stream_app in *.
      destruct (Hm2 s ty' Hs) as [Hold|(-> & -> & Hok)].
      + assert (s <> gv_next g) as Hne by congruence. rewrite (N1 s Hne), app_nil_r in *. by apply H4.
      + rewrite Hs0, app_nil_l, (N2 Hok). exact HS. }
  destruct ok'; cbn [when] in E; apply bind_st_Ok in E as ([] & g2 & E2 & E); st_inv; subst.
  - destruct (HG (S (gv_next g)) (<[gv_next g := ty]> (gv_visualizingStreams g))) as [HG'|]; [| |exact HG'|done].
    + intros s Hs. rewrite lookup_insert_ne by lia. apply H3. lia.
    + intros s ty'. destruct (decide (s = gv_next g)) as [->|Hne].
      * rewrite lookup_insert_eq. intros [= <-]. by right.
      * rewrite lookup_insert_ne by done. by left.
  - destruct (HG (S (gv_next g)) (gv_visualizingStreams g)) as [HG'|]; [| |exact HG'|done]; [|by left].
    intros s Hs. apply H3. lia.
Qed.
Lemma ok_streams g m : gv_ok g -> (forall s ty, m !! s = Some ty -> gv_visualizingStreams g !! s = Some ty) -> gv_ok (set_gv_streams m g).
Proof.
  intros [H1 H2 H3 H4 H5] Hm. split; cbn; [done..| | |done].
  - intros s Hs. destruct (H3 s Hs) as [S1 S2]. split; [done|]. destruct (m !! s) eqn:E; [|done]. apply Hm in E. congruence.
  - intros s ty Hs. apply (H4 s ty (Hm s ty Hs)).
Qed.
Lemma ok_close stream g g' : gv_ok g -> disposeStream stream g = Ok (tt, g') -> gv_ok g'.
Proof. intros H E. unfold disposeStream in E. st_inv. subst. apply ok_streams; [done|]. by intros s ty [_ ?]%lookup_delete_Some. Qed.
Lemma ok_heartbeat stream g g' :
  gv_ok g -> is_Some (gv_visualizingStreams g !! stream) -> heartbeat stream g = Ok (tt, g') -> gv_ok g'.
Proof.
  intros H [ty0 Hs0] E. unfold heartbeat in E. destruct (Send_run stream EvHeartbeat g) as [ok E1].
  unfold mbind, st_bind in E. rewrite E1 in E.
  assert (gv_ok (sending g [(stream, EvHeartbeat, ok)])) as HG.
  { destruct H as [H1 H2 H3 H4 H5]. split; cbn; try done.
    - intros s Hs. destruct (H3 s Hs) as [S1 S2]. rewrite on_stream_app, S1. split; [|done].
      apply on_stream_none. intros ??? [= -> -> ->]%list_elem_of_singleton. congruence.
    - intros s ty Hs Ha. unfold all_arrived, client_view in *. cbn in *. rewrite on_stream_app in *.
      rewrite forallb_app in Ha. apply andb_true_iff in Ha as [Ha _]. rewrite fmap_app, foldl_app.
      specialize (H4 s ty Hs Ha). unfold on_stream at 2. cbn. by destruct (decide (stream = s)). }
  destruct ok; [st_inv; by subst|]. by eapply ok_close.
Qed.
Lemma ok_history hist g g' : gv_ok g -> sendHistory hist g = Ok (tt, g') -> gv_ok g'.
Proof.
  revert g. induction hist as [|[ts nodes] hist IH]; intros g H E; cbn [sendHistory] in E; [st_inv; by subst|].
  apply bind_st_Ok in E as ([] & g1 & E1 & E). eapply IH; [|exact E]. by eapply ok_UpdateNodesEnergy.
Qed.
Lemma ok_energyStream hist r g g' : gv_ok g -> EnergyStream hist g = Ok (r, g') -> gv_ok g'.
Proof.
  intros H E. unfold EnergyStream in E. apply bind_st_Ok in E as (s & ? & [<- <-]%gets_st_Ok & E).
  apply bind_st_Ok in E as ([] & ? & <-%modify_st_Ok & E). apply bind_st_Ok in E as ([] & g2 & E2 & [_ <-]%ret_st_Ok).
  eapply ok_history; [|exact E2]. destruct H as [H1 H2 H3 H4 H5].
  split; cbn; try done. intros s Hs. apply H3. lia.
Qed.
Lemma ok_vis_Stop g g' : gv_ok g -> vis_Stop g = Ok (tt, g') -> gv_ok g'.
Proof.
  intros H E. cbn in E. apply bind_st_Ok in E as (? & ? & [<- <-]%get_st_Ok & E).
  destruct (gv_replay g) as [r|] eqn:Er; [destruct (rep_closed r)|]; st_inv; subst; [|done].
  destruct H as [H1 H2 H3 H4 H5]. split; cbn; try done. by rewrite Er in H5.
Qed.
Lemma ok_reachable replay g : gv_reachable replay g -> gv_ok g.
Proof.
  induction 1 as [|g g' _ H S].
  { split; try done. destruct replay; [|done]. unfold shows. cbn. split_and!; try done. by left. }
  destruct S as [g c g' Hc E|g g' E|g ty r g' E|g s g' Hs E|g s g' E|g hist s g' E|g s g' E].
  - exact (ok_grpc_call c g g' Hc H E).
  - exact (ok_vis_Stop g g' H E).
  - exact (ok_open ty r g g' H E).
  - exact (ok_heartbeat s g g' H Hs E).
  - exact (ok_close s g g' H E).
  - exact (ok_energyStream hist s g g' H E).
  - apply modify_st_Ok in E as <-. by destruct H.
Qed.

(** *** The protocol of the interface *)
(** The replay file is not closed. *)
Definition replay_open g : Prop := match gv_replay g with Some r => rep_closed r = false | None => True end.
Lemma report_total e g : replay_open g -> exists g', addVisualizeEvent e g = Ok (tt, g') /\ gv_f g' = gv_f g /\ replay_open g'.
Proof.
  unfold replay_open. intros H. unfold addVisualizeEvent, mbind, st_bind, get.
  destruct (gv_replay g) as [r|] eqn:Er.
  - unfold Append, lift. rewrite H. cbn. match goal with |- context [SendEvent e ?x] => destruct (SendEvent_run e x) as (new & -> & _) end.
    eexists. split; [done|]. done.
  - cbn. destruct (SendEvent_run e g) as (new & -> & _). eexists. split; [done|]. split; [done|]. cbn. by rewrite Er.
Qed.
Definition knows (nodes : gset NodeId) g : Prop := dom (gf_nodes (gv_f g)) = nodes /\ replay_open g.
Lemma report_known e nodes g : knows nodes g -> exists g', addVisualizeEvent e g = Ok (tt, g') /\ knows nodes g'.
Proof. intros [H1 H2]. destruct (report_total e g H2) as (g' & E & F & R). exists g'. split; [done|]. split; [by rewrite F|done]. Qed.
(** A change of the field and the report of it. *)
Lemma field_report op nodes nodes' e g f' :
  knows nodes g -> op (gv_f g) = Ok f' -> dom (gf_nodes f') = nodes' ->
  exists g', (_ ← on_field op; addVisualizeEvent e) g = Ok (tt, g') /\ knows nodes' g'.
Proof.
  intros [_ HR] E HD. destruct (report_known e nodes' (set_gv_f f' g)) as (g' & E' & H'); [done|]. exists g'. split; [|done].
  unfold on_field, update, mbind, st_bind. rewrite E. exact E'.
Qed.
Lemma on_gnode_known id h nodes g : knows nodes g -> id ∈ nodes ->
  exists f', on_gnode id h (gv_f g) = Ok f' /\ dom (gf_nodes f') = nodes.
Proof.
  intros [<- _] [n Hn]%elem_of_dom. unfold on_gnode. rewrite Hn. eexists. split; [done|]. cbn.
  rewrite dom_insert_L. apply elem_of_dom_2 in Hn. set_solver.
Qed.
Lemma node_report id h e nodes g : knows nodes g -> id ∈ nodes ->
  exists g', (_ ← on_field (on_gnode id h); addVisualizeEvent e) g = Ok (tt, g') /\ knows nodes g'.
Proof. intros Hk Hin. destruct (on_gnode_known id h nodes g Hk Hin) as (f' & E & HD). by eapply field_report. Qed.
Lemma SendEnergyEvent_total e g : exists g', SendEnergyEvent e g = Ok (tt, g') /\ gv_f g' = gv_f g /\ gv_replay g' = gv_replay g.
Proof.
  unfold SendEnergyEvent, mbind, st_bind, get. generalize (range_energy (gv_energyStreams g)) as l. intros l.
  revert g. induction l as [|s l IH]; intros g; [by exists g|]. cbn [for_each].
  match goal with |- context [modify ?f] => destruct (IH (f g)) as (g' & E & F1 & F2) end. exists g'.
  split; [|done]. unfold mbind, st_bind, modify in *. exact E.
Qed.
Lemma energy_known e nodes g : knows nodes g -> exists g', SendEnergyEvent e g = Ok (tt, g') /\ knows nodes g'.
Proof.
  intros [H1 H2]. destruct (SendEnergyEvent_total e g) as (g' & E & F & R). exists g'. split; [done|].
  split; [by rewrite F|]. unfold replay_open in *. by rewrite R.
Qed.
Lemma network_known info nodes g :
  knows nodes g -> (ni_NodeId info <> InvalidNodeId -> ni_NodeId info ∈ nodes) -> exists g', SetNetworkInfo info g = Ok (tt, g') /\ knows nodes g'.
Proof.
  intros Hk Hin. unfold SetNetworkInfo. destruct (Z.eqb_spec (ni_NodeId info) InvalidNodeId) as [_|Hne].
  - eapply field_report; [done..|]. apply Hk.
  - specialize (Hin Hne). assert (forall h g1, knows nodes g1 -> exists g2, on_field (on_gnode (ni_NodeId info) h) g1 = Ok (tt, g2) /\ knows nodes g2) as HF.
    { intros h g1 H1. destruct (on_gnode_known (ni_NodeId info) h nodes g1 H1 Hin) as (f' & E & HD). exists (set_gv_f f' g1).
      split; [|by split; [|apply H1]]. unfold on_field, update. by rewrite E. }
    destruct (HF (set_gn_version (ni_Version info)) g Hk) as (g1 & E1 & H1). destruct (HF (set_gn_commit (ni_Commit info)) g1 H1) as (g2 & E2 & H2).
    destruct (HF (set_gn_threadVersion (ni_ThreadVersion info)) g2 H2) as (g3 & E3 & H3).
    destruct (report_known (EvSetNetworkInfo (ni_Real info) (ni_Version info) (ni_Commit info) (int32 (ni_NodeId info)) (int32 (ni_ThreadVersion info)))
      nodes g3 H3) as (g' & E & H'). exists g'. split; [|done].
    unfold setNodeVersion, setNodeCommit, setNodeThreadVersion, mbind, st_bind in *. rewrite E1, E2, E3. exact E.
Qed.
Lemma call_known nodes nodes' c g :
  knows nodes g -> vis_track nodes c = Some nodes' -> exists g', vis_call c g = Ok (tt, g') /\ knows nodes' g'.
Proof.
  intros Hk Ht. destruct c; cbn in Ht |- *;
    try (destruct (decide _) as [Hd|Hd]; [|done]; injection Ht as <-; by apply node_report);
    try (injection Ht as <-).
  - destruct (decide _) as [Hd|Hd]; [done|]. injection Ht as <-. destruct Hk as [<- HR].
    apply (not_elem_of_dom (D := gset Z)) in Hd.
    eapply field_report; [by split|unfold addNode; rewrite bool_decide_eq_true_2 by exact Hd; cbn; reflexivity|].
    cbn. by rewrite dom_insert_L, union_comm_L.
  - by apply report_known.
  - unfold AdvanceTime, mbind, st_bind, get, modify. cbn. destruct (_ || _); cbn [when]; [|by eexists].
    by apply report_known.
  - eapply field_report; [done..|]. cbn. destruct Hk as [<- _]. by rewrite dom_delete_L.
  - unfold UpdateNodesEnergy.
    match goal with |- context [mbind _ (SendEnergyEvent ?e)] => destruct (energy_known e nodes g Hk) as (g1 & E1 & H1) end.
    unfold mbind, st_bind. rewrite E1. destruct updateView; cbn [when]; [by apply energy_known|by exists g1].
  - eapply field_report; [done..|]. apply Hk.
  - by exists g.
  - eapply field_report; [done..|]. apply Hk.
  - unfold ShowDemoLegend, mbind, st_bind, modify. by apply report_known.
  - by apply report_known.
  - eapply field_report; [done..|]. apply Hk.
  - destruct (Z.eqb_spec (ni_NodeId info) InvalidNodeId) as [He|Hne]; [injection Ht as <-; by apply network_known|].
    destruct (decide _); [|done]. injection Ht as <-. by apply network_known.
Qed.
#[export] Instance grpc_follows : VisualizerFollows grpcVisualizer := {| vis_knows := knows; vis_follows := call_known |}.
Lemma new_knows replay : knows ∅ (NewGrpcVisualizer replay).
Proof. split; [done|]. by destruct replay. Qed.

(** C10: A client of the visualizer that received everything its stream was sent shows exactly the
    present state, whenever it connected, in whatever order Go ranges over the nodes, and
    whatever was reported since.  A node's height is left out, and its version may not be
    shown yet.  The entries of the replay file tell the same. *)
Theorem client_up_to_date replay g :
  gv_reachable replay g ->
  (forall stream ty, gv_visualizingStreams g !! stream = Some ty -> all_arrived stream g = true ->
    shows ty (client_view stream g) (gv_f g) (gv_showDemoLegendEvent g)) /\
  (forall r, gv_replay g = Some r -> shows meshTopologyVizType (replay_view r) (gv_f g) (gv_showDemoLegendEvent g)).
Proof.
  intros H%ok_reachable. split; [apply (go_shows g H)|]. intros r Hr. pose proof (go_replay g H) as H'. by rewrite Hr in H'.
Qed.
End laws.

(** ** Examples *)
Definition ex_stream_env : StreamEnv := {|
  stream_Send _ := true; replay_time i := Z.of_nat i; range_streams m := map_to_list m; range_nodes _ m := map_to_list m;
  range_addrs s := elements s; range_energy s := elements s |}.
#[export] Instance ex_stream_ok : StreamEnvOk ex_stream_env.
Proof. by split. Qed.
Definition ex_vis_cfg : NodeConfig := {|
  nc_ID := 1; nc_Type := "router"; nc_Version := "v13"; nc_X := 10; nc_Y := 20; nc_Z := 30; nc_IsAutoPlaced := false; nc_IsRaw := false;
  nc_IsRouter := true; nc_IsMtd := false; nc_IsBorderRouter := false; nc_RxOffWhenIdle := false; nc_NodeLogFile := false;
  nc_RadioRange := 220; nc_ExecutablePath := ""; nc_HostExePath := ""; nc_NetIfName := ""; nc_Restore := false; nc_InitScript := []; nc_RandomSeed := 0;
  nc_IsExternal := false; nc_IsRcp := false; nc_RfSimParams := ∅ |}.
(** A client connects, a node appears and becomes leader, and a second client connects. *)
Definition ex_gv_run : st grpcVisualizer () :=
  _ ← runVisualizeStream (env := ex_stream_env) meshTopologyVizType;
  _ ← vis_call (Visualizer := grpc_visualizer (env := ex_stream_env)) (VisAddNode 1 ex_vis_cfg);
  _ ← vis_call (Visualizer := grpc_visualizer (env := ex_stream_env)) (VisSetNodeRole 1 OtDeviceRoleLeader);
  _ ← vis_call (Visualizer := grpc_visualizer (env := ex_stream_env)) (VisAdvanceTime 1000 7);
  _ ← runVisualizeStream (env := ex_stream_env) meshTopologyVizType;
  mret tt.
Definition ex_gv : grpcVisualizer :=
  match ex_gv_run (NewGrpcVisualizer true) with Ok (_, g) => g | Panic _ => NewGrpcVisualizer true end.
Lemma ex_gv_reachable : gv_reachable (env := ex_stream_env) true ex_gv.
Proof.
  assert (ex_gv_run (NewGrpcVisualizer true) = Ok (tt, ex_gv)) as E by (vm_compute; reflexivity).
  unfold ex_gv_run in E. apply bind_st_Ok in E as (r0 & g0 & E0 & E). apply bind_st_Ok in E as ([] & g1 & E1 & E).
  apply bind_st_Ok in E as ([] & g2 & E2 & E). apply bind_st_Ok in E as ([] & g3 & E3 & E). apply bind_st_Ok in E as (r4 & g4 & E4 & [_ <-]%ret_st_Ok).
  eapply gr_step; [|eapply gs_open; exact E4]. eapply gr_step; [|eapply gs_call; [|exact E3]; done].
  eapply gr_step; [|eapply gs_call; [|exact E2]; done]. eapply gr_step; [|eapply gs_call; [|exact E1]; done].
  eapply gr_step; [|eapply gs_open; exact E0]. apply gr_new.
Qed.
Lemma client_up_to_date_witness :
  gv_visualizingStreams ex_gv !! 0%nat = Some meshTopologyVizType /\ gv_visualizingStreams ex_gv !! 1%nat = Some meshTopologyVizType /\
  shows meshTopologyVizType (client_view 0 ex_gv) (gv_f ex_gv) (gv_showDemoLegendEvent ex_gv) /\
  shows meshTopologyVizType (client_view 1 ex_gv) (gv_f ex_gv) (gv_showDemoLegendEvent ex_gv).
Proof.
  assert (gv_visualizingStreams ex_gv !! 0%nat = Some meshTopologyVizType) as H0 by (vm_compute; reflexivity).
  assert (gv_visualizingStreams ex_gv !! 1%nat = Some meshTopologyVizType) as H1 by (vm_compute; reflexivity).
  assert (all_arrived 0 ex_gv = true) as A0 by (vm_compute; reflexivity).
  assert (all_arrived 1 ex_gv = true) as A1 by (vm_compute; reflexivity).
  split; [exact H0|]. split; [exact H1|]. split.
  - exact (proj1 (client_up_to_date (env := ex_stream_env) true ex_gv ex_gv_reachable) 0%nat meshTopologyVizType H0 A0).
  - exact (proj1 (client_up_to_date (env := ex_stream_env) true ex_gv ex_gv_reachable) 1%nat meshTopologyVizType H1 A1).
Defined.

(** The height of a node is told to the first client and not to the second. *)
Definition heights (stream : nat) (g : grpcVisualizer) : list Z :=
  omap (fun '(e, _) => match e with EvAddNode _ _ _ z _ _ => Some z | _ => None end) (on_stream stream (gv_sent g)).
Example late_client_height : heights 0 ex_gv = [30] /\ heights 1 ex_gv = [0].
Proof. vm_compute. split; reflexivity. Qed.
(** A second client that asks for the energy makes the first receive the history again. *)
Example energy_history_twice :
  match (_ ← EnergyStream (env := ex_stream_env) [(5000000, [])]; EnergyStream (env := ex_stream_env) [(5000000, [])]) (NewGrpcVisualizer false) with
  | Ok (_, g) => omap (fun '(s, e) => if decide (s = 0%nat) then Some (ee_Timestamp e) else None) (gv_energySent g)
  | Panic _ => []
  end = [5; 2 ^ 64 - 1; 5; 2 ^ 64 - 1].
Proof. vm_compute. reflexivity. Qed.
