(* ===== verification/DispatcherVis.v ===== *)
(** * How the dispatcher uses the visualizer

    The dispatcher obeys the protocol [vis_track] of the visualizer interface in everything it
    does: every operation preserves that the calls so far are allowed and leave the visualizer
    with the dispatcher's nodes ([vw]).  [LifecycleLaws] uses this for the whole simulation. *)

From S2P Require Import Prelude State Types Event GoFloat GoStrings.
From S2P Require Import Visualize.
From S2P Require Import SendQueue AlarmMgr Wpan Visualize DNode Rloc16Map Coaps Energy RadioNode RadioModel.
From S2P Require Import RadioLaws Dispatcher DispatcherIndex.

Local Open Scope Z_scope.

(** The calls among the outputs of the dispatcher. *)
Definition vis_of (out : list Output) : list VisCall := omap (fun o => match o with OVis v => Some v | _ => None end) out.
Lemma vis_of_app a b : vis_of (a ++ b) = vis_of a ++ vis_of b.
Proof. apply omap_app. Qed.

Section vis.
Context {env : DispEnv} {M : Type} `{!RadioModel M} `{!RadioModelLaws M}.
Implicit Types d : Dispatcher M.

(** The calls so far are allowed, and the visualizer knows the nodes. *)
Definition vis_ok d : Prop := track_all ∅ (vis_of (d_out d)) = Some (dom (d_nodes d)).

(** ** Operations without calls *)
Definition vstate d : gmap NodeId nat * list VisCall := (d_nodes d, vis_of (d_out d)).
Abbreviation vq m := (forall v, preserves (fun d => vstate d = v) m).
Lemma vis_ok_vq {A} (m : st (Dispatcher M) A) : vq m -> preserves vis_ok m.
Proof.
  intros H d a d' Hd E. specialize (H (vstate d) d a d' eq_refl E). unfold vis_ok in *. injection H as H1 H2. by rewrite H1, H2.
Qed.
Lemma vq_modify f v : (forall d, vstate (f d) = vstate d) -> preserves (fun d => vstate d = v) (modify f).
Proof. intros H. apply hoare_modify. intros d <-. apply H. Qed.
Lemma vq_update f v : (forall d d', f d = Ok d' -> vstate d' = vstate d) -> preserves (fun d => vstate d = v) (update f).
Proof. intros H. apply hoare_update. intros d d' <- E. by apply H. Qed.
#[local] Hint Extern 3 (hoare _ (modify _) _) => apply vq_modify; intros ?; reflexivity : hoare.
Lemma vq_output o v : (forall c, o <> OVis c) -> preserves (fun d => vstate d = v) (output o).
Proof.
  intros Ho. apply vq_modify. intros d. unfold vstate. cbn. rewrite vis_of_app. destruct o; try by rewrite app_nil_r. by destruct (Ho v0).
Qed.
#[local] Hint Extern 2 (hoare _ (output _) _) => apply vq_output; discriminate : hoare.
Lemma vq_count c v : preserves (fun d => vstate d = v) (count c).
Proof. unfold count. pres. Qed.
Lemma vq_callback c v : preserves (fun d => vstate d = v) (callback c).
Proof. unfold callback. pres. Qed.
Lemma vq_assert b v : preserves (fun d => vstate d = v) (assert b).
Proof. apply pres_lift. Qed.
Lemma vq_lookup_node id v : preserves (fun d => vstate d = v) (lookup_node id).
Proof. apply pres_gets. Qed.
Lemma vq_get_node l v : preserves (fun d => vstate d = v) (get_node l).
Proof. unfold get_node. pres. Qed.
Lemma vq_put_node l n v : preserves (fun d => vstate d = v) (put_node l n).
Proof. unfold put_node. pres. Qed.
#[local] Hint Resolve vq_count vq_callback vq_assert vq_lookup_node vq_get_node vq_put_node : hoare.
Lemma vq_mod_node l f v : preserves (fun d => vstate d = v) (mod_node l f).
Proof. unfold mod_node. pres. Qed.
Lemma vq_mod_alarm f v : preserves (fun d => vstate d = v) (mod_alarm f).
Proof. apply vq_update. intros d d' E. res_inv. by subst. Qed.
Lemma vq_queue_add e v : preserves (fun d => vstate d = v) (queue_add e).
Proof. apply vq_update. intros d d' E. res_inv. by subst. Qed.
Lemma vq_mod_energy f v : preserves (fun d => vstate d = v) (mod_energy f).
Proof. apply vq_update. intros d d' E. res_inv. by subst. Qed.
Lemma vq_mod_rloc16Map f v : preserves (fun d => vstate d = v) (mod_rloc16Map f).
Proof. apply vq_update. intros d d' E. res_inv. by subst. Qed.
#[local] Hint Resolve vq_mod_node vq_mod_alarm vq_queue_add vq_mod_energy vq_mod_rloc16Map : hoare.
Lemma vq_radio {A} (m : st (radio_st M) A) v : preserves (fun d => vstate d = v) (radio m).
Proof.
  intros d a d' Hd E. unfold radio in E. destruct (m _) as [[b r]|]; [|done].
  assert (preserves (fun d => vstate d = v) (_ ← for_each (rs_out r) queue_add; mret b : st (Dispatcher M) A)) as HP by pres.
  by eapply HP in E.
Qed.
#[local] Hint Resolve vq_radio : hoare.
Lemma vq_setAlive id v : preserves (fun d => vstate d = v) (setAlive id).
Proof. unfold setAlive. pres. Qed.
Lemma vq_setSleeping id v : preserves (fun d => vstate d = v) (setSleeping id).
Proof. unfold setSleeping. pres. Qed.
Lemma vq_sendRawData l msg v : preserves (fun d => vstate d = v) (sendRawData l msg).
Proof. unfold sendRawData. pres. Qed.
Lemma vq_packetLost evt v : preserves (fun d => vstate d = v) (packetLost evt).
Proof. unfold packetLost, drawUnit. pres. Qed.
Lemma vq_checkRadioReachable a b v : preserves (fun d => vstate d = v) (checkRadioReachable a b).
Proof. unfold checkRadioReachable. pres. Qed.
Lemma vq_handleRadioState l evt v : preserves (fun d => vstate d = v) (handleRadioState l evt).
Proof. unfold handleRadioState. pres. Qed.
Lemma vq_convertNodeMilliTime l t v : preserves (fun d => vstate d = v) (convertNodeMilliTime l t).
Proof. unfold convertNodeMilliTime. pres. Qed.
Lemma vq_handleCoapEvent l s v : preserves (fun d => vstate d = v) (handleCoapEvent l s).
Proof. unfold handleCoapEvent. pres. Qed.
#[local] Hint Resolve vq_setAlive vq_setSleeping vq_sendRawData vq_packetLost vq_checkRadioReachable
  vq_handleRadioState vq_convertNodeMilliTime vq_handleCoapEvent : hoare.

(** ** Calls *)
Lemma vis_ok_call c d d' : vis_ok d -> vis c d = Ok (tt, d') -> vis_track (dom (d_nodes d)) c = Some (dom (d_nodes d)) -> vis_ok d'.
Proof.
  intros Hd E Ht. apply modify_st_Ok in E as <-. unfold vis_ok in *. cbn. by rewrite vis_of_app, track_app, Hd; cbn; rewrite Ht.
Qed.
(** A call that is about no node. *)
Lemma vis_plain c : call_node c = None -> (forall id cfg, c <> VisAddNode id cfg) -> (forall id, c <> VisDeleteNode id) ->
  preserves vis_ok (vis c).
Proof.
  intros Hc Ha Hdl d [] d' Hd E. eapply vis_ok_call; [exact Hd|exact E|]. destruct c; cbn in *; try done; [by edestruct Ha|by edestruct Hdl|].
  by destruct (_ =? _).
Qed.
(** A call about a node that is there. *)
Lemma vis_node c id d d' : vis_ok d -> call_node c = Some id -> id ∈ dom (d_nodes d) -> vis c d = Ok (tt, d') -> vis_ok d'.
Proof.
  intros Hd Hc Hin E. eapply vis_ok_call; [exact Hd|exact E|]. destruct c; cbn in *; try done;
    try (injection Hc as ->); try (by rewrite decide_True); destruct (_ =? _); [done|]. injection Hc as ->. by rewrite decide_True.
Qed.

(** ** Sending *)
Definition va d : Prop := alarm_ok d /\ vis_ok d.
Lemma va_both {A} (m : st (Dispatcher M) A) : preserves alarm_ok m -> preserves vis_ok m -> preserves va m.
Proof. intros H1 H2 d a d' [] E. split; [by eapply H1|by eapply H2]. Qed.
Lemma va_quiet {A} (m : st (Dispatcher M) A) : preserves alarm_ok m -> vq m -> preserves va m.
Proof. intros H1 H2. apply va_both; [done|by apply vis_ok_vq]. Qed.
#[local] Hint Resolve ao_output ao_count ao_assert ao_lookup_node ao_get_node ao_put_node ao_mod_node ao_callback ao_queue_add
  ao_SetTimestamp ao_SetNotified ao_setAlive ao_setSleeping ao_radio ao_mod_rloc16Map ao_convertNodeMilliTime ao_handleCoapEvent : hoare.
#[local] Hint Extern 4 (hoare alarm_ok (modify _) _) => apply ao_modify; intros ?; repeat split; simpl; set_solver : hoare.
#[local] Hint Extern 5 (hoare va _ _) => apply va_quiet; [solve [eauto 2 with hoare]|intros ?; solve [eauto 2 with hoare]] : hoare.

(** The failure controller reports on its own node only. *)
Definition about (id : NodeId) (c : VisCall) : Prop := call_node c = Some id.
Lemma about_Recover n : Forall (about (n_Id n)) (Recover n).2.
Proof. unfold Recover. destruct (n_isFailed n); by repeat constructor. Qed.
Lemma about_Fail n : Forall (about (n_Id n)) (Fail n).2.
Proof. unfold Fail. destruct (n_isFailed n); by repeat constructor. Qed.
Lemma id_outside : outside_failure n_Id.
Proof. split; by intros ? []. Qed.
Lemma about_SetFailTime rel ft n n' vs : DNode.SetFailTime rel ft n = Ok (n', vs) -> Forall (about (n_Id n)) vs.
Proof.
  unfold DNode.SetFailTime. set (n1 := set_failureCtrl _ n). intros E.
  destruct (if _ && _ then _ else _) as [n2 v2] eqn:E2. res_inv. subst. destruct (_ && _); [|by injection E2 as _ <-].
  pose proof (about_Recover n1) as HR. by rewrite E2 in HR.
Qed.
Lemma about_switch_radio b n n' vs : switch_radio b n = Ok (n', vs) -> Forall (about (n_Id n)) vs.
Proof.
  unfold switch_radio. intros E. apply bind_Ok in E as ([n1 v1] & E1 & E). pose proof (about_SetFailTime _ _ _ _ _ E1) as H1.
  apply (out_SetFailTime n_Id id_outside) in E1. pose proof (about_Fail n1) as HF. pose proof (about_Recover n1) as HR.
  rewrite E1 in HF, HR. destruct b; [destruct (Fail n1)|destruct (Recover n1)]; injection E as _ <-; by apply Forall_app.
Qed.
Lemma about_OnTimeAdvanced rel old n ts upd n' vs :
  OnTimeAdvanced rel old n = Ok (ts, upd, n', vs) -> Forall (about (n_Id n)) vs.
Proof.
  unfold OnTimeAdvanced. destruct (negb _); [by intros [= _ _ _ <-]|]. intros E. res_inv. destruct (n_isFailed n).
  - res_inv. destruct (_ >=? _); [|by injection E as _ _ _ <-]. res_inv.
    match goal with H : calcNextFailTimestamp _ _ = Ok ?x |- _ => apply (out_calcNext n_Id id_outside) in H;
      rewrite (proj2 id_outside) in H; pose proof (about_Recover x) as HR; rewrite H in HR; destruct (Recover x) as [n2 v2] end.
    by injection E as _ _ _ <-.
  - res_inv. destruct (_ >=? _); [|by injection E as _ _ _ <-].
    match goal with H : context [Fail ?x] |- _ => pose proof (about_Fail x) as HF; rewrite (proj2 id_outside) in HF; destruct (Fail x) as [n2 v2] end.
    by injection E as _ _ _ <-.
Qed.
Lemma vis_all_about id vs d d' :
  Forall (about id) vs -> va d -> id ∈ dom (d_nodes d) -> vis_all vs d = Ok (tt, d') -> va d' /\ d_nodes d' = d_nodes d.
Proof.
  intros HF. revert d. induction HF as [|c vs Hc _ IH]; intros d Hd Hin E.
  - apply ret_st_Ok in E as [_ <-]. done.
  - apply bind_st_Ok in E as ([] & d1 & E1 & E). destruct Hd as [Ha Hv].
    assert (va d1) as H1. { split; [by eapply ao_vis|]. by eapply vis_node. }
    assert (d_nodes d1 = d_nodes d) as HN by (by apply modify_st_Ok in E1 as <-).
    rewrite <- HN in Hin |- *. by apply IH.
Qed.

Lemma va_reEvaluate l old : hoare (fun d => va d /\ forall n, d_store d !! l = Some n -> n_Id n ∈ dom (d_nodes d))
  (reEvaluate l old) (fun _ => va).
Proof.
  intros d u d' [Hd Hin] E. unfold reEvaluate in E. apply bind_st_Ok in E as (n & ? & [Hn ->]%get_node_Ok & E).
  apply bind_st_Ok in E as (? & ? & [<- <-]%get_st_Ok & E).
  apply bind_st_Ok in E as ([[[ts upd] n'] vs] & ? & [Ha%about_OnTimeAdvanced <-]%lift_st_Ok & E).
  apply bind_st_Ok in E as ([] & d1 & E1 & E). apply bind_st_Ok in E as ([] & d2 & E2 & E). apply bind_st_Ok in E as ([] & d3 & E3 & E).
  assert (va d2 /\ d_nodes d2 = d_nodes d) as [H2 HN].
  { split; [|by apply modify_st_Ok in E1 as <-; apply modify_st_Ok in E2 as <-].
    eapply (hoare_run va); [exact E2| |pres]. eapply (hoare_run va); [exact E1|exact Hd|pres]. }
  apply (vis_all_about (n_Id n)) in E3 as [H3 _]; [|done|done|rewrite HN; by apply Hin].
  eapply (hoare_run va); [exact E|exact H3|pres].
Qed.

Lemma va_sendEvent l evt : preserves va (sendEvent l evt).
Proof.
  intros d u d' Hd E. unfold sendEvent in E. apply bind_st_Ok in E as (n & ? & [Hn ->]%get_node_Ok & E).
  apply bind_st_Ok in E as (? & ? & [<- <-]%get_st_Ok & E).
  apply bind_st_Ok in E as ([] & d1 & E1 & E). pose proof (hoare_run va _ _ _ _ E1 Hd ltac:(pres)) as H1.
  apply mod_node_Ok in E1 as (n1 & Hn1 & ->). rewrite Hn in Hn1. injection Hn1 as <-.
  apply bind_st_Ok in E as ([] & ? & [_ <-]%lift_st_Ok & E).
  apply bind_st_Ok in E as ([] & d2 & E2 & E). pose proof (hoare_run va _ _ _ _ E2 H1 ltac:(pres)) as H2.
  apply mod_alarm_Ok in E2 as (am & Ea & ->).
  assert (n_Id n ∈ dom (d_nodes d)) as Hin.
  { apply (run_op_Ok (OpSet (n_Id n) Ever)) in Ea as [_ Ea]; [|apply H1]. cbn in Ea. apply elem_of_dom.
    destruct Hd as [[_ HI _] _]. apply HI. by destruct (am_alarms (d_alarmMgr d) !! n_Id n). }
  apply bind_st_Ok in E as ([] & d3 & E3 & E). pose proof (hoare_run va _ _ _ _ E3 H2 ltac:(pres)) as H3.
  apply mod_node_Ok in E3 as (n3 & Hn3 & ->). cbn in Hn3. rewrite lookup_insert_eq in Hn3. injection Hn3 as <-.
  apply bind_st_Ok in E as (n4 & ? & [Hn4 ->]%get_node_Ok & E). apply bind_st_Ok in E as ([] & ? & [_ <-]%lift_st_Ok & E).
  apply bind_st_Ok in E as ([] & d5 & E5 & E).
  assert (va d5) as H5.
  { apply when_Ok in E5. destruct (_ >? _); [|by subst]. eapply va_reEvaluate; [|exact E5]. split; [exact H3|].
    cbn. intros x. rewrite lookup_insert_eq. intros [= <-]. cbn. exact Hin. }
  refine (hoare_run va _ _ _ _ E H5 _). pres. apply va_quiet; [unfold sendRawData; pres|intros ?; pres].
Qed.
#[local] Hint Resolve va_sendEvent : hoare.
Lemma va_advanceNodeTime l ts f : preserves va (advanceNodeTime l ts f).
Proof. unfold advanceNodeTime. pres. Qed.
#[local] Hint Resolve va_advanceNodeTime : hoare.

(** ** Calls that are about no node *)
Lemma va_vis c : call_node c = None -> (forall id cfg, c <> VisAddNode id cfg) -> (forall id, c <> VisDeleteNode id) ->
  preserves va (vis c).
Proof. intros. apply va_both; [apply ao_vis|by apply vis_plain]. Qed.
#[local] Hint Extern 1 (hoare va (vis _) _) => apply va_vis; [reflexivity|discriminate|discriminate] : hoare.
Lemma va_visSend a b i : preserves va (visSend a b i).
Proof. unfold visSend. pres. Qed.
#[local] Hint Resolve va_visSend : hoare.
Lemma va_packetLost evt : preserves va (packetLost evt).
Proof. apply va_quiet; [unfold packetLost, drawUnit; pres|intros ?; pres]. Qed.
Lemma va_checkRadioReachable a b : preserves va (checkRadioReachable a b).
Proof. apply va_quiet; [unfold checkRadioReachable; pres|intros ?; pres]. Qed.
Lemma va_handleRadioState l evt : preserves va (handleRadioState l evt).
Proof. apply va_quiet; [unfold handleRadioState; pres|intros ?; pres]. Qed.
#[local] Hint Resolve va_packetLost va_checkRadioReachable va_handleRadioState : hoare.
Lemma va_sendOneRadioFrame evt a b : preserves va (sendOneRadioFrame evt a b).
Proof. unfold sendOneRadioFrame. pres. Qed.
#[local] Hint Resolve va_sendOneRadioFrame : hoare.
Lemma va_dispatch_to evt src dsts : preserves va (dispatch_to evt src dsts).
Proof. induction dsts as [|x dsts IH]; cbn [dispatch_to]; pres. Qed.
#[local] Hint Resolve va_dispatch_to : hoare.
Lemma va_sendRadioCommRxStartEvents src evt : preserves va (sendRadioCommRxStartEvents src evt).
Proof. unfold sendRadioCommRxStartEvents, visSendFrame. pres. Qed.
Lemma va_sendRadioCommRxDoneEvents src evt : preserves va (sendRadioCommRxDoneEvents src evt).
Proof. unfold sendRadioCommRxDoneEvents. pres. Qed.
Lemma va_updateNodeStats : preserves va updateNodeStats.
Proof. unfold updateNodeStats. pres. Qed.
Lemma va_visSendTimeWindowStats : preserves va visSendTimeWindowStats.
Proof. unfold visSendTimeWindowStats. pres. Qed.
#[local] Hint Resolve va_sendRadioCommRxStartEvents va_sendRadioCommRxDoneEvents va_updateNodeStats va_visSendTimeWindowStats : hoare.
Lemma va_emptyWindows fuel : preserves va (emptyWindows fuel).
Proof. induction fuel; cbn [emptyWindows]; pres. Qed.
#[local] Hint Resolve va_emptyWindows : hoare.
Lemma va_updateTimeWindowStats : preserves va updateTimeWindowStats.
Proof. unfold updateTimeWindowStats. pres. Qed.
Lemma va_storeEnergy ts : preserves va (storeEnergy ts).
Proof. unfold storeEnergy. pres. Qed.
#[local] Hint Resolve va_updateTimeWindowStats va_storeEnergy : hoare.
Lemma va_advanceTime ts : preserves va (advanceTime ts).
Proof. unfold advanceTime. pres. Qed.
Lemma va_processEvent evt : preserves va (processEvent evt).
Proof. unfold processEvent, visSendInterference. pres. Qed.
#[local] Hint Resolve va_advanceTime va_processEvent : hoare.
Lemma va_processLoop rt fuel p a b : preserves va (processLoop rt fuel p a b).
Proof.
  revert a b. induction fuel as [|fuel IH]; intros a b; cbn [processLoop]; [apply pres_panics|].
  unfold processAlarm, processQueued. pres.
Qed.
#[local] Hint Resolve va_processLoop : hoare.
Lemma va_processNextEvents fuel t : preserves va (processNextEvents fuel t).
Proof. unfold processNextEvents. pres. Qed.
Lemma va_processNextEventsRealtime fuel t : preserves va (processNextEventsRealtime fuel t).
Proof. unfold processNextEventsRealtime. pres. Qed.
Lemma va_syncAliveNodes : preserves va syncAliveNodes.
Proof. unfold syncAliveNodes. pres. Qed.
Lemma va_NotifyCommand id : preserves va (NotifyCommand id).
Proof. unfold NotifyCommand. pres. Qed.
#[local] Hint Resolve va_processNextEvents va_processNextEventsRealtime va_syncAliveNodes va_NotifyCommand : hoare.

(** ** Reports on a node that was found by its id *)
(** [ids] are the nodes, which the operation keeps. *)
Record va_at (l : nat) (ids : gset NodeId) d : Prop := {
  vt_maps : maps_at l d;
  vt_va : va d;
  vt_ids : dom (d_nodes d) = ids;
}.
Lemma vt_quiet {A} l ids (m : st (Dispatcher M) A) : (forall d0, preserves (same_index d0) m) -> preserves va m -> preserves (va_at l ids) m.
Proof.
  intros H1 H2 d a d' [] E. split; [by eapply (maps_at_quiet l)|by eapply H2|]. by rewrite (si_nodes _ _ (same_from m d a d' H1 E)).
Qed.
Lemma vt_vis l ids c id : call_node c = Some id -> id ∈ ids -> preserves (va_at l ids) (vis c).
Proof.
  intros Hc Hin d [] d' [H1 [H2 H3] <-] E. split.
  - eapply (maps_at_quiet l); [intros ?; apply si_vis|exact H1|exact E].
  - split; [by eapply ao_vis|]. by eapply vis_node.
  - by apply modify_st_Ok in E as <-.
Qed.
Lemma vt_id l ids d n : va_at l ids d -> d_store d !! l = Some n -> n_Id n ∈ ids.
Proof. intros [[MO [id Hid]] _ <-] Hn. destruct (lookup_live d id l n MO Hid Hn) as [[L _] _]. by eapply elem_of_dom_2. Qed.
(** Start with the node. *)
Lemma vt_node {B} l ids (k : Node -> st (Dispatcher M) B) :
  (forall n, n_Id n ∈ ids -> preserves (va_at l ids) (k n)) -> preserves (va_at l ids) (n ← get_node l; k n).
Proof.
  intros Hk d b d' Hd E. apply bind_st_Ok in E as (n & ? & [Hn ->]%get_node_Ok & E). eapply Hk; [|exact Hd|exact E]. by eapply vt_id.
Qed.
#[local] Hint Resolve si_output si_count si_assert si_lookup_node si_vis si_callback si_get_node si_mod_alarm si_queue_add
  si_radio_op si_setAlive si_setSleeping si_convertNodeMilliTime si_handleCoapEvent si_updateNodeStats : hoare.
#[local] Hint Extern 1 (hoare _ (mod_node _ (onPingRequest _ _ _)) _) => apply si_mod_node, idx_onPingRequest : hoare.
#[local] Hint Extern 1 (hoare _ (mod_node _ (onPingReply _ _ _ _ _)) _) => apply si_mod_node; intros; apply idx_onPingReply : hoare.
#[local] Hint Extern 1 (hoare _ (mod_node _ (onJoinerState _)) _) => apply si_mod_node, idx_onJoinerState : hoare.
#[local] Hint Extern 2 (hoare (same_index _) (mod_node _ _) _) => apply si_mod_node; intros []; reflexivity : hoare.
#[local] Hint Extern 6 (hoare (va_at _ _) _ _) => apply vt_quiet; [intros ?; solve [eauto 2 with hoare]|solve [eauto 3 with hoare]] : hoare.
#[local] Hint Extern 1 (hoare (va_at _ _) (vis _) _) => eapply vt_vis; [reflexivity|assumption] : hoare.

Lemma vt_setNodeRole l ids r : preserves (va_at l ids) (setNodeRole l r).
Proof. apply vt_node. intros n Hn. pres. Qed.

Lemma vt_setNodeRloc16 l ids id r : preserves (va_at l ids) (setNodeRloc16 id r).
Proof.
  intros d [] d' Hd E. split.
  - eapply at_setNodeRloc16; [apply Hd|exact E].
  - pose proof (vt_va _ _ _ Hd) as Hv. unfold setNodeRloc16 in E.
    apply bind_st_Ok in E as (ol & ? & [Hl <-]%gets_st_Ok & E).
    apply bind_st_Ok in E as (l' & ? & [Hol%assert_not_nil_Ok <-]%lift_st_Ok & E). subst ol.
    assert (vq (n ← get_node l'; _ ← when (negb (n_Rloc16 n =? InvalidRloc16)) (mod_rloc16Map (Rloc16Map.Remove (n_Rloc16 n) l'));
      _ ← mod_node l' (set_Rloc16 r); when (negb (r =? InvalidRloc16)) (mod_rloc16Map (Rloc16Map.Add r l')))) as HQ by (intros v; pres).
    assert (preserves va (n ← get_node l'; _ ← when (negb (n_Rloc16 n =? InvalidRloc16)) (mod_rloc16Map (Rloc16Map.Remove (n_Rloc16 n) l'));
      _ ← mod_node l' (set_Rloc16 r); when (negb (r =? InvalidRloc16)) (mod_rloc16Map (Rloc16Map.Add r l')))) as HV
      by (apply va_quiet; [pres|exact HQ]).
    apply bind_st_Ok in E as (n & d1 & E1 & E). apply bind_st_Ok in E as ([] & d2 & E2 & E). apply bind_st_Ok in E as ([] & d3 & E3 & E).
    apply bind_st_Ok in E as ([] & d4 & E4 & E).
    assert ((n ← get_node l'; _ ← when (negb (n_Rloc16 n =? InvalidRloc16)) (mod_rloc16Map (Rloc16Map.Remove (n_Rloc16 n) l'));
      _ ← mod_node l' (set_Rloc16 r); when (negb (r =? InvalidRloc16)) (mod_rloc16Map (Rloc16Map.Add r l'))) d = Ok (tt, d4)) as E'.
    { apply bind_st_Ok. exists n, d1. split; [done|]. apply bind_st_Ok. exists tt, d2. split; [done|]. apply bind_st_Ok. by exists tt, d3. }
    pose proof (HV _ _ _ Hv E') as [A4 V4]. pose proof (HQ (vstate d) _ _ _ eq_refl E') as [= N4 _].
    split; [by eapply ao_vis|]. refine (vis_node _ id d4 d' V4 _ _ E); [reflexivity|]. rewrite N4. by eapply elem_of_dom_2.
  - rewrite (ki_setNodeRloc16 _ _ _ _ _ E). apply Hd.
Qed.
Lemma vt_onStatusPushExtAddr l ids a : preserves (va_at l ids) (onStatusPushExtAddr l a).
Proof.
  intros d [] d' Hd E. split.
  - eapply at_onStatusPushExtAddr; [apply Hd|exact E].
  - pose proof (vt_va _ _ _ Hd) as Hv. unfold onStatusPushExtAddr in E.
    apply bind_st_Ok in E as ([] & ? & [_ <-]%lift_st_Ok & E). apply bind_st_Ok in E as (n & ? & [Hn ->]%get_node_Ok & E).
    destruct (n_ExtAddr n =? a); [by apply ret_st_Ok in E as [_ <-]|].
    apply bind_st_Ok in E as ([] & d1 & E1 & E). pose proof (hoare_run va _ _ _ _ E1 Hv ltac:(pres)) as H1.
    apply mod_node_Ok in E1 as (n1 & Hn1 & ->). rewrite Hn in Hn1. injection Hn1 as <-.
    unfold onExtAddrChanged in E. apply bind_st_Ok in E as (? & ? & [<- <-]%get_st_Ok & E).
    apply bind_st_Ok in E as ([] & d2 & E2 & E). assert (va d2) as H2 by (eapply (hoare_run va); [exact E2|exact H1|pres]).
    assert (d_nodes d2 = d_nodes d /\ d_store d2 = <[l:=set_ExtAddr a n]> (d_store d)) as [N2 S2].
    { destruct (_ =? _); [by apply lift_st_Ok in E2 as [_ <-]|]. by apply bind_st_Ok in E2 as ([] & ? & [_ <-]%lift_st_Ok & <-%modify_st_Ok). }
    apply bind_st_Ok in E as (n2 & ? & [Hn2 ->]%get_node_Ok & E). rewrite S2, lookup_insert_eq in Hn2. injection Hn2 as <-.
    apply bind_st_Ok in E as (? & ? & [<- <-]%get_st_Ok & E). apply bind_st_Ok in E as ([] & ? & [_ <-]%lift_st_Ok & E).
    apply bind_st_Ok in E as ([] & d3 & E3 & E). assert (va d3) as [A3 V3] by (eapply (hoare_run va); [exact E3|exact H2|pres]).
    apply modify_st_Ok in E3 as <-. split; [by eapply ao_vis|]. refine (vis_node (VisOnExtAddrChange _ _) (n_Id n) _ d' V3 _ _ E); [reflexivity|]. cbn. rewrite N2.
    rewrite (vt_ids _ _ _ Hd). by eapply (vt_id l ids d n).
  - rewrite (ki_onStatusPushExtAddr _ _ _ _ _ E). apply Hd.
Qed.
#[local] Hint Resolve vt_setNodeRole vt_setNodeRloc16 vt_onStatusPushExtAddr : hoare.
Lemma vt_handleStatus l ids k v : preserves (va_at l ids) (handleStatus l k v).
Proof. apply vt_node. intros n Hn. unfold topology. repeat pres_step; eauto with hoare. Qed.
#[local] Hint Resolve vt_handleStatus : hoare.
Lemma vt_handleStatusPush l ids data : preserves (va_at l ids) (handleStatusPush l data).
Proof. unfold handleStatusPush. repeat pres_step; eauto with hoare. Qed.
#[local] Hint Resolve vt_handleStatusPush : hoare.
Lemma vt_handleNodeEvent l ids evt : preserves (va_at l ids) (handleNodeEvent l evt).
Proof. unfold handleNodeEvent. repeat pres_step; eauto with hoare. Qed.

(** ** Every operation *)
Definition vw d : Prop := disp_wf d /\ vis_ok d.
Lemma vw_va d : vw d -> va d.
Proof. intros [[] ?]. done. Qed.
Lemma vw_both {A} (m : st (Dispatcher M) A) : preserves disp_wf m -> preserves va m -> preserves vw m.
Proof. intros H1 H2 d a d' Hd E. split; [by eapply H1; [apply Hd|]|]. eapply H2; [by apply vw_va|exact E]. Qed.
(** With a node that is looked up first. *)
Lemma vw_found {B} id (k : nat -> st (Dispatcher M) B) :
  preserves disp_wf (l ← lookup_node id; l ← lift (assert_not_nil l); k l) ->
  (forall l ids, id ∈ ids -> hoare (va_at l ids) (k l) (fun _ => va)) ->
  preserves vw (l ← lookup_node id; l ← lift (assert_not_nil l); k l).
Proof.
  intros H1 H2 d b d' Hd E. split; [by eapply H1; [apply Hd|]|].
  apply bind_st_Ok in E as (ol & ? & [Hl <-]%gets_st_Ok & E).
  apply bind_st_Ok in E as (l & ? & [Hol%assert_not_nil_Ok <-]%lift_st_Ok & E). subst ol.
  eapply (H2 l (dom (d_nodes d))); [by eapply elem_of_dom_2| |exact E].
  split; [split; [apply Hd|by exists id]|by apply vw_va|done].
Qed.
Lemma vw_SetNodePos id x y z : preserves vw (SetNodePos id x y z).
Proof.
  apply vw_found; [apply wf_quiet; [intros ?; apply si_SetNodePos|apply ao_SetNodePos]|]. intros l ids Hin d [] d' Hd E.
  apply (vt_va l ids). refine (hoare_run (va_at l ids) _ _ _ _ E Hd _). pres.
  apply vt_quiet; [intros ?; apply si_radio_op, kn_mod_rn|pres].
Qed.
(** Replacing the node by one with the same id, and reporting what happened to it. *)
Lemma va_put_report l ids n' vs d d' :
  va_at l ids d -> (exists n, d_store d !! l = Some n /\ idx n' = idx n) -> Forall (about (n_Id n')) vs ->
  (_ ← put_node l n'; vis_all vs) d = Ok (tt, d') -> va d'.
Proof.
  intros Hd (n & Hn & Hi) HF E. apply bind_st_Ok in E as ([] & d1 & E1 & E).
  assert (va d1) as H1 by (eapply (hoare_run va); [exact E1|apply Hd|pres]). apply modify_st_Ok in E1 as <-.
  apply (vis_all_about (n_Id n')) in E as [H _]; [done..|]. cbn. apply idx_eq in Hi as (-> & _).
  rewrite (vt_ids _ _ _ Hd). by eapply vt_id.
Qed.
Lemma vw_SetNodeFailed id b : preserves vw (SetNodeFailed id b).
Proof.
  apply vw_found; [apply wf_quiet; [intros ?; apply si_SetNodeFailed|apply ao_SetNodeFailed]|].
  intros l ids Hin d [] d' Hd E. apply bind_st_Ok in E as (n & ? & [Hn ->]%get_node_Ok & E).
  apply bind_st_Ok in E as ([n' vs] & ? & [Hs <-]%lift_st_Ok & E).
  pose proof (out_switch_radio idx idx_outside _ _ _ _ Hs) as Hi. pose proof (out_switch_radio n_Id id_outside _ _ _ _ Hs) as Hid.
  eapply va_put_report; [exact Hd|by exists n| |exact E]. rewrite Hid. by eapply about_switch_radio.
Qed.
Lemma vt_SetFailTime l ids ft : hoare (va_at l ids) (SetFailTime l ft) (fun _ => va).
Proof.
  intros d [] d' Hd E. unfold SetFailTime in E. apply bind_st_Ok in E as (n & ? & [Hn ->]%get_node_Ok & E).
  apply bind_st_Ok in E as (? & ? & [<- <-]%get_st_Ok & E). apply bind_st_Ok in E as ([n' vs] & ? & [Hs <-]%lift_st_Ok & E).
  apply bind_st_Ok in E as ([] & d1 & E1 & E).
  assert (va_at l ids d1) as H1 by (eapply (hoare_run (va_at l ids)); [exact E1|exact Hd|apply vt_quiet; [intros ?; apply si_modify; by intros ?|pres]]).
  apply modify_st_Ok in E1 as <-. pose proof (out_SetFailTime idx idx_outside _ _ _ _ _ Hs) as Hi.
  pose proof (out_SetFailTime n_Id id_outside _ _ _ _ _ Hs) as Hid.
  eapply va_put_report; [exact H1|by exists n| |exact E]. rewrite Hid. by eapply about_SetFailTime.
Qed.
Lemma vw_AddNode id cfg : preserves vw (AddNode id cfg).
Proof.
  intros d l d' Hd E. split; [eapply wf_AddNode; [apply Hd|exact E]|]. pose proof (ao_AddNode id cfg d l d' (dw_alarm d (proj1 Hd)) E) as HA.
  unfold AddNode in E. apply bind_st_Ok in E as (ol & ? & [Hl <-]%gets_st_Ok & E).
  apply bind_st_Ok in E as ([] & ? & [Hf%assert_true_Ok%bool_decide_eq_true <-]%lift_st_Ok & E). subst ol.
  apply bind_st_Ok in E as (l1 & d1 & (n & Hn & -> & ->)%alloc_node_Ok & E).
  do 2 (apply bind_st_Ok in E as ([] & ? & <-%modify_st_Ok & E)).
  set (v := (<[id := d_next d]> (d_nodes d), vis_of (d_out d))).
  match type of E with _ ?x = _ => assert (vstate x = v) as Hv by reflexivity; revert E Hv; generalize x end.
  intros x E Hv.
  apply bind_st_Ok in E as ([] & x1 & E1 & E). pose proof (hoare_run (fun d => vstate d = v) _ _ _ _ E1 Hv ltac:(unfold reconstructNodesArray; pres)) as V1.
  apply bind_st_Ok in E as ([] & x2 & E2 & E). pose proof (hoare_run (fun d => vstate d = v) _ _ _ _ E2 V1 ltac:(unfold topology; pres)) as V2.
  apply bind_st_Ok in E as ([] & x3 & E3 & E). pose proof (hoare_run (fun d => vstate d = v) _ _ _ _ E3 V2 ltac:(pres)) as V3.
  apply bind_st_Ok in E as (? & ? & [<- <-]%get_st_Ok & E).
  apply bind_st_Ok in E as ([] & x4 & E4 & E). pose proof (hoare_run (fun d => vstate d = v) _ _ _ _ E4 V3 ltac:(pres)) as V4.
  apply bind_st_Ok in E as ([] & x5 & E5%modify_st_Ok & E).
  assert (vis_ok x5) as V5.
  { subst x5. injection V4 as N4 O4. unfold vis_ok. cbn. rewrite vis_of_app, track_app, N4, O4. destruct Hd as [_ HV].
    unfold vis_ok in HV. rewrite HV. cbn. rewrite decide_False by by apply not_elem_of_dom. by rewrite dom_insert_L, union_comm_L. }
  refine (hoare_run vis_ok _ _ _ _ E V5 _). pres; try by apply vis_ok_vq; intros ?; unfold WatchNode; pres.
  unfold updateNodeStats. pres. by apply vis_plain.
Qed.
Lemma vw_DeleteNode id : preserves vw (DeleteNode id).
Proof.
  intros d u d' Hd E. split; [eapply wf_DeleteNode; [apply Hd|exact E]|]. unfold DeleteNode in E.
  apply bind_st_Ok in E as (ol & ? & [Hl <-]%gets_st_Ok & E).
  apply bind_st_Ok in E as (l & ? & [Hol%assert_not_nil_Ok <-]%lift_st_Ok & E). subst ol.
  apply bind_st_Ok in E as ([] & ? & <-%modify_st_Ok & E).
  assert (forall x : Dispatcher M, vstate x = (delete id (d_nodes d), vis_of (d_out d)) ->
    forall x', vis (VisDeleteNode id) x = Ok (tt, x') -> vis_ok x') as HD.
  { intros x [= X1 X2] x' Ex. apply modify_st_Ok in Ex as <-. unfold vis_ok. cbn. rewrite vis_of_app, track_app, X1, X2.
    destruct Hd as [_ HV]. unfold vis_ok in HV. rewrite HV. cbn. by rewrite dom_delete_L. }
  set (v := (delete id (d_nodes d), vis_of (d_out d))) in *.
  assert (vstate (set_d_nodes (delete id (d_nodes d)) d) = v) as Hv by done. revert E Hv.
  generalize (set_d_nodes (delete id (d_nodes d)) d) as x. intros x E Hv.
  apply bind_st_Ok in E as ([] & x1 & E1 & E). pose proof (hoare_run (fun d => vstate d = v) _ _ _ _ E1 Hv ltac:(unfold reconstructNodesArray; pres)) as V1.
  apply bind_st_Ok in E as ([] & x2 & E2 & E). pose proof (hoare_run (fun d => vstate d = v) _ _ _ _ E2 V1 ltac:(unfold topology; pres)) as V2.
  apply bind_st_Ok in E as ([] & x3 & E3 & E). pose proof (hoare_run (fun d => vstate d = v) _ _ _ _ E3 V2 ltac:(pres)) as V3.
  apply bind_st_Ok in E as ([] & x4 & E4 & E). pose proof (hoare_run (fun d => vstate d = v) _ _ _ _ E4 V3 ltac:(unfold UnwatchNode; pres)) as V4.
  apply bind_st_Ok in E as (n & ? & [Hn ->]%get_node_Ok & E).
  apply bind_st_Ok in E as ([] & x5 & E5 & E). pose proof (hoare_run (fun d => vstate d = v) _ _ _ _ E5 V4 ltac:(pres)) as V5.
  apply bind_st_Ok in E as (? & ? & [<- <-]%get_st_Ok & E).
  apply bind_st_Ok in E as ([] & x6 & E6 & E).
  assert (vstate x6 = v) as V6 by (eapply (hoare_run (fun d => vstate d = v)); [exact E6|exact V5|pres]).
  apply bind_st_Ok in E as ([] & x7 & E7 & E). pose proof (hoare_run (fun d => vstate d = v) _ _ _ _ E7 V6 ltac:(pres)) as V7.
  apply bind_st_Ok in E as ([] & x8 & E8 & E). pose proof (hoare_run (fun d => vstate d = v) _ _ _ _ E8 V7 ltac:(pres)) as V8.
  apply bind_st_Ok in E as ([] & x9 & E9 & E). pose proof (hoare_run (fun d => vstate d = v) _ _ _ _ E9 V8 ltac:(pres)) as V9.
  apply bind_st_Ok in E as ([] & x10 & E10 & E). apply (HD x9 V9) in E10.
  refine (hoare_run vis_ok _ _ _ _ E E10 _). pres; try by apply vis_ok_vq; intros ?; pres.
  unfold updateNodeStats. pres. by apply vis_plain.
Qed.

Section handler.
Variable OnNewNodeDetected : NodeId -> st (Dispatcher M) bool.
(** The simulation's callback uses the dispatcher in ways that keep its invariant, and the
    protocol. *)
Hypothesis OnNewNodeDetected_wf : forall id, preserves disp_wf (OnNewNodeDetected id).
Hypothesis OnNewNodeDetected_vis : forall id, preserves vw (OnNewNodeDetected id).

Lemma vw_findNode evt : hoare vw (findNode OnNewNodeDetected evt) (fun _ => vw).
Proof.
  intros d ol d' Hd E. split; [eapply (wf_findNode OnNewNodeDetected OnNewNodeDetected_wf evt d); [apply Hd|exact E]|].
  unfold findNode in E. apply bind_st_Ok in E as (ol' & ? & [Hl <-]%gets_st_Ok & E).
  destruct ol' as [l|]; [apply ret_st_Ok in E as [<- <-]; apply Hd|].
  destruct (ev_Conn evt) as [c|]; [|apply ret_st_Ok in E as [<- <-]; apply Hd].
  destruct (_ =? _); [|apply ret_st_Ok in E as [<- <-]; apply Hd].
  apply bind_st_Ok in E as (b & d1 & E1 & E). apply OnNewNodeDetected_vis in E1 as [_ V1]; [|exact Hd].
  refine (hoare_run vis_ok _ _ _ _ E V1 _). apply vis_ok_vq. intros v. pres.
Qed.
Lemma vw_handleNodeEvent l evt d d' : vw d -> mapped l d -> handleNodeEvent l evt d = Ok (tt, d') -> vis_ok d'.
Proof.
  intros Hd Hm E. eapply (vt_handleNodeEvent l (dom (d_nodes d))); [|exact E].
  split; [split; [apply Hd|done]|by apply vw_va|done].
Qed.
Lemma vw_HandleEvent evt : preserves vw (HandleEvent OnNewNodeDetected evt).
Proof.
  intros d [] d' Hd E. split; [eapply (wf_HandleEvent OnNewNodeDetected OnNewNodeDetected_wf evt d); [apply Hd|exact E]|].
  unfold HandleEvent in E. apply bind_st_Ok in E as (ol & d1 & E1 & E). pose proof (vw_findNode evt d ol d1 Hd E1) as H1.
  apply (wf_findNode OnNewNodeDetected OnNewNodeDetected_wf evt) in E1 as [_ Hm]; [|apply Hd].
  destruct ol as [l|]; [|apply ret_st_Ok in E as [_ <-]; apply H1]. specialize (Hm l eq_refl).
  apply bind_st_Ok in E as (n & ? & [Hn ->]%get_node_Ok & E). apply bind_st_Ok in E as (? & ? & [<- <-]%get_st_Ok & E).
  destruct (n_conn n) as [c|].
  - destruct (ev_Conn evt) as [c'|]; [destruct (_ =? _)%nat|]; try by eapply vw_handleNodeEvent.
    eapply (vis_ok_vq (output (OClose c'))); [intros v; pres|apply H1|exact E].
  - apply bind_st_Ok in E as ([] & d2 & E2 & E). eapply vw_handleNodeEvent; [| |exact E].
    + split; [|refine (vis_ok_vq _ _ _ _ _ _ E2); [intros v; apply vq_mod_node|apply H1]].
      refine (wf_quiet _ _ _ _ _ _ _ E2); [intros ?; apply si_mod_node; intros []; reflexivity|apply ao_mod_node|apply H1].
    + destruct Hm as [id Hid]. exists id. by apply mod_node_Ok in E2 as (? & _ & ->).
Qed.
Lemma vw_RecvEvents evts : preserves vw (RecvEvents OnNewNodeDetected evts).
Proof. apply pres_for_each. intros evt _. apply vw_HandleEvent. Qed.
#[local] Hint Resolve vw_HandleEvent vw_RecvEvents vw_AddNode vw_DeleteNode vw_SetNodePos vw_SetNodeFailed : hoare.
Lemma vw_quiet {A} (m : st (Dispatcher M) A) :
  (forall d0, preserves (same_index d0) m) -> preserves alarm_ok m -> preserves va m -> preserves vw m.
Proof. intros H1 H2 H3. apply vw_both; [by apply wf_quiet|done]. Qed.
Lemma vw_field f :
  (forall d, same_index d (f d)) -> (forall d, d_alarmMgr (f d) = d_alarmMgr d /\ d_nodes (f d) = d_nodes d /\ d_aliveNodes (f d) ⊆ d_aliveNodes d) ->
  (forall d, vstate (f d) = vstate d) -> preserves vw (modify f).
Proof.
  intros H1 H2 H3. apply vw_quiet; [intros ?; by apply si_modify|by apply ao_modify|].
  apply va_quiet; [by apply ao_modify|]. intros v. by apply vq_modify.
Qed.
#[local] Hint Extern 3 (hoare vw (modify _) _) => apply vw_field; [by intros ?|intros ?; repeat split; simpl; set_solver|by intros ?] : hoare.
Lemma vw_processNextEvents fuel t : preserves vw (processNextEvents fuel t).
Proof. apply vw_quiet; [intros ?; apply si_processNextEvents|apply ao_processNextEvents|pres]. Qed.
Lemma vw_syncAliveNodes : preserves vw syncAliveNodes.
Proof. apply vw_quiet; [intros ?; apply si_syncAliveNodes|apply ao_syncAliveNodes|pres]. Qed.
Lemma vw_advanceTime ts : preserves vw (advanceTime ts).
Proof. apply vw_quiet; [intros ?; apply si_advanceTime|apply ao_advanceTime|pres]. Qed.
Lemma vw_advanceNodeTime l ts force : preserves vw (advanceNodeTime l ts force).
Proof. apply vw_quiet; [intros ?; apply si_advanceNodeTime|apply ao_advanceNodeTime|pres]. Qed.
Lemma vw_assert b : preserves vw (assert b).
Proof. apply pres_lift. Qed.
Lemma vw_get_node l : preserves vw (get_node l).
Proof. unfold get_node. pres. Qed.
Lemma vw_lookup_node id : preserves vw (lookup_node id).
Proof. apply pres_gets. Qed.
Lemma vw_sendEvent l evt : preserves vw (sendEvent l evt).
Proof. apply vw_quiet; [intros ?; apply si_sendEvent|apply ao_sendEvent|pres]. Qed.
#[local] Hint Resolve vw_processNextEvents vw_syncAliveNodes vw_advanceTime vw_advanceNodeTime vw_assert vw_get_node vw_lookup_node vw_sendEvent : hoare.
Lemma vw_SetFailTime id ft :
  preserves vw (l ← lookup_node id; match l with Some l => SetFailTime l ft | None => mret tt end).
Proof.
  intros d [] d' Hd E. apply bind_st_Ok in E as (ol & ? & [Hl <-]%gets_st_Ok & E).
  destruct ol as [l|]; [|by apply ret_st_Ok in E as [_ <-]]. split.
  - eapply wf_quiet; [intros ?; apply si_SetFailTime|apply ao_SetFailTime|apply Hd|exact E].
  - eapply (vt_SetFailTime l (dom (d_nodes d))); [|exact E]. split; [split; [apply Hd|by exists id]|by apply vw_va|done].
Qed.
Lemma vw_CollectPings l : preserves vw (CollectPings l).
Proof. apply vw_quiet; [intros ?; apply si_CollectPings|apply ao_CollectPings|]. unfold CollectPings, DNode.CollectPings. pres. Qed.
Lemma vw_CollectJoins l : preserves vw (CollectJoins l).
Proof. apply vw_quiet; [intros ?; apply si_CollectJoins|apply ao_CollectJoins|]. unfold CollectJoins, DNode.CollectJoins. pres. Qed.
Lemma vw_NotifyCommand id : preserves vw (NotifyCommand id).
Proof. apply vw_quiet; [intros ?; apply si_NotifyCommand|apply ao_NotifyCommand|pres]. Qed.
Lemma vw_EnableCoaps : preserves vw EnableCoaps.
Proof. apply vw_field; intros d; by destruct (d_coaps d). Qed.
Lemma vw_CollectCoapMessages b : preserves vw (CollectCoapMessages b).
Proof. unfold CollectCoapMessages. pres. Qed.
#[local] Hint Resolve vw_SetFailTime vw_CollectPings vw_CollectJoins vw_NotifyCommand vw_EnableCoaps vw_CollectCoapMessages : hoare.
Lemma va_clock : on_clock va.
Proof. intros d t n _ [H V]. split; [by destruct H|exact V]. Qed.
Lemma va_speed : on_speed va.
Proof. split; [intros d [H V]|intros d f [H V] _ _]; (split; [by destruct H|exact V]). Qed.
Lemma vw_SetSpeed f : preserves vw (SetSpeed f).
Proof. apply vw_quiet; [intros ?; pres; apply si_vis|pres; apply ao_vis|]. apply pres_SetSpeed; [apply va_clock|apply va_speed|]. intros ns. pres. Qed.
Lemma vw_syncSpeedStart : preserves vw syncSpeedStart.
Proof. apply vw_quiet; [intros ?; pres|pres|]. apply pres_syncSpeedStart; [apply va_clock|apply va_speed]. Qed.
#[local] Hint Resolve vw_SetSpeed vw_syncSpeedStart : hoare.
Lemma vw_goBegin dur speed : preserves vw (goBegin dur speed).
Proof. unfold goBegin. pres. Qed.
Lemma vw_goEnd speed post : preserves vw (goEnd speed post).
Proof.
  unfold goEnd. pres. apply vw_field; intros d; destruct (_ >? _); try done; repeat split; simpl; set_solver.
Qed.
Lemma vw_radio {A} (m : st (radio_st M) A) : keeps_nodes m -> preserves vw (radio m).
Proof.
  intros H. apply vw_quiet; [intros ?; by apply si_radio_op|apply ao_radio|]. apply va_quiet; [apply ao_radio|].
  intros v. apply vq_radio.
Qed.
Lemma vw_ReplaceRadioModel name seed : preserves vw (ReplaceRadioModel name seed).
Proof. unfold ReplaceRadioModel, SetRadioModel, radio_nodes. pres. apply vw_radio, kn_transfer. Qed.
#[local] Hint Resolve vw_ReplaceRadioModel : hoare.
Lemma vw_run_task t : preserves vw (run_task OnNewNodeDetected t).
Proof.
  destruct t; cbn [run_task];
    unfold SendToVirtualUART, SendRfSimEvent, SetGlobalPacketLossRatio, WatchNode, UnwatchNode, SetEnergyAnalyser, SetVisualizationOptions; pres.
  apply vw_radio, kn_modify_params.
Qed.
End handler.

(** ** What the simulation does with the dispatcher *)
Lemma reject_vis (id : NodeId) : preserves vw (mret false : st (Dispatcher M) bool).
Proof. apply pres_ret. Qed.
Lemma reject_wf (id : NodeId) : preserves disp_wf (mret false : st (Dispatcher M) bool).
Proof. apply pres_ret. Qed.
Lemma vw_task (t : Task) : preserves vw (run_task (M := M) (fun _ => mret false) t).
Proof. apply vw_run_task; [apply reject_wf|apply reject_vis]. Qed.
Lemma vw_event evt : preserves vw (HandleEvent (M := M) (fun _ => mret false) evt).
Proof. apply vw_HandleEvent; [apply reject_wf|apply reject_vis]. Qed.
Lemma vw_output o : (forall c, o <> OVis c) -> preserves vw (output o).
Proof.
  intros Ho. apply vw_quiet; [intros ?; apply si_output|apply ao_output|]. apply va_quiet; [apply ao_output|].
  intros v. by apply vq_output.
Qed.
Lemma vw_mod_node l f : (forall n, idx (f n) = idx n) -> preserves vw (mod_node l f).
Proof.
  intros Hf. apply vw_quiet; [intros ?; by apply si_mod_node|apply ao_mod_node|]. apply va_quiet; [apply ao_mod_node|].
  intros v. apply vq_mod_node.
Qed.
Lemma vw_processNextEventsRealtime fuel t : preserves vw (processNextEventsRealtime fuel t).
Proof. apply vw_quiet; [intros ?; apply si_processNextEventsRealtime|apply ao_processNextEventsRealtime|apply va_processNextEventsRealtime]. Qed.
(** A call that is allowed whatever the nodes are, and one about a node that is there. *)
Lemma vw_vis c : call_node c = None -> (forall id cfg, c <> VisAddNode id cfg) -> (forall id, c <> VisDeleteNode id) -> preserves vw (vis c).
Proof. intros. apply vw_quiet; [intros ?; apply si_vis|apply ao_vis|by apply va_vis]. Qed.
Lemma vw_vis_node c id d d' : vw d -> call_node c = Some id -> id ∈ dom (d_nodes d) -> vis c d = Ok (tt, d') -> vw d'.
Proof.
  intros [Hw Hv] Hc Hin E. split; [|by eapply vis_node]. refine (wf_quiet _ _ _ _ _ _ Hw E); [intros ?; apply si_vis|apply ao_vis].
Qed.
Lemma vw_NewDispatcher cfg model rnd d : NewDispatcher (M := M) cfg model rnd = Ok d -> vw d.
Proof.
  intros E. split; [by eapply wf_NewDispatcher|].
  unfold NewDispatcher in E. apply bind_Ok in E as (? & _ & E). apply bind_Ok in E as (q & _ & E). apply bind_Ok in E as (am & _ & E). by injection E as <-.
Qed.
Lemma vw_mod_energy f : preserves vw (mod_energy f).
Proof. apply vw_quiet; [intros ?; apply si_mod_energy|apply ao_mod_energy|]. apply va_quiet; [apply ao_mod_energy|]. intros v. apply vq_mod_energy. Qed.
(** On the node object that the simulation's node points to. *)
Lemma vw_SetFailTime_deref id ft : preserves vw (l ← lookup_node id; l ← lift (deref l); SetFailTime l ft).
Proof.
  intros d [] d' Hd E. refine (vw_SetFailTime id ft d tt d' Hd _).
  apply bind_st_Ok in E as (ol & ? & [Hl <-]%gets_st_Ok & E). apply bind_st_Ok in E as (l & ? & [Ho <-]%lift_st_Ok & E).
  apply bind_st_Ok. exists ol, d. split; [by apply gets_st_Ok|]. destruct ol; [|done]. by injection Ho as ->.
Qed.
(** The visualizer does its work. *)
Lemma vw_follows {V} `{!Visualizer V} `{!VisualizerFollows V} d (v : V) : vw d -> vis_knows ∅ v ->
  exists v', vis_calls (vis_of (d_out d)) v = Ok (tt, v') /\ vis_knows (dom (d_nodes d)) v'.
Proof. intros [_ HV] Hk. by eapply follows_calls. Qed.
End vis.
