(* ===== verification/NodeConfig.v ===== *)
(** * Configuration of new nodes

    src/simulation/node_config.go with the scripts of src/simulation/types.go and the
    network files of src/simulation/simulation_io.go: executables and where they are
    searched, start-up scripts, the completion of a node configuration, automatic placement,
    and export and import of a network.  Which files exist is a parameter. *)

From S2P Require Import Prelude Types GoFloat GoStrings GoText.
From Stdlib Require Import Ascii.

Local Open Scope string_scope.
Local Open Scope Z_scope.

(** ** Scripts *)
Definition nl : string := String "010"%char "".
Definition DefaultChannel : Z := 11.
Definition DefaultExtPanid : string := "dead00beef00cafe".
Definition DefaultMeshLocalPrefix : string := "fdde:ad00:beef:0::".
Definition DefaultNetworkKey : string := "00112233445566778899aabbccddeeff".
Definition DefaultNetworkName : string := "otns".
Definition DefaultPanid : Z := 0xface.
Definition DefaultPskc : string := "3aa55f91ca47d1e4e71a08cb35e91591".
Definition DefaultCslPeriod : Z := 3 * 1000.
Definition DefaultCslPeriodUs : Z := 160 * DefaultCslPeriod.
Definition defaultRadioRange : Z := 220.
Definition versionLatestTag : string := "v14".

Definition defaultFtdInitScript : list string :=
  ["dataset init new"; "dataset networkname " +:+ DefaultNetworkName; "dataset networkkey " +:+ DefaultNetworkKey;
   "dataset panid 0x" +:+ fmt_x DefaultPanid; "dataset channel " +:+ Itoa DefaultChannel;
   "dataset extpanid " +:+ DefaultExtPanid; "dataset meshlocalprefix " +:+ DefaultMeshLocalPrefix;
   "dataset pskc " +:+ DefaultPskc; "dataset commit active"].
Definition defaultMtdInitScript : list string :=
  ["networkkey " +:+ DefaultNetworkKey; "panid 0x" +:+ fmt_x DefaultPanid; "channel " +:+ Itoa DefaultChannel;
   "extpanid " +:+ DefaultExtPanid].
Definition defaultAllInitScript : list string := ["ifconfig up"; "thread start"].
Definition defaultBrScript : list string :=
  ["routerselectionjitter 1"; "routerdowngradethreshold 33"; "routerupgradethreshold 33";
   "netdata publish prefix fd00:f00d:cafe::/64 paros med"; "netdata publish route fc00::/7 s med";
   "netdata publish route 64:ff9b::/96 sn med"; "bbr enable"; "srp server enable"; "br init 1 1"; "br enable"].
Definition defaultRcpScript : list string := ["log level 5"].
Definition defaultOtBrScript : list string := [].
Definition defaultExtScript : list string := defaultMtdInitScript.
Definition defaultCslScript : list string := ["csl period " +:+ Itoa DefaultCslPeriodUs].
Definition defaultLegacyCslScript : list string := ["csl period " +:+ Itoa DefaultCslPeriod].
Definition defaultWifiInterfererScript : list string := ["txpower 20"].

Record YamlScriptConfig := mkScripts {
  ys_Mtd : string; ys_Ftd : string; ys_Br : string; ys_OtBr : string; ys_Ext : string; ys_Rcp : string; ys_All : string;
}.
Definition DefaultNodeScripts : YamlScriptConfig :=
  mkScripts (Join defaultMtdInitScript nl) (Join defaultFtdInitScript nl) (Join defaultBrScript nl)
    (Join defaultOtBrScript nl) (Join defaultExtScript nl) (Join defaultRcpScript nl) (Join defaultAllInitScript nl).
Definition split_lines (script : string) : list string := Split script "010"%char.
Definition BuildMtdScript (ys : YamlScriptConfig) : list string := split_lines (ys_Mtd ys +:+ nl +:+ ys_All ys).
Definition BuildRcpFtdScript (ys : YamlScriptConfig) : list string :=
  split_lines (ys_Rcp ys +:+ nl +:+ ys_Ftd ys +:+ nl +:+ ys_All ys).
Definition BuildFtdScript (ys : YamlScriptConfig) : list string := split_lines (ys_Ftd ys +:+ nl +:+ ys_All ys).
Definition BuildBrScript (ys : YamlScriptConfig) : list string :=
  split_lines (ys_Ftd ys +:+ nl +:+ ys_Br ys +:+ nl +:+ ys_All ys).
Definition BuildOtBrScript (ys : YamlScriptConfig) : list string :=
  split_lines (ys_OtBr ys +:+ nl +:+ ys_Ftd ys +:+ nl +:+ ys_All ys).
Definition BuildExtScript (ys : YamlScriptConfig) : list string := split_lines (ys_Ext ys +:+ nl +:+ ys_All ys).

(** ** Node configurations *)
Definition DefaultNodeConfig : NodeConfig := {|
  nc_ID := -1; nc_Type := "router"; nc_Version := ""; nc_X := 0; nc_Y := 0; nc_Z := 0; nc_IsAutoPlaced := true;
  nc_IsRaw := false; nc_IsMtd := false; nc_IsRcp := false; nc_IsRouter := true; nc_IsBorderRouter := false;
  nc_IsExternal := false; nc_RxOffWhenIdle := false; nc_NodeLogFile := true; nc_RadioRange := defaultRadioRange;
  nc_ExecutablePath := ""; nc_HostExePath := ""; nc_NetIfName := ""; nc_Restore := false; nc_InitScript := [];
  nc_RandomSeed := 0; nc_RfSimParams := ∅ |}.

(** Copies with changed fields. *)
Definition set_id_type (id : Z) (ty ver : string) (c : NodeConfig) : NodeConfig := {|
  nc_ID := id; nc_Type := ty; nc_Version := ver; nc_X := nc_X c; nc_Y := nc_Y c; nc_Z := nc_Z c;
  nc_IsAutoPlaced := nc_IsAutoPlaced c; nc_IsRaw := nc_IsRaw c; nc_IsMtd := nc_IsMtd c; nc_IsRcp := nc_IsRcp c;
  nc_IsRouter := nc_IsRouter c; nc_IsBorderRouter := nc_IsBorderRouter c; nc_IsExternal := nc_IsExternal c;
  nc_RxOffWhenIdle := nc_RxOffWhenIdle c; nc_NodeLogFile := nc_NodeLogFile c; nc_RadioRange := nc_RadioRange c;
  nc_ExecutablePath := nc_ExecutablePath c; nc_HostExePath := nc_HostExePath c; nc_NetIfName := nc_NetIfName c;
  nc_Restore := nc_Restore c; nc_InitScript := nc_InitScript c; nc_RandomSeed := nc_RandomSeed c;
  nc_RfSimParams := nc_RfSimParams c |}.
Definition set_place (x y z : Z) (auto : bool) (range : Z) (c : NodeConfig) : NodeConfig := {|
  nc_ID := nc_ID c; nc_Type := nc_Type c; nc_Version := nc_Version c; nc_X := x; nc_Y := y; nc_Z := z;
  nc_IsAutoPlaced := auto; nc_IsRaw := nc_IsRaw c; nc_IsMtd := nc_IsMtd c; nc_IsRcp := nc_IsRcp c;
  nc_IsRouter := nc_IsRouter c; nc_IsBorderRouter := nc_IsBorderRouter c; nc_IsExternal := nc_IsExternal c;
  nc_RxOffWhenIdle := nc_RxOffWhenIdle c; nc_NodeLogFile := nc_NodeLogFile c; nc_RadioRange := range;
  nc_ExecutablePath := nc_ExecutablePath c; nc_HostExePath := nc_HostExePath c; nc_NetIfName := nc_NetIfName c;
  nc_Restore := nc_Restore c; nc_InitScript := nc_InitScript c; nc_RandomSeed := nc_RandomSeed c;
  nc_RfSimParams := nc_RfSimParams c |}.
Definition set_run (exe host : string) (script : list string) (seed : Z) (c : NodeConfig) : NodeConfig := {|
  nc_ID := nc_ID c; nc_Type := nc_Type c; nc_Version := nc_Version c; nc_X := nc_X c; nc_Y := nc_Y c; nc_Z := nc_Z c;
  nc_IsAutoPlaced := nc_IsAutoPlaced c; nc_IsRaw := nc_IsRaw c; nc_IsMtd := nc_IsMtd c; nc_IsRcp := nc_IsRcp c;
  nc_IsRouter := nc_IsRouter c; nc_IsBorderRouter := nc_IsBorderRouter c; nc_IsExternal := nc_IsExternal c;
  nc_RxOffWhenIdle := nc_RxOffWhenIdle c; nc_NodeLogFile := nc_NodeLogFile c; nc_RadioRange := nc_RadioRange c;
  nc_ExecutablePath := exe; nc_HostExePath := host; nc_NetIfName := nc_NetIfName c;
  nc_Restore := nc_Restore c; nc_InitScript := script; nc_RandomSeed := seed; nc_RfSimParams := nc_RfSimParams c |}.

(** ** Executables *)
Record ExecutableConfig := mkExe {
  ex_Version : string; ex_Ftd : string; ex_Mtd : string; ex_Br : string; ex_OtBr : string; ex_Matter : string;
  ex_Rcp : string; ex_RcpHost : string; ex_SearchPaths : list string;
}.
(** What the file system and the environment say. *)
Class FsEnv := {
  isFile : string -> bool;
  isDir : string -> bool;
  (** [filepath.SplitList] of the environment variable for node directories *)
  nodes_dir_list : list string;
  installedNodesDir : string;
}.

Section exe.
Context {env : FsEnv}.
Definition defaultSearchPaths : list string :=
  let sp := List.filter (fun p => negb (String.eqb p "")) nodes_dir_list in
  let sp := (sp ++ ["."; "./ot-rfsim/ot-versions"])%list in
  if negb (String.eqb installedNodesDir "") && isDir installedNodesDir then (sp ++ [installedNodesDir])%list else sp.
Definition DefaultExecutableConfig : ExecutableConfig :=
  mkExe "" "ot-cli-ftd" "ot-cli-mtd" "ot-cli-ftd_br" "ot-br.sh" "ot-matter-node" "ot-rcp" "ot-cli" defaultSearchPaths.

Definition SetVersion (version : string) (def cfg : ExecutableConfig) : res ExecutableConfig :=
  _ ← assert_true (HasPrefix version "v1" && bool_decide (3 <= String.length version <= 4)%nat);
  let v s := if String.eqb version versionLatestTag then s else s +:+ "_" +:+ version in
  Ok (mkExe version (v (ex_Ftd def)) (v (ex_Mtd def)) (ex_Br def) (ex_OtBr cfg) (v (ex_Matter def)) (ex_Rcp def)
        (ex_RcpHost cfg) (ex_SearchPaths cfg)).

Fixpoint search (paths : list string) (exeName : string) : string :=
  match paths with
  | [] => exeName
  | sp :: paths =>
    let exePath := JoinPath sp exeName in
    if isFile exePath then (if IsAbs exePath || HasPrefix exePath "." then exePath else "./" +:+ exePath)
    else search paths exeName
  end.
Definition FindExecutable (cfg : ExecutableConfig) (exeName : string) : string :=
  if String.eqb exeName "" || IsAbs exeName || HasPrefix exeName "." then exeName
  else search (ex_SearchPaths cfg) exeName.

Definition FindExecutableBasedOnConfig (cfg : ExecutableConfig) (nodeCfg : NodeConfig) : string :=
  if negb (String.eqb (nc_ExecutablePath nodeCfg) "") then nc_ExecutablePath nodeCfg
  else if String.eqb (nc_Type nodeCfg) "matter" then FindExecutable cfg (ex_Matter cfg)
  else
    let exeName := ex_Ftd cfg in
    let exeName := if nc_IsMtd nodeCfg then ex_Mtd cfg else exeName in
    let exeName := if nc_IsBorderRouter nodeCfg then ex_Br cfg else exeName in
    let exeName := if nc_IsRcp nodeCfg then ex_Rcp cfg else exeName in
    let exeName :=
      if negb (String.eqb (nc_Version nodeCfg) "") && negb (String.eqb (nc_Version nodeCfg) versionLatestTag)
      then exeName +:+ "_" +:+ nc_Version nodeCfg else exeName in
    FindExecutable cfg exeName.
Definition FindHostExecutableBasedOnConfig (cfg : ExecutableConfig) (nodeCfg : NodeConfig) : string :=
  if negb (String.eqb (nc_HostExePath nodeCfg) "") then nc_HostExePath nodeCfg
  else FindExecutable cfg
    (if nc_IsRcp nodeCfg then (if negb (nc_IsBorderRouter nodeCfg) then ex_RcpHost cfg else ex_OtBr cfg) else "").
End exe.

(** ** Completion of a configuration *)
Section finalize.
Context {env : FsEnv}.
Definition wifiCcaThreshold : float := 20%float.
Definition string_le (a b : string) : bool := String.leb a b.

(** The start-up script of a node that is not raw. *)
Definition init_script (ys : YamlScriptConfig) (c : NodeConfig) : list string :=
  if nc_IsExternal c then BuildExtScript ys
  else if nc_IsBorderRouter c && nc_IsRcp c then BuildOtBrScript ys
  else if nc_IsBorderRouter c then BuildBrScript ys
  else if nc_IsMtd c then BuildMtdScript ys
  else if nc_IsRcp c then BuildRcpFtdScript ys
  else BuildFtdScript ys.

(** [newId] is what [genNodeId] finds, [seed] the drawn seed if the simulation has one,
    [noiseFloor] the radio model's noise floor. *)
Definition NodeConfigFinalize (exe : ExecutableConfig) (ys : YamlScriptConfig) (newId : Z) (seed : option Z)
    (noiseFloor : float) (c : NodeConfig) : res NodeConfig :=
  _ ← assert_true (negb ((nc_IsRcp c || nc_IsBorderRouter c) && nc_IsMtd c));
  let c := if nc_ID c <=? 0 then set_id_type newId (nc_Type c) (nc_Version c) c else c in
  let '(c, err) := UpdateNodeConfigFromType c in
  if (err : bool) then Ok (set_run "InvalidNodeExecutable" (nc_HostExePath c) (nc_InitScript c) (nc_RandomSeed c) c) else
  let c := set_run (FindExecutableBasedOnConfig exe c) (nc_HostExePath c) (nc_InitScript c) (nc_RandomSeed c) c in
  let c := set_run (nc_ExecutablePath c) (FindHostExecutableBasedOnConfig exe c) (nc_InitScript c) (nc_RandomSeed c) c in
  let c :=
    if negb (String.eqb (ex_Version exe) "") && String.eqb (nc_Version c) ""
    then set_id_type (nc_ID c) (nc_Type c) (ex_Version exe) c else c in
  let c :=
    match seed with
    | Some s => if negb (nc_IsExternal c) && negb (nc_IsRcp c)
                then set_run (nc_ExecutablePath c) (nc_HostExePath c) (nc_InitScript c) s c else c
    | None => c
    end in
  let script :=
    if nc_IsRaw c then nc_InitScript c else
    let script := (nc_InitScript c ++ init_script ys c)%list in
    if String.eqb (nc_Type c) "ssed" then
      (script ++ (if negb (String.eqb (nc_Version c) "") && string_le (nc_Version c) "v13"
                  then defaultLegacyCslScript else defaultCslScript))%list
    else script in
  let script :=
    if String.eqb (nc_Type c) "wifi" then
      (defaultWifiInterfererScript ++
        ["ccathreshold " +:+ Itoa (int64_of (f_Round (noiseFloor + wifiCcaThreshold)%float))])%list
    else script in
  Ok (set_run (nc_ExecutablePath c) (nc_HostExePath c) script (nc_RandomSeed c) c).
End finalize.

(** ** Automatic placement *)
Record NodeAutoPlacer := mkPlacer {
  np_X : Z; np_Y : Z; np_Z : Z; np_Xref : Z; np_Yref : Z; np_Xmax : Z; np_NodeDeltaCoarse : Z; np_NodeDeltaFine : Z;
  np_fineCount : Z; np_isReset : bool;
}.
Definition NewNodeAutoPlacer : NodeAutoPlacer := mkPlacer 100 100 0 100 100 1450 100 40 0 true.
Definition UpdateXReference (x : Z) (p : NodeAutoPlacer) : NodeAutoPlacer :=
  mkPlacer x (np_Y p) (np_Z p) x (np_Yref p) (np_Xmax p) (np_NodeDeltaCoarse p) (np_NodeDeltaFine p)
    (np_fineCount p) (np_isReset p).
Definition UpdateYReference (y : Z) (p : NodeAutoPlacer) : NodeAutoPlacer :=
  mkPlacer (np_X p) y (np_Z p) (np_Xref p) y (np_Xmax p) (np_NodeDeltaCoarse p) (np_NodeDeltaFine p)
    (np_fineCount p) (np_isReset p).
Definition UpdateReference (x y z : Z) (p : NodeAutoPlacer) : NodeAutoPlacer :=
  mkPlacer x y z x y (np_Xmax p) (np_NodeDeltaCoarse p) (np_NodeDeltaFine p) (np_fineCount p) false.

(** Division and remainder are those of Go's [int]. *)
Definition NextNodePosition (isBelowParent : bool) (p : NodeAutoPlacer) : (Z * Z * Z) * NodeAutoPlacer :=
  if isBelowParent then
    let col := Z.rem (np_fineCount p) 16 in
    let row := Z.quot (np_fineCount p) 16 in
    let y := np_Y p + Z.quot (np_NodeDeltaCoarse p) 2 * (row + 1) in
    let x := np_X p + (col * np_NodeDeltaFine p - np_NodeDeltaFine p) in
    ((x, y, np_Z p), mkPlacer (np_X p) (np_Y p) (np_Z p) (np_Xref p) (np_Yref p) (np_Xmax p) (np_NodeDeltaCoarse p)
       (np_NodeDeltaFine p) (np_fineCount p + 1) (np_isReset p))
  else
    let '(X, Y) :=
      if np_isReset p then (np_X p, np_Y p)
      else if np_X p + np_NodeDeltaCoarse p >? np_Xmax p then (np_Xref p, np_Y p + np_NodeDeltaCoarse p)
      else (np_X p + np_NodeDeltaCoarse p, np_Y p) in
    ((X, Y, np_Z p), mkPlacer X Y (np_Z p) (np_Xref p) (np_Yref p) (np_Xmax p) (np_NodeDeltaCoarse p)
       (np_NodeDeltaFine p) 0 false).
Definition ReuseNextNodePosition (p : NodeAutoPlacer) : NodeAutoPlacer :=
  mkPlacer (np_X p) (np_Y p) (np_Z p) (np_Xref p) (np_Yref p) (np_Xmax p) (np_NodeDeltaCoarse p) (np_NodeDeltaFine p)
    (np_fineCount p) true.

(** ** Network files *)
Record YamlNetworkConfig := mkNetwork { yn_Position : Z * Z * Z; yn_RadioRange : option Z; yn_BaseId : option Z }.
Record YamlNodeConfig := mkYamlNode {
  yc_ID : Z; yc_Type : string; yc_Version : option string; yc_Position : Z * Z * Z; yc_RadioRange : option Z;
}.
Definition MinNodeId (nodes : list YamlNodeConfig) : Z :=
  foldl (fun m n => if (yc_ID n <? m) || (m =? 0) then yc_ID n else m) 0 nodes.

(** [newNodeRange] is the radio range of the configuration for new nodes. *)
Definition ExportNetwork (newNodeRange : Z) : YamlNetworkConfig :=
  mkNetwork (0, 0, 0) (if negb (newNodeRange =? nc_RadioRange DefaultNodeConfig) then Some newNodeRange else None) None.
(** A node: its id, its configuration, and where it is. *)
Definition exportNode (nw : YamlNetworkConfig) (id : Z) (c : NodeConfig) (pos : Z * Z * Z) : YamlNodeConfig :=
  mkYamlNode id (nc_Type c) (if negb (String.eqb (nc_Version c) "") then Some (nc_Version c) else None) pos
    (match yn_RadioRange nw with
     | Some r => if negb (nc_RadioRange c =? r) then Some (nc_RadioRange c) else None
     | None => if negb (nc_RadioRange c =? defaultRadioRange) then Some (nc_RadioRange c) else None
     end).
Definition ExportNodes (nw : YamlNetworkConfig) (nodes : list (Z * NodeConfig * (Z * Z * Z))) : list YamlNodeConfig :=
  map (fun '(id, c, pos) => exportNode nw id c pos) nodes.
(** The configuration that [ImportNodes] makes of an entry, before it is completed. *)
Definition importNode (nw : YamlNetworkConfig) (n : YamlNodeConfig) : NodeConfig :=
  let rr := default defaultRadioRange (yn_RadioRange nw) in
  let '(ox, oy, oz) := yn_Position nw in
  let '(x, y, z) := yc_Position n in
  set_place (x + ox) (y + oy) (z + oz) false (default rr (yc_RadioRange n))
    (set_id_type (yc_ID n + default 0 (yn_BaseId nw)) (yc_Type n)
       (default (nc_Version DefaultNodeConfig) (yc_Version n)) DefaultNodeConfig).

(** ** Theorems: configurations *)

(** A node that is set up: what [Node.setupMode] asserts, and an id of its own. *)
Definition config_ok (c : NodeConfig) : Prop :=
  0 < nc_ID c /\
  (nc_IsRouter c = true -> nc_IsMtd c = false /\ nc_RxOffWhenIdle c = false) /\
  (nc_RxOffWhenIdle c = true -> nc_IsMtd c = true) /\
  (nc_IsRcp c || nc_IsBorderRouter c = true -> nc_IsRouter c = true).

Lemma set_flags_ok c mtd rcp router br ext rxoff :
  0 < nc_ID c -> (router = true -> mtd = false /\ rxoff = false) -> (rxoff = true -> mtd = true) ->
  (rcp || br = true -> router = true) -> config_ok (set_flags c mtd rcp router br ext rxoff).
Proof. by repeat split; simpl; try apply H0. Qed.
Lemma UpdateNodeConfigFromType_ok c :
  0 < nc_ID c -> config_ok (UpdateNodeConfigFromType c).1 /\ nc_Type (UpdateNodeConfigFromType c).1 = nc_Type c /\
    nc_IsRaw (UpdateNodeConfigFromType c).1 = nc_IsRaw c /\ nc_InitScript (UpdateNodeConfigFromType c).1 = nc_InitScript c.
Proof.
  intros Hid. unfold UpdateNodeConfigFromType.
  repeat match goal with |- context [if ?b then _ else _] => destruct b end;
    (split; [apply set_flags_ok; done|done]).
Qed.
(** Fields that the flags do not depend on. *)
Definition flags (c : NodeConfig) :=
  (nc_ID c, nc_IsMtd c, nc_IsRcp c, nc_IsRouter c, nc_IsBorderRouter c, nc_RxOffWhenIdle c).
Lemma config_ok_flags c c' : flags c' = flags c -> config_ok c -> config_ok c'.
Proof. unfold flags, config_ok. by intros [= -> -> -> -> -> ->]. Qed.

Definition ex_fs : FsEnv := {| isFile p := String.eqb p "ot-rfsim/ot-versions/ot-cli-mtd"; isDir _ := false;
  nodes_dir_list := []; installedNodesDir := "" |}.
#[local] Existing Instance ex_fs.
Definition ex_finalized : res NodeConfig :=
  NodeConfigFinalize DefaultExecutableConfig DefaultNodeScripts 7 (Some 42) (-95)%float
    (set_id_type (-1) "ssed" "" DefaultNodeConfig).


(** ** Theorems: placement *)
(** The positions of the nodes that are not below a parent, in order. *)
Fixpoint coarse_positions (ops : list bool) (p : NodeAutoPlacer) : list (Z * Z * Z) :=
  match ops with
  | [] => []
  | b :: ops =>
    let '(pos, p) := NextNodePosition b p in
    if b then coarse_positions ops p else pos :: coarse_positions ops p
  end.
(** Row by row, from left to right. *)
Definition after (X Y : Z) (pos : Z * Z * Z) : Prop := Y < pos.1.2 \/ Y = pos.1.2 /\ X < pos.1.1.
Definition placer_ok (p : NodeAutoPlacer) : Prop :=
  np_Xref p <= np_X p <= np_Xmax p /\ 0 < np_NodeDeltaCoarse p.

Lemma NextNodePosition_coarse p :
  placer_ok p ->
  let '((x, y, z), p') := NextNodePosition false p in
  placer_ok p' /\ np_X p' = x /\ np_Y p' = y /\ np_isReset p' = false /\ np_Xref p' = np_Xref p /\ np_Xmax p' = np_Xmax p /\
  np_Xref p <= x <= np_Xmax p /\
  (if np_isReset p then x = np_X p /\ y = np_Y p else after (np_X p) (np_Y p) (x, y, z)).
Proof.
  intros [H1 H2]. unfold NextNodePosition, placer_ok, after. destruct (np_isReset p); [simpl; lia|].
  destruct (Z.gtb_spec (np_X p + np_NodeDeltaCoarse p) (np_Xmax p)); simpl; lia.
Qed.
Lemma coarse_positions_after ops p :
  placer_ok p -> np_isReset p = false ->
  Forall (after (np_X p) (np_Y p)) (coarse_positions ops p) /\ NoDup (coarse_positions ops p) /\
  Forall (fun pos => np_Xref p <= pos.1.1 <= np_Xmax p) (coarse_positions ops p).
Proof.
  revert p. induction ops as [|b ops IH]; intros p Hp Hr; [by repeat split; constructor|]. cbn [coarse_positions].
  destruct b.
  - exact (IH (snd (NextNodePosition true p)) Hp Hr).
  - pose proof (NextNodePosition_coarse p Hp) as H. destruct (NextNodePosition false p) as [[[x y] z] p'].
    destruct H as (Hp' & <- & <- & Hr' & Ex & Em & HX & Ha). rewrite Hr in Ha.
    destruct (IH p' Hp' Hr') as (I1 & I2 & I3). rewrite Ex, Em in I3. split_and!.
    + constructor; [done|]. eapply Forall_impl; [exact I1|]. intros [[u v] w]. unfold after in *. simpl in *. lia.
    + constructor; [|done]. intros Hin. eapply Forall_forall in I1; [|exact Hin]. unfold after in I1. simpl in I1. lia.
    + by constructor.
Qed.

(** The automatic placement never puts two routers on the same spot, and keeps them within
    the columns of the display, however the placement of routers and of children alternates. *)
Theorem placement_distinct ops :
  NoDup (coarse_positions ops NewNodeAutoPlacer) /\
  Forall (fun pos => 100 <= pos.1.1 <= 1450) (coarse_positions ops NewNodeAutoPlacer).
Proof.
  assert (forall p, np_X p = 100 -> np_Y p = 100 -> np_Xref p = 100 -> np_Xmax p = 1450 -> 0 < np_NodeDeltaCoarse p ->
    np_isReset p = true -> NoDup (coarse_positions ops p) /\ Forall (fun pos => 100 <= pos.1.1 <= 1450) (coarse_positions ops p))
    as H; [|by apply H].
  induction ops as [|b ops IH]; intros p H1 H2 H3 H4 H5 H6; [by split; constructor|]. cbn [coarse_positions]. destruct b.
  - by apply IH.
  - assert (placer_ok p) as Hp by (unfold placer_ok; lia).
    pose proof (NextNodePosition_coarse p Hp) as H. destruct (NextNodePosition false p) as [[[x y] z] p'].
    destruct H as (Hp' & <- & <- & Hr' & Ex & Em & HX & _).
    destruct (coarse_positions_after ops p' Hp' Hr') as (I1 & I2 & I3). rewrite Ex, Em, H3, H4 in *. split.
    + constructor; [|done]. intros Hin. eapply Forall_forall in I1; [|exact Hin]. unfold after in I1. simpl in I1. lia.
    + by constructor.
Qed.

(** When a node could not be added, its position is given to the next node; but only for
    a router.  After a child that failed, the next router is put on the position of the
    router before it. *)
Theorem reuse_position p :
  let '(pos, p1) := NextNodePosition false p in
  fst (NextNodePosition false (ReuseNextNodePosition p1)) = pos /\
  fst (NextNodePosition false (ReuseNextNodePosition (snd (NextNodePosition true p1)))) = pos.
Proof. unfold NextNodePosition. destruct (if np_isReset p then _ else _) as [X Y]. done. Qed.
