(* ===== verification/Uart.v ===== *)
(** * Lines from a node's UART

    [Node.processUartData] (src/simulation/node.go): the bytes that a node writes arrive in
    pieces; prompts are removed and completed lines are queued.  The reference is a
    definition on the whole text, and the result does not depend on how it was cut. *)

From S2P Require Import Prelude GoStrings GoText.

Local Open Scope Z_scope.

Definition OtCliPrompt : list Z := [62; 32].
Definition OtCliPromptLen : nat := 2.

(** [bytes.HasPrefix(buf, OtCliPrompt)] *)
Definition has_prompt (buf : list Z) : bool := bool_decide (take OtCliPromptLen buf = OtCliPrompt).
(** [bytes.IndexByte(buf, '\n')] *)
Fixpoint IndexByte (buf : list Z) (c : Z) : option nat :=
  match buf with
  | [] => None
  | b :: buf => if b =? c then Some O else S <$> IndexByte buf c
  end.
(** [bytes.TrimRight(b, "\r\n")] *)
Fixpoint trim_left_eol (l : list Z) : list Z :=
  match l with
  | [] => []
  | b :: l => if (b =? 13) || (b =? 10) then trim_left_eol l else b :: l
  end.
Definition TrimRightEol (b : list Z) : list Z := rev (trim_left_eol (rev b)).

(** The loop over the buffer: the completed lines and what stays in the buffer. *)
Fixpoint uart_loop (fuel : nat) (buf : list Z) : list string * list Z :=
  match fuel with
  | O => ([], buf)
  | S fuel =>
    if has_prompt buf then uart_loop fuel (drop OtCliPromptLen buf) else
    match IndexByte buf 10 with
    | None => ([], buf)
    | Some idx =>
      let lineStr := string_of_bytes (TrimRightEol (take (idx + 1) buf)) in
      let '(lines, rest) := uart_loop fuel (drop (idx + 1) buf) in (lineStr :: lines, rest)
    end
  end.
(** Every turn takes a byte at least. *)
Definition uart_lines (buf : list Z) : list string * list Z := uart_loop (length buf) buf.

(** The pieces that arrive one after the other, from the contents [buf] of the buffer. *)
Fixpoint uart_chunks (buf : list Z) (chunks : list (list Z)) : list string * list Z :=
  match chunks with
  | [] => ([], buf)
  | data :: chunks =>
    let '(lines, buf) := uart_lines (buf ++ data) in
    let '(lines', buf) := uart_chunks buf chunks in (lines ++ lines', buf)
  end.

(** ** Steps of the loop *)
Lemma IndexByte_Some buf c i : IndexByte buf c = Some i -> (i < length buf)%nat.
Proof.
  revert i. induction buf as [|b buf IH]; intros i H; simpl in *; [done|]. destruct (b =? c); [simplify_eq; lia|].
  destruct (IndexByte buf c) as [k|]; simplify_eq/=. specialize (IH k eq_refl). lia.
Qed.
Lemma IndexByte_app buf rest c i : IndexByte buf c = Some i -> IndexByte (buf ++ rest) c = Some i.
Proof.
  revert i. induction buf as [|b buf IH]; intros i H; simpl in *; [done|]. destruct (b =? c); [done|].
  destruct (IndexByte buf c) as [k|]; simplify_eq/=. by rewrite (IH k).
Qed.
Lemma has_prompt_length buf : has_prompt buf = true -> (2 <= length buf)%nat.
Proof.
  unfold has_prompt. intros H%bool_decide_eq_true. apply (f_equal length) in H. rewrite length_take in H.
  change (length OtCliPrompt) with 2%nat in H. unfold OtCliPromptLen in H. lia.
Qed.
Lemma has_prompt_app buf rest : (2 <= length buf)%nat -> has_prompt (buf ++ rest) = has_prompt buf.
Proof. intros H. unfold has_prompt. by rewrite take_app_le. Qed.

(** One turn of the loop: a prompt or a line is taken from the front. *)
Definition turn (buf : list Z) : option (list string * nat) :=
  if has_prompt buf then Some ([], OtCliPromptLen) else
  match IndexByte buf 10 with
  | None => None
  | Some idx => Some ([string_of_bytes (TrimRightEol (take (idx + 1) buf))], (idx + 1)%nat)
  end.
Lemma turn_range buf ls n : turn buf = Some (ls, n) -> (0 < n <= length buf)%nat.
Proof.
  unfold turn. destruct (has_prompt buf) eqn:E.
  - apply has_prompt_length in E. intros [= _ <-]. unfold OtCliPromptLen. lia.
  - destruct (IndexByte buf 10) as [i|] eqn:Ei; [|done]. apply IndexByte_Some in Ei. intros [= _ <-]. lia.
Qed.
Lemma uart_loop_turn fuel buf :
  uart_loop (S fuel) buf =
    match turn buf with
    | None => ([], buf)
    | Some (ls, n) => let '(lines, rest) := uart_loop fuel (drop n buf) in (ls ++ lines, rest)
    end.
Proof.
  cbn [uart_loop]. unfold turn. destruct (has_prompt buf); [by destruct (uart_loop fuel _)|].
  destruct (IndexByte buf 10); [|done]. by destruct (uart_loop fuel _).
Qed.
(** A turn that is possible is the same turn when more bytes follow: a buffer that is a piece
    of a prompt has no line. *)
Lemma turn_app buf rest r : turn buf = Some r -> turn (buf ++ rest) = Some r.
Proof.
  intros H. assert (has_prompt (buf ++ rest) = has_prompt buf) as Hp.
  { destruct buf as [|a [|b buf]]; [done| |apply has_prompt_app; simpl; lia].
    unfold turn in H. simpl in H. unfold has_prompt in *. simpl in *.
    case_bool_decide as E1; [done|]. simpl in H. destruct (Z.eqb_spec a 10) as [->|]; [|done].
    symmetry. by rewrite bool_decide_eq_false_2. }
  unfold turn in *. rewrite Hp. destruct (has_prompt buf); [done|].
  destruct (IndexByte buf 10) as [i|] eqn:Ei; [|done]. rewrite (IndexByte_app _ _ _ _ Ei).
  apply IndexByte_Some in Ei. rewrite take_app_le by lia. done.
Qed.

Lemma uart_loop_fuel fuel fuel' buf :
  (length buf <= fuel)%nat -> (length buf <= fuel')%nat -> uart_loop fuel buf = uart_loop fuel' buf.
Proof.
  revert fuel' buf. induction fuel as [|fuel IH]; intros fuel' buf H H'.
  - destruct buf; [|simpl in H; lia]. by destruct fuel'.
  - destruct fuel' as [|fuel']; [destruct buf; [done|simpl in H'; lia]|]. rewrite !uart_loop_turn.
    destruct (turn buf) as [[ls n]|] eqn:E; [|done]. apply turn_range in E.
    rewrite (IH fuel'); [done|rewrite length_drop; lia..].
Qed.
Lemma uart_lines_turn buf :
  uart_lines buf =
    match turn buf with
    | None => ([], buf)
    | Some (ls, n) => let '(lines, rest) := uart_lines (drop n buf) in (ls ++ lines, rest)
    end.
Proof.
  unfold uart_lines. rewrite (uart_loop_fuel _ (S (length buf))) by lia. rewrite uart_loop_turn.
  destruct (turn buf) as [[ls n]|] eqn:E; [|done]. rewrite (uart_loop_fuel (length buf) (length (drop n buf))); [done| |lia].
  rewrite length_drop. lia.
Qed.

(** What is left has no line and no prompt in front. *)
Lemma uart_lines_app buf rest :
  uart_lines (buf ++ rest) =
    let '(lines, r) := uart_lines buf in let '(lines', r') := uart_lines (r ++ rest) in (lines ++ lines', r').
Proof.
  remember (length buf) as n eqn:Hn. revert buf Hn. induction (lt_wf n) as [n _ IH]. intros buf ->.
  rewrite (uart_lines_turn buf). destruct (turn buf) as [[ls k]|] eqn:E.
  - rewrite (uart_lines_turn (buf ++ rest)), (turn_app _ _ _ E). apply turn_range in E as Hk.
    rewrite drop_app_le by lia. rewrite (IH (length (drop k buf))); [|rewrite length_drop; lia|done].
    destruct (uart_lines (drop k buf)) as [l1 r1]. destruct (uart_lines (r1 ++ rest)) as [l2 r2]. by rewrite app_assoc.
  - by destruct (uart_lines (buf ++ rest)).
Qed.
Lemma uart_chunks_concat buf chunks :
  uart_lines buf = ([], buf) -> uart_chunks buf chunks = uart_lines (buf ++ concat chunks).
Proof.
  revert buf. induction chunks as [|data chunks IH]; intros buf Hb; cbn [uart_chunks concat].
  - by rewrite app_nil_r.
  - rewrite app_assoc, (uart_lines_app (buf ++ data)). destruct (uart_lines (buf ++ data)) as [ls r] eqn:E.
    rewrite IH; [done|]. pose proof (uart_lines_app (buf ++ data) []) as H. rewrite app_nil_r, E, app_nil_r in H.
    destruct (uart_lines r) as [l2 r2]. injection H as H1 ->. f_equal.
    rewrite <- (app_nil_r ls) in H1 at 1. by apply app_inv_head in H1.
Qed.

(** The lines that are taken from a node's UART do not depend on how its output was cut
    into pieces: whatever the pieces, even in the middle of a prompt or of a line end, they
    are the lines of the whole text, and so is what stays in the buffer. *)
Theorem uart_lines_chunks chunks1 chunks2 :
  concat chunks1 = concat chunks2 -> uart_chunks [] chunks1 = uart_chunks [] chunks2.
Proof. intros E. by rewrite !uart_chunks_concat, E. Qed.

(** ** The text of lines *)

(** A line as a node prints it, after any number of prompts. *)
Definition print_line (prompts : nat) (line : list Z) : list Z :=
  concat (replicate prompts OtCliPrompt) ++ line ++ [13; 10].
Definition plain_line (line : list Z) : Prop :=
  (forall b, b ∈ line -> b <> 10 /\ b <> 13) /\ has_prompt (line ++ [13; 10]) = false.

Lemma IndexByte_line line rest c :
  (forall b, b ∈ line -> b <> c) -> IndexByte (line ++ c :: rest) c = Some (length line).
Proof.
  induction line as [|b line IH]; intros H; simpl; [by rewrite Z.eqb_refl|].
  destruct (Z.eqb_spec b c) as [->|]; [by destruct (H c ltac:(left))|]. rewrite IH; [done|].
  intros x Hx. apply H. by right.
Qed.
Lemma TrimRightEol_line line : (forall b, b ∈ line -> b <> 10 /\ b <> 13) -> TrimRightEol (line ++ [13; 10]) = line.
Proof.
  intros H. unfold TrimRightEol. rewrite rev_app_distr. simpl.
  assert (trim_left_eol (rev line) = rev line) as ->; [|apply rev_involutive].
  destruct (rev line) as [|b l] eqn:E; [done|]. simpl.
  destruct (H b) as [? ?]; [apply list_elem_of_In, in_rev; rewrite E; by left|].
  destruct (Z.eqb_spec b 13); [done|]. by destruct (Z.eqb_spec b 10).
Qed.
Lemma uart_lines_prompts k rest : uart_lines (concat (replicate k OtCliPrompt) ++ rest) = uart_lines rest.
Proof.
  induction k as [|k IH]; [done|]. cbn [replicate concat]. rewrite <- app_assoc, uart_lines_turn. unfold turn.
  assert (has_prompt (OtCliPrompt ++ concat (replicate k OtCliPrompt) ++ rest) = true) as -> by done.
  change (drop OtCliPromptLen _) with (concat (replicate k OtCliPrompt) ++ rest). rewrite IH. by destruct (uart_lines rest).
Qed.
Lemma uart_lines_print k line rest :
  plain_line line ->
  uart_lines (print_line k line ++ rest) = (string_of_bytes line :: (uart_lines rest).1, (uart_lines rest).2).
Proof.
  intros [HL HP]. unfold print_line. rewrite <- app_assoc, uart_lines_prompts, <- app_assoc.
  rewrite uart_lines_turn. unfold turn.
  assert (has_prompt (line ++ [13; 10] ++ rest) = false) as ->.
  { rewrite app_assoc, has_prompt_app; [done|]. rewrite length_app. simpl. lia. }
  assert (IndexByte (line ++ [13; 10] ++ rest) 10 = Some (length line + 1)%nat) as ->.
  { change ([13; 10] ++ rest) with ([13] ++ 10 :: rest). rewrite app_assoc, IndexByte_line, length_app; [done|].
    intros b [Hb|Hb]%elem_of_app; [by apply HL|]. apply list_elem_of_singleton in Hb as ->. done. }
  replace (length line + 1 + 1)%nat with (length (line ++ [13; 10])) by (rewrite length_app; simpl; lia).
  rewrite (app_assoc line [13; 10] rest), take_app_length, drop_app_length, TrimRightEol_line by done.
  by destruct (uart_lines rest).
Qed.
(** A printed text: lines with prompts before them, and prompts at the end. *)
Definition print_text (lines : list (nat * list Z)) (prompts : nat) : list Z :=
  concat (map (fun '(k, l) => print_line k l) lines) ++ concat (replicate prompts OtCliPrompt).
Lemma uart_lines_text lines prompts :
  Forall (fun x => plain_line x.2) lines ->
  uart_lines (print_text lines prompts) = (map (fun x => string_of_bytes x.2) lines, []).
Proof.
  unfold print_text. induction 1 as [|[k l] lines Hl _ IH]; cbn [map concat].
  - rewrite app_nil_l, <- (app_nil_r (concat _)), uart_lines_prompts. done.
  - rewrite <- app_assoc, uart_lines_print by done. by rewrite IH.
Qed.

(** ** Sizes and sequences of pieces *)
Lemma uart_lines_length buf : (length (uart_lines buf).1 + length (uart_lines buf).2 <= length buf)%nat.
Proof.
  remember (length buf) as n eqn:Hn. revert buf Hn. induction (lt_wf n) as [n _ IH]. intros buf ->.
  rewrite uart_lines_turn. destruct (turn buf) as [[ls k]|] eqn:E; [|done].
  assert (length ls <= 1)%nat as Hls.
  { unfold turn in E. destruct (has_prompt buf); [by injection E as <- _; simpl; lia|].
    destruct (IndexByte buf 10); [|done]. by injection E as <- _. }
  apply turn_range in E. specialize (IH (length (drop k buf))). rewrite length_drop in IH.
  specialize (IH ltac:(lia) (drop k buf) ltac:(by rewrite length_drop)).
  destruct (uart_lines (drop k buf)). simpl in *. rewrite length_app. lia.
Qed.
Lemma uart_chunks_length buf chunks :
  (length (uart_chunks buf chunks).1 <= length (buf ++ concat chunks))%nat.
Proof.
  revert buf. induction chunks as [|data chunks IH]; intros buf; cbn [uart_chunks concat fst length]; [lia|].
  pose proof (uart_lines_length (buf ++ data)) as H. destruct (uart_lines (buf ++ data)) as [ls r].
  specialize (IH r). destruct (uart_chunks r chunks). simpl in *. rewrite !length_app in *. lia.
Qed.
Lemma uart_chunks_app buf c1 c2 :
  uart_chunks buf (c1 ++ c2) =
    let '(l1, b1) := uart_chunks buf c1 in let '(l2, b2) := uart_chunks b1 c2 in (l1 ++ l2, b2).
Proof.
  revert buf. induction c1 as [|data c1 IH]; intros buf; cbn [uart_chunks app]; [by destruct (uart_chunks buf c2)|].
  destruct (uart_lines (buf ++ data)) as [ls r]. rewrite IH. destruct (uart_chunks r c1) as [l1 b1].
  destruct (uart_chunks b1 c2) as [l2 b2]. by rewrite app_assoc.
Qed.

(** A prompt, a line and a line end that are all cut. *)
Lemma uart_lines_chunks_witness :
  uart_chunks [] [[62]; [32; 79]; [75; 13]; [10; 62; 32]] = uart_chunks [] [[62; 32; 79; 75; 13; 10; 62; 32]] /\
  uart_chunks [] [[62; 32; 79; 75; 13; 10; 62; 32]] = (["OK"%string], []).
Proof.
  split; [|vm_compute; reflexivity].
  apply (uart_lines_chunks [[62]; [32; 79]; [75; 13]; [10; 62; 32]] [[62; 32; 79; 75; 13; 10; 62; 32]]). reflexivity.
Defined.
