(* ===== verification/SimNode.v ===== *)
(** * A simulated node's command line

    The node objects of the simulation (src/simulation/node.go): commands are written to the
    node's UART, its output comes back as lines ([Uart]), and a command ends with a line
    [Done] or [Error].

    The node process is a parameter: what it prints in answer to each input ([cli_reply]) and
    which events it sends in answer to a radio parameter request.  Its output arrives in
    pieces, which wait in [sn_incoming] until the dispatcher handles them.  The simulation is
    running: no command is interrupted by its end. *)

From S2P Require Import Prelude State Types Event GoStrings GoText Uart NodeConfig.
From Stdlib Require Import Ascii.

Local Open Scope string_scope.
Local Open Scope Z_scope.

Inductive NodeUartType := nodeUartTypeUndefined | nodeUartTypeRealTime | nodeUartTypeVirtualTime.

(** What a node object does to the outside: lines printed for the user, bytes written to the
    virtual UART and radio parameter requests (both messages of the dispatcher), calls on
    the dispatcher and on the process. *)
Inductive NodeOutput :=
| NPrint (line : string)
| NUart (data : list Z)
| NRfSim (isSet : bool) (param value : Z)
| NNotifyCommand
| NSigTerm
| NDisconnectSocket.

Record SimNode := mkSimNode {
  sn_Id : Z;
  sn_cfg : NodeConfig;
  sn_cmdErr : option string;
  sn_version : string;
  sn_threadVersion : Z;
  sn_isSendStarted : bool;
  sn_isExiting : bool;
  sn_sendGroupIds : gset Z;
  sn_pendingLines : list string;
  sn_pendingEvents : list Event;
  sn_uartLine : list Z;
  sn_uartType : NodeUartType;
  sn_uartHasEcho : bool;
  (** output of the node that was not handled yet, inputs written so far, outputs *)
  sn_incoming : list (list Z);
  sn_inputs : nat;
  sn_out : list NodeOutput;
}.
Definition set_cmdErr (e : option string) (n : SimNode) : SimNode :=
  mkSimNode (sn_Id n) (sn_cfg n) e (sn_version n) (sn_threadVersion n) (sn_isSendStarted n) (sn_isExiting n)
    (sn_sendGroupIds n) (sn_pendingLines n) (sn_pendingEvents n) (sn_uartLine n) (sn_uartType n) (sn_uartHasEcho n)
    (sn_incoming n) (sn_inputs n) (sn_out n).
Definition set_versions (v : string) (tv : Z) (n : SimNode) : SimNode :=
  mkSimNode (sn_Id n) (sn_cfg n) (sn_cmdErr n) v tv (sn_isSendStarted n) (sn_isExiting n)
    (sn_sendGroupIds n) (sn_pendingLines n) (sn_pendingEvents n) (sn_uartLine n) (sn_uartType n) (sn_uartHasEcho n)
    (sn_incoming n) (sn_inputs n) (sn_out n).
Definition set_send (started : bool) (groups : gset Z) (n : SimNode) : SimNode :=
  mkSimNode (sn_Id n) (sn_cfg n) (sn_cmdErr n) (sn_version n) (sn_threadVersion n) started (sn_isExiting n)
    groups (sn_pendingLines n) (sn_pendingEvents n) (sn_uartLine n) (sn_uartType n) (sn_uartHasEcho n)
    (sn_incoming n) (sn_inputs n) (sn_out n).
Definition set_exiting (n : SimNode) : SimNode :=
  mkSimNode (sn_Id n) (sn_cfg n) (sn_cmdErr n) (sn_version n) (sn_threadVersion n) (sn_isSendStarted n) true
    (sn_sendGroupIds n) (sn_pendingLines n) (sn_pendingEvents n) (sn_uartLine n) (sn_uartType n) (sn_uartHasEcho n)
    (sn_incoming n) (sn_inputs n) (sn_out n).
Definition set_lines (lines : list string) (buf : list Z) (n : SimNode) : SimNode :=
  mkSimNode (sn_Id n) (sn_cfg n) (sn_cmdErr n) (sn_version n) (sn_threadVersion n) (sn_isSendStarted n) (sn_isExiting n)
    (sn_sendGroupIds n) lines (sn_pendingEvents n) buf (sn_uartType n) (sn_uartHasEcho n)
    (sn_incoming n) (sn_inputs n) (sn_out n).
Definition set_events (evts : list Event) (n : SimNode) : SimNode :=
  mkSimNode (sn_Id n) (sn_cfg n) (sn_cmdErr n) (sn_version n) (sn_threadVersion n) (sn_isSendStarted n) (sn_isExiting n)
    (sn_sendGroupIds n) (sn_pendingLines n) evts (sn_uartLine n) (sn_uartType n) (sn_uartHasEcho n)
    (sn_incoming n) (sn_inputs n) (sn_out n).
Definition set_echo (b : bool) (n : SimNode) : SimNode :=
  mkSimNode (sn_Id n) (sn_cfg n) (sn_cmdErr n) (sn_version n) (sn_threadVersion n) (sn_isSendStarted n) (sn_isExiting n)
    (sn_sendGroupIds n) (sn_pendingLines n) (sn_pendingEvents n) (sn_uartLine n) (sn_uartType n) b
    (sn_incoming n) (sn_inputs n) (sn_out n).
Definition set_incoming (c : list (list Z)) (k : nat) (n : SimNode) : SimNode :=
  mkSimNode (sn_Id n) (sn_cfg n) (sn_cmdErr n) (sn_version n) (sn_threadVersion n) (sn_isSendStarted n) (sn_isExiting n)
    (sn_sendGroupIds n) (sn_pendingLines n) (sn_pendingEvents n) (sn_uartLine n) (sn_uartType n) (sn_uartHasEcho n)
    c k (sn_out n).
Definition add_out (o : NodeOutput) (n : SimNode) : SimNode :=
  mkSimNode (sn_Id n) (sn_cfg n) (sn_cmdErr n) (sn_version n) (sn_threadVersion n) (sn_isSendStarted n) (sn_isExiting n)
    (sn_sendGroupIds n) (sn_pendingLines n) (sn_pendingEvents n) (sn_uartLine n) (sn_uartType n) (sn_uartHasEcho n)
    (sn_incoming n) (sn_inputs n) (sn_out n ++ [o]).

Class CliEnv := {
  (** the output of the node, in pieces, for its [n]-th input; none if it could not be written *)
  cli_reply : nat -> string -> option (list (list Z));
  (** the events that answer the [n]-th input, a radio parameter request *)
  rfsim_reply : nat -> bool -> RfSimParam -> RfSimParamValue -> option (list Event);
  (** whether the user's command line is in the context of this node *)
  in_node_context : bool;
  (** whether the node's socket is connected *)
  dnode_connected : bool;
}.

Section node.
Context {env : CliEnv}.
Abbreviation NM := (st SimNode) (only parsing).

Definition error (err : option string) : NM () :=
  match err with None => mret tt | Some _ => modify (set_cmdErr err) end.
Definition CommandResult : NM (option string) := gets sn_cmdErr.

(** ** Output of the node *)
Definition DisplayPendingLines : NM () :=
  n ← get;
  match sn_pendingLines n with
  | [] => mret tt
  | lines =>
    let prefix := if in_node_context then "" else GetNodeName (sn_Id n) in
    _ ← modify (set_lines [] (sn_uartLine n));
    for_each lines (fun line =>
      when (negb (sn_isExiting n && (String.eqb line "exit" || String.eqb line "")))
        (modify (add_out (NPrint (prefix +:+ line)))))
  end.

Definition pendingLinesCap : nat := Z.to_nat 10000.
(** [node.pendingLines <- lineStr], after an early display when the channel is full *)
Definition pushLine (lineStr : string) : NM () :=
  n ← get;
  _ ← when (bool_decide (pendingLinesCap <= length (sn_pendingLines n))%nat) DisplayPendingLines;
  modify (fun n => set_lines (sn_pendingLines n ++ [lineStr]) (sn_uartLine n) n).
Definition processUartData (data : list Z) : NM () :=
  n ← get;
  let '(lines, rest) := uart_lines (sn_uartLine n ++ data) in
  _ ← modify (fun n => set_lines (sn_pendingLines n) rest n);
  for_each lines pushLine.

(** The dispatcher handles the next piece of output, if there is one. *)
Definition handleNext : NM bool :=
  n ← get;
  match sn_incoming n with
  | [] => mret false
  | data :: later => _ ← modify (set_incoming later (sn_inputs n)); _ ← processUartData data; mret true
  end.
(** [waitForSimulation]: all of it *)
Definition waitForSimulation : NM () :=
  n ← get;
  _ ← modify (set_incoming [] (sn_inputs n));
  for_each (sn_incoming n) processUartData.

Definition takeLine : NM (option string) :=
  n ← get;
  match sn_pendingLines n with
  | [] => mret None
  | line :: lines => _ ← modify (set_lines lines (sn_uartLine n)); mret (Some line)
  end.
Definition readLine : NM (option string) :=
  line ← takeLine;
  match line with
  | Some line => mret (Some line)
  | None => _ ← waitForSimulation; takeLine
  end.

(** The regular expression [doneOrErrorRegexp]: space, and then [Done], or [Error], a number
    and a colon. *)
Definition re_space (c : ascii) : bool :=
  let k := N_of_ascii c in (k =? 9)%N || (k =? 10)%N || (k =? 12)%N || (k =? 13)%N || (k =? 32)%N.
Definition is_digit (c : ascii) : bool := let k := N_of_ascii c in ((48 <=? k)%N && (k <=? 57)%N).
Definition doneOrError (line : string) : bool :=
  let s := String.string_of_list_ascii (drop_while re_space (String.list_ascii_of_string line)) in
  HasPrefix s "Done" ||
  (HasPrefix s "Error " &&
   let t := String.list_ascii_of_string (substr_from 6 s) in
   let r := drop_while is_digit t in
   bool_decide (length r < length t)%nat && HasPrefix (String.string_of_list_ascii r) ": ").

(** The lines up to the first that matches; an error when they end before.  Output that
    waits is handled when there is no line. *)
Fixpoint expectLine_loop (fuel : nat) (isLineMatch : string -> bool) (output : list string) :
    NM (list string * bool) :=
  match fuel with
  | O => panics OutOfFuel
  | S fuel =>
    line ← takeLine;
    match line with
    | Some line =>
      let output := (output ++ [line])%list in
      if isLineMatch line then mret (output, true) else expectLine_loop fuel isLineMatch output
    | None =>
      more ← handleNext;
      if (more : bool) then expectLine_loop fuel isLineMatch output else mret (output, false)
    end
  end.
(** One turn for every line that waits or is still to come, and for every piece. *)
Definition expect_fuel (n : SimNode) : nat :=
  S (length (sn_pendingLines n) + length (sn_uartLine n ++ concat (sn_incoming n)) + length (sn_incoming n)).
Definition expectLine (isLineMatch : string -> bool) : NM (list string * bool) :=
  n ← get; expectLine_loop (expect_fuel n) isLineMatch [].

(** ** Commands *)
Definition inputCommand (cmd : string) : NM bool :=
  n ← get;
  _ ← modify (set_cmdErr None);
  match sn_uartType n with
  | nodeUartTypeUndefined => mret false
  | ty =>
    match cli_reply (sn_inputs n) cmd with
    | None => _ ← modify (fun n => set_incoming (sn_incoming n) (S (sn_inputs n)) n); mret false
    | Some chunks =>
      _ ← modify (fun n => set_incoming (sn_incoming n ++ chunks) (S (sn_inputs n)) n);
      _ ← modify (add_out (match ty with
            | nodeUartTypeRealTime => NNotifyCommand
            | _ => NUart (bytes_of_string cmd ++ [10])
            end));
      mret true
    end
  end.

(** Write the command and skip its echo; whether that worked. *)
Definition startCommand (cmd : string) : NM bool :=
  ok ← inputCommand cmd;
  if negb ok then _ ← error (Some "input failed"); mret false else
  n ← get;
  if sn_uartHasEcho n then
    '(_, ok) ← expectLine (String.eqb cmd);
    if (ok : bool) then mret true else _ ← error (Some "expectLine timeout"); mret false
  else mret true.

Fixpoint collectLines (fuel : nat) (output : list string) (hasDone : bool) : NM (list string * bool) :=
  match fuel with
  | O => panics OutOfFuel
  | S fuel =>
    line ← readLine;
    match line with
    | None => mret (output, hasDone)
    | Some line =>
      let lineTrimmed := TrimSpace line in
      if HasPrefix line "Error" then _ ← error (Some line); collectLines fuel output hasDone
      else if String.eqb lineTrimmed "Done" then collectLines fuel output true
      else collectLines fuel (output ++ [line])%list (if String.eqb lineTrimmed "" then hasDone else false)
    end
  end.
Definition CommandNoDone (cmd : string) : NM (list string * bool) :=
  ok ← startCommand cmd;
  if negb ok then mret ([], false) else
  n ← get;
  collectLines (S (expect_fuel n)) [] false.

Definition Command (cmd : string) : NM (list string) :=
  ok ← startCommand cmd;
  if negb ok then mret [] else
  '(output, ok) ← expectLine doneOrError;
  if negb ok then _ ← error (Some "expectLine timeout"); mret [] else
  result ← lift (assert_not_nil (last output));
  let output := take (length output - 1) output in
  let result := TrimSpace result in
  _ ← when (negb (String.eqb result "Done")) (error (Some result));
  mret output.
Definition CommandChecked (cmd : string) : NM (option string) := _ ← Command cmd; CommandResult.

Definition CommandExpectString (cmd : string) : NM string :=
  output ← Command cmd;
  match output with [s] => mret s | _ => mret "" end.
Definition CommandExpectInt (cmd : string) : NM Z :=
  s ← CommandExpectString cmd;
  mret (default 0 (if HasPrefix s "0x" || HasPrefix s "0X" then ParseInt (substr_from 2 s) 16 else ParseInt s 10)).
Definition CommandExpectHex (cmd : string) : NM Z :=
  s ← CommandExpectString cmd;
  t ← lift (slice_from s 2);
  mret (default 0 (ParseInt t 16)).
Definition CommandExpectEnabledOrDisabled (cmd : string) : NM bool :=
  s ← CommandExpectString cmd; mret (String.eqb s "Enabled").

(** ** Radio parameters *)
Definition expectEvent (evtType : Z) : NM (option Event) :=
  _ ← waitForSimulation;
  n ← get;
  let fix find evts := match evts with
    | [] => (None, [])
    | e :: evts => if ev_Type e =? evtType then (Some e, evts) else find evts
    end in
  let '(evt, evts) := find (sn_pendingEvents n) in
  _ ← modify (set_events evts);
  mret evt.
Definition SendRfSimEvent (isSet : bool) (param value : Z) : NM bool :=
  n ← get;
  match rfsim_reply (sn_inputs n) isSet param value with
  | None => _ ← modify (fun n => set_incoming (sn_incoming n) (S (sn_inputs n)) n); mret false
  | Some evts =>
    _ ← modify (fun n => set_incoming (sn_incoming n) (S (sn_inputs n)) n);
    _ ← modify (fun n => set_events (sn_pendingEvents n ++ evts) n);
    _ ← modify (add_out (NRfSim isSet param value));
    mret true
  end.
Definition getOrSetRfSimParam (isSet : bool) (param value : Z) : NM Z :=
  _ ← modify (set_cmdErr None);
  ok ← SendRfSimEvent isSet param value;
  if (ok : bool) then
    evt ← expectEvent EventTypeRadioRfSimParamRsp;
    match evt with
    | None => _ ← error (Some "expectEvent: event not received"); mret value
    | Some evt =>
      if rp_Param (ev_RfSimParamData evt) =? param then mret (rp_Value (ev_RfSimParamData evt))
      else _ ← error (Some "RfSimEvent with unexpected param received"); mret value
    end
  else _ ← error (Some "send failed"); mret value.

Definition GetCcaThreshold : NM Z :=
  s ← CommandExpectString "ccathreshold";
  idx ← lift (match Index s " dBm" with Some i => Ok i | None => Panic IndexOutOfRange end);
  match ParseInt (String.substring 0 idx s) 10 with
  | Some iv => mret (to_signed 32 iv)
  | None => _ ← error (Some "parse error"); mret RssiInvalid
  end.
Definition SetCcaThreshold (thresh : Z) : NM () :=
  if (RssiMin <=? thresh) && (thresh <=? RssiMax) then _ ← Command ("ccathreshold " +:+ Itoa thresh); mret tt
  else error (Some "parameter out of range 0-255").

Definition RfSimValueMax : Z := 2 ^ 31 - 2.
Definition is_plain_param (param : Z) : bool :=
  (param =? ParamRxSensitivity) || (param =? ParamCslUncertainty) || (param =? ParamTxInterferer) ||
  (param =? ParamClockDrift) || (param =? ParamCslAccuracy) || (param =? ParamPhyBitrate).
Definition GetRfSimParam (param : Z) : NM Z :=
  if is_plain_param param then getOrSetRfSimParam false param 0
  else if param =? ParamCcaThreshold then GetCcaThreshold
  else _ ← error (Some "unknown RfSim parameter"); mret 0.
(** The values that a parameter may be set to. *)
Definition param_range (param : Z) : option (Z * Z) :=
  if param =? ParamRxSensitivity then Some (RssiMin, RssiMax)
  else if (param =? ParamCslAccuracy) || (param =? ParamCslUncertainty) || (param =? ParamTxInterferer) then Some (0, 255)
  else if param =? ParamClockDrift then Some (- 2 ^ 15, 2 ^ 15 - 1)
  else if param =? ParamPhyBitrate then Some (1, RfSimValueMax)
  else None.
Definition SetRfSimParam (param value : Z) : NM () :=
  if param =? ParamCcaThreshold then SetCcaThreshold value else
  match param_range param with
  | Some (lo, hi) =>
    if (value <? lo) || (value >? hi) then error (Some "parameter out of range")
    else _ ← getOrSetRfSimParam true param value; mret tt
  | None => error (Some "unknown RfSim parameter")
  end.

(** ** Properties of the node *)
Definition GetChannel : NM Z := CommandExpectInt "channel".
Definition GetEui64 : NM string := CommandExpectString "eui64".
Definition GetExtAddr : NM Z :=
  s ← CommandExpectString "extaddr";
  match ParseUint s 16 64 with Ok v => mret v | Panic _ => mret InvalidExtAddr end.
Definition GetIpAddrSlaac : NM (list string) :=
  addrs ← Command "ipaddr -v";
  mret (omap (fun addr => match Index addr " origin:slaac " with
    | Some (S i) => Some (String.substring 0 (S i) addr) | _ => None end) addrs).
Definition GetRouterEligible : NM bool := CommandExpectEnabledOrDisabled "routereligible".
Definition RouterEligibleEnable : NM () := _ ← Command "routereligible enable"; mret tt.
Definition RouterEligibleDisable : NM () := _ ← Command "routereligible disable"; mret tt.
Definition GetNetworkKey : NM string := CommandExpectString "networkkey".
Definition GetMode : NM string := CommandExpectString "mode".
Definition SetMode (mode : string) : NM () := _ ← Command ("mode " +:+ mode); mret tt.
Definition GetPanid : NM Z := v ← CommandExpectInt "panid"; mret (u16 v).
Definition GetRloc16 : NM Z := v ← CommandExpectHex "rloc16"; mret (u16 v).
Definition GetState : NM string := CommandExpectString "state".
Definition GetThreadVersion : NM Z :=
  n ← get;
  _ ← when (sn_threadVersion n =? 0)
        (v ← CommandExpectInt "thread version";
         modify (fun n => set_versions (sn_version n) (u16 v) n));
  gets sn_threadVersion.
Definition GetVersion : NM string :=
  n ← get;
  _ ← when (String.eqb (sn_version n) "")
        (v ← CommandExpectString "version"; modify (fun n => set_versions v (sn_threadVersion n) n));
  gets sn_version.

(** The lines [key: value]; none if a line is not of that form. *)
Fixpoint parseCounters (keyPrefix : string) (lines : list string) (acc : gmap string Z) : option (gmap string Z) :=
  match lines with
  | [] => Some acc
  | line :: lines =>
    match SplitStr line ": " with
    | [k; v] =>
      match ParseUint v 10 64 with
      | Ok val => parseCounters keyPrefix lines (<[keyPrefix +:+ RemoveSpaces k := val]> acc)
      | Panic _ => None
      end
    | _ => None
    end
  end.
Definition GetCounters (counterType keyPrefix : string) : NM (option (gmap string Z)) :=
  lines ← Command ("counters " +:+ counterType);
  mret (parseCounters keyPrefix lines ∅).

(** ** Test traffic *)
Definition SendCoapResourceName : string := "t".
Definition SendMcastPrefix : string := "ff13::deed".
Definition SendUdpPort : Z := 10000.

Definition UdpBindAny (port : Z) : NM (option string) := CommandChecked ("udp bind :: " +:+ Itoa port).
Definition UdpSend (addr : string) (port : Z) (data : list Z) : NM (option string) :=
  CommandChecked ("udp send " +:+ addr +:+ " " +:+ Itoa port +:+ " -x " +:+ EncodeToString data).
Definition UdpSendTestData (addr : string) (port dataSize : Z) : NM (option string) :=
  CommandChecked ("udp send " +:+ addr +:+ " " +:+ Itoa port +:+ " -s " +:+ Itoa dataSize).
(** [payloadStr] is the random text that is sent. *)
Definition CoapPostTestData (addr uri : string) (confirmable : bool) (payloadStr : string) : NM (option string) :=
  CommandChecked ("coap post " +:+ addr +:+ " " +:+ uri +:+ " " +:+ (if confirmable then "con" else "non") +:+
    " " +:+ payloadStr).

Definition SendInit : NM (option string) :=
  n ← get;
  if sn_isSendStarted n then mret None else
  e ← CommandChecked "udp open";
  match e with Some _ => mret e | None =>
  e ← UdpBindAny SendUdpPort;
  match e with Some _ => mret e | None =>
  e ← CommandChecked "coap start";
  match e with Some _ => mret e | None =>
  e ← CommandChecked ("coap resource " +:+ SendCoapResourceName);
  match e with Some _ => mret e | None =>
  _ ← modify (fun n => set_send true (sn_sendGroupIds n) n); mret None
  end end end end.

Definition SendGroupMembership (groupId : Z) (isMember : bool) : NM (option string) :=
  e ← CommandChecked ("ipmaddr " +:+ (if isMember then "add" else "del") +:+ " " +:+
        SendMcastPrefix +:+ ":" +:+ fmt_x groupId);
  match e with
  | Some err => mret (if negb isMember && HasPrefix err "Error 23" then None else e)
  | None =>
    _ ← modify (fun n => set_send (sn_isSendStarted n)
          (if isMember then {[groupId]} ∪ sn_sendGroupIds n else sn_sendGroupIds n ∖ {[groupId]}) n);
    mret None
  end.
Fixpoint leaveGroups (gids : list Z) : NM (option string) :=
  match gids with
  | [] => mret None
  | gid :: gids =>
    e ← SendGroupMembership gid false;
    match e with Some _ => mret e | None => leaveGroups gids end
  end.
(** [gids] is the order in which Go ranges over the group ids. *)
Definition SendReset (gids : list Z) : NM (option string) :=
  n ← get;
  if negb (sn_isSendStarted n) then mret None else
  e ← CommandChecked "coap stop";
  match e with Some _ => mret e | None =>
  e ← CommandChecked "udp close";
  match e with Some _ => mret e | None =>
  e ← leaveGroups gids;
  match e with Some _ => mret e | None =>
  _ ← modify (fun n => set_send false (sn_sendGroupIds n) n); mret None
  end end end.

(** ** Set-up and exit *)
Fixpoint runScript_loop (cfg : list string) : NM (option string) :=
  match cfg with
  | [] => CommandResult
  | cmd :: cfg =>
    let cmd := TrimSpace cmd in
    if String.eqb cmd "" || HasPrefix cmd "#" then runScript_loop cfg else
    e ← CommandResult;
    match e with
    | Some _ => mret e
    | None => _ ← Command cmd; runScript_loop cfg
    end
  end.
Definition runScript (cfg : list string) : NM (option string) :=
  match cfg with [] => mret None | _ => runScript_loop cfg end.

Definition setupCli : NM (option string) :=
  n ← get;
  let testCmd := "ifconfig" in
  let expected := if nc_IsRcp (sn_cfg n) && nc_IsBorderRouter (sn_cfg n) then ["down"; "up"] else ["down"] in
  outputLines ← Command testCmd;
  e ← CommandResult;
  match e with Some _ => mret e | None =>
  r ← match outputLines with
      | [out] => mret (Some out)
      | [echo; out] =>
        if String.eqb testCmd echo then _ ← modify (set_echo true); mret (Some out) else mret None
      | _ => mret None
      end;
  match r with
  | Some out => mret (if existsb (String.eqb out) expected then None else Some "unexpected output")
  | None => mret (Some "unexpected output")
  end end.

Definition setupMode : NM () :=
  n ← get;
  let c := sn_cfg n in
  _ ← when (nc_IsRouter c) (_ ← lift (assert_true (negb (nc_IsMtd c))); lift (assert_true (negb (nc_RxOffWhenIdle c))));
  _ ← lift (assert_true (negb (nc_RxOffWhenIdle c) || nc_IsMtd c));
  if nc_IsExternal c then mret tt else
  let mode := (if negb (nc_RxOffWhenIdle c) then "r" else "") +:+ (if negb (nc_IsMtd c) then "d" else "") +:+ "n" in
  _ ← SetMode mode;
  when (negb (nc_IsRouter c) && negb (nc_IsMtd c)) RouterEligibleDisable.

Definition sendSigTerm : NM () := modify (add_out NSigTerm).
Definition initiateExit : NM () :=
  n ← get;
  if sn_isExiting n then mret tt else
  _ ← modify set_exiting;
  let exit := ok ← inputCommand "exit"; when (negb ok) sendSigTerm in
  if nc_IsExternal (sn_cfg n) then modify (add_out NDisconnectSocket)
  else if nc_IsRcp (sn_cfg n) then exit
  else if dnode_connected then exit
  else _ ← modify (add_out NNotifyCommand); sendSigTerm.
End node.

(** ** The protocol of a command *)
Section protocol.
Context {env : CliEnv}.
Implicit Types n : SimNode.

(** All lines that are to be read: those that wait, and those in the output to come. *)
Definition to_come n : list string * list Z := uart_chunks (sn_uartLine n) (sn_incoming n).
Definition stream n : list string := (sn_pendingLines n ++ (to_come n).1)%list.
(** [n] with other lines, another buffer and other output to come. *)
Definition reading (lines : list string) (buf : list Z) (inc : list (list Z)) n : SimNode :=
  set_incoming inc (sn_inputs n) (set_lines lines buf n).

Lemma reading_id n : reading (sn_pendingLines n) (sn_uartLine n) (sn_incoming n) n = n.
Proof. by destruct n. Qed.
Lemma reading_reading l b i l' b' i' n : reading l b i (reading l' b' i' n) = reading l b i n.
Proof. by destruct n. Qed.

Lemma pushLine_room line n :
  (length (sn_pendingLines n) < pendingLinesCap)%nat ->
  pushLine line n = Ok (tt, set_lines (sn_pendingLines n ++ [line]) (sn_uartLine n) n).
Proof.
  intros H. unfold pushLine, mbind, st_bind, get. rewrite bool_decide_false by lia. done.
Qed.
Lemma pushLines_room lines n :
  (length (sn_pendingLines n) + length lines <= pendingLinesCap)%nat ->
  for_each lines pushLine n = Ok (tt, set_lines (sn_pendingLines n ++ lines) (sn_uartLine n) n).
Proof.
  revert n. induction lines as [|line lines IH]; intros n H; cbn [for_each length] in *.
  - rewrite app_nil_r. by destruct n.
  - unfold mbind, st_bind. rewrite pushLine_room by lia. rewrite IH; [|simpl; rewrite length_app; simpl; lia].
    simpl. by rewrite <- app_assoc.
Qed.
Lemma processUartData_room data n :
  (length (sn_pendingLines n) + length (uart_lines (sn_uartLine n ++ data)).1 <= pendingLinesCap)%nat ->
  processUartData data n =
    Ok (tt, set_lines (sn_pendingLines n ++ (uart_lines (sn_uartLine n ++ data)).1) (uart_lines (sn_uartLine n ++ data)).2 n).
Proof.
  intros H. unfold processUartData, mbind, st_bind, get. destruct (uart_lines _) as [ls r]. simpl in *.
  unfold modify. rewrite pushLines_room; [done|exact H].
Qed.

(** Reading up to a match takes exactly the lines up to it. *)
Lemma expectLine_loop_match (m : string -> bool) fuel out n pre line post :
  stream n = (pre ++ line :: post)%list -> forallb (fun l => negb (m l)) pre = true -> m line = true ->
  (length (stream n) <= pendingLinesCap)%nat -> (length (stream n) + length (sn_incoming n) < fuel)%nat ->
  exists lines buf inc,
    expectLine_loop fuel m out n = Ok ((out ++ pre ++ [line])%list, true, reading lines buf inc n) /\
    stream (reading lines buf inc n) = post /\ (to_come (reading lines buf inc n)).2 = (to_come n).2.
Proof.
  revert out n pre. induction fuel as [|fuel IH]; intros out n pre HS Hpre Hm Hcap Hfuel; [lia|].
  cbn [expectLine_loop]. unfold takeLine. unfold mbind at 1, st_bind at 1. unfold mbind at 1, st_bind at 1, get.
  destruct (sn_pendingLines n) as [|l ls] eqn:EP.
  - unfold mret at 1, st_ret at 1. unfold handleNext, mbind, st_bind, get. unfold stream in HS. rewrite EP in HS. simpl in HS.
    destruct (sn_incoming n) as [|data later] eqn:EI.
    { unfold to_come in HS. rewrite EI in HS. simpl in HS. by destruct pre. }
    unfold modify. unfold stream, to_come in Hcap, Hfuel, HS. rewrite EP, EI in *. cbn [uart_chunks] in *.
    set (n1 := set_incoming later (sn_inputs n) n).
    assert (uart_lines (sn_uartLine n1 ++ data) = uart_lines (sn_uartLine n ++ data)) as EU by done.
    destruct (uart_lines (sn_uartLine n ++ data)) as [l1 b1] eqn:E1.
    destruct (uart_chunks b1 later) as [l2 b2] eqn:E2. cbn [fst snd app length] in *.
    rewrite processUartData_room; rewrite EU; cbn [fst snd].
    2: { simpl. rewrite EP. rewrite length_app in Hcap. simpl. lia. }
    set (n2 := set_lines _ b1 n1). assert (n2 = reading l1 b1 later n) as En2.
    { unfold n2, n1, reading. simpl. rewrite EP. by destruct n. }
    assert (stream n2 = (l1 ++ l2)%list) as HS2 by (rewrite En2; unfold stream, to_come; simpl; by rewrite E2).
    destruct (IH out n2 pre) as (lines & buf & inc & E & Hp & Hr); try done.
    { by rewrite HS2. } { by rewrite HS2. } { rewrite HS2, En2. simpl. lia. }
    assert (forall l b i, reading l b i n2 = reading l b i n) as ER by (intros; rewrite En2; apply reading_reading).
    rewrite ER in *. exists lines, buf, inc. split; [exact E|]. split; [done|].
    rewrite Hr. unfold to_come. cbn. rewrite EI. cbn [uart_chunks]. by rewrite E1, E2.
  - unfold modify, mret at 1, st_ret at 1. unfold mbind at 1, st_bind at 1. cbn beta iota.
    unfold stream in HS. rewrite EP in HS. cbn [app] in HS.
    set (n1 := set_lines ls (sn_uartLine n) n).
    assert (n1 = reading ls (sn_uartLine n) (sn_incoming n) n) as En1 by (by destruct n).
    assert (to_come n1 = to_come n) as ET by (by rewrite En1).
    destruct pre as [|p pre]; injection HS as <- HS.
    + rewrite Hm. exists ls, (sn_uartLine n), (sn_incoming n). rewrite <- En1. split; [done|].
      split; [|by rewrite ET]. unfold stream. by rewrite ET.
    + simpl in Hpre. apply andb_true_iff in Hpre as [Hl Hpre]. apply negb_true_iff in Hl. rewrite Hl.
      assert (stream n1 = (pre ++ line :: post)%list) as HS1 by (unfold stream; rewrite ET; exact HS).
      assert (length (stream n) = S (length (stream n1))) as HL.
      { unfold stream. rewrite EP, ET. done. }
      destruct (IH (out ++ [l])%list n1 pre) as (lines & buf & inc & E & Hp & Hr); try done; try lia.
      { simpl. lia. }
      assert (forall l b i, reading l b i n1 = reading l b i n) as ER by (intros; rewrite En1; apply reading_reading).
      rewrite ER in *. rewrite <- !app_assoc in E. exists lines, buf, inc. split; [exact E|]. split; [done|]. by rewrite Hr.
Qed.

Lemma expectLine_match (m : string -> bool) n pre line post :
  stream n = (pre ++ line :: post)%list -> forallb (fun l => negb (m l)) pre = true -> m line = true ->
  (length (stream n) <= pendingLinesCap)%nat ->
  exists lines buf inc,
    expectLine m n = Ok ((pre ++ [line])%list, true, reading lines buf inc n) /\
    stream (reading lines buf inc n) = post /\ (to_come (reading lines buf inc n)).2 = (to_come n).2.
Proof.
  intros HS Hpre Hm Hcap. unfold expectLine, mbind, st_bind, get. apply (expectLine_loop_match m _ [] n pre line post); try done.
  unfold expect_fuel, stream, to_come. pose proof (uart_chunks_length (sn_uartLine n) (sn_incoming n)).
  rewrite length_app. lia.
Qed.

(** Nothing is to be read. *)
Definition quiet n : Prop := stream n = [] /\ (to_come n).2 = [].

(** The command is written and its echo, if there is one, is read. *)
Lemma startCommand_ok cmd chunks lines n :
  quiet n -> sn_uartType n <> nodeUartTypeUndefined -> cli_reply (sn_inputs n) cmd = Some chunks ->
  uart_chunks [] chunks = (((if sn_uartHasEcho n then [cmd] else []) ++ lines)%list, []) ->
  (S (length lines) <= pendingLinesCap)%nat ->
  exists n', startCommand cmd n = Ok (true, n') /\ stream n' = lines /\ (to_come n').2 = [] /\ sn_cmdErr n' = None /\
    sn_cfg n' = sn_cfg n /\ sn_uartType n' = sn_uartType n /\ sn_uartHasEcho n' = sn_uartHasEcho n.
Proof.
  intros [Q1 Q2] Hty Hr HU Hcap. unfold startCommand. unfold mbind at 1, st_bind at 1.
  assert (exists n1, inputCommand cmd n = Ok (true, n1) /\ sn_pendingLines n1 = sn_pendingLines n /\
    sn_uartLine n1 = sn_uartLine n /\ sn_incoming n1 = (sn_incoming n ++ chunks)%list /\ sn_cmdErr n1 = None /\
    sn_cfg n1 = sn_cfg n /\ sn_uartType n1 = sn_uartType n /\ sn_uartHasEcho n1 = sn_uartHasEcho n)
    as (n1 & E1 & F1 & F2 & F3 & F4 & F5 & F6 & F7).
  { unfold inputCommand, mbind, st_bind, get, modify. rewrite Hr.
    destruct (sn_uartType n) eqn:ET; [done|..]; eexists; (split; [reflexivity|]); by repeat split. }
  rewrite E1. cbn [negb].
  assert (to_come n1 = (((if sn_uartHasEcho n then [cmd] else []) ++ lines)%list, [])) as HT.
  { unfold to_come. rewrite F2, F3, uart_chunks_app. unfold stream, to_come in Q1, Q2.
    destruct (uart_chunks (sn_uartLine n) (sn_incoming n)) as [l1 b1]. simpl in *. subst b1.
    apply app_eq_nil in Q1 as [_ ->]. by rewrite HU. }
  assert (stream n1 = ((if sn_uartHasEcho n then [cmd] else []) ++ lines)%list) as HS.
  { unfold stream. rewrite HT, F1. unfold stream in Q1. by apply app_eq_nil in Q1 as [-> _]. }
  unfold mbind, st_bind, get. rewrite F7. destruct (sn_uartHasEcho n).
  - destruct (expectLine_match (String.eqb cmd) n1 [] cmd lines) as (ls & buf & inc & E & Hp & Hb); try done.
    + apply String.eqb_refl.
    + rewrite HS. exact Hcap.
    + rewrite E. eexists. split; [reflexivity|]. rewrite Hb, HT. by repeat split.
  - eexists. split; [reflexivity|]. rewrite HS, HT. by repeat split.
Qed.

Lemma Command_run cmd chunks out result n :
  quiet n -> sn_uartType n <> nodeUartTypeUndefined -> cli_reply (sn_inputs n) cmd = Some chunks ->
  uart_chunks [] chunks = (((if sn_uartHasEcho n then [cmd] else []) ++ out ++ [result])%list, []) ->
  (S (S (length out)) <= pendingLinesCap)%nat ->
  forallb (fun l => negb (doneOrError l)) out = true -> doneOrError result = true ->
  exists n', Command cmd n = Ok (out, n') /\ quiet n' /\
    sn_cmdErr n' = (if String.eqb (TrimSpace result) "Done" then None else Some (TrimSpace result)) /\
    sn_cfg n' = sn_cfg n /\ sn_uartType n' = sn_uartType n /\ sn_uartHasEcho n' = sn_uartHasEcho n.
Proof.
  intros HQ Hty Hr HU Hcap Hout Hres. unfold Command. unfold mbind at 1, st_bind at 1.
  destruct (startCommand_ok cmd chunks (out ++ [result])%list n) as (n1 & -> & HS & HB & HE & HC & HT & HH); try done.
  { rewrite length_app. simpl. lia. }
  cbn [negb]. unfold mbind at 1, st_bind at 1.
  destruct (expectLine_match doneOrError n1 out result []) as (ls & buf & inc & -> & Hp & Hb); try done.
  { rewrite HS, length_app. simpl. lia. }
  cbn [negb]. set (n2 := reading ls buf inc n1) in *. rewrite last_snoc. cbn [assert_not_nil].
  unfold mbind, st_bind, lift.
  replace (take (length (out ++ [result]) - 1) (out ++ [result]))%list with out
    by (rewrite length_app, Nat.add_sub, take_app_length; done).
  assert (forall e, quiet (set_cmdErr e n2)) as HQ2 by (intros e; split; [exact Hp|]; rewrite <- HB; exact Hb).
  destruct (String.eqb (TrimSpace result) "Done") eqn:ED; cbn [negb when error].
  - exists n2. split; [done|]. split; [exact (HQ2 (sn_cmdErr n2))|]. split; [exact HE|]. by repeat split.
  - eexists. split; [reflexivity|]. split; [apply HQ2|]. by repeat split.
Qed.
End protocol.

(** C21: The protocol of a command.  A node that is quiet is given a command and prints, in
    any pieces and with any prompts, the echo if it echoes, some lines, and a line that ends
    the command: then the command returns exactly these lines, the node is quiet again, and
    the result is no error for [Done] and the text of the error line otherwise. *)
Theorem Command_protocol `{env : CliEnv} n cmd chunks texts prompts out result :
  quiet n -> sn_uartType n <> nodeUartTypeUndefined ->
  cli_reply (sn_inputs n) cmd = Some chunks -> concat chunks = print_text texts prompts ->
  Forall (fun x => plain_line x.2) texts ->
  map (fun x => string_of_bytes x.2) texts = ((if sn_uartHasEcho n then [cmd] else []) ++ out ++ [result])%list ->
  (length texts < pendingLinesCap)%nat ->
  forallb (fun l => negb (doneOrError l)) out = true -> doneOrError result = true ->
  exists n', Command cmd n = Ok (out, n') /\ quiet n' /\
    sn_cmdErr n' = (if String.eqb (TrimSpace result) "Done" then None else Some (TrimSpace result)).
Proof.
  intros HQ Hty Hr Ht Hpl Hm Hcap Hout Hres.
  assert (uart_chunks [] chunks = (((if sn_uartHasEcho n then [cmd] else []) ++ out ++ [result])%list, [])) as HU.
  { rewrite uart_chunks_concat, Ht by done. rewrite app_nil_l, uart_lines_text by done. by rewrite Hm. }
  assert (S (S (length out)) <= pendingLinesCap)%nat as HL.
  { apply (f_equal length) in Hm. rewrite length_map, !length_app in Hm. simpl in Hm. destruct (sn_uartHasEcho n); simpl in Hm; lia. }
  destruct (Command_run cmd chunks out result n) as (n' & E & Q & HE & _); try done. by exists n'.
Qed.

(** ** An example: a node that echoes *)
Definition txt (s : string) : list Z := bytes_of_string s.
Definition ex_texts (last : string) : list (nat * list Z) :=
  [(0%nat, txt "rloc16"); (0%nat, txt "0xfc00"); (0%nat, txt last)].
(** The answer in pieces of 5 bytes. *)
Fixpoint pieces (fuel : nat) (b : list Z) : list (list Z) :=
  match fuel with O => [] | S fuel => match b with [] => [] | _ => take 5 b :: pieces fuel (drop 5 b) end end.
Definition ex_cli (last : string) : CliEnv := {|
  cli_reply _ _ := Some (pieces 100 (print_text (ex_texts last) 1)); rfsim_reply _ _ _ _ := None;
  in_node_context := false; dnode_connected := true |}.
Definition ex_node : SimNode :=
  mkSimNode 1 DefaultNodeConfig None "" 0 false false ∅ [] [] [] nodeUartTypeVirtualTime true [] 0 [].
Definition plainb (l : list Z) : bool :=
  forallb (fun b => negb (b =? 10) && negb (b =? 13)) l && negb (has_prompt (l ++ [13; 10])).
Lemma plainb_ok l : plainb l = true -> plain_line l.
Proof.
  unfold plainb. intros [HF HP%negb_true_iff]%andb_true_iff. split; [|done]. intros b Hb%list_elem_of_In.
  rewrite forallb_forall in HF. specialize (HF b Hb). apply andb_true_iff in HF as [? ?]. lia.
Qed.
Lemma Command_protocol_witness :
  exists n', Command (env := ex_cli "Done") "rloc16" ex_node = Ok (["0xfc00"], n') /\ quiet n' /\ sn_cmdErr n' = None.
Proof.
  apply (Command_protocol (env := ex_cli "Done") ex_node "rloc16" (pieces 100 (print_text (ex_texts "Done") 1))
    (ex_texts "Done") 1 ["0xfc00"] "Done").
  - by split.
  - done.
  - reflexivity.
  - vm_compute. reflexivity.
  - unfold ex_texts. rewrite !Forall_cons, Forall_nil. split_and!; [by apply plainb_ok..|done].
  - vm_compute. reflexivity.
  - unfold pendingLinesCap. simpl. lia.
  - reflexivity.
  - reflexivity.
Defined.

(** A command that fails takes the simulator down with it when a hexadecimal number was
    expected: the error is recorded, but the empty text that stands for the missing answer is
    sliced beyond its end. *)
Theorem GetRloc16_panics `{env : CliEnv} n chunks result :
  quiet n -> sn_uartType n <> nodeUartTypeUndefined -> sn_uartHasEcho n = false ->
  cli_reply (sn_inputs n) "rloc16" = Some chunks -> uart_chunks [] chunks = ([result], []) ->
  doneOrError result = true ->
  GetRloc16 n = Panic IndexOutOfRange.
Proof.
  intros HQ Hty He Hr HU Hres. unfold GetRloc16, CommandExpectHex, CommandExpectString, mbind, st_bind.
  destruct (Command_run "rloc16" chunks [] result n) as (n' & -> & _); try done.
  - by rewrite He.
  - unfold pendingLinesCap. simpl. lia.
Qed.
Definition ex_error_cli : CliEnv := {|
  cli_reply _ _ := Some [txt "Error 35: "; txt "InvalidCommand"; [13; 10; 62; 32]]; rfsim_reply _ _ _ _ := None;
  in_node_context := false; dnode_connected := true |}.
Lemma GetRloc16_panics_witness : GetRloc16 (env := ex_error_cli) (set_echo false ex_node) = Panic IndexOutOfRange.
Proof.
  apply (GetRloc16_panics (env := ex_error_cli) (set_echo false ex_node)
    [txt "Error 35: "; txt "InvalidCommand"; [13; 10; 62; 32]] "Error 35: InvalidCommand").
  - by split.
  - done.
  - done.
  - reflexivity.
  - vm_compute. reflexivity.
  - vm_compute. reflexivity.
Defined.
