(* ===== verification/Simulation.v ===== *)
(** * The simulation object

    Two parts of src/simulation/simulation.go: the choice of an id for a new node, and
    autogo, the flag that lets the simulation run on its own.  Autogo is set by the goroutine
    of the dispatcher and obeyed by another one; they share a channel that holds one value,
    so their steps are a relation on the state. *)

From S2P Require Import Prelude Types.

Local Open Scope Z_scope.

(** ** Node ids *)
Section ids.
(** The ids in use: by nodes of the simulation and by nodes of the dispatcher. *)
Context (nodes dnodes : gset NodeId).

Fixpoint genNodeId_loop (fuel : nat) (nodeid : NodeId) : res NodeId :=
  match fuel with
  | O => Panic OutOfFuel
  | S fuel => if bool_decide (nodeid ∈ nodes) || bool_decide (nodeid ∈ dnodes) then genNodeId_loop fuel (nodeid + 1)
              else Ok nodeid
  end.
(** One turn for every id in use, and one for the id that is found. *)
Definition genNodeId : res NodeId := genNodeId_loop (S (size (nodes ∪ dnodes))) 1.

Lemma genNodeId_loop_spec fuel id :
  (forall k, 1 <= k < id -> k ∈ nodes ∪ dnodes) ->
  match genNodeId_loop fuel id with
  | Ok r => id <= r /\ (r ∉ nodes ∪ dnodes) /\ forall k, 1 <= k < r -> k ∈ nodes ∪ dnodes
  | Panic _ => forall k, 1 <= k < id + Z.of_nat fuel -> k ∈ nodes ∪ dnodes
  end.
Proof.
  revert id. induction fuel as [|fuel IH]; intros id H; cbn [genNodeId_loop].
  - intros k Hk. apply H. lia.
  - destruct (decide (id ∈ nodes ∪ dnodes)) as [Hin|Hout].
    + assert (bool_decide (id ∈ nodes) || bool_decide (id ∈ dnodes) = true) as ->.
      { apply orb_true_iff. rewrite !bool_decide_eq_true. set_solver. }
      specialize (IH (id + 1)). destruct (genNodeId_loop fuel (id + 1)) as [r|].
      * destruct IH as (? & ? & ?); [|split; [lia|done]]. intros k Hk. destruct (decide (k = id)) as [->|]; [done|]. apply H. lia.
      * intros k Hk. apply IH; [|lia]. intros j Hj. destruct (decide (j = id)) as [->|]; [done|]. apply H. lia.
    + rewrite !bool_decide_false by set_solver. done.
Qed.
(** More ids than there are in use cannot all be in use. *)
Lemma ids_bound (X : gset Z) (n : nat) : (forall k, 1 <= k < 1 + Z.of_nat n -> k ∈ X) -> (n <= size X)%nat.
Proof.
  intros H. assert (list_to_set (seqZ 1 (Z.of_nat n)) ⊆ X) as HS.
  { intros k Hk. apply elem_of_list_to_set, elem_of_seqZ in Hk. apply H. lia. }
  apply subseteq_size in HS. rewrite size_list_to_set in HS by apply NoDup_seqZ. by rewrite length_seqZ, Nat2Z.id in HS.
Qed.
End ids.

(** C36: The search for a node id ends, and finds the smallest positive id that neither the
    simulation nor the dispatcher uses. *)
Theorem genNodeId_least nodes dnodes :
  exists id, genNodeId nodes dnodes = Ok id /\ 1 <= id /\ (id ∉ nodes) /\ (id ∉ dnodes) /\
    forall k, 1 <= k < id -> k ∈ nodes \/ k ∈ dnodes.
Proof.
  unfold genNodeId. pose proof (genNodeId_loop_spec nodes dnodes (S (size (nodes ∪ dnodes))) 1) as H.
  destruct (genNodeId_loop _ _ _ 1) as [r|]; specialize (H ltac:(lia)).
  - destruct H as (H1 & H2 & H3). exists r. split; [done|]. split; [lia|]. split; [set_solver|]. split; [set_solver|].
    intros k Hk. specialize (H3 k Hk). set_solver.
  - apply ids_bound in H. lia.
Qed.

Definition MaxNodeId (nodes : list NodeId) : NodeId :=
  foldl (fun m nid => if (nid >? m) || (m =? 0) then nid else m) 0 nodes.

(** ** Autogo *)
Record AutoGo := mkAutoGo {
  ag_Realtime : bool;
  ag_autoGo : bool;
  ag_isFirstNodeAdded : bool;
  (** the channel [autoGoChange], which holds one value *)
  ag_autoGoChange : option bool;
  (** whether the goroutine is in its second loop, where it runs the simulation *)
  ag_running : bool;
}.
Definition NewAutoGo (realtime cfgAutoGo : bool) : AutoGo :=
  mkAutoGo realtime (cfgAutoGo || realtime) false None false.

(** The select of [signalAutoGo]: send when the channel is empty, otherwise drop what it
    holds and try again. *)
Fixpoint signalAutoGo (fuel : nat) (isAuto : bool) (s : AutoGo) : res AutoGo :=
  match fuel with
  | O => Panic OutOfFuel
  | S fuel =>
    match ag_autoGoChange s with
    | None => Ok (mkAutoGo (ag_Realtime s) (ag_autoGo s) (ag_isFirstNodeAdded s) (Some isAuto) (ag_running s))
    | Some _ => signalAutoGo fuel isAuto
        (mkAutoGo (ag_Realtime s) (ag_autoGo s) (ag_isFirstNodeAdded s) None (ag_running s))
    end
  end.

Definition SetAutoGo (isAuto : bool) (s : AutoGo) : res AutoGo :=
  if ag_Realtime s then _ ← assert_true isAuto; Ok s
  else if negb (Bool.eqb (ag_autoGo s) isAuto) then
    let s := mkAutoGo (ag_Realtime s) isAuto (ag_isFirstNodeAdded s) (ag_autoGoChange s) (ag_running s) in
    if ag_isFirstNodeAdded s then signalAutoGo 2 isAuto s else Ok s
  else Ok s.

(** The end of [AddNode] *)
Definition firstNodeAdded (s : AutoGo) : res AutoGo :=
  if ag_isFirstNodeAdded s then Ok s else
  s ← (if ag_autoGo s then signalAutoGo 2 true s else Ok s);
  Ok (mkAutoGo (ag_Realtime s) (ag_autoGo s) true (ag_autoGoChange s) (ag_running s)).

(** One turn of [AutoGoRoutine]: it takes a value from the channel; without one it waits in
    the first loop and simulates a second in the second loop. *)
Definition autoGoTurn (s : AutoGo) : AutoGo * bool :=
  let next running := mkAutoGo (ag_Realtime s) (ag_autoGo s) (ag_isFirstNodeAdded s) None running in
  match ag_autoGoChange s with
  | Some isAutoGo =>
    if ag_running s then (next isAutoGo, false) else (next (isAutoGo && negb (ag_Realtime s)), false)
  | None => (s, ag_running s)
  end.

Inductive ag_step : AutoGo -> AutoGo -> Prop :=
| ag_set b s s' : SetAutoGo b s = Ok s' -> ag_step s s'
| ag_first s s' : firstNodeAdded s = Ok s' -> ag_step s s'
| ag_turn s : ag_step s (autoGoTurn s).1.
Inductive ag_reachable (realtime cfg : bool) : AutoGo -> Prop :=
| agr_new : ag_reachable realtime cfg (NewAutoGo realtime cfg)
| agr_step s s' : ag_reachable realtime cfg s -> ag_step s s' -> ag_reachable realtime cfg s'.

(** The channel holds the newest value; without one the goroutine does what the flag says. *)
Definition ag_inv (s : AutoGo) : Prop :=
  ag_Realtime s = false /\
  (ag_isFirstNodeAdded s = false -> ag_autoGoChange s = None /\ ag_running s = false) /\
  (ag_isFirstNodeAdded s = true ->
     match ag_autoGoChange s with Some b => b = ag_autoGo s | None => ag_running s = ag_autoGo s end).
Lemma signalAutoGo_ok b s :
  signalAutoGo 2 b s = Ok (mkAutoGo (ag_Realtime s) (ag_autoGo s) (ag_isFirstNodeAdded s) (Some b) (ag_running s)).
Proof. cbn [signalAutoGo]. by destruct (ag_autoGoChange s). Qed.
Lemma ag_inv_step s s' : ag_inv s -> ag_step s s' -> ag_inv s'.
Proof.
  intros (HR & H0 & H1). destruct 1 as [b s s' E|s s' E|s].
  - unfold SetAutoGo in E. rewrite HR in E. destruct (Bool.eqb_spec (ag_autoGo s) b); cbn [negb ag_isFirstNodeAdded] in E;
      [by injection E as <-|].
    destruct (ag_isFirstNodeAdded s) eqn:HF.
    + rewrite signalAutoGo_ok in E. injection E as <-. by repeat split; simpl; try congruence.
    + injection E as <-. split; [done|]. split; [by intros _; apply H0|]. simpl. congruence.
  - unfold firstNodeAdded in E. destruct (ag_isFirstNodeAdded s) eqn:HF; [injection E as <-; split; [done|]; split; [congruence|]; by intros _; apply H1|].
    destruct (H0 eq_refl) as [HC Hr]. destruct (ag_autoGo s) eqn:HA.
    + rewrite signalAutoGo_ok in E. injection E as <-. by repeat split; simpl; try congruence.
    + injection E as <-. split; [done|]. split; [done|]. intros _. simpl. by rewrite HC, HA.
  - unfold autoGoTurn. destruct (ag_autoGoChange s) as [b|] eqn:HC in |- *; [|exact (conj HR (conj H0 H1))].
    split; [by destruct (ag_running s)|]. split; intros HF.
    + assert (ag_isFirstNodeAdded s = false) as HF' by (by destruct (ag_running s)). destruct (H0 HF'); congruence.
    + assert (ag_isFirstNodeAdded s = true) as HF' by (by destruct (ag_running s)). specialize (H1 HF'). rewrite HC in H1.
      subst b. destruct (ag_running s); simpl; [done|]. by rewrite HR, andb_true_r.
Qed.


(** Autogo is switched off and on again before the goroutine has a turn. *)
Definition ex_autogo : AutoGo := mkAutoGo false true true (Some true) true.
