(* ===== verification/Logger.v ===== *)
(** * Logging

    Two files of src/logger.  parse.go: the names of log levels, and what is read off the
    log lines of nodes.  nodelogger.go: the log of a node, a queue of entries that are
    written to the node's log file and displayed when the simulation says so.

    Whether a file can be opened and whether a write succeeds is a parameter.  Messages are
    formatted already; the time of day in a file header is left out. *)

From S2P Require Import Prelude State Types GoStrings GoText.
From Stdlib Require Import Ascii.

Local Open Scope string_scope.
Local Open Scope Z_scope.

(** ** Levels *)
Definition MicroLevel : Z := 7.
Definition TraceLevel : Z := 6.
Definition DebugLevel : Z := 5.
Definition InfoLevel : Z := 4.
Definition NoteLevel : Z := 3.
Definition WarnLevel : Z := 2.
Definition ErrorLevel : Z := 1.
Definition PanicLevel : Z := 0.
Definition FatalLevel : Z := -1.
Definition DefaultLevel : Z := InfoLevel.
Definition OffLevel : Z := PanicLevel.

Definition one_of (s : string) (l : list string) : bool := existsb (String.eqb s) l.

(** The level, and whether the name is invalid. *)
Definition ParseLevelString (level : string) : Z * bool :=
  if one_of level ["micro"] then (MicroLevel, false)
  else if one_of level ["trace"; "T"] then (TraceLevel, false)
  else if one_of level ["debug"; "D"] then (DebugLevel, false)
  else if one_of level ["info"; "I"] then (InfoLevel, false)
  else if one_of level ["note"; "N"] then (NoteLevel, false)
  else if one_of level ["warn"; "warning"; "W"] then (WarnLevel, false)
  else if one_of level ["crit"; "critical"; "error"; "err"; "C"; "E"] then (ErrorLevel, false)
  else if one_of level ["off"; "none"] then (PanicLevel, false)
  else if one_of level ["default"; "def"] then (DefaultLevel, false)
  else (DefaultLevel, true).

Definition GetLevelString (level : Z) : res string :=
  if level =? MicroLevel then Ok "micro"
  else if level =? TraceLevel then Ok "trace"
  else if level =? DebugLevel then Ok "debug"
  else if level =? InfoLevel then Ok "info"
  else if level =? NoteLevel then Ok "note"
  else if level =? WarnLevel then Ok "warn"
  else if level =? ErrorLevel then Ok "crit"
  else if level =? OffLevel then Ok "off"
  else Panic Panicf.

Definition parseOtLevelChar (level : ascii) : Z :=
  if Ascii.eqb level "T" then TraceLevel
  else if Ascii.eqb level "D" then DebugLevel
  else if Ascii.eqb level "I" then InfoLevel
  else if Ascii.eqb level "N" then NoteLevel
  else if Ascii.eqb level "W" then WarnLevel
  else if Ascii.eqb level "C" then ErrorLevel
  else DefaultLevel.

(** ** Log lines of nodes *)
Definition level_tags : list string := ["-"; "C"; "W"; "N"; "I"; "D"; "T"; "CRIT"; "WARN"; "NOTE"; "INFO"; "DEBG"].
(** [logPattern]: the first character of the leftmost label in brackets. *)
Definition level_label (s : string) : option ascii :=
  match List.find (fun t => HasPrefix s ("[" +:+ t +:+ "]")) level_tags with
  | Some (String c _) => Some c
  | _ => None
  end.
Fixpoint find_label (line : string) : option ascii :=
  match level_label line with
  | Some c => Some c
  | None => match line with EmptyString => None | String _ line => find_label line end
  end.
Definition ParseOtLogLine (line : string) : bool * Z :=
  match find_label line with
  | None => (false, OffLevel)
  | Some c => (true, parseOtLevelChar c)
  end.

(** [otnsStatusPushLogPattern] at the start of [s]: the label, dashes, a colon and a space,
    and the rest of the line. *)
Definition status_push (s : string) : option string :=
  if HasPrefix s "[-] Otns" then
    let t := String.list_ascii_of_string (substr_from 8 s) in
    let r := drop_while (Ascii.eqb "-") t in
    let r' := String.string_of_list_ascii r in
    if bool_decide (length r < length t)%nat && HasPrefix r' ": " &&
       bool_decide (("010"%char : ascii) ∉ r) then Some (substr_from 2 r') else None
  else None.
Fixpoint find_push (line : string) : option string :=
  match status_push line with
  | Some m => Some m
  | None => match line with EmptyString => None | String _ line => find_push line end
  end.
Definition ParseOtnsStatusPush (line : string) : bool * string :=
  match find_push line with Some m => (true, m) | None => (false, "") end.

(** [syslogPrefixPattern]: characters that are no space, a number in brackets, a colon and a
    space.  The match reaches up to the first space of the line. *)
Definition not_space (c : ascii) : bool :=
  let k := N_of_ascii c in negb ((k =? 9)%N || (k =? 10)%N || (k =? 12)%N || (k =? 13)%N || (k =? 32)%N).
Fixpoint take_while (p : ascii -> bool) (l : list ascii) : list ascii :=
  match l with
  | [] => []
  | c :: l => if p c then c :: take_while p l else []
  end.
Definition is_dec (c : ascii) : bool := let k := N_of_ascii c in ((48 <=? k)%N && (k <=? 57)%N).
Definition ParseSyslogPrefix (line : string) : string :=
  let l := String.list_ascii_of_string line in
  let w := take_while not_space l in
  match drop (length w) l, rev w with
  | sp :: _, c1 :: c2 :: r =>
    let r' := drop_while is_dec r in
    if Ascii.eqb sp " " && Ascii.eqb c1 ":" && Ascii.eqb c2 "]" && bool_decide (length r' < length r)%nat then
      match r' with
      | b :: _ :: _ => if Ascii.eqb b "[" then String.string_of_list_ascii (w ++ [sp])%list else ""
      | _ => ""
      end
    else ""
  | _, _ => ""
  end.

Definition StdOtLogMarker : string := ": ".
Definition AltOtLogMarker : string := "| ".
Definition setAlternativeOtLogMarker (levelAndMsg : string) : string :=
  match Index levelAndMsg StdOtLogMarker with
  | Some idx =>
    if bool_decide (31 <= idx)%nat then
      String.substring 0 idx levelAndMsg +:+ AltOtLogMarker +:+ substr_from (idx + String.length StdOtLogMarker) levelAndMsg
    else levelAndMsg
  | None => levelAndMsg
  end.

Example syslog_ex : map ParseSyslogPrefix
    ["./ot-rfsim/ot-versions/ot-cli[119560]: Running OPENTHREAD"; "ot-cli[1]: Thread version: 5";
     "00:00:00.000 [D] Platform------: Clear ShortAddr entries"; ""; "[1]: x"; "a[1]:"] =
  ["./ot-rfsim/ot-versions/ot-cli[119560]: "; "ot-cli[1]: "; ""; ""; ""; ""].
Proof. reflexivity. Qed.
Example log_line_ex : map ParseOtLogLine
    ["00:00:12.894 [D] SubMac--------: RadioState"; "[NOTE]-AGENT---: Thread version: 1.4.0";
     "00:00:00.035 [-] Otns----------: transmit=11,d841,179,ffff"; "not a log line"; "[x] [CRIT]"] =
  [(true, DebugLevel); (true, NoteLevel); (true, DefaultLevel); (false, OffLevel); (true, ErrorLevel)].
Proof. reflexivity. Qed.
Example push_ex : map ParseOtnsStatusPush
    ["00:00:02.233 [-] Otns----------: transmit=11,d841,121,ffff"; "[-] Otns: x"; "[-] Mle---: x"; "[-] Otns-: "] =
  [(true, "transmit=11,d841,121,ffff"); (false, ""); (false, ""); (true, "")].
Proof. reflexivity. Qed.

(** ** The log of a node *)

(** What leaves: lines to the log file, entries displayed. *)
Inductive LogOut :=
| LFile (line : string)
| LDisplay (level : Z) (line : string).

Record NodeLogger := mkNodeLogger {
  nl_Id : NodeId;
  nl_fileLevel : Z;
  nl_displayLevel : Z;
  (** whether the file is open ([logFile != nil]) *)
  nl_logFile : bool;
  nl_logFileName : string;
  nl_isFileEnabled : bool;
  (** the channel of entries: level and message *)
  nl_entries : list (Z * string);
  nl_timestampUs : Z;
  (** calls to the operating system so far, and what was written *)
  nl_calls : nat;
  nl_out : list LogOut;
}.
Definition set_levels (f d : Z) (l : NodeLogger) : NodeLogger :=
  mkNodeLogger (nl_Id l) f d (nl_logFile l) (nl_logFileName l) (nl_isFileEnabled l) (nl_entries l) (nl_timestampUs l)
    (nl_calls l) (nl_out l).
Definition set_file (isopen enabled : bool) (l : NodeLogger) : NodeLogger :=
  mkNodeLogger (nl_Id l) (nl_fileLevel l) (nl_displayLevel l) isopen (nl_logFileName l) enabled (nl_entries l)
    (nl_timestampUs l) (nl_calls l) (nl_out l).
Definition set_entries (es : list (Z * string)) (l : NodeLogger) : NodeLogger :=
  mkNodeLogger (nl_Id l) (nl_fileLevel l) (nl_displayLevel l) (nl_logFile l) (nl_logFileName l) (nl_isFileEnabled l) es
    (nl_timestampUs l) (nl_calls l) (nl_out l).
Definition set_ts (ts : Z) (l : NodeLogger) : NodeLogger :=
  mkNodeLogger (nl_Id l) (nl_fileLevel l) (nl_displayLevel l) (nl_logFile l) (nl_logFileName l) (nl_isFileEnabled l)
    (nl_entries l) ts (nl_calls l) (nl_out l).
Definition add_call (l : NodeLogger) : NodeLogger :=
  mkNodeLogger (nl_Id l) (nl_fileLevel l) (nl_displayLevel l) (nl_logFile l) (nl_logFileName l) (nl_isFileEnabled l)
    (nl_entries l) (nl_timestampUs l) (S (nl_calls l)) (nl_out l).
Definition add_log (o : LogOut) (l : NodeLogger) : NodeLogger :=
  mkNodeLogger (nl_Id l) (nl_fileLevel l) (nl_displayLevel l) (nl_logFile l) (nl_logFileName l) (nl_isFileEnabled l)
    (nl_entries l) (nl_timestampUs l) (nl_calls l) (nl_out l ++ [o]).

(** [fmt.Sprintf("%11d ", ts)] *)
Definition pad (width : nat) (s : string) : string :=
  String.string_of_list_ascii (replicate (width - String.length s) " "%char ++ String.list_ascii_of_string s)%list.
Definition tsStr (ts : Z) : string := pad 11 (Itoa ts) +:+ " ".
(** The line without a newline at its end. *)
Definition newline : ascii := "010"%char.
Definition chop_newline (s : string) : string :=
  match rev (String.list_ascii_of_string s) with
  | c :: r => if Ascii.eqb c newline then String.string_of_list_ascii (rev r) else s
  | [] => s
  end.

Class LogEnv := {
  (** whether the [n]-th call (open or write) succeeds *)
  log_ok : nat -> bool;
  (** the time of day, in the header of a file *)
  log_created : string;
}.

Section logger.
Context {env : LogEnv}.
Abbreviation LM := (st NodeLogger) (only parsing).

Definition os_call : LM bool := fun l => Ok (log_ok (nl_calls l), add_call l).
Definition entriesCap : nat := Z.to_nat 1000.

(** [NodeLogf], [DisplayPendingLogEntries], [Close] and [writeToLogFile] call each other. *)
Inductive LogCall :=
| CNodeLogf (level : Z) (msg : string)
| CDisplayLoop (ts : Z)
| CClose
| CWrite (line : string).

Definition closing_msg : string := "Closing log file.".
Fixpoint log_call (fuel : nat) (c : LogCall) : LM () :=
  match fuel with
  | O => panics OutOfFuel
  | S fuel =>
    l ← get;
    match c with
    | CNodeLogf level msg =>
      if (level >? nl_fileLevel l) && (level >? nl_displayLevel l) then mret tt else
      _ ← when (bool_decide (entriesCap <= length (nl_entries l))%nat) (log_call fuel (CDisplayLoop (nl_timestampUs l)));
      l ← get;
      (* the channel is full again: the send blocks for ever *)
      if bool_decide (entriesCap <= length (nl_entries l))%nat then panics Blocked else
      modify (fun l => set_entries (nl_entries l ++ [(level, msg)]) l)
    | CDisplayLoop ts =>
      match nl_entries l with
      | [] => mret tt
      | (level, msg) :: es =>
        _ ← modify (set_entries es);
        let isSaveEntry := nl_fileLevel l >=? level in
        let isDisplayEntry := nl_displayLevel l >=? level in
        let logStr := tsStr ts +:+ msg in
        _ ← when ((isDisplayEntry || isSaveEntry) && nl_isFileEnabled l) (log_call fuel (CWrite (chop_newline logStr)));
        _ ← when isDisplayEntry (modify (add_log (LDisplay level (GetNodeName (nl_Id l) +:+ logStr))));
        log_call fuel (CDisplayLoop ts)
      end
    | CClose =>
      if nl_logFile l then
        _ ← log_call fuel (CNodeLogf DebugLevel closing_msg);
        l ← get;
        _ ← log_call fuel (CDisplayLoop (nl_timestampUs l));
        modify (fun l => set_file false (nl_isFileEnabled l) l)
      else mret tt
    | CWrite line =>
      (* writing to a file that is not open fails *)
      ok ← (if nl_logFile l then os_call else mret false);
      if (ok : bool) then modify (add_log (LFile line)) else
      _ ← log_call fuel CClose;
      _ ← modify (fun l => set_file (nl_logFile l) false l);
      log_call fuel (CNodeLogf ErrorLevel
        ("couldn't write to node log file (" +:+ nl_logFileName l +:+ "), closing it"))
    end
  end.

Definition NodeLogf (fuel : nat) (level : Z) (msg : string) : LM () := log_call fuel (CNodeLogf level msg).
Definition DisplayPendingLogEntries (fuel : nat) (ts : Z) : LM () :=
  _ ← modify (set_ts ts); log_call fuel (CDisplayLoop ts).
Definition Close (fuel : nat) : LM () := log_call fuel CClose.
Definition writeToLogFile (fuel : nat) (line : string) : LM () := log_call fuel (CWrite line).

Definition SetFileLevel (level : Z) : LM () := modify (fun l => set_levels level (nl_displayLevel l) l).
Definition SetDisplayLevel (level : Z) : LM () := modify (fun l => set_levels (nl_fileLevel l) level l).
Definition IsLevelVisible (level : Z) (l : NodeLogger) : bool := nl_displayLevel l >=? level.
Definition LogOt (fuel : nat) (levelAndMsg : string) (alternateMarker : bool) : LM () :=
  let '(isOtLogLine, level) := ParseOtLogLine levelAndMsg in
  let levelAndMsg := if alternateMarker && isOtLogLine then setAlternativeOtLogMarker levelAndMsg else levelAndMsg in
  NodeLogf fuel (if isOtLogLine then level else InfoLevel) levelAndMsg.

Definition nlc : string := String newline "".
Definition header_line (id : NodeId) : string :=
  "#" +:+ nlc +:+ "# OpenThread node log for " +:+ GetNodeName id +:+ " Created " +:+ log_created +:+ nlc +:+
  "# SimTimeUs NodeTime     Lev LogModule       Message".
(** [createLogFile] and [openLogFile] after their assertion; they differ in their texts. *)
Definition start_file (verb done : string) (fuel : nat) : LM () :=
  l ← get;
  ok ← os_call;
  if (ok : bool) then
    _ ← modify (fun l => set_file true (nl_isFileEnabled l) l);
    _ ← writeToLogFile fuel (header_line (nl_Id l));
    NodeLogf fuel DebugLevel ("Node log file '" +:+ nl_logFileName l +:+ "' " +:+ done +:+ ".")
  else
    _ ← modify (fun l => set_file false (nl_isFileEnabled l) l);
    _ ← NodeLogf fuel ErrorLevel (verb +:+ " node log file " +:+ nl_logFileName l +:+ " failed: ");
    modify (fun l => set_file false false l).
Definition createLogFile : nat -> LM () := start_file "creating" "created".
Definition openLogFile (fuel : nat) : LM () :=
  l ← get; _ ← lift (assert_true (negb (nl_logFile l))); start_file "opening" "opened" fuel.

Definition getLogFileName (outputPath : string) (simId : Z) (nodeId : NodeId) : string :=
  outputPath +:+ "/" +:+ Itoa simId +:+ "_" +:+ Itoa nodeId +:+ ".log".
(** The loggers are kept for ever, one per node id. *)
Definition GetNodeLogger (fuel : nat) (outputDir : string) (simulationId : Z) (cfg : NodeConfig)
    (logs : gmap NodeId NodeLogger) : res (gmap NodeId NodeLogger) :=
  let nodeid := nc_ID cfg in
  match logs !! nodeid with
  | None =>
    let l := mkNodeLogger nodeid ErrorLevel ErrorLevel false (getLogFileName outputDir simulationId nodeid)
               (nc_NodeLogFile cfg) [] 0 0 [] in
    '(_, l) ← (if nc_NodeLogFile cfg then createLogFile fuel l else Ok (tt, l)); Ok (<[nodeid:=l]> logs)
  | Some l =>
    let l := set_file (nl_logFile l) (nc_NodeLogFile cfg) l in
    '(_, l) ← (if nc_NodeLogFile cfg && negb (nl_logFile l) then openLogFile fuel l else Ok (tt, l));
    Ok (<[nodeid:=l]> logs)
  end.
End logger.

(** ** Theorems: names of levels *)

(** Whatever name of a log level is given, the level that is set can be printed, its
    printed name denotes the same level, and panics and fatal errors stay visible. *)
Theorem level_names s :
  let lv := fst (ParseLevelString s) in
  exists name, GetLevelString lv = Ok name /\ ParseLevelString name = (lv, false) /\ PanicLevel <= lv.
Proof.
  unfold ParseLevelString at 1.
  repeat match goal with |- context [if one_of s ?l then _ else _] => destruct (one_of s l) end;
    eexists; (split; [reflexivity|split; [reflexivity|by compute]]).
Qed.

(** ** Theorems: nothing is lost *)
Section lossless.
Context {env : LogEnv}.
Implicit Types l : NodeLogger.

(** Entries that one of the two outputs takes. *)
Definition wanted l (level : Z) : bool := (nl_fileLevel l >=? level) || (nl_displayLevel l >=? level).
(** What an entry becomes when it is shown at time [ts]. *)
Definition shown l (ts : Z) (e : Z * string) : list LogOut :=
  LFile (chop_newline (tsStr ts +:+ e.2)) ::
  (if nl_displayLevel l >=? e.1 then [LDisplay e.1 (GetNodeName (nl_Id l) +:+ tsStr ts +:+ e.2)] else []).

(** The file is open and in use; entries wait that are wanted. *)
Record logging l : Prop := {
  lg_open : nl_logFile l = true;
  lg_enabled : nl_isFileEnabled l = true;
  lg_entries : Forall (fun e => wanted l e.1 = true) (nl_entries l);
  lg_cap : (length (nl_entries l) <= entriesCap)%nat;
}.
(** [l] with other entries, time, calls and output. *)
Definition progress_of l (es : list (Z * string)) (ts : Z) (calls : nat) (out : list LogOut) : NodeLogger :=
  mkNodeLogger (nl_Id l) (nl_fileLevel l) (nl_displayLevel l) (nl_logFile l) (nl_logFileName l) (nl_isFileEnabled l)
    es ts calls out.

Hypothesis writes : forall n, log_ok n = true.

Lemma write_ok fuel line l : nl_logFile l = true -> log_call (S fuel) (CWrite line) l = Ok (tt, add_log (LFile line) (add_call l)).
Proof.
  intros H. cbn [log_call]. unfold mbind, st_bind, get. cbn beta iota. rewrite H. unfold os_call. by rewrite writes.
Qed.
Lemma display_ok es : forall fuel ts l,
  nl_entries l = es -> nl_logFile l = true -> nl_isFileEnabled l = true -> Forall (fun e => wanted l e.1 = true) es ->
  (length es + 1 < fuel)%nat ->
  log_call fuel (CDisplayLoop ts) l =
    Ok (tt, progress_of l [] (nl_timestampUs l) (nl_calls l + length es) (nl_out l ++ es ≫= shown l ts)).
Proof.
  induction es as [|[level msg] es IH]; intros [|fuel] ts l E Ho He HF Hf; simpl in Hf; try lia;
    cbn [log_call]; unfold mbind at 1, st_bind at 1, get; cbn beta iota; rewrite E.
  - destruct l. cbn in *. subst. unfold mret, st_ret, progress_of. simpl. by rewrite Nat.add_0_r, app_nil_r.
  - inversion HF as [|? ? HW HF']; subst.
    assert ((nl_displayLevel l >=? level) || (nl_fileLevel l >=? level) = true) as HD.
    { unfold wanted in HW. simpl in HW. by rewrite orb_comm. }
    rewrite He, HD. cbn [andb when]. destruct fuel as [|fuel]; [simpl in Hf; lia|].
    unfold mbind, st_bind, modify at 1. cbn beta iota. rewrite write_ok by done.
    unfold shown at 1. cbn [fst snd]. destruct (nl_displayLevel l >=? level) eqn:HDl.
    + unfold when, modify at 1. cbn beta iota. rewrite IH; [|done..|simpl in *; lia]. unfold progress_of. cbn. rewrite HDl, <- !app_assoc. do 3 f_equal. lia.
    + unfold when, mret at 1, st_ret. rewrite IH; [|done..|simpl in *; lia]. unfold progress_of. cbn. rewrite HDl, <- !app_assoc. do 3 f_equal. lia.
Qed.

(** The fields that stay. *)
Definition static l :=
  (nl_Id l, nl_fileLevel l, nl_displayLevel l, nl_logFile l, nl_logFileName l, nl_isFileEnabled l).
Lemma static_shown l l0 : static l = static l0 -> shown l = shown l0 /\ wanted l = wanted l0.
Proof. unfold static, shown, wanted. by intros [= -> -> -> _ _ _]. Qed.
(** [l] is [l0] after the entries [acc] were logged: some were shown, each at a time of its
    own, the others wait. *)
Definition logged (l0 l : NodeLogger) (acc : list (Z * string)) : Prop :=
  exists done tss, length tss = length done /\ acc = (done ++ nl_entries l)%list /\
    (length (nl_entries l) <= entriesCap)%nat /\ Forall (fun e => wanted l0 e.1 = true) (nl_entries l) /\
    static l = static l0 /\ nl_out l = (nl_out l0 ++ concat (zip_with (shown l0) tss done))%list.
Lemma shown_all l0 ts es : es ≫= shown l0 ts = concat (zip_with (shown l0) (replicate (length es) ts) es).
Proof. induction es as [|e es IH]; [done|]. cbn. by rewrite IH. Qed.

Definition big_enough (fuel : nat) : Prop := (entriesCap + 5 <= fuel)%nat.
Section run.
Variable l0 : NodeLogger.
Hypotheses (open0 : nl_logFile l0 = true) (enabled0 : nl_isFileEnabled l0 = true).

Lemma logged_display fuel ts l acc :
  (entriesCap + 2 <= fuel)%nat -> logged l0 l acc ->
  exists l', log_call fuel (CDisplayLoop ts) l = Ok (tt, l') /\ logged l0 l' acc /\ nl_entries l' = [].
Proof.
  intros Hf (done & tss & Hlen & -> & Hcap & HF & HS & HO). destruct (static_shown l l0 HS) as [E1 E2].
  pose proof HS as [= _ _ _ H4 _ H6].
  rewrite display_ok with (es := nl_entries l); [|done|by rewrite H4|by rewrite H6|by rewrite E2|lia].
  eexists. split; [reflexivity|]. split; [|done].
  exists (done ++ nl_entries l)%list, (tss ++ replicate (length (nl_entries l)) ts)%list.
  rewrite !length_app, length_replicate, Hlen. split; [done|]. split; [by rewrite app_nil_r|]. split; [simpl; lia|].
  split; [by constructor|]. split; [done|]. cbn [progress_of nl_out].
  by rewrite zip_with_app, concat_app, HO, E1, shown_all, app_assoc.
Qed.
Lemma wanted_logged l acc level :
  logged l0 l acc -> (level >? nl_fileLevel l) && (level >? nl_displayLevel l) = negb (wanted l0 level).
Proof.
  intros (done & tss & _ & _ & _ & _ & HS & _). destruct (static_shown l l0 HS) as [_ <-]. unfold wanted.
  rewrite negb_orb, !Z.geb_leb, !Z.gtb_ltb, !Z.leb_antisym. by rewrite !negb_involutive.
Qed.
Lemma logged_push l acc e :
  logged l0 l acc -> wanted l0 e.1 = true -> (length (nl_entries l) < entriesCap)%nat ->
  logged l0 (set_entries (nl_entries l ++ [e])%list l) (acc ++ [e])%list.
Proof.
  intros (done & tss & Hlen & -> & Hcap & HF & HS & HO) Hw Hroom. exists done, tss. cbn [set_entries nl_entries].
  rewrite length_app. cbn [length]. split; [done|]. split; [by rewrite app_assoc|]. split; [lia|].
  split; [apply Forall_app; split; [done|by constructor]|]. done.
Qed.
Lemma logged_NodeLogf fuel level msg l acc :
  (entriesCap + 3 <= fuel)%nat -> logged l0 l acc ->
  exists l', log_call fuel (CNodeLogf level msg) l = Ok (tt, l') /\
    logged l0 l' (if wanted l0 level then acc ++ [(level, msg)] else acc)%list.
Proof.
  intros Hf HL. destruct fuel as [|fuel]; [lia|]. cbn [log_call]. unfold mbind, st_bind, get. cbn beta iota.
  rewrite (wanted_logged l acc level HL). destruct (wanted l0 level) eqn:Hw; cbn [negb]; [|by exists l].
  destruct (bool_decide_reflect (entriesCap <= length (nl_entries l))%nat) as [Hfull|Hroom]; cbn [when].
  - destruct (logged_display fuel (nl_timestampUs l) l acc ltac:(lia) HL) as (l' & -> & HL' & E').
    cbn beta iota. rewrite E', bool_decide_false by (unfold entriesCap; simpl; lia).
    eexists. split; [reflexivity|]. apply logged_push; [done..|]. rewrite E'. unfold entriesCap. simpl. lia.
  - unfold mret, st_ret. rewrite bool_decide_false by done. eexists. split; [reflexivity|]. apply logged_push; [done..|lia].
Qed.
End run.

(** What users of the log do. *)
Inductive LogOp :=
| OpLog (level : Z) (msg : string)
| OpShow (ts : Z).
Definition run_log (fuel : nat) (o : LogOp) : st NodeLogger () :=
  match o with
  | OpLog level msg => NodeLogf fuel level msg
  | OpShow ts => DisplayPendingLogEntries fuel ts
  end.
Definition accepted l (ops : list LogOp) : list (Z * string) :=
  omap (fun o => match o with
                 | OpLog level msg => if wanted l level then Some (level, msg) else None
                 | OpShow _ => None
                 end) ops.
Lemma logged_ops l0 fuel ops : forall l acc,
  nl_logFile l0 = true -> nl_isFileEnabled l0 = true -> big_enough fuel -> logged l0 l acc ->
  exists l', for_each ops (run_log fuel) l = Ok (tt, l') /\ logged l0 l' (acc ++ accepted l0 ops)%list.
Proof.
  induction ops as [|o ops IH]; intros l acc Ho He Hf HL.
  - exists l. split; [done|]. by rewrite app_nil_r.
  - unfold big_enough in Hf. cbn [for_each]. unfold mbind, st_bind. destruct o as [level msg|ts].
    + destruct (logged_NodeLogf l0 Ho He fuel level msg l acc ltac:(lia) HL) as (l1 & E1 & H1).
      cbn [run_log]. unfold NodeLogf. rewrite E1. destruct (IH _ _ Ho He Hf H1) as (l2 & E2 & H2). exists l2. split; [done|].
      unfold accepted. cbn [omap list_omap]. by destruct (wanted l0 level); [rewrite <- app_assoc in H2|].
    + assert (logged l0 (set_ts ts l) acc) as HT.
      { destruct HL as (done & tss & H). by exists done, tss. }
      destruct (logged_display l0 Ho He fuel ts _ acc ltac:(lia) HT) as (l1 & E1 & H1 & _).
      cbn [run_log]. unfold DisplayPendingLogEntries, mbind, st_bind, modify. rewrite E1. by apply IH.
Qed.
End lossless.

Definition ex_log_env : LogEnv := {| log_ok _ := true; log_created := "today" |}.
Definition ex_log : NodeLogger := mkNodeLogger 3 WarnLevel ErrorLevel true "tmp/0_3.log" true [] 0 0 [].

(** ** A file that cannot be written

    When debug messages are wanted and the log file stays unwritable, the logger never comes
    back: closing the file logs a message, which is written to the file that is still open,
    which fails and closes the file again. *)
Section failing.
Context {env : LogEnv}.
Hypothesis writes_fail : forall n, log_ok n = false.

Record doomed (l : NodeLogger) : Prop := {
  dm_open : nl_logFile l = true;
  dm_enabled : nl_isFileEnabled l = true;
  dm_level : DebugLevel <= nl_fileLevel l;
  dm_wanted : Forall (fun e => wanted l e.1 = true) (nl_entries l);
}.
Lemma doomed_entries es l : doomed l -> Forall (fun e => wanted l e.1 = true) es -> doomed (set_entries es l).
Proof. intros [] ?. by split. Qed.
Lemma doomed_display fuel ts l :
  (forall f line l, (f < fuel)%nat -> doomed l -> log_call f (CWrite line) l = Panic OutOfFuel) ->
  doomed l -> nl_entries l <> [] -> log_call fuel (CDisplayLoop ts) l = Panic OutOfFuel.
Proof.
  intros IH HD Hne. destruct fuel as [|fuel]; [done|]. cbn [log_call]. unfold mbind, st_bind, get. cbn beta iota.
  destruct (nl_entries l) as [|[level msg] es] eqn:E; [done|]. pose proof HD as [_ Hen _ HF]. rewrite E in HF.
  inversion HF as [|? ? HW HF']; subst. unfold wanted in HW. cbn in HW.
  rewrite Hen, (orb_comm (nl_displayLevel l >=? level)), HW. cbn [andb when]. unfold modify at 1. cbn beta iota.
  rewrite IH; [done|lia|by apply doomed_entries].
Qed.
Lemma doomed_log fuel l :
  (forall f ts l, (f < fuel)%nat -> doomed l -> nl_entries l <> [] ->
     log_call f (CDisplayLoop ts) l = Panic OutOfFuel) ->
  doomed l ->
  log_call fuel (CNodeLogf DebugLevel closing_msg) l = Panic OutOfFuel \/
  exists l', log_call fuel (CNodeLogf DebugLevel closing_msg) l = Ok (tt, l') /\ doomed l' /\ nl_entries l' <> [].
Proof.
  intros ID HD. destruct fuel as [|fuel]; [by left|]. cbn [log_call]. unfold mbind, st_bind, get. cbn beta iota.
  pose proof (dm_level l HD) as HLv.
  assert ((DebugLevel >? nl_fileLevel l) = false) as -> by (rewrite Z.gtb_ltb; apply Z.ltb_ge; done). cbn [andb].
  destruct (bool_decide_reflect (entriesCap <= length (nl_entries l))%nat) as [Hfull|Hroom]; cbn [when].
  - left. rewrite ID; [done|lia|done|]. intros HE. rewrite HE in Hfull. unfold entriesCap in Hfull. simpl in Hfull. lia.
  - right. unfold mret, st_ret. rewrite bool_decide_false by done. eexists. split; [reflexivity|].
    split; [|by cbn; destruct (nl_entries l)].
    apply doomed_entries; [done|]. apply Forall_app. split; [apply HD|]. constructor; [|done].
    unfold wanted. cbn. apply orb_true_iff. left. rewrite Z.geb_leb. by apply Z.leb_le.
Qed.
Lemma doomed_close fuel l :
  (forall f line l, (f < fuel)%nat -> doomed l -> log_call f (CWrite line) l = Panic OutOfFuel) ->
  doomed l -> log_call fuel CClose l = Panic OutOfFuel.
Proof.
  intros IH HD. assert (forall f ts l, (f < fuel)%nat -> doomed l -> nl_entries l <> [] ->
    log_call f (CDisplayLoop ts) l = Panic OutOfFuel) as ID.
  { intros f ts l' Hf HD' Hne. apply doomed_display; [|done..]. intros f' line' l2 Hf'. apply IH. lia. }
  destruct fuel as [|fuel]; [done|]. cbn [log_call]. unfold mbind, st_bind, get. cbn beta iota.
  rewrite (dm_open l HD). destruct (doomed_log fuel l) as [->|(l' & -> & HD' & Hne)]; [|done|done|].
  - intros f ts l' Hf. apply ID. lia.
  - cbn beta iota. by rewrite ID by (lia || done).
Qed.
(** A failing write never returns. *)
Theorem write_error_never_ends fuel line l : doomed l -> writeToLogFile fuel line l = Panic OutOfFuel.
Proof.
  unfold writeToLogFile. revert line l. induction fuel as [fuel IH] using lt_wf_ind. intros line l HD.
  destruct fuel as [|fuel]; [done|]. cbn [log_call]. unfold mbind, st_bind, get at 1. cbn beta iota.
  rewrite (dm_open l HD). unfold os_call. rewrite writes_fail. cbn beta iota.
  rewrite doomed_close; [done| |destruct HD; by split]. intros f line' l' Hf. apply IH. lia.
Qed.
End failing.

(** A log that displays debug messages and whose file cannot be written. *)
Definition ex_broken_env : LogEnv := {| log_ok _ := false; log_created := "today" |}.
Example write_error_ex : forall fuel,
  writeToLogFile (env := ex_broken_env) fuel "x" (mkNodeLogger 3 DebugLevel ErrorLevel true "tmp/0_3.log" true [] 0 0 [])
  = Panic OutOfFuel.
Proof. intros fuel. apply write_error_never_ends; [done|]. by split. Qed.
