(* ===== verification/GlobalLog.v ===== *)
(** * The program's log (src/logger/logger.go)

    The log of the program as a whole, its level, where it goes, and the assertions and fatal
    errors that are reported through it.  The state is that of the package: the level, the log
    file, the terminal, and the sinks of the zap logger.  An operation returns, panics, or ends
    the process; what it wrote before stays written, so the monad keeps the state in each case.

    zap, testify and the formatting of messages are libraries: the class [ZapEnv] says what zap
    does after it wrote an entry, and [ZapEnvOk] that it panics or exits after an entry of these
    levels.  A failed assertion of testify calls [Errorf] of the object it is given.

    Shown here: whatever was done with the log before, a panic, a fatal error and a failed
    assertion are written to every sink and do not return; other messages are written to every
    sink, once, exactly when the level asks for them.  This is what entitles the other files to
    treat an assertion as the end of a run. *)

From S2P Require Import Prelude GoStrings GoText Logger.
From Stdlib Require Import Ascii.

Local Open Scope string_scope.
Create HintDb keeps.
Local Open Scope Z_scope.

(** ** zap *)
Inductive zapLevel := ZapDebug | ZapInfo | ZapWarn | ZapError | ZapPanic | ZapFatal.
#[export] Instance zapLevel_eq_dec : EqDecision zapLevel.
Proof. solve_decision. Defined.
Inductive Sink := SinkStderr | SinkFile.
#[export] Instance Sink_eq_dec : EqDecision Sink.
Proof. solve_decision. Defined.

(** How an operation ends when it does not return. *)
Inductive End := Panicked | Exited.

(** An argument of a message: a string, another value, or a slice of arguments. *)
Inductive Arg := ArgString (s : string) | ArgValue (text : string) | ArgSlice (l : list Arg).

Class ZapEnv := {
  (** what a call of [zap.Logger.Log] does after the entry is written; [None] is to return *)
  zap_after : zapLevel -> option End;
  Sprintf : string -> list Arg -> string;
  Sprint : list Arg -> string;
  (** the error of opening the log file, and of writing its header *)
  open_error : string -> option string;
  header_error : string -> option string;
  (** the time of day, as it is written to the file *)
  time_text : string;
}.
Class ZapEnvOk {env : ZapEnv} := {
  zap_panic : zap_after ZapPanic = Some Panicked;
  zap_fatal : zap_after ZapFatal = Some Exited;
  zap_other l : l <> ZapPanic -> l <> ZapFatal -> zap_after l = None;
}.

(** ** State *)
Inductive LogEffect :=
| Stdout (text : string)
| Entry (sink : Sink) (level : zapLevel) (msg : string)
| FileText (text : string)
| CloseFile
| OnStdout.

Record LogState := mkLogState {
  currentLevel : Z;
  cbStdout : bool;
  (** whether there is a log file *)
  logFileHandle : bool;
  isStdoutToTerminal : bool;
  isLogToStderr : bool;
  (** the cores of [zaplogger] *)
  zaplogger : list Sink;
  effects : list LogEffect;
}.
Definition set_currentLevel v s := mkLogState v (cbStdout s) (logFileHandle s) (isStdoutToTerminal s) (isLogToStderr s) (zaplogger s) (effects s).
Definition set_cbStdout v s := mkLogState (currentLevel s) v (logFileHandle s) (isStdoutToTerminal s) (isLogToStderr s) (zaplogger s) (effects s).
Definition set_logFileHandle v s := mkLogState (currentLevel s) (cbStdout s) v (isStdoutToTerminal s) (isLogToStderr s) (zaplogger s) (effects s).
Definition set_isLogToStderr v s := mkLogState (currentLevel s) (cbStdout s) (logFileHandle s) (isStdoutToTerminal s) v (zaplogger s) (effects s).
Definition set_zaplogger v s := mkLogState (currentLevel s) (cbStdout s) (logFileHandle s) (isStdoutToTerminal s) (isLogToStderr s) v (effects s).
Definition add_effects es s :=
  mkLogState (currentLevel s) (cbStdout s) (logFileHandle s) (isStdoutToTerminal s) (isLogToStderr s) (zaplogger s) (effects s ++ es)%list.

(** The state, with a value or the end of the run. *)
Definition LogM (A : Type) : Type := LogState -> LogState * (A + End).
#[export] Instance logm_ret : MRet LogM := fun A a s => (s, inl a).
#[export] Instance logm_bind : MBind LogM := fun A B f m s =>
  match m s with
  | (s, inl a) => f a s
  | (s, inr e) => (s, inr e)
  end.
Definition read {A} (f : LogState -> A) : LogM A := fun s => (s, inl (f s)).
Definition write (f : LogState -> LogState) : LogM () := fun s => (f s, inl tt).
Definition stop {A} (e : End) : LogM A := fun s => (s, inr e).
Definition emit (e : LogEffect) : LogM () := write (add_effects [e]).
Definition only (b : bool) (m : LogM ()) : LogM () := if b then m else mret tt.

Definition MinLevel : Z := FatalLevel.
Definition zapLevels : list zapLevel :=
  [ZapFatal; ZapPanic; ZapError; ZapWarn; ZapInfo; ZapInfo; ZapDebug; ZapDebug; ZapDebug].
Definition ansiClearLine : string := String "027"%char ("[2K" +:+ String "013"%char "").
Definition ln : string := String "010"%char "".

Section log.
Context {env : ZapEnv}.

(** ** Messages *)
(** [zap.Logger.Log]: an entry to each core, and then what the level asks for. *)
Definition zap_Log (l : zapLevel) (msg : string) : LogM () :=
  sinks ← read zaplogger;
  _ ← write (add_effects (map (fun k => Entry k l msg) sinks));
  match zap_after l with Some e => stop e | None => mret tt end.
Definition getMessage (template : string) (fmtArgs : list Arg) : string :=
  match fmtArgs with
  | [] => template
  | _ =>
    if negb (String.eqb template "") then Sprintf template fmtArgs
    else match fmtArgs with [ArgString s] => s | _ => Sprint fmtArgs end
  end.
(** [zapLevels[level-MinLevel]], which panics out of range. *)
Definition zapLevelOf (level : Z) : LogM zapLevel :=
  let i := to_signed 8 (level - MinLevel) in
  if i <? 0 then stop Panicked
  else match zapLevels !! Z.to_nat i with Some l => mret l | None => stop Panicked end.
Definition clearLine : LogM () := t ← read isStdoutToTerminal; only t (emit (Stdout ansiClearLine)).
Definition redraw : LogM () :=
  t ← read isStdoutToTerminal; cb ← read cbStdout; only (t && cb) (emit OnStdout).
Definition logAlways (level : Z) (msg : string) : LogM () :=
  _ ← clearLine;
  l ← zapLevelOf level;
  _ ← zap_Log l msg;
  redraw.
Definition Logf (level : Z) (format : string) (args : list Arg) : LogM () :=
  cur ← read currentLevel;
  if level >? cur then mret tt else
  _ ← clearLine;
  l ← zapLevelOf level;
  _ ← zap_Log l (getMessage format args);
  redraw.
Definition Log (level : Z) (msg : Arg) : LogM () :=
  cur ← read currentLevel;
  if level >? cur then mret tt else Logf level "" [msg].
Definition Println (msg : string) (toConsole toLogFile : bool) : LogM () :=
  _ ← only toConsole (_ ← clearLine; _ ← emit (Stdout (msg +:+ ln)); redraw);
  f ← read logFileHandle;
  only (toLogFile && f) (emit (FileText (msg +:+ ln))).

Definition Tracef := Logf TraceLevel.
Definition Debugf := Logf DebugLevel.
Definition Infof := Logf InfoLevel.
Definition Warnf := Logf WarnLevel.
Definition Errorf := Logf ErrorLevel.
Definition Panicf := Logf PanicLevel.
Definition Fatalf := Logf FatalLevel.
(** The arguments are passed on as one value. *)
Definition Error (args : list Arg) : LogM () := Log ErrorLevel (ArgSlice args).
Definition Panic (args : list Arg) : LogM () := Log PanicLevel (ArgSlice args).
Definition Fatal (args : list Arg) : LogM () := Log FatalLevel (ArgSlice args).
Definition TraceError (stack format : string) (args : list Arg) : LogM () :=
  _ ← Error [ArgString stack]; Errorf format args.

(** An error is its text. *)
Definition error_args (err : option string) (args : list Arg) : list Arg :=
  match args with [] => [ArgValue (default "<nil>" err)] | _ => args end.
Definition PanicIfError (err : option string) (args : list Arg) : LogM () :=
  match err with Some _ => Panic (error_args err args) | None => mret tt end.
Definition PanicfIfError (err : option string) (format : string) (args : list Arg) : LogM () :=
  match err with Some _ => Panicf format args | None => mret tt end.
Definition FatalIfError (err : option string) (args : list Arg) : LogM () :=
  match err with Some _ => Fatal (error_args err args) | None => mret tt end.
Definition FatalfIfError (err : option string) (format : string) (args : list Arg) : LogM () :=
  match err with Some _ => Fatalf format args | None => mret tt end.

(** The functions of testify: [report] is the text for the failure.  They call [Errorf] of
    [assertLogger] when the assertion does not hold, and return whether it does. *)
Definition assertLogger_Errorf := Panicf.
Definition Assert (holds : bool) (format : string) (report : list Arg) : LogM bool :=
  _ ← only (negb holds) (assertLogger_Errorf format report); mret holds.
Definition AssertTrue (value : bool) := Assert value.
Definition AssertFalse (value : bool) := Assert (negb value).
Definition AssertNotNil {A} (object : option A) := Assert (bool_decide (is_Some object)).
Definition AssertNil {A} (object : option A) := Assert (bool_decide (object = None)).
Definition AssertEqual {A} `{EqDecision A} (expected actual : A) := Assert (bool_decide (expected = actual)).

(** ** The set-up *)
(** The file if there is one, and the terminal if it is wanted or there is no file. *)
Definition rebuildLoggerFromCfg : LogM () :=
  write (fun s => set_zaplogger
    (if logFileHandle s then (if isLogToStderr s then [SinkStderr; SinkFile] else [SinkFile]) else [SinkStderr]) s).
Definition init (isTerminal : bool) : LogState :=
  mkLogState DefaultLevel false false isTerminal true [SinkStderr] [].
Definition header (simId : Z) : string :=
  "#" +:+ ln +:+ "# OTNS log for sim-ID " +:+ Itoa simId +:+ " created " +:+ time_text +:+ ln +:+ "#" +:+ ln.
Definition Init (logToStderr logToFile : bool) (logFileName : string) (simId : Z) : LogM () :=
  _ ← only logToFile (match open_error logFileName with
    | Some err =>
      _ ← write (set_logFileHandle false);
      Errorf ("Error: failed to open log file: %v" +:+ ln) [ArgValue err]
    | None =>
      _ ← write (set_logFileHandle true);
      match header_error logFileName with
      | None => emit (FileText (header simId))
      | Some err =>
        _ ← Errorf ("Error: failed to write log file header: %v" +:+ ln) [ArgValue err];
        _ ← emit CloseFile;
        write (set_logFileHandle false)
      end
    end);
  _ ← write (set_isLogToStderr logToStderr);
  rebuildLoggerFromCfg.
Definition announceLevel (lv : Z) : LogM () :=
  name ← (match GetLevelString lv with Ok name => mret name | Prelude.Panic _ => stop Panicked end);
  Println (time_text +:+ "         Log level changed to " +:+ name) false true.
Definition SetLevel (lv : Z) : LogM () :=
  cur ← read currentLevel;
  if cur =? lv then mret tt else
  _ ← only (lv <? PanicLevel)
    (Fatalf "Invalid log level %d: Panic and Fatal log messages must always be shown." [ArgValue (Itoa lv)]);
  _ ← write (set_currentLevel lv);
  announceLevel lv.
Definition SetStdoutCallback : LogM () := write (set_cbStdout true).
(** [logFileWriter.Write] *)
Definition Write (p : string) : LogM () := f ← read logFileHandle; only f (emit (FileText p)).

(** ** Use of the log *)
Inductive LogOp :=
| OpInit (logToStderr logToFile : bool) (logFileName : string) (simId : Z)
| OpSetLevel (lv : Z)
| OpCallback
| OpLogf (level : Z) (format : string) (args : list Arg)
| OpLog (level : Z) (msg : Arg)
| OpAlways (level : Z) (msg : string)
| OpPrintln (msg : string) (toConsole toLogFile : bool)
| OpWrite (p : string).
Definition run_op (op : LogOp) : LogM () :=
  match op with
  | OpInit e f n i => Init e f n i
  | OpSetLevel lv => SetLevel lv
  | OpCallback => SetStdoutCallback
  | OpLogf level format args => Logf level format args
  | OpLog level msg => Log level msg
  | OpAlways level msg => logAlways level msg
  | OpPrintln msg c f => Println msg c f
  | OpWrite p => Write p
  end.
Inductive log_reachable : LogState -> Prop :=
| lr_init t : log_reachable (init t)
| lr_op op s s' : log_reachable s -> run_op op s = (s', inl tt) -> log_reachable s'.

(** The level lets panics through, and there is a place to write to. *)
Record log_inv (s : LogState) : Prop := {
  li_level : PanicLevel <= currentLevel s;
  li_sinks : zaplogger s <> [];
}.
(** What a message writes before and after its entries. *)
Definition cleared (s : LogState) : list LogEffect := if isStdoutToTerminal s then [Stdout ansiClearLine] else [].
Definition redrawn (s : LogState) : list LogEffect := if isStdoutToTerminal s && cbStdout s then [OnStdout] else [].
Definition entries (s : LogState) (l : zapLevel) (msg : string) : list LogEffect := map (fun k => Entry k l msg) (zaplogger s).

Lemma add_effects_app a b s : add_effects b (add_effects a s) = add_effects (a ++ b) s.
Proof. unfold add_effects. cbn. by rewrite <- app_assoc. Qed.
Lemma clearLine_eq s : clearLine s = (add_effects (cleared s) s, inl tt).
Proof.
  destruct s as [? ? ? [] ? ? es]; [done|]. unfold clearLine, add_effects. cbn. by rewrite app_nil_r.
Qed.
Lemma redraw_eq s : redraw s = (add_effects (redrawn s) s, inl tt).
Proof.
  destruct s as [? cb ? t ? ? es]. unfold redraw, redrawn, add_effects. cbn.
  destruct t, cb; cbn; by rewrite ?app_nil_r.
Qed.
(** A level has an entry in the table, and only the two lowest end the run. *)
Lemma zapLevelOf_eq level s : FatalLevel <= level <= MicroLevel ->
  exists l, zapLevelOf level s = (s, inl l) /\ (l = ZapFatal <-> level = FatalLevel) /\ (l = ZapPanic <-> level = PanicLevel).
Proof.
  unfold FatalLevel, MicroLevel, PanicLevel. intros H.
  assert (level = -1 \/ level = 0 \/ level = 1 \/ level = 2 \/ level = 3 \/ level = 4 \/ level = 5 \/ level = 6 \/ level = 7) as HC by lia.
  repeat destruct HC as [->|HC]; [..|subst level]; eexists; (split; [reflexivity|]); split; split; intros; try lia; try done.
Qed.
Lemma log_body level msg l s : zapLevelOf level (add_effects (cleared s) s) = (add_effects (cleared s) s, inl l) ->
  logAlways level msg s =
    match zap_after l with
    | Some e => (add_effects (cleared s ++ entries s l msg) s, inr e)
    | None => (add_effects (cleared s ++ entries s l msg ++ redrawn s) s, inl tt)
    end.
Proof.
  intros E. unfold logAlways. unfold mbind, logm_bind at 1. rewrite clearLine_eq. unfold mbind, logm_bind at 1. rewrite E.
  unfold zap_Log, mbind, logm_bind, read, write. rewrite add_effects_app. destruct (zap_after l) as [e|]; [done|].
  unfold mret, logm_ret. rewrite redraw_eq. change (redrawn (add_effects ?x s)) with (redrawn s).
  by rewrite add_effects_app, <- app_assoc.
Qed.
Lemma Logf_eq level format args s : Logf level format args s =
  if level >? currentLevel s then (s, inl tt) else logAlways level (getMessage format args) s.
Proof. unfold Logf, mbind, logm_bind at 1, read. by destruct (level >? currentLevel s). Qed.
Lemma Log_eq level msg s : Log level msg s = Logf level "" [msg] s.
Proof.
  unfold Log, mbind, logm_bind at 1, read. destruct (level >? currentLevel s) eqn:E; [|done]. by rewrite Logf_eq, E.
Qed.

(** ** The invariant *)
Definition keeps {A} (m : LogM A) : Prop := forall s s' a, m s = (s', inl a) -> log_inv s -> log_inv s'.
Lemma keeps_ret {A} (a : A) : keeps (mret a).
Proof. by intros s s' b [= <- _]. Qed.
Lemma keeps_read {A} (f : LogState -> A) : keeps (read f).
Proof. by intros s s' b [= <- _]. Qed.
Lemma keeps_stop {A} e : keeps (@stop A e).
Proof. by intros s s' b [=]. Qed.
Lemma keeps_write f : (forall s, log_inv s -> log_inv (f s)) -> keeps (write f).
Proof. intros H s s' b [= <- _]. apply H. Qed.
Lemma keeps_bind {A B} (m : LogM A) (k : A -> LogM B) : keeps m -> (forall a, keeps (k a)) -> keeps (m ≫= k).
Proof.
  intros H1 H2 s s' b. unfold mbind, logm_bind. destruct (m s) as [s1 [a|e]] eqn:E; [|done].
  intros E2 HI. apply (H2 a _ _ _ E2), (H1 _ _ _ E HI).
Qed.
Lemma keeps_only b m : keeps m -> keeps (only b m).
Proof. intros H. destruct b; [done|apply keeps_ret]. Qed.
Lemma keeps_emit e : keeps (emit e).
Proof. apply keeps_write. by intros s [H1 H2]. Qed.
#[local] Ltac keeps :=
  repeat first
    [ apply keeps_ret | apply keeps_read | apply keeps_stop | apply keeps_emit | apply keeps_only
    | apply keeps_bind; [|intros ?] | apply keeps_write; intros ? [? ?]; by constructor | solve [eauto with keeps]
    | match goal with
      | |- keeps (if ?b then _ else _) => destruct b
      | |- keeps (match ?b with _ => _ end) => destruct b
      end ].
Lemma keeps_clearLine : keeps clearLine.
Proof. unfold clearLine. keeps. Qed.
Lemma keeps_redraw : keeps redraw.
Proof. unfold redraw. keeps. Qed.
Lemma keeps_logAlways level msg : keeps (logAlways level msg).
Proof.
  unfold logAlways, zapLevelOf, zap_Log. pose proof keeps_clearLine. pose proof keeps_redraw. keeps.
Qed.
Lemma keeps_Logf level format args : keeps (Logf level format args).
Proof.
  intros s s' [] E HI. rewrite Logf_eq in E. destruct (level >? currentLevel s); [by injection E as <-|].
  by eapply keeps_logAlways.
Qed.
#[local] Hint Resolve keeps_clearLine keeps_redraw keeps_logAlways keeps_Logf : keeps.
Lemma keeps_Println msg c f : keeps (Println msg c f).
Proof. unfold Println. keeps. Qed.
#[local] Hint Resolve keeps_Println : keeps.
Lemma keeps_Init e f n i : keeps (Init e f n i).
Proof.
  unfold Init, Errorf. keeps. apply keeps_write. intros s [H1 H2]. constructor; [done|]. cbn. by destruct (logFileHandle s), (isLogToStderr s).
Qed.

Context `{!ZapEnvOk}.
(** A fatal message does not return. *)
Lemma Fatalf_ends format args s : log_inv s ->
  Fatalf format args s = (add_effects (cleared s ++ entries s ZapFatal (getMessage format args)) s, inr Exited).
Proof.
  intros [HL _]. unfold Fatalf. rewrite Logf_eq. unfold FatalLevel, PanicLevel in *.
  destruct (Z.gtb_spec (-1) (currentLevel s)); [lia|]. rewrite (log_body _ _ ZapFatal) by done. by rewrite zap_fatal.
Qed.
Lemma Panicf_ends format args s : log_inv s ->
  Panicf format args s = (add_effects (cleared s ++ entries s ZapPanic (getMessage format args)) s, inr Panicked).
Proof.
  intros [HL _]. unfold Panicf. rewrite Logf_eq. unfold PanicLevel in *.
  destruct (Z.gtb_spec 0 (currentLevel s)); [lia|]. rewrite (log_body _ _ ZapPanic) by done. by rewrite zap_panic.
Qed.
Lemma keeps_SetLevel lv : keeps (SetLevel lv).
Proof.
  intros s s' [] E HI. unfold SetLevel, mbind, logm_bind at 1, read in E. destruct (currentLevel s =? lv); [by injection E as <-|].
  destruct (lv <? PanicLevel) eqn:EL.
  - unfold mbind, logm_bind at 1 in E. cbn [only] in E. by rewrite Fatalf_ends in E.
  - apply Z.ltb_ge in EL. assert (keeps (announceLevel lv)) as HK by (unfold announceLevel; keeps).
    apply (HK (set_currentLevel lv s) s' tt E). destruct HI as [H1 H2]. by constructor.
Qed.
Lemma log_reachable_inv s : log_reachable s -> log_inv s.
Proof.
  induction 1 as [t|op s s' _ IH E]; [by constructor|]. revert E IH.
  assert (keeps (run_op op)) as HK; [|by apply HK].
  destruct op; cbn [run_op].
  - apply keeps_Init.
  - apply keeps_SetLevel.
  - unfold SetStdoutCallback. keeps.
  - apply keeps_Logf.
  - intros s0 s1 [] E. rewrite Log_eq in E. by eapply keeps_Logf.
  - apply keeps_logAlways.
  - apply keeps_Println.
  - unfold Write. keeps.
Qed.

(** C27: Whatever was done with the log before (its set-up, changes of the level, messages), no
    ending is silent: a panic, a fatal error and a failed assertion write their message to every
    sink, of which there is at least one, and do not return.  Every other message is written to
    every sink once if the level asks for it, and does nothing otherwise. *)
Theorem endings_shown s : log_reachable s ->
  zaplogger s <> [] /\
  (forall format args,
    Panicf format args s = (add_effects (cleared s ++ entries s ZapPanic (getMessage format args)) s, inr Panicked) /\
    Fatalf format args s = (add_effects (cleared s ++ entries s ZapFatal (getMessage format args)) s, inr Exited) /\
    AssertTrue false format args s = (add_effects (cleared s ++ entries s ZapPanic (getMessage format args)) s, inr Panicked) /\
    AssertTrue true format args s = (s, inl true)) /\
  (forall level format args, PanicLevel < level <= MicroLevel -> exists l, zap_after l = None /\
    Logf level format args s =
      (if level <=? currentLevel s then add_effects (cleared s ++ entries s l (getMessage format args) ++ redrawn s) s else s, inl tt)).
Proof.
  intros HI%log_reachable_inv. pose proof HI as [_ HS]. split; [done|]. split.
  - intros format args. split; [by apply Panicf_ends|]. split; [by apply Fatalf_ends|]. split; [|done].
    unfold AssertTrue, Assert, mbind, logm_bind. cbn [only negb]. unfold assertLogger_Errorf. by rewrite Panicf_ends.
  - intros level format args HL. destruct (zapLevelOf_eq level (add_effects (cleared s) s)) as (l & E & EF & EP).
    { unfold FatalLevel, PanicLevel in *. lia. }
    assert (zap_after l = None) as HA.
    { apply zap_other; intros ->; [destruct EP as [EP _]; specialize (EP eq_refl)|destruct EF as [EF _]; specialize (EF eq_refl)];
        unfold FatalLevel, PanicLevel in *; lia. }
    exists l. split; [done|]. rewrite Logf_eq. destruct (Z.gtb_spec level (currentLevel s)), (Z.leb_spec level (currentLevel s)); try lia; [done|].
    rewrite (log_body _ _ l) by done. by rewrite HA.
Qed.
End log.

(** ** Example *)
#[local] Instance ex_zap : ZapEnv := {|
  zap_after l := match l with ZapPanic => Some Panicked | ZapFatal => Some Exited | _ => None end;
  Sprintf f _ := f; Sprint _ := "[message]"; open_error _ := None; header_error _ := None; time_text := "12:00" |}.
#[local] Instance ex_zap_ok : ZapEnvOk.
Proof. split; [done..|]. by intros []. Qed.
(** The level off, with a log file: a warning is not shown, a failed assertion is, twice. *)
Definition ex_log : LogState * (() + End) :=
  (_ ← Init true true "otns.log" 0; _ ← SetLevel OffLevel; Warnf "lost" []) (init false).
Example ex_log_shown :
  (_ ← AssertTrue false "Should be true" []; mret tt) (fst ex_log) =
    (add_effects [Entry SinkStderr ZapPanic "Should be true"; Entry SinkFile ZapPanic "Should be true"] (fst ex_log), inr Panicked).
Proof. vm_compute. reflexivity. Qed.
Lemma endings_shown_witness :
  effects (fst ex_log) = [FileText (header 0); FileText ("12:00         Log level changed to off" +:+ ln)] /\
  Panicf "stop" [] (fst ex_log) = (add_effects [Entry SinkStderr ZapPanic "stop"; Entry SinkFile ZapPanic "stop"] (fst ex_log), inr Panicked).
Proof.
  split; [vm_compute; reflexivity|].
  assert (log_reachable (fst ex_log)) as HR.
  { apply (lr_op (OpLogf WarnLevel "lost" []) (fst (SetLevel OffLevel (fst (Init true true "otns.log" 0 (init false)))))); [|vm_compute; reflexivity].
    apply (lr_op (OpSetLevel OffLevel) (fst (Init true true "otns.log" 0 (init false)))); [|vm_compute; reflexivity].
    apply (lr_op (OpInit true true "otns.log" 0) (init false)); [apply lr_init|vm_compute; reflexivity]. }
  exact (proj1 (proj1 (proj2 (endings_shown (fst ex_log) HR)) "stop" [])).
Defined.
(** An error that is given as a string is not written as it is: the arguments arrive as one slice,
    so that they are formatted, in brackets. *)
Example error_in_brackets : getMessage "" [ArgSlice [ArgString "no such node"]] = Sprint [ArgSlice [ArgString "no such node"]].
Proof. reflexivity. Qed.
