(* ===== verification/NodeProcess.v ===== *)
(** * The process of a node

    How the simulation starts the process of a node ([newNode] of src/simulation/node.go) and
    what becomes of the text the process prints: two goroutines read its standard output and
    standard error line by line and post events to the dispatcher.

    Parameters: the file system and the start of processes ([OsEnv]).  The text that a
    process prints is an argument; [ScanLines] is the scanner of package bufio, which gives
    up at a line of 64 KB. *)

From S2P Require Import Prelude State Types Event GoStrings GoText Uart NodeConfig SimNode Logger.
From Stdlib Require Import Ascii.

Local Open Scope string_scope.
Local Open Scope Z_scope.

(** ** Starting a node *)
Record Process := mkProcess { pr_exe : string; pr_args : list string; pr_env : list string }.
(** What [newNode] reads of the simulation. *)
Record SimInfo := mkSimInfo { si_Id : Z; si_OutputDir : string; si_UnixSocketName : string }.

Class OsEnv := {
  os_fs :: FsEnv;
  isFileExecutable : string -> bool;
  (** errors *)
  os_RemoveAll : string -> option string;
  os_MkdirAll : string -> option string;
  cmd_StdinPipe : option string;
  cmd_StdoutPipe : option string;
  cmd_StderrPipe : option string;
  cmd_Start : Process -> option string;
}.

Section start.
Context {env : OsEnv}.

Definition OtSimulationIdEnv : string := "PORT_OFFSET".
Definition OtDataPathEnv : string := "OTNS_DATA_PATH".
Definition dataPath (s : SimInfo) (nodeid : NodeId) : string :=
  JoinPath (si_OutputDir s) (Itoa (si_Id s) +:+ "_" +:+ Itoa nodeid +:+ ".nvm").

(** Executable and arguments, or an error. *)
Definition node_command (s : SimInfo) (nodeid : NodeId) (cfg : NodeConfig) : string + (string * list string) :=
  if nc_IsRcp cfg then
    if negb (isFile (nc_ExecutablePath cfg)) then
      inl ("target RCP file '" +:+ nc_ExecutablePath cfg +:+ "' not found")
    else if negb (isFileExecutable (nc_ExecutablePath cfg)) then
      inl ("target RCP file '" +:+ nc_ExecutablePath cfg +:+ "' is not executable")
    else if negb (nc_RandomSeed cfg =? 0) then
      inl ("random seed != 0 not supported for RCP/OTBR (got " +:+ Itoa (nc_RandomSeed cfg) +:+ ")")
    else
      let args :=
        if negb (nc_IsBorderRouter cfg) then ["-d"; "5"; "-v"; "--data-path"; dataPath s nodeid]
        else [Itoa nodeid; nc_NetIfName cfg; "--auto-attach=" +:+ Itoa (if nc_Restore cfg then 1 else 0); dataPath s nodeid] in
      inr (nc_HostExePath cfg,
        (args ++ ["spinel+hdlc+forkpty://" +:+ nc_ExecutablePath cfg +:+ "?forkpty-arg=" +:+ Itoa nodeid +:+
                  "&forkpty-arg=" +:+ si_UnixSocketName s])%list)
  else if String.eqb (nc_Type cfg) "matter" then
    inr (nc_ExecutablePath cfg,
      (["--thread-args=" +:+ Itoa nodeid; "--thread-args=" +:+ si_UnixSocketName s] ++
       (if negb (nc_RandomSeed cfg =? 0) then ["--thread-args=" +:+ Itoa (nc_RandomSeed cfg)] else []))%list)
  else
    inr (nc_ExecutablePath cfg,
      ([Itoa nodeid; si_UnixSocketName s] ++
       (if negb (nc_RandomSeed cfg =? 0) then [Itoa (nc_RandomSeed cfg)] else []))%list).

Definition fresh_node (nodeid : NodeId) (cfg : NodeConfig) (uart : NodeUartType) : SimNode :=
  mkSimNode nodeid cfg None "" 0 false false ∅ [] [] [] uart false [] 0 [].

(** The node object if it was created, the process if it was started, and the error. *)
Definition newNode (s : SimInfo) (nodeid : NodeId) (cfg : NodeConfig) :
    option SimNode * option Process * option string :=
  match node_command s nodeid cfg with
  | inl e => (None, None, Some e)
  | inr (exePath, args) =>
    let path := dataPath s nodeid in
    match (if negb (nc_Restore cfg) && negb (nc_IsExternal cfg) then os_RemoveAll path else None) with
    | Some e => (None, None, Some ("clearing node's data dir '" +:+ path +:+ "' failed: " +:+ e))
    | None =>
      match (if negb (nc_IsExternal cfg) then os_MkdirAll path else None) with
      | Some e => (None, None, Some ("creating node's data dir '" +:+ path +:+ "' failed: " +:+ e))
      | None =>
        let cmd := mkProcess exePath args
          [OtSimulationIdEnv +:+ "=" +:+ Itoa (si_Id s); OtDataPathEnv +:+ "=" +:+ path] in
        let node := fresh_node nodeid cfg nodeUartTypeVirtualTime in
        if nc_IsExternal cfg then (Some node, None, None) else
        match cmd_StdinPipe, cmd_StdoutPipe, cmd_StderrPipe, cmd_Start cmd with
        | Some e, _, _, _ | None, Some e, _, _ | None, None, Some e, _ | None, None, None, Some e =>
          (Some node, None, Some e)
        | None, None, None, None =>
          (Some (fresh_node nodeid cfg (if nc_IsRcp cfg then nodeUartTypeRealTime else nodeUartTypeVirtualTime)),
           Some cmd, None)
        end
      end
    end
  end.
End start.

(** ** Reading what the process prints *)
Definition MaxScanTokenSize : nat := Z.to_nat 65536.
(** One carriage return before the line end belongs to it. *)
Definition drop_cr (line : list Z) : list Z :=
  match rev line with
  | 13 :: r => rev r
  | _ => line
  end.
(** The lines of a text; the scanner stops at a line that does not fit in its buffer. *)
Fixpoint ScanLines (fuel : nat) (text : list Z) : list (list Z) :=
  match fuel with
  | O => []
  | S fuel =>
    match IndexByte (take MaxScanTokenSize text) 10 with
    | Some i => drop_cr (take i text) :: ScanLines fuel (drop (i + 1) text)
    | None =>
      if bool_decide (text = []) then []
      else if bool_decide (length text < MaxScanTokenSize)%nat then [drop_cr text] else []
    end
  end.
Definition scan (text : list Z) : list (list Z) := ScanLines (S (length text)) text.

Definition hostEvent (ty : Z) (id : NodeId) (data : list Z) : Event :=
  set_Data data (set_NodeId id (set_Type ty zeroEvent)).

Definition lineReaderStdOut (cfg : NodeConfig) (id : NodeId) (text : list Z) : res (list Event) :=
  _ ← assert_true (nc_IsRcp cfg);
  Ok (map (fun line => hostEvent EventTypeUartWrite id (line ++ [10])%list) (scan text)).

(** The events of one line, and the prefix that was found so far. *)
Definition stderrLine (cfg : NodeConfig) (id : NodeId) (syslogPrefix line : string) : list Event * string :=
  let isOtBr := nc_IsRcp cfg && nc_IsBorderRouter cfg in
  let syslogPrefix :=
    if nc_IsRcp cfg && negb isOtBr && String.eqb syslogPrefix "" then ParseSyslogPrefix line else syslogPrefix in
  let hasPrefix := nc_IsRcp cfg && negb isOtBr && negb (String.eqb syslogPrefix "") && HasPrefix line syslogPrefix in
  let line := if hasPrefix then substr_from (String.length syslogPrefix) line else line in
  let '(isStatusPush, status) := if nc_IsRcp cfg then ParseOtnsStatusPush line else (false, "") in
  let isOtLogLine := hasPrefix || isStatusPush in
  let line := if negb isOtLogLine && negb isOtBr then "[C] StdErr--------: " +:+ line else line in
  (((if isStatusPush then [hostEvent EventTypeStatusPush id (bytes_of_string status)] else []) ++
    [hostEvent EventTypeLogWriteHost id (bytes_of_string line)])%list, syslogPrefix).
Fixpoint stderrLines (cfg : NodeConfig) (id : NodeId) (syslogPrefix : string) (lines : list string) : list Event :=
  match lines with
  | [] => []
  | line :: lines =>
    let '(evts, syslogPrefix) := stderrLine cfg id syslogPrefix line in
    (evts ++ stderrLines cfg id syslogPrefix lines)%list
  end.
Definition lineReaderStdErr (cfg : NodeConfig) (id : NodeId) (text : list Z) : list Event :=
  (stderrLines cfg id "" (map string_of_bytes (scan text)) ++ [hostEvent EventTypeUartDisconnected id []])%list.

(** ** [getCommitFromOtVersion] (utils.go) *)
Definition getCommitFromOtVersion (ver : string) : string :=
  if HasPrefix ver "OPENTHREAD/" && bool_decide (13 <= String.length ver)%nat then
    let commit := substr_from 11 ver in
    match Index commit ";" with
    | Some (S k) => String.substring 0 (S k) commit
    | _ => ""
    end
  else "".

Example commit_ex : map getCommitFromOtVersion
    ["OPENTHREAD/thread-reference-20230706-1234-g5678; SIMULATION; Aug"; "OPENTHREAD/;x"; "OPENTHREAD/abcdef"; "x"] =
  ["thread-reference-20230706-1234-g5678"; ""; ""; ""].
Proof. reflexivity. Qed.
Definition rcp_cfg : NodeConfig := set_flags DefaultNodeConfig false true true false false false.
Example stderr_ex :
  map (fun e => (ev_Type e, string_of_bytes (ev_Data e))) (lineReaderStdErr rcp_cfg 4
    (txt "ot-cli[7]: hello" ++ [13; 10] ++ txt "ot-cli[7]: 00:00 [-] Otns---: role=4" ++ [10] ++ txt "oops")%list) =
  [(EventTypeLogWriteHost, "hello"); (EventTypeStatusPush, "role=4");
   (EventTypeLogWriteHost, "00:00 [-] Otns---: role=4"); (EventTypeLogWriteHost, "[C] StdErr--------: oops");
   (EventTypeUartDisconnected, "")].
Proof. vm_compute. reflexivity. Qed.

(** ** Theorems *)

(** Every node object belongs to the node; a failed start leaves no process behind, and a
    started process is that of a node that is not external. *)
Lemma newNode_spec `{OsEnv} s nodeid cfg n p e :
  newNode s nodeid cfg = (n, p, e) ->
  (forall x : SimNode, n = Some x -> sn_Id x = nodeid /\ sn_cfg x = cfg /\ sn_isExiting x = false) /\
  (e = None -> is_Some n /\ (p = None <-> nc_IsExternal cfg = true)) /\ (e <> None -> p = None).
Proof.
  unfold newNode. intros E. destruct (node_command s nodeid cfg) as [x|[exe args]]; [by simplify_eq|].
  destruct (if negb (nc_Restore cfg) && negb (nc_IsExternal cfg) then _ else None); [by simplify_eq|].
  destruct (if negb (nc_IsExternal cfg) then _ else None); [by simplify_eq|].
  destruct (nc_IsExternal cfg).
  - simplify_eq. split; [by intros x [= <-]|]. split; [|done]. intros _. split; [by eexists|done].
  - match type of E with context [cmd_Start ?c] => set (cmd := c) in E end.
    destruct cmd_StdinPipe, cmd_StdoutPipe, cmd_StderrPipe, (cmd_Start cmd); simplify_eq;
      (split; [by intros x [= <-]|]); (split; [|done]); by intros He.
Qed.

Lemma IndexByte_None l c : IndexByte l c = None <-> c ∉ l.
Proof.
  induction l as [|x l IH]; simpl; [by split; [intros _ ?%elem_of_nil|]|].
  rewrite not_elem_of_cons. destruct (Z.eqb_spec x c) as [->|Hne]; [naive_solver|].
  destruct (IndexByte l c) eqn:E; simpl; naive_solver.
Qed.
Lemma IndexByte_split l c i :
  IndexByte l c = Some i -> exists l1 l2, l = (l1 ++ c :: l2)%list /\ length l1 = i /\ c ∉ l1.
Proof.
  revert i. induction l as [|x l IH]; intros i H; simpl in *; [done|]. destruct (Z.eqb_spec x c) as [->|Hne].
  - injection H as <-. exists [], l. split; [done|]. split; [done|]. apply not_elem_of_nil.
  - destruct (IndexByte l c) as [k|]; [|done]. injection H as <-. destruct (IH k eq_refl) as (l1 & l2 & -> & <- & Hn).
    exists (x :: l1), l2. split; [done|]. split; [done|]. by apply not_elem_of_cons.
Qed.

(** Carriage returns before the end of a line make no difference to the UART. *)
Lemma TrimRightEol_cr line : TrimRightEol (line ++ [13; 10]) = TrimRightEol (line ++ [10]).
Proof. unfold TrimRightEol. by rewrite !rev_app_distr. Qed.
Lemma uart_lines_end line rest :
  10 ∉ line -> has_prompt (line ++ 10 :: rest)%list = false ->
  uart_lines (line ++ 10 :: rest) =
    (string_of_bytes (TrimRightEol (line ++ [10])) :: (uart_lines rest).1, (uart_lines rest).2).
Proof.
  intros Hn Hp. rewrite uart_lines_turn. unfold turn. rewrite Hp, IndexByte_line by (by intros x Hx ->).
  change (10 :: rest) with ([10] ++ rest)%list. rewrite app_assoc.
  replace (length line + 1)%nat with (length (line ++ [10])) by (rewrite length_app; simpl; lia).
  rewrite take_app_length, drop_app_length. by destruct (uart_lines rest).
Qed.
Lemma uart_lines_cr line rest :
  10 ∉ line -> uart_lines (line ++ 13 :: 10 :: rest) = uart_lines (line ++ 10 :: rest).
Proof.
  remember (length line) as n eqn:Hn. revert line Hn. induction (lt_wf n) as [n _ IH]. intros line -> Hl.
  destruct (has_prompt (line ++ 10 :: rest)) eqn:Hp.
  - assert (exists l, line = (OtCliPrompt ++ l)%list) as (l & ->).
    { unfold has_prompt in Hp. apply bool_decide_eq_true in Hp. destruct line as [|x [|y l]]; [done..|].
      exists l. simpl in Hp. rewrite take_0 in Hp. by injection Hp as -> ->. }
    rewrite <- !app_assoc. pose proof (uart_lines_prompts 1) as HP. cbn [replicate concat] in HP.
    rewrite app_nil_r in HP. rewrite !HP. eapply IH; [|done|].
    + rewrite length_app. simpl. lia.
    + intros Hin. apply Hl, elem_of_app. by right.
  - rewrite uart_lines_end by done. change (13 :: 10 :: rest) with ([13] ++ 10 :: rest)%list. rewrite app_assoc.
    rewrite uart_lines_end.
    + rewrite <- app_assoc. by rewrite TrimRightEol_cr.
    + intros [?|Hx]%elem_of_app; [done|]. by apply list_elem_of_singleton in Hx.
    + unfold has_prompt in *. apply bool_decide_eq_false in Hp. apply bool_decide_eq_false_2. intros E. apply Hp.
      destruct line as [|x [|y l]]; done.
Qed.
Lemma uart_lines_drop_cr line rest :
  10 ∉ line -> uart_lines (drop_cr line ++ 10 :: rest) = uart_lines (line ++ 10 :: rest).
Proof.
  intros Hl. unfold drop_cr. destruct (rev line) as [|x r] eqn:E; [done|].
  assert (line = rev r ++ [x])%list as -> by (by rewrite <- (rev_involutive line), E).
  destruct (decide (x = 13)) as [->|Hne].
  - rewrite <- app_assoc. symmetry. apply uart_lines_cr. intros Hin. apply Hl, elem_of_app. by left.
  - assert (forall A (u v : A), match x with 13 => u | _ => v end = v) as ->; [|done].
    intros A u v. destruct x as [|q|]; try done. repeat (destruct q as [q|q|]; try done).
Qed.

(** The scanner finds the lines of a text. *)
Definition line_text (lines : list (list Z)) : list Z := concat (map (fun l => l ++ [10])%list lines).
Definition fits (line : list Z) : Prop := (10 ∉ line) /\ (length line < MaxScanTokenSize)%nat.
Lemma ScanLines_line fuel line rest :
  fits line -> ScanLines (S fuel) (line ++ 10 :: rest) = drop_cr line :: ScanLines fuel rest.
Proof.
  intros [Hn Hlen]. cbn [ScanLines].
  assert (take MaxScanTokenSize (line ++ 10 :: rest) = line ++ 10 :: take (MaxScanTokenSize - length line - 1) rest)%list as ->.
  { rewrite take_app_ge by lia. f_equal. destruct (MaxScanTokenSize - length line)%nat as [|k] eqn:Ek; [lia|]. cbn.
    by rewrite Nat.sub_0_r. }
  rewrite IndexByte_line by (by intros x Hx ->). rewrite take_app_length.
  change (10 :: rest) with ([10] ++ rest)%list. rewrite app_assoc.
  replace (length line + 1)%nat with (length (line ++ [10])) by (rewrite length_app; simpl; lia).
  by rewrite drop_app_length.
Qed.
Lemma ScanLines_text lines fuel :
  Forall fits lines -> (length (line_text lines) < fuel)%nat -> ScanLines fuel (line_text lines) = map drop_cr lines.
Proof.
  intros HF. revert fuel. induction HF as [|line lines Hl HF IH]; intros fuel Hfu.
  - destruct fuel; [lia|]. cbn [line_text map concat ScanLines]. by rewrite take_nil.
  - unfold line_text in *. cbn [map concat] in *. rewrite <- app_assoc in *. cbn [app] in *.
    rewrite length_app in Hfu. cbn [length] in Hfu. destruct fuel as [|fuel]; [lia|].
    rewrite ScanLines_line by done. f_equal. apply IH. lia.
Qed.
Lemma uart_lines_ended line ls r : 10 ∉ line -> uart_lines (line ++ [10]) = (ls, r) -> r = [].
Proof.
  remember (length line) as n eqn:Hlen. revert line ls Hlen. induction (lt_wf n) as [n _ IH]. intros line ls -> Hn E.
  destruct (has_prompt (line ++ [10])) eqn:Hp.
  - rewrite uart_lines_turn in E. unfold turn in E. rewrite Hp in E. apply bool_decide_eq_true in Hp.
    destruct line as [|x [|y l]]; [done..|]. unfold OtCliPromptLen in E. cbn [app drop] in E.
    destruct (uart_lines (drop 0 (l ++ [10]))) as [ls' r'] eqn:E'. injection E as _ ->. rewrite drop_0 in E'.
    eapply (IH (length l)); [simpl; lia|done| |done]. by repeat apply not_elem_of_cons in Hn as [_ Hn].
  - rewrite uart_lines_end in E by done. by injection E.
Qed.
Lemma uart_lines_scanned lines :
  Forall fits lines -> uart_lines (concat (map (fun l => drop_cr l ++ [10])%list lines)) = uart_lines (line_text lines).
Proof.
  intros HF. unfold line_text. induction HF as [|line lines [Hn _] _ IH]; [done|]. cbn [map concat].
  rewrite <- !app_assoc. cbn [app]. rewrite uart_lines_drop_cr by done.
  replace (line ++ 10 :: concat (map (fun l => (drop_cr l ++ [10])%list) lines))%list
    with ((line ++ [10]) ++ concat (map (fun l => (drop_cr l ++ [10])%list) lines))%list by (by rewrite <- app_assoc).
  replace (line ++ 10 :: concat (map (fun l => (l ++ [10])%list) lines))%list
    with ((line ++ [10]) ++ concat (map (fun l => (l ++ [10])%list) lines))%list by (by rewrite <- app_assoc).
  rewrite !(uart_lines_app (line ++ [10])). destruct (uart_lines (line ++ [10])) as [ls r] eqn:E.
  assert (r = []) as ->; [|cbn [app]; by rewrite IH].
  by eapply uart_lines_ended.
Qed.

(** The lines that a node process prints on its standard output reach the command line
    of the simulation unchanged: taken from the events that the reader posts, they are the
    lines of the text itself, for any text of lines shorter than 64 KB.  Every event is
    addressed to the node. *)
Theorem stdout_lines cfg id lines :
  nc_IsRcp cfg = true -> Forall fits lines ->
  exists evts, lineReaderStdOut cfg id (line_text lines) = Ok evts /\
    Forall (fun e => ev_Type e = EventTypeUartWrite /\ ev_NodeId e = id) evts /\
    uart_chunks [] (map ev_Data evts) = uart_lines (line_text lines).
Proof.
  intros HR HF. unfold lineReaderStdOut. rewrite HR. cbn [assert_true mbind res_bind]. eexists. split; [reflexivity|].
  split; [apply Forall_map, Forall_true; done|]. unfold scan. rewrite ScanLines_text by (done || lia).
  rewrite !map_map. cbn [hostEvent ev_Data set_Data]. rewrite uart_chunks_concat by done. cbn [app].
  by apply uart_lines_scanned.
Qed.
Lemma stdout_lines_witness :
  exists evts, lineReaderStdOut rcp_cfg 4 (line_text [txt "> state"; (txt "leader" ++ [13])%list; txt "Done"]) = Ok evts /\
    Forall (fun e => ev_Type e = EventTypeUartWrite /\ ev_NodeId e = 4) evts /\
    uart_chunks [] (map ev_Data evts) = (["state"; "leader"; "Done"], []).
Proof.
  destruct (stdout_lines rcp_cfg 4 [txt "> state"; (txt "leader" ++ [13])%list; txt "Done"]) as (evts & E & H & L).
  - reflexivity.
  - repeat apply Forall_cons_2; [..|done]; (split; [|unfold MaxScanTokenSize; simpl; lia]);
      rewrite list_elem_of_In; vm_compute; intuition discriminate.
  - exists evts. split; [exact E|]. split; [exact H|]. rewrite L. vm_compute. reflexivity.
Defined.

(** A line that does not fit the scanner's buffer ends the reader: whatever follows is never
    read, and the node counts as disconnected. *)
Lemma long_line_ends_reader cfg id line rest :
  10 ∉ line -> (MaxScanTokenSize <= length line)%nat ->
  lineReaderStdErr cfg id (line ++ rest) = [hostEvent EventTypeUartDisconnected id []].
Proof.
  intros Hn Hlen. unfold lineReaderStdErr, scan. cbn [ScanLines]. rewrite take_app_le by done.
  assert (IndexByte (take MaxScanTokenSize line) 10 = None) as ->.
  { apply IndexByte_None. intros Hin. apply Hn. rewrite <- (take_drop MaxScanTokenSize line). apply elem_of_app. by left. }
  assert ((length (line ++ rest)%list >= MaxScanTokenSize)%nat) by (rewrite length_app; lia).
  rewrite (bool_decide_false (_ < _)%nat) by lia. by destruct (bool_decide _).
Qed.
