(* ===== verification/Kpi.v ===== *)
(** * Key performance indicators

    The data and the calculations of src/simulation/kpi.go and kpi_data.go, and the counters
    of nodes (types.go, utils.go): what was counted in a period is the difference of the
    counters at its end and at its start, and the counters of all nodes are added up.
    Ranging over a map is [map_fold]; the theorems do not depend on its order. *)

From S2P Require Import Prelude State Types GoFloat Coaps RadioModel.

Local Open Scope Z_scope.

(** ** Counters *)
Abbreviation NodeCounters := (gmap string Z) (only parsing).

Definition add_counter (k : string) (vAdd : Z) (nc : NodeCounters) : NodeCounters :=
  match nc !! k with
  | Some vCur => <[k:=u64 (vCur + vAdd)]> nc
  | None => <[k:=vAdd]> nc
  end.
Definition Add (nc other : NodeCounters) : NodeCounters := map_fold add_counter nc other.

Definition mergeNodeCounters (counters : list NodeCounters) : NodeCounters :=
  foldl (fun r c => map_fold (fun k v r => <[k:=v]> r) r c) ∅ counters.

Definition getCountersDiff (curCtr startCtr : NodeCounters) : NodeCounters :=
  map_fold (fun k v (ret : NodeCounters) => <[k:=u64 (v - default 0 (startCtr !! k))]> ret) ∅ curCtr.

Definition calculateCountersSum (nodeCounters : gmap NodeId NodeCounters) : NodeCounters :=
  map_fold (fun _ counters nc => Add nc counters) ∅ nodeCounters.

(** ** The data that is saved *)
Record KpiTimeUs := mkTimeUs { StartTimeUs : Z; EndTimeUs : Z; PeriodUs : Z }.
Record KpiTimeSec := mkTimeSec { StartTimeSec : float; EndTimeSec : float; PeriodSec : float }.
Record KpiChannel := mkKpiChannel { kc_TxTimeUs : Z; TxPercentage : float; kc_NumFrames : Z; AvgFps : float }.
Record KpiCoapUri := mkCoapUri { ku_Count : Z; ku_CountLost : Z; ku_LatencyMs : float }.
Record Kpi := mkKpi {
  kd_Status : string;
  kd_TimeUs : KpiTimeUs;
  kd_TimeSec : KpiTimeSec;
  kd_Channels : gmap ChannelId KpiChannel;
  kd_NoAckPercentage : gmap NodeId float;
  kd_Counters : gmap NodeId NodeCounters;
  kd_CountersSum : NodeCounters;
  kd_CoapUri : gmap string KpiCoapUri;
}.
(** [curCounters] is nil when the simulation was interrupted. *)
Record KpiManager := mkKpiManager {
  km_data : Kpi;
  km_startCounters : option (gmap NodeId NodeCounters);
  km_curCounters : option (gmap NodeId NodeCounters);
  km_curRadioStats : gmap ChannelId KpiChannel;
  km_curCoaps : list CoapMessage;
  km_isRunning : bool;
}.
Definition zeroKpi : Kpi :=
  mkKpi "ok" (mkTimeUs 0 0 0) (mkTimeSec 0 0 0) ∅ ∅ ∅ ∅ ∅.
Definition NewKpiManager : KpiManager := mkKpiManager zeroKpi (Some ∅) (Some ∅) ∅ [] false.

Definition stopNode (nodeid : NodeId) (km : KpiManager) : KpiManager :=
  mkKpiManager (km_data km) (delete nodeid <$> km_startCounters km) (delete nodeid <$> km_curCounters km)
    (km_curRadioStats km) (km_curCoaps km) (km_isRunning km).

(** ** Calculations *)
Definition round3 (f : float) : float := (f_Round (f * 1000) / 1000)%float.
Definition noAckPercentage (counters : NodeCounters) : float :=
  let c k := f_of_Z (default 0 (counters !! k)) in
  let p := (100 - 100 * c "mac.TxAcked"%string / c "mac.TxAckRequested"%string)%float in
  round3 (if is_nan p then 0%float else p).

(** *** CoAP messages *)
Definition latency (c : CoapMessage) : float :=
  foldl (fun lat r => (lat + f_of_Z (u64 (cr_Timestamp r - cm_Timestamp c)) / 1000)%float) 0%float (cm_Receivers c).
Definition create_uri (uris : gmap string KpiCoapUri) (c : CoapMessage) : gmap string KpiCoapUri :=
  match uris !! cm_URI c with
  | Some _ => uris
  | None => <[cm_URI c := mkCoapUri 0 0 0]> uris
  end.
Definition count_message (c : CoapMessage) (u : KpiCoapUri) : KpiCoapUri :=
  if bool_decide (1 <= length (cm_Receivers c))%nat then
    mkCoapUri (u64 (ku_Count u + 1)) (ku_CountLost u)
      (ku_LatencyMs u + latency c / f_of_Z (Z.of_nat (length (cm_Receivers c))))%float
  else mkCoapUri (u64 (ku_Count u + 1)) (u64 (ku_CountLost u + 1)) (ku_LatencyMs u).
Definition average (u : KpiCoapUri) : KpiCoapUri :=
  mkCoapUri (ku_Count u) (ku_CountLost u)
    (if ku_Count u >? ku_CountLost u then
       (f_Round (1000 * ku_LatencyMs u / f_of_Z (u64 (ku_Count u - ku_CountLost u))) / 1000)%float
     else (-1)%float).
Definition coap_kpis (coaps : list CoapMessage) : gmap string KpiCoapUri :=
  let uris := foldl create_uri ∅ coaps in
  let uris := foldl (fun uris c => alter (count_message c) (cm_URI c) uris) uris coaps in
  average <$> uris.

Definition interrupted : string := "'counters' and 'mac' not included due to interrupted simulation".
Definition calculateKpis (curTime : Z) (km : KpiManager) : KpiManager :=
  let d := km_data km in
  let t := mkTimeUs (StartTimeUs (kd_TimeUs d)) curTime (u64 (curTime - StartTimeUs (kd_TimeUs d))) in
  let sec z := (f_of_Z z / 1000000)%float in
  let ts := mkTimeSec (sec (StartTimeUs t)) (sec (EndTimeUs t)) (sec (PeriodUs t)) in
  let counters := match km_curCounters km with
    | None => ∅
    | Some cur => map_imap (fun nid ctr =>
        Some (getCountersDiff ctr (default ∅ (default ∅ (km_startCounters km) !! nid)))) cur
    end in
  mkKpiManager
    (mkKpi (match km_curCounters km with None => interrupted | Some _ => kd_Status d end) t ts (km_curRadioStats km)
       (noAckPercentage <$> counters) counters
       (match km_curCounters km with None => kd_CountersSum d | Some _ => calculateCountersSum counters end)
       (coap_kpis (km_curCoaps km)))
    (km_startCounters km) (km_curCounters km) (km_curRadioStats km) (km_curCoaps km) (km_isRunning km).

(** *** Channels *)
Definition channelKpi (passedTime : Z) (stats : ChannelStats) : KpiChannel :=
  mkKpiChannel (cs_TxTimeUs stats)
    (f_Round (100000 * f_of_Z (cs_TxTimeUs stats) / f_of_Z passedTime) / 1000)%float
    (cs_NumFrames stats)
    (f_Round (1000000000 * f_of_Z (cs_NumFrames stats) / f_of_Z passedTime) / 1000)%float.

(** ** Theorems: counters *)
Implicit Types nc : NodeCounters.
Definition counters_ok nc : Prop := map_Forall (fun _ v => in_u 64 v) nc.

Lemma Add_lookup nc other k :
  Add nc other !! k =
    match nc !! k, other !! k with
    | Some a, Some v => Some (u64 (a + v))
    | Some a, None => Some a
    | None, x => x
    end.
Proof.
  unfold Add. revert k. apply (map_fold_weak_ind (fun r other => forall k, r !! k =
    match nc !! k, other !! k with
    | Some a, Some v => Some (u64 (a + v)) | Some a, None => Some a | None, x => x end)).
  - intros k. rewrite lookup_empty. by destruct (nc !! k).
  - intros i x m r Hi IH k. unfold add_counter. destruct (decide (k = i)) as [->|Hne].
    + rewrite lookup_insert_eq. specialize (IH i). rewrite Hi in IH. destruct (nc !! i) as [a|].
      * rewrite IH. by rewrite lookup_insert_eq.
      * rewrite IH. by rewrite lookup_insert_eq.
    + rewrite (lookup_insert_ne m) by done. rewrite <- IH. by destruct (r !! i); rewrite lookup_insert_ne.
Qed.
Lemma getCountersDiff_lookup cur start k :
  getCountersDiff cur start !! k = (fun v => u64 (v - default 0 (start !! k))) <$> cur !! k.
Proof.
  unfold getCountersDiff. revert k.
  apply (map_fold_weak_ind (fun r cur => forall k, r !! k = (fun v => u64 (v - default 0 (start !! k))) <$> cur !! k)).
  - intros k. by rewrite !lookup_empty.
  - intros i x m r Hi IH k. destruct (decide (k = i)) as [->|Hne]; [by rewrite !lookup_insert_eq|].
    by rewrite !lookup_insert_ne.
Qed.
Lemma Add_ok nc other : counters_ok nc -> counters_ok other -> counters_ok (Add nc other).
Proof.
  intros H1 H2 k v. rewrite Add_lookup. destruct (nc !! k) eqn:E1, (other !! k) eqn:E2; intros [= <-];
    [apply u64_range|by eapply H1|by eapply H2].
Qed.
Lemma getCountersDiff_ok cur start : counters_ok (getCountersDiff cur start).
Proof. intros k v. rewrite getCountersDiff_lookup. intros (x & _ & ->)%fmap_Some. apply u64_range. Qed.

(** What the nodes of [m] counted under [k]. *)
Definition counter_total (k : string) (m : gmap NodeId NodeCounters) : Z :=
  foldr (fun '(_, c) n => default 0 (c !! k) + n) 0 (map_to_list m).
Lemma sum_lookup (l : list (NodeId * gmap string Z)) k :
  Forall (fun x => counters_ok x.2) l ->
  let s := foldr (fun '(_, c) nc => Add nc c) ∅ l in
  counters_ok s /\ default 0 (s !! k) = u64 (foldr (fun '(_, c) n => default 0 (c !! k) + n) 0 l) /\
  (is_Some (s !! k) <-> exists x, x ∈ l /\ is_Some (x.2 !! k)).
Proof.
  induction 1 as [|[nid c] l Hc HF IH]; cbn [foldr].
  - split; [by intros ? ? ?|]. split; [done|]. rewrite lookup_empty. split; [by intros []|]. by intros (x & ?%elem_of_nil & _).
  - destruct IH as (I1 & I2 & I3). set (s := foldr _ _ l) in *. cbn in Hc. split; [by apply Add_ok|]. split.
    + rewrite Add_lookup. set (n := foldr _ 0 l) in *. destruct (s !! k) as [a|] eqn:Es, (c !! k) as [v|] eqn:Ec; cbn in *.
      * rewrite I2. ulia.
      * rewrite I2. ulia.
      * pose proof (Hc k v Ec). assert (0 = u64 n) as Hn by done. ulia.
      * done.
    + rewrite Add_lookup. setoid_rewrite elem_of_cons. split.
      * destruct (c !! k) as [v|] eqn:Ec.
        -- intros _. exists (nid, c). split; [by left|]. cbn. by rewrite Ec.
        -- intros Hs. destruct I3 as [I3 _]. destruct I3 as (x & Hx & Hk); [by destruct (s !! k)|].
           exists x. split; [by right|done].
      * intros (x & [->|Hx] & [v Hk]); cbn in *; [rewrite Hk; by destruct (s !! k)|].
        destruct I3 as [_ I3]. destruct I3 as [a ->]; [by exists x; split; [|exists v]|]. by destruct (c !! k).
Qed.
Lemma counters_sum m k :
  map_Forall (fun _ c => counters_ok c) m ->
  default 0 (calculateCountersSum m !! k) = u64 (counter_total k m) /\
  (is_Some (calculateCountersSum m !! k) <-> exists nid c, m !! nid = Some c /\ is_Some (c !! k)).
Proof.
  intros HF. unfold calculateCountersSum, counter_total. rewrite map_fold_foldr.
  pose proof (sum_lookup (map_to_list m) k) as H.
  assert (Forall (fun x => counters_ok x.2) (map_to_list m)) as HL.
  { apply Forall_forall. intros [nid c] Hx%elem_of_map_to_list. by apply (HF nid). }
  specialize (H HL) as (_ & H2 & H3).
  assert (foldr (uncurry (fun (_ : NodeId) c nc => Add nc c)) ∅ (map_to_list m) =
          foldr (fun '(_, c) nc => Add nc c) ∅ (map_to_list m)) as E.
  { apply foldr_ext; [by intros [] ?|done|done]. }
  split; [by rewrite <- H2, <- E|]. rewrite E. etransitivity; [exact H3|]. split.
  - intros ([nid c] & Hx%elem_of_map_to_list & ?). by exists nid, c.
  - intros (nid & c & Hx & ?). exists (nid, c). split; [by apply elem_of_map_to_list|done].
Qed.

(** The counters of a period are exact.  For every node that counted, the reported value
    and the value at the start of the period add up to the value at the end, also when the
    64-bit counter wrapped around in between; a node that was added meanwhile starts from 0.
    The sum over the nodes is the sum of what is reported for them, modulo 2^64. *)
Theorem calculateKpis_counters t km cur :
  km_curCounters km = Some cur -> map_Forall (fun _ c => counters_ok c) cur ->
  let d := km_data (calculateKpis t km) in
  (forall nid, is_Some (kd_Counters d !! nid) <-> is_Some (cur !! nid)) /\
  (forall nid c rep k, cur !! nid = Some c -> kd_Counters d !! nid = Some rep ->
     match c !! k, rep !! k with
     | Some v, Some x => u64 (default 0 (default ∅ (default ∅ (km_startCounters km) !! nid) !! k) + x) = v
     | None, None => True
     | _, _ => False
     end) /\
  forall k, default 0 (kd_CountersSum d !! k) = u64 (counter_total k (kd_Counters d)).
Proof.
  intros Hc HF d. set (start := default ∅ (km_startCounters km)).
  assert (kd_Counters d = map_imap (fun nid ctr => Some (getCountersDiff ctr (default ∅ (start !! nid)))) cur) as E
    by (unfold d, calculateKpis; rewrite Hc; done).
  split; [|split].
  - intros nid. rewrite E, map_lookup_imap. by destruct (cur !! nid).
  - intros nid c rep k Hn. rewrite E, map_lookup_imap, Hn. cbn. intros [= <-]. rewrite getCountersDiff_lookup.
    destruct (c !! k) as [v|] eqn:Ev; cbn; [|done]. pose proof (HF nid c Hn k v Ev) as Hv. ulia.
  - intros k. assert (kd_CountersSum d = calculateCountersSum (kd_Counters d)) as ->
      by (unfold d, calculateKpis; rewrite Hc; done).
    apply counters_sum. rewrite E. intros nid rep.
    rewrite map_lookup_imap. intros (c & _ & [= <-])%bind_Some. apply getCountersDiff_ok.
Qed.
Definition ex_kpi : KpiManager :=
  mkKpiManager zeroKpi (Some {[1 := {["ip.tx"%string := 2 ^ 64 - 3]}]})
    (Some (<[1:={["ip.tx"%string := 4]}]> {[2 := {["ip.tx"%string := 5]}]})) ∅ [] true.
Lemma calculateKpis_counters_witness :
  let d := km_data (calculateKpis 1000 ex_kpi) in
  kd_Counters d !! 1 = Some {["ip.tx"%string := 7]} /\
  kd_CountersSum d !! "ip.tx"%string = Some 12 /\
  forall k, default 0 (kd_CountersSum d !! k) = u64 (counter_total k (kd_Counters d)).
Proof.
  split; [vm_compute; reflexivity|]. split; [vm_compute; reflexivity|].
  apply (calculateKpis_counters 1000 ex_kpi (<[1:={["ip.tx"%string := 4]}]> {[2 := {["ip.tx"%string := 5]}]})).
  - reflexivity.
  - apply map_Forall_insert_2; [|apply map_Forall_singleton]; apply map_Forall_singleton; ulia.
Defined.

(** ** Theorems: CoAP messages *)
Section coap.
Implicit Types (cs : list CoapMessage) (uris : gmap string KpiCoapUri).

Definition of_uri (uri : string) cs : list CoapMessage := filter (fun c => cm_URI c = uri) cs.
Definition lost (c : CoapMessage) : Prop := cm_Receivers c = [].
#[export] Instance lost_dec c : Decision (lost c).
Proof. unfold lost. apply _. Defined.
Definition num {A} (l : list A) : Z := Z.of_nat (length l).

Lemma create_uris cs uris uri :
  is_Some (foldl create_uri uris cs !! uri) <-> is_Some (uris !! uri) \/ of_uri uri cs <> [].
Proof.
  revert uris. induction cs as [|c cs IH]; intros uris; cbn [foldl]; [naive_solver|]. rewrite IH.
  unfold create_uri, of_uri. rewrite filter_cons. destruct (decide (cm_URI c = uri)) as [<-|Hne].
  - destruct (uris !! cm_URI c) eqn:E; rewrite ?lookup_insert_eq, ?E; naive_solver.
  - destruct (uris !! cm_URI c) eqn:E; [done|]. by rewrite lookup_insert_ne.
Qed.
Lemma create_zero cs uris uri u :
  (forall v, uris !! uri = Some v -> v = mkCoapUri 0 0 0) -> foldl create_uri uris cs !! uri = Some u -> u = mkCoapUri 0 0 0.
Proof.
  revert uris. induction cs as [|c cs IH]; intros uris HZ; cbn [foldl]; [apply HZ|]. apply IH.
  unfold create_uri. destruct (uris !! cm_URI c) eqn:E; [done|]. intros v [[_ <-]|[_ ?]]%lookup_insert_Some; [done|by apply HZ].
Qed.
Lemma count_messages cs uris uri u :
  uris !! uri = Some u -> in_u 64 (ku_Count u) -> in_u 64 (ku_CountLost u) ->
  ku_Count u + num cs < 2 ^ 64 -> ku_CountLost u + num cs < 2 ^ 64 ->
  exists lat, foldl (fun uris c => alter (count_message c) (cm_URI c) uris) uris cs !! uri =
    Some (mkCoapUri (ku_Count u + num (of_uri uri cs)) (ku_CountLost u + num (filter lost (of_uri uri cs))) lat).
Proof.
  revert uris u. induction cs as [|c cs IH]; intros uris u Hu H1 H2 B1 B2; cbn [foldl].
  - exists (ku_LatencyMs u). unfold num. cbn. rewrite !Z.add_0_r. by destruct u.
  - unfold num in B1, B2. cbn [length] in B1, B2. unfold of_uri. rewrite filter_cons.
    destruct (decide (cm_URI c = uri)) as [<-|Hne].
    + assert (alter (count_message c) (cm_URI c) uris !! cm_URI c = Some (count_message c u)) as E
        by (by rewrite lookup_alter_eq, Hu).
      assert (ku_Count (count_message c u) = ku_Count u + 1 /\
              ku_CountLost (count_message c u) = ku_CountLost u + num (filter lost [c])) as [EC EL].
      { unfold count_message, num. rewrite filter_cons, filter_nil. destruct (decide (lost c)) as [HL|HL].
        - rewrite bool_decide_false by (rewrite HL; cbn; lia). cbn. rewrite !u64_id; [done|..]; unfold in_u in *; lia.
        - rewrite bool_decide_true by (unfold lost in HL; destruct (cm_Receivers c); [done|cbn; lia]).
          cbn. rewrite !u64_id, Z.add_0_r; [done|..]; unfold in_u in *; lia. }
      assert (0 <= num (filter lost [c]) <= 1) as Hle.
      { unfold num. rewrite filter_cons, filter_nil. case_decide; cbn; lia. }
      destruct (IH _ _ E) as (lat & EI).
      * rewrite EC. unfold in_u in *. lia.
      * rewrite EL. unfold in_u in *. lia.
      * rewrite EC. unfold num. lia.
      * rewrite EL. unfold num in *. lia.
      * exists lat. rewrite EI, EC, EL. do 2 f_equal.
        -- unfold num, of_uri. cbn [length]. lia.
        -- unfold num, of_uri. rewrite !(filter_cons lost c), filter_nil. case_decide; cbn [length]; lia.
    + apply IH; [by rewrite lookup_alter_ne|done|done|unfold num; lia|unfold num; lia].
Qed.
End coap.

(** The CoAP figures of a period: there is an entry for exactly the URIs that messages
    were sent to, with the number of messages sent to it and the number of those that nobody
    received; the latency is marked undefined when all were lost. *)
Theorem coap_kpis_counts coaps uri :
  num coaps < 2 ^ 64 ->
  match coap_kpis coaps !! uri with
  | None => of_uri uri coaps = []
  | Some u =>
    of_uri uri coaps <> [] /\ ku_Count u = num (of_uri uri coaps) /\
    ku_CountLost u = num (filter lost (of_uri uri coaps)) /\
    (Forall lost (of_uri uri coaps) -> ku_LatencyMs u = (-1)%float)
  end.
Proof.
  intros Hn. unfold coap_kpis. rewrite lookup_fmap. pose proof (create_uris coaps ∅ uri) as HC.
  rewrite lookup_empty in HC. destruct (foldl create_uri ∅ coaps !! uri) as [u0|] eqn:E0.
  - assert (u0 = mkCoapUri 0 0 0) as -> by (eapply create_zero; [|exact E0]; by intros v; rewrite lookup_empty).
    destruct (count_messages coaps _ uri _ E0) as (lat & E); cbn; [unfold in_u; lia..|]. cbn in E. rewrite E. cbn.
    destruct HC as [HC _]. destruct HC as [[? ?]|HC]; [by eexists|done|]. split; [done|]. split; [lia|]. split; [lia|].
    intros HL. assert (filter lost (of_uri uri coaps) = of_uri uri coaps) as ->.
    { clear -HL. induction HL as [|c l Hc _ IH]; [done|]. by rewrite filter_cons_True, IH. }
    by rewrite Z.gtb_ltb, Z.ltb_irrefl.
  - assert (foldl (fun uris c => alter (count_message c) (cm_URI c) uris) (foldl create_uri ∅ coaps) coaps !! uri = None) as ->.
    { revert E0. generalize (foldl create_uri ∅ coaps). clear. induction coaps as [|c cs IH]; intros m H; [done|].
      cbn [foldl]. apply IH. destruct (decide (cm_URI c = uri)) as [<-|]; [by rewrite lookup_alter_eq, H|].
      by rewrite lookup_alter_ne. }
    cbn. destruct (of_uri uri coaps); [done|]. destruct HC as [_ HC]. destruct HC as [? ?]; [by right|done].
Qed.
Definition ex_message (uri : string) (rs : list CoapMessageRecvInfo) : CoapMessage :=
  mkCoapMessage 1000 1 7 0 2 uri "fd00::2" 5683 "" rs.
Lemma coap_kpis_counts_witness :
  let coaps := [ex_message "a" [mkCoapRecv 3000 2 "" 0]; ex_message "b" []; ex_message "a" []] in
  num (of_uri "a" coaps) = 2 /\ num (filter lost (of_uri "a" coaps)) = 1 /\
  match coap_kpis coaps !! "a"%string with
  | None => of_uri "a" coaps = []
  | Some u => of_uri "a" coaps <> [] /\ ku_Count u = num (of_uri "a" coaps) /\
      ku_CountLost u = num (filter lost (of_uri "a" coaps)) /\ (Forall lost (of_uri "a" coaps) -> ku_LatencyMs u = (-1)%float)
  end.
Proof.
  split; [reflexivity|]. split; [reflexivity|].
  apply (coap_kpis_counts [ex_message "a" [mkCoapRecv 3000 2 "" 0]; ex_message "b" []; ex_message "a" []] "a").
  unfold num. simpl. lia.
Defined.
