(* ===== verification/DispatcherNodes.v ===== *)
(** * The set of nodes of the dispatcher

    Which operations change the map of nodes: adding and deleting a node do, by exactly that
    node; every other operation leaves it alone, whatever events arrive, as long as no
    unknown node is accepted meanwhile. *)

From S2P Require Import Prelude State Types Event GoFloat GoStrings.
From S2P Require Import SendQueue AlarmMgr Visualize DNode Energy RadioNode RadioModel RadioLaws Dispatcher DispatcherIndex.

Local Open Scope Z_scope.

Section nodes.
Context {env : DispEnv} {M : Type} `{!RadioModel M} `{!RadioModelLaws M}.
Implicit Types d : Dispatcher M.
(** Operations that leave the map of nodes alone. *)
Abbreviation fixed m := (forall v, preserves (fun d => d_nodes d = v) m).

Ltac fx_field := apply hoare_modify; intros ?; done.
#[local] Hint Extern 3 (hoare _ (modify _) _) => fx_field : hoare.
Lemma fx_quiet {A} (m : st (Dispatcher M) A) : (forall d0, preserves (same_index d0) m) -> fixed m.
Proof. intros H v d a d' <- E. eapply (H d) in E; [|done]. by destruct E. Qed.
Lemma fx_update f : (forall d d', f d = Ok d' -> d_nodes d' = d_nodes d) -> fixed (update f).
Proof. intros H v. apply hoare_update. intros d d' <- E. by apply H. Qed.
Lemma fx_mod_rloc16Map f : fixed (mod_rloc16Map f).
Proof. apply fx_update. intros d d' E. res_inv. by subst. Qed.
Lemma fx_output o : fixed (output o).
Proof. intros v. fx_field. Qed.
Lemma fx_count c : fixed (count c).
Proof. intros v. fx_field. Qed.
Lemma fx_get_node l : fixed (get_node l).
Proof. intros v. unfold get_node. pres. Qed.
Lemma fx_put_node l n : fixed (put_node l n).
Proof. intros v. fx_field. Qed.
Lemma fx_mod_alarm f : fixed (mod_alarm f).
Proof. apply fx_update. intros d d' E. res_inv. by subst. Qed.
Lemma fx_queue_add e : fixed (queue_add e).
Proof. apply fx_update. intros d d' E. res_inv. by subst. Qed.
Lemma fx_mod_energy f : fixed (mod_energy f).
Proof. apply fx_update. intros d d' E. res_inv. by subst. Qed.
Lemma fx_lookup_node id : fixed (lookup_node id).
Proof. intros v. apply pres_gets. Qed.
Lemma fx_assert b : fixed (assert b).
Proof. intros v. apply pres_lift. Qed.
#[local] Hint Resolve fx_mod_rloc16Map fx_output fx_count fx_get_node fx_put_node fx_mod_alarm fx_queue_add fx_mod_energy
  fx_lookup_node fx_assert : hoare.
Lemma fx_mod_node l f : fixed (mod_node l f).
Proof. intros v. unfold mod_node. pres. Qed.
Lemma fx_vis o : fixed (vis o).
Proof. intros v. fx_field. Qed.
Lemma fx_callback o : fixed (callback o).
Proof. intros v. fx_field. Qed.
Lemma fx_setAlive id : fixed (setAlive id).
Proof. apply fx_quiet. apply si_setAlive. Qed.
Lemma fx_setSleeping id : fixed (setSleeping id).
Proof. intros v. fx_field. Qed.
Lemma fx_updateNodeStats : fixed updateNodeStats.
Proof. apply fx_quiet. apply si_updateNodeStats. Qed.
Lemma fx_radio {A} (m : st (radio_st M) A) : fixed (radio m).
Proof.
  intros v d a d' Hd E. unfold radio in E. destruct (m _) as [[b r]|]; [|done].
  assert (preserves (fun d => d_nodes d = v) (_ ← for_each (rs_out r) queue_add; mret b : st (Dispatcher M) A)) as HP by pres.
  by eapply HP; [|exact E].
Qed.
#[local] Hint Resolve fx_mod_node fx_vis fx_callback fx_setAlive fx_setSleeping fx_updateNodeStats fx_radio : hoare.
Lemma fx_handleStatus l k s : fixed (handleStatus l k s).
Proof.
  intros v. unfold handleStatus, topology, setNodeRole, setNodeRloc16, onStatusPushExtAddr, onExtAddrChanged,
    handleCoapEvent, convertNodeMilliTime. pres.
Qed.
#[local] Hint Resolve fx_handleStatus : hoare.
Lemma fx_handleNodeEvent l evt : fixed (handleNodeEvent l evt).
Proof. intros v. unfold handleNodeEvent, handleStatusPush, onStatusPushExtAddr, onExtAddrChanged. pres. Qed.
#[local] Hint Resolve fx_handleNodeEvent : hoare.
(** No unknown node is accepted. *)
Lemma fx_HandleEvent evt : fixed (HandleEvent (fun _ => mret false) evt).
Proof. intros v. unfold HandleEvent, findNode. pres. Qed.
Lemma fx_sendEvent l evt : fixed (sendEvent l evt).
Proof. apply fx_quiet. apply si_sendEvent. Qed.
#[local] Hint Resolve fx_sendEvent : hoare.
Lemma fx_SendToVirtualUART l data : fixed (SendToVirtualUART l data).
Proof. intros v. unfold SendToVirtualUART. pres. Qed.
Lemma fx_SendRfSimEvent l w p x : fixed (SendRfSimEvent l w p x).
Proof. intros v. unfold SendRfSimEvent. pres. Qed.
Lemma fx_EnableCoaps : fixed EnableCoaps.
Proof. intros v. apply hoare_modify. intros d <-. by destruct (d_coaps d). Qed.
Lemma fx_CollectCoapMessages b : fixed (CollectCoapMessages b).
Proof. intros v. unfold CollectCoapMessages. pres. Qed.

(** ** Adding and deleting *)
Lemma fx_UnwatchNode id : fixed (UnwatchNode id).
Proof. intros v. unfold UnwatchNode. pres. Qed.
Lemma fx_WatchNode id : fixed (WatchNode id).
Proof. intros v. unfold WatchNode. pres. Qed.
Lemma fx_reconstructNodesArray : fixed reconstructNodesArray.
Proof. intros v. unfold reconstructNodesArray. pres. Qed.
Lemma fx_topology : fixed topology.
Proof. intros v. unfold topology. pres. Qed.
#[local] Hint Resolve fx_UnwatchNode fx_WatchNode fx_reconstructNodesArray fx_topology : hoare.

Lemma fx_alloc_node id cfg : fixed (alloc_node id cfg).
Proof. intros v. unfold alloc_node. pres. Qed.

Lemma AddNode_nodes id cfg d l d' :
  AddNode id cfg d = Ok (l, d') -> d_nodes d !! id = None /\ d_nodes d' = <[id:=l]> (d_nodes d).
Proof.
  unfold AddNode. intros E.
  apply bind_st_Ok in E as (ol & ? & [Hol <-]%gets_st_Ok & E).
  apply bind_st_Ok in E as ([] & ? & [Ha <-]%lift_st_Ok & E). apply assert_true_Ok, bool_decide_eq_true in Ha. subst ol.
  apply bind_st_Ok in E as (l1 & d1 & E1 & E). pose proof (fx_alloc_node id cfg (d_nodes d) d l1 d1 eq_refl E1) as H1.
  apply bind_st_Ok in E as ([] & d2 & <-%modify_st_Ok & E). apply bind_st_Ok in E as ([] & d3 & E3%modify_st_Ok & E).
  assert (d_nodes d3 = <[id:=l1]> (d_nodes d)) as H3 by (by rewrite <- E3; simpl; rewrite H1).
  split; [done|]. clear E1 E3 H1.
  assert (hoare (fun x => d_nodes x = <[id:=l1]> (d_nodes d))
    (_ ← reconstructNodesArray; _ ← topology; _ ← mod_alarm (AlarmMgr.AddNode id); x ← get;
     _ ← mod_energy (Energy.AddNode id (d_CurTime x)); _ ← vis (VisAddNode id cfg); _ ← radio (rm_AddNode l1);
     _ ← updateNodeStats; _ ← when (cfg_DefaultWatchOn (d_cfg x) && cfg_WatchLevelOk (d_cfg x)) (WatchNode id);
     _ ← when (negb (d_isFirstNodeAdded x)) (_ ← syncSpeedStart; modify (set_d_isFirstNodeAdded true)); mret l1)
    (fun r x => d_nodes x = <[id:=l1]> (d_nodes d) /\ r = l1)) as HP.
  { do 10 (eapply hoare_bind; [by pres|intros ?]). intros ? ? ? ? [<- <-]%ret_st_Ok. done. }
  destruct (HP _ _ _ H3 E) as [-> ->]. done.
Qed.
Lemma DeleteNode_nodes id d u d' :
  DeleteNode id d = Ok (u, d') -> is_Some (d_nodes d !! id) /\ d_nodes d' = delete id (d_nodes d).
Proof.
  unfold DeleteNode. intros E.
  apply bind_st_Ok in E as (ol & ? & [Hol <-]%gets_st_Ok & E).
  apply bind_st_Ok in E as (l & ? & [Ha <-]%lift_st_Ok & E). apply assert_not_nil_Ok in Ha. subst ol.
  split; [by eexists|]. apply bind_st_Ok in E as ([] & d1 & E1%modify_st_Ok & E).
  assert (d_nodes d1 = delete id (d_nodes d)) as H1 by (by rewrite <- E1). clear E1.
  eapply (hoare_run (fun x => d_nodes x = delete id (d_nodes d))); [exact E|exact H1|]. pres.
Qed.
End nodes.
