(* ===== verification/Lifecycle.v ===== *)
(** * Adding and deleting nodes

    The simulation object (src/simulation/simulation.go) together with the dispatcher it
    drives: [Simulation.AddNode] and [DeleteNode], the callbacks that the dispatcher makes,
    and the tasks that are posted.  The state joins the models of the parts: the dispatcher
    ([Dispatcher]), the node objects ([SimNode]), automatic placement ([NodeConfig]), autogo
    ([Simulation]) and the simulated hosts ([SimHosts]).

    - The dispatcher's callbacks other than [OnNewNodeDetected] do not act on it, so they are
      made after the dispatcher's operation, in order.  [OnNewNodeDetected] adds a node while
      an event is handled, which can wait for more events and so detect more nodes: [AddNode]
      takes fuel for this nesting.
    - [waitForSimulation] handles the events that arrive during one wait; what arrives is a
      parameter ([s_waits], one batch of events per wait).
    - A node object talks to its process ([CliEnv]); events of other nodes that arrive
      meanwhile are handled when it is done.
    - The simulation is not being stopped.  Log output and the last lines of a node that is gone
      are left out. *)

From S2P Require Import Prelude State Types Event GoFloat GoStrings GoText SafePath Datagram.
From S2P Require Import SendQueue AlarmMgr Energy Visualize DNode RadioNode RadioModel RadioLaws Dispatcher DispatcherIndex.
From S2P Require Import NodeConfig Uart SimNode Logger NodeProcess SimHosts Simulation Coaps Kpi.

Local Open Scope string_scope.
Local Open Scope Z_scope.

(** ** Setting up a node *)
Section setup.
Context {env : CliEnv}.
Abbreviation NM := (st SimNode) (only parsing).

Definition defaultWiFiTxInterfererPercentage : Z := 10.
(** [infoVisible]: whether the node is watched at level info. *)
Definition onStart (infoVisible : bool) : NM () :=
  _ ← when infoVisible
        (_ ← GetPanid; _ ← GetChannel; _ ← GetEui64; _ ← SimNode.GetExtAddr; _ ← GetState; _ ← GetNetworkKey;
         _ ← GetMode; _ ← GetVersion; mret tt);
  n ← get;
  when (String.eqb (nc_Type (sn_cfg n)) "wifi") (SetRfSimParam ParamTxInterferer defaultWiFiTxInterfererPercentage).

(** [params] are the radio parameters in the order of the range loop. *)
Fixpoint setParams (params : list (Z * Z)) : NM (option string) :=
  match params with
  | [] => mret None
  | (p, v) :: params =>
    _ ← SetRfSimParam p v;
    e ← CommandResult;
    match e with Some _ => mret e | None => setParams params end
  end.

(** The parts of [AddNode] that talk to the connected node: finding out its version and Thread
    version, and the rest. *)
Definition node_versions : NM (option string * (string * Z)) :=
  e ← setupCli;
  match e with Some e => mret (Some ("node CLI setup error: " +:+ e), ("", 0)) | None =>
  ver ← GetVersion;
  e ← CommandResult;
  match e with Some _ => mret (e, (ver, 0)) | None =>
  threadVer ← GetThreadVersion;
  e ← CommandResult;
  mret (e, (ver, threadVer))
  end end.
Definition node_setup (infoVisible : bool) (params : list (Z * Z)) : NM (option string) :=
  n ← get;
  e ← setParams params;
  match e with Some _ => mret e | None =>
  e ← (if nc_IsRaw (sn_cfg n) then mret None else
       _ ← setupMode;
       e ← CommandResult;
       match e with Some _ => mret e | None => runScript (nc_InitScript (sn_cfg n)) end);
  match e with Some _ => mret e | None =>
  _ ← onStart infoVisible;
  e ← CommandResult;
  _ ← DisplayPendingLines;
  mret e
  end end.
End setup.

(** ** The joint state *)
Record SimConfig := mkSimConfig {
  cf_info : SimInfo;
  cf_Realtime : bool;
  cf_AutoGo : bool;
  cf_Speed : float;
  cf_DumpPackets : bool;
  cf_NewNodeConfig : NodeConfig;
  cf_NewNodeScripts : YamlScriptConfig;
  cf_ExeConfig : ExecutableConfig;
  cf_ExeConfigDefault : ExecutableConfig;
}.

(** Tasks that the simulation posts to itself. *)
Inductive Posted :=
| PDisconnected (nodeid : NodeId)
| PFinalOutput (nodeid : NodeId)
| PFinish (nodeid : NodeId).

Record Sim (M : Type) := mkSim {
  s_cfg : SimConfig;
  (** a node object, and its number among all that were created *)
  s_nodes : gmap NodeId (nat * SimNode);
  s_d : Dispatcher M;
  s_auto : AutoGo;
  s_nodePlacer : NodeAutoPlacer;
  s_kpiMgr : KpiManager;
  s_simHosts : SimHosts;
  s_posted : list Posted;
  s_created : nat;
  s_waits : list (list Event);
  s_networkInfo : NetworkInfo;
}.
Arguments mkSim {M}. Arguments s_cfg {M}. Arguments s_nodes {M}. Arguments s_d {M}. Arguments s_auto {M}.
Arguments s_nodePlacer {M}. Arguments s_kpiMgr {M}. Arguments s_simHosts {M}. Arguments s_posted {M}. Arguments s_created {M}.
Arguments s_waits {M}. Arguments s_networkInfo {M}.

Section fields.
Context {M : Type}.
Implicit Types s : Sim M.
Definition set_nodes v s : Sim M :=
  mkSim (s_cfg s) v (s_d s) (s_auto s) (s_nodePlacer s) (s_kpiMgr s) (s_simHosts s) (s_posted s) (s_created s) (s_waits s) (s_networkInfo s).
Definition set_d v s : Sim M :=
  mkSim (s_cfg s) (s_nodes s) v (s_auto s) (s_nodePlacer s) (s_kpiMgr s) (s_simHosts s) (s_posted s) (s_created s) (s_waits s) (s_networkInfo s).
Definition set_auto v s : Sim M :=
  mkSim (s_cfg s) (s_nodes s) (s_d s) v (s_nodePlacer s) (s_kpiMgr s) (s_simHosts s) (s_posted s) (s_created s) (s_waits s) (s_networkInfo s).
Definition set_placer v s : Sim M :=
  mkSim (s_cfg s) (s_nodes s) (s_d s) (s_auto s) v (s_kpiMgr s) (s_simHosts s) (s_posted s) (s_created s) (s_waits s) (s_networkInfo s).
Definition set_kpi v s : Sim M :=
  mkSim (s_cfg s) (s_nodes s) (s_d s) (s_auto s) (s_nodePlacer s) v (s_simHosts s) (s_posted s) (s_created s) (s_waits s) (s_networkInfo s).
Definition set_hosts v s : Sim M :=
  mkSim (s_cfg s) (s_nodes s) (s_d s) (s_auto s) (s_nodePlacer s) (s_kpiMgr s) v (s_posted s) (s_created s) (s_waits s) (s_networkInfo s).
Definition set_posted v s : Sim M :=
  mkSim (s_cfg s) (s_nodes s) (s_d s) (s_auto s) (s_nodePlacer s) (s_kpiMgr s) (s_simHosts s) v (s_created s) (s_waits s) (s_networkInfo s).
Definition set_created v s : Sim M :=
  mkSim (s_cfg s) (s_nodes s) (s_d s) (s_auto s) (s_nodePlacer s) (s_kpiMgr s) (s_simHosts s) (s_posted s) v (s_waits s) (s_networkInfo s).
Definition set_waits v s : Sim M :=
  mkSim (s_cfg s) (s_nodes s) (s_d s) (s_auto s) (s_nodePlacer s) (s_kpiMgr s) (s_simHosts s) (s_posted s) (s_created s) v (s_networkInfo s).
Definition set_networkInfo v s : Sim M :=
  mkSim (s_cfg s) (s_nodes s) (s_d s) (s_auto s) (s_nodePlacer s) (s_kpiMgr s) (s_simHosts s) (s_posted s) (s_created s) (s_waits s) v.
End fields.

Class SimEnv := {
  se_disp :: DispEnv;
  se_host :: HostEnv;
  (** the file system, as far as the check of file names looks at it *)
  se_path :: PathEnv;
  (** the [k]-th node object: starting its process, and the answers of the process *)
  se_os : nat -> OsEnv;
  se_cli : nat -> CliEnv;
  (** whether the node is watched at level info when it is added *)
  se_watched : nat -> bool;
  (** the order in which Go ranges over the radio parameters *)
  range_params : gmap Z Z -> list (Z * Z);
}.

Section simulation.
Context {env : SimEnv} {M : Type} `{!RadioModel M}.
Abbreviation SM := (st (Sim M)) (only parsing).
Abbreviation DM := (st (Dispatcher M)) (only parsing).

(** ** Callbacks of the dispatcher *)

(** The node process of the [k]-th object, when the socket of the node is connected or not. *)
Definition cli_of (k : nat) (connected : bool) : CliEnv := {|
  cli_reply := @cli_reply (se_cli k); rfsim_reply := @rfsim_reply (se_cli k);
  in_node_context := @in_node_context (se_cli k); dnode_connected := connected |}.
(** [DNode.IsConnected()] of a node *)
Definition isConnected (id : NodeId) (d : Dispatcher M) : bool :=
  match d_nodes d !! id with
  | Some l => match d_store d !! l with Some n => IsConnected n | None => false end
  | None => false
  end.
(** A method of a node object of the simulation, without its effects on the outside. *)
Definition with_node {A} (missing : panic) (id : NodeId) (m : CliEnv -> st SimNode A) : SM (A * list NodeOutput) :=
  s ← get;
  match s_nodes s !! id with
  | None => panics missing
  | Some (k, n) =>
    '(a, n') ← lift (m (cli_of k (isConnected id (s_d s))) n);
    _ ← modify (set_nodes (<[id:=(k, n')]> (s_nodes s)));
    mret (a, drop (length (sn_out n)) (sn_out n'))
  end.
Definition node_callback (id : NodeId) (m : CliEnv -> st SimNode ()) : SM () :=
  _ ← with_node AssertFailed id m; mret tt.

Definition pendingEventsCap : nat := 100.
(** A full channel blocks the sender for ever. *)
Definition push_event (evt : Event) (_ : CliEnv) : st SimNode () :=
  n ← get;
  if bool_decide (pendingEventsCap <= length (sn_pendingEvents n))%nat then panics Blocked
  else modify (fun n => set_events (sn_pendingEvents n ++ [evt]) n).

Definition on_hosts (m : st SimHosts ()) : SM () :=
  update (fun s => '(_, h) ← m (s_simHosts s); Ok (set_hosts h s)).

(** [VisitNodesInOrder] *)
Definition VisitNodesInOrder (cb : CliEnv -> st SimNode ()) : SM () :=
  s ← get;
  for_each (d_nodesArray (s_d s)) (fun l =>
    s ← get;
    match d_store (s_d s) !! l with
    | Some dn =>
      match s_nodes s !! n_Id dn with
      | Some _ => _ ← with_node AssertFailed (n_Id dn) cb; mret tt
      | None => mret tt
      end
    | None => panics NilDereference
    end).

Definition deliver (o : Output) : SM () :=
  match o with
  | OCb (OnUartWrite id data) => node_callback id (fun env => processUartData data)
  | OCb (OnLogWrite id data fromHost) => node_callback id (fun _ => mret tt)
  | OCb (OnNextEventTime _) => VisitNodesInOrder (fun env => DisplayPendingLines)
  | OCb (OnRfSimEvent id evt) =>
    node_callback id (fun env => if ev_Type evt =? EventTypeRadioRfSimParamRsp then push_event evt env else mret tt)
  | OCb (OnMsgToHost id evt) =>
    _ ← node_callback id (fun _ => mret tt);
    if ev_Type evt =? EventTypeIp6ToHost then on_hosts (handleIp6FromNode id (ev_MsgToHostData evt) (ev_Data evt))
    else if ev_Type evt =? EventTypeUdpToHost then on_hosts (handleUdpFromNode id (ev_MsgToHostData evt) (ev_Data evt))
    else panics Panicf
  | OCb (OnUartDisconnected id) => mret tt
  | OCb (OnNodeDisconnected id) => modify (fun s => set_posted (s_posted s ++ [PDisconnected id]) s)
  | _ => mret tt
  end.

(** An operation of the dispatcher and the callbacks it makes. *)
Definition on_d {A} (m : DM A) : SM A :=
  s ← get;
  '(a, d) ← lift (m (s_d s));
  _ ← modify (set_d d);
  _ ← for_each (drop (length (d_out (s_d s))) (d_out d)) deliver;
  mret a.
(** An operation of the dispatcher on the node object that the simulation's node points to. *)
Definition on_dnode (id : NodeId) (m : nat -> DM ()) : DM () :=
  l ← lookup_node id; l ← lift (deref l); m l.

Definition apply_output (id : NodeId) (o : NodeOutput) : SM () :=
  match o with
  | NUart data => on_d (on_dnode id (fun l => _ ← SendToVirtualUART l data; mret tt))
  | NRfSim isSet param value => on_d (on_dnode id (fun l => _ ← Dispatcher.SendRfSimEvent l isSet param value; mret tt))
  | NNotifyCommand => on_d (NotifyCommand id)
  | NDisconnectSocket => on_d (on_dnode id (fun l => mod_node l DisconnectSocket))
  | NPrint _ | NSigTerm => mret tt
  end.
(** A method of a node object with its effects on the dispatcher. *)
Definition on_node {A} (id : NodeId) (m : CliEnv -> st SimNode A) : SM A :=
  '(a, outs) ← with_node NilDereference id m;
  _ ← for_each outs (apply_output id);
  mret a.

Definition post (t : Posted) : SM () := modify (fun s => set_posted (s_posted s ++ [t]) s).
(** [finalizeExit] posts the display of what is left when the process has ended. *)
Definition finalizeExit (id : NodeId) (isExiting : bool) : SM () :=
  _ ← lift (assert_true isExiting); post (PFinalOutput id).

Definition genId : SM NodeId :=
  s ← get; lift (genNodeId (dom (s_nodes s)) (dom (d_nodes (s_d s)))).
Definition external_config (cfg : NodeConfig) (nodeid : NodeId) : NodeConfig :=
  set_run "(external-node)" (nc_HostExePath cfg) (nc_InitScript cfg) (nc_RandomSeed cfg)
    (set_id_type nodeid "ext" (nc_Version cfg) cfg).

(** The noise floor of the radio model. *)
Definition noiseFloor (s : Sim M) : float := NoiseFloorDbm (rm_GetParameters (rs_model (d_radio (s_d s)))).

(** ** Handling events *)
Section nested.
Variable Add : NodeConfig -> SM (option string).

Definition OnNewNodeDetected (nodeid : NodeId) : SM bool :=
  s ← get;
  _ ← lift (assert_true (bool_decide (s_nodes s !! nodeid = None)));
  newId ← genId;
  let cf := s_cfg s in
  cfg ← lift (NodeConfigFinalize (env := @os_fs (se_os (s_created s))) (cf_ExeConfig cf) (cf_NewNodeScripts cf) newId None
                (noiseFloor s) (external_config (cf_NewNodeConfig cf) nodeid));
  e ← Add cfg;
  mret (match e with None => true | Some _ => false end).

(** [Dispatcher.HandleEvent] with the callback for an unknown node. *)
Definition HandleEvent (evt : Event) : SM () :=
  s ← get;
  match d_nodes (s_d s) !! ev_NodeId evt, ev_Conn evt with
  | None, Some c =>
    if ev_Type evt =? EventTypeNodeInfo then
      isAccepted ← OnNewNodeDetected (ev_NodeId evt);
      if (isAccepted : bool) then
        s ← get;
        l ← lift (assert_not_nil (d_nodes (s_d s) !! ev_NodeId evt));
        n ← lift (deref (d_store (s_d s) !! l));
        _ ← lift (assert_not_nil (n_conn n));
        on_d (Dispatcher.HandleEvent (fun _ => mret false) evt)
      else on_d (output (OClose c))
    else on_d (Dispatcher.HandleEvent (fun _ => mret false) evt)
  | _, _ => on_d (Dispatcher.HandleEvent (fun _ => mret false) evt)
  end.

Definition wait : SM () :=
  s ← get;
  match s_waits s with
  | [] => mret tt
  | evts :: later => _ ← modify (set_waits later); for_each evts HandleEvent
  end.

(** A node object that exists, and whether the simulation lists it. *)
Inductive NodeVar := NoNode | Unlisted | Listed.

(** The deferred function of [AddNode] after an error. *)
Definition cleanup (nodeid : NodeId) (node : NodeVar) : SM () :=
  _ ← match node with
      | NoNode => mret tt
      | Unlisted => _ ← finalizeExit nodeid true; wait
      | Listed => _ ← on_node nodeid (fun env => initiateExit); _ ← finalizeExit nodeid true; wait
      end;
  _ ← on_d (Dispatcher.DeleteNode nodeid);
  _ ← modify (fun s => set_nodes (delete nodeid (s_nodes s)) s);
  modify (fun s => set_placer (ReuseNextNodePosition (s_nodePlacer s)) s).

(** Setting up the connected node; the visualizer is told its version. *)
Definition setup_node (nodeid : NodeId) (k : nat) (cfg : NodeConfig) : SM (option string) :=
  '(e, (ver, threadVer)) ← on_node nodeid (fun env => node_versions);
  match e with Some _ => mret e | None =>
  s ← get;
  _ ← on_d (vis (VisSetNetworkInfo (mkNetworkInfo (cf_Realtime (s_cfg s)) ver (getCommitFromOtVersion ver) nodeid threadVer)));
  on_node nodeid (fun env => node_setup (se_watched k) (range_params (nc_RfSimParams cfg)))
  end.

(** The body of [AddNode] after the placement: the error and the node object. *)
Definition add_body (cfg : NodeConfig) : SM (option string * NodeVar) :=
  let nodeid := nc_ID cfg in
  _ ← on_d (Dispatcher.AddNode nodeid cfg);
  s ← get;
  let k := s_created s in
  let '(node, _, err) := newNode (env := se_os k) (cf_info (s_cfg s)) nodeid cfg in
  _ ← modify (set_created (S k));
  match node, err with
  | None, _ => mret (err, NoNode)
  | Some _, Some _ => mret (err, Unlisted)
  | Some n, None =>
    _ ← on_d (NotifyCommand nodeid);
    _ ← modify (fun s => set_nodes (<[nodeid:=(k, n)]> (s_nodes s)) s);
    s ← get;
    _ ← lift (assert_true (bool_decide (nodeid ∈ d_aliveNodes (s_d s))));
    _ ← wait;
    s ← get;
    if negb (isConnected nodeid (s_d s)) then mret (Some "new node did not respond", Listed) else
    _ ← lift (assert_true (negb (bool_decide (nodeid ∈ d_aliveNodes (s_d s)))));
    e ← setup_node nodeid k cfg;
    _ ← wait;
    match e with
    | Some _ => mret (e, Listed)
    | None => _ ← update (fun s => a ← firstNodeAdded (s_auto s); Ok (set_auto a s)); mret (None, Listed)
    end
  end.

Definition addNode (cfg : NodeConfig) : SM (option string) :=
  s ← get;
  match s_nodes s !! nc_ID cfg with
  | Some _ => mret (Some "node already exists")
  | None =>
    if nc_IsRcp cfg && negb (cf_Realtime (s_cfg s)) then
      mret (Some "RCP nodes can only be added in real-time simulation (use -realtime flag)")
    else
    let '((x, y, z), placer) :=
      if nc_IsAutoPlaced cfg then
        NextNodePosition ((nc_IsMtd cfg || negb (nc_IsRouter cfg)) && negb (nc_IsExternal cfg) &&
                          negb (String.eqb (nc_Type cfg) "wifi")) (s_nodePlacer s)
      else ((nc_X cfg, nc_Y cfg, nc_Z cfg), UpdateReference (nc_X cfg) (nc_Y cfg) (nc_Z cfg) (s_nodePlacer s)) in
    _ ← modify (set_placer placer);
    '(e, node) ← add_body (set_place x y z (nc_IsAutoPlaced cfg) (nc_RadioRange cfg) cfg);
    _ ← match e with Some _ => cleanup (nc_ID cfg) node | None => mret tt end;
    mret e
  end.
End nested.

Fixpoint AddNode (fuel : nat) (cfg : NodeConfig) : SM (option string) :=
  match fuel with
  | O => panics OutOfFuel
  | S fuel => addNode (AddNode fuel) cfg
  end.
(** Nested calls happen in waits that find events, and every wait uses up a batch. *)
Definition nesting (s : Sim M) : nat := S (length (s_waits s)).
Definition waitForSimulation : SM () := s ← get; wait (AddNode (nesting s)).
Definition add_node (cfg : NodeConfig) : SM (option string) := s ← get; AddNode (nesting s) cfg.

(** ** Other operations *)
Definition forget (nodeid : NodeId) : SM () :=
  _ ← modify (fun s => set_nodes (delete nodeid (s_nodes s)) s);
  on_d (Dispatcher.DeleteNode nodeid).

Definition DeleteNode (nodeid : NodeId) : SM (option string) :=
  s ← get;
  match s_nodes s !! nodeid with
  | None => mret (Some "node not found")
  | Some (_, n) =>
    if sn_isExiting n then mret (Some "node not found") else
    _ ← waitForSimulation;
    _ ← on_node nodeid (fun env => initiateExit);
    _ ← waitForSimulation;
    _ ← modify (fun s => set_kpi (stopNode nodeid (s_kpiMgr s)) s);
    (* in real-time mode the process is waited for in the background *)
    _ ← finalizeExit nodeid true;
    _ ← (if cf_Realtime (s_cfg s) then post (PFinish nodeid) else _ ← waitForSimulation; forget nodeid);
    mret None
  end.

(** The posted tasks. *)
Definition run_posted (t : Posted) : SM () :=
  match t with
  | PDisconnected nodeid =>
    s ← get;
    match s_nodes s !! nodeid with
    | Some (_, n) => if sn_isExiting n then mret tt else _ ← DeleteNode nodeid; mret tt
    | None => mret tt
    end
  | PFinalOutput nodeid => waitForSimulation
  | PFinish nodeid => _ ← waitForSimulation; forget nodeid
  end.
Definition run_next : SM () :=
  s ← get;
  match s_posted s with
  | [] => mret tt
  | t :: later => _ ← modify (set_posted later); run_posted t
  end.

Definition MoveNodeTo (nodeid : NodeId) (x y : Z) (z : option Z) : SM (option string) :=
  s ← get;
  match d_nodes (s_d s) !! nodeid with
  | None => mret (Some "node not found")
  | Some l =>
    dn ← lift (deref (d_store (s_d s) !! l));
    let zNew := default (n_Z dn) z in
    _ ← on_d (SetNodePos nodeid x y zNew);
    _ ← modify (fun s => set_placer (UpdateReference x y zNew (s_nodePlacer s)) s);
    mret None
  end.

(** Sorted ids of the nodes that are not exiting. *)
Definition GetNodes (s : Sim M) : list NodeId :=
  merge_sort Z.le (map fst (filter (fun x => sn_isExiting x.2.2 = false) (map_to_list (s_nodes s)))).

(** ** The KPI manager at work *)
Definition phy_counters (nid : NodeId) (phyStats : gmap NodeId PhyStats) : gmap string Z :=
  let st := default (mkPhyStats 0 0 0) (phyStats !! nid) in
  <["phy.tx.bytes":=TxBytes st]> (<["phy.tx.timeus":=ps_TxTimeUs st]> {["phy.chansample.count":=ChanSampleCount st]}).
(** A counter command that fails gives no counters. *)
Definition node_counters (nid : NodeId) (phyStats : gmap NodeId PhyStats) (env : CliEnv) : st SimNode (gmap string Z) :=
  c1 ← GetCounters "mac" "mac.";
  c2 ← GetCounters "mle" "mle.";
  c3 ← GetCounters "ip" "ip.";
  _ ← DisplayPendingLines;
  mret (mergeNodeCounters [default ∅ c1; default ∅ c2; default ∅ c3; phy_counters nid phyStats]).
Fixpoint countersOf (nids : list NodeId) (phyStats : gmap NodeId PhyStats) (acc : gmap NodeId (gmap string Z)) :
    SM (gmap NodeId (gmap string Z)) :=
  match nids with
  | [] => mret acc
  | nid :: nids => c ← on_node nid (node_counters nid phyStats); countersOf nids phyStats (<[nid:=c]> acc)
  end.
Definition retrieveNodeCounters : SM (gmap NodeId (gmap string Z)) :=
  s ← get;
  phyStats ← on_d (radio rm_GetPhyStats);
  countersOf (GetNodes s) phyStats ∅.

Definition channels : list ChannelId := seqZ MinChannelNumber (MaxChannelNumber - MinChannelNumber + 1).
Fixpoint channelStats (passedTime : Z) (chs : list ChannelId) (acc : gmap ChannelId KpiChannel) : SM (gmap ChannelId KpiChannel) :=
  match chs with
  | [] => mret acc
  | ch :: chs =>
    stats ← on_d (radio (rm_GetChannelStats ch));
    channelStats passedTime chs (match stats with Some st => <[ch:=channelKpi passedTime st]> acc | None => acc end)
  end.
Definition retrieveRadioModelStats : SM (gmap ChannelId KpiChannel) :=
  s ← get;
  let passedTime := u64 (d_CurTime (s_d s) - StartTimeUs (kd_TimeUs (km_data (s_kpiMgr s)))) in
  if passedTime >? 0 then channelStats passedTime channels ∅ else mret ∅.

Definition mod_kpi (f : KpiManager -> KpiManager) : SM () := modify (fun s => set_kpi (f (s_kpiMgr s)) s).
Definition set_start (t : Z) (d : Kpi) : Kpi :=
  mkKpi (kd_Status d) (mkTimeUs t (EndTimeUs (kd_TimeUs d)) (PeriodUs (kd_TimeUs d))) (kd_TimeSec d) (kd_Channels d)
    (kd_NoAckPercentage d) (kd_Counters d) (kd_CountersSum d) (kd_CoapUri d).
Definition Start : SM () :=
  counters ← retrieveNodeCounters;
  s ← get;
  _ ← mod_kpi (fun km => mkKpiManager (set_start (d_CurTime (s_d s)) (km_data km)) (Some counters) (km_curCounters km)
        (km_curRadioStats km) (km_curCoaps km) (km_isRunning km));
  _ ← for_each channels (fun ch => on_d (radio (rm_ResetChannelStats ch)));
  _ ← on_d EnableCoaps;
  _ ← on_d (CollectCoapMessages true);
  mod_kpi (fun km => mkKpiManager (km_data km) (km_startCounters km) (km_curCounters km) (km_curRadioStats km)
        (km_curCoaps km) true).
(** The figures of the period so far. *)
Definition collect (clear : bool) (running : bool) : SM () :=
  counters ← retrieveNodeCounters;
  _ ← mod_kpi (fun km => mkKpiManager (km_data km) (km_startCounters km) (Some counters) (km_curRadioStats km)
        (km_curCoaps km) (km_isRunning km));
  stats ← retrieveRadioModelStats;
  coaps ← on_d (CollectCoapMessages clear);
  s ← get;
  mod_kpi (fun km => calculateKpis (d_CurTime (s_d s))
    (mkKpiManager (km_data km) (km_startCounters km) (km_curCounters km) stats (default [] coaps) running)).
Definition getDefaultSaveFileName (s : Sim M) : string :=
  si_OutputDir (cf_info (s_cfg s)) +:+ "/" +:+ Itoa (si_Id (cf_info (s_cfg s))) +:+ "_kpi.json".
(** The file that is written, and the data; none if the file name is refused. *)
Definition SaveFile (fn : string) : SM (option (string * Kpi)) :=
  s ← get;
  match (if String.eqb fn (getDefaultSaveFileName s) then inr fn else CheckSafePath fn) with
  | inl _ => mret None
  | inr cleanFn =>
    _ ← when (km_isRunning (s_kpiMgr s)) (collect false true);
    s ← get;
    mret (Some (cleanFn, km_data (s_kpiMgr s)))
  end.
Definition SaveDefaultFile : SM (option (string * Kpi)) := s ← get; SaveFile (getDefaultSaveFileName s).
Definition Stop : SM (option (string * Kpi)) :=
  s ← get;
  if km_isRunning (s_kpiMgr s) then _ ← collect true false; SaveDefaultFile else mret None.

(** ** The system

    What the simulation and its users do, in any order.  [waits] is what arrives during the
    request.  A simulated period is made of turns of the dispatcher's loop: events, tasks,
    advancing the nodes that are alive, and processing what is due. *)
Inductive DispOp :=
| DSyncAlive
| DProcess (fuel : nat)
| DRealtime (fuel : nat) (simTime : Z)
| DAdvance (ts : Z)
| DGoBegin (durationUs : Z) (speed : float)
| DGoEnd (speed postSpeed : float)
| DTask (t : Task).
(** Tasks of the dispatcher alone. *)
Definition plain_task (t : Task) : bool :=
  match t with TaskRecvEvents _ | TaskAddNode _ _ | TaskDeleteNode _ => false | _ => true end.
Definition run_disp (o : DispOp) : DM () :=
  match o with
  | DSyncAlive => syncAliveNodes
  | DProcess fuel => d ← get; _ ← processNextEvents fuel (d_speed d); mret tt
  | DRealtime fuel t => _ ← processNextEventsRealtime fuel t; mret tt
  | DAdvance ts => advanceTime ts
  | DGoBegin durationUs speed => _ ← goBegin durationUs speed; mret tt
  | DGoEnd speed postSpeed => goEnd speed postSpeed
  | DTask t => if plain_task t then run_task (fun _ => mret false) t else mret tt
  end.

Inductive SimReq :=
| RAdd (cfg : NodeConfig)
| RDelete (nodeid : NodeId)
| RMove (nodeid : NodeId) (x y : Z) (z : option Z)
| RCommand (nodeid : NodeId) (cmd : string)
| REvent (evt : Event)
| RPosted
| RDisp (o : DispOp)
| RSetAutoGo (isAuto : bool)
| RKpiStart
| RKpiStop
| RKpiSave (fn : string).
Definition serve (waits : list (list Event)) (r : SimReq) : SM () :=
  _ ← modify (set_waits waits);
  match r with
  | RAdd cfg => _ ← add_node cfg; mret tt
  | RDelete id => _ ← DeleteNode id; mret tt
  | RMove id x y z => _ ← MoveNodeTo id x y z; mret tt
  | RCommand id cmd => _ ← on_node id (fun env => Command cmd); waitForSimulation
  | REvent evt => s ← get; HandleEvent (AddNode (nesting s)) evt
  | RPosted => run_next
  | RDisp o => on_d (run_disp o)
  | RSetAutoGo b => update (fun s => a ← SetAutoGo b (s_auto s); Ok (set_auto a s))
  | RKpiStart => Start
  | RKpiStop => _ ← Stop; mret tt
  | RKpiSave fn => _ ← SaveFile fn; mret tt
  end.

(** The simulation id and the directory for output are not part of the model's dispatcher. *)
Definition syncDispatcherConfig (cfg : SimConfig) (dispatcherCfg : Config) : Config :=
  mkConfig (cf_Realtime cfg) (cf_DumpPackets cfg) (cfg_PcapEnabled dispatcherCfg) (cfg_DefaultWatchOn dispatcherCfg)
    (cfg_PhyTxStats dispatcherCfg) (cfg_WatchLevelOk dispatcherCfg) (if cf_Realtime cfg then 1%float else cf_Speed cfg).
(** [model] is the radio model that the configuration names. *)
Definition NewSimulation (cfg : SimConfig) (dispatcherCfg : Config) (model : M) (rnd : nat) : res (Sim M) :=
  d ← NewDispatcher (syncDispatcherConfig cfg dispatcherCfg) model rnd;
  let energyAnalyser := NewEnergyAnalyser (si_OutputDir (cf_info cfg)) (si_Id (cf_info cfg)) in
  Ok (mkSim cfg ∅ (set_d_energyAnalyser (Some energyAnalyser) d) (NewAutoGo (cf_Realtime cfg) (cf_AutoGo cfg))
        NewNodeAutoPlacer NewKpiManager NewSimHosts [] 0 []
        (mkNetworkInfo (cf_Realtime cfg) (ni_Version DefaultNetworkInfo) (ni_Commit DefaultNetworkInfo)
           (ni_NodeId DefaultNetworkInfo) (ni_ThreadVersion DefaultNetworkInfo))).
Inductive sim_reachable (cfg : SimConfig) (dispatcherCfg : Config) (model : M) (rnd : nat) : Sim M -> Prop :=
| sr_new s : NewSimulation cfg dispatcherCfg model rnd = Ok s -> sim_reachable cfg dispatcherCfg model rnd s
| sr_serve waits r s s' :
    sim_reachable cfg dispatcherCfg model rnd s -> serve waits r s = Ok (tt, s') ->
    sim_reachable cfg dispatcherCfg model rnd s'.
End simulation.
