(* ===== verification/LifecycleLaws.v ===== *)
(** * Nodes of the simulation and nodes of the dispatcher

    The theorems about [Lifecycle].  The simulation and the dispatcher each keep a map of
    nodes; a node is added to one and then to the other, and an error in between must undo
    both.  All of it happens while events are handled, which may add more nodes.  Whatever
    happens, the calls to the visualizer obey its protocol. *)

From S2P Require Import Prelude State Types Event GoFloat GoStrings GoText SafePath Datagram.
From S2P Require Import SendQueue AlarmMgr Energy Visualize DNode RadioModel RadioLaws Dispatcher DispatcherIndex DispatcherNodes DispatcherVis.
From S2P Require Import NodeConfig Uart SimNode Logger NodeProcess SimHosts Simulation Coaps Kpi Lifecycle.

Local Open Scope string_scope.
Local Open Scope Z_scope.

Section laws.
Context {env : SimEnv} {M : Type} `{!RadioModel M} `{!RadioModelLaws M}.
Implicit Types s : Sim M.
Implicit Types (S D X I : gset NodeId).

(** The simulation has the nodes [S] and the dispatcher the nodes [D]; the dispatcher is
    consistent and has called the visualizer as it may, and the network information is about no
    node. *)
Definition good s : Prop := vw (s_d s) /\ ni_NodeId (s_networkInfo s) = InvalidNodeId.
Definition has S D s : Prop :=
  good s /\ dom (d_nodes (s_d s)) = D /\ dom (s_nodes s) = S.

(** ** Operations that keep the nodes *)
Lemma has_modify f S D :
  (forall s, s_d (f s) = s_d s /\ s_nodes (f s) = s_nodes s /\ ni_NodeId (s_networkInfo (f s)) = ni_NodeId (s_networkInfo s)) ->
  preserves (has S D) (modify f).
Proof. intros H. apply hoare_modify. intros s (H1 & H2 & H3). unfold has, good. by destruct (H s) as (-> & -> & ->). Qed.
#[local] Hint Extern 3 (hoare (has _ _) (modify _) _) => apply has_modify; intros ?; repeat split : hoare.
Lemma has_with_node {A} p id (m : CliEnv -> st SimNode A) S D : preserves (has S D) (with_node p id m).
Proof.
  intros s r s' (H1 & H2 & H3) E. unfold with_node in E.
  apply bind_st_Ok in E as (? & ? & [<- <-]%get_st_Ok & E). destruct (s_nodes s !! id) as [[k n]|] eqn:En; [|done].
  apply bind_st_Ok in E as ([a n'] & ? & [_ <-]%lift_st_Ok & E). apply bind_st_Ok in E as ([] & s1 & <-%modify_st_Ok & E).
  apply ret_st_Ok in E as [_ <-]. unfold has. cbn. split; [done|]. split; [done|].
  rewrite dom_insert_L, <- H3. apply elem_of_dom_2 in En. set_solver.
Qed.
#[local] Hint Resolve has_with_node : hoare.
Lemma has_node_callback id m S D : preserves (has S D) (node_callback id m).
Proof. unfold node_callback. pres. Qed.
#[local] Hint Resolve has_node_callback : hoare.
Lemma has_on_hosts m S D : preserves (has S D) (on_hosts m).
Proof. apply hoare_update. intros s s' H E. apply bind_Ok in E as ([u h] & _ & [= <-]). done. Qed.
#[local] Hint Resolve has_on_hosts : hoare.
Lemma has_Visit cb S D : preserves (has S D) (VisitNodesInOrder cb).
Proof. unfold VisitNodesInOrder. pres. Qed.
#[local] Hint Resolve has_Visit : hoare.
Lemma has_deliver o S D : preserves (has S D) (deliver o).
Proof. unfold deliver. destruct o as [|[]| | | |]; pres. Qed.
#[local] Hint Resolve has_deliver : hoare.

(** An operation of the dispatcher that takes its nodes from [D] to [D']. *)
Lemma has_on_d {A} (m : st (Dispatcher M) A) S D D' :
  preserves vw m -> (forall d a d', dom (d_nodes d) = D -> m d = Ok (a, d') -> dom (d_nodes d') = D') ->
  hoare (has S D) (on_d m) (fun _ => has S D').
Proof.
  intros HW HD s r s' (H1 & H2 & H3) E. unfold on_d in E. apply bind_st_Ok in E as (? & ? & [<- <-]%get_st_Ok & E).
  apply bind_st_Ok in E as ([a d] & ? & [Em <-]%lift_st_Ok & E). apply bind_st_Ok in E as ([] & s1 & <-%modify_st_Ok & E).
  assert (has S D' (set_d d s)) as H by (split; [split; [by eapply HW; [apply H1|]|apply H1]|]; split; [by eapply HD|done]).
  apply bind_st_Ok in E as ([] & s2 & E & [_ <-]%ret_st_Ok). revert E. apply hoare_run_flip; [pres|done].
Qed.
Lemma has_on_d_fixed {A} (m : st (Dispatcher M) A) S D :
  preserves vw m -> (forall v, preserves (fun d => d_nodes d = v) m) -> preserves (has S D) (on_d m).
Proof.
  intros HW HF. apply has_on_d; [done|]. intros d a d' <- E. by rewrite (HF (d_nodes d) d a d' eq_refl E).
Qed.

Lemma has_NotifyCommand id S D : preserves (has S D) (on_d (NotifyCommand id)).
Proof. apply has_on_d_fixed; [apply (vw_task (TaskNotifyCommand id))|]. apply fx_quiet, si_NotifyCommand. Qed.
Lemma has_HandleEvent_known evt S D : preserves (has S D) (on_d (Dispatcher.HandleEvent (fun _ => mret false) evt)).
Proof. apply has_on_d_fixed; [apply vw_event|apply fx_HandleEvent]. Qed.
Lemma has_output o S D : (forall c, o <> OVis c) -> preserves (has S D) (on_d (output o)).
Proof. intros Ho. apply has_on_d_fixed; [by apply vw_output|apply fx_output]. Qed.
Lemma has_vis c S D : (forall id cfg, c <> VisAddNode id cfg) -> (forall id, c <> VisDeleteNode id) ->
  match call_node c with Some id => id ∈ D | None => True end -> preserves (has S D) (on_d (vis c)).
Proof.
  intros Ha Hl Hc. destruct (call_node c) as [id|] eqn:Ec.
  - intros s u s' (H1 & H2 & H3) E. unfold on_d in E. apply bind_st_Ok in E as (? & ? & [<- <-]%get_st_Ok & E).
    apply bind_st_Ok in E as ([[] d] & ? & [Em <-]%lift_st_Ok & E). apply bind_st_Ok in E as ([] & s1 & <-%modify_st_Ok & E).
    assert (has S D (set_d d s)) as H.
    { split; [split; [|apply H1]|split; [|done]]; cbn; [eapply vw_vis_node; [apply H1|exact Ec|by rewrite H2|exact Em]|].
      by apply modify_st_Ok in Em as <-. }
    apply bind_st_Ok in E as ([] & s2 & E & [_ <-]%ret_st_Ok). revert E. apply hoare_run_flip; [pres|done].
  - apply has_on_d_fixed; [by apply vw_vis|]. intros v. by apply hoare_modify.
Qed.
Lemma has_on_dnode id (m : nat -> st (Dispatcher M) ()) S D :
  (forall l, preserves vw (m l)) -> (forall l v, preserves (fun d => d_nodes d = v) (m l)) ->
  preserves (has S D) (on_d (on_dnode id m)).
Proof. intros HW HF. apply has_on_d_fixed; [|intros v]; unfold on_dnode, lookup_node; pres. Qed.
#[local] Hint Resolve has_NotifyCommand has_HandleEvent_known : hoare.
#[local] Hint Extern 1 (hoare (has _ _) (on_d (output _)) _) => apply has_output; discriminate : hoare.
Lemma has_apply_output id o S D : preserves (has S D) (apply_output id o).
Proof.
  destruct o; cbn [apply_output]; pres; apply has_on_dnode; intros l.
  - apply (vw_task (TaskSendToVirtualUART l data)).
  - intros v. apply pres_bind; [apply fx_SendToVirtualUART|]. intros; apply pres_ret.
  - apply (vw_task (TaskSendRfSimEvent l isSet param value)).
  - intros v. apply pres_bind; [apply fx_SendRfSimEvent|]. intros; apply pres_ret.
  - apply vw_mod_node. by intros [].
  - apply fx_mod_node.
Qed.
#[local] Hint Resolve has_apply_output : hoare.
Lemma has_on_node {A} id (m : CliEnv -> st SimNode A) S D : preserves (has S D) (on_node id m).
Proof. unfold on_node. pres. Qed.
Lemma has_finalizeExit id b S D : preserves (has S D) (finalizeExit id b).
Proof. unfold finalizeExit, post. pres. Qed.
#[local] Hint Resolve has_on_node has_finalizeExit : hoare.

(** ** Operations that change them *)
Lemma has_AddNode id cfg S D :
  hoare (has S D) (on_d (Dispatcher.AddNode id cfg)) (fun _ s => has S ({[id]} ∪ D) s /\ (id ∉ D)).
Proof.
  intros s r s' H E. destruct (decide (id ∈ D)) as [Hin|Hout].
  - exfalso. destruct H as (_ & HD & _). unfold on_d in E. apply bind_st_Ok in E as (? & ? & [<- <-]%get_st_Ok & E).
    apply bind_st_Ok in E as ([a d] & ? & [Em <-]%lift_st_Ok & _). apply AddNode_nodes in Em as [Hn _].
    rewrite <- HD in Hin. apply elem_of_dom in Hin as [? ?]. congruence.
  - split; [|done]. eapply (has_on_d (Dispatcher.AddNode id cfg) S D ({[id]} ∪ D)); [apply vw_AddNode| |exact H|exact E].
    intros d a d' HD Em. apply AddNode_nodes in Em as [_ ->]. by rewrite dom_insert_L, HD.
Qed.
Lemma has_DeleteNode id S D : hoare (has S D) (on_d (Dispatcher.DeleteNode id)) (fun _ => has S (D ∖ {[id]})).
Proof.
  apply has_on_d; [apply vw_DeleteNode|]. intros d a d' <- E. apply DeleteNode_nodes in E as [_ ->].
  by rewrite dom_delete_L.
Qed.
Lemma has_unlist id S D :
  hoare (has S D) (modify (fun s => set_nodes (delete id (s_nodes s)) s)) (fun _ => has (S ∖ {[id]}) D).
Proof. apply hoare_modify. intros s (H1 & H2 & H3). split; [done|]. split; [done|]. cbn. by rewrite dom_delete_L, H3. Qed.
Lemma has_list id x S D :
  hoare (has S D) (modify (fun s => set_nodes (<[id:=x]> (s_nodes s)) s)) (fun _ => has ({[id]} ∪ S) D).
Proof. apply hoare_modify. intros s (H1 & H2 & H3). split; [done|]. split; [done|]. cbn. by rewrite dom_insert_L, H3. Qed.

(** ** The invariant

    The dispatcher has the nodes of the simulation, and besides the nodes [X] that are just
    being added; the nodes [I] are among those of the simulation. *)
Definition inv X I s : Prop := exists S, has S (S ∪ X) s /\ S ## X /\ I ⊆ S.
Lemma inv_pres {A} (m : st (Sim M) A) X I : (forall S D, preserves (has S D) m) -> preserves (inv X I) m.
Proof. intros H s a s' (S & HS & HX & HI) E. exists S. split; [by eapply H|done]. Qed.
Lemma inv_weaken X I I' s : I' ⊆ I -> inv X I s -> inv X I' s.
Proof. intros H (S & ? & ? & ?). exists S. split; [done|]. split; [done|]. set_solver. Qed.

Section nested.
Variable Add : NodeConfig -> st (Sim M) (option string).
(** What a nested call may do: it keeps the invariant. *)
Hypothesis Add_ok : forall cfg X I, preserves (inv X I) (Add cfg).

Lemma inv_HandleEvent evt X I : preserves (inv X I) (HandleEvent Add evt).
Proof.
  assert (preserves (inv X I) (on_d (Dispatcher.HandleEvent (fun _ => mret false) evt))) as HK.
  { apply inv_pres. intros. apply has_HandleEvent_known. }
  assert (forall c, preserves (inv X I) (on_d (output (OClose c)))) as HO.
  { intros c. apply inv_pres. intros. by apply has_output. }
  unfold HandleEvent, OnNewNodeDetected, genId. pres.
Qed.
#[local] Hint Resolve inv_HandleEvent : hoare.
Lemma inv_wait X I : preserves (inv X I) (wait Add).
Proof.
  unfold wait. apply pres_bind; [apply pres_get|]. intros s. destruct (s_waits s); [apply pres_ret|].
  apply pres_bind; [apply inv_pres; intros; pres|]. intros _. pres.
Qed.
#[local] Hint Resolve inv_wait : hoare.
Lemma inv_on_node {A} id (m : CliEnv -> st SimNode A) X I : preserves (inv X I) (on_node id m).
Proof. apply inv_pres. intros. apply has_on_node. Qed.
Lemma inv_finalizeExit id b X I : preserves (inv X I) (finalizeExit id b).
Proof. apply inv_pres. intros. apply has_finalizeExit. Qed.
#[local] Hint Resolve inv_on_node inv_finalizeExit : hoare.

Lemma inv_setup id k cfg X I : preserves (inv X ({[id]} ∪ I)) (setup_node id k cfg).
Proof.
  unfold setup_node. apply pres_bind; [apply inv_on_node|]. intros [e [ver threadVer]]. destruct e; [apply pres_ret|].
  apply pres_bind; [apply pres_get|]. intros s0. apply pres_bind; [|intros _; apply inv_on_node].
  intros s u s' (S & HS & HX & HI) E. exists S. split; [|done].
  refine (has_vis _ S (S ∪ X) _ _ _ _ _ _ HS E); [done|done|]. cbn. destruct (_ =? _); [done|]. set_solver.
Qed.
(** Where the new node is when the body of [AddNode] ends. *)
Definition node_at (node : NodeVar) X I id s : Prop :=
  match node with
  | Listed => inv X ({[id]} ∪ I) s
  | NoNode | Unlisted => inv ({[id]} ∪ X) I s
  end.
Definition body_post X I id (r : option string * NodeVar) s : Prop :=
  (id ∉ X) /\ (r.1 = None -> r.2 = Listed) /\ node_at r.2 X I id s.
Lemma add_body_ok cfg X I s r s' :
  inv X I s -> s_nodes s !! nc_ID cfg = None -> add_body Add cfg s = Ok (r, s') -> body_post X I (nc_ID cfg) r s'.
Proof.
  intros (S & HS & HX & HI) Hnew E. unfold add_body in E.
  apply bind_st_Ok in E as (l & s1 & E1 & E). eapply has_AddNode in E1 as [H1 Hout]; [|exact HS].
  set (id := nc_ID cfg) in *. assert (id ∉ S) as HidS by set_solver.
  assert (inv ({[id]} ∪ X) I s1) as I1.
  { exists S. split; [|set_solver]. by replace (S ∪ ({[id]} ∪ X)) with ({[id]} ∪ (S ∪ X)) by set_solver. }
  apply bind_st_Ok in E as (? & ? & [<- <-]%get_st_Ok & E).
  destruct (newNode _ id cfg) as [[node p] err] eqn:EN. apply newNode_spec in EN as (_ & HN & _).
  apply bind_st_Ok in E as ([] & s2 & E2 & E).
  assert (inv ({[id]} ∪ X) I s2 /\ has S ({[id]} ∪ (S ∪ X)) s2) as [I2 H2].
  { split.
    - eapply (hoare_run (inv ({[id]} ∪ X) I)); [exact E2|exact I1|]. apply inv_pres. intros. pres.
    - eapply (hoare_run (has S ({[id]} ∪ (S ∪ X)))); [exact E2|exact H1|]. pres. }
  destruct node as [n|]; [|apply ret_st_Ok in E as [<- <-]; split; [set_solver|]; split; [|exact I2]; intros He;
    by destruct (HN He) as [[? ?] _]].
  destruct err as [e|]; [apply ret_st_Ok in E as [<- <-]; split; [set_solver|by split]|].
  apply bind_st_Ok in E as ([] & s3 & E3 & E). eapply has_NotifyCommand in E3; [|exact H2].
  apply bind_st_Ok in E as ([] & s4 & E4 & E). eapply has_list in E4; [|exact E3].
  assert (inv X ({[id]} ∪ I) s4) as I4.
  { exists ({[id]} ∪ S). split; [|set_solver]. by replace ({[id]} ∪ S ∪ X) with ({[id]} ∪ (S ∪ X)) by set_solver. }
  assert (forall e x, inv X ({[id]} ∪ I) x -> body_post X I id (e, Listed) x) as HB
    by (intros e x Hx; split; [set_solver|done]).
  match type of E with ?m s4 = _ => assert (hoare (inv X ({[id]} ∪ I)) m (body_post X I id)) as HP; [|exact (HP _ _ _ I4 E)] end.
  clear E. eapply hoare_bind; [apply pres_get|]. intros x. eapply hoare_bind; [apply pres_lift|]. intros ?.
  eapply hoare_bind; [apply inv_wait|]. intros ?. eapply hoare_bind; [apply pres_get|]. intros y.
  destruct (negb _); [intros ? ? ? ? [<- <-]%ret_st_Ok; by apply HB|].
  eapply hoare_bind; [apply pres_lift|]. intros ?. eapply hoare_bind; [apply inv_setup|]. intros e.
  eapply hoare_bind; [apply inv_wait|]. intros ?.
  destruct e; [intros ? ? ? ? [<- <-]%ret_st_Ok; by apply HB|]. eapply hoare_bind.
  - apply inv_pres. intros. apply hoare_update. intros q b Ha Eb. apply bind_Ok in Eb as (? & _ & [= <-]). exact Ha.
  - intros ? ? ? ? ? [<- <-]%ret_st_Ok. by apply HB.
Qed.

Lemma cleanup_ok node id X I s u s' :
  (id ∉ X) -> (id ∉ I) -> node_at node X I id s -> cleanup Add id node s = Ok (u, s') ->
  inv X I s' /\ s_nodes s' !! id = None /\ d_nodes (s_d s') !! id = None.
Proof.
  intros HX HI Hn E. unfold cleanup in E. apply bind_st_Ok in E as ([] & s1 & E1 & E).
  assert (node_at node X I id s1) as H1.
  { destruct node; cbn [node_at] in *.
    - by apply ret_st_Ok in E1 as [_ <-].
    - revert E1. apply hoare_run_flip; [pres|done].
    - revert E1. apply hoare_run_flip; [pres|done]. }
  assert (exists S, has S ({[id]} ∪ (S ∪ X)) s1 /\ S ∖ {[id]} ## X /\ I ⊆ S) as (S & HS & HX1 & HI1).
  { destruct node; cbn [node_at] in H1; destruct H1 as (S & HS & HX1 & HI1); exists S; (split; [|set_solver]);
      [by replace ({[id]} ∪ (S ∪ X)) with (S ∪ ({[id]} ∪ X)) by set_solver..|].
    by replace ({[id]} ∪ (S ∪ X)) with (S ∪ X) by set_solver. }
  apply bind_st_Ok in E as ([] & s2 & E2 & E). eapply has_DeleteNode in E2; [|exact HS].
  apply bind_st_Ok in E as ([] & s3 & E3 & E). eapply has_unlist in E3; [|exact E2].
  assert (has (S ∖ {[id]}) (S ∖ {[id]} ∪ X) s') as H4.
  { replace (S ∖ {[id]} ∪ X) with (({[id]} ∪ (S ∪ X)) ∖ {[id]}) by set_solver.
    eapply (hoare_run (has (S ∖ {[id]}) (({[id]} ∪ (S ∪ X)) ∖ {[id]}))); [exact E|exact E3|]. pres. }
  split; [exists (S ∖ {[id]}); split; [exact H4|set_solver]|]. destruct H4 as (_ & HD & HN).
  split; apply not_elem_of_dom; [rewrite HN|rewrite HD]; set_solver.
Qed.

(** What adding a node does, for the node [nc_ID cfg] of the simulation and the dispatcher. *)
Definition add_post X I cfg (s : Sim M) (e : option string) s' : Prop :=
  match e with
  | None => inv X ({[nc_ID cfg]} ∪ I) s'
  | Some _ => inv X I s' /\ (s' = s \/ s_nodes s' !! nc_ID cfg = None /\ d_nodes (s_d s') !! nc_ID cfg = None)
  end.
Lemma addNode_ok cfg X I s e s' : inv X I s -> addNode Add cfg s = Ok (e, s') -> add_post X I cfg s e s'.
Proof.
  intros HI E. unfold addNode in E. apply bind_st_Ok in E as (? & ? & [<- <-]%get_st_Ok & E).
  destruct (s_nodes s !! nc_ID cfg) eqn:En; [apply ret_st_Ok in E as [<- <-]; split; [done|by left]|].
  destruct (_ && _); [apply ret_st_Ok in E as [<- <-]; split; [done|by left]|].
  match type of E with (let '(_, _) := ?p in _) _ = _ => destruct p as [[[x y] z] placer] end.
  apply bind_st_Ok in E as ([] & s1 & <-%modify_st_Ok & E). apply bind_st_Ok in E as ([e1 node] & s2 & E2 & E).
  assert (inv X I (set_placer placer s)) as I1 by (destruct HI as (S & HS & H); exists S; split; [exact HS|exact H]).
  eapply add_body_ok in E2 as (HX & HL & HN); [|exact I1|exact En]. cbn [nc_ID set_place fst snd] in *.
  assert (nc_ID cfg ∉ I) as HidI.
  { destruct HI as (S & (_ & _ & HS) & _ & HIS). apply not_elem_of_dom in En. rewrite HS in En. set_solver. }
  apply bind_st_Ok in E as ([] & s3 & E3 & E). apply ret_st_Ok in E as [<- <-].
  destruct e1 as [e1|]; [apply (cleanup_ok node (nc_ID cfg) X I) in E3 as (? & ? & ?); [|done|done|exact HN]; split; [done|by right]|].
  apply ret_st_Ok in E3 as [_ <-]. by rewrite (HL eq_refl) in HN.
Qed.
End nested.

Lemma AddNode_post fuel : forall cfg X I s e s', inv X I s -> AddNode fuel cfg s = Ok (e, s') -> add_post X I cfg s e s'.
Proof.
  induction fuel as [|fuel IH]; intros cfg X I s e s' HI E; [done|]. cbn [AddNode] in E.
  eapply addNode_ok; [|exact HI|exact E]. intros cfg' X' I' s1 e1 s1' H1 E1. specialize (IH _ _ _ _ _ _ H1 E1).
  destruct e1; [by destruct IH|]. eapply inv_weaken; [|exact IH]. set_solver.
Qed.
Lemma AddNode_inv fuel cfg X I : preserves (inv X I) (AddNode fuel cfg).
Proof.
  intros s e s' H E. pose proof (AddNode_post _ _ _ _ _ _ _ H E) as HP.
  destruct e; [by destruct HP|]. eapply inv_weaken; [|exact HP]. set_solver.
Qed.

(** ** The nesting is bounded

    A nested call is made in a wait, and a wait takes a batch of events for good: with [n]
    batches left, calls do not nest deeper than [n]. *)
Definition few k s : Prop := (length (s_waits s) <= k)%nat.
Lemma few_modify f k : (forall s, s_waits (f s) = s_waits s) -> preserves (few k) (modify f).
Proof. intros H. apply hoare_modify. intros s Hs. unfold few. by rewrite H. Qed.
#[local] Hint Extern 3 (hoare (few _) (modify _) _) => apply few_modify; reflexivity : hoare.
Lemma few_with_node {A} p id (m : CliEnv -> st SimNode A) k : preserves (few k) (with_node p id m).
Proof. unfold with_node. pres. Qed.
Lemma few_on_hosts m k : preserves (few k) (on_hosts m).
Proof. apply hoare_update. intros s s' H E. apply bind_Ok in E as ([u h] & _ & [= <-]). done. Qed.
#[local] Hint Resolve few_with_node few_on_hosts : hoare.
Lemma few_deliver o k : preserves (few k) (deliver o).
Proof. unfold deliver, node_callback, VisitNodesInOrder. destruct o as [|[]| | | |]; pres. Qed.
#[local] Hint Resolve few_deliver : hoare.
Lemma few_on_d {A} (m : st (Dispatcher M) A) k : preserves (few k) (on_d m).
Proof. unfold on_d. pres. Qed.
#[local] Hint Resolve few_on_d : hoare.
Lemma few_on_node {A} id (m : CliEnv -> st SimNode A) k : preserves (few k) (on_node id m).
Proof.
  unfold on_node. apply pres_bind; [pres|]. intros [a outs]. apply pres_bind; [|pres]. apply pres_for_each.
  intros o _. destruct o; cbn [apply_output]; pres.
Qed.
Lemma few_setup id j cfg k : preserves (few k) (setup_node id j cfg).
Proof. unfold setup_node. apply pres_bind; [apply few_on_node|]. intros [e [ver threadVer]]. pres; apply few_on_node. Qed.
Lemma few_finalizeExit id b k : preserves (few k) (finalizeExit id b).
Proof. unfold finalizeExit, post. pres. Qed.
#[local] Hint Resolve few_on_node few_setup few_finalizeExit : hoare.

Definition same_on (P : Sim M -> Prop) {A} (m1 m2 : st (Sim M) A) : Prop := forall s, P s -> m1 s = m2 s.
Lemma same_bind {A B} P (m1 m2 : st (Sim M) A) (k1 k2 : A -> st (Sim M) B) :
  same_on P m1 m2 -> preserves P m2 -> (forall a, same_on P (k1 a) (k2 a)) ->
  same_on P (mbind k1 m1) (mbind k2 m2).
Proof.
  intros H HP Hk s Hs. unfold mbind, st_bind. rewrite (H s Hs). destruct (m2 s) as [[a s']|] eqn:E; [|done].
  apply Hk. by eapply HP.
Qed.
Lemma same_next {A B} P (m : st (Sim M) A) (k1 k2 : A -> st (Sim M) B) :
  preserves P m -> (forall a, same_on P (k1 a) (k2 a)) -> same_on P (mbind k1 m) (mbind k2 m).
Proof. intros. by apply same_bind. Qed.
Lemma same_for_each {A} P (l : list A) f1 f2 :
  (forall x, same_on P (f1 x) (f2 x)) -> (forall x, preserves P (f2 x)) ->
  same_on P (for_each l f1) (for_each l f2).
Proof.
  intros H HP. induction l as [|x l IH]; intros s Hs; [done|]. cbn [for_each]. revert s Hs. by apply same_bind.
Qed.

Section fuel.
Context (Add Add' : NodeConfig -> st (Sim M) (option string)) (n : nat).
Hypothesis Add_same : forall cfg, same_on (fun s => length (s_waits s) < n)%nat (Add cfg) (Add' cfg).
Hypothesis Add_few : forall cfg k, preserves (few k) (Add' cfg).

Lemma few_HandleEvent evt k : preserves (few k) (HandleEvent Add' evt).
Proof. unfold HandleEvent, OnNewNodeDetected, genId. pres. Qed.
#[local] Hint Resolve few_HandleEvent : hoare.
Lemma few_wait k : preserves (few k) (wait Add').
Proof.
  intros s u s' Hs E. unfold wait in E. apply bind_st_Ok in E as (? & ? & [<- <-]%get_st_Ok & E).
  destruct (s_waits s) as [|evts later] eqn:Ew; [by apply ret_st_Ok in E as [_ <-]|].
  apply bind_st_Ok in E as ([] & s1 & <-%modify_st_Ok & E). revert E. apply hoare_run_flip; [pres|].
  unfold few in *. rewrite Ew in Hs. cbn in *. lia.
Qed.
#[local] Hint Resolve few_wait : hoare.
Lemma same_HandleEvent evt : same_on (fun s => length (s_waits s) < n)%nat (HandleEvent Add evt) (HandleEvent Add' evt).
Proof.
  intros s Hs. unfold HandleEvent, mbind, st_bind, get. destruct (d_nodes (s_d s) !! ev_NodeId evt); [done|].
  destruct (ev_Conn evt); [|done]. destruct (ev_Type evt =? EventTypeNodeInfo); [|done].
  unfold OnNewNodeDetected, mbind, st_bind, get. destruct (lift _ s) as [[? s1]|] eqn:E1; [|done].
  apply lift_st_Ok in E1 as [_ <-]. destruct (genId s) as [[id s1]|] eqn:E1; [|done].
  assert (s = s1) as <- by (unfold genId in E1; apply bind_st_Ok in E1 as (? & ? & [<- <-]%get_st_Ok & [_ <-]%lift_st_Ok); done).
  destruct (lift _ s) as [[cfg s1]|] eqn:E2; [|done]. apply lift_st_Ok in E2 as [_ <-].
  by rewrite (Add_same cfg s Hs).
Qed.
Lemma same_wait : same_on (few n) (wait Add) (wait Add').
Proof.
  intros s Hs. unfold wait, mbind, st_bind, get. destruct (s_waits s) as [|evts later] eqn:Ew; [done|].
  unfold modify. apply (same_for_each (fun s => length (s_waits s) < n)%nat).
  - apply same_HandleEvent.
  - intros evt s1 u s2 H1 E. destruct n as [|n']; [lia|]. eapply (few_HandleEvent evt n') in E; [|unfold few; lia].
    unfold few in E. lia.
  - unfold few in Hs. rewrite Ew in Hs. cbn in *. lia.
Qed.
Lemma same_cleanup id node : same_on (few n) (cleanup Add id node) (cleanup Add' id node).
Proof.
  unfold cleanup. apply same_bind; [|destruct node; pres|done]. destruct node; [done| |].
  - apply same_next; [pres|]. intros _. apply same_wait.
  - apply same_next; [pres|]. intros _. apply same_next; [pres|]. intros _. apply same_wait.
Qed.
Lemma same_add_body cfg : same_on (few n) (add_body Add cfg) (add_body Add' cfg).
Proof.
  unfold add_body. apply same_next; [pres|]. intros _. apply same_next; [pres|]. intros s.
  destruct (newNode _ _ _) as [[[node|] p] [err|]]; apply same_next; (try by pres); intros _; try done.
  do 4 (apply same_next; [pres|]; intros ?).
  apply same_bind; [apply same_wait|pres|]. intros _. apply same_next; [pres|]. intros s2.
  destruct (negb _); [done|]. do 2 (apply same_next; [pres|]; intros ?).
  by apply same_bind; [apply same_wait|pres|].
Qed.
Lemma few_add_body cfg k : preserves (few k) (add_body Add' cfg).
Proof.
  unfold add_body. apply pres_bind; [pres|]. intros _. apply pres_bind; [pres|]. intros s.
  destruct (newNode _ _ _) as [[[node|] p] [err|]]; pres.
  apply hoare_update. intros q b Ha Eb. apply bind_Ok in Eb as (? & _ & [= <-]). exact Ha.
Qed.
Lemma few_cleanup id node k : preserves (few k) (cleanup Add' id node).
Proof. unfold cleanup. destruct node; pres. Qed.
#[local] Hint Resolve few_add_body few_cleanup : hoare.
Lemma few_addNode cfg k : preserves (few k) (addNode Add' cfg).
Proof.
  unfold addNode. apply pres_bind; [pres|]. intros s. destruct (s_nodes s !! nc_ID cfg); [pres|].
  destruct (_ && _); [pres|]. match goal with |- context [let '(_, _) := ?p in _] => destruct p as [[[x y] z] placer] end. pres.
Qed.
Lemma same_addNode cfg : same_on (few n) (addNode Add cfg) (addNode Add' cfg).
Proof.
  unfold addNode. apply same_next; [pres|]. intros s. destruct (s_nodes s !! nc_ID cfg); [done|].
  destruct (_ && _); [done|]. match goal with |- context [let '(_, _) := ?p in _] => destruct p as [[[x y] z] placer] end.
  apply same_next; [pres|]. intros _. apply same_bind; [apply same_add_body|pres|]. intros [e node].
  apply same_bind; [|destruct e; pres|done]. destruct e; [apply same_cleanup|done].
Qed.
End fuel.

Lemma AddNode_S fuel cfg : AddNode (S fuel) cfg = addNode (AddNode fuel) cfg.
Proof. done. Qed.
Lemma few_AddNode fuel cfg k : preserves (few k) (AddNode fuel cfg).
Proof. revert cfg k. induction fuel as [|fuel IH]; intros cfg k; [apply pres_panics|]. rewrite AddNode_S. apply few_addNode, IH. Qed.
Lemma AddNode_enough n : forall fuel cfg, (n < fuel)%nat -> same_on (few n) (AddNode fuel cfg) (AddNode (S n) cfg).
Proof.
  induction n as [|n IH]; intros [|fuel] cfg Hf; try lia.
  - rewrite !AddNode_S. apply (same_addNode (AddNode fuel) (AddNode 0)); [|apply few_AddNode]. intros cfg' s Hs. lia.
  - rewrite !(AddNode_S fuel), (AddNode_S (S n)). apply (same_addNode (AddNode fuel) (AddNode (S n))); [|apply few_AddNode]. intros cfg' s Hs. apply IH; [lia|].
    unfold few. lia.
Qed.

(** ** The whole system *)
Abbreviation ok := (inv ∅ ∅).
Lemma ok_pres {A} (m : st (Sim M) A) : (forall S D, preserves (has S D) m) -> preserves ok m.
Proof. apply inv_pres. Qed.
#[local] Hint Extern 3 (hoare ok (modify _) _) => apply ok_pres; intros; apply has_modify; intros ?; repeat split : hoare.
Lemma ok_wait : preserves ok waitForSimulation.
Proof. unfold waitForSimulation. apply pres_bind; [apply pres_get|]. intros s. apply inv_wait. intros. apply AddNode_inv. Qed.
Lemma ok_on_node {A} id (m : CliEnv -> st SimNode A) : preserves ok (on_node id m).
Proof. apply inv_on_node. Qed.
Lemma ok_finalizeExit id b : preserves ok (finalizeExit id b).
Proof. apply inv_finalizeExit. Qed.
Lemma ok_post t : preserves ok (post t).
Proof. unfold post. pres. Qed.
Lemma ok_forget id : preserves ok (forget id).
Proof.
  intros s u s' (S & HS & _ & _) E. unfold forget in E. apply bind_st_Ok in E as ([] & s1 & E1 & E).
  eapply has_unlist in E1; [|exact HS]. eapply has_DeleteNode in E; [|exact E1]. exists (S ∖ {[id]}).
  split; [|set_solver]. by replace (S ∖ {[id]} ∪ ∅) with ((S ∪ ∅) ∖ {[id]}) by set_solver.
Qed.
#[local] Hint Resolve ok_wait ok_on_node ok_finalizeExit ok_post ok_forget : hoare.
Lemma ok_DeleteNode id : preserves ok (DeleteNode id).
Proof. unfold DeleteNode. pres. Qed.
#[local] Hint Resolve ok_DeleteNode : hoare.
Lemma ok_run_next : preserves ok run_next.
Proof. unfold run_next, run_posted. pres. Qed.
Lemma ok_on_d {A} (m : st (Dispatcher M) A) :
  preserves vw m -> (forall v, preserves (fun d => d_nodes d = v) m) -> preserves ok (on_d m).
Proof. intros. apply ok_pres. intros. by apply has_on_d_fixed. Qed.
Lemma ok_MoveNodeTo id x y z : preserves ok (MoveNodeTo id x y z).
Proof.
  assert (forall z', preserves ok (on_d (SetNodePos id x y z'))).
  { intros z'. apply ok_on_d; [apply (vw_task (TaskSetNodePos id x y z'))|]. apply fx_quiet, si_SetNodePos. }
  unfold MoveNodeTo. pres.
Qed.
Lemma fx_plain_task t v : plain_task t = true -> preserves (fun d : Dispatcher M => d_nodes d = v) (run_task (fun _ => mret false) t).
Proof.
  destruct t as [| | |id x y z|id b|l ft|l|l|id|l data|l w p x|plr|id|id| |b|e|opts|f|name seed|p b];
    intros Ht; [discriminate Ht..| | | | | | | | | | | | | | | | | |]; cbn [run_task].
  - apply fx_quiet, si_SetNodePos.
  - apply fx_quiet, si_SetNodeFailed.
  - apply pres_bind; [apply pres_gets|]. intros [l'|]; [apply fx_quiet, si_SetFailTime|apply pres_ret].
  - apply pres_bind; [apply fx_quiet, si_CollectPings|intros; apply pres_ret].
  - apply pres_bind; [apply fx_quiet, si_CollectJoins|intros; apply pres_ret].
  - apply fx_quiet, si_NotifyCommand.
  - apply pres_bind; [apply fx_SendToVirtualUART|intros; apply pres_ret].
  - apply pres_bind; [apply fx_SendRfSimEvent|intros; apply pres_ret].
  - by apply hoare_modify.
  - apply fx_WatchNode.
  - apply fx_UnwatchNode.
  - apply fx_EnableCoaps.
  - apply pres_bind; [apply fx_CollectCoapMessages|intros; apply pres_ret].
  - by apply hoare_modify.
  - by apply hoare_modify.
  - apply fx_quiet, si_SetSpeed.
  - apply pres_bind; [apply fx_quiet, si_ReplaceRadioModel|intros; apply pres_ret].
  - apply fx_quiet. intros ?. apply si_radio_op, kn_modify_params.
Qed.
Lemma ok_plain_task t : plain_task t = true -> preserves ok (on_d (run_task (fun _ => mret false) t)).
Proof. intros Ht. apply ok_on_d; [apply vw_task|]. intros v. by apply fx_plain_task. Qed.
Lemma ok_run_disp o : preserves ok (on_d (run_disp o)).
Proof.
  destruct o; cbn [run_disp]; [apply ok_on_d..|].
  - apply vw_syncAliveNodes.
  - apply fx_quiet, si_syncAliveNodes.
  - apply pres_bind; [apply pres_get|intros]. apply pres_bind; [apply vw_processNextEvents|intros; apply pres_ret].
  - intros v. apply pres_bind; [apply pres_get|intros]. apply pres_bind; [apply fx_quiet, si_processNextEvents|intros; apply pres_ret].
  - apply pres_bind; [apply vw_processNextEventsRealtime|intros; apply pres_ret].
  - intros v. apply pres_bind; [apply fx_quiet, si_processNextEventsRealtime|intros; apply pres_ret].
  - apply vw_advanceTime.
  - apply fx_quiet, si_advanceTime.
  - apply pres_bind; [apply vw_goBegin|intros; apply pres_ret].
  - intros v. apply pres_bind; [apply fx_quiet, si_goBegin|intros; apply pres_ret].
  - apply vw_goEnd.
  - apply fx_quiet, si_goEnd.
  - destruct (plain_task t) eqn:Ht; [by apply ok_plain_task|]. apply ok_on_d; [apply pres_ret|intros v; apply pres_ret].
Qed.
#[local] Hint Resolve ok_run_next ok_MoveNodeTo ok_run_disp : hoare.

(** *** KPIs *)
Lemma ok_radio {A} (m : st (radio_st M) A) : keeps_nodes m -> preserves ok (on_d (radio m)).
Proof.
  intros H. apply ok_on_d; [by apply vw_radio|apply fx_radio].
Qed.
Lemma ok_GetPhyStats : preserves ok (on_d (radio rm_GetPhyStats)).
Proof. apply ok_radio, kn_GetPhyStats. Qed.
Lemma ok_GetChannelStats ch : preserves ok (on_d (radio (rm_GetChannelStats ch))).
Proof. apply ok_radio. intros r a r' E. by apply law_GetChannelStats in E as [_ ->]. Qed.
Lemma ok_ResetChannelStats ch : preserves ok (on_d (radio (rm_ResetChannelStats ch))).
Proof. apply ok_radio. intros r a r' E. by apply law_ResetChannelStats in E as [_ ->]. Qed.
Lemma ok_EnableCoaps : preserves ok (on_d EnableCoaps).
Proof. apply (ok_plain_task TaskEnableCoaps eq_refl). Qed.
Lemma ok_CollectCoaps b : preserves ok (on_d (CollectCoapMessages b)).
Proof.
  apply ok_on_d; [|apply fx_CollectCoapMessages]. intros d r d' W E.
  eapply (vw_task (TaskCollectCoapMessages b)); [exact W|]. cbn [run_task]. unfold mbind, st_bind. rewrite E. done.
Qed.
#[local] Hint Resolve ok_GetPhyStats ok_GetChannelStats ok_ResetChannelStats ok_EnableCoaps ok_CollectCoaps : hoare.
Lemma ok_countersOf nids ps acc : preserves ok (countersOf nids ps acc).
Proof. revert acc. induction nids as [|nid nids IH]; intros acc; cbn [countersOf]; pres. Qed.
Lemma ok_channelStats t chs acc : preserves ok (channelStats t chs acc).
Proof. revert acc. induction chs as [|ch chs IH]; intros acc; cbn [channelStats]; pres. Qed.
Lemma ok_mod_kpi f : preserves ok (mod_kpi f).
Proof. unfold mod_kpi. pres. Qed.
#[local] Hint Resolve ok_countersOf ok_channelStats ok_mod_kpi : hoare.
Lemma ok_collect b r : preserves ok (collect b r).
Proof. unfold collect, retrieveNodeCounters, retrieveRadioModelStats. pres. Qed.
#[local] Hint Resolve ok_collect : hoare.
Lemma ok_Start : preserves ok Start.
Proof. unfold Start, retrieveNodeCounters. pres. Qed.
Lemma ok_SaveFile b : preserves ok (SaveFile b).
Proof. unfold SaveFile. pres. Qed.
#[local] Hint Resolve ok_Start ok_SaveFile : hoare.
Lemma ok_SaveDefaultFile : preserves ok SaveDefaultFile.
Proof. unfold SaveDefaultFile. pres. Qed.
#[local] Hint Resolve ok_SaveDefaultFile : hoare.
Lemma ok_Stop : preserves ok Stop.
Proof. unfold Stop. pres. Qed.
#[local] Hint Resolve ok_Stop : hoare.

Lemma ok_serve waits r : preserves ok (serve waits r).
Proof.
  unfold serve. apply pres_bind; [pres|]. intros _. destruct r.
  - unfold add_node. pres. apply AddNode_inv.
  - pres.
  - pres.
  - pres.
  - apply pres_bind; [apply pres_get|]. intros s. apply inv_HandleEvent. intros. apply AddNode_inv.
  - pres.
  - pres.
  - apply hoare_update. intros s s' (S & HS & H) E. apply bind_Ok in E as (a & _ & [= <-]). by exists S.
  - pres.
  - pres.
  - pres.
Qed.
Lemma reachable_ok cfg dcfg model rnd s : sim_reachable cfg dcfg model rnd s -> ok s.
Proof.
  induction 1 as [s E|waits r s s' _ IH E]; [|by eapply ok_serve]. exists ∅. split; [|set_solver].
  unfold NewSimulation in E. apply bind_Ok in E as (d & E & [= <-]). split; [split; [|done]|split; [|done]]; cbn [s_d].
  - apply (vw_task (TaskSetEnergyAnalyser (NewEnergyAnalyser (si_OutputDir (cf_info cfg)) (si_Id (cf_info cfg)))) d tt);
      [by eapply vw_NewDispatcher|done].
  - unfold NewDispatcher in E. apply bind_Ok in E as (? & _ & E). apply bind_Ok in E as (q & _ & E). apply bind_Ok in E as (am & _ & E).
    injection E as <-. cbn. by rewrite dom_empty_L, union_empty_r_L.
Qed.
Lemma ok_agree s : ok s <-> good s /\ dom (s_nodes s) = dom (d_nodes (s_d s)).
Proof.
  split.
  - intros (S & (H1 & H2 & H3) & _). split; [done|]. rewrite H2, H3. by rewrite union_empty_r_L.
  - intros [H1 H2]. exists (dom (s_nodes s)). split; [|set_solver]. split; [done|]. split; [|done].
    by rewrite H2, union_empty_r_L.
Qed.
End laws.

(** ** Examples: nodes that echo what they are told *)
Definition ex_reply (cmd : string) : list (list Z) :=
  let answer :=
    if String.eqb cmd "ifconfig" then "down" +:+ nl else if String.eqb cmd "version" then "OPENTHREAD/1" +:+ nl
    else if String.eqb cmd "thread version" then "5" +:+ nl else "" in
  [bytes_of_string (cmd +:+ nl); bytes_of_string (answer +:+ "Done" +:+ nl +:+ "> ")].
Definition ex_sim_cli : CliEnv := {|
  cli_reply _ cmd := Some (ex_reply cmd); rfsim_reply _ _ _ _ := None; in_node_context := false; dnode_connected := true |}.
Definition ex_os : OsEnv := {|
  os_fs := ex_fs; isFileExecutable _ := true; os_RemoveAll _ := None; os_MkdirAll _ := None; cmd_StdinPipe := None;
  cmd_StdoutPipe := None; cmd_StderrPipe := None; cmd_Start _ := None |}.
Definition ex_sim_env : SimEnv := {|
  se_disp := ex_disp_env; se_host := ex_host_env;
  se_path := {| os_Getwd := inr "/work"; os_Lstat _ := None; os_Readlink _ := None |}; se_os _ := ex_os; se_cli _ := ex_sim_cli; se_watched _ := false;
  range_params m := map_to_list m |}.
Definition ex_sim_config : SimConfig :=
  mkSimConfig (mkSimInfo 0 "tmp" "socket") false true 1%float false DefaultNodeConfig DefaultNodeScripts (DefaultExecutableConfig (env := ex_fs))
    (DefaultExecutableConfig (env := ex_fs)).
Definition ex_sim_start : res (Sim Ideal.RadioModelIdeal) :=
  NewSimulation (env := ex_sim_env) ex_sim_config ex_config ex_model 0.
Definition ex_cfg (id : Z) : NodeConfig := set_id_type id "router" "" DefaultNodeConfig.

(** A node connects and says when it wants to wake up again. *)
Definition ex_awake (id msgId : Z) (conn : nat) : list Event :=
  [ex_event id EventTypeNodeInfo conn []; set_MsgId msgId (ex_event id EventTypeAlarmFired conn [])].
(** Node 1 is added.  While the simulation waits for it, an external node 9 appears and is
    added too; node 2 does not respond; node 1 is deleted. *)
Definition ex_sim_requests : list (list (list Event) * SimReq) := [
  ([ex_awake 1 0 1 ++ [ex_event 9 EventTypeNodeInfo 2 []]; ex_awake 9 0 2; []; ex_awake 1 20 1]%list, RAdd (ex_cfg 1));
  ([], RAdd (ex_cfg 2))].
Fixpoint sim_serve_all (rs : list (list (list Event) * SimReq)) : st (Sim Ideal.RadioModelIdeal) () :=
  match rs with
  | [] => mret tt
  | (w, r) :: rs => _ ← serve (env := ex_sim_env) (RadioModel0 := @ideal_model ex_env) w r; sim_serve_all rs
  end.
Abbreviation ex_sim_reachable :=
  (sim_reachable (env := ex_sim_env) (RadioModel0 := @ideal_model ex_env) ex_sim_config ex_config ex_model 0).
Lemma sim_serve_all_reachable rs s u s' : ex_sim_reachable s -> sim_serve_all rs s = Ok (u, s') -> ex_sim_reachable s'.
Proof.
  revert s. induction rs as [|[w r] rs IH]; intros s H E; cbn [sim_serve_all] in E; [by apply ret_st_Ok in E as [_ <-]|].
  apply bind_st_Ok in E as ([] & s1 & E1 & E). eapply IH; [|exact E]. by eapply sr_serve.
Qed.
(** The ids that the simulation and the dispatcher have at the end. *)
Definition ex_ids (s : Sim Ideal.RadioModelIdeal) : list NodeId * list NodeId :=
  (elements (dom (s_nodes s)), elements (dom (d_nodes (s_d s)))).
Definition ex_run (rs : list (list (list Event) * SimReq)) : res (Sim Ideal.RadioModelIdeal) :=
  s ← ex_sim_start; '(_, s) ← sim_serve_all rs s; Ok s.
Lemma ex_run_reachable rs s : ex_run rs = Ok s -> ex_sim_reachable s.
Proof.
  intros E. unfold ex_run in E. apply bind_Ok in E as (s0 & E0 & E). apply bind_Ok in E as ([[] s1] & E1 & [= <-]).
  eapply sim_serve_all_reachable; [|exact E1]. by apply sr_new.
Qed.


Definition ex_added : list (list (list Event) * SimReq) := [([ex_awake 1 0 1], RAdd (ex_cfg 1))].

