(* ===== verification/ReplayFile.v ===== *)
(** * The replay file

    src/visualize/grpc/replay/replay.go and src/cmd/otns-replay/grpc_service.go: the gRPC
    visualizer hands its events to a goroutine, which writes them to a file through a buffer;
    the program otns-replay sends the events of such a file to a client, at the times at
    which they were recorded.

    - [Rep] is the recorder with its goroutine: the channel, the buffered writer and the file.
      The methods and the goroutine run concurrently ([rep_step]).  In [GrpcVisualizer] the
      file is a list of entries; here this is what the recorder implements.
    - The text format of entries and the outcome of writes to the file are parameters
      ([ReplayEnv]).
    - Opening the file and heartbeats are left out; sending takes no time. *)

From S2P Require Import Prelude State Types GoFloat GoText Energy Visualize Uart NodeProcess GrpcVisualizer GrpcLaws.

Local Open Scope Z_scope.

Abbreviation ReplayEntry := (Z * VisualizeEvent)%type (only parsing).

Class ReplayEnv := {
  (** the text of an entry on one line (package prototext) *)
  Marshal : ReplayEntry -> option (list Z);
  Unmarshal : list Z -> option ReplayEntry;
  (** the outcome of the [i]-th write to the file: all is written, or an error after some bytes *)
  file_Write : nat -> option nat;
}.
(** What the package promises: the text of an entry is one line, and the entry can be read
    from it. *)
Class ReplayEnvOk (env : ReplayEnv) : Prop := {
  Marshal_line e l : Marshal e = Some l -> (10 ∉ l) /\ drop_cr l = l;
  Unmarshal_Marshal e l : Marshal e = Some l -> Unmarshal l = Some e;
}.

(** ** bufio.Writer *)
Record bufWriter := mkBw { bw_buf : list Z; bw_err : bool; bw_file : list Z; bw_writes : nat }.
Definition bufSize : nat := Z.to_nat 8192.

Section writer.
Context {env : ReplayEnv}.
(** A write to the file: what is left of [p], and the state after it. *)
Definition wr_Write (p : list Z) (b : bufWriter) : list Z * bufWriter :=
  match file_Write (bw_writes b) with
  | None => ([], mkBw (bw_buf b) (bw_err b) (bw_file b ++ p) (S (bw_writes b)))
  | Some n => (drop n p, mkBw (bw_buf b) true (bw_file b ++ take n p) (S (bw_writes b)))
  end.
Definition set_buf v b : bufWriter := mkBw v (bw_err b) (bw_file b) (bw_writes b).
Definition Flush (b : bufWriter) : bufWriter :=
  if bw_err b then b
  else match bw_buf b with
  | [] => b
  | p => let '(rest, b) := wr_Write p b in set_buf rest b
  end.
Definition Available (b : bufWriter) : nat := (bufSize - length (bw_buf b))%nat.
(** The loop of [Write]: what is left of [p] fits in the buffer, unless there is an error. *)
Fixpoint write_loop (fuel : nat) (p : list Z) (b : bufWriter) : list Z * bufWriter :=
  match fuel with
  | O => (p, b)
  | S fuel =>
    if bool_decide (length p <= Available b)%nat || bw_err b then (p, b)
    else match bw_buf b with
    | [] => let '(rest, b) := wr_Write p b in write_loop fuel rest b
    | _ => write_loop fuel (drop (Available b) p) (Flush (set_buf (bw_buf b ++ take (Available b) p) b))
    end
  end.
(** Three turns are enough: the buffer is flushed, and the rest is written or fits. *)
Definition Write (p : list Z) (b : bufWriter) : bool * bufWriter :=
  let '(rest, b) := write_loop 3 p b in
  if bw_err b then (false, b) else (true, set_buf (bw_buf b ++ rest) b).

(** ** The recorder (replay.go) *)
Record Rep := mkRep {
  r_pendingChan : list ReplayEntry;
  r_closed : bool;
  r_fileWriter : bufWriter;
  r_fileWriterDone : bool;
}.
Definition pendingCap : nat := Z.to_nat 10000.
Definition NewReplay : Rep := mkRep [] false (mkBw [] false [] 0) false.
(** A full channel makes the caller wait. *)
Definition rep_Append (entry : ReplayEntry) (r : Rep) : res Rep :=
  if r_closed r then Panic Panicf
  else if bool_decide (pendingCap <= length (r_pendingChan r))%nat then Panic Blocked
  else Ok (mkRep (r_pendingChan r ++ [entry]) false (r_fileWriter r) (r_fileWriterDone r)).
(** Closing a closed channel panics; [Close] then waits for the goroutine. *)
Definition Close (r : Rep) : res Rep :=
  if r_closed r then Panic Panicf else Ok (mkRep (r_pendingChan r) true (r_fileWriter r) (r_fileWriterDone r)).
(** The writing of one entry. *)
Definition write_entry (e : ReplayEntry) (b : bufWriter) : bool * bufWriter :=
  match Marshal e with
  | None => (false, b)
  | Some data =>
    let '(ok, b) := Write data b in
    if (ok : bool) then Write [10] b else (false, b)
  end.
(** A turn of the goroutine; nothing if it waits or has ended. *)
Definition fileWriterRoutine (r : Rep) : option Rep :=
  if r_fileWriterDone r then None
  else match r_pendingChan r with
  | [] => if r_closed r then Some (mkRep [] true (Flush (r_fileWriter r)) true) else None
  | e :: rest =>
    let '(ok, b) := write_entry e (r_fileWriter r) in
    if (ok : bool) then Some (mkRep rest (r_closed r) b false) else Some (mkRep rest (r_closed r) (Flush b) true)
  end.
Fixpoint run_writer (fuel : nat) (r : Rep) : Rep :=
  match fuel with
  | O => r
  | S fuel => match fileWriterRoutine r with Some r => run_writer fuel r | None => r end
  end.

(** ** The player (grpc_service.go) *)
(** [now] and [start] are in microseconds; [Send] gives the outcome of the [i]-th send.  An
    error ends the stream. *)
Fixpoint play_lines (Send : nat -> bool) (start now : Z) (i : nat) (lines : list (list Z)) : list (Z * VisualizeEvent) :=
  match lines with
  | [] => []
  | line :: lines =>
    match Unmarshal line with
    | None => []
    | Some (timestamp, event) =>
      let now := Z.max now (start + timestamp) in
      (now, event) :: (if Send i then play_lines Send start now (S i) lines else [])
    end
  end.
Definition visualizeStream (Send : nat -> bool) (start : Z) (file : list Z) : list (Z * VisualizeEvent) :=
  play_lines Send start start 0 (scan file).
End writer.

(** ** The recorder implements the list of entries *)
Section laws.
Context {senv : StreamEnv} {env : ReplayEnv}.

(** The recorder and what the visualizer has recorded, in every interleaving. *)
Inductive rep_reach : Rep -> Replay -> Prop :=
| rr_new : rep_reach NewReplay (mkReplay [] false)
| rr_append r a event r' a' :
    rep_reach r a -> Append event a = Ok a' -> rep_Append (replay_time (length (rep_entries a)), event) r = Ok r' -> rep_reach r' a'
| rr_close r a r' : rep_reach r a -> Close r = Ok r' -> rep_reach r' (mkReplay (rep_entries a) true)
| rr_writer r a r' : rep_reach r a -> fileWriterRoutine r = Some r' -> rep_reach r' a.

Hypothesis writes_work : forall i, file_Write i = None.

(** What was written, whether it is in the file yet or not. *)
Definition content (b : bufWriter) : list Z := (bw_file b ++ bw_buf b)%list.
Record bw_ok (b : bufWriter) : Prop := { bk_err : bw_err b = false; bk_len : (length (bw_buf b) <= bufSize)%nat }.
Lemma Flush_ok b : bw_ok b -> bw_ok (Flush b) /\ bw_buf (Flush b) = [] /\ content (Flush b) = content b.
Proof.
  intros [He Hl]. unfold Flush. rewrite He. destruct (bw_buf b) as [|x p] eqn:E; [by split; [split; [|rewrite E; cbn; lia]|]|].
  unfold wr_Write. rewrite writes_work. split; [split; [done|cbn; lia]|]. split; [done|]. unfold content. cbn. by rewrite E, app_nil_r.
Qed.
Lemma loop_ok fuel p b : bw_ok b -> (match bw_buf b with [] => 2 | _ => 3 end <= fuel)%nat ->
  exists rest b', write_loop fuel p b = (rest, b') /\ bw_ok b' /\ (length rest <= Available b')%nat /\
    (content b' ++ rest = content b ++ p)%list.
Proof.
  revert p b. induction fuel as [|fuel IH]; intros p b Hb Hf; [destruct (bw_buf b); lia|]. cbn [write_loop].
  destruct (bool_decide_reflect (length p <= Available b)%nat) as [Hp|Hp]; cbn [orb]; [by exists p, b|].
  rewrite (bk_err b Hb). destruct (bw_buf b) as [|x q] eqn:Eb.
  - unfold wr_Write. rewrite writes_work. exists [], (mkBw (bw_buf b) (bw_err b) (bw_file b ++ p) (S (bw_writes b))).
    split; [|split; [by destruct Hb; split|split; [cbn; lia|]]].
    + destruct fuel as [|fuel]; [lia|]. cbn [write_loop]. by rewrite bool_decide_eq_true_2 by (cbn; lia).
    + unfold content. cbn. rewrite Eb. by rewrite !app_nil_r.
  - rewrite <- Eb. set (b1 := set_buf (bw_buf b ++ take (Available b) p) b).
    assert (bw_ok b1) as H1.
    { split; [apply Hb|]. cbn. rewrite length_app, length_take. unfold Available. pose proof (bk_len b Hb). lia. }
    destruct (Flush_ok b1 H1) as (F1 & F2 & F3).
    destruct (IH (drop (Available b) p) (Flush b1) F1) as (rest & b' & E & H' & Hr & Hc); [rewrite F2; lia|].
    exists rest, b'. split; [done|]. split; [done|]. split; [done|]. rewrite Hc, F3. unfold content, b1. cbn.
    by rewrite <- !app_assoc, (take_drop (Available b) p).
Qed.
Lemma Write_ok p b : bw_ok b -> exists b', Write p b = (true, b') /\ bw_ok b' /\ content b' = (content b ++ p)%list.
Proof.
  intros Hb. unfold Write. destruct (loop_ok 3 p b Hb) as (rest & b' & -> & H' & Hr & Hc); [destruct (bw_buf b); lia|].
  rewrite (bk_err b' H'). eexists. split; [done|]. split.
  - split; [apply H'|]. cbn. rewrite length_app. unfold Available in Hr. pose proof (bk_len b' H'). lia.
  - unfold content in *. cbn. by rewrite <- Hc, app_assoc.
Qed.

(** The entry has a text, which the player's scanner can take. *)
Definition recordable (e : ReplayEntry) : Prop := exists l, Marshal e = Some l /\ (length l < MaxScanTokenSize)%nat.
Definition text_of (e : ReplayEntry) : list Z := default [] (Marshal e).
Lemma text_of_Some e l : Marshal e = Some l -> text_of e = l.
Proof. unfold text_of. by intros ->. Qed.
Lemma entry_ok e b : recordable e -> bw_ok b ->
  exists b', write_entry e b = (true, b') /\ bw_ok b' /\ content b' = (content b ++ text_of e ++ [10])%list.
Proof.
  intros (l & El & _) Hb. unfold write_entry, text_of. rewrite El. destruct (Write_ok l b Hb) as (b1 & -> & H1 & C1).
  destruct (Write_ok [10] b1 H1) as (b2 & -> & H2 & C2). exists b2. split; [done|]. split; [done|]. by rewrite C2, C1, <- app_assoc.
Qed.

(** The entries are those that were written and those that wait. *)
Record rep_ok (r : Rep) (a : Replay) : Prop := {
  ro_closed : r_closed r = rep_closed a;
  ro_bw : bw_ok (r_fileWriter r);
  ro_entries : exists written, rep_entries a = (written ++ r_pendingChan r)%list /\
    content (r_fileWriter r) = line_text (map text_of written);
  ro_done : r_fileWriterDone r = true -> r_closed r = true /\ r_pendingChan r = [] /\ bw_buf (r_fileWriter r) = [];
}.
Lemma line_text_app ls l : line_text (ls ++ [l]) = (line_text ls ++ l ++ [10])%list.
Proof. unfold line_text. rewrite map_app, concat_app. cbn. by rewrite app_nil_r. Qed.
Lemma writer_ok r a r' : Forall recordable (rep_entries a) -> rep_ok r a -> fileWriterRoutine r = Some r' -> rep_ok r' a.
Proof.
  intros HR [H1 H2 (w & H3 & H4) H5] E. unfold fileWriterRoutine in E. destruct (r_fileWriterDone r); [done|].
  destruct (r_pendingChan r) as [|e rest] eqn:Ep.
  - destruct (r_closed r) eqn:Ec; [|done]. injection E as <-. destruct (Flush_ok _ H2) as (F1 & F2 & F3).
    split; cbn; [done|done| |done]. exists w. split; [done|]. by rewrite F3.
  - rewrite H3 in HR. apply Forall_app in HR as [_ [He _]%Forall_cons].
    destruct (entry_ok e _ He H2) as (b & Eb & B1 & B2). rewrite Eb in E. injection E as <-. split; cbn; [done|done| |done].
    exists (w ++ [e])%list. rewrite <- app_assoc. split; [done|]. rewrite B2, H4, map_app. cbn [map]. by rewrite line_text_app.
Qed.
Lemma Append_entries event a a' : Append event a = Ok a' ->
  rep_closed a = false /\ a' = mkReplay (rep_entries a ++ [(replay_time (length (rep_entries a)), event)]) false.
Proof. unfold Append. destruct (rep_closed a); [done|]. by intros [= <-]. Qed.
Lemma reach_ok r a : rep_reach r a -> Forall recordable (rep_entries a) -> rep_ok r a.
Proof.
  induction 1 as [|r a event r' a' _ IH EA ER|r a r' _ IH EC|r a r' _ IH EW]; intros HR.
  - split; [done|by split; [|cbn; lia]| |done]. by exists [].
  - apply Append_entries in EA as [Hc ->]. cbn in HR. apply Forall_app in HR as [HR _].
    destruct (IH HR) as [H1 H2 (w & H3 & H4) H5]. unfold rep_Append in ER. destruct (r_closed r) eqn:Ec; [done|].
    destruct (bool_decide _); [done|]. injection ER as <-. split; cbn; [done|done| |].
    + exists w. split; [by rewrite H3, <- app_assoc|done].
    + intros HD%H5. by destruct HD.
  - destruct (IH HR) as [H1 H2 H3 H5]. unfold Close in EC. destruct (r_closed r) eqn:Ec; [done|]. injection EC as <-.
    split; cbn; [done|done|done|]. intros HD%H5. by destruct HD.
  - by eapply writer_ok; [|apply IH|].
Qed.
(** Once the channel is closed the goroutine ends. *)
Lemma writer_ends fuel r a : Forall recordable (rep_entries a) -> rep_ok r a -> r_closed r = true -> (length (r_pendingChan r) < fuel)%nat ->
  rep_ok (run_writer fuel r) a /\ r_fileWriterDone (run_writer fuel r) = true.
Proof.
  revert r. induction fuel as [|fuel IH]; intros r HR Hr Hc Hf; [lia|]. cbn [run_writer].
  destruct (fileWriterRoutine r) as [r'|] eqn:E.
  - pose proof (writer_ok r a r' HR Hr E) as Hr'. unfold fileWriterRoutine in E. destruct (r_fileWriterDone r); [done|].
    destruct (r_pendingChan r) as [|e rest] eqn:Ep.
    + rewrite Hc in E. injection E as <-. destruct fuel; [done|]. by cbn.
    + assert (r_closed r' = true /\ length (r_pendingChan r') = length rest) as [Hc' Hl'].
      { destruct (write_entry e _) as [[] b]; injection E as <-; done. }
      apply IH; [done|done|done|]. cbn in Hf. lia.
  - split; [done|]. unfold fileWriterRoutine in E. destruct (r_fileWriterDone r); [done|].
    destruct (r_pendingChan r); [by rewrite Hc in E|]. by destruct (write_entry _ _) as [[] ?].
Qed.

Context {env_ok : ReplayEnvOk env}.
(** The times at which entries are sent, each as soon as it may be. *)
Fixpoint send_times (start now : Z) (es : list ReplayEntry) : list (Z * VisualizeEvent) :=
  match es with
  | [] => []
  | (t, e) :: es => let now := Z.max now (start + t) in (now, e) :: send_times start now es
  end.
Lemma play_entries es start now i :
  Forall recordable es -> play_lines (fun _ => true) start now i (map text_of es) = send_times start now es.
Proof.
  intros HF. revert now i. induction HF as [|[t e] es (l & El & _) _ IH]; intros now i; [done|].
  cbn [map play_lines send_times]. rewrite (text_of_Some _ l El), (Unmarshal_Marshal _ _ El). by rewrite IH.
Qed.
Lemma send_times_sorted start es : Sorted Z.le es.*1 -> Forall (Z.le 0) es.*1 ->
  send_times start start es = map (fun '(t, e) => (start + t, e)) es.
Proof.
  intros HS HP. assert (forall now, Forall (fun t => now <= start + t) es.*1 -> send_times start now es = map (fun '(t, e) => (start + t, e)) es) as HG.
  { clear HP. induction es as [|[t e] es IH]; intros now HN; [done|]. cbn [send_times map fmap list_fmap fst] in *.
    apply Forall_cons in HN as [HN _]. rewrite Z.max_r by done. f_equal. inversion HS as [|? ? HS' HH]; subst. apply IH; [done|].
    apply Sorted_StronglySorted in HS; [|intros ???; lia]. inversion HS as [|? ? _ HF]; subst. eapply Forall_impl; [exact HF|]. cbn. intros; lia. }
  apply HG. eapply Forall_impl; [exact HP|]. cbn. intros; lia.
Qed.
Lemma scan_written es : Forall recordable es -> scan (line_text (map text_of es)) = map text_of es.
Proof.
  intros HF. unfold scan. rewrite ScanLines_text; [| |lia].
  2: { apply Forall_map. eapply Forall_impl; [exact HF|]. intros e (l & El & Hl). cbn. rewrite (text_of_Some e l El).
       split; [by eapply Marshal_line|done]. }
  rewrite map_map. apply map_ext_Forall. eapply Forall_impl; [exact HF|]. intros e (l & El & _). cbn. rewrite (text_of_Some e l El).
  by apply (Marshal_line e).
Qed.

(** C29: What the visualizer records is what otns-replay plays.  Whatever the interleaving of the
    visualizer and the goroutine that writes the file, after the file is closed the goroutine
    ends, and the player then sends the recorded events in order, each at the time at which it
    was recorded, so that its client ends with showing what the visualizer was told last.
    Writing must work, and the text of an event must be shorter than 64 KB. *)
Theorem replay_plays_recording {stream_ok : StreamEnvOk senv} r a start :
  rep_reach r a -> rep_closed a = true -> Forall recordable (rep_entries a) ->
  Sorted Z.le (rep_entries a).*1 -> Forall (Z.le 0) (rep_entries a).*1 ->
  let r' := run_writer (S (length (r_pendingChan r))) r in
  let played := visualizeStream (fun _ => true) start (bw_file (r_fileWriter r')) in
  r_fileWriterDone r' = true /\
  played = map (fun '(t, e) => (start + t, e)) (rep_entries a) /\
  forall g, gv_reachable true g -> gv_replay g = Some a ->
    shows meshTopologyVizType (foldl apply_event view_init played.*2) (gv_f g) (gv_showDemoLegendEvent g).
Proof.
  intros HR HC HF HS HP r' played. pose proof (reach_ok r a HR HF) as Hok.
  destruct (writer_ends (S (length (r_pendingChan r))) r a HF Hok) as [H' HD]; [by rewrite (ro_closed r a Hok)|lia|].
  assert (played = map (fun '(t, e) => (start + t, e)) (rep_entries a)) as EP.
  { destruct H' as [_ _ (w & E1 & E2) H4]. destruct (H4 HD) as (_ & Hp & Hb). rewrite Hp, app_nil_r in E1. subst w.
    unfold content in E2. rewrite Hb, app_nil_r in E2. unfold played, visualizeStream, r'. rewrite E2, scan_written by done.
    rewrite play_entries by done. by apply send_times_sorted. }
  split; [done|]. split; [done|]. intros g HG Hg. pose proof (go_replay g (ok_reachable true g HG)) as Hr. rewrite Hg in Hr.
  unfold replay_ok, replay_view in Hr. rewrite EP. replace (map _ (rep_entries a)).*2 with ((rep_entries a).*2); [done|].
  clear. induction (rep_entries a) as [|[t e] es IH]; [done|]. cbn. by rewrite <- IH.
Qed.
End laws.

(** ** An example *)
(** A text format for the deletion of nodes. *)
Definition small (z : Z) : bool := (0 <=? z) && (z <? 100).
Definition ex_replay_env : ReplayEnv := {|
  Marshal e := match e with
    | (t, EvDeleteNode id) => if small t && small id then Some [100 + t; 100 + id] else None
    | _ => None
    end;
  Unmarshal l := match l with [t; id] => Some (t - 100, EvDeleteNode (id - 100)) | _ => None end;
  file_Write _ := None |}.
#[export] Instance ex_replay_ok : ReplayEnvOk ex_replay_env.
Proof.
  assert (forall e l, @Marshal ex_replay_env e = Some l ->
    exists t id, e = (t, EvDeleteNode id) /\ l = [100 + t; 100 + id] /\ 0 <= t /\ 0 <= id) as HM.
  { intros [t []] l; cbn; try done. unfold small. destruct (Z.leb_spec 0 t), (Z.leb_spec 0 node_id); cbn; try done;
      try (by destruct (_ <? _)). destruct (_ && _); [|done]. intros [= <-]. by exists t, node_id. }
  split; intros e l (t & id & -> & -> & Ht & Hid)%HM.
  - split; [rewrite !not_elem_of_cons; split_and!; try lia; apply not_elem_of_nil|]. unfold drop_cr. cbn [rev app].
    destruct (100 + id) as [|q|] eqn:E; try done. assert (13 < Z.pos q) as Hq by lia.
    repeat (destruct q as [q|q|]; try done; try lia).
  - cbn. repeat f_equal; lia.
Qed.
(** Two nodes are deleted, the first is written before the second is recorded, and the file is
    closed. *)
Definition ex_rep : Rep :=
  match r1 ← rep_Append (0, EvDeleteNode 5) NewReplay; r2 ← rep_Append (1, EvDeleteNode 7) (run_writer (env := ex_replay_env) 1 r1); Close r2 with
  | Ok r => r | Panic _ => NewReplay end.
Definition ex_entries : Replay := mkReplay [(0, EvDeleteNode 5); (1, EvDeleteNode 7)] true.
Lemma ex_rep_reach : rep_reach (senv := ex_stream_env) (env := ex_replay_env) ex_rep ex_entries.
Proof.
  refine (rr_close (mkRep [(1, EvDeleteNode 7)] false (mkBw [100; 105; 10] false [] 0) false)
    (mkReplay [(0, EvDeleteNode 5); (1, EvDeleteNode 7)] false) _ _ _); [|vm_compute; reflexivity].
  refine (rr_append (mkRep [] false (mkBw [100; 105; 10] false [] 0) false) (mkReplay [(0, EvDeleteNode 5)] false) (EvDeleteNode 7) _ _ _ _ _);
    [|vm_compute; reflexivity|vm_compute; reflexivity].
  refine (rr_writer (mkRep [(0, EvDeleteNode 5)] false (mkBw [] false [] 0) false) _ _ _ _); [|vm_compute; reflexivity].
  refine (rr_append NewReplay (mkReplay [] false) (EvDeleteNode 5) _ _ _ _ _); [|vm_compute; reflexivity|vm_compute; reflexivity].
  apply rr_new.
Qed.
Lemma replay_plays_recording_witness :
  visualizeStream (env := ex_replay_env) (fun _ => true) 1000
    (bw_file (r_fileWriter (run_writer (env := ex_replay_env) (S (length (r_pendingChan ex_rep))) ex_rep))) =
  [(1000, EvDeleteNode 5); (1001, EvDeleteNode 7)].
Proof.
  refine (proj1 (proj2 (replay_plays_recording (senv := ex_stream_env) (env := ex_replay_env) _ ex_rep ex_entries 1000
    ex_rep_reach _ _ _ _))).
  - intros i. reflexivity.
  - reflexivity.
  - apply Forall_cons_2; [|apply Forall_cons_2; [|apply Forall_nil_2]]; (eexists; split; [reflexivity|unfold MaxScanTokenSize; simpl; lia]).
  - apply Sorted_cons; [apply Sorted_cons; [apply Sorted_nil|apply HdRel_nil]|apply HdRel_cons; discriminate].
  - apply Forall_cons_2; [discriminate|]. apply Forall_cons_2; [discriminate|]. apply Forall_nil_2.
Defined.
(** An entry that has no text ends the goroutine: the next ones stay in the channel, and once it
    is full the visualizer waits for ever, with its lock held. *)
Example recorder_stuck :
  let r := run_writer (env := ex_replay_env) 2 (mkRep [(0, EvHeartbeat); (1, EvDeleteNode 7)] false (mkBw [] false [] 0) false) in
  r_fileWriterDone r = true /\ r_pendingChan r = [(1, EvDeleteNode 7)] /\ fileWriterRoutine (env := ex_replay_env) r = None /\
  match rep_Append (2, EvDeleteNode 8) (mkRep (replicate pendingCap (1, EvDeleteNode 7)) false (r_fileWriter r) true) with
  | Panic Blocked => True | _ => False end.
Proof. vm_compute. repeat split. Qed.
