(* ===== verification/ProgCtx.v ===== *)
(** * The program context

    src/progctx/progctx.go: the context that the parts of the program share.  It counts the
    goroutines that run, and [Cancel] ends the program: it runs the functions that were
    registered for that.

    - A function is a number; [func_body] says what it does with the context.  The functions
      that have run are recorded.
    - [Cancel] runs functions that may call it again, so it takes fuel; [Cancel_nesting] shows
      that two is enough.
    - [Cancel] takes no lock: [cancel_step] is [Cancel] in the steps between which other
      goroutines may run. *)

From S2P Require Import Prelude State.

Local Open Scope Z_scope.

Record ProgCtx := mkProgCtx {
  pc_err : bool;
  pc_wg : Z;
  pc_routines : gmap string Z;
  pc_deferred : list nat;
  pc_ran : list nat;
}.
Definition New : ProgCtx := mkProgCtx false 0 ∅ [] [].
Section fields.
Implicit Types c : ProgCtx.
Definition set_err v c := mkProgCtx v (pc_wg c) (pc_routines c) (pc_deferred c) (pc_ran c).
Definition set_wg v c := mkProgCtx (pc_err c) v (pc_routines c) (pc_deferred c) (pc_ran c).
Definition set_routines v c := mkProgCtx (pc_err c) (pc_wg c) v (pc_deferred c) (pc_ran c).
Definition set_deferred v c := mkProgCtx (pc_err c) (pc_wg c) (pc_routines c) v (pc_ran c).
Definition add_ran f c := mkProgCtx (pc_err c) (pc_wg c) (pc_routines c) (pc_deferred c) (pc_ran c ++ [f]).
End fields.

Abbreviation CtxM := (st ProgCtx) (only parsing).
Definition count_of (name : string) (c : ProgCtx) : Z := default 0 (pc_routines c !! name).
(** [sync.WaitGroup.Add]: the counter may not become negative. *)
Definition wg_Add (delta : Z) : CtxM () :=
  c ← get; if pc_wg c + delta <? 0 then panics Panicf else modify (set_wg (pc_wg c + delta)).
Definition WaitCount : CtxM Z := c ← get; mret (foldr Z.add 0 (map snd (map_to_list (pc_routines c)))).
Definition WaitAdd (name : string) (delta : Z) : CtxM () :=
  _ ← modify (fun c => set_routines (<[name := count_of name c + delta]> (pc_routines c)) c); wg_Add delta.
Definition WaitDone (name : string) : CtxM () :=
  c ← get;
  if count_of name c <=? 0 then panics Panicf
  else _ ← modify (fun c => set_routines (<[name := count_of name c - 1]> (pc_routines c)) c); wg_Add (-1).
(** Waits until the counter is zero. *)
Definition Wait : CtxM () := c ← get; if pc_wg c =? 0 then mret tt else panics Blocked.
Definition Defer (f : nat) : CtxM () :=
  c ← get; if pc_err c then panics Panicf else modify (fun c => set_deferred (pc_deferred c ++ [f]) c).

(** What a deferred function may do. *)
Inductive CtxCall := CallCancel | CallDefer (f : nat) | CallWaitAdd (name : string) (delta : Z) | CallWaitDone (name : string).
Class CtxEnv := { func_body : nat -> list CtxCall }.

Section cancel.
Context {env : CtxEnv}.
Definition ctx_call (cancel : CtxM ()) (c : CtxCall) : CtxM () :=
  match c with
  | CallCancel => cancel
  | CallDefer f => Defer f
  | CallWaitAdd name delta => WaitAdd name delta
  | CallWaitDone name => WaitDone name
  end.
Definition run_func (cancel : CtxM ()) (f : nat) : CtxM () :=
  _ ← modify (add_ran f); for_each (func_body f) (ctx_call cancel).
Fixpoint Cancel (fuel : nat) : CtxM () :=
  match fuel with
  | O => panics OutOfFuel
  | S fuel =>
    c ← get;
    if pc_err c then mret tt
    else
      _ ← modify (set_err true);
      _ ← for_each (pc_deferred c) (run_func (Cancel fuel));
      modify (set_deferred [])
  end.
(** A call of the program. *)
Definition ctx_op : CtxCall -> CtxM () := ctx_call (Cancel 2).
Fixpoint ctx_ops (cs : list CtxCall) : CtxM () :=
  match cs with [] => mret tt | c :: cs => _ ← ctx_op c; ctx_ops cs end.

(** ** Theorems *)
(** Once it was cancelled, cancelling does nothing. *)
Lemma Cancel_done fuel c : pc_err c = true -> Cancel (S fuel) c = Ok (tt, c).
Proof. intros H. cbn. unfold mbind, st_bind, get. by rewrite H. Qed.

Definition cancelled c : Prop := pc_err c = true.
Lemma cancelled_call cancel x : preserves cancelled cancel -> preserves cancelled (ctx_call cancel x).
Proof.
  intros HC. destruct x; cbn [ctx_call]; [exact HC|..]; unfold Defer, WaitAdd, WaitDone, wg_Add; pres; by apply hoare_modify.
Qed.
(** Two computations that agree on cancelled contexts. *)
Lemma same_calls m1 m2 cs c :
  (forall c, cancelled c -> m1 c = m2 c) -> preserves cancelled m2 -> cancelled c -> for_each cs (ctx_call m1) c = for_each cs (ctx_call m2) c.
Proof.
  intros HS HP. revert c. induction cs as [|x cs IH]; intros c Hc; [done|]. cbn [for_each]. unfold mbind, st_bind.
  assert (ctx_call m1 x c = ctx_call m2 x c) as -> by (destruct x; cbn [ctx_call]; [by apply HS|done..]).
  destruct (ctx_call m2 x c) as [[u c1]|] eqn:E; [|done]. apply IH. by eapply cancelled_call.
Qed.
Lemma same_funcs m1 m2 fs c :
  (forall c, cancelled c -> m1 c = m2 c) -> preserves cancelled m2 -> cancelled c -> for_each fs (run_func m1) c = for_each fs (run_func m2) c.
Proof.
  intros HS HP. revert c. induction fs as [|f fs IH]; intros c Hc; [done|]. cbn [for_each]. unfold mbind, st_bind.
  assert (run_func m1 f c = run_func m2 f c) as ->.
  { unfold run_func, mbind, st_bind, modify. by apply same_calls. }
  destruct (run_func m2 f c) as [[u c1]|] eqn:E; [|done]. apply IH. unfold run_func in E.
  apply bind_st_Ok in E as ([] & c2 & <-%modify_st_Ok & E). refine (hoare_run cancelled _ _ _ _ E Hc _).
  apply pres_for_each. intros x _. by apply cancelled_call.
Qed.
Lemma Cancel_cancelled fuel : preserves cancelled (Cancel (S fuel)).
Proof. intros c u c' Hc E. rewrite Cancel_done in E by done. by injection E as _ <-. Qed.
(** Calls do not nest deeper than once: more fuel changes nothing. *)
Lemma Cancel_nesting fuel c : Cancel (S (S fuel)) c = Cancel 2 c.
Proof.
  assert (forall n, Cancel (S n) c = (c ← get; if pc_err c then mret tt else
    _ ← modify (set_err true); _ ← for_each (pc_deferred c) (run_func (Cancel n)); modify (set_deferred [])) c) as HU by done.
  rewrite (HU (S fuel)), (HU 1%nat). unfold mbind, st_bind, get, modify. destruct (pc_err c); [done|].
  rewrite (same_funcs (Cancel (S fuel)) (Cancel 1)); [done| |apply Cancel_cancelled|done].
  intros c1 Hc. by rewrite !Cancel_done.
Qed.

(** *** The counters *)
Definition total_count (m : gmap string Z) : Z := foldr Z.add 0 (map snd (map_to_list m)).
Lemma total_perm (l1 l2 : list (string * Z)) : l1 ≡ₚ l2 -> foldr Z.add 0 (map snd l1) = foldr Z.add 0 (map snd l2).
Proof. induction 1; cbn; lia. Qed.
Lemma total_insert m name v : total_count (<[name := v]> m) = total_count m - default 0 (m !! name) + v.
Proof.
  unfold total_count. destruct (m !! name) as [w|] eqn:E.
  - rewrite (total_perm (map_to_list m) ((name, w) :: map_to_list (delete name m))) by (by symmetry; apply map_to_list_delete).
    rewrite <- insert_delete_eq. rewrite (total_perm _ _ (map_to_list_insert (delete name m) name v (lookup_delete_eq m name))). cbn. lia.
  - rewrite (total_perm _ _ (map_to_list_insert m name v E)). cbn. lia.
Qed.
(** The group counts what the names count, and no name is below zero. *)
Record ctx_ok c : Prop := {
  co_wg : pc_wg c = total_count (pc_routines c);
  co_pos : forall name, 0 <= count_of name c;
}.
Lemma wg_Add_ok delta name c c' :
  ctx_ok c -> 0 <= count_of name c + delta ->
  wg_Add delta (set_routines (<[name := count_of name c + delta]> (pc_routines c)) c) = Ok (tt, c') -> ctx_ok c'.
Proof.
  intros [H1 H2] Hd E. unfold wg_Add in E. apply bind_st_Ok in E as (? & ? & [<- <-]%get_st_Ok & E). cbn in E.
  destruct (_ <? _); [done|]. apply modify_st_Ok in E as <-. split; cbn.
  - rewrite total_insert, H1. unfold count_of. lia.
  - intros n. unfold count_of. cbn. destruct (decide (n = name)) as [->|Hne]; [by rewrite lookup_insert_eq|].
    rewrite lookup_insert_ne by done. apply H2.
Qed.
Lemma ok_WaitAdd name delta c u c' : ctx_ok c -> 0 <= delta -> WaitAdd name delta c = Ok (u, c') -> ctx_ok c'.
Proof.
  intros Hc Hd E. unfold WaitAdd in E. apply bind_st_Ok in E as ([] & ? & <-%modify_st_Ok & E). destruct u.
  eapply wg_Add_ok; [exact Hc| |exact E]. pose proof (co_pos c Hc name). lia.
Qed.
Lemma ok_WaitDone name c u c' : ctx_ok c -> WaitDone name c = Ok (u, c') -> ctx_ok c'.
Proof.
  intros Hc E. unfold WaitDone in E. apply bind_st_Ok in E as (? & ? & [<- <-]%get_st_Ok & E).
  destruct (Z.leb_spec (count_of name c) 0); [done|]. apply bind_st_Ok in E as ([] & ? & <-%modify_st_Ok & E). destruct u.
  eapply (wg_Add_ok (-1) name c c'); [exact Hc|lia|exact E].
Qed.
Definition adds (x : CtxCall) : Prop := match x with CallWaitAdd _ d => 0 <= d | _ => True end.
Lemma ok_ctx_call m x : preserves ctx_ok m -> adds x -> preserves ctx_ok (ctx_call m x).
Proof.
  intros HM HA. destruct x; cbn [ctx_call]; [exact HM| | |].
  - unfold Defer. pres. apply hoare_modify. by intros c [].
  - intros c u c' Hc E. by eapply ok_WaitAdd.
  - intros c u c' Hc E. by eapply ok_WaitDone.
Qed.
Hypothesis bodies_add : forall f, Forall adds (func_body f).
Lemma ok_Cancel fuel : preserves ctx_ok (Cancel fuel).
Proof.
  induction fuel as [|fuel IH]; cbn [Cancel]; [apply pres_panics|].
  assert (forall f, preserves ctx_ok (run_func (Cancel fuel) f)) as HF.
  { intros f. unfold run_func. apply pres_bind; [apply hoare_modify; by intros c []|]. intros _.
    apply pres_for_each. intros x Hx. apply ok_ctx_call; [done|]. eapply Forall_forall; [apply bodies_add|done]. }
  apply pres_bind; [apply pres_get|]. intros c0. destruct (pc_err c0); [apply pres_ret|].
  apply pres_bind; [apply hoare_modify; by intros c []|]. intros _. apply pres_bind; [|intros _; apply hoare_modify; by intros c []].
  apply pres_for_each. intros f _. apply HF.
Qed.

(** *** What runs at the end *)
(** The functions that were registered before the first [Cancel] of a program. *)
Fixpoint registered (cs : list CtxCall) : list nat :=
  match cs with
  | [] => []
  | CallCancel :: _ => []
  | CallDefer f :: cs => f :: registered cs
  | _ :: cs => registered cs
  end.
Definition cancels (cs : list CtxCall) : bool := existsb (fun x => match x with CallCancel => true | _ => false end) cs.
(** Without [Cancel], calls only register functions. *)
Lemma plain_call m x c c' :
  (match x with CallCancel => False | _ => True end) -> ctx_call m x c = Ok (tt, c') ->
  pc_err c' = pc_err c /\ pc_ran c' = pc_ran c /\ pc_deferred c' = (pc_deferred c ++ registered [x])%list /\
  (pc_err c = true -> registered [x] = []).
Proof.
  intros Hx E. destruct x; [done| | |]; cbn [ctx_call registered] in *; rewrite ?app_nil_r.
  - unfold Defer in E. apply bind_st_Ok in E as (? & ? & [<- <-]%get_st_Ok & E). destruct (pc_err c) eqn:He; [done|].
    apply modify_st_Ok in E as <-. cbn. split_and!; [done|done|done|congruence].
  - unfold WaitAdd, wg_Add in E. apply bind_st_Ok in E as ([] & ? & <-%modify_st_Ok & E).
    apply bind_st_Ok in E as (? & ? & [<- <-]%get_st_Ok & E). destruct (_ <? _); [done|]. by apply modify_st_Ok in E as <-.
  - unfold WaitDone, wg_Add in E. apply bind_st_Ok in E as (? & ? & [<- <-]%get_st_Ok & E). destruct (_ <=? _); [done|].
    apply bind_st_Ok in E as ([] & ? & <-%modify_st_Ok & E).
    apply bind_st_Ok in E as (? & ? & [<- <-]%get_st_Ok & E). destruct (_ <? _); [done|]. by apply modify_st_Ok in E as <-.
Qed.
(** In a cancelled context nothing more is registered or run. *)
Lemma call_cancelled fuel x c c' : cancelled c -> ctx_call (Cancel (S fuel)) x c = Ok (tt, c') ->
  cancelled c' /\ pc_ran c' = pc_ran c /\ pc_deferred c' = pc_deferred c.
Proof.
  intros Hc E. destruct x eqn:Ex; [cbn [ctx_call] in E; rewrite Cancel_done in E by done; by injection E as <-|..];
    (apply plain_call in E as (E1 & E2 & E3 & E4); [|done]); unfold cancelled in *; rewrite E1, E2, E3, (E4 Hc), app_nil_r; done.
Qed.
Lemma calls_cancelled fuel cs c c' : cancelled c -> for_each cs (ctx_call (Cancel (S fuel))) c = Ok (tt, c') ->
  cancelled c' /\ pc_ran c' = pc_ran c /\ pc_deferred c' = pc_deferred c.
Proof.
  revert c. induction cs as [|x cs IH]; intros c Hc E; cbn [for_each] in E; [by apply ret_st_Ok in E as [_ <-]|].
  apply bind_st_Ok in E as ([] & c1 & E1 & E). apply call_cancelled in E1 as (H1 & H2 & H3); [|done].
  apply IH in E as (H4 & H5 & H6); [|done]. by rewrite H5, H6, H2, H3.
Qed.
Lemma funcs_run fuel fs c c' : cancelled c -> for_each fs (run_func (Cancel (S fuel))) c = Ok (tt, c') ->
  cancelled c' /\ pc_ran c' = (pc_ran c ++ fs)%list.
Proof.
  revert c. induction fs as [|f fs IH]; intros c Hc E; cbn [for_each] in E; [apply ret_st_Ok in E as [_ <-]; by rewrite app_nil_r|].
  apply bind_st_Ok in E as ([] & c1 & E1 & E). unfold run_func in E1. apply bind_st_Ok in E1 as ([] & c2 & <-%modify_st_Ok & E1).
  apply calls_cancelled in E1 as (H1 & H2 & _); [|done]. apply IH in E as (H4 & H5); [|done]. split; [done|].
  rewrite H5, H2. cbn. by rewrite <- app_assoc.
Qed.
Lemma Cancel_runs c c' : pc_err c = false -> Cancel 2 c = Ok (tt, c') ->
  cancelled c' /\ pc_ran c' = (pc_ran c ++ pc_deferred c)%list /\ pc_deferred c' = [].
Proof.
  intros Hc E. cbn [Cancel] in E. apply bind_st_Ok in E as (? & ? & [<- <-]%get_st_Ok & E). rewrite Hc in E.
  apply bind_st_Ok in E as ([] & c1 & <-%modify_st_Ok & E). apply bind_st_Ok in E as ([] & c2 & E2 & <-%modify_st_Ok).
  change (run_func _) with (run_func (Cancel 1)) in E2. by apply funcs_run in E2 as [H1 H2].
Qed.
Lemma ops_cancelled cs c c' : cancelled c -> ctx_ops cs c = Ok (tt, c') -> cancelled c' /\ pc_ran c' = pc_ran c.
Proof.
  revert c. induction cs as [|x cs IH]; intros c Hc E; cbn [ctx_ops] in E; [by apply ret_st_Ok in E as [_ <-]|].
  apply bind_st_Ok in E as ([] & c1 & E1 & E). apply call_cancelled in E1 as (H1 & H2 & _); [|done].
  apply IH in E as [H3 H4]; [|done]. by rewrite H4, H2.
Qed.
Lemma ops_run cs c c' : pc_err c = false -> ctx_ops cs c = Ok (tt, c') ->
  pc_err c' = cancels cs /\ pc_ran c' = (pc_ran c ++ if cancels cs then pc_deferred c ++ registered cs else [])%list.
Proof.
  revert c. induction cs as [|x cs IH]; intros c Hc E; cbn [ctx_ops] in E; [apply ret_st_Ok in E as [_ <-]; by rewrite app_nil_r|].
  apply bind_st_Ok in E as ([] & c1 & E1 & E). destruct x.
  - apply Cancel_runs in E1 as (H1 & H2 & _); [|done]. apply ops_cancelled in E as [H3 H4]; [|done].
    cbn. by rewrite H4, H2, app_nil_r.
  - apply plain_call in E1 as (H1 & H2 & H3 & _); [|done]. apply IH in E as [H4 H5]; [|congruence]. cbn [cancels existsb orb registered].
    rewrite H5, H2, H3. split; [done|]. fold (cancels cs). destruct (cancels cs); [|done]. by rewrite <- app_assoc.
  - apply plain_call in E1 as (H1 & H2 & H3 & _); [|done]. apply IH in E as [H4 H5]; [|congruence]. cbn [cancels existsb orb registered].
    rewrite H5, H2, H3. cbn [registered]. by rewrite app_nil_r.
  - apply plain_call in E1 as (H1 & H2 & H3 & _); [|done]. apply IH in E as [H4 H5]; [|congruence]. cbn [cancels existsb orb registered].
    rewrite H5, H2, H3. cbn [registered]. by rewrite app_nil_r.
Qed.
Lemma ops_ok cs : Forall adds cs -> preserves ctx_ok (ctx_ops cs).
Proof.
  induction 1 as [|x cs Hx _ IH]; cbn [ctx_ops]; [apply pres_ret|]. apply pres_bind; [|done]. apply ok_ctx_call; [apply ok_Cancel|done].
Qed.

End cancel.

(** ** Goroutines that cancel at the same time *)
(** Where a goroutine is in [Cancel]: before the check, after it, or running functions. *)
Inductive CancelPc := AtCheck | AtCancel | AtFuncs (fs : list nat) | AtEnd.
Section race.
Context {env : CtxEnv}.
Definition cancel_step (pc : CancelPc) (c : ProgCtx) : res (CancelPc * ProgCtx) :=
  match pc with
  | AtCheck => Ok (if pc_err c then AtEnd else AtCancel, c)
  | AtCancel => Ok (AtFuncs (pc_deferred c), set_err true c)
  | AtFuncs (f :: fs) => '(_, c') ← run_func (Cancel 1) f c; Ok (AtFuncs fs, c')
  | AtFuncs [] => Ok (AtEnd, set_deferred [] c)
  | AtEnd => Ok (AtEnd, c)
  end.
Fixpoint cancel_steps (n : nat) (pc : CancelPc) (c : ProgCtx) : res (CancelPc * ProgCtx) :=
  match n with O => Ok (pc, c) | S n => '(pc, c) ← cancel_step pc c; cancel_steps n pc c end.
Lemma steps_End n c : cancel_steps n AtEnd c = Ok (AtEnd, c).
Proof. by induction n. Qed.
Lemma steps_funcs fs n c : cancel_steps (length fs + S n) (AtFuncs fs) c =
  match for_each fs (run_func (Cancel 1)) c with Ok (_, c') => Ok (AtEnd, set_deferred [] c') | Panic p => Panic p end.
Proof.
  revert c. induction fs as [|f fs IH]; intros c; [apply steps_End|]. cbn [length Nat.add cancel_steps cancel_step for_each].
  unfold mbind, res_bind, st_bind. destruct (run_func (Cancel 1) f c) as [[u c1]|]; [|done]. apply IH.
Qed.
(** A goroutine that is not disturbed does what [Cancel] does. *)
Lemma cancel_alone c : cancel_steps (length (pc_deferred c) + 3) AtCheck c =
  match Cancel 2 c with Ok (_, c') => Ok (AtEnd, c') | Panic p => Panic p end.
Proof.
  replace (length (pc_deferred c) + 3)%nat with (S (S (length (pc_deferred c) + 1))) by lia. cbn [cancel_steps cancel_step].
  change (Cancel 2 c) with ((c ← get; if pc_err c then mret tt else _ ← modify (set_err true);
    _ ← for_each (pc_deferred c) (run_func (Cancel 1)); modify (set_deferred [])) c).
  unfold mbind at 1, res_bind at 1. unfold mbind, st_bind, get, modify. destruct (pc_err c) eqn:He.
  - apply steps_End.
  - cbn [cancel_step res_bind]. rewrite (steps_funcs (pc_deferred c) 0). by destruct (for_each _ _ _) as [[u c1]|].
Qed.
End race.

(** ** Examples *)
(** Function 1 cancels again; function 2 does nothing with the context. *)
Definition ex_ctx : CtxEnv := {| func_body f := if Nat.eqb f 1 then [CallCancel] else [] |}.
Definition ex_calls : list CtxCall :=
  [CallWaitAdd "cli" 1; CallDefer 1; CallDefer 2; CallCancel; CallWaitDone "cli"; CallCancel].
(** Two goroutines that both pass the check before one of them cancels: the function runs twice. *)
Example cancel_race :
  match cancel_step (env := ex_ctx) AtCheck (mkProgCtx false 0 ∅ [2%nat] []) with
  | Ok (pc1, c) =>
    match cancel_step (env := ex_ctx) AtCheck c with
    | Ok (pc2, c) =>
      match '(pc1, c) ← cancel_step (env := ex_ctx) pc1 c; '(pc2, c) ← cancel_step (env := ex_ctx) pc2 c;
            '(pc1, c) ← cancel_steps (env := ex_ctx) 2 pc1 c; cancel_steps (env := ex_ctx) 2 pc2 c with
      | Ok (_, c) => pc_ran c
      | Panic _ => []
      end
    | Panic _ => []
    end
  | Panic _ => []
  end = [2; 2]%nat.
Proof. vm_compute. reflexivity. Qed.
