(* ===== verification/CliSelect.v ===== *)
(** * Selecting nodes and classifying commands

    src/cli/types.go and [expandNodeSelector] of src/cli/CmdRunner.go: which nodes a list of
    selectors like [1 5-8 all] denotes, which lines are commands for the simulator although
    the user is in the context of a node, and which commands may go on in the background. *)

From Stdlib Require Import Ascii.
From S2P Require Import Prelude Types GoStrings GoText SimNode.

Local Open Scope string_scope.
Local Open Scope Z_scope.

(** A number, a range of numbers if [ns_IdRange] is positive, or [all]. *)
Record NodeSelector := mkSelector { ns_Id : Z; ns_All : bool; ns_IdRange : Z }.

(** ** Lists of selectors *)
(** The first selector for an id counts, but ranges go before single ids. *)
Definition add_selector (ns : NodeSelector) (m : gmap Z NodeSelector) : gmap Z NodeSelector :=
  match m !! ns_Id ns with
  | Some nsExisting =>
    if (ns_IdRange nsExisting >? 0) || (ns_IdRange ns =? 0) then m else <[ns_Id ns:=ns]> m
  | None => <[ns_Id ns:=ns]> m
  end.
(** The selector [all], or a selector for each first id. *)
Fixpoint unique_loop (input : list NodeSelector) (m : gmap Z NodeSelector) : NodeSelector + gmap Z NodeSelector :=
  match input with
  | [] => inr m
  | ns :: input => if ns_All ns then inl ns else unique_loop input (add_selector ns m)
  end.
Definition getUniqueAndSorted (input : list NodeSelector) : list NodeSelector :=
  match unique_loop input ∅ with
  | inl ns => [ns]
  | inr m => omap (fun id => m !! id) (merge_sort Z.le (elements (dom m)))
  end.

(** [nodes] are the ids that [all] stands for. *)
Fixpoint expand_loop (nodes : list NodeId) (nss : list NodeSelector) (nodeIds : list NodeId) : list NodeId :=
  match nss with
  | [] => nodeIds
  | ns :: nss =>
    if ns_All ns then nodes
    else if ns_IdRange ns >? 0
    then expand_loop nodes nss (nodeIds ++ seqZ (ns_Id ns) (ns_IdRange ns - ns_Id ns + 1))%list
    else expand_loop nodes nss (nodeIds ++ [ns_Id ns])%list
  end.
Definition expandNodeSelector (nodes : list NodeId) (nss : list NodeSelector) : list NodeId :=
  expand_loop nodes (getUniqueAndSorted nss) [].

(** ** Classes of commands *)
(** [\b]: the texts before and after a position. *)
Definition is_word (c : ascii) : bool :=
  let k := N_of_ascii c in
  ((48 <=? k)%N && (k <=? 57)%N) || ((65 <=? k)%N && (k <=? 90)%N) || ((97 <=? k)%N && (k <=? 122)%N) || (k =? 95)%N.
Definition starts_word (l : list ascii) : bool := match l with c :: _ => is_word c | [] => false end.

(** The rest after a word of a pattern, if the text starts with it. *)
Fixpoint strip_word (w l : list ascii) : option (list ascii) :=
  match w, l with
  | [], _ => Some l
  | c :: w, d :: l => if Ascii.eqb c d then strip_word w l else None
  | _ :: _, [] => None
  end.
Definition words_match (w : string) (l : list ascii) : bool :=
  match strip_word (String.list_ascii_of_string w) l with Some r => negb (starts_word r) | None => false end.
(** The pattern [mdns\s+register]. *)
Definition mdns_match (l : list ascii) : bool :=
  match strip_word (String.list_ascii_of_string "mdns") l with
  | Some (c :: r) => re_space c && words_match "register" (drop_while re_space r)
  | _ => false
  end.
Definition backgroundCommands : list string :=
  ["detach"; "discover"; "dns"; "linkmetrics"; "meshdiag"; "mlr"; "networkdiagnostic"; "p2p"; "ping"; "scan"; "sntp"].
Definition isBackgroundLine (line : string) : bool :=
  let l := drop_while re_space (String.list_ascii_of_string line) in
  existsb (fun w => words_match w l) backgroundCommands || mdns_match l.

(** The pattern [!.+\b]: something after the exclamation mark ends or starts a word, so there
    is a word in it. *)
Fixpoint has_word (l : list ascii) : bool :=
  match l with
  | [] => false
  | c :: l => if Ascii.eqb c "010"%char then false else is_word c || has_word l
  end.
Definition isContextlessCommand (line : string) : bool :=
  let l := drop_while re_space (String.list_ascii_of_string line) in
  words_match "exit" l || words_match "node" l ||
  match l with c :: r => Ascii.eqb c "!"%char && has_word r | [] => false end.

Example isBackgroundLine_ex :
  map isBackgroundLine ["ping fd00::1"; "  scan"; "mdns  register x"; "mdns browse"; "pingx"; "dns-sd"; ""] =
  [true; true; true; false; false; true; false].
Proof. reflexivity. Qed.
Example isContextlessCommand_ex :
  map isContextlessCommand ["exit"; "node 3"; "!nodes"; "! "; "nodes"; " !del 1"; "exitus"] =
  [true; true; true; false; false; true; false].
Proof. reflexivity. Qed.

(** ** Theorems *)

(** What a selector stands for. *)
Definition selects (nodes : list NodeId) (ns : NodeSelector) (id : NodeId) : Prop :=
  if ns_All ns then id ∈ nodes
  else if ns_IdRange ns >? 0 then ns_Id ns <= id <= ns_IdRange ns
  else id = ns_Id ns.
(** Ranges are not empty, and two ranges that start with the same id are the same. *)
Definition consistent (nss : list NodeSelector) : Prop :=
  forall a b, a ∈ nss -> b ∈ nss -> ns_IdRange a > 0 ->
    ns_Id a <= ns_IdRange a /\ (ns_Id b = ns_Id a -> ns_IdRange b > 0 -> ns_IdRange b = ns_IdRange a).

(** What the map of the loop says about the selectors [P] that were seen. *)
Record summary (P : list NodeSelector) (m : gmap Z NodeSelector) : Prop := {
  sm_seen : forall id ns, m !! id = Some ns -> ns ∈ P /\ ns_Id ns = id /\ ns_All ns = false;
  sm_kept : forall ns, ns ∈ P -> exists ns', m !! ns_Id ns = Some ns' /\ (ns_IdRange ns > 0 -> ns_IdRange ns' > 0);
}.
Lemma add_selector_spec ns m :
  add_selector ns m = m /\ (exists old, m !! ns_Id ns = Some old /\ (ns_IdRange ns > 0 -> ns_IdRange old > 0)) \/
  add_selector ns m = <[ns_Id ns:=ns]> m /\ (forall old, m !! ns_Id ns = Some old -> ns_IdRange old <= 0).
Proof.
  unfold add_selector. destruct (m !! ns_Id ns) as [old|]; [|by right].
  destruct (Z.gtb_spec (ns_IdRange old) 0) as [H|H]; cbn [orb]; [left; by eauto with lia|].
  destruct (Z.eqb_spec (ns_IdRange ns) 0) as [H0|H0]; [left|right].
  - split; [done|]. exists old. split; [done|]. lia.
  - split; [done|]. by intros ? [= <-].
Qed.
Lemma add_selector_summary P m ns :
  ns_All ns = false -> summary P m -> summary (P ++ [ns]) (add_selector ns m).
Proof.
  intros HA [H1 H2]. destruct (add_selector_spec ns m) as [[-> (old & Ho & Hr)]|[-> Hold]]; split.
  - intros id a Ha. destruct (H1 id a Ha) as (? & ? & ?). set_solver.
  - intros a [Ha|Ha%list_elem_of_singleton]%elem_of_app; [by apply H2|]. subst a. by exists old.
  - intros id a [[<- <-]|[_ Ha]]%lookup_insert_Some; [set_solver|]. destruct (H1 id a Ha) as (? & ? & ?). set_solver.
  - intros a [Ha|Ha%list_elem_of_singleton]%elem_of_app; [|subst a; exists ns; by rewrite lookup_insert_eq].
    destruct (H2 a Ha) as (a' & Ha' & Hr). destruct (decide (ns_Id a = ns_Id ns)) as [E|E].
    + exists ns. rewrite E, lookup_insert_eq. split; [done|]. intros Hp. rewrite E in Ha'. specialize (Hold a' Ha'). lia.
    + exists a'. by rewrite lookup_insert_ne by done.
Qed.
Lemma unique_loop_spec input P m :
  summary P m ->
  match unique_loop input m with
  | inl ns => ns_All ns = true /\ existsb ns_All input = true
  | inr m' => existsb ns_All input = false /\ summary (P ++ input) m'
  end.
Proof.
  revert P m. induction input as [|ns input IH]; intros P m H; cbn [unique_loop existsb]; [by rewrite app_nil_r|].
  destruct (ns_All ns) eqn:HA; [done|]. cbn [orb]. specialize (IH _ _ (add_selector_summary _ _ _ HA H)).
  by rewrite <- app_assoc in IH.
Qed.
Lemma expand_loop_elem nodes nss acc id :
  existsb ns_All nss = false ->
  id ∈ expand_loop nodes nss acc <-> id ∈ acc \/ exists ns, ns ∈ nss /\ selects nodes ns id.
Proof.
  revert acc. induction nss as [|ns nss IH]; intros acc HA; cbn [expand_loop existsb] in *; [set_solver|].
  apply orb_false_iff in HA as [HA HA']. rewrite HA. unfold selects in *. setoid_rewrite elem_of_cons.
  destruct (ns_IdRange ns >? 0) eqn:HR; rewrite IH by done; rewrite elem_of_app.
  - rewrite elem_of_seqZ. split.
    + intros [[H|H]|(a & Ha & Hs)]; [by left| |right; by eauto].
      right. exists ns. split; [by left|]. rewrite HA, HR. lia.
    + intros [H|(a & [->|Ha] & Hs)]; [by left; left| |right; by eauto]. left. right. rewrite HA, HR in Hs. lia.
  - rewrite list_elem_of_singleton. split.
    + intros [[H|H]|(a & Ha & Hs)]; [by left| |right; by eauto].
      right. exists ns. split; [by left|]. by rewrite HA, HR.
    + intros [H|(a & [->|Ha] & Hs)]; [by left; left| |right; by eauto]. left. right. by rewrite HA, HR in Hs.
Qed.
Lemma elem_of_sorted (m : gmap Z NodeSelector) ns :
  ns ∈ omap (fun id => m !! id) (merge_sort Z.le (elements (dom m))) <-> exists id, m !! id = Some ns.
Proof.
  rewrite list_elem_of_omap. split; [intros (id & _ & H); by exists id|]. intros [id H]. exists id. split; [|done].
  rewrite merge_sort_Permutation, elem_of_elements. by eapply elem_of_dom_2.
Qed.

(** A list of selectors denotes what its selectors denote: all nodes if one of them is
    all, and otherwise exactly the ids and the ids of the ranges, provided that ranges that
    start with the same id are the same and none is empty. *)
Theorem expandNodeSelector_spec nodes nss :
  if existsb ns_All nss then expandNodeSelector nodes nss = nodes
  else consistent nss -> forall id, id ∈ expandNodeSelector nodes nss <-> exists ns, ns ∈ nss /\ selects nodes ns id.
Proof.
  unfold expandNodeSelector, getUniqueAndSorted. pose proof (unique_loop_spec nss [] ∅) as HU.
  destruct (unique_loop nss ∅) as [ns|m].
  - destruct HU as [HA ->]; [split; set_solver|]. cbn [expand_loop]. by rewrite HA.
  - destruct HU as [HA0 [H1 H2]]; [split; set_solver|]. rewrite HA0. intros HC id. rewrite expand_loop_elem.
    + rewrite elem_of_nil. setoid_rewrite elem_of_sorted. split.
      * intros [[]|(ns & (i & Hi) & Hs)]. exists ns. split; [by destruct (H1 i ns Hi)|done].
      * intros (ns & Hns & Hs). right. destruct (H2 ns Hns) as (ns' & Hm & Hr). exists ns'. split; [by eauto|].
        destruct (H1 _ _ Hm) as (Hin & Hid & HA'). cbn in Hin. unfold selects in *. rewrite HA'.
        assert (ns_All ns = false) as HA.
        { apply not_true_iff_false. intros HA. apply not_true_iff_false in HA0. apply HA0, existsb_exists.
          exists ns. split; [by apply list_elem_of_In|done]. }
        rewrite HA in Hs.
        destruct (Z.gtb_spec (ns_IdRange ns') 0) as [Hp|Hp]; destruct (Z.gtb_spec (ns_IdRange ns) 0) as [Hq|Hq].
        -- destruct (HC ns' ns) as [_ HE]; [done|done|lia|]. rewrite Hid, <- (HE (eq_sym Hid)) by lia. lia.
        -- destruct (HC ns' ns) as [Hle _]; [done|done|lia|]. lia.
        -- lia.
        -- congruence.
    + apply not_true_iff_false. intros (ns & Hns & HA)%existsb_exists. apply list_elem_of_In, elem_of_sorted in Hns as [i Hi].
      destruct (H1 i ns Hi) as (_ & _ & ?). congruence.
Qed.
Lemma expandNodeSelector_spec_witness :
  4 ∈ expandNodeSelector [] [mkSelector 9 false 0; mkSelector 3 false 5; mkSelector 3 false 0].
Proof.
  pose proof (expandNodeSelector_spec [] [mkSelector 9 false 0; mkSelector 3 false 5; mkSelector 3 false 0]) as H.
  cbn [existsb ns_All orb] in H. apply H.
  - intros a b Ha Hb. repeat (apply elem_of_cons in Ha as [->|Ha]; [|]); [..|by apply elem_of_nil in Ha];
      repeat (apply elem_of_cons in Hb as [->|Hb]; [|]); try (by apply elem_of_nil in Hb); cbn; lia.
  - exists (mkSelector 3 false 5). split; [set_solver|]. unfold selects. cbn. lia.
Defined.
(** Of two ranges that start with the same id, the second is ignored. *)
Example expand_loses_range : expandNodeSelector [] [mkSelector 1 false 3; mkSelector 1 false 5] = [1; 2; 3].
Proof. reflexivity. Qed.
