(* ===== verification/Help.v ===== *)
(** * Help on commands

    src/cli/help.go: the help texts are taken from the markdown file that documents the
    command line.  A section of it starts with the name of a command; the text and its first
    sentence are kept for each.  The file ([cliHelpFile]) and the wrapping of long lines (a
    library) are arguments, and so is the width of the terminal. *)

From Stdlib Require Import Ascii.
From S2P Require Import Prelude GoStrings GoText.

Local Open Scope string_scope.

Definition newline : string := String "010"%char "".
Definition indentString : string := "    ".
Definition termWidthDefault : Z := 80.
Definition maxCmdWidth : Z := 10.

(** ** Markdown *)
Definition is_lower (c : ascii) : bool := (97 <=? nat_of_ascii c)%nat && (nat_of_ascii c <=? 122)%nat.
Fixpoint span_lower (s : string) : nat * string :=
  match s with
  | String c rest => if is_lower c then let '(n, r) := span_lower rest in (S n, r) else (O, s)
  | EmptyString => (O, s)
  end.
(** What follows a match of the pattern \(#[a-z]+\) at the beginning. *)
Definition linkTarget (s : string) : option string :=
  match s with
  | String "("%char (String "#"%char rest) =>
    match span_lower rest with
    | (S _, String ")"%char rest) => Some rest
    | _ => None
    end
  | _ => None
  end.
Fixpoint strip_links (fuel : nat) (s : string) : string :=
  match fuel with
  | O => s
  | S fuel =>
    match linkTarget s with
    | Some rest => strip_links fuel rest
    | None => match s with String c rest => String c (strip_links fuel rest) | EmptyString => "" end
    end
  end.
Fixpoint remove_char (c : ascii) (s : string) : string :=
  match s with
  | EmptyString => ""
  | String d rest => if Ascii.eqb c d then remove_char c rest else String d (remove_char c rest)
  end.
Definition markdownUnquote (md : string) : string :=
  let md := remove_char "\"%char md in strip_links (String.length md) md.

(** ** The file *)
(** The name of the command in a line that starts a section ([cmdHeaderPattern]). *)
Definition cmdHeader (line : string) : option string :=
  if HasPrefix line "### " && (4 <? String.length line)%nat then
    Some (TrimSpace (substr_from (match Index line " " with Some i => S i | None => O end) line))
  else None.
Definition get_text (m : gmap string string) (k : string) : string := default "" (m !! k).

Record Help := mkHelp {
  h_termWidth : Z;
  h_maxCmdWidth : Z;
  h_commands : gmap string string;
  h_commandsShort : gmap string string;
}.
(** The variables of the loop. *)
Record Parsing := mkParsing {
  ps_activeCmd : string;
  ps_indent : nat;
  ps_commands : gmap string string;
  ps_commandsShort : gmap string string;
}.
Definition firstSentence (line : string) : string :=
  match Index line "." with Some (S i) => String.substring 0 (S (S i)) line | _ => line end.
Definition parse_line (s : Parsing) (line : string) : Parsing :=
  let line := TrimSpace line in
  if String.eqb line "" then s else
  let '(line, s) :=
    if String.eqb line "```bash" then (newline +:+ "Example:", mkParsing (ps_activeCmd s) 2 (ps_commands s) (ps_commandsShort s))
    else if String.eqb line "```shell" then (newline +:+ "Definition:", mkParsing (ps_activeCmd s) 2 (ps_commands s) (ps_commandsShort s))
    else if String.eqb line "```" then ("", mkParsing (ps_activeCmd s) 0 (ps_commands s) (ps_commandsShort s))
    else match cmdHeader line with
    | Some cmd => (cmd, mkParsing cmd 0 (<[cmd := ""]> (ps_commands s)) (<[cmd := ""]> (ps_commandsShort s)))
    | None => (line, s)
    end in
  let cmd := ps_activeCmd s in
  if String.eqb cmd "" then s else
  let commands := <[cmd := get_text (ps_commands s) cmd +:+ String.substring 0 (ps_indent s) indentString +:+ markdownUnquote line +:+ newline]> (ps_commands s) in
  let indent := if String.eqb line cmd then 2%nat else ps_indent s in
  if negb (String.eqb line cmd) && String.eqb (get_text (ps_commandsShort s) cmd) "" then
    mkParsing cmd 0 commands (<[cmd := firstSentence line]> (ps_commandsShort s))
  else mkParsing cmd indent commands (ps_commandsShort s).
Definition parseHelpFile (cliHelpFile : string) : gmap string string * gmap string string :=
  let s := foldl parse_line (mkParsing "" 0 ∅ ∅) (Split cliHelpFile "010"%char) in (ps_commands s, ps_commandsShort s).
(** [width]: the width of the terminal, if there is one. *)
Definition update_help (width : option Z) (h : Help) : Help :=
  mkHelp (default (h_termWidth h) width) (h_maxCmdWidth h) (h_commands h) (h_commandsShort h).
Definition newHelp (cliHelpFile : string) (width : option Z) : Help :=
  let '(commands, short) := parseHelpFile cliHelpFile in update_help width (mkHelp termWidthDefault maxCmdWidth commands short).

(** ** Showing it *)
Section output.
(** [wordwrap.WrapString] *)
Variable WrapString : string -> Z -> string.
(** [sort.Strings]: the order of the bytes. *)
Fixpoint string_leb (a b : string) : bool :=
  match a, b with
  | EmptyString, _ => true
  | String _ _, EmptyString => false
  | String c a, String d b => match Nat.compare (nat_of_ascii c) (nat_of_ascii d) with Lt => true | Gt => false | Eq => string_leb a b end
  end.
Fixpoint insert_string (x : string) (l : list string) : list string :=
  match l with [] => [x] | y :: l => if string_leb x y then x :: y :: l else y :: insert_string x l end.
Definition sortStrings (l : list string) : list string := foldr insert_string [] l.
(** [%-15s] *)
Definition pad (n : nat) (s : string) : string := s +:+ String.string_of_list_ascii (replicate (n - String.length s) " "%char).
Definition outputGeneralHelp (h : Help) : string :=
  let cmds := sortStrings (map fst (map_to_list (h_commandsShort h))) in
  foldl (fun s c => s +:+ pad 15 c +:+ " " +:+ get_text (h_commandsShort h) c +:+ newline) "" cmds +:+
  WrapString (newline +:+ "For detailed help per command, use: 'help <command>'" +:+ newline) (h_termWidth h) +:+
  WrapString (newline +:+ "For detailed CLI command reference in browser go to:" +:+ newline +:+
    "https://github.com/openthread/ot-ns/blob/main/cli/README.md" +:+ newline) (h_termWidth h).
Definition outputHelp (width : option Z) (commands : list string) (h : Help) : string :=
  let h := update_help width h in
  foldl (fun s cmd =>
    let explanation := default "(Non-existent command.)" (h_commands h !! cmd) in
    foldl (fun s line => s +:+ line +:+ newline) s
      (Split (WrapString explanation ((h_termWidth h - h_maxCmdWidth h - 1) mod 2 ^ 64)%Z) "010"%char)) "" commands.
Definition outputCommandHelp (width : option Z) (command : string) (h : Help) : string := outputHelp width [command] h.
End output.

(** ** Sections are independent *)
(** The text of a section so far, its first sentence and the indentation. *)
Abbreviation SecState := (string * string * nat)%type (only parsing).
(** What a line adds to its section. *)
Definition section_line (cmd : string) (s : SecState) (line : string) : SecState :=
  let '(text, short, indent) := s in
  let line := TrimSpace line in
  if String.eqb line "" then s else
  let '(line, indent) :=
    if String.eqb line "```bash" then (newline +:+ "Example:", 2%nat)
    else if String.eqb line "```shell" then (newline +:+ "Definition:", 2%nat)
    else if String.eqb line "```" then ("", 0%nat)
    else (line, indent) in
  let text := text +:+ String.substring 0 indent indentString +:+ markdownUnquote line +:+ newline in
  if String.eqb line cmd then (text, short, 2%nat)
  else if String.eqb short "" then (text, firstSentence line, 0%nat) else (text, short, indent).
Definition section_help (cmd : string) (lines : list string) : SecState :=
  foldl (section_line cmd) (markdownUnquote cmd +:+ newline, "", 2%nat) lines.

Definition starts (line : string) : option string :=
  let line := TrimSpace line in
  if String.eqb line "" || String.eqb line "```bash" || String.eqb line "```shell" || String.eqb line "```" then None else cmdHeader line.
(** The sections of a file with their lines; what comes before the first is not part of one. *)
Fixpoint sections (lines : list string) : list (string * list string) * list string :=
  match lines with
  | [] => ([], [])
  | line :: lines =>
    let '(secs, before) := sections lines in
    match starts line with Some cmd => ((cmd, before) :: secs, []) | None => (secs, line :: before) end
  end.
Definition help_of_sections (secs : list (string * list string)) : gmap string string * gmap string string :=
  foldl (fun '(commands, short) '(cmd, lines) =>
    (<[cmd := (section_help cmd lines).1.1]> commands, <[cmd := (section_help cmd lines).1.2]> short)) (∅, ∅) secs.

Lemma parse_plain s line : starts line = None -> ps_activeCmd s <> "" ->
  let cmd := ps_activeCmd s in
  let '(text, short, indent) := section_line cmd (get_text (ps_commands s) cmd, get_text (ps_commandsShort s) cmd, ps_indent s) line in
  is_Some (ps_commands s !! cmd) -> is_Some (ps_commandsShort s !! cmd) ->
  parse_line s line = mkParsing cmd indent (<[cmd := text]> (ps_commands s)) (<[cmd := short]> (ps_commandsShort s)).
Proof.
  intros Hs Ha cmd. unfold starts in Hs. unfold section_line, parse_line. destruct s as [act ind cmds short]. cbn in *. subst cmd.
  assert (String.eqb act "" = false) as Ha' by by apply String.eqb_neq.
  assert (forall (m : gmap string string), is_Some (m !! act) -> <[act := get_text m act]> m = m) as HI.
  { intros m [x Hx]. unfold get_text. rewrite Hx. cbn. by apply insert_id. }
  destruct (String.eqb (TrimSpace line) "") eqn:E0; [intros H1 H2; by rewrite !HI|]. cbn [orb] in Hs.
  destruct (String.eqb (TrimSpace line) "```bash") eqn:E1; [|destruct (String.eqb (TrimSpace line) "```shell") eqn:E2;
    [|destruct (String.eqb (TrimSpace line) "```") eqn:E3]]; cbn [orb] in Hs; rewrite ?Hs; cbn [ps_activeCmd ps_indent ps_commands ps_commandsShort];
    rewrite Ha'; (match goal with |- context [String.eqb ?l act] => destruct (String.eqb l act) eqn:El end); cbn [negb andb];
    try (intros H1 H2; by rewrite (HI short H2));
    (destruct (String.eqb (get_text short act) "") eqn:Es; [done|]); intros H1 H2; by rewrite (HI short H2).
Qed.
(** The name of a command is not empty. *)
Lemma drop_while_head p l c r : drop_while p l = c :: r -> p c = false.
Proof. induction l as [|x l IH]; cbn; [done|]. destruct (p x) eqn:E; [apply IH|]. by intros [= -> _]. Qed.
Lemma drop_while_nil p l : drop_while p l = [] -> Forall (fun c => p c = true) l.
Proof. induction l as [|x l IH]; cbn; [done|]. destruct (p x) eqn:E; [|done]. intros H. constructor; [done|]. by apply IH. Qed.
Lemma trim_last s c l : String.list_ascii_of_string (TrimSpace s) = (l ++ [c])%list -> is_space c = false.
Proof.
  unfold TrimSpace. rewrite String.list_ascii_of_string_of_list_ascii. unfold trim_right. intros E.
  apply (f_equal (rev (A:=ascii))) in E. rewrite rev_involutive, rev_app_distr in E. cbn in E. by eapply drop_while_head.
Qed.
Lemma trim_nonempty s c : c ∈ String.list_ascii_of_string s -> is_space c = false -> TrimSpace s <> "".
Proof.
  intros Hc Hs E. unfold TrimSpace in E. apply (f_equal String.list_ascii_of_string) in E.
  rewrite String.list_ascii_of_string_of_list_ascii in E. unfold trim_right in E. cbn in E. apply (f_equal (rev (A:=ascii))) in E.
  rewrite rev_involutive in E. cbn in E. apply drop_while_nil in E.
  destruct (drop_while is_space (String.list_ascii_of_string s)) as [|d r] eqn:ED.
  - apply drop_while_nil in ED. rewrite Forall_forall in ED. apply ED in Hc. congruence.
  - apply drop_while_head in ED. rewrite Forall_forall in E. assert (is_space d = true); [|congruence].
    apply E, list_elem_of_In, in_rev. rewrite rev_involutive. by left.
Qed.
Lemma substr_from_list n s : String.list_ascii_of_string (substr_from n s) = drop n (String.list_ascii_of_string s).
Proof. revert s. induction n as [|n IH]; intros [|c s]; cbn; [done..|]. apply IH. Qed.
Lemma starts_nonempty line cmd : starts line = Some cmd -> cmd <> "".
Proof.
  unfold starts. destruct (_ || _); [done|]. unfold cmdHeader. destruct (HasPrefix (TrimSpace line) "### ") eqn:EP; [|done]. cbn [andb].
  destruct (Nat.ltb_spec 4 (String.length (TrimSpace line))) as [Hlen|]; [|done]. intros [= <-].
  set (t := TrimSpace line) in *. assert (Index t " " = Some 3%nat) as ->.
  { unfold HasPrefix in EP. destruct t as [|c1 [|c2 [|c3 [|c4 t]]]]; cbn [String.prefix] in EP;
      repeat (destruct (ascii_dec _ _) as [<-|]; [|discriminate EP]); try discriminate EP; destruct t; reflexivity. }
  assert (length (String.list_ascii_of_string t) = String.length t) as HL by (clear; induction t; cbn; congruence).
  destruct (exists_last (l := String.list_ascii_of_string t)) as (l & c & El); [intros E; rewrite E in HL; cbn in HL; lia|].
  apply (trim_nonempty _ c); [|by eapply trim_last]. rewrite substr_from_list, El.
  rewrite El, length_app in HL. cbn in HL. rewrite drop_app_le by lia. apply elem_of_app. right. left.
Qed.

Lemma parse_header s line cmd : starts line = Some cmd ->
  parse_line s line = mkParsing cmd 2 (<[cmd := markdownUnquote cmd +:+ newline]> (ps_commands s)) (<[cmd := ""]> (ps_commandsShort s)).
Proof.
  intros Hs. pose proof (starts_nonempty line cmd Hs) as Hne. unfold starts in Hs. unfold parse_line.
  destruct (String.eqb (TrimSpace line) ""); [done|]. destruct (String.eqb (TrimSpace line) "```bash"); [done|].
  destruct (String.eqb (TrimSpace line) "```shell"); [done|]. destruct (String.eqb (TrimSpace line) "```"); [done|]. cbn [orb] in Hs.
  rewrite Hs. cbn [ps_activeCmd ps_indent ps_commands ps_commandsShort]. rewrite (proj2 (String.eqb_neq cmd "") Hne), String.eqb_refl.
  cbn [negb andb]. unfold get_text. rewrite lookup_insert_eq, insert_insert_eq. done.
Qed.
Lemma get_text_insert m k v : get_text (<[k := v]> m) k = v.
Proof. unfold get_text. by rewrite lookup_insert_eq. Qed.
Definition add_sections := foldl (fun (m : gmap string string * gmap string string) '((cmd, lines) : string * list string) =>
    (<[cmd := (section_help cmd lines).1.1]> m.1, <[cmd := (section_help cmd lines).1.2]> m.2)).
Lemma parse_sections lines a text short ind C T : a <> "" ->
  let '(secs, before) := sections lines in
  let sec := foldl (section_line a) (text, short, ind) before in
  let s := foldl parse_line (mkParsing a ind (<[a := text]> C) (<[a := short]> T)) lines in
  (ps_commands s, ps_commandsShort s) = add_sections (<[a := sec.1.1]> C, <[a := sec.1.2]> T) secs.
Proof.
  revert a text short ind C T. induction lines as [|line lines IH]; intros a text short ind C T Ha; [done|].
  cbn [sections foldl]. destruct (starts line) as [cmd|] eqn:Es.
  - specialize (IH cmd (markdownUnquote cmd +:+ newline) "" 2%nat (<[a := text]> C) (<[a := short]> T) (starts_nonempty _ _ Es)).
    destruct (sections lines) as [secs before]. rewrite (parse_header _ _ _ Es). cbn [ps_commands ps_commandsShort]. exact IH.
  - pose proof (parse_plain (mkParsing a ind (<[a := text]> C) (<[a := short]> T)) line Es Ha) as HP.
    cbv zeta in HP. cbn [ps_activeCmd ps_commands ps_commandsShort ps_indent] in HP. rewrite !get_text_insert in HP.
    destruct (section_line a (text, short, ind) line) as [[t' s'] i'] eqn:El. rewrite HP by (rewrite lookup_insert_eq; by eexists).
    rewrite !insert_insert_eq. specialize (IH a t' s' i' C T Ha). destruct (sections lines) as [secs before].
    cbn [foldl]. rewrite El. exact IH.
Qed.
Lemma parse_before s line : starts line = None -> ps_activeCmd s = "" ->
  exists ind, parse_line s line = mkParsing "" ind (ps_commands s) (ps_commandsShort s).
Proof.
  intros Hs Ha. destruct s as [act ind cmds short]. cbn in Ha. subst act. unfold starts in Hs. unfold parse_line.
  destruct (String.eqb (TrimSpace line) ""); [by eexists|]. destruct (String.eqb (TrimSpace line) "```bash"); [by eexists|].
  destruct (String.eqb (TrimSpace line) "```shell"); [by eexists|]. destruct (String.eqb (TrimSpace line) "```"); [by eexists|].
  cbn [orb] in Hs. rewrite Hs. by eexists.
Qed.

(** C32: The help of a command is that of its own section of the file: the texts and the first
    sentences are those that each section gives by itself, whatever the sections around it; if
    a command has two sections, it is the later one.  What precedes the first section is not
    shown. *)
Theorem help_by_sections file :
  parseHelpFile file = help_of_sections (sections (Split file "010"%char)).1.
Proof.
  unfold parseHelpFile, help_of_sections. generalize 0%nat as ind. generalize (Split file "010"%char) as lines.
  induction lines as [|line lines IH]; intros ind; [done|]. cbn [foldl sections].
  destruct (starts line) as [cmd|] eqn:Es.
  - rewrite (parse_header _ _ _ Es). cbn [ps_commands ps_commandsShort].
    pose proof (parse_sections lines cmd (markdownUnquote cmd +:+ newline) "" 2%nat ∅ ∅ (starts_nonempty _ _ Es)) as HP.
    destruct (sections lines) as [secs before]. cbn [fst foldl]. rewrite HP. unfold add_sections. cbn [fst snd].
    fold (section_help cmd before). generalize (<[cmd:=(section_help cmd before).1.1]> (∅ : gmap string string)) as m1.
    generalize (<[cmd:=(section_help cmd before).1.2]> (∅ : gmap string string)) as m2. clear.
    induction secs as [|[c l] secs IH]; intros m2 m1; [done|]. apply IH.
  - destruct (parse_before (mkParsing "" ind ∅ ∅) line Es eq_refl) as [ind' ->]. cbn [ps_commands ps_commandsShort].
    specialize (IH ind'). destruct (sections lines) as [secs before]. exact IH.
Qed.

(** ** An example *)
Definition ex_file : string :=
  "# Reference" +:+ newline +:+ "### add" +:+ newline +:+ newline +:+ "Add a node. See [del](#del)." +:+ newline +:+
  "```bash" +:+ newline +:+ "> add router" +:+ newline +:+ "```" +:+ newline +:+ "### del" +:+ newline +:+ "Delete a\_node" +:+ newline.
Example ex_help :
  (get_text (parseHelpFile ex_file).1 "add", get_text (parseHelpFile ex_file).2 "add", get_text (parseHelpFile ex_file).1 "del") =
  ("add" +:+ newline +:+ "  Add a node. See [del]." +:+ newline +:+ "  " +:+ newline +:+ "Example:" +:+ newline +:+ "  > add router" +:+
     newline +:+ newline, "Add a node.", "del" +:+ newline +:+ "  Delete a_node" +:+ newline).
Proof. vm_compute. reflexivity. Qed.
