(* ===== verification/CmdRunner.v ===== *)
(** * The command runner

    src/cli/CmdRunner.go: executing the commands of the user on the simulation.  The state is
    that of the simulation and the dispatcher ([Lifecycle]), the runner's node context and
    multicast group, and the answer that is being written.

    - Parsing a line into a command is done by a library and is a parameter, as are files
      ([CmdEnv]).  The commands are those of src/cli/ast.go except [go] and [speed] (the
      simulation speed is not modelled), [radiomodel] and [radioparam], and [web].
    - A command is executed by a task of the dispatcher, so a panic in it is not recovered by
      the runner: it is a [Panic] here.  The [node] command does recover; what is then left of
      the state is not modelled.
    - The answer is a list of texts; rows of tables are kept as data.
    - Logs are left out. *)

From Stdlib Require Import Ascii.
From S2P Require Import Prelude State Types Event GoFloat GoStrings GoText SafePath GoDuration Datagram.
From S2P Require Import SendQueue AlarmMgr Energy Visualize DNode RadioNode RadioModel RadioLaws Dispatcher DispatcherIndex.
From S2P Require Import NodeConfig Uart SimNode Logger NodeProcess SimHosts Simulation Coaps Kpi Lifecycle CliSelect Help.

Local Open Scope string_scope.
Local Open Scope Z_scope.

(** ** Commands *)
Record AddCmd := mkAddCmd {
  ac_Type : string; ac_X : option Z; ac_Y : option Z; ac_Z : option Z; ac_Id : option Z; ac_RadioRange : option Z;
  ac_Restore : bool; ac_Version : option string; ac_Raw : bool; ac_Executable : option string; ac_BackboneIf : option string;
}.
Record PingCmd := mkPingCmd {
  pc_Src : NodeSelector; pc_Dst : option NodeSelector; pc_AddrType : option string; pc_DstAddr : string;
  pc_DataSize : option Z; pc_Count : option Z; pc_Interval : option float; pc_HopLimit : option Z;
}.
Record SendCmd := mkSendCmd {
  sc_Protocol : string; sc_ProtoParam : string; sc_SrcId : NodeSelector; sc_DstId : list NodeSelector;
  sc_AddrType : option string; sc_DataSize : option Z;
}.
Inductive RadioAction := RadioOn | RadioOff | RadioFailTime (failDuration failInterval : float).
Inductive Command :=
| CmdAdd (c : AddCmd)
| CmdAutoGo (val : option bool)
| CmdCoaps (enable : bool)
| CmdConfigVisualization (bro uni ack rtb ctb : option bool)
| CmdCountDown (seconds : Z) (text : option string)
| CmdCounters
| CmdDebug (echo : option string) (fail : bool)
| CmdDel (nodes : list NodeSelector)
| CmdDemoLegend (title : string) (x y : Z)
| CmdEnergy (save : bool) (name : string)
| CmdExe (nodeType : string) (setDefault : bool) (version path : string)
| CmdExit
| CmdGo (time : string) (ever : bool) (speed : option float)
| CmdHelp (topic : string)
| CmdHost (subCmd hostname : string) (ipAddr : option string) (port portMapped : Z)
| CmdJoins
| CmdKpi (operation filename : string)
| CmdLoad (filename : string) (add : bool)
| CmdLogLevel (level : string)
| CmdMove (target : NodeSelector) (x y : Z) (z : option Z)
| CmdNetInfo (version commit : option string)
| CmdNode (node : NodeSelector) (command : option string)
| CmdNodes
| CmdPartitions
| CmdPing (c : PingCmd)
| CmdPings
| CmdPlr (val : option float)
| CmdRadio (nodes : list NodeSelector) (action : RadioAction)
| CmdRadioModel (model : string)
| CmdRadioParam (param sign : string) (val : option float)
| CmdRfSim (setDefault : bool) (id : option NodeSelector) (param sign : string) (val : option Z)
| CmdSave (filename : string)
| CmdScan (node : NodeSelector)
| CmdSend (c : SendCmd)
| CmdSpeed (max : bool) (speed : option float)
| CmdTime
| CmdTitle (title : string) (x y fontSize : option Z)
| CmdUnwatch (nodes : list NodeSelector)
| CmdWatch (default : string) (nodes : list NodeSelector) (level : string)
| CmdWeb (tabName : option string).

Definition isBackgroundCommand (cmd : Command) : bool :=
  match cmd with
  | CmdNode _ (Some command) => isBackgroundLine command
  | CmdScan _ => true
  | _ => false
  end.

(** ** Answers *)
Inductive CmdOut :=
| OText (s : string)
(** a number, and the end of the line *)
| OFloat (f : float)
(** rows of tables; of [exe] the last part of the path is shown *)
| ONode (id : NodeId) (ty : string) (n : Node) (exe : string)
| OPartition (parid : Z) (nodeIds : list NodeId)
| OPing (id : NodeId) (p : PingResult)
| OJoin (id : NodeId) (j : JoinResult)
| OCounters (c : Counters)
| OCoaps (ms : list CoapMessage)
| OHost (h : SimHostEndpoint) (rx tx : Z)
(** a parameter of the radio model: its name in a table, and its value *)
| OParam (name : string) (val : float + bool)
(** files *)
| OYaml (filename : string) (nw : YamlNetworkConfig) (nodes : list YamlNodeConfig)
| OEnergy (files : list (string * list (Z * (float * float * float * float)))).

Record CommandContext := mkCC { cc_err : option string; cc_output : list CmdOut; cc_isBackgroundCmd : bool }.

(** The runner, and what it works on.  [cr_stopping]: the simulation was told to stop. *)
Record CmdRunner (M : Type) := mkRunner {
  cr_sim : Sim M;
  cr_contextNodeId : NodeId;
  cr_sendGroupId : Z;
  cr_logLevel : Z;
  cr_DefaultWatchLevel : string;
  cr_stopping : bool;
  (** the number of radio models made so far *)
  cr_models : nat;
  cr_cc : CommandContext;
}.
Arguments mkRunner {M}. Arguments cr_sim {M}. Arguments cr_contextNodeId {M}. Arguments cr_sendGroupId {M}.
Arguments cr_logLevel {M}. Arguments cr_DefaultWatchLevel {M}. Arguments cr_stopping {M}. Arguments cr_models {M}. Arguments cr_cc {M}.
Section fields.
Context {M : Type}.
Implicit Types r : CmdRunner M.
Definition set_sim v r : CmdRunner M :=
  mkRunner v (cr_contextNodeId r) (cr_sendGroupId r) (cr_logLevel r) (cr_DefaultWatchLevel r) (cr_stopping r) (cr_models r) (cr_cc r).
Definition set_context v r : CmdRunner M :=
  mkRunner (cr_sim r) v (cr_sendGroupId r) (cr_logLevel r) (cr_DefaultWatchLevel r) (cr_stopping r) (cr_models r) (cr_cc r).
Definition set_groupId v r : CmdRunner M :=
  mkRunner (cr_sim r) (cr_contextNodeId r) v (cr_logLevel r) (cr_DefaultWatchLevel r) (cr_stopping r) (cr_models r) (cr_cc r).
Definition set_logLevel v r : CmdRunner M :=
  mkRunner (cr_sim r) (cr_contextNodeId r) (cr_sendGroupId r) v (cr_DefaultWatchLevel r) (cr_stopping r) (cr_models r) (cr_cc r).
Definition set_watchLevel v r : CmdRunner M :=
  mkRunner (cr_sim r) (cr_contextNodeId r) (cr_sendGroupId r) (cr_logLevel r) v (cr_stopping r) (cr_models r) (cr_cc r).
Definition set_stopping v r : CmdRunner M :=
  mkRunner (cr_sim r) (cr_contextNodeId r) (cr_sendGroupId r) (cr_logLevel r) (cr_DefaultWatchLevel r) v (cr_models r) (cr_cc r).
Definition set_models v r : CmdRunner M :=
  mkRunner (cr_sim r) (cr_contextNodeId r) (cr_sendGroupId r) (cr_logLevel r) (cr_DefaultWatchLevel r) (cr_stopping r) v (cr_cc r).
Definition set_cc v r : CmdRunner M :=
  mkRunner (cr_sim r) (cr_contextNodeId r) (cr_sendGroupId r) (cr_logLevel r) (cr_DefaultWatchLevel r) (cr_stopping r) (cr_models r) v.
(** The configuration of the simulation. *)
Definition set_s_cfg v (s : Sim M) : Sim M :=
  mkSim v (s_nodes s) (s_d s) (s_auto s) (s_nodePlacer s) (s_kpiMgr s) (s_simHosts s) (s_posted s) (s_created s) (s_waits s) (s_networkInfo s).
End fields.

(** A file that is named by a command. *)
Inductive FileStat := StatOk (isDir : bool) | StatNotExist | StatError.

Abbreviation steps := (list (list (list Event) * SimReq)) (only parsing).
Record GoWait := mkGoWait { gw_before : steps; gw_during : steps; gw_events : list (list (list Event) * Event) }.

Class CmdEnv := {
  ce_sim :: SimEnv;
  (** the parser of src/cli/ast.go, made by a library: an error or a command *)
  parseBytes : string -> string + Command;
  (** [os.Stat], reading and decoding, encoding and writing of files *)
  os_Stat : string -> FileStat;
  load_yaml : string -> string + (YamlNetworkConfig * list YamlNodeConfig);
  save_error : string -> option string;
  (** [netip.ParseAddr] *)
  ParseAddr : string -> option Addr;
  (** the random seed of the next node object, if seeds are used *)
  node_seed : nat -> option Z;
  (** the random text of a test message *)
  randomString : Z -> string;
  (** the documentation of the commands, the wrapping of lines, and the width of the terminal *)
  cliHelpFile : string;
  WrapString : string -> Z -> string;
  term_width : option Z;
  (** the seed of the [k]-th radio model *)
  model_seed : nat -> Z;
  (** the error of starting the web proxy and the browser for a page *)
  OpenWeb : string -> option string;
  (** what happens while the command go waits: before the period begins, during it, and the
      events that arrive at its end; for go ever, one for each period *)
  go_waits : nat -> list GoWait;
  (** whether a period that autogo asked for is in the channel when go asks for its own *)
  go_queued : nat -> bool;
  (** the orders in which Go ranges over maps and sets *)
  range_groups : gset Z -> list Z;
  range_map : forall A, gmap Z A -> list (Z * A);
}.

Section runner.
Context {env : CmdEnv} {M : Type} `{!RadioModel M}.
Abbreviation CM := (st (CmdRunner M)) (only parsing).
Abbreviation SM := (st (Sim M)) (only parsing).

(** ** Writing the answer *)
Definition mod_cc (f : CommandContext -> CommandContext) : CM () := modify (fun r => set_cc (f (cr_cc r)) r).
Definition out (o : CmdOut) : CM () := mod_cc (fun cc => mkCC (cc_err cc) (cc_output cc ++ [o]) (cc_isBackgroundCmd cc)).
Definition outputStr (msg : string) : CM () := out (OText msg).
Definition outputln (msg : string) : CM () := outputStr (msg +:+ nl).
Definition outputStrArray (msg : list string) (prefix : string) : CM () :=
  for_each msg (fun line => outputStr (prefix +:+ line +:+ nl)).
Definition error_line (s : string) : string := if HasPrefix s "Error" then s +:+ nl else "Error: " +:+ s +:+ nl.
Definition outputErr (s : string) : CM () := outputStr (error_line s).
Definition warnf (msg : string) : CM () := outputStr ("Warn: " +:+ msg +:+ nl).
(** An error that was stored before is written now; the last one is kept. *)
Definition cc_error (err : option string) : CM () :=
  match err with
  | None => mret tt
  | Some e =>
    r ← get;
    _ ← match cc_err (cr_cc r) with Some old => outputErr old | None => mret tt end;
    mod_cc (fun cc => mkCC (Some e) (cc_output cc) (cc_isBackgroundCmd cc))
  end.
Definition errorf (msg : string) : CM () := cc_error (Some msg).

(** ** Working on the simulation *)
Definition on_sim {A} (m : SM A) : CM A :=
  r ← get;
  '(a, s) ← lift (m (cr_sim r));
  _ ← modify (set_sim s);
  mret a.
Definition get_sim : CM (Sim M) := gets cr_sim.
Definition on_disp {A} (m : st (Dispatcher M) A) : CM A := on_sim (on_d m).
Definition node_cmd {A} (id : NodeId) (m : CliEnv -> st SimNode A) : CM A := on_sim (on_node id m).

(** The node object with this id, if there is one. *)
Definition getNodeById (nodeId : NodeId) : CM (option SimNode) :=
  s ← get_sim;
  mret (if nodeId >? 0 then snd <$> s_nodes s !! nodeId else None).
Definition getNode (sel : NodeSelector) : CM (option SimNode) := getNodeById (ns_Id sel).
Definition expand (nss : list NodeSelector) : CM (list NodeId) :=
  s ← get_sim; mret (expandNodeSelector (GetNodes s) nss).
Definition not_found (id : NodeId) : string := "node " +:+ Itoa id +:+ " not found".

Definition enterNodeContext (nodeId : NodeId) : CM bool :=
  _ ← lift (assert_true (nodeId >=? InvalidNodeId));
  r ← get;
  if cr_contextNodeId r =? nodeId then mret false else _ ← modify (set_context nodeId); mret true.

(** ** Adding and deleting nodes *)
Definition NodeConfigFinalize (cfg : NodeConfig) : SM NodeConfig :=
  s ← get;
  newId ← genId;
  let cf := s_cfg s in
  lift (NodeConfig.NodeConfigFinalize (env := @os_fs (se_os (s_created s))) (cf_ExeConfig cf) (cf_NewNodeScripts cf)
          newId (node_seed (s_created s)) (noiseFloor s) cfg).

(** The configuration that the arguments of [add] ask for. *)
Definition add_config (cmd : AddCmd) (cfg : NodeConfig) : NodeConfig := {|
  nc_ID := default (nc_ID cfg) (ac_Id cmd);
  nc_Type := ac_Type cmd;
  nc_Version := default (nc_Version cfg) (ac_Version cmd);
  nc_X := default (nc_X cfg) (ac_X cmd);
  nc_Y := default (nc_Y cfg) (ac_Y cmd);
  nc_Z := default (nc_Z cfg) (ac_Z cmd);
  nc_IsAutoPlaced := nc_IsAutoPlaced cfg && bool_decide (ac_X cmd = None /\ ac_Y cmd = None /\ ac_Z cmd = None);
  nc_IsRaw := nc_IsRaw cfg || ac_Raw cmd;
  nc_IsMtd := nc_IsMtd cfg; nc_IsRcp := nc_IsRcp cfg; nc_IsRouter := nc_IsRouter cfg;
  nc_IsBorderRouter := nc_IsBorderRouter cfg; nc_IsExternal := nc_IsExternal cfg;
  nc_RxOffWhenIdle := nc_RxOffWhenIdle cfg; nc_NodeLogFile := nc_NodeLogFile cfg;
  nc_RadioRange := default (nc_RadioRange cfg) (ac_RadioRange cmd);
  nc_ExecutablePath := default (nc_ExecutablePath cfg) (ac_Executable cmd);
  nc_HostExePath := nc_HostExePath cfg;
  nc_NetIfName := default (nc_NetIfName cfg) (ac_BackboneIf cmd);
  nc_Restore := ac_Restore cmd;
  nc_InitScript := nc_InitScript cfg; nc_RandomSeed := nc_RandomSeed cfg; nc_RfSimParams := nc_RfSimParams cfg |}.
Definition executeAddNode (cmd : AddCmd) : CM () :=
  s ← get_sim;
  cfg ← on_sim (NodeConfigFinalize (add_config cmd (cf_NewNodeConfig (s_cfg s))));
  e ← on_sim (add_node cfg);
  match e with
  | Some _ => cc_error e
  | None => outputln (Itoa (nc_ID cfg))
  end.

Definition deleteOne (nodeId : NodeId) : CM () :=
  node ← getNodeById nodeId;
  match node with
  | None => warnf (not_found nodeId +:+ ", skipping")
  | Some _ =>
    e ← on_sim (DeleteNode nodeId);
    match e with Some e => errorf ("node " +:+ Itoa nodeId +:+ ", " +:+ e) | None => mret tt end
  end.
Definition executeDelNode (nodes : list NodeSelector) : CM () :=
  ids ← expand nodes; for_each ids deleteOne.

(** [ImportNodes]: the error if a node could not be added. *)
Fixpoint import_loop (nw : YamlNetworkConfig) (nodes : list YamlNodeConfig) (allOk : bool) : SM bool :=
  match nodes with
  | [] => mret allOk
  | node :: nodes =>
    cfg ← NodeConfigFinalize (importNode nw node);
    e ← add_node cfg;
    import_loop nw nodes (match e with None => allOk | Some _ => false end)
  end.
Definition ImportNodes (nw : YamlNetworkConfig) (nodes : list YamlNodeConfig) : SM (option string) :=
  ok ← import_loop nw nodes true;
  mret (if (ok : bool) then None else Some "not all nodes could be imported - see error log above").
Definition simMaxNodeId (s : Sim M) : NodeId := MaxNodeId (map fst (map_to_list (s_nodes s))).
(** With [add], the ids of the file are moved behind those that are in use. *)
Definition offset_network (add : bool) (nw : YamlNetworkConfig) (nodes : list YamlNodeConfig) (s : Sim M) : YamlNetworkConfig :=
  if add then mkNetwork (yn_Position nw) (yn_RadioRange nw) (Some (simMaxNodeId s + 1 - MinNodeId nodes)) else nw.
Definition executeLoad (filename : string) (add : bool) : CM () :=
  match CheckSafePath filename with
  | inl e => errorf ("Invalid load file name: " +:+ e)
  | inr safe =>
    match os_Stat safe with
    | StatOk false =>
      match load_yaml safe with
      | inl e => errorf e
      | inr (nw, nodes) =>
        if bool_decide (nodes = []) then errorf "No nodes defined in YAML file" else
        s ← get_sim;
        e ← on_sim (ImportNodes (offset_network add nw nodes s) nodes);
        match e with Some e => warnf e | None => mret tt end
      end
    | _ => errorf ("Invalid load file name: " +:+ safe)
    end
  end.

(** The nodes that are not exiting, with their configurations and positions. *)
Definition exported (s : Sim M) : res (list (Z * NodeConfig * (Z * Z * Z))) :=
  mapM (fun id =>
    n ← deref (s_nodes s !! id);
    l ← deref (d_nodes (s_d s) !! id);
    dn ← deref (d_store (s_d s) !! l);
    Ok (id, sn_cfg n.2, (n_X dn, n_Y dn, n_Z dn))) (GetNodes s).
Definition executeSave (filename : string) : CM () :=
  match CheckSafePath filename with
  | inl e => errorf ("Invalid save file name: " +:+ e)
  | inr safe =>
    match os_Stat safe with
    | StatError => errorf ("Invalid save file name: " +:+ safe)
    | _ =>
      s ← get_sim;
      nodes ← lift (exported s);
      let nw := ExportNetwork (nc_RadioRange (cf_NewNodeConfig (s_cfg s))) in
      match save_error safe with
      | Some e => errorf ("Error writing file '" +:+ safe +:+ "': " +:+ e)
      | None => out (OYaml safe nw (ExportNodes nw nodes))
      end
    end
  end.

(** ** Commands on nodes *)
Definition executeExit : CM () :=
  left_context ← enterNodeContext InvalidNodeId;
  if (left_context : bool) then mret tt else modify (set_stopping true).

Definition executeMoveNode (target : NodeSelector) (x y : Z) (z : option Z) : CM () :=
  e ← on_sim (MoveNodeTo (ns_Id target) x y z); cc_error e.

(** [Node.Command] and so on, with the lines and messages that wait displayed at the end. *)
Definition executeNode (node : NodeSelector) (command : option string) : CM () :=
  n ← getNode node;
  match n with
  | None =>
    r ← get;
    exited ← (if (ns_Id node =? 0) && negb (cr_contextNodeId r =? InvalidNodeId) then enterNodeContext InvalidNodeId
              else mret false);
    if (exited : bool) then mret tt else errorf (not_found (ns_Id node))
  | Some _ =>
    match command with
    | None => _ ← enterNodeContext (ns_Id node); mret tt
    | Some command =>
      r ← get;
      output ←
        (if cc_isBackgroundCmd (cr_cc r) then
           '(output, hasDone) ← node_cmd (ns_Id node) (fun env => CommandNoDone command);
           _ ← mod_cc (fun cc => mkCC (cc_err cc) (cc_output cc) (negb hasDone));
           mret output
         else node_cmd (ns_Id node) (fun env => SimNode.Command command));
      err ← node_cmd (ns_Id node) (fun env => CommandResult);
      _ ← node_cmd (ns_Id node) (fun env => DisplayPendingLines);
      r ← get;
      _ ← when (cc_isBackgroundCmd (cr_cc r) && bool_decide (err = None)) (outputln "Started");
      _ ← outputStrArray output "";
      cc_error err
    end
  end.

Definition executeScan (node : NodeSelector) : CM () :=
  n ← getNode node;
  match n with
  | None => errorf (not_found (ns_Id node))
  | Some _ =>
    '(output, _) ← node_cmd (ns_Id node) (fun env => CommandNoDone "scan");
    err ← node_cmd (ns_Id node) (fun env => CommandResult);
    _ ← cc_error err;
    _ ← when (bool_decide (err = None)) (outputln "Started");
    outputStrArray output (GetNodeName (ns_Id node))
  end.

(** Addresses of a node, of the first kind that there is. *)
Definition is_addr (addrType : option string) (ty : string) : bool :=
  match addrType with None => true | Some t => String.eqb t "any" || String.eqb t ty end.
Definition ip_addrs (ty : string) (env : CliEnv) : st SimNode (list string) := SimNode.Command ("ipaddr " +:+ ty).
Fixpoint first_addrs (id : NodeId) (kinds : list (string * (CliEnv -> st SimNode (list string)))) (addrType : option string) :
    CM (list string) :=
  match kinds with
  | [] => mret []
  | (ty, cmd) :: kinds =>
    addrs ← (if is_addr addrType ty then node_cmd id cmd else mret []);
    match addrs with [] => first_addrs id kinds addrType | _ => mret addrs end
  end.
Definition getAddrs (id : NodeId) (addrType : option string) : CM (list string) :=
  first_addrs id [("mleid", ip_addrs "mleid"); ("rloc", ip_addrs "rloc"); ("slaac", fun env => GetIpAddrSlaac);
                  ("linklocal", ip_addrs "linklocal")] addrType.

(** [%f]: six decimals, rounded to even. *)
Definition fmt_f (f : float) : string :=
  match Prim2SF f with
  | S754_zero s => (if s then "-" else "") +:+ "0.000000"
  | S754_infinity s => if s then "-Inf" else "+Inf"
  | S754_nan => "NaN"
  | S754_finite s m e =>
    let n := Z.pos m * 10 ^ 6 in
    let k := if 0 <=? e then n * 2 ^ e else
             let q := n / 2 ^ (- e) in
             let r := 2 * (n mod 2 ^ (- e)) in
             if (r <? 2 ^ (- e)) || ((r =? 2 ^ (- e)) && Z.even q) then q else q + 1 in
    let frac := Itoa (k mod 10 ^ 6) in
    (if s then "-" else "") +:+ Itoa (k / 10 ^ 6) +:+ "." +:+
    String.string_of_list_ascii (repeat "0"%char (6 - String.length frac)) +:+ frac
  end.
Definition ping_line (dstaddr : string) (cmd : PingCmd) : string :=
  "ping async " +:+ dstaddr +:+ " " +:+ Itoa (default 8 (pc_DataSize cmd)) +:+ " " +:+ Itoa (default 1 (pc_Count cmd)) +:+
  " " +:+ fmt_f (default 1%float (pc_Interval cmd)) +:+ " " +:+ Itoa (default 64 (pc_HopLimit cmd)).
Definition executePing (cmd : PingCmd) : CM () :=
  src ← getNode (pc_Src cmd);
  match src with
  | None => errorf "src node not found"
  | Some _ =>
    dst ← match pc_Dst cmd with
          | None => mret (inr (pc_DstAddr cmd))
          | Some sel =>
            dst ← getNode sel;
            match dst with
            | None => mret (inl "dst node not found")
            | Some _ =>
              addrs ← getAddrs (ns_Id sel) (pc_AddrType cmd);
              mret (match addrs with [] => inl "dst addr not found" | a :: _ => inr a end)
            end
          end;
    match dst with
    | inl e => errorf e
    | inr dstaddr =>
      _ ← when (default 8 (pc_DataSize cmd) <? 4) (warnf "ping with datasize < 4 is ignored by OT-NS statistics code");
      _ ← node_cmd (ns_Id (pc_Src cmd)) (fun env => SimNode.Command (ping_line dstaddr cmd));
      mret tt
    end
  end.

(** Failures of the radio. *)
Definition radioOne (action : RadioAction) (nodeId : NodeId) : CM () :=
  node ← getNodeById nodeId;
  match node with
  | None => errorf (not_found nodeId)
  | Some _ =>
    match action with
    | RadioOn => on_disp (SetNodeFailed nodeId false)
    | RadioOff => on_disp (SetNodeFailed nodeId true)
    | RadioFailTime dur itv =>
      if ((dur >? 0) && (itv >? dur))%gf then
        on_disp (on_dnode nodeId (fun l => Dispatcher.SetFailTime l
          (mkFailTime (uint64_of (dur * 1000000)%float) (uint64_of (itv * 1000000)%float))))
      else if (itv <=? dur)%gf then errorf "ft parameter: fail-duration must be < fail-interval"
      else on_disp (on_dnode nodeId (fun l => Dispatcher.SetFailTime l NonFailTime))
    end
  end.
Definition executeRadio (nodes : list NodeSelector) (action : RadioAction) : CM () :=
  ids ← expand nodes; for_each ids (radioOne action).

(** ** Lists *)
Definition executeLsNodes : CM () :=
  s ← get_sim;
  for_each (GetNodes s) (fun id =>
    n ← lift (deref (s_nodes s !! id));
    l ← lift (deref (d_nodes (s_d s) !! id));
    dn ← lift (deref (d_store (s_d s) !! l));
    out (ONode id (nc_Type (sn_cfg n.2)) dn (nc_ExecutablePath (sn_cfg n.2)))).
Definition disp_nodes (s : Sim M) : res (list Node) :=
  mapM (fun l => deref (d_store (s_d s) !! l)) (d_nodesArray (s_d s)).
Definition executeLsPartitions : CM () :=
  s ← get_sim;
  nodes ← lift (disp_nodes s);
  let pars := foldl (fun (m : gmap Z (list NodeId)) n =>
    <[n_PartitionId n := (default [] (m !! n_PartitionId n) ++ [n_Id n])%list]> m) ∅ nodes in
  for_each (range_map _ pars) (fun '(parid, ids) => out (OPartition parid ids)).

(** What every node of the dispatcher has collected. *)
Fixpoint collect_all {A} (f : nat -> st (Dispatcher M) (list A)) (ls : list nat) (acc : gmap NodeId (list A)) :
    CM (gmap NodeId (list A)) :=
  match ls with
  | [] => mret acc
  | l :: ls =>
    s ← get_sim;
    n ← lift (deref (d_store (s_d s) !! l));
    xs ← on_disp (f l);
    collect_all f ls (match xs with [] => acc | _ => <[n_Id n:=xs]> acc end)
  end.
Definition executeCollect {A} (f : nat -> st (Dispatcher M) (list A)) (row : NodeId -> A -> CmdOut) : CM () :=
  s ← get_sim;
  all ← collect_all f (d_nodesArray (s_d s)) ∅;
  for_each (range_map _ all) (fun '(id, xs) => for_each xs (fun x => out (row id x))).
Definition executeCollectPings : CM () := executeCollect Dispatcher.CollectPings OPing.
Definition executeCollectJoins : CM () := executeCollect Dispatcher.CollectJoins OJoin.
Definition executeCounters : CM () := s ← get_sim; out (OCounters (d_Counters (s_d s))).
Definition executeTime : CM () := s ← get_sim; outputln (Itoa (d_CurTime (s_d s))).
Definition executeCoaps (enable : bool) : CM () :=
  if enable then on_disp EnableCoaps else
  ms ← on_disp (CollectCoapMessages true); out (OCoaps (default [] ms)).
Definition executeEnergy (save : bool) (name : string) : CM () :=
  if save then
    s ← get_sim;
    e ← lift (deref (d_energyAnalyser (s_d s)));
    out (OEnergy (SaveEnergyDataToFile name (d_CurTime (s_d s)) e))
  else _ ← outputln "energy <command>"; outputln (String "009"%char "" +:+ "save [output name]").

(** ** What the visualizer shows *)
Definition executeDemoLegend (title : string) (x y : Z) : CM () := on_disp (vis (VisShowDemoLegend x y title)).
(** The duration is in nanoseconds; the visualizer shows milliseconds. *)
Definition executeCountDown (seconds : Z) (text : option string) : CM () :=
  on_disp (vis (VisCountDown (Z.quot (to_signed 64 (seconds * 1000000000)) 1000000) (default "%v" text))).
Definition SetTitleInfo (titleInfo : TitleInfo) : SM () :=
  _ ← on_d (vis (VisSetTitle titleInfo)); on_d (mod_energy (Energy.SetTitle (ti_Title titleInfo))).
Definition executeTitle (title : string) (x y fontSize : option Z) : CM () :=
  let info := DefaultTitleInfo in
  on_sim (SetTitleInfo (mkTitleInfo title (default (ti_X info) x) (default (ti_Y info) y) (default (ti_FontSize info) fontSize))).
Definition SetNetworkInfo (networkInfo : NetworkInfo) : SM () :=
  _ ← modify (set_networkInfo networkInfo); on_d (vis (VisSetNetworkInfo networkInfo)).
Definition executeNetInfo (version commit : option string) : CM () :=
  on_sim (s ← get;
    let netinfo := s_networkInfo s in
    SetNetworkInfo (mkNetworkInfo (ni_Real netinfo) (default (ni_Version netinfo) version) (default (ni_Commit netinfo) commit)
      (ni_NodeId netinfo) (ni_ThreadVersion netinfo))).

(** ** Settings *)
Definition executeAutoGo (val : option bool) : CM () :=
  s ← get_sim;
  match val with
  | None => outputln (if ag_autoGo (s_auto s) then "1" else "0")
  | Some yes =>
    if cf_Realtime (s_cfg s) && negb yes then errorf "cannot set 'autogo' to false in -realtime mode"
    else on_sim (update (fun s => a ← SetAutoGo yes (s_auto s); Ok (set_auto a s)))
  end.
(** [Simulation.SetSpeed] *)
Definition SetSpeed (speed : float) : SM () :=
  s ← get; on_d (Dispatcher.SetSpeed (if cf_Realtime (s_cfg s) then 1%float else speed)).
Definition executeSpeed (max : bool) (speed : option float) : CM () :=
  s ← get_sim;
  match max, speed with
  | false, None => out (OFloat (d_speed (s_d s)))
  | true, _ => on_sim (SetSpeed MaxSimulateSpeed)
  | false, Some speed => on_sim (SetSpeed speed)
  end.
(** ** Simulating a period *)
Definition serve_steps (l : steps) : SM () := for_each l (fun x => serve (fst x) (snd x)).
(** [Simulation.GoAtSpeed] and [Simulation.Go], called in a task: the request waits in a channel
    for one; the sender is the goroutine that reads it. *)
Definition GoAtSpeed (queued : bool) (duration : Z) (speed : float) : SM () :=
  _ ← lift (assert_true (PrimFloat.ltb 0 speed));
  _ ← lift (assert_true ((PrimFloat.leb 0 speed || PrimFloat.eqb speed DefaultDispatcherSpeed) && (duration >=? 0)));
  if queued then panics Blocked else mret tt.
Definition Go (queued : bool) (duration : Z) : SM () :=
  _ ← lift (assert_true (duration >=? 0));
  if queued then panics Blocked else mret tt.
(** The period: [Dispatcher.Run] with the loop of [goSimulateForDuration] as a sequence of steps. *)
Definition run_period (durationUs : Z) (speed : float) (w : GoWait) : SM () :=
  _ ← serve_steps (gw_before w);
  s ← get;
  _ ← lift (assert_true (d_CurTime (s_d s) =? d_pauseTime (s_d s)));
  postSpeed ← on_d (goBegin durationUs speed);
  _ ← serve_steps (gw_during w);
  _ ← on_d (goEnd speed postSpeed);
  s ← get;
  _ ← lift (assert_true (d_CurTime (s_d s) =? d_pauseTime (s_d s)));
  _ ← on_d (syncAllNodes (fun _ => mret false) []);
  for_each (gw_events w) (fun x => serve (fst x) (REvent (snd x))).
Definition go_duration (time : string) : option Z :=
  match ParseDuration time with Some d => Some d | None => ParseDuration (time +:+ "s") end.
Definition go_speed (speed : option float) (s : Sim M) : float :=
  let speed := match speed with Some v => v | None => if ag_autoGo (s_auto s) then MaxSimulateSpeed else d_speed (s_d s) end in
  if PrimFloat.eqb speed 0 then MaxSimulateSpeed else speed.
(** go ever ends when the program does. *)
Definition executeGo (time : string) (ever : bool) (speed : option float) : CM () :=
  s ← get_sim;
  let speed := go_speed speed s in
  let k := length (d_out (s_d s)) in
  if (ever : bool) then
    _ ← for_each (go_waits k) (fun w =>
          _ ← on_sim (SetSpeed speed);
          _ ← on_sim (Go (go_queued k) Hour);
          on_sim (run_period (Z.quot Hour Microsecond) DefaultDispatcherSpeed w));
    modify (set_stopping true)
  else
    match go_duration time with
    | None => errorf ("could not parse time duration: " +:+ time)
    | Some duration =>
      _ ← on_sim (GoAtSpeed (go_queued k) duration speed);
      match go_waits k with
      | w :: _ => on_sim (run_period (Z.quot duration Microsecond) speed w)
      | [] => panics Blocked
      end
    end.

(** ** The radio model *)
Definition executeRadioModel (model : string) : CM () :=
  s ← get_sim;
  if String.eqb model "" then outputln (rm_GetName (rs_model (d_radio (s_d s))))
  else
    r ← get;
    m ← on_disp (ReplaceRadioModel model (model_seed (cr_models r)));
    match m with
    | Some m => _ ← modify (fun r => set_models (S (cr_models r)) r); outputln (rm_GetName m)
    | None => errorf ("radiomodel '" +:+ model +:+ "' is not defined")
    end.
(** The fields of [RadioModelParams] by name: their values, and their assignment. *)
Definition radio_params (p : RadioModelParams) : list (string * (float + bool)) := [
  ("MeterPerUnit", inl (MeterPerUnit p)); ("IsDiscLimit", inr (IsDiscLimit p)); ("RssiMinDbm", inl (RssiMinDbm p));
  ("RssiMaxDbm", inl (RssiMaxDbm p)); ("ExponentDb", inl (ExponentDb p)); ("FixedLossDb", inl (FixedLossDb p));
  ("NlosExponentDb", inl (NlosExponentDb p)); ("NlosFixedLossDb", inl (NlosFixedLossDb p)); ("NoiseFloorDbm", inl (NoiseFloorDbm p));
  ("SnrMinThresholdDb", inl (SnrMinThresholdDb p)); ("ShadowFadingSigmaDb", inl (ShadowFadingSigmaDb p));
  ("TimeFadingSigmaMaxDb", inl (TimeFadingSigmaMaxDb p)); ("MeanTimeFadingChange", inl (MeanTimeFadingChange p))].
Definition set_radio_param (name : string) (v : float) (p : RadioModelParams) : RadioModelParams :=
  let f n old := if String.eqb name n then v else old in
  mkRadioModelParams (f "MeterPerUnit" (MeterPerUnit p)) (if String.eqb name "IsDiscLimit" then PrimFloat.ltb 0 v else IsDiscLimit p)
    (f "RssiMinDbm" (RssiMinDbm p)) (f "RssiMaxDbm" (RssiMaxDbm p)) (f "ExponentDb" (ExponentDb p)) (f "FixedLossDb" (FixedLossDb p))
    (f "NlosExponentDb" (NlosExponentDb p)) (f "NlosFixedLossDb" (NlosFixedLossDb p)) (f "NoiseFloorDbm" (NoiseFloorDbm p))
    (f "SnrMinThresholdDb" (SnrMinThresholdDb p)) (f "ShadowFadingSigmaDb" (ShadowFadingSigmaDb p))
    (f "TimeFadingSigmaMaxDb" (TimeFadingSigmaMaxDb p)) (f "MeanTimeFadingChange" (MeanTimeFadingChange p)).
(** Whether a parameter has a value; one that has not is shown as undefined. *)
Definition param_defined (v : float + bool) : bool :=
  match v with inl f => negb (PrimFloat.eqb f UndefinedValue) | inr _ => true end.
Definition param_changes (old : float + bool) (v : float) : bool :=
  match old with inl f => negb (PrimFloat.eqb f v) | inr b => negb (Bool.eqb b (PrimFloat.ltb 0 v)) end.
Definition executeRadioParam (param sign : string) (val : option float) : CM () :=
  s ← get_sim;
  let rp := rm_GetParameters (rs_model (d_radio (s_d s))) in
  if String.eqb param "" then
    for_each (radio_params rp) (fun x => when (param_defined (snd x)) (out (OParam (fst x) (snd x))))
  else
    match list_find (fun x => x.1 = param) (radio_params rp) with
    | None => errorf ("unknown radiomodel parameter: " +:+ param)
    | Some (_, (_, old)) =>
      match val with
      | None => if param_defined old then out (OParam "" old) else outputln "undefined"
      | Some newVal =>
        let newVal := if String.eqb sign "-" then PrimFloat.opp newVal else newVal in
        on_disp (radio (modify_params (set_radio_param param newVal rp) (param_changes old newVal)))
      end
    end.
Definition MainTab : string := "visualize".
Definition EnergyTab : string := "energyViewer".
Definition StatsTab : string := "statsViewer".
(** The name of the tab is a pointer that is read without a check. *)
Definition executeWeb (tabName : option string) : CM () :=
  tab ← lift (deref tabName);
  let tabResource :=
    if String.eqb tab "" || String.eqb tab "main" then Some MainTab
    else if String.eqb tab "stats" then Some StatsTab
    else if String.eqb tab "energy" then Some EnergyTab
    else None in
  match tabResource with
  | None => errorf ("unrecognized web tab identifier: " +:+ tab)
  | Some tab => cc_error (OpenWeb tab)
  end.
Definition executePlr (val : option float) : CM () :=
  _ ← match val with Some plr => on_disp (SetGlobalPacketLossRatio plr) | None => mret tt end;
  s ← get_sim; out (OFloat (d_globalPacketLossRatio (s_d s))).
Definition onoroff (on : bool) : string := if on then "on" else "off".
Definition executeConfigVisualization (bro uni ack rtb ctb : option bool) : CM () :=
  s ← get_sim;
  let o := d_visOptions (s_d s) in
  let opts := mkVisOptions (default (vo_BroadcastMessage o) bro) (default (vo_UnicastMessage o) uni)
    (default (vo_AckMessage o) ack) (default (vo_RouterTable o) rtb) (default (vo_ChildTable o) ctb) in
  _ ← on_disp (SetVisualizationOptions opts);
  _ ← outputln ("bro=" +:+ onoroff (vo_BroadcastMessage opts));
  _ ← outputln ("uni=" +:+ onoroff (vo_UnicastMessage opts));
  _ ← outputln ("ack=" +:+ onoroff (vo_AckMessage opts));
  _ ← outputln ("rtb=" +:+ onoroff (vo_RouterTable opts));
  outputln ("ctb=" +:+ onoroff (vo_ChildTable opts)).
Definition executeDebug (echo : option string) (fail : bool) : CM () :=
  _ ← match echo with Some s => outputln s | None => mret tt end;
  when fail (errorf "debug failed").
Definition executeLogLevel (level : string) : CM () :=
  if String.eqb level "" then r ← get; s ← lift (GetLevelString (cr_logLevel r)); outputln s else
  let '(lev, err) := ParseLevelString level in
  if (err : bool) then errorf ("invalid log level string: " +:+ level) else modify (set_logLevel lev).
Definition executeKpi (operation filename : string) : CM () :=
  if String.eqb operation "" then
    s ← get_sim; outputln (if km_isRunning (s_kpiMgr s) then "on" else "off")
  else if String.eqb operation "start" then on_sim Start
  else if String.eqb operation "stop" then _ ← on_sim Stop; mret tt
  else if String.eqb operation "save" then
    if String.eqb filename "" then _ ← on_sim SaveDefaultFile; mret tt else _ ← on_sim (SaveFile filename); mret tt
  else mret tt.

Definition watchOne (nodeId : NodeId) : CM () :=
  node ← getNodeById nodeId;
  match node with None => errorf (not_found nodeId) | Some _ => on_disp (WatchNode nodeId) end.
Definition set_default_watch (level : string) : CM () :=
  let on := negb (String.eqb level "off") && negb (String.eqb level "none") in
  _ ← on_disp (modify (fun d => let c := d_cfg d in
        set_d_cfg (mkConfig (cfg_Realtime c) (cfg_DumpPackets c) (cfg_PcapEnabled c) on (cfg_PhyTxStats c) true (cfg_Speed c)) d));
  modify (set_watchLevel level).
Definition Spaced (ids : list NodeId) : string := Join (map Itoa ids) " ".
Definition executeWatch (dflt : string) (nodes : list NodeSelector) (level : string) : CM () :=
  let isDefault := negb (String.eqb dflt "") in
  let isLevel := negb (String.eqb level "") in
  if isLevel && (ParseLevelString level).2 then errorf ("invalid log level string: " +:+ level) else
  nodesToWatch ← expand nodes;
  let none := bool_decide (nodesToWatch = []) in
  s ← get_sim;
  r ← get;
  if none && negb isDefault && negb isLevel then outputln (Spaced (GetWatchingNodes (s_d s)))
  else if none && isDefault && isLevel then set_default_watch level
  else if none && isDefault then
    outputln (if cfg_DefaultWatchOn (d_cfg (s_d s)) then cr_DefaultWatchLevel r else "default")
  else if isDefault then errorf "watch: unsupported combination of command options"
  else for_each nodesToWatch watchOne.
Definition unwatchOne (nodeId : NodeId) : CM () :=
  node ← getNodeById nodeId;
  match node with None => warnf (not_found nodeId +:+ ", skipping") | Some _ => on_disp (UnwatchNode nodeId) end.
Definition executeUnwatch (nodes : list NodeSelector) : CM () :=
  nodesToUnwatch ← expand nodes;
  s ← get_sim;
  if bool_decide (nodesToUnwatch = []) then for_each (GetWatchingNodes (s_d s)) (fun n => on_disp (UnwatchNode n))
  else for_each nodesToUnwatch unwatchOne.

(** Executables. *)
Definition mod_exe (ec : ExecutableConfig) (s : Sim M) : Sim M :=
  let c := s_cfg s in
  set_s_cfg (mkSimConfig (cf_info c) (cf_Realtime c) (cf_AutoGo c) (cf_Speed c) (cf_DumpPackets c) (cf_NewNodeConfig c) (cf_NewNodeScripts c)
    ec (cf_ExeConfigDefault c)) s.
Definition SearchPathsString (ec : ExecutableConfig) : string :=
  let quoted sp := String "034"%char sp +:+ String "034"%char "" in
  "[" +:+ Join (map quoted (ex_SearchPaths ec)) ", " +:+ "]".
(** The executable for nodes of a type: its name in the output, its value, and setting it. *)
Definition exe_field (ty : string) (ec : ExecutableConfig) : option (string * string * (string -> ExecutableConfig)) :=
  let mk a b c d e f g := mkExe (ex_Version ec) a b c d e f g (ex_SearchPaths ec) in
  let '(ftd, mtd, br, otbr, matter, rcp, host) :=
    (ex_Ftd ec, ex_Mtd ec, ex_Br ec, ex_OtBr ec, ex_Matter ec, ex_Rcp ec, ex_RcpHost ec) in
  if existsb (String.eqb ty) ["ftd"; "router"; "reed"; "fed"] then
    Some ("ftd: ", ftd, fun p => mk p mtd br otbr matter rcp host)
  else if String.eqb ty "matter" then Some ("matter: ", matter, fun p => mk ftd mtd br otbr p rcp host)
  else if existsb (String.eqb ty) ["mtd"; "med"; "sed"; "ssed"] then
    Some ("mtd: ", mtd, fun p => mk ftd p br otbr matter rcp host)
  else if String.eqb ty "br" then Some ("br : ", br, fun p => mk ftd mtd p otbr matter rcp host)
  else if String.eqb ty "otbr" then Some ("otbr: ", otbr, fun p => mk ftd mtd br p matter rcp host)
  else if String.eqb ty "rcp" then Some ("rcp: ", rcp, fun p => mk ftd mtd br otbr matter p host)
  else if String.eqb ty "host" then Some ("host: ", host, fun p => mk ftd mtd br otbr matter rcp p)
  else None.
Definition exe_list : CM () :=
  s ← get_sim;
  let ec := cf_ExeConfig (s_cfg s) in
  let find p := FindExecutable (env := @os_fs (se_os (s_created s))) ec p in
  _ ← outputln ("ftd: " +:+ ex_Ftd ec);
  _ ← outputln ("mtd: " +:+ ex_Mtd ec);
  _ ← outputln ("br : " +:+ ex_Br ec);
  _ ← outputln ("otbr: " +:+ ex_OtBr ec);
  _ ← outputln ("matter: " +:+ ex_Matter ec);
  _ ← outputln ("rcp: " +:+ ex_Rcp ec);
  _ ← outputln ("host: " +:+ ex_RcpHost ec);
  _ ← outputln ("Executables search path: " +:+ SearchPathsString ec);
  _ ← outputln ("Detected FTD path      : " +:+ find (ex_Ftd ec));
  _ ← outputln ("Detected MTD path      : " +:+ find (ex_Mtd ec));
  _ ← outputln ("Detected BR path       : " +:+ find (ex_Br ec));
  _ ← outputln ("Detected OTBR path     : " +:+ find (ex_OtBr ec));
  _ ← outputln ("Detected Matter path   : " +:+ find (ex_Matter ec));
  _ ← outputln ("Detected RCP path      : " +:+ find (ex_Rcp ec));
  outputln ("Detected RCP Host path : " +:+ find (ex_RcpHost ec)).
Definition executeExe (nodeType : string) (setDefault : bool) (version path : string) : CM () :=
  s ← get_sim;
  let ec := cf_ExeConfig (s_cfg s) in
  let isSetVersion := negb (String.eqb version "") in
  let isSetPath := negb (String.eqb path "") in
  if negb (String.eqb nodeType "") then
    match exe_field nodeType ec with
    | Some (label, cur, set) =>
      _ ← when isSetPath (on_sim (modify (mod_exe (set path))));
      outputln (label +:+ if isSetPath then path else cur)
    | None => mret tt
    end
  else if setDefault && negb isSetPath && negb isSetVersion then
    _ ← on_sim (modify (mod_exe (cf_ExeConfigDefault (s_cfg s)))); exe_list
  else if isSetVersion && negb isSetPath then
    ec ← lift (SetVersion version (cf_ExeConfigDefault (s_cfg s)) ec);
    _ ← on_sim (modify (mod_exe ec)); exe_list
  else if negb setDefault && negb isSetVersion && negb isSetPath then exe_list
  else errorf "exe: unsupported combination of command options".

(** Radio parameters of nodes, or of the nodes to come. *)
Definition RfSimParamUnitsList : list string := ["dBm"; "dBm"; "PPM"; "10-us"; "%"; "PPM"; "bps"].
Definition pad_right (n : nat) (s : string) : string :=
  s +:+ String.string_of_list_ascii (repeat " "%char (n - String.length s)).
Definition param_rows : list (Z * string * string) := zip (zip RfSimParamsList RfSimParamNamesList) RfSimParamUnitsList.
Definition set_default_param (param value : Z) (s : Sim M) : Sim M :=
  let c := s_cfg s in
  let n := cf_NewNodeConfig c in
  set_s_cfg (mkSimConfig (cf_info c) (cf_Realtime c) (cf_AutoGo c) (cf_Speed c) (cf_DumpPackets c) {|
    nc_ID := nc_ID n; nc_Type := nc_Type n; nc_Version := nc_Version n; nc_X := nc_X n; nc_Y := nc_Y n; nc_Z := nc_Z n;
    nc_IsAutoPlaced := nc_IsAutoPlaced n; nc_IsRaw := nc_IsRaw n; nc_IsMtd := nc_IsMtd n; nc_IsRcp := nc_IsRcp n;
    nc_IsRouter := nc_IsRouter n; nc_IsBorderRouter := nc_IsBorderRouter n; nc_IsExternal := nc_IsExternal n;
    nc_RxOffWhenIdle := nc_RxOffWhenIdle n; nc_NodeLogFile := nc_NodeLogFile n; nc_RadioRange := nc_RadioRange n;
    nc_ExecutablePath := nc_ExecutablePath n; nc_HostExePath := nc_HostExePath n; nc_NetIfName := nc_NetIfName n;
    nc_Restore := nc_Restore n; nc_InitScript := nc_InitScript n; nc_RandomSeed := nc_RandomSeed n;
    nc_RfSimParams := <[param:=value]> (nc_RfSimParams n) |} (cf_NewNodeScripts c) (cf_ExeConfig c) (cf_ExeConfigDefault c)) s.
Fixpoint show_params (id : NodeId) (rows : list (Z * string * string)) : CM () :=
  match rows with
  | [] => mret tt
  | (p, name, unit) :: rows =>
    value ← node_cmd id (fun env => GetRfSimParam p);
    e ← node_cmd id (fun env => CommandResult);
    match e with
    | Some _ => cc_error e
    | None => _ ← outputln (pad_right 20 name +:+ " " +:+ Itoa value +:+ " (" +:+ unit +:+ ")"); show_params id rows
    end
  end.
Definition rfsim_node (id : NodeId) (param : string) (val : option Z) : CM () :=
  if String.eqb param "" then show_params id param_rows else
  let p := ParseRfSimParam param in
  if p =? ParamUnknown then errorf ("parameter '" +:+ param +:+ "' not found") else
  match val with
  | None => value ← node_cmd id (fun env => GetRfSimParam p); outputln (Itoa value)
  | Some v =>
    _ ← node_cmd id (fun env => SetRfSimParam p (to_signed 32 v));
    e ← node_cmd id (fun env => CommandResult); cc_error e
  end.
Definition rfsim_default (param : string) (val : option Z) : CM () :=
  s ← get_sim;
  let params := nc_RfSimParams (cf_NewNodeConfig (s_cfg s)) in
  if String.eqb param "" then
    for_each param_rows (fun '(p, name, unit) =>
      match params !! p with
      | Some value => outputln (pad_right 20 name +:+ " " +:+ Itoa value +:+ " (" +:+ unit +:+ ")")
      | None => mret tt
      end)
  else
  let p := ParseRfSimParam param in
  if p =? ParamUnknown then errorf ("parameter '" +:+ param +:+ "' not found") else
  match val with
  | None =>
    match params !! p with
    | Some value => outputln (Itoa value)
    | None => errorf ("parameter '" +:+ param +:+ "' was not set yet with a default value")
    end
  | Some v => on_sim (modify (set_default_param p (to_signed 32 v)))
  end.
Definition executeRfSim (setDefault : bool) (id : option NodeSelector) (param sign : string) (val : option Z) : CM () :=
  let val := (if String.eqb sign "-" then Z.opp else fun v => v) <$> val in
  match id with
  | Some sel =>
    node ← getNode sel;
    match node with None => errorf "node not found" | Some _ => rfsim_node (ns_Id sel) param val end
  | None =>
    if setDefault then rfsim_default param val
    else if negb (String.eqb param "") then errorf "missing <node-id> or 'default' argument"
    else for_each param_rows (fun '(_, name, unit) => outputln (pad_right 20 name +:+ " (" +:+ unit +:+ ")"))
  end.

(** ** Test traffic *)
Definition maxSendGroupId : Z := 1024.
(** A nil node object panics; the error of a node is kept and the next one is reset. *)
Definition resetOne (nodeId : NodeId) : CM () :=
  node ← getNodeById nodeId;
  n ← lift (deref node);
  e ← node_cmd nodeId (fun env => SendReset (range_groups (sn_sendGroupIds n)));
  cc_error e.
(** Make the destinations ready; whether all of them are. *)
Fixpoint joinGroup (isMulticast : bool) (ids : list NodeId) : CM bool :=
  match ids with
  | [] => mret true
  | nodeId :: ids =>
    dst ← getNodeById nodeId;
    match dst with
    | None => _ ← warnf ("destination " +:+ not_found nodeId +:+ ", skipping"); joinGroup isMulticast ids
    | Some _ =>
      e ← node_cmd nodeId (fun env => SendInit);
      match e with
      | Some e => _ ← errorf ("destination node " +:+ Itoa nodeId +:+ " send-init failed: " +:+ e); mret false
      | None =>
        r ← get;
        e ← (if isMulticast then node_cmd nodeId (fun env => SendGroupMembership (cr_sendGroupId r) true) else mret None);
        match e with Some _ => _ ← cc_error e; mret false | None => joinGroup isMulticast ids end
      end
    end
  end.
Definition nextGroup (isMulticast : bool) : CM bool :=
  if negb isMulticast then mret true else
  r ← get;
  if cr_sendGroupId r >=? maxSendGroupId then
    _ ← errorf ("'send' reached max multicast group ID " +:+ Itoa maxSendGroupId +:+ ", run 'send reset' to reset back to " +:+
                Itoa (cr_sendGroupId r));
    mret false
  else _ ← modify (set_groupId (cr_sendGroupId r + 1)); mret true.
Definition sendData (cmd : SendCmd) (dstAddr : string) : CM () :=
  let datasz := default 32 (sc_DataSize cmd) in
  e ← node_cmd (ns_Id (sc_SrcId cmd)) (fun env =>
        if String.eqb (sc_Protocol cmd) "udp" then UdpSendTestData dstAddr SendUdpPort datasz
        else CoapPostTestData dstAddr SendCoapResourceName (String.eqb (sc_ProtoParam cmd) "con") (randomString datasz));
  cc_error e.
(** The address that a message goes to.  For a single destination it is asked from the node
    that the loop over the destinations has found last. *)
Definition sendAddress (cmd : SendCmd) (isMulticast : bool) (ids : list NodeId) (first : NodeId) : CM (option string) :=
  if isMulticast then r ← get; mret (Some (SendMcastPrefix +:+ ":" +:+ fmt_x (cr_sendGroupId r))) else
  let id := default first (last ids) in
  dst ← getNodeById id;
  match dst with
  | None => mret None
  | Some _ => addrs ← getAddrs id (sc_AddrType cmd); mret (head addrs)
  end.
Definition executeSend (cmd : SendCmd) : CM () :=
  src ← getNode (sc_SrcId cmd);
  if String.eqb (sc_Protocol cmd) "reset" then
    _ ← when (negb (ns_All (sc_SrcId cmd))) (warnf "preferably use 'send reset all' to reset state on all nodes");
    ids ← expand [sc_SrcId cmd];
    _ ← for_each ids resetOne;
    modify (set_groupId 1)
  else match sc_DstId cmd with
  | [] => errorf "missing dest node ID parameter(s)"
  | sel :: _ =>
    dst ← getNode sel;
    ids ← expand (sc_DstId cmd);
    let isMulticast := bool_decide (1 < length ids)%nat in
    if negb (String.eqb (sc_Protocol cmd) "udp") && negb (String.eqb (sc_Protocol cmd) "coap") then
      errorf ("unsupported protocol: " +:+ sc_Protocol cmd)
    else match src with
    | None => errorf ("source " +:+ not_found (ns_Id (sc_SrcId cmd)))
    | Some _ =>
      if bool_decide (dst = None) && negb isMulticast then errorf ("destination " +:+ not_found (ns_Id sel)) else
      e ← node_cmd (ns_Id (sc_SrcId cmd)) (fun env => SendInit);
      match e with
      | Some e => errorf ("source node init failed: " +:+ e)
      | None =>
        ok ← nextGroup isMulticast;
        if negb ok then mret tt else
        ok ← joinGroup isMulticast ids;
        if negb ok then mret tt else
        addr ← sendAddress cmd isMulticast ids (ns_Id sel);
        match addr with
        | None => errorf "dst addr not found"
        | Some dstAddr => sendData cmd dstAddr
        end
      end
    end
  end.

(** ** Hosts *)
Definition executeHost (subCmd hostname : string) (ipAddr : option string) (port portMapped : Z) : CM () :=
  match ipAddr ≫= (fun a => match ParseAddr a with None => Some a | Some _ => None end) with
  | Some bad => errorf ("invalid IPv6 address argument: '" +:+ bad +:+ "'")
  | None =>
    let addr := default AddrZero (ipAddr ≫= ParseAddr) in
    if String.eqb subCmd "add" then
      if (port =? 0) || (portMapped =? 0) then errorf "invalid port argument(s)"
      else on_sim (on_hosts (AddHost (mkEndpoint hostname addr port portMapped)))
    else if String.eqb subCmd "del" then
      if String.eqb hostname "" then errorf "missing <hostname> or <ipaddr> argument" else
      let addr := default AddrZero (ParseAddr hostname) in
      s ← get_sim;
      for_each (range_hosts (sh_Hosts (s_simHosts s))) (fun h =>
        when (String.eqb hostname (se_HostName h) || bool_decide (addr = se_Ip6Addr h)) (on_sim (on_hosts (RemoveHost h))))
    else if String.eqb subCmd "list" then
      s ← get_sim;
      let sh := s_simHosts s in
      for_each (range_hosts (sh_Hosts sh)) (fun h => out (OHost h (GetRxBytes h sh) (GetTxBytes h sh)))
    else mret tt
  end.

(** ** Help *)
Definition executeHelp (topic : string) : CM () :=
  let help := newHelp cliHelpFile term_width in
  outputStr (if String.eqb topic "" then outputGeneralHelp WrapString help else outputCommandHelp WrapString term_width topic help).

(** ** Dispatch *)
Definition run_command (cmd : Command) : CM () :=
  match cmd with
  | CmdMove target x y z => executeMoveNode target x y z
  | CmdRadio nodes action => executeRadio nodes action
  | CmdNodes => executeLsNodes
  | CmdPartitions => executeLsPartitions
  | CmdAdd c => executeAddNode c
  | CmdDel nodes => executeDelNode nodes
  | CmdPing c => executePing c
  | CmdNode node command => executeNode node command
  | CmdCountDown seconds text => executeCountDown seconds text
  | CmdPlr val => executePlr val
  | CmdPings => executeCollectPings
  | CmdCounters => executeCounters
  | CmdJoins => executeCollectJoins
  | CmdCoaps enable => executeCoaps enable
  | CmdScan node => executeScan node
  | CmdConfigVisualization bro uni ack rtb ctb => executeConfigVisualization bro uni ack rtb ctb
  | CmdDebug echo fail => executeDebug echo fail
  | CmdTitle title x y fontSize => executeTitle title x y fontSize
  | CmdDemoLegend title x y => executeDemoLegend title x y
  | CmdExit => executeExit
  | CmdNetInfo version commit => executeNetInfo version commit
  | CmdRfSim setDefault id param sign val => executeRfSim setDefault id param sign val
  | CmdEnergy save name => executeEnergy save name
  | CmdLogLevel level => executeLogLevel level
  | CmdWatch default nodes level => executeWatch default nodes level
  | CmdUnwatch nodes => executeUnwatch nodes
  | CmdSpeed max speed => executeSpeed max speed
  | CmdGo time ever speed => executeGo time ever speed
  | CmdRadioModel model => executeRadioModel model
  | CmdRadioParam param sign val => executeRadioParam param sign val
  | CmdWeb tabName => executeWeb tabName
  | CmdTime => executeTime
  | CmdHelp topic => executeHelp topic
  | CmdExe nodeType setDefault version path => executeExe nodeType setDefault version path
  | CmdAutoGo val => executeAutoGo val
  | CmdKpi operation filename => executeKpi operation filename
  | CmdLoad filename add => executeLoad filename add
  | CmdSave filename => executeSave filename
  | CmdSend c => executeSend c
  | CmdHost subCmd hostname ipAddr port portMapped => executeHost subCmd hostname ipAddr port portMapped
  end.
(** The end of every answer. *)
Definition CommandInterruptedError : string := "command interrupted due to simulation exit".
Definition is_exit (cmd : Command) : bool := match cmd with CmdExit => true | _ => false end.
Definition finish (cmd : Command) : CM () :=
  r ← get;
  if cr_stopping r && negb (is_exit cmd) then outputErr CommandInterruptedError else
  match cc_err (cr_cc r) with
  | Some e => outputErr e
  | None => when (negb (cc_isBackgroundCmd (cr_cc r))) (outputln "Done")
  end.
Definition execute (cmd : Command) : CM () :=
  _ ← modify (set_cc (mkCC None [] (isBackgroundCommand cmd)));
  _ ← run_command cmd;
  finish cmd.

Definition RunCommand (cmdline : string) : CM () :=
  let cmdline := match cmdline with
    | String c (String _ _ as rest) => if Ascii.eqb c "!"%char then rest else cmdline
    | _ => cmdline
    end in
  match parseBytes cmdline with
  | inl e => _ ← modify (set_cc (mkCC None [] false)); outputStr ("Error: " +:+ e +:+ nl)
  | inr cmd => execute cmd
  end.
Definition HandleCommand (cmdline : string) : CM () :=
  r ← get;
  if negb (cr_contextNodeId r =? InvalidNodeId) && negb (isContextlessCommand cmdline)
  then execute (CmdNode (mkSelector (cr_contextNodeId r) false 0) (Some cmdline))
  else RunCommand cmdline.
Definition GetPrompt (r : CmdRunner M) : string :=
  if cr_contextNodeId r =? InvalidNodeId then "> " else "node " +:+ Itoa (cr_contextNodeId r) +:+ "> ".
Definition NewCmdRunner (s : Sim M) (logLevel : Z) (watchLevel : string) : CmdRunner M :=
  mkRunner s InvalidNodeId 0 logLevel watchLevel false 1 (mkCC None [] false).

(** What happens: a line of the user, or something else in the simulation.  [waits] is what
    arrives meanwhile. *)
Definition on_line (waits : list (list Event)) (cmdline : string) : CM () :=
  _ ← on_sim (modify (set_waits waits)); HandleCommand cmdline.
Inductive cli_reachable (cfg : SimConfig) (dispatcherCfg : Config) (model : M) (rnd : nat) : CmdRunner M -> Prop :=
| cl_new s logLevel watchLevel :
    NewSimulation cfg dispatcherCfg model rnd = Ok s ->
    cli_reachable cfg dispatcherCfg model rnd (NewCmdRunner s logLevel watchLevel)
| cl_line waits cmdline r r' :
    cli_reachable cfg dispatcherCfg model rnd r -> cr_stopping r = false -> on_line waits cmdline r = Ok (tt, r') ->
    cli_reachable cfg dispatcherCfg model rnd r'
| cl_serve waits q r r' :
    cli_reachable cfg dispatcherCfg model rnd r -> cr_stopping r = false -> on_sim (serve waits q) r = Ok (tt, r') ->
    cli_reachable cfg dispatcherCfg model rnd r'.
End runner.
