(* ===== verification/CmdRunnerLaws.v ===== *)
(** * What commands do

    The theorems about [CmdRunner]: commands keep the simulation and the dispatcher
    consistent, [del] and [load add] do what they should, and how answers end. *)

From Stdlib Require Import Ascii.
From stdpp Require Import pretty.
From S2P Require Import Prelude State Types Event GoFloat GoStrings GoText SafePath Datagram.
From S2P Require Import SendQueue AlarmMgr Energy Visualize DNode RadioNode RadioModel RadioLaws Dispatcher DispatcherIndex DispatcherNodes DispatcherVis.
From S2P Require Import NodeConfig Uart SimNode Logger NodeProcess SimHosts Simulation Coaps Kpi Lifecycle LifecycleLaws.
From S2P Require Import CliSelect Help CmdRunner.

Local Open Scope string_scope.
Local Open Scope Z_scope.

(** ** Consistency *)
Section consistency.
Context {env : CmdEnv} {M : Type} `{!RadioModel M} `{!RadioModelLaws M}.
Implicit Types r : CmdRunner M.

(** The simulation and the dispatcher agree, and the runner's own fields are in range. *)
Record cli_ok r : Prop := {
  ck_sim : inv ∅ ∅ (cr_sim r);
  ck_group : 0 <= cr_sendGroupId r <= maxSendGroupId;
  ck_context : InvalidNodeId <= cr_contextNodeId r;
}.
Abbreviation sim_ok := (inv (M := M) ∅ ∅).

Lemma ck_on_sim {A} (m : st (Sim M) A) : preserves sim_ok m -> preserves cli_ok (on_sim m).
Proof.
  intros H r a r' [H1 H2 H3] E. unfold on_sim in E. apply bind_st_Ok in E as (? & ? & [<- <-]%get_st_Ok & E).
  apply bind_st_Ok in E as ([b s] & ? & [Em <-]%lift_st_Ok & E). apply bind_st_Ok in E as ([] & r1 & <-%modify_st_Ok & E).
  apply ret_st_Ok in E as [_ <-]. split; [by eapply H|done|done].
Qed.
Lemma ck_modify f :
  (forall r, cr_sim (f r) = cr_sim r /\ cr_sendGroupId (f r) = cr_sendGroupId r /\ cr_contextNodeId (f r) = cr_contextNodeId r) ->
  preserves cli_ok (modify f).
Proof. intros H. apply hoare_modify. intros r [H1 H2 H3]. destruct (H r) as (E1 & E2 & E3). split; congruence. Qed.
#[local] Hint Extern 3 (hoare cli_ok (modify _) _) => apply ck_modify; intros ?; repeat split : hoare.
Lemma ck_mod_cc f : preserves cli_ok (mod_cc f).
Proof. unfold mod_cc. pres. Qed.
#[local] Hint Resolve ck_mod_cc : hoare.
Lemma ck_out o : preserves cli_ok (out o).
Proof. unfold out. pres. Qed.
#[local] Hint Resolve ck_out : hoare.
Lemma ck_outputStr s : preserves cli_ok (outputStr s).
Proof. apply ck_out. Qed.
Lemma ck_outputln s : preserves cli_ok (outputln s).
Proof. apply ck_out. Qed.
Lemma ck_outputErr s : preserves cli_ok (outputErr s).
Proof. apply ck_out. Qed.
Lemma ck_warnf s : preserves cli_ok (warnf s).
Proof. apply ck_out. Qed.
#[local] Hint Resolve ck_outputStr ck_outputln ck_outputErr ck_warnf : hoare.
Lemma ck_outputStrArray l p : preserves cli_ok (outputStrArray l p).
Proof. unfold outputStrArray. pres. Qed.
Lemma ck_cc_error e : preserves cli_ok (cc_error e).
Proof. unfold cc_error. pres. Qed.
#[local] Hint Resolve ck_outputStrArray ck_cc_error : hoare.
Lemma ck_errorf e : preserves cli_ok (errorf e).
Proof. apply ck_cc_error. Qed.
Lemma ck_get_sim : preserves cli_ok get_sim.
Proof. apply pres_gets. Qed.
#[local] Hint Resolve ck_errorf ck_get_sim : hoare.
Lemma ck_getNodeById id : preserves cli_ok (getNodeById id).
Proof. unfold getNodeById. pres. Qed.
#[local] Hint Resolve ck_getNodeById : hoare.
Lemma ck_getNode sel : preserves cli_ok (getNode sel).
Proof. apply ck_getNodeById. Qed.
Lemma ck_expand nss : preserves cli_ok (expand nss).
Proof. unfold expand. pres. Qed.
Lemma ck_node_cmd {A} id (m : CliEnv -> st SimNode A) : preserves cli_ok (node_cmd id m).
Proof. apply ck_on_sim, ok_on_node. Qed.
Lemma ck_enterNodeContext id : preserves cli_ok (enterNodeContext id).
Proof.
  unfold enterNodeContext. intros r a r' H E. apply bind_st_Ok in E as ([] & ? & [Ha <-]%lift_st_Ok & E).
  apply bind_st_Ok in E as (? & ? & [<- <-]%get_st_Ok & E). destruct (cr_contextNodeId r =? id).
  - by apply ret_st_Ok in E as [_ <-].
  - apply bind_st_Ok in E as ([] & r1 & <-%modify_st_Ok & E). apply ret_st_Ok in E as [_ <-].
    destruct H as [H1 H2 H3]. split; [done|done|]. cbn. unfold assert_true in Ha.
    destruct (Z.geb_spec id InvalidNodeId); [done|discriminate].
Qed.
#[local] Hint Resolve ck_getNode ck_expand ck_node_cmd ck_enterNodeContext : hoare.

(** *** Operations of the dispatcher *)
Lemma ck_on_disp {A} (m : st (Dispatcher M) A) :
  preserves vw m -> (forall v, preserves (fun d => d_nodes d = v) m) -> preserves cli_ok (on_disp m).
Proof. intros H1 H2. by apply ck_on_sim, ok_on_d. Qed.
Lemma ck_task t : plain_task t = true -> preserves cli_ok (on_disp (run_task (fun _ => mret false) t)).
Proof. intros H. by apply ck_on_sim, ok_plain_task. Qed.
Lemma ck_SetNodeFailed id b : preserves cli_ok (on_disp (SetNodeFailed id b)).
Proof. apply (ck_task (TaskSetNodeFailed id b) eq_refl). Qed.
Lemma ck_plr plr : preserves cli_ok (on_disp (SetGlobalPacketLossRatio plr)).
Proof. apply (ck_task (TaskSetGlobalPacketLossRatio plr) eq_refl). Qed.
Lemma ck_speed f : preserves cli_ok (on_sim (SetSpeed f)).
Proof.
  assert (forall f, preserves sim_ok (on_d (Dispatcher.SetSpeed f : st (Dispatcher M) ()))) as H.
  { intros f'. apply (ok_plain_task (TaskSetSpeed f') eq_refl). }
  apply ck_on_sim. unfold SetSpeed. pres.
Qed.
Lemma ck_vis opts : preserves cli_ok (on_disp (SetVisualizationOptions opts)).
Proof. apply (ck_task (TaskSetVisualizationOptions opts) eq_refl). Qed.
Lemma ck_watch id : preserves cli_ok (on_disp (WatchNode id)).
Proof. apply (ck_task (TaskWatchNode id) eq_refl). Qed.
Lemma ck_unwatch id : preserves cli_ok (on_disp (UnwatchNode id)).
Proof. apply (ck_task (TaskUnwatchNode id) eq_refl). Qed.
Lemma ck_coaps : preserves cli_ok (on_disp EnableCoaps).
Proof. apply ck_on_sim, ok_EnableCoaps. Qed.
Lemma ck_collectCoaps b : preserves cli_ok (on_disp (CollectCoapMessages b)).
Proof. apply ck_on_sim, ok_CollectCoaps. Qed.
Lemma ck_pings l : preserves cli_ok (on_disp (Dispatcher.CollectPings l)).
Proof.
  apply ck_on_disp; [apply vw_CollectPings|apply fx_quiet, si_CollectPings].
Qed.
Lemma ck_joins l : preserves cli_ok (on_disp (Dispatcher.CollectJoins l)).
Proof.
  apply ck_on_disp; [apply vw_CollectJoins|apply fx_quiet, si_CollectJoins].
Qed.
Lemma ck_failTime id ft : preserves cli_ok (on_disp (on_dnode id (fun l => Dispatcher.SetFailTime l ft))).
Proof.
  apply ck_on_disp; [apply vw_SetFailTime_deref|]. intros v. unfold on_dnode, lookup_node. pres. apply fx_quiet, si_SetFailTime.
Qed.
Lemma ck_disp_cfg f : preserves cli_ok (on_disp (modify (fun d => set_d_cfg (f d) d))).
Proof.
  apply ck_on_disp; [|intros v; by apply hoare_modify]. by apply vw_field.
Qed.
#[local] Hint Resolve ck_SetNodeFailed ck_speed ck_plr ck_vis ck_watch ck_unwatch ck_coaps ck_collectCoaps ck_pings ck_joins ck_failTime : hoare.

(** *** Operations of the simulation *)
Abbreviation same_parts f := (forall s : Sim M, s_d (f s) = s_d s /\ s_nodes (f s) = s_nodes s /\
  ni_NodeId (s_networkInfo (f s)) = ni_NodeId (s_networkInfo s)) (only parsing).
Lemma sim_modify f : same_parts f -> preserves sim_ok (modify f).
Proof. intros H. apply ok_pres. intros. by apply has_modify. Qed.
Lemma ck_sim_modify f : same_parts f -> preserves cli_ok (on_sim (modify f)).
Proof. intros H. by apply ck_on_sim, sim_modify. Qed.
#[local] Hint Extern 3 (hoare cli_ok (on_sim (modify _)) _) => apply ck_sim_modify; intros ?; repeat split : hoare.
Lemma ok_finalize cfg : preserves sim_ok (NodeConfigFinalize cfg).
Proof. unfold NodeConfigFinalize, genId. pres. Qed.
Lemma ok_add cfg : preserves sim_ok (add_node cfg).
Proof. unfold add_node. apply pres_bind; [apply pres_get|]. intros s. apply AddNode_inv. Qed.
#[local] Hint Resolve ok_finalize ok_add : hoare.
Lemma ok_import_loop nw nodes b : preserves sim_ok (import_loop nw nodes b).
Proof. revert b. induction nodes as [|n nodes IH]; intros b; cbn [import_loop]; pres. Qed.
#[local] Hint Resolve ok_import_loop : hoare.
Lemma ok_Import nw nodes : preserves sim_ok (ImportNodes nw nodes).
Proof. unfold ImportNodes. pres. Qed.
Lemma ok_SetAuto b : preserves sim_ok (update (fun s => a ← SetAutoGo b (s_auto s); Ok (set_auto a s))).
Proof. apply hoare_update. intros s s' (S & HS & H) E. apply bind_Ok in E as (a & _ & [= <-]). by exists S. Qed.
Lemma ok_hosts m : preserves sim_ok (on_hosts m).
Proof. apply ok_pres. intros. apply has_on_hosts. Qed.
Lemma ck_finalize cfg : preserves cli_ok (on_sim (NodeConfigFinalize cfg)).
Proof. apply ck_on_sim, ok_finalize. Qed.
Lemma ck_add cfg : preserves cli_ok (on_sim (add_node cfg)).
Proof. apply ck_on_sim, ok_add. Qed.
Lemma ck_Delete id : preserves cli_ok (on_sim (DeleteNode id)).
Proof. apply ck_on_sim, ok_DeleteNode. Qed.
Lemma ck_Import nw nodes : preserves cli_ok (on_sim (ImportNodes nw nodes)).
Proof. apply ck_on_sim, ok_Import. Qed.
Lemma ck_Move id x y z : preserves cli_ok (on_sim (MoveNodeTo id x y z)).
Proof. apply ck_on_sim, ok_MoveNodeTo. Qed.
Lemma ck_SetAuto b : preserves cli_ok (on_sim (update (fun s => a ← SetAutoGo b (s_auto s); Ok (set_auto a s)))).
Proof. apply ck_on_sim, ok_SetAuto. Qed.
Lemma ck_hosts m : preserves cli_ok (on_sim (on_hosts m)).
Proof. apply ck_on_sim, ok_hosts. Qed.
#[local] Hint Resolve ck_finalize ck_add ck_Delete ck_Import ck_Move ck_SetAuto ck_hosts : hoare.
Lemma ck_kpi_start : preserves cli_ok (on_sim Start).
Proof. apply ck_on_sim, ok_Start. Qed.
Lemma ck_kpi_stop : preserves cli_ok (on_sim Stop).
Proof. apply ck_on_sim, ok_Stop. Qed.
Lemma ck_kpi_save b : preserves cli_ok (on_sim (SaveFile b)).
Proof. apply ck_on_sim, ok_SaveFile. Qed.
Lemma ck_kpi_default : preserves cli_ok (on_sim SaveDefaultFile).
Proof. apply ck_on_sim, ok_SaveDefaultFile. Qed.
#[local] Hint Resolve ck_kpi_start ck_kpi_stop ck_kpi_save ck_kpi_default : hoare.

(** *** Calls to the visualizer *)
Lemma ok_vis_call c : call_node c = None -> (forall id cfg, c <> VisAddNode id cfg) -> (forall id, c <> VisDeleteNode id) ->
  preserves sim_ok (on_d (vis c)).
Proof. intros Hc Ha Hl. apply ok_pres. intros. apply has_vis; [done|done|]. by rewrite Hc. Qed.
Lemma ck_vis_call c : call_node c = None -> (forall id cfg, c <> VisAddNode id cfg) -> (forall id, c <> VisDeleteNode id) ->
  preserves cli_ok (on_disp (vis c)).
Proof. intros. by apply ck_on_sim, ok_vis_call. Qed.
Lemma ck_title t x y s : preserves cli_ok (executeTitle t x y s).
Proof.
  apply ck_on_sim. unfold SetTitleInfo. apply pres_bind; [by apply ok_vis_call|]. intros _.
  apply ok_on_d; [apply vw_mod_energy|]. intros v. apply fx_quiet, si_mod_energy.
Qed.
Lemma ck_netinfo v c : preserves cli_ok (executeNetInfo v c).
Proof.
  apply ck_on_sim. intros s u s' Hs E. apply bind_st_Ok in E as (? & ? & [<- <-]%get_st_Ok & E).
  unfold SetNetworkInfo in E. apply bind_st_Ok in E as ([] & s1 & <-%modify_st_Ok & E).
  destruct (proj1 (ok_agree s) Hs) as [[_ Hn] _].
  refine (hoare_run sim_ok _ _ _ _ E _ _); [|apply ok_vis_call; [cbn; by rewrite Hn|done|done]].
  destruct Hs as (S & (HG & HD) & HR). exists S. split; [|exact HR]. split; [|exact HD]. by destruct HG.
Qed.

(** *** Commands *)
Lemma ck_first_addrs id kinds ty : preserves cli_ok (first_addrs id kinds ty).
Proof. induction kinds as [|[t c] kinds IH]; cbn [first_addrs]; pres. Qed.
Lemma ck_getAddrs id ty : preserves cli_ok (getAddrs id ty).
Proof. apply ck_first_addrs. Qed.
#[local] Hint Resolve ck_getAddrs : hoare.
Lemma ck_show_params id rows : preserves cli_ok (show_params id rows).
Proof. induction rows as [|[[p n] u] rows IH]; cbn [show_params]; pres. Qed.
Lemma ck_joinGroup b ids : preserves cli_ok (joinGroup b ids).
Proof. induction ids as [|id ids IH]; cbn [joinGroup]; pres. Qed.
Lemma ck_collect_all {A} (f : nat -> st (Dispatcher M) (list A)) ls acc :
  (forall l, preserves cli_ok (on_disp (f l))) -> preserves cli_ok (collect_all f ls acc).
Proof. intros H. revert acc. induction ls as [|l ls IH]; intros acc; cbn [collect_all]; pres. Qed.
#[local] Hint Resolve ck_show_params ck_joinGroup ck_collect_all : hoare.
Lemma ck_executeCollect {A} (f : nat -> st (Dispatcher M) (list A)) row :
  (forall l, preserves cli_ok (on_disp (f l))) -> preserves cli_ok (executeCollect f row).
Proof. intros H. unfold executeCollect. pres. Qed.
Lemma ck_group_id id : 0 <= id <= maxSendGroupId -> preserves cli_ok (modify (set_groupId id)).
Proof. intros H. apply hoare_modify. intros r [H1 H2 H3]. by split. Qed.
Lemma ck_nextGroup b : preserves cli_ok (nextGroup b).
Proof.
  unfold nextGroup. destruct b; cbn [negb]; [|pres]. intros r a r' H E.
  apply bind_st_Ok in E as (? & ? & [<- <-]%get_st_Ok & E). pose proof (ck_group r H) as HG.
  destruct (Z.geb_spec (cr_sendGroupId r) maxSendGroupId) as [Hge|Hlt].
  - revert E. apply hoare_run_flip; [pres|done].
  - revert E. apply hoare_run_flip; [|done]. apply pres_bind; [apply ck_group_id; lia|]. intros _. apply pres_ret.
Qed.
#[local] Hint Resolve ck_nextGroup : hoare.
Lemma ck_send c : preserves cli_ok (executeSend c).
Proof.
  assert (forall id, preserves cli_ok (resetOne id)) by (intros id; unfold resetOne; pres).
  assert (forall a, preserves cli_ok (sendData c a)) by (intros a; unfold sendData; pres).
  assert (forall b ids f, preserves cli_ok (sendAddress c b ids f)) by (intros b ids f; unfold sendAddress; pres).
  assert (preserves cli_ok (modify (set_groupId 1))) by (apply ck_group_id; unfold maxSendGroupId; lia).
  unfold executeSend. pres.
Qed.
Lemma ck_node sel c : preserves cli_ok (executeNode sel c).
Proof. unfold executeNode. pres. Qed.
Lemma ck_load f b : preserves cli_ok (executeLoad f b).
Proof. unfold executeLoad. pres. Qed.
Lemma ck_host a b c d e : preserves cli_ok (executeHost a b c d e).
Proof. unfold executeHost. pres. Qed.
Lemma ck_exe a b c d : preserves cli_ok (executeExe a b c d).
Proof. unfold executeExe, exe_list. pres. Qed.
Lemma ck_rfsim a b c d e : preserves cli_ok (executeRfSim a b c d e).
Proof. unfold executeRfSim, rfsim_node, rfsim_default. pres. Qed.
#[local] Hint Resolve ck_send ck_node ck_load ck_host ck_exe ck_rfsim : hoare.
Lemma ck_on_sim_serve_steps l : preserves sim_ok (serve_steps l).
Proof. apply pres_for_each. intros [w q] _. apply ok_serve. Qed.
Lemma ck_run_period us speed w : preserves cli_ok (on_sim (run_period us speed w)).
Proof.
  apply ck_on_sim. unfold run_period.
  pose proof (ok_on_d (goBegin us speed) (vw_goBegin us speed) (fun v => fx_quiet _ (si_goBegin us speed) v)) as HB.
  apply pres_bind; [apply ck_on_sim_serve_steps|intros _]. apply pres_bind; [apply pres_get|intros s].
  apply pres_bind; [apply pres_lift|intros _]. apply pres_bind; [exact HB|intros post].
  apply pres_bind; [apply ck_on_sim_serve_steps|intros _]. apply pres_bind; [apply (ok_run_disp (DGoEnd speed post))|intros _].
  apply pres_bind; [apply pres_get|intros s']. apply pres_bind; [apply pres_lift|intros _].
  apply pres_bind; [|intros _; apply pres_for_each; intros [w' e] _; apply ok_serve].
  apply ok_on_d; [|intros v]; unfold syncAllNodes.
  - apply pres_bind; [apply pres_get|intros d]. apply pres_bind; [|intros _; apply pres_ret]. apply pres_for_each. intros l _.
    apply pres_bind; [apply pres_get|intros d']. apply vw_advanceNodeTime.
  - apply pres_bind; [apply pres_get|intros d]. apply pres_bind; [|intros _; apply pres_ret]. apply pres_for_each. intros l _.
    apply pres_bind; [apply pres_get|intros d']. apply fx_quiet, si_advanceNodeTime.
Qed.
Lemma ck_GoAtSpeed q us speed : preserves cli_ok (on_sim (GoAtSpeed q us speed)).
Proof. apply ck_on_sim. unfold GoAtSpeed. destruct q; pres. Qed.
Lemma ck_Go q us : preserves cli_ok (on_sim (Go q us)).
Proof. apply ck_on_sim. unfold Go. destruct q; pres. Qed.
Lemma ck_ReplaceRadioModel name seed : preserves cli_ok (on_disp (ReplaceRadioModel name seed)).
Proof. apply ck_on_sim, ok_on_d; [apply vw_ReplaceRadioModel|apply fx_quiet, si_ReplaceRadioModel]. Qed.
Lemma ck_radioParams p b : preserves cli_ok (on_disp (radio (modify_params p b))).
Proof. apply (ck_task (TaskModifyRadioParams p b) eq_refl). Qed.
#[local] Hint Resolve ck_run_period ck_GoAtSpeed ck_Go ck_ReplaceRadioModel ck_radioParams : hoare.
Lemma ck_run_command cmd : preserves cli_ok (run_command cmd).
Proof.
  destruct cmd; cbn [run_command]; try by auto with hoare.
  - unfold executeAddNode. pres.
  - unfold executeAutoGo. pres.
  - unfold executeCoaps. pres.
  - unfold executeConfigVisualization. pres.
  - by apply ck_vis_call.
  - unfold executeCounters. pres.
  - unfold executeDebug. pres.
  - unfold executeDelNode, deleteOne. pres.
  - by apply ck_vis_call.
  - unfold executeEnergy. pres.
  - unfold executeExit. pres.
  - unfold executeGo. pres.
  - unfold executeHelp. pres.
  - apply ck_executeCollect, ck_joins.
  - unfold executeKpi. pres.
  - unfold executeLogLevel. pres.
  - unfold executeMoveNode. pres.
  - apply ck_netinfo.
  - unfold executeLsNodes. pres.
  - unfold executeLsPartitions. pres.
  - unfold executePing. pres.
  - apply ck_executeCollect, ck_pings.
  - unfold executePlr. pres.
  - unfold executeRadio, radioOne. pres.
  - unfold executeRadioModel. pres.
  - unfold executeRadioParam. pres.
  - unfold executeSave. pres.
  - unfold executeScan. pres.
  - unfold executeSpeed. pres.
  - unfold executeTime. pres.
  - apply ck_title.
  - unfold executeUnwatch, unwatchOne. pres.
  - unfold executeWatch, watchOne, set_default_watch. pres. apply ck_disp_cfg.
  - unfold executeWeb. pres.
Qed.
#[local] Hint Resolve ck_run_command : hoare.
Lemma ck_execute cmd : preserves cli_ok (execute cmd).
Proof. unfold execute, finish. pres. Qed.
#[local] Hint Resolve ck_execute : hoare.
Lemma ck_HandleCommand line : preserves cli_ok (HandleCommand line).
Proof. unfold HandleCommand, RunCommand. pres. Qed.
Lemma cli_reachable_ok cfg dcfg model rnd r : cli_reachable cfg dcfg model rnd r -> cli_ok r.
Proof.
  induction 1 as [s lv wl E|w line r r' _ IH _ E|w q r r' _ IH _ E].
  - split; [by eapply reachable_ok, sr_new|done|done].
  - unfold on_line in E. revert E. apply hoare_run_flip; [|done].
    apply pres_bind; [auto with hoare|]. intros _. apply ck_HandleCommand.
  - revert E. apply hoare_run_flip; [|done]. apply ck_on_sim, ok_serve.
Qed.
End consistency.

(** ** Deleting nodes *)

(** Methods of a node object that do not change whether it is exiting. *)
Definition keeps_exit {A} (m : st SimNode A) : Prop := forall b, preserves (fun n => sn_isExiting n = b) m.
Ltac ke_field := apply hoare_modify; by intros ? <-.
Lemma ke_Display {env : CliEnv} : keeps_exit DisplayPendingLines.
Proof.
  intros b. unfold DisplayPendingLines. apply pres_bind; [apply pres_get|]. intros n. destruct (sn_pendingLines n); [apply pres_ret|].
  apply pres_bind; [ke_field|]. intros _. apply pres_for_each. intros x _. apply pres_when. ke_field.
Qed.
Lemma ke_processUartData {env : CliEnv} data : keeps_exit (processUartData data).
Proof.
  intros b. unfold processUartData. apply pres_bind; [apply pres_get|]. intros n. destruct (uart_lines _) as [lines rest].
  apply pres_bind; [ke_field|]. intros _. apply pres_for_each. intros l _. unfold pushLine.
  apply pres_bind; [apply pres_get|]. intros n'. apply pres_bind; [apply pres_when, ke_Display|]. intros _. ke_field.
Qed.
Lemma ke_push_event evt env : keeps_exit (push_event evt env).
Proof.
  intros b. unfold push_event. apply pres_bind; [apply pres_get|]. intros n. destruct (bool_decide _); [apply pres_panics|].
  ke_field.
Qed.
Lemma ke_ret {A} (a : A) : keeps_exit (mret a).
Proof. intros b. apply pres_ret. Qed.
Lemma initiateExit_exits {env : CliEnv} : hoare (fun _ => True) initiateExit (fun _ n => sn_isExiting n = true).
Proof.
  unfold initiateExit. intros n a n' _ E. apply bind_st_Ok in E as (? & ? & [<- <-]%get_st_Ok & E).
  destruct (sn_isExiting n) eqn:Ex; [by apply ret_st_Ok in E as [_ <-]|].
  apply bind_st_Ok in E as ([] & n1 & <-%modify_st_Ok & E).
  assert (forall cmd, preserves (fun n => sn_isExiting n = true) (inputCommand cmd)) as HI.
  { intros cmd. unfold inputCommand. apply pres_bind; [apply pres_get|]. intros n1. apply pres_bind; [ke_field|]. intros _.
    destruct (sn_uartType n1); [apply pres_ret|..]; (destruct (cli_reply _ _); (apply pres_bind; [ke_field|]; intros _);
      [apply pres_bind; [ke_field|]; intros _; apply pres_ret|apply pres_ret]). }
  revert E. apply (hoare_run_flip (fun n => sn_isExiting n = true)); [|done].
  repeat match goal with |- hoare _ (if ?b then _ else _) _ => destruct b end; unfold sendSigTerm.
  - ke_field.
  - apply pres_bind; [apply HI|]. intros ok. apply pres_when. ke_field.
  - apply pres_bind; [apply HI|]. intros ok. apply pres_when. ke_field.
  - apply pres_bind; [ke_field|]. intros _. ke_field.
Qed.

Section deleting.
Context {env : SimEnv} {M : Type} `{!RadioModel M}.
Implicit Types (s : Sim M) (D E : gset NodeId).

(** The simulation has the nodes [D], of which [E] are exiting; nothing arrives. *)
Record state D E s : Prop := {
  de_waits : s_waits s = [];
  de_mode : cf_Realtime (s_cfg s) = false;
  de_nodes : dom (s_nodes s) = D;
  de_exits : forall id k n, s_nodes s !! id = Some (k, n) -> sn_isExiting n = bool_decide (id ∈ E);
}.
Lemma de_modify f D E :
  (forall s, s_waits (f s) = s_waits s /\ s_cfg (f s) = s_cfg s /\ s_nodes (f s) = s_nodes s) ->
  preserves (state D E) (modify f).
Proof.
  intros H. apply hoare_modify. intros s [H1 H2 H3 H4]. destruct (H s) as (E1 & E2 & E3).
  split; rewrite ?E1, ?E2, ?E3; done.
Qed.
#[local] Hint Extern 3 (hoare (state _ _) (modify _) _) => apply de_modify; intros ?; repeat split : hoare.
Lemma state_insert D E s id k n n' b :
  state D E s -> s_nodes s !! id = Some (k, n) -> sn_isExiting n' = b ->
  state D (if b then {[id]} ∪ E else E ∖ {[id]}) (set_nodes (<[id:=(k, n')]> (s_nodes s)) s).
Proof.
  intros [H1 H2 H3 H4] En Eb. split; [done|done| |].
  - cbn. rewrite dom_insert_L, <- H3. apply elem_of_dom_2 in En. set_solver.
  - cbn. intros id' k' m [[<- [= <- <-]]|[Hne Hm]]%lookup_insert_Some.
    + rewrite Eb. destruct b; symmetry; [apply bool_decide_true|apply bool_decide_false]; set_solver.
    + rewrite (H4 id' k' m Hm). apply bool_decide_ext. destruct b; set_solver.
Qed.
Lemma de_with_node {A} p id (m : CliEnv -> st SimNode A) D E :
  (forall env, keeps_exit (m env)) -> preserves (state D E) (with_node p id m).
Proof.
  intros Hm s r s' H Er. unfold with_node in Er. apply bind_st_Ok in Er as (? & ? & [<- <-]%get_st_Ok & Er).
  destruct (s_nodes s !! id) as [[k n]|] eqn:En; [|done].
  apply bind_st_Ok in Er as ([a n'] & ? & [Hr <-]%lift_st_Ok & Er). apply bind_st_Ok in Er as ([] & s1 & <-%modify_st_Ok & Er).
  apply ret_st_Ok in Er as [_ <-]. apply (Hm _ (sn_isExiting n)) in Hr; [|done].
  pose proof (state_insert D E s id k n n' _ H En Hr) as HS. rewrite (de_exits _ _ _ H id k n En) in HS.
  destruct (bool_decide_reflect (id ∈ E)) as [Hin|Hout].
  - by replace ({[id]} ∪ E) with E in HS by set_solver.
  - by replace (E ∖ {[id]}) with E in HS by set_solver.
Qed.
Lemma de_node_callback id m D E : (forall env, keeps_exit (m env)) -> preserves (state D E) (node_callback id m).
Proof. intros H. unfold node_callback. apply pres_bind; [by apply de_with_node|]. intros _. apply pres_ret. Qed.
Lemma de_on_hosts m D E : preserves (state D E) (on_hosts m).
Proof. apply hoare_update. intros s s' [] Er. apply bind_Ok in Er as ([u h] & _ & [= <-]). by split. Qed.
#[local] Hint Resolve de_on_hosts : hoare.
Lemma de_deliver o D E : preserves (state D E) (deliver o).
Proof.
  unfold deliver. destruct o as [|[]| | | |]; try (by pres).
  - apply de_node_callback. intros. apply ke_processUartData.
  - apply de_node_callback. intros. apply ke_ret.
  - unfold VisitNodesInOrder. pres. apply de_with_node. intros. apply ke_Display.
  - apply de_node_callback. intros. destruct (_ =? _); [apply ke_push_event|apply ke_ret].
  - apply pres_bind; [apply de_node_callback; intros; apply ke_ret|]. intros _. pres.
Qed.
#[local] Hint Resolve de_deliver : hoare.
Lemma de_on_d {A} (m : st (Dispatcher M) A) D E : preserves (state D E) (on_d m).
Proof. unfold on_d. pres. Qed.
#[local] Hint Resolve de_on_d : hoare.
Lemma de_apply_output id o D E : preserves (state D E) (apply_output id o).
Proof. destruct o; cbn [apply_output]; pres. Qed.
Lemma de_exit id D :
  hoare (state D ∅) (on_node id (fun env => initiateExit)) (fun _ => state D {[id]}).
Proof.
  intros s r s' H Er. unfold on_node in Er. apply bind_st_Ok in Er as ([a outs] & s1 & E1 & Er).
  assert (state D {[id]} s1) as H1.
  { unfold with_node in E1. apply bind_st_Ok in E1 as (? & ? & [<- <-]%get_st_Ok & E1).
    destruct (s_nodes s !! id) as [[k n]|] eqn:En; [|done].
    apply bind_st_Ok in E1 as ([u n'] & ? & [Hr <-]%lift_st_Ok & E1). apply bind_st_Ok in E1 as ([] & s2 & <-%modify_st_Ok & E1).
    apply ret_st_Ok in E1 as [_ <-]. apply initiateExit_exits in Hr; [|done].
    pose proof (state_insert D ∅ s id k n n' true H En Hr) as HS. by rewrite union_empty_r_L in HS. }
  revert Er. apply hoare_run_flip; [|done]. apply pres_bind; [|intros; apply pres_ret].
  apply pres_for_each. intros o _. apply de_apply_output.
Qed.
Lemma de_wait D E : preserves (state D E) waitForSimulation.
Proof.
  intros s u s' H Er. unfold waitForSimulation in Er. apply bind_st_Ok in Er as (? & ? & [<- <-]%get_st_Ok & Er).
  unfold wait in Er. apply bind_st_Ok in Er as (? & ? & [<- <-]%get_st_Ok & Er). rewrite (de_waits _ _ _ H) in Er.
  by apply ret_st_Ok in Er as [_ <-].
Qed.
Lemma de_forget id D : hoare (state D {[id]}) (forget id) (fun _ => state (D ∖ {[id]}) ∅).
Proof.
  intros s u s' [H1 H2 H3 H4] Er. unfold forget in Er. apply bind_st_Ok in Er as ([] & s1 & <-%modify_st_Ok & Er).
  revert Er. apply hoare_run_flip; [apply de_on_d|]. split; [done|done|cbn; by rewrite dom_delete_L, H3|].
  cbn. intros id' k n [Hne Hn]%lookup_delete_Some. rewrite (H4 id' k n Hn). apply bool_decide_ext. set_solver.
Qed.
(** Deleting one node. *)
Lemma DeleteNode_state id D s e s' :
  state D ∅ s -> DeleteNode id s = Ok (e, s') ->
  state (D ∖ {[id]}) ∅ s' /\ (e = None <-> id ∈ D).
Proof.
  intros H Er. pose proof H as [H1 H2 H3 H4]. unfold DeleteNode in Er. apply bind_st_Ok in Er as (? & ? & [<- <-]%get_st_Ok & Er).
  destruct (s_nodes s !! id) as [[k n]|] eqn:En.
  - rewrite (H4 id k n En), bool_decide_false in Er by set_solver.
    assert (id ∈ D) as Hin by (rewrite <- H3; by eapply elem_of_dom_2).
    apply bind_st_Ok in Er as ([] & s1 & E1 & Er). apply (de_wait D ∅) in E1; [|done].
    apply bind_st_Ok in Er as ([] & s2 & E2 & Er). apply (de_exit id D) in E2; [|done].
    apply bind_st_Ok in Er as ([] & s3 & E3 & Er). apply (de_wait D {[id]}) in E3; [|done].
    apply bind_st_Ok in Er as ([] & s4 & E4 & Er). eapply (hoare_run (state D {[id]})) in E4; [|exact E3|pres].
    apply bind_st_Ok in Er as ([] & s5 & E5 & Er).
    eapply (hoare_run (state D {[id]})) in E5; [|exact E4|unfold finalizeExit, post; pres].
    rewrite H2 in Er. apply bind_st_Ok in Er as ([] & s6 & E6 & Er). apply ret_st_Ok in Er as [<- <-]. split; [|done].
    apply bind_st_Ok in E6 as ([] & s7 & E6 & E7). apply (de_wait D {[id]}) in E6; [|done]. by eapply de_forget in E7.
  - apply ret_st_Ok in Er as [<- <-]. apply not_elem_of_dom in En. rewrite H3 in En. split; [|by split].
    by replace (D ∖ {[id]}) with D by set_solver.
Qed.
End deleting.

Section del_command.
Context {env : CmdEnv} {M : Type} `{!RadioModel M} `{!RadioModelLaws M}.
Implicit Types r : CmdRunner M.

(** Writing the answer leaves the simulation alone. *)
Definition answers {A} (m : st (CmdRunner M) A) : Prop := forall s, preserves (fun r => cr_sim r = s) m.
Lemma an_mod_cc f : answers (mod_cc f).
Proof. intros s. by apply hoare_modify. Qed.
Lemma an_warnf msg : answers (warnf msg).
Proof. apply an_mod_cc. Qed.
Lemma an_cc_error e : answers (cc_error e).
Proof.
  intros s. destruct e as [e|]; [|apply pres_ret]. cbn [cc_error]. apply pres_bind; [apply pres_get|]. intros r.
  apply pres_bind; [|intros; apply an_mod_cc]. destruct (cc_err (cr_cc r)); [apply an_mod_cc|apply pres_ret].
Qed.
Lemma an_finish cmd : answers (finish cmd).
Proof.
  intros s. unfold finish. apply pres_bind; [apply pres_get|]. intros r. destruct (cr_stopping r && _); [apply an_mod_cc|].
  destruct (cc_err (cr_cc r)); [apply an_mod_cc|]. apply pres_when, an_mod_cc.
Qed.
Lemma on_sim_run {A} (m : st (Sim M) A) r a r' :
  on_sim m r = Ok (a, r') -> exists s', m (cr_sim r) = Ok (a, s') /\ r' = set_sim s' r.
Proof.
  intros E. unfold on_sim in E. apply bind_st_Ok in E as (? & ? & [<- <-]%get_st_Ok & E).
  apply bind_st_Ok in E as ([b s] & ? & [Em <-]%lift_st_Ok & E). apply bind_st_Ok in E as ([] & r1 & <-%modify_st_Ok & E).
  apply ret_st_Ok in E as [<- <-]. by exists s.
Qed.
Lemma getNodeById_run id r a r' :
  getNodeById id r = Ok (a, r') -> r' = r /\ (a = None <-> id <= 0 \/ (id ∉ dom (s_nodes (cr_sim r)))).
Proof.
  intros E. unfold getNodeById in E. apply bind_st_Ok in E as (s & r1 & [<- <-]%gets_st_Ok & E). apply ret_st_Ok in E as [<- <-].
  split; [done|]. rewrite not_elem_of_dom. destruct (Z.gtb_spec id 0) as [H|H].
  - rewrite fmap_None. split; [by right|]. intros [|]; [lia|done].
  - split; [left; lia|done].
Qed.

Definition positive (ids : list NodeId) : gset NodeId := list_to_set (filter (fun id => 0 < id) ids).
Lemma positive_cons id ids : positive (id :: ids) = (if bool_decide (0 < id) then {[id]} else ∅) ∪ positive ids.
Proof. unfold positive. rewrite filter_cons. destruct (decide (0 < id)) as [H|H]; [rewrite bool_decide_true by done|rewrite bool_decide_false by done]; set_solver. Qed.
Lemma deleteOne_state id D r u r' :
  state D ∅ (cr_sim r) -> deleteOne id r = Ok (u, r') -> state (D ∖ positive [id]) ∅ (cr_sim r').
Proof.
  intros H E. unfold deleteOne in E. apply bind_st_Ok in E as (node & r1 & E1 & E). apply getNodeById_run in E1 as [-> HN].
  assert (dom (s_nodes (cr_sim r)) = D) as HD by by destruct H. rewrite HD in HN.
  rewrite positive_cons. change (positive []) with (∅ : gset NodeId). rewrite union_empty_r_L. destruct node as [n|].
  - assert (0 < id /\ id ∈ D) as [Hp Hin].
    { destruct (decide (0 < id /\ id ∈ D)) as [|Hc]; [done|]. exfalso.
      assert (id <= 0 \/ (id ∉ D)) as Ho by (destruct (decide (0 < id)); [right; tauto|left; lia]). by apply HN in Ho. }
    rewrite bool_decide_true by done. apply bind_st_Ok in E as (e & r2 & E2 & E). apply on_sim_run in E2 as (s' & Es & ->).
    apply (DeleteNode_state id D) in Es as [HS _]; [|done].
    assert (cr_sim r' = s') as ->; [|done]. revert E. destruct e; [|by intros [_ <-]%ret_st_Ok].
    apply (hoare_run_flip (fun r => cr_sim r = s')); [apply an_cc_error|done].
  - assert (cr_sim r' = cr_sim r) as -> by (eapply (an_warnf _ (cr_sim r)); [reflexivity|exact E]).
    destruct (bool_decide_reflect (0 < id)) as [Hp|Hp]; [|by replace (D ∖ ∅) with D by set_solver].
    destruct (proj1 HN eq_refl) as [|Hout]; [lia|]. by replace (D ∖ {[id]}) with D by set_solver.
Qed.
Lemma del_loop ids : forall D r u r',
  state D ∅ (cr_sim r) -> for_each ids deleteOne r = Ok (u, r') -> state (D ∖ positive ids) ∅ (cr_sim r').
Proof.
  induction ids as [|id ids IH]; intros D r u r' H E; cbn [for_each] in E.
  - apply ret_st_Ok in E as [_ <-]. by replace (D ∖ positive []) with D by set_solver.
  - apply bind_st_Ok in E as ([] & r1 & E1 & E). apply (deleteOne_state id D) in E1; [|done].
    apply (IH (D ∖ positive [id])) in E; [|done]. rewrite positive_cons in *. change (positive []) with (∅ : gset NodeId) in E.
    rewrite union_empty_r_L in E. by rewrite <- difference_difference_l_L.
Qed.

(** C5: The command del deletes the nodes that are selected and no others, in the simulation
    and in the dispatcher, when time is virtual and nothing else happens meanwhile.  Ids that
    do not exist are skipped. *)
Theorem del_exact cfg dcfg (model : M) rnd r nss r' :
  cli_reachable cfg dcfg model rnd r ->
  cf_Realtime (s_cfg (cr_sim r)) = false -> s_waits (cr_sim r) = [] ->
  (forall id k n, s_nodes (cr_sim r) !! id = Some (k, n) -> sn_isExiting n = false) ->
  execute (CmdDel nss) r = Ok (tt, r') ->
  let gone := positive (expandNodeSelector (GetNodes (cr_sim r)) nss) in
  dom (s_nodes (cr_sim r')) = dom (s_nodes (cr_sim r)) ∖ gone /\
  dom (d_nodes (s_d (cr_sim r'))) = dom (d_nodes (s_d (cr_sim r))) ∖ gone.
Proof.
  intros HR Hrt Hw Hex E. apply cli_reachable_ok in HR. pose proof (ck_execute (CmdDel nss) r tt r' HR E) as HR'.
  apply ck_sim, ok_agree in HR as [_ <-]. apply ck_sim, ok_agree in HR' as [_ <-].
  unfold execute in E. apply bind_st_Ok in E as ([] & r1 & <-%modify_st_Ok & E). apply bind_st_Ok in E as ([] & r2 & E2 & E3).
  assert (cr_sim r' = cr_sim r2) as -> by (eapply (an_finish _ (cr_sim r2)); [reflexivity|exact E3]).
  cbn [run_command] in E2. unfold executeDelNode, expand in E2. apply bind_st_Ok in E2 as (ids & r3 & E & E2).
  apply bind_st_Ok in E as (s & r4 & [<- <-]%gets_st_Ok & E). apply ret_st_Ok in E as [<- <-]. cbn [cr_sim set_cc] in E2.
  apply (del_loop _ (dom (s_nodes (cr_sim r)))) in E2 as [_ _ HD _]; [by rewrite HD|].
  split; [done|done|done|]. cbn. intros id k n Hn. rewrite (Hex id k n Hn). symmetry. by apply bool_decide_false.
Qed.
End del_command.

(** ** Loading networks *)
Lemma NodeConfigFinalize_ID `{FsEnv} exe ys newId seed noise c c' :
  0 < nc_ID c -> NodeConfig.NodeConfigFinalize exe ys newId seed noise c = Ok c' -> nc_ID c' = nc_ID c.
Proof.
  intros Hid E. unfold NodeConfig.NodeConfigFinalize in E. apply bind_Ok in E as ([] & _ & E).
  assert ((nc_ID c <=? 0) = false) as H0 by (apply Z.leb_gt; lia). rewrite H0 in E.
  pose proof (UpdateNodeConfigFromType_cases c) as HC. destruct (UpdateNodeConfigFromType c) as [c2 err].
  destruct HC as (_ & a & b & d & e & f & g & -> & _). destruct err; [by injection E as <-|].
  cbv zeta in E. injection E as <-. cbn [set_run nc_ID].
  destruct seed; repeat match goal with |- context [if ?b then _ else _] => destruct b end; reflexivity.
Qed.
(** The largest id in use, and the least id of a file. *)
Lemma MaxNodeId_ge ids id : Forall (fun x => 0 < x) ids -> id ∈ ids -> id <= MaxNodeId ids.
Proof.
  assert (forall l m, Forall (fun x => 0 < x) l -> 0 <= m ->
    m <= foldl (fun m nid => if (nid >? m) || (m =? 0) then nid else m) m l /\
    forall x, x ∈ l -> x <= foldl (fun m nid => if (nid >? m) || (m =? 0) then nid else m) m l) as HL.
  { induction l as [|y l IH]; intros m HF Hm; cbn [foldl]; [set_solver|]. inversion HF as [|? ? Hy HF']; subst.
    set (m' := if (y >? m) || (m =? 0) then y else m). assert (m <= m' /\ y <= m' /\ 0 <= m') as (H1 & H2 & H3).
    { unfold m'. destruct (Z.gtb_spec y m); cbn [orb]; [lia|]. destruct (Z.eqb_spec m 0); lia. }
    destruct (IH m' HF' H3) as [H4 H5]. split; [lia|]. intros x [->|Hx]%elem_of_cons; [lia|by apply H5]. }
  intros HF Hin. by apply HL.
Qed.
Lemma MinNodeId_le nodes n : Forall (fun x => 0 < yc_ID x) nodes -> n ∈ nodes -> MinNodeId nodes <= yc_ID n.
Proof.
  unfold MinNodeId. set (f := fun (m : Z) (n : YamlNodeConfig) => if (yc_ID n <? m) || (m =? 0) then yc_ID n else m).
  assert (forall l m, Forall (fun x => 0 < yc_ID x) l -> 0 <= m ->
    (0 < m -> foldl f m l <= m) /\ forall x, x ∈ l -> foldl f m l <= yc_ID x) as HL.
  { induction l as [|y l IH]; intros m HF Hm; cbn [foldl]; [split; [done|set_solver]|]. inversion HF as [|? ? Hy HF']; subst.
    set (m' := f m y). assert ((0 < m -> m' <= m) /\ m' <= yc_ID y /\ 0 < m') as (H1 & H2 & H3).
    { unfold m', f. destruct (Z.ltb_spec (yc_ID y) m); cbn [orb]; [lia|]. destruct (Z.eqb_spec m 0); lia. }
    destruct (IH m' HF' ltac:(lia)) as [H4 H5]. split; [lia|]. intros x [->|Hx]%elem_of_cons; [lia|by apply H5]. }
  intros HF Hin. by apply HL.
Qed.

Section load_command.
Context {env : CmdEnv} {M : Type} `{!RadioModel M} `{!RadioModelLaws M}.
Implicit Types (s : Sim M) (r : CmdRunner M).

Lemma import_loop_spec nw nodes I : forall s b ok s',
  (forall n, n ∈ nodes -> 0 < nc_ID (importNode nw n)) -> inv ∅ I s -> import_loop nw nodes b s = Ok (ok, s') ->
  inv ∅ I s' /\ (ok = true -> b = true /\ forall n, n ∈ nodes -> nc_ID (importNode nw n) ∈ dom (s_nodes s')).
Proof.
  revert I. induction nodes as [|n nodes IH]; intros I s b ok s' Hp HI E; cbn [import_loop] in E.
  { apply ret_st_Ok in E as [<- <-]. split; [done|]. set_solver. }
  apply bind_st_Ok in E as (cfg & s1 & E1 & E). unfold NodeConfigFinalize in E1.
  apply bind_st_Ok in E1 as (? & ? & [<- <-]%get_st_Ok & E1). apply bind_st_Ok in E1 as (id & s2 & E2 & E1).
  unfold genId in E2. apply bind_st_Ok in E2 as (? & ? & [<- <-]%get_st_Ok & [_ <-]%lift_st_Ok).
  apply lift_st_Ok in E1 as [E1 <-]. apply NodeConfigFinalize_ID in E1; [|apply Hp; set_solver].
  apply bind_st_Ok in E as (e & s3 & E3 & E). unfold add_node in E3. apply bind_st_Ok in E3 as (? & ? & [<- <-]%get_st_Ok & E3).
  eapply AddNode_post in E3; [|exact HI]. destruct e as [e|].
  - destruct E3 as [HI3 _]. apply (IH I) in E; [|set_solver|done]. destruct E as [HI' Hok]. split; [done|].
    intros Ht. by destruct (Hok Ht).
  - cbn [add_post] in E3. rewrite E1 in E3. apply (IH ({[nc_ID (importNode nw n)]} ∪ I)) in E; [|set_solver|done].
    destruct E as [(S & HS & HX & HI') Hok]. split; [exists S; split; [done|]; set_solver|]. intros Ht.
    destruct (Hok Ht) as [Hb Hn]. split; [done|]. intros n' [->|Hn']%elem_of_cons; [|by apply Hn].
    destruct HS as (_ & _ & HS). rewrite HS. set_solver.
Qed.

(** C6: Loading a network with the option add never touches the nodes that are there: the ids
    of the file are moved behind the largest id in use and stay different from each other,
    the earlier nodes stay, and unless there is a warning all nodes of the file are added. *)
Theorem load_add_fresh cfg dcfg (model : M) rnd r f safe nw nodes r' :
  cli_reachable cfg dcfg model rnd r -> (forall id, id ∈ dom (s_nodes (cr_sim r)) -> 0 < id) ->
  Forall (fun n => 0 < yc_ID n) nodes ->
  CheckSafePath f = inr safe -> os_Stat safe = StatOk false -> load_yaml safe = inr (nw, nodes) ->
  execute (CmdLoad f true) r = Ok (tt, r') ->
  let id n := nc_ID (importNode (offset_network true nw nodes (cr_sim r)) n) in
  (forall n, n ∈ nodes -> id n ∉ dom (s_nodes (cr_sim r))) /\
  (forall n n', id n = id n' -> yc_ID n = yc_ID n') /\
  dom (s_nodes (cr_sim r)) ⊆ dom (s_nodes (cr_sim r')) /\
  (cc_output (cr_cc r') = [OText ("Done" +:+ nl)] -> forall n, n ∈ nodes -> id n ∈ dom (s_nodes (cr_sim r'))).
Proof.
  intros HR Hpos HF Hsafe Hst Hy E id. apply cli_reachable_ok in HR as [(S & HS & _) _ _].
  set (off := simMaxNodeId (cr_sim r) + 1 - MinNodeId nodes).
  assert (forall n, id n = yc_ID n + off) as Hid by (intros n; unfold id, importNode; cbn; destruct (yn_Position nw) as [[? ?] ?], (yc_Position n) as [[? ?] ?]; done).
  assert (forall x, x ∈ dom (s_nodes (cr_sim r)) -> x <= simMaxNodeId (cr_sim r)) as Hmax.
  { intros x Hx. apply MaxNodeId_ge.
    - apply Forall_forall. intros y Hy'. apply Hpos. apply list_elem_of_In, in_map_iff in Hy' as ([y' v] & <- & Hv).
      apply list_elem_of_In, elem_of_map_to_list in Hv. by eapply elem_of_dom_2.
    - apply elem_of_dom in Hx as [v Hv]. apply list_elem_of_In, in_map_iff. exists (x, v). split; [done|].
      by apply list_elem_of_In, elem_of_map_to_list. }
  assert (forall n, n ∈ nodes -> simMaxNodeId (cr_sim r) < id n) as Hnew.
  { intros n Hn. pose proof (MinNodeId_le nodes n HF Hn). rewrite Hid. unfold off. lia. }
  assert (0 <= simMaxNodeId (cr_sim r)) as H0.
  { destruct (decide (dom (s_nodes (cr_sim r)) = ∅)) as [He|He].
    - apply dom_empty_inv_L in He. unfold simMaxNodeId. rewrite He, map_to_list_empty. done.
    - apply set_choose_L in He as [x Hx]. pose proof (Hpos x Hx). pose proof (Hmax x Hx). lia. }
  split; [intros n Hn Hin; specialize (Hmax _ Hin); specialize (Hnew n Hn); lia|].
  split; [intros n n'; rewrite !Hid; lia|].
  unfold execute in E. apply bind_st_Ok in E as ([] & r1 & <-%modify_st_Ok & E). apply bind_st_Ok in E as ([] & r2 & E2 & E3).
  assert (cr_sim r' = cr_sim r2) as -> by (eapply (an_finish _ (cr_sim r2)); [reflexivity|exact E3]).
  cbn [run_command] in E2. unfold executeLoad in E2. rewrite Hsafe, Hst, Hy in E2.
  destruct (bool_decide_reflect (nodes = [])) as [->|Hne].
  { assert (cr_sim r2 = cr_sim r) as -> by (eapply (an_cc_error _ (cr_sim r)); [|exact E2]; done). set_solver. }
  apply bind_st_Ok in E2 as (s & r3 & [<- <-]%gets_st_Ok & E2). apply bind_st_Ok in E2 as (e & r3 & E4 & E2).
  apply on_sim_run in E4 as (s' & E4 & ->). unfold ImportNodes in E4. apply bind_st_Ok in E4 as (ok & s1 & E4 & E5).
  apply ret_st_Ok in E5 as [<- <-].
  apply (import_loop_spec _ _ (dom (s_nodes (cr_sim r)))) in E4 as [HI Hall].
  - assert (dom (s_nodes (cr_sim r)) ⊆ dom (s_nodes s1)) as Hsub by (destruct HI as (S' & (_ & _ & ->) & _ & HI); done).
    destruct ok.
    + apply ret_st_Ok in E2 as [_ <-]. split; [done|]. intros _. by destruct (Hall eq_refl).
    + assert (cr_sim r2 = s1) as -> by (eapply (an_warnf _ s1); [|exact E2]; done). split; [done|]. intros Hout. exfalso.
      injection E2 as <-. unfold finish, mbind, st_bind, get in E3. cbn in E3. rewrite andb_true_r in E3.
      destruct (cr_stopping r); injection E3 as <-; discriminate Hout.
  - intros n Hn. specialize (Hnew n Hn). change (0 < id n). lia.
  - destruct HS as (HW & HD & HN). exists S. split; [by split|]. split; [set_solver|]. cbn. by rewrite HN.
Qed.
End load_command.

(** ** How answers end

    A client of the command line (src/pylibs) reads lines until [Done], [Started] or an
    error; if one of them came before the end of an answer, the rest would be taken for the
    answer to the next command. *)
Definition is_end (o : CmdOut) : bool :=
  match o with
  | OText s => String.eqb s ("Done" +:+ nl) || String.eqb s ("Started" +:+ nl) || HasPrefix s "Error"
  | _ => false
  end.
Lemma pretty_N_char_digit x : exists k, pretty_N_char x = ascii_of_N k /\ (48 <= k <= 57)%N.
Proof.
  unfold pretty_N_char. repeat match goal with |- context [match ?x with _ => _ end] => destruct x end;
    match goal with |- exists k, ?c = _ /\ _ => exists (N_of_ascii c); split; [reflexivity|vm_compute; split; discriminate] end.
Qed.
Lemma pretty_N_go_first x : forall s, (0 < x)%N -> exists y s', pretty_N_go x s = String (pretty_N_char y) s'.
Proof.
  induction x as [x IH] using (well_founded_induction N.lt_wf_0). intros s Hx. rewrite pretty_N_go_step by done.
  destruct (decide (0 < x `div` 10)%N) as [H|H].
  - apply IH; [|done]. apply N.div_lt; lia.
  - destruct (x `div` 10)%N; [|by destruct H]. rewrite pretty_N_go_0. by eauto.
Qed.
Lemma first_char_ends c k s : c = ascii_of_N k -> (48 <= k <= 57)%N -> is_end (OText (String c s)) = false.
Proof.
  intros -> Hk. assert (k = 48 \/ k = 49 \/ k = 50 \/ k = 51 \/ k = 52 \/ k = 53 \/ k = 54 \/ k = 55 \/ k = 56 \/ k = 57)%N as H by lia.
  by repeat destruct H as [->|H]; [..|subst k].
Qed.
Lemma is_end_Itoa z s : is_end (OText (Itoa z +:+ s)) = false.
Proof.
  unfold Itoa. destruct z as [|p|p]; [done| |done].
  change (pretty (Z.pos p)) with (pretty (N.pos p)). unfold pretty, pretty_N. rewrite decide_False by done.
  destruct (pretty_N_go_first (N.pos p) "" eq_refl) as (y & s' & ->). destruct (pretty_N_char_digit y) as (k & E & Hk).
  by eapply first_char_ends.
Qed.

Section answers.
Context {env : CmdEnv} {M : Type} `{!RadioModel M}.
Implicit Types r : CmdRunner M.

(** Nothing in the answer so far ends it, and the command is in the foreground. *)
Definition open_answer r : Prop :=
  Forall (fun o => is_end o = false) (cc_output (cr_cc r)) /\ cc_isBackgroundCmd (cr_cc r) = false.
(** In addition, there was no error. *)
Definition clean r : Prop := open_answer r /\ cc_err (cr_cc r) = None.
Lemma cl_same f : (forall r, cr_cc (f r) = cr_cc r) -> preserves clean (modify f).
Proof. intros H. apply hoare_modify. intros r [[H1 H2] H3]. unfold clean, open_answer. by rewrite H. Qed.
#[local] Hint Extern 3 (hoare clean (modify _) _) => apply cl_same; reflexivity : hoare.
Lemma cl_on_sim {A} (m : st (Sim M) A) : preserves clean (on_sim m).
Proof. unfold on_sim. pres. Qed.
Lemma cl_on_disp {A} (m : st (Dispatcher M) A) : preserves clean (on_disp m).
Proof. apply cl_on_sim. Qed.
Lemma cl_node_cmd {A} id (m : CliEnv -> st SimNode A) : preserves clean (node_cmd id m).
Proof. apply cl_on_sim. Qed.
Lemma cl_out o : is_end o = false -> preserves clean (out o).
Proof.
  intros Ho. apply hoare_modify. intros r [[H1 H2] H3]. split; [|done]. split; [|done]. cbn. apply Forall_app. by split; [|constructor].
Qed.
Lemma cl_get_sim : preserves clean get_sim.
Proof. apply pres_gets. Qed.
Lemma cl_getNodeById id : preserves clean (getNodeById id).
Proof. unfold getNodeById. apply pres_bind; [apply cl_get_sim|]. intros s. apply pres_ret. Qed.
Lemma cl_expand nss : preserves clean (expand nss).
Proof. unfold expand. apply pres_bind; [apply cl_get_sim|]. intros s. apply pres_ret. Qed.
#[local] Hint Resolve cl_on_sim cl_on_disp cl_node_cmd cl_get_sim cl_getNodeById cl_expand : hoare.
#[local] Hint Extern 3 (hoare clean (out _) _) => apply cl_out; reflexivity : hoare.
#[local] Hint Extern 3 (hoare clean (outputln (Itoa _)) _) => apply cl_out, is_end_Itoa : hoare.
#[local] Hint Extern 4 (hoare clean (outputln _) _) =>
  apply cl_out; repeat match goal with |- context [if ?b then _ else _] => destruct b end; reflexivity : hoare.
#[local] Hint Extern 3 (hoare clean (warnf _) _) => apply cl_out; reflexivity : hoare.

(** A command that stops at its first error. *)
Abbreviation stops m := (hoare clean m (fun _ => open_answer)).
Lemma stops_clean {A} (m : st (CmdRunner M) A) : preserves clean m -> stops m.
Proof. intros H r a r' Hr E. by destruct (H r a r' Hr E). Qed.
Lemma stops_error e : stops (cc_error e).
Proof.
  destruct e as [e|]; [|apply stops_clean, pres_ret]. intros r [] r' [[H1 H2] H3] E. cbn [cc_error] in E.
  apply bind_st_Ok in E as (? & ? & [<- <-]%get_st_Ok & E). rewrite H3 in E.
  apply bind_st_Ok in E as ([] & ? & [_ <-]%ret_st_Ok & E). unfold mod_cc in E. apply modify_st_Ok in E as <-. by split.
Qed.
Lemma stops_errorf e : stops (errorf e).
Proof. apply stops_error. Qed.
Lemma stops_bind {A B} (m : st (CmdRunner M) A) (k : A -> st (CmdRunner M) B) :
  preserves clean m -> (forall a, stops (k a)) -> stops (mbind k m).
Proof. intros H1 H2. by eapply hoare_bind. Qed.
Ltac stop_step :=
  match goal with
  | |- hoare clean (mbind _ _) _ => apply stops_bind; [solve [pres]|intros ?]
  | |- hoare clean (cc_error _) _ => apply stops_error
  | |- hoare clean (errorf _) _ => apply stops_errorf
  | |- hoare clean (match ?x with _ => _ end) _ => destruct x
  end.
Ltac stops := repeat stop_step; try (apply stops_clean; solve [pres]).

(** Commands that report at most one error, all but the last line of whose answer is fixed. *)
Definition one_answer (cmd : Command) : bool :=
  match cmd with
  | CmdDebug _ _ | CmdDel _ | CmdHelp _ | CmdNode _ _ | CmdRadio _ _ | CmdRadioModel _ | CmdScan _ | CmdWatch _ _ _ => false
  | CmdSend c => negb (String.eqb (sc_Protocol c) "reset")
  | _ => true
  end.
Lemma cl_first_addrs id kinds ty : preserves clean (first_addrs id kinds ty).
Proof. induction kinds as [|[t c] kinds IH]; cbn [first_addrs]; pres. Qed.
Lemma cl_getAddrs id ty : preserves clean (getAddrs id ty).
Proof. apply cl_first_addrs. Qed.
#[local] Hint Resolve cl_getAddrs : hoare.
Lemma cl_getNode sel : preserves clean (getNode sel).
Proof. apply cl_getNodeById. Qed.
Lemma cl_collect_all {A} (f : nat -> st (Dispatcher M) (list A)) ls acc : preserves clean (collect_all f ls acc).
Proof. revert acc. induction ls as [|l ls IH]; intros acc; cbn [collect_all]; pres. Qed.
#[local] Hint Resolve cl_getNode cl_collect_all : hoare.
Lemma cl_collect {A} (f : nat -> st (Dispatcher M) (list A)) row :
  (forall id x, is_end (row id x) = false) -> preserves clean (executeCollect f row).
Proof.
  intros H. assert (forall id x, preserves clean (out (row id x))) by (intros; by apply cl_out). unfold executeCollect. pres.
Qed.
Lemma cl_exe_list : preserves clean exe_list.
Proof. unfold exe_list. pres. Qed.
Lemma cl_exe_field ty ec label cur set s : exe_field ty ec = Some (label, cur, set) -> is_end (OText (label +:+ s)) = false.
Proof.
  unfold exe_field. repeat match goal with |- context [if ?b then _ else _] => destruct b end; intros [= <- <- <-]; reflexivity.
Qed.
#[local] Hint Resolve cl_exe_list : hoare.
Lemma stops_exe a b c d : stops (executeExe a b c d).
Proof.
  unfold executeExe. apply stops_bind; [pres|]. intros s. destruct (negb (String.eqb a "")).
  - destruct (exe_field a _) as [[[label cur] set]|] eqn:E; [|stops]. apply stops_bind; [pres|]. intros _.
    apply stops_clean, cl_out. unfold outputln. rewrite string_app_assoc. by eapply cl_exe_field.
  - stops.
Qed.
Lemma stops_rfsim a b c d e : stops (executeRfSim a b c d e).
Proof.
  assert (forall p n u s, (p, n, u) ∈ param_rows -> is_end (OText (pad_right 20 n +:+ s)) = false) as HR.
  { intros p n u s H. unfold param_rows in H. cbn [zip zip_with RfSimParamsList RfSimParamNamesList RfSimParamUnitsList] in H.
    repeat (apply elem_of_cons in H as [[= -> -> ->]|H]; [reflexivity|]). by apply elem_of_nil in H. }
  assert (forall id rows, (forall x, x ∈ rows -> x ∈ param_rows) -> stops (show_params id rows)) as HS.
  { intros id rows. induction rows as [|[[p n] u] rows IH]; intros Hin; cbn [show_params]; [stops|].
    do 2 (apply stops_bind; [pres|]; intros ?). match goal with |- hoare _ (match ?x with _ => _ end) _ => destruct x end; [stops|].
    apply stops_bind; [|intros; apply IH; set_solver]. apply cl_out. rewrite string_app_assoc. apply (HR p n u). set_solver. }
  assert (forall f : Z * string * string -> string, (forall p n u, exists s, f (p, n, u) = pad_right 20 n +:+ s) ->
    preserves clean (for_each param_rows (fun '(p, n, u) => outputln (f (p, n, u))))) as HF.
  { intros f Hf. apply pres_for_each. intros [[p n] u] Hin. destruct (Hf p n u) as [s ->]. apply cl_out. rewrite string_app_assoc.
    by eapply HR. }
  unfold executeRfSim. destruct b as [sel|].
  - apply stops_bind; [pres|]. intros node. destruct node; [|stops]. unfold rfsim_node.
    destruct (String.eqb c ""); [by apply HS|]. stops.
  - destruct a.
    + unfold rfsim_default. apply stops_bind; [pres|]. intros s. destruct (String.eqb c ""); [|stops]. apply stops_clean.
      apply pres_for_each. intros [[p n] u] Hin. destruct (_ !! p); [|apply pres_ret]. apply cl_out. rewrite string_app_assoc.
      by eapply HR.
    + destruct (negb (String.eqb c "")); [stops|]. apply stops_clean.
      apply (HF (fun '(_, n, u) => pad_right 20 n +:+ " (" +:+ u +:+ ")")). intros p n u. by eexists.
Qed.
(** A command that says itself whether it can go on. *)
Lemma stops_flag {B} (m : st (CmdRunner M) bool) (k : bool -> st (CmdRunner M) B) :
  hoare clean m (fun b r => if b then clean r else open_answer r) ->
  stops (k true) -> preserves open_answer (k false) -> stops (mbind k m).
Proof.
  intros H1 H2 H3 r b r' Hr (a & r1 & E1 & E2)%bind_st_Ok. specialize (H1 r a r1 Hr E1).
  destruct a; [exact (H2 r1 b r' H1 E2)|exact (H3 r1 b r' H1 E2)].
Qed.
Lemma flag_error e :
  hoare clean (_ ← cc_error e; mret false : st (CmdRunner M) bool) (fun b r => if b then clean r else open_answer r).
Proof. eapply hoare_bind; [apply stops_error|]. intros u r b r' H [<- <-]%ret_st_Ok. exact H. Qed.
Lemma flag_true : hoare clean (mret true) (fun b r => if b then clean r else open_answer r).
Proof. by intros r b r' H [<- <-]%ret_st_Ok. Qed.
Lemma flag_joinGroup b ids : hoare clean (joinGroup b ids) (fun b r => if b then clean r else open_answer r).
Proof.
  induction ids as [|id ids IH]; cbn [joinGroup]; [apply flag_true|].
  eapply hoare_bind; [apply cl_getNodeById|]. intros dst. cbn beta. destruct dst as [n|].
  - eapply hoare_bind; [apply cl_node_cmd|]. intros e. cbn beta. destruct e as [e|]; [apply flag_error|].
    eapply hoare_bind; [apply pres_get|]. intros r. cbn beta.
    eapply (hoare_bind _ _ _ (fun _ => clean)); [destruct b; [apply cl_node_cmd|apply pres_ret]|]. intros e. cbn beta.
    destruct e; [apply flag_error|done].
  - eapply (hoare_bind _ _ _ (fun _ => clean)); [by apply cl_out|]. intros _. done.
Qed.
Lemma flag_nextGroup b : hoare clean (nextGroup b) (fun b r => if b then clean r else open_answer r).
Proof.
  unfold nextGroup. destruct b; cbn [negb]; [|apply flag_true]. eapply hoare_bind; [apply pres_get|]. intros r. cbn beta.
  destruct (_ >=? _); [apply flag_error|].
  eapply (hoare_bind _ _ _ (fun _ => clean)); [by apply cl_same|]. intros _. apply flag_true.
Qed.
Lemma stops_send c : String.eqb (sc_Protocol c) "reset" = false -> stops (executeSend c).
Proof.
  intros Hp. unfold executeSend. rewrite Hp. apply stops_bind; [pres|]. intros src. destruct (sc_DstId c) as [|sel sels]; [stops|].
  do 2 (apply stops_bind; [pres|]; intros ?). cbv zeta. destruct (_ && _); [stops|]. destruct src; [|stops].
  destruct (_ && _); [stops|]. apply stops_bind; [pres|]. intros e. destruct e; [stops|].
  apply stops_flag; [apply flag_nextGroup| |apply pres_ret]. cbn [negb].
  apply stops_flag; [apply flag_joinGroup| |apply pres_ret]. cbn [negb].
  assert (preserves clean (sendAddress c (bool_decide (1 < length a0)%nat) a0 (ns_Id sel))) as HA by (unfold sendAddress; pres).
  apply stops_bind; [exact HA|]. intros addr. destruct addr; [|stops]. unfold sendData. stops.
Qed.
Lemma stops_host a b c d e : stops (executeHost a b c d e).
Proof. unfold executeHost. destruct (_ ≫= _); [stops|]. cbv zeta. stops. Qed.
Lemma stops_logLevel level : stops (executeLogLevel level).
Proof.
  unfold executeLogLevel. destruct (String.eqb level ""); [|stops]. apply stops_clean. apply pres_bind; [apply pres_get|]. intros r.
  intros r1 u r2 H E. apply bind_st_Ok in E as (s & r3 & [Hs <-]%lift_st_Ok & E). revert E. apply hoare_run_flip; [|done].
  apply cl_out. unfold GetLevelString in Hs.
  repeat match type of Hs with context [if ?b then _ else _] => destruct b end; first [discriminate Hs|by injection Hs as <-].
Qed.
Lemma stops_save f : stops (executeSave f).
Proof. unfold executeSave. stops. Qed.
Lemma stops_ping c : stops (executePing c).
Proof.
  unfold executePing. apply stops_bind; [pres|]. intros src. destruct src; [|stops].
  apply stops_bind; [destruct (pc_Dst c); pres|]. intros dst. destruct dst; stops.
Qed.
Lemma stops_command cmd : one_answer cmd = true -> stops (run_command cmd).
Proof.
  destruct cmd; intros H; try discriminate H; cbn [run_command].
  - unfold executeAddNode. stops.
  - unfold executeAutoGo. stops.
  - unfold executeCoaps. stops.
  - unfold executeConfigVisualization. stops.
  - unfold executeCountDown. stops.
  - unfold executeCounters. stops.
  - unfold executeDemoLegend. stops.
  - unfold executeEnergy. stops.
  - apply stops_exe.
  - unfold executeExit, enterNodeContext. stops.
  - unfold executeGo. stops.
  - apply stops_host.
  - by apply stops_clean, cl_collect.
  - unfold executeKpi. stops.
  - unfold executeLoad. stops.
  - apply stops_logLevel.
  - unfold executeMoveNode. stops.
  - unfold executeNetInfo. stops.
  - unfold executeLsNodes. stops.
  - unfold executeLsPartitions. stops.
  - apply stops_ping.
  - by apply stops_clean, cl_collect.
  - unfold executePlr. stops.
  - unfold executeRadioParam. stops.
  - apply stops_rfsim.
  - apply stops_save.
  - apply stops_send. by apply negb_true_iff.
  - unfold executeSpeed. stops.
  - unfold executeTime. stops.
  - unfold executeTitle. stops.
  - unfold executeUnwatch, unwatchOne. stops.
  - unfold executeWeb. stops.
Qed.
Lemma foreground cmd : one_answer cmd = true -> isBackgroundCommand cmd = false.
Proof. by destruct cmd. Qed.
Lemma prefix_app p a b : String.prefix p a = true -> String.prefix p (a +:+ b) = true.
Proof.
  revert a. induction p as [|c p IH]; intros a E; [by destruct (a +:+ b)|]. destruct a as [|d a]; [done|].
  change (String.prefix (String c p) (String d (a +:+ b)) = true). cbn in E |- *.
  destruct (ascii_dec c d); [|done]. by apply IH.
Qed.
Lemma error_line_end e : is_end (OText (error_line e)) = true.
Proof.
  unfold error_line. destruct (HasPrefix e "Error") eqn:E; cbn [is_end]; apply orb_true_iff; right; [|done].
  by apply prefix_app.
Qed.

End answers.

(** ** Radio parameters and simulated periods *)
Fixpoint param_value (name : string) (l : list (string * (float + bool))) : option (float + bool) :=
  match l with
  | [] => None
  | (n, v) :: l => if String.eqb n name then Some v else param_value name l
  end.
Definition param_of (name : string) (p : RadioModelParams) : option (float + bool) := param_value name (radio_params p).
(** What a number assigns to a parameter that has the value [old]. *)
Definition assigned (old : float + bool) (v : float) : float + bool :=
  match old with inl _ => inl v | inr _ => inr (PrimFloat.ltb 0 v) end.
Lemma param_value_find name l : snd <$> (snd <$> list_find (fun x => x.1 = name) l) = param_value name l.
Proof.
  induction l as [|[n v] l IH]; [done|]. cbn [list_find param_value fst]. case_decide as E.
  - subst n. by rewrite String.eqb_refl.
  - rewrite (proj2 (String.eqb_neq n name) E), <- IH. by destruct (list_find _ l) as [[i x]|].
Qed.
Lemma param_value_agree name param l l' :
  Forall2 (fun x y => x.1 = y.1 /\ (x.1 <> param -> x.2 = y.2)) l l' -> name <> param -> param_value name l = param_value name l'.
Proof.
  intros H N. induction H as [|[n v] [n' v'] l l' [E1 E2] _ IH]; [done|]. cbn in *. subst n'.
  destruct (String.eqb_spec n name) as [->|]; [by rewrite E2|done].
Qed.
Lemma set_radio_param_other name param v p : name <> param -> param_of name (set_radio_param param v p) = param_of name p.
Proof.
  apply param_value_agree. unfold radio_params, set_radio_param.
  repeat (constructor; [cbn; split; [done|]; intros N; by rewrite (proj2 (String.eqb_neq _ _) (not_eq_sym N))|]). constructor.
Qed.
Lemma set_radio_param_same param v p old : param_of param p = Some old -> param_of param (set_radio_param param v p) = Some (assigned old v).
Proof.
  unfold param_of. cbn [radio_params param_value].
  repeat match goal with
  | |- context [String.eqb ?n param] => destruct (String.eqb_spec n param) as [<-|_]; [intros [= <-]; reflexivity|]
  end. done.
Qed.

Section radio_params.
Context {env : CmdEnv} {M : Type} `{!RadioModel M} `{!RadioModelLaws M}.
Definition params_of (r : CmdRunner M) : RadioModelParams := rm_GetParameters (rs_model (d_radio (s_d (cr_sim r)))).
Lemma an_params cmd r r' : finish cmd r = Ok (tt, r') -> params_of r' = params_of r.
Proof. intros E. unfold params_of. by rewrite (an_finish cmd (cr_sim r) r tt r' eq_refl E). Qed.
Lemma radio_model {A} (m : st (radio_st M) A) (d : Dispatcher M) a d' : radio m d = Ok (a, d') ->
  exists r, m (mkRadioSt (rs_nodes (d_radio d)) (rs_model (d_radio d)) (rs_draws (d_radio d)) []) = Ok (a, r) /\
    rs_model (d_radio d') = rs_model r /\ d_out d' = d_out d.
Proof.
  unfold radio. destruct (m _) as [[b r]|] eqn:Em; [|done]. intros E. apply bind_st_Ok in E as ([] & d1 & E1 & [-> <-]%ret_st_Ok).
  exists r. split; [done|].
  refine (hoare_run (fun x => rs_model (d_radio x) = rs_model r /\ d_out x = d_out d) _ _ _ _ E1 _ _); [done|].
  apply pres_for_each. intros e _. apply hoare_update. intros x x' Hx Ex. apply bind_Ok in Ex as (q & _ & [= <-]). exact Hx.
Qed.

(** C8: The command radioparam assigns exactly the parameter that it names: that one gets the number,
    or whether it is positive if it is a switch, and all others keep their values.  A name that is
    no parameter is refused and changes nothing. *)
Theorem radioparam_exact param sign v r r' :
  param <> "" -> execute (CmdRadioParam param sign (Some v)) r = Ok (tt, r') ->
  let v := if String.eqb sign "-" then PrimFloat.opp v else v in
  match param_of param (params_of r) with
  | Some old => param_of param (params_of r') = Some (assigned old v)
  | None => params_of r' = params_of r /\ cc_err (cr_cc r') = Some ("unknown radiomodel parameter: " +:+ param)
  end /\
  forall name, name <> param -> param_of name (params_of r') = param_of name (params_of r).
Proof.
  intros HN E v'. unfold execute in E. apply bind_st_Ok in E as ([] & r1 & <-%modify_st_Ok & E).
  apply bind_st_Ok in E as ([] & r2 & E2 & E3). rewrite (an_params _ _ _ E3).
  cbn [run_command] in E2. unfold executeRadioParam in E2. apply bind_st_Ok in E2 as (s & ? & [<- <-]%gets_st_Ok & E2).
  cbn [cr_sim set_cc] in E2. rewrite (proj2 (String.eqb_neq _ _) HN) in E2. fold (params_of r) in E2.
  unfold param_of at 1. rewrite <- (param_value_find param). destruct (list_find _ _) as [[i [n old]]|] eqn:EF; cbn [fmap option_fmap option_map snd].
  - fold v' in E2. unfold on_disp in E2. apply on_sim_run in E2 as (s' & E2 & ->).
    apply bind_st_Ok in E2 as (? & ? & [<- <-]%get_st_Ok & E2). apply bind_st_Ok in E2 as ([[] d'] & ? & [Er <-]%lift_st_Ok & E2).
    apply bind_st_Ok in E2 as ([] & ? & <-%modify_st_Ok & E2). apply radio_model in Er as (rs & Er & Hm & Ho).
    cbn [cr_sim set_cc] in *. rewrite Ho, drop_all in E2. apply bind_st_Ok in E2 as ([] & ? & [_ <-]%ret_st_Ok & [_ <-]%ret_st_Ok).
    apply modify_params_assigns in Er. match goal with |- context [params_of ?x] => assert (params_of x = set_radio_param param v' (params_of r)) as -> end.
    { unfold params_of at 1. cbn [cr_sim set_sim s_d set_d]. by rewrite Hm. }
    assert (param_of param (params_of r) = Some old) as Hold.
    { unfold param_of. rewrite <- param_value_find, EF. done. }
    split; [by apply set_radio_param_same|]. intros name Hname. by apply set_radio_param_other.
  - unfold finish in E3. unfold errorf, cc_error in E2. apply bind_st_Ok in E2 as (? & ? & [<- <-]%get_st_Ok & E2). cbn in E2.
    apply bind_st_Ok in E2 as ([] & ? & [_ <-]%ret_st_Ok & <-%modify_st_Ok). split; [|done]. split; [done|].
    apply bind_st_Ok in E3 as (? & ? & [<- <-]%get_st_Ok & E3). destruct (_ && _) in E3; by injection E3 as <-.
Qed.
End radio_params.

(** ** The system with its command line *)


(** ** Examples *)
Definition ex_add (id : Z) : AddCmd := mkAddCmd "router" None None None (Some id) None false None false None None.
Definition ex_commands : list (string * Command) := [
  ("add router id 1", CmdAdd (ex_add 1)); ("add router id 5", CmdAdd (ex_add 5));
  ("del 1-3", CmdDel [mkSelector 1 false 3]); ("load", CmdLoad "f" true); ("time", CmdTime);
  ("send udp 1 5 1", CmdSend (mkSendCmd "udp" "" (mkSelector 1 false 0) [mkSelector 5 false 0; mkSelector 1 false 0] None None))].
Definition ex_cmd_env : CmdEnv := {|
  ce_sim := ex_sim_env;
  parseBytes line := match list_find (fun x => x.1 = line) ex_commands with Some (_, (_, c)) => inr c | None => inl "parse error" end;
  os_Stat _ := StatOk false;
  load_yaml _ := inr (mkNetwork (0, 0, 0) None None, [mkYamlNode 1 "router" None (10, 10, 0) None]);
  save_error _ := None; ParseAddr _ := None; node_seed _ := None; randomString _ := ""; cliHelpFile := ex_file; WrapString s _ := s; term_width := None; range_groups := elements;
  range_map A m := map_to_list m; model_seed _ := 0; OpenWeb _ := None; go_queued _ := false;
  go_waits _ := [mkGoWait [] [([], RDisp DSyncAlive); ([], RDisp (DProcess 20)); ([], RDisp (DAdvance 10))] []] |}.
Abbreviation ex_cli_reachable :=
  (cli_reachable (env := ex_cmd_env) (RadioModel0 := @ideal_model ex_env) ex_sim_config ex_config ex_model 0).
Fixpoint ex_lines (ls : list (list (list Event) * string)) : st (CmdRunner Ideal.RadioModelIdeal) () :=
  match ls with
  | [] => mret tt
  | (w, l) :: ls =>
    _ ← (fun r => if cr_stopping r then Panic Panicf else on_line (env := ex_cmd_env) (RadioModel0 := @ideal_model ex_env) w l r);
    ex_lines ls
  end.
Definition ex_session (ls : list (list (list Event) * string)) : res (CmdRunner Ideal.RadioModelIdeal) :=
  s ← ex_sim_start; '(_, r) ← ex_lines ls (NewCmdRunner s InfoLevel "info"); Ok r.
(** Nodes 1 and 5 are added, and a message is sent to both. *)
Definition ex_two_nodes : list (list (list Event) * string) := [
  ([ex_awake 1 0 1], "add router id 1"); ([ex_awake 5 0 2], "add router id 5"); ([], "send udp 1 5 1")].
Definition ex_see (r : CmdRunner Ideal.RadioModelIdeal) : list NodeId * Z * list CmdOut :=
  (GetNodes (cr_sim r), cr_sendGroupId r, cc_output (cr_cc r)).
Lemma ex_session_reachable ls r : ex_session ls = Ok r -> ex_cli_reachable r.
Proof.
  intros E. unfold ex_session in E. apply bind_Ok in E as (s & E0 & E). apply bind_Ok in E as ([[] r1] & E1 & [= <-]).
  assert (ex_cli_reachable (NewCmdRunner s InfoLevel "info")) as H by by apply cl_new.
  revert E1 H. generalize (NewCmdRunner s InfoLevel "info") as r0. clear. induction ls as [|[w l] ls IH]; intros r0 E H.
  - by apply ret_st_Ok in E as [_ <-].
  - cbn [ex_lines] in E. apply bind_st_Ok in E as ([] & r2 & E2 & E). apply (IH r2 E).
    destruct (cr_stopping r0) eqn:Hs; [done|]. by eapply cl_line.
Qed.
(** A fact about the state after a session, by computation. *)
Lemma ex_fact ls (P : CmdRunner Ideal.RadioModelIdeal -> bool) :
  match ex_session ls with Ok r => P r | Panic _ => false end = true ->
  exists r, ex_session ls = Ok r /\ ex_cli_reachable r /\ P r = true.
Proof. intros H. destruct (ex_session ls) as [r|] eqn:E; [|done]. exists r. eauto using ex_session_reachable. Qed.


(** Nothing arrives, time is virtual and no node is exiting. *)
Definition ex_idle (r : CmdRunner Ideal.RadioModelIdeal) : bool :=
  match s_waits (cr_sim r) with [] => true | _ => false end && negb (cf_Realtime (s_cfg (cr_sim r))) &&
  forallb (fun x => negb (sn_isExiting x.2.2)) (map_to_list (s_nodes (cr_sim r))).
Lemma ex_idle_ok r : ex_idle r = true ->
  s_waits (cr_sim r) = [] /\ cf_Realtime (s_cfg (cr_sim r)) = false /\
  forall id k n, s_nodes (cr_sim r) !! id = Some (k, n) -> sn_isExiting n = false.
Proof.
  intros [[H1 H2]%andb_true_iff H3]%andb_true_iff. destruct (s_waits (cr_sim r)); [|done]. split; [done|].
  split; [by apply negb_true_iff|]. intros id k n Hn. rewrite forallb_forall in H3. apply negb_true_iff.
  apply (H3 (id, (k, n))). by apply list_elem_of_In, elem_of_map_to_list.
Qed.
Abbreviation ex_execute := (execute (env := ex_cmd_env) (RadioModel0 := @ideal_model ex_env)).
Definition ex_ok {A B} (r : res (A * B)) : bool := match r with Ok _ => true | Panic _ => false end.
Lemma del_exact_witness :
  exists r r', ex_session ex_two_nodes = Ok r /\ ex_execute (CmdDel [mkSelector 1 false 3]) r = Ok (tt, r') /\
    dom (s_nodes (cr_sim r')) =
      dom (s_nodes (cr_sim r)) ∖ positive (expandNodeSelector (GetNodes (cr_sim r)) [mkSelector 1 false 3]).
Proof.
  destruct (ex_fact ex_two_nodes (fun r => ex_idle r && ex_ok (ex_execute (CmdDel [mkSelector 1 false 3]) r)))
    as (r & E & HR & [HI HE]%andb_true_iff); [vm_compute; reflexivity|].
  apply ex_idle_ok in HI as (H1 & H2 & H3).
  destruct (ex_execute (CmdDel [mkSelector 1 false 3]) r) as [[[] r']|] eqn:E'; [|discriminate HE]. exists r, r'. split; [exact E|]. split; [exact E'|].
  exact (proj1 (del_exact (env := ex_cmd_env) ex_sim_config ex_config ex_model 0 r [mkSelector 1 false 3] r' HR H2 H1 H3 E')).
Defined.
Lemma load_add_fresh_witness :
  exists r r', ex_session ex_two_nodes = Ok r /\ ex_execute (CmdLoad "f" true) r = Ok (tt, r') /\
    dom (s_nodes (cr_sim r)) ⊆ dom (s_nodes (cr_sim r')).
Proof.
  destruct (ex_fact ex_two_nodes (fun r => forallb (fun x => 0 <? x.1) (map_to_list (s_nodes (cr_sim r))) &&
    ex_ok (ex_execute (CmdLoad "f" true) r))) as (r & E & HR & [HP HE]%andb_true_iff); [vm_compute; reflexivity|].
  destruct (ex_execute (CmdLoad "f" true) r) as [[[] r']|] eqn:E'; [|discriminate HE]. exists r, r'. split; [exact E|]. split; [exact E'|].
  assert (forall id, id ∈ dom (s_nodes (cr_sim r)) -> 0 < id) as Hpos.
  { intros id [x Hx]%elem_of_dom. rewrite forallb_forall in HP. apply Z.ltb_lt, (HP (id, x)).
    by apply list_elem_of_In, elem_of_map_to_list. }
  assert (Forall (fun n => 0 < yc_ID n) [mkYamlNode 1 "router" None (10, 10, 0) None]) as Hids by by constructor.
  assert (CheckSafePath (env := @se_path ex_sim_env) "f" = inr "/work/f") as Hf by (vm_compute; reflexivity).
  exact (proj1 (proj2 (proj2 (load_add_fresh (env := ex_cmd_env) ex_sim_config ex_config ex_model 0 r "f" "/work/f"
    (mkNetwork (0, 0, 0) None None) [mkYamlNode 1 "router" None (10, 10, 0) None] r' HR Hpos Hids Hf eq_refl eq_refl E')))).
Defined.

(** ** What is hardly intended *)
(** Two errors end the answer twice. *)
Example radio_two_errors :
  match ex_session ex_two_nodes with
  | Ok r => match ex_execute (CmdRadio [mkSelector 98 false 0; mkSelector 99 false 0] RadioOn) r with
            | Ok (_, r') => map is_end (cc_output (cr_cc r'))
            | Panic _ => []
            end
  | Panic _ => []
  end = [true; true].
Proof. vm_compute. reflexivity. Qed.
(** Deleting a host deletes all hosts that have no address. *)
Example host_del_others :
  match ex_session [] with
  | Ok r => match (_ ← ex_execute (CmdHost "add" "a" None 1 2); ex_execute (CmdHost "del" "b" None 0 0)) r with
            | Ok (_, r') => elements (sh_Hosts (s_simHosts (cr_sim r')))
            | Panic _ => [mkEndpoint "" AddrZero 0 0]
            end
  | Panic _ => [mkEndpoint "" AddrZero 0 0]
  end = [].
Proof. vm_compute. reflexivity. Qed.
(** The noise floor is set to -90 dBm, and nothing else changes. *)
Abbreviation ex_params := (params_of (RadioModel0 := @ideal_model ex_env)).
Lemma radioparam_exact_witness :
  exists r r', ex_session [] = Ok r /\ ex_execute (CmdRadioParam "NoiseFloorDbm" "-" (Some 90%float)) r = Ok (tt, r') /\
    param_of "NoiseFloorDbm" (ex_params r') = Some (inl (-90)%float) /\ param_of "RssiMinDbm" (ex_params r') = param_of "RssiMinDbm" (ex_params r).
Proof.
  destruct (ex_fact [] (fun r => ex_ok (ex_execute (CmdRadioParam "NoiseFloorDbm" "-" (Some 90%float)) r) &&
    match param_of "NoiseFloorDbm" (ex_params r) with Some (inl _) => true | _ => false end)) as (r & E & _ & [HE HP]%andb_true_iff);
    [vm_compute; reflexivity|].
  destruct (ex_execute (CmdRadioParam "NoiseFloorDbm" "-" (Some 90%float)) r) as [[[] r']|] eqn:E'; [|discriminate HE]. exists r, r'.
  split; [exact E|]. split; [exact E'|].
  pose proof (radioparam_exact (env := ex_cmd_env) (RadioModel0 := @ideal_model ex_env) "NoiseFloorDbm" "-" 90%float r r' ltac:(discriminate) E') as [H1 H2].
  split; [|apply H2; discriminate]. destruct (param_of "NoiseFloorDbm" (ex_params r)) as [[f|b]|]; [exact H1|discriminate HP|discriminate HP].
Defined.
(** A period of 10 us is simulated: the command waits until it is over. *)
Example ex_go :
  match ex_session ex_two_nodes with
  | Ok r => match ex_execute (CmdGo "10us" false None) r with
            | Ok (_, r') => (d_CurTime (s_d (cr_sim r)), d_CurTime (s_d (cr_sim r')), cc_output (cr_cc r'))
            | Panic _ => (0, 0, [])
            end
  | Panic _ => (0, 0, [])
  end = (0, 10, [OText ("Done" +:+ nl)]).
Proof. vm_compute. reflexivity. Qed.

(** The speed that go asks for is positive, as [GoAtSpeed] asserts, if the speed that is given and
    the present one are numbers that are not negative. *)
Lemma positive_speed f : PrimFloat.leb 0 f = true -> PrimFloat.eqb f 0 = false -> PrimFloat.ltb 0 f = true.
Proof.
  rewrite leb_spec, eqb_spec, ltb_spec. change (Prim2SF 0) with (S754_zero false). unfold SFleb, SFeqb, SFltb, SFcompare.
  by destruct (Prim2SF f) as [[]|[]| |[]].
Qed.
Theorem go_speed_positive {M} `{!RadioModel M} speed (s : Sim M) :
  match speed with Some f => PrimFloat.leb 0 f = true | None => PrimFloat.leb 0 (d_speed (s_d s)) = true end ->
  PrimFloat.ltb 0 (go_speed speed s) = true.
Proof.
  intros H. unfold go_speed. set (f := match speed with Some v => v | None => _ end).
  destruct (PrimFloat.eqb f 0) eqn:E; [reflexivity|]. apply positive_speed; [|done].
  subst f. destruct speed; [done|]. by destruct (ag_autoGo (s_auto s)).
Qed.

Section panics.
Context {env : CmdEnv} {M : Type} `{!RadioModel M}.
(** The task of go puts its request into a channel for one, in the goroutine that reads the channel.  When
    the request that autogo made is still there, the simulator stops for ever. *)
Theorem go_blocks (r : CmdRunner M) time speed duration :
  go_duration time = Some duration -> 0 <= duration -> PrimFloat.ltb 0 (go_speed speed (cr_sim r)) = true ->
  PrimFloat.leb 0 (go_speed speed (cr_sim r)) = true -> go_queued (length (d_out (s_d (cr_sim r)))) = true ->
  execute (CmdGo time false speed) r = Panic Blocked.
Proof.
  intros HD H0 H1 H2 HQ. unfold execute, run_command, executeGo, mbind, st_bind, modify, get_sim, gets. cbn [cr_sim set_cc].
  rewrite HD. unfold on_sim, GoAtSpeed, mbind, st_bind, lift, get. cbn [cr_sim set_cc]. rewrite H1, H2, HQ.
  by rewrite (proj2 (Z.geb_le duration 0) H0).
Qed.
(** Resetting test traffic of a node that does not exist takes the simulator down. *)
Theorem send_reset_panics (r : CmdRunner M) id :
  0 < id -> s_nodes (cr_sim r) !! id = None ->
  execute (CmdSend (mkSendCmd "reset" "" (mkSelector id false 0) [] None None)) r = Panic NilDereference.
Proof.
  intros Hid Hn. unfold execute, run_command, executeSend, expand, expandNodeSelector, getUniqueAndSorted, unique_loop, add_selector.
  cbn [ns_All ns_Id ns_IdRange sc_SrcId sc_Protocol]. rewrite lookup_empty, insert_empty, dom_singleton_L, elements_singleton.
  unfold getNode, getNodeById, resetOne, getNodeById, get_sim, mbind, st_bind, modify, gets, mret, st_ret.
  cbn -[Z.gtb]. rewrite lookup_singleton_eq. cbn -[Z.gtb].
  change (0 >? 0) with false. cbn -[Z.gtb]. replace (id >? 0) with true by (symmetry; apply Z.gtb_lt; lia).
  unfold mbind, st_bind. cbn -[Z.gtb]. rewrite Hn. reflexivity.
Qed.
(** So does asking for the executables of version ccm, which the command accepts. *)
Theorem exe_ccm_panics (r : CmdRunner M) : execute (CmdExe "" false "ccm" "") r = Panic AssertFailed.
Proof. reflexivity. Qed.
End panics.
