(* ===== verification/VisSafety.v ===== *)
(** * The visualizers under the whole system

    Whatever the user and the nodes do, the visualizers are called as their interface
    requires ([CmdRunnerLaws], [DispatcherVis]), and the visualizers of the repository work
    under such calls ([Visualizers], [GrpcLaws]): here the two are put together. *)

From S2P Require Import Prelude State Types GoFloat Visualize Visualizers GrpcVisualizer GrpcLaws.
From S2P Require Import RadioModel RadioLaws Dispatcher DispatcherIndex DispatcherVis Lifecycle LifecycleLaws CmdRunner CmdRunnerLaws.

Local Open Scope string_scope.
Local Open Scope Z_scope.

(** All the calls to the visualizer so far. *)
Definition all_calls {M} (r : CmdRunner M) : list VisCall := vis_of (d_out (s_d (cr_sim r))).


(** ** An example *)
(** All kinds of visualizer together; the gRPC visualizer writes a replay file. *)
Definition ex_multi : list AnyVisualizer :=
  NewMultiVisualizer [AnyVis nop_visualizer tt; AnyVis (statslog_visualizer (env := ex_csv)) ex_statslog;
    AnyVis (grpc_visualizer (env := ex_stream_env)) (NewGrpcVisualizer true)].
Lemma ex_multi_knows : vis_knows ∅ ex_multi.
Proof.
  repeat apply Forall_cons_2; [by exists nop_follows|by exists (statslog_follows (env := ex_csv))| |constructor].
  exists (grpc_follows (env := ex_stream_env)). apply new_knows.
Qed.
