(* ===== verification/RunCli.v ===== *)
(** * The terminal

    src/cli/runcli.go: the loop that reads lines from the terminal and hands them to the
    command runner.  What the line editor returns is an argument, with what arrives at the
    simulation meanwhile; the set-up of the terminal, its prompt and the log are left out. *)

From Stdlib Require Import Ascii.
From S2P Require Import Prelude State Types Event GoFloat GoStrings GoText.
From S2P Require Import RadioModel RadioLaws Dispatcher DispatcherIndex Lifecycle LifecycleLaws CliSelect CmdRunner CmdRunnerLaws.

Local Open Scope string_scope.

(** What [Readline] returns: a line, an interrupt in a line, the end of the input, an error. *)
Inductive Read := ReadLine (line : string) | ReadInterrupt (line : string) | ReadEof | ReadErr.
(** How the loop ends: without or with an error, or it waits for input. *)
Inductive CliEnd := CliNil | CliErr | CliWaits.
Definition CharInterrupt : ascii := "003"%char.
Definition interrupted (line : string) : bool := match line with String c _ => Ascii.eqb c CharInterrupt | EmptyString => false end.

Section cli.
Context {env : CmdEnv} {M : Type} `{!RadioModel M}.
Abbreviation CM := (st (CmdRunner M)) (only parsing).
(** [echo]: the outcome of writing each line back to the terminal, if that is asked for. *)
Fixpoint Run (echo : option (nat -> bool)) (i : nat) (reads : list (list (list Event) * Read)) : CM CliEnd :=
  match reads with
  | [] => mret CliWaits
  | (waits, read) :: reads =>
    match read with
    | ReadLine line =>
      if interrupted line then mret CliNil else
      if match echo with Some works => negb (works i) | None => false end then mret CliErr else
      let cmd := TrimSpace line in
      if String.eqb cmd "" then Run echo (S i) reads else
      _ ← on_line waits cmd;
      r ← get;
      if cr_stopping r then mret CliErr else Run echo (S i) reads
    | ReadInterrupt line => if interrupted line || String.eqb line "" then mret CliNil else Run echo (S i) reads
    | ReadEof => mret CliNil
    | ReadErr => mret CliErr
    end
  end.

(** ** What the loop does *)
(** The commands of the lines that are read up to the end of the input. *)
Fixpoint commands_read (reads : list (list (list Event) * Read)) : list (list (list Event) * string) :=
  match reads with
  | (waits, ReadLine line) :: reads =>
    if interrupted line then [] else
    if String.eqb (TrimSpace line) "" then commands_read reads else (waits, TrimSpace line) :: commands_read reads
  | (_, ReadInterrupt line) :: reads => if interrupted line || String.eqb line "" then [] else commands_read reads
  | _ => []
  end.
Fixpoint on_lines (cmds : list (list (list Event) * string)) : CM () :=
  match cmds with [] => mret tt | (waits, cmd) :: cmds => _ ← on_line waits cmd; on_lines cmds end.

(** The terminal loop executes the commands that are typed, each once and in order, up to the
    end of the input or the command that ends the program: its state after any input is that
    of executing a beginning of these commands, all of them if it did not stop with an error,
    and it is one that the command runner reaches. *)
Theorem Run_executes reads i cfg dcfg model rnd r e r' :
  cli_reachable cfg dcfg model rnd r -> cr_stopping r = false -> Run None i reads r = Ok (e, r') ->
  (exists done rest, commands_read reads = (done ++ rest)%list /\ on_lines done r = Ok (tt, r') /\
     (e <> CliErr -> rest = []) /\ (rest <> [] -> cr_stopping r' = true)) /\
  cli_reachable cfg dcfg model rnd r'.
Proof.
  revert i r. induction reads as [|[waits read] reads IH]; intros i r HR HS E; cbn [Run commands_read] in *.
  - apply ret_st_Ok in E as [<- <-]. split; [|done]. by exists [], [].
  - destruct read as [line|line| |]; [| |apply ret_st_Ok in E as [<- <-]; split; [by exists [], []|done]..].
    + destruct (interrupted line); [apply ret_st_Ok in E as [<- <-]; split; [by exists [], []|done]|].
      destruct (String.eqb (TrimSpace line) ""); [by eapply IH|].
      apply bind_st_Ok in E as ([] & r1 & E1 & E). apply bind_st_Ok in E as (? & ? & [<- <-]%get_st_Ok & E).
      assert (cli_reachable cfg dcfg model rnd r1) as HR1 by by eapply cl_line.
      destruct (cr_stopping r1) eqn:Hs.
      * apply ret_st_Ok in E as [<- <-]. split; [|done]. exists [(waits, TrimSpace line)], (commands_read reads).
        split; [done|]. split; [|done]. cbn [on_lines]. apply bind_st_Ok. by exists tt, r1.
      * destruct (IH _ _ HR1 Hs E) as [(dn & rest & H1 & H2 & H3 & H4) HR']. split; [|done].
        exists ((waits, TrimSpace line) :: dn), rest. split; [by rewrite H1|]. split; [|done]. cbn [on_lines]. apply bind_st_Ok. by exists tt, r1.
    + destruct (_ || _); [apply ret_st_Ok in E as [<- <-]; split; [by exists [], []|done]|]. by eapply IH.
Qed.
End cli.

(** ** An example *)
Definition ex_reads : list (list (list Event) * Read) :=
  [([ex_awake 1 0 1], ReadLine " add router id 1 "); ([], ReadLine "  "); ([], ReadInterrupt "del 1"); ([], ReadLine "time"); ([], ReadEof);
   ([], ReadLine "time")].
Lemma Run_executes_witness :
  commands_read ex_reads = [([ex_awake 1 0 1], "add router id 1"); ([], "time")] /\
  exists r r', Run (env := ex_cmd_env) (RadioModel0 := @ideal_model ex_env) None 0 ex_reads r = Ok (CliNil, r') /\ ex_cli_reachable r'.
Proof.
  split; [vm_compute; reflexivity|].
  destruct (ex_fact [] (fun r => match Run (env := ex_cmd_env) (RadioModel0 := @ideal_model ex_env) None 0 ex_reads r with
    | Ok (CliNil, _) => negb (cr_stopping r) | _ => false end)) as (r & _ & HR & HE); [vm_compute; reflexivity|].
  destruct (Run (env := ex_cmd_env) (RadioModel0 := @ideal_model ex_env) None 0 ex_reads r) as [[[] r']|] eqn:E; try discriminate HE.
  exists r, r'. split; [exact E|].
  exact (proj2 (Run_executes (env := ex_cmd_env) (RadioModel0 := @ideal_model ex_env) ex_reads 0 ex_sim_config ex_config ex_model 0 r CliNil r' HR
    (proj1 (negb_true_iff _) HE) E)).
Defined.
