(* ===== verification/Main.v ===== *)
(** * The start of the program (src/otns_main/otns_main.go, src/prng, and the default configurations)

    From the arguments of the command line to a running simulation: the address and the id of the
    simulation, its configuration and that of the dispatcher, the reading of a script file
    (nodescript_parser.go), and the random number generators.  The parsing of options is a library
    of Go; here an option has its value, and [parseArgs] gives the defaults.

    Shown here: the ports of two simulations do not overlap; whatever the arguments are, a simulation
    that is configured starts without a failed assertion, and its invariants hold; the random seeds of
    nodes depend on the root seed and the number of nodes only. *)

From S2P Require Import Prelude State Types Event GoFloat GoStrings GoText Pcap.
From S2P Require Import SendQueue AlarmMgr Energy Visualize DNode RadioNode RadioModel RadioLaws Dispatcher DispatcherIndex.
From S2P Require Import NodeConfig Uart SimNode Logger NodeProcess SimHosts Simulation Coaps Kpi Lifecycle LifecycleLaws.
From Stdlib Require Import Ascii.

Local Open Scope string_scope.
Local Open Scope Z_scope.

(** ** Arguments *)
Definition InitialDispatcherPort : Z := 9000.
Definition DefaultOutputDir : string := "tmp".
Definition OffLevelString : string := "off".
Definition NoneLevelString : string := "none".

Record MainArgs := mkArgs {
  a_Speed : string; a_OtCliPath : string; a_OtCliMtdPath : string; a_InitScriptName : string; a_AutoGo : bool; a_ReadOnly : bool;
  a_LogLevel : string; a_LogStderr : bool; a_LogNodeLevel : string; a_WatchLevel : string; a_OpenWeb : bool; a_Realtime : bool;
  a_ListenAddr : string; a_DumpPackets : bool; a_PcapType : string; a_Replay : bool; a_RandomSeed : Z; a_PhyTxStats : bool;
  a_OutputDir : string; a_OtBrBackboneIfName : string;
}.

Class MainEnv := {
  me_fs :: FsEnv;
  (** [os.Getenv] *)
  os_Getenv : string -> string;
  (** [strconv.ParseFloat], with its error, and [strings.ToLower] *)
  ParseFloat : string -> string + float;
  ToLower : string -> string;
  (** [os.ReadFile], and the scripts of a file by the YAML library; an error or the result *)
  os_ReadFile : string -> string + string;
  yaml_scripts : string -> string + YamlScriptConfig;
  (** [time.Now().UnixNano()] *)
  time_UnixNano : Z;
  (** the errors of creating a directory, of removing an old socket (none when there is none), of
      listening on a socket and of creating the capture file *)
  os_MkdirAll : string -> option string;
  os_Remove : string -> option string;
  net_Listen : string -> option string;
  pcap_NewFile : option string;
}.

(** ** Random numbers (src/prng/prng.go)

    A generator of math/rand is its seed and the number of values drawn from it. *)
Record Rand := mkRand { rd_seed : Z; rd_drawn : nat }.
Record Prng := mkPrng {
  rootSeed : Z; newNodeRandSeedGenerator : Rand; newRadioModelRandSeedGenerator : Rand; failTimeRandGenerator : Rand; unitRandGenerator : Rand;
}.
Definition s64 (z : Z) : Z := to_signed 64 z.
Definition prng_Init (now rootSeedInit : Z) : Prng :=
  let root := if rootSeedInit =? 0 then now else rootSeedInit in
  mkPrng root (mkRand root 0) (mkRand (s64 (root + 1)) 0) (mkRand (s64 (root + 2)) 0) (mkRand (s64 (root + 3)) 0).
Definition GetRootSeed (p : Prng) : Z := rootSeed p.

Section draws.
(** The [k]-th 63-bit number of the source with a seed; the methods of math/rand are made of them. *)
Variable source : Z -> nat -> Z.
Definition Int63 (r : Rand) : Z * Rand := (source (rd_seed r) (rd_drawn r), mkRand (rd_seed r) (S (rd_drawn r))).
Definition Int31 (r : Rand) : Z * Rand := let '(x, r) := Int63 r in (Z.shiftr x 32, r).
Definition NewNodeRandomSeed (p : Prng) : Z * Prng :=
  let '(x, r) := Int31 (newNodeRandSeedGenerator p) in
  (x, mkPrng (rootSeed p) r (newRadioModelRandSeedGenerator p) (failTimeRandGenerator p) (unitRandGenerator p)).
Definition NewRadioModelRandomSeed (p : Prng) : Z * Prng :=
  let '(x, r) := Int63 (newRadioModelRandSeedGenerator p) in
  (x, mkPrng (rootSeed p) (newNodeRandSeedGenerator p) r (failTimeRandGenerator p) (unitRandGenerator p)).
(** [Int31n] and [Float64] draw again when the number would make the result unevenly distributed;
    [fuel] bounds how often. *)
Fixpoint draw_upto (fuel : nat) (max : Z) (r : Rand) : res (Z * Rand) :=
  match fuel with
  | O => Panic OutOfFuel
  | S fuel => let '(v, r) := Int31 r in if v >? max then draw_upto fuel max r else Ok (v, r)
  end.
Fixpoint draw_upto63 (fuel : nat) (max : Z) (r : Rand) : res (Z * Rand) :=
  match fuel with
  | O => Panic OutOfFuel
  | S fuel => let '(v, r) := Int63 r in if v >? max then draw_upto63 fuel max r else Ok (v, r)
  end.
Definition Intn (fuel : nat) (n : Z) (r : Rand) : res (Z * Rand) :=
  if n <=? 0 then Panic Panicf
  else if n <=? 2 ^ 31 - 1 then
    if Z.land n (n - 1) =? 0 then let '(v, r) := Int31 r in Ok (Z.land v (n - 1), r)
    else '(v, r) ← draw_upto fuel (2 ^ 31 - 1 - 2 ^ 31 mod n) r; Ok (v mod n, r)
  else
    if Z.land n (n - 1) =? 0 then let '(v, r) := Int63 r in Ok (Z.land v (n - 1), r)
    else '(v, r) ← draw_upto63 fuel (2 ^ 63 - 1 - 2 ^ 63 mod n) r; Ok (v mod n, r).
Fixpoint Float64 (fuel : nat) (r : Rand) : res (float * Rand) :=
  match fuel with
  | O => Panic OutOfFuel
  | S fuel =>
    let '(v, r) := Int63 r in
    let f := (f_of_Z v / f_of_Z (2 ^ 63))%float in
    if PrimFloat.eqb f 1 then Float64 fuel r else Ok (f, r)
  end.
Definition NewFailTime (fuel : nat) (failStartTimeMax : Z) (p : Prng) : res (Z * Prng) :=
  '(x, r) ← Intn fuel failStartTimeMax (failTimeRandGenerator p);
  Ok (x mod 2 ^ 64, mkPrng (rootSeed p) (newNodeRandSeedGenerator p) (newRadioModelRandSeedGenerator p) r (unitRandGenerator p)).
Definition NewUnitRandom (fuel : nat) (p : Prng) : res (float * Prng) :=
  '(x, r) ← Float64 fuel (unitRandGenerator p);
  Ok (x, mkPrng (rootSeed p) (newNodeRandSeedGenerator p) (newRadioModelRandSeedGenerator p) (failTimeRandGenerator p) r).

(** The failure times are in the range that the dispatcher relies on. *)
Hypothesis source_range : forall seed k, 0 <= source seed k < 2 ^ 63.
Lemma land_le_r v m : 0 <= v -> 0 <= m -> Z.land v m <= m.
Proof.
  intros Hv Hm. rewrite <- (Z2N.id v Hv), <- (Z2N.id m Hm), <- N2Z.inj_land. apply N2Z.inj_le, N.land_le_r.
Qed.
Theorem NewFailTime_range fuel n p x p' : n < 2 ^ 63 -> NewFailTime fuel n p = Ok (x, p') -> 0 <= x < n.
Proof.
  unfold NewFailTime. intros HN E. apply bind_Ok in E as ([y r] & E & [= <- <-]).
  assert (0 <= y < n) as H; [|rewrite Z.mod_small; lia]. revert E. unfold Intn. destruct (Z.leb_spec n 0); [done|].
  assert (forall v, 0 <= v -> 0 <= Z.land v (n - 1) < n) as HL.
  { intros v Hv. pose proof (land_le_r v (n - 1) Hv). split; [apply Z.land_nonneg; by left|lia]. }
  destruct (n <=? 2 ^ 31 - 1), (Z.land n (n - 1) =? 0); cbn.
  - intros [= <- <-]. apply HL, Z.shiftr_nonneg, source_range.
  - intros E. apply bind_Ok in E as ([v q] & E & [= <- <-]). apply Z.mod_pos_bound. lia.
  - intros [= <- <-]. apply HL, source_range.
  - intros E. apply bind_Ok in E as ([v q] & E & [= <- <-]). apply Z.mod_pos_bound. lia.
Qed.

Inductive Draw := DrawNode | DrawModel | DrawFail (max : Z) | DrawUnit.
(** The node seeds that a sequence of draws returns. *)
Fixpoint node_seeds (fuel : nat) (ds : list Draw) (p : Prng) : res (list Z) :=
  match ds with
  | [] => Ok []
  | DrawNode :: ds => let '(x, p) := NewNodeRandomSeed p in xs ← node_seeds fuel ds p; Ok (x :: xs)
  | DrawModel :: ds => node_seeds fuel ds (snd (NewRadioModelRandomSeed p))
  | DrawFail n :: ds => '(_, p) ← NewFailTime fuel n p; node_seeds fuel ds p
  | DrawUnit :: ds => '(_, p) ← NewUnitRandom fuel p; node_seeds fuel ds p
  end.
Definition node_draws (ds : list Draw) : nat := length (List.filter (fun d => match d with DrawNode => true | _ => false end) ds).
Lemma node_seeds_from fuel ds p xs : let g := newNodeRandSeedGenerator p in
  node_seeds fuel ds p = Ok xs -> xs = map (fun k => Z.shiftr (source (rd_seed g) k) 32) (seq (rd_drawn g) (node_draws ds)).
Proof.
  revert p xs. induction ds as [|[| |n|] ds IH]; intros p xs g; cbn [node_seeds].
  - by intros [= <-].
  - intros E. apply bind_Ok in E as (ys & E & [= <-]). apply IH in E. cbn. f_equal. exact E.
  - intros E. by apply IH in E.
  - intros E. apply bind_Ok in E as ([x q] & E1 & E). apply IH in E. apply bind_Ok in E1 as ([y r] & _ & [= _ <-]). exact E.
  - intros E. apply bind_Ok in E as ([x q] & E1 & E). apply IH in E. apply bind_Ok in E1 as ([y r] & _ & [= _ <-]). exact E.
Qed.
(** Simulations are reproducible: with a seed given, the [k]-th node gets the [k]-th number of that seed's
    sequence, whatever failures, frames and radio models draw random numbers in between. *)
Theorem node_seeds_reproducible fuel now seed ds xs : seed <> 0 -> node_seeds fuel ds (prng_Init now seed) = Ok xs ->
  xs = map (fun k => Z.shiftr (source seed k) 32) (seq 0 (node_draws ds)).
Proof. intros H E. apply node_seeds_from in E. revert E. unfold prng_Init. by rewrite (proj2 (Z.eqb_neq seed 0) H). Qed.
End draws.

(** ** The listening address *)
(** [strconv.Atoi] with its error.  The value that comes with an error (0, or the bound when the number
    is out of range) is of no use: the caller gives up. *)
Definition Atoi_or (s : string) : Z * bool :=
  match Atoi s with Ok z => (z, true) | Panic _ => (0, false) end.
Definition invalidListenAddr (addr : string) : string :=
  "invalid listen address: " +:+ addr +:+ " (port must be larger than or equal to 9000 and must be a multiple of 10".
(** The host, the port, the id of the simulation, and the error.  The assignment of the port also
    assigns the error, whatever it was before. *)
Definition parseListenAddr (addr : string) : res (string * Z * Z * option string) :=
  let subs := Split addr ":"%char in
  host ← index subs 0;
  p ← index subs 1;
  let '(port, ok) := Atoi_or p in
  let err := if (ok : bool) then None else Some (invalidListenAddr addr) in
  let err := if (port <? InitialDispatcherPort) || negb (Z.rem port 10 =? 0) then Some (invalidListenAddr addr) else err in
  Ok (host, port, Z.quot (port - InitialDispatcherPort) 10, err).
Definition validateArgs (a : MainArgs) : option string :=
  if a_Realtime a && negb (a_RandomSeed a =? 0) then
    Some "-realtime cannot be combined with -seed: real-time simulations with external/Posix nodes are not fully reproducible"
  else None.
Definition getOtnsLogFileName (a : MainArgs) (simId : Z) : string := a_OutputDir a +:+ "/" +:+ Itoa simId +:+ "_otns.log".
Definition getOtnsReplayFileName (a : MainArgs) (simId : Z) : string := a_OutputDir a +:+ "/" +:+ Itoa simId +:+ "_otns.replay".

Section main.
Context {env : MainEnv}.

(** The socket of the dispatcher, and whether its name fits into an address of the operating system. *)
Definition socketName (socketDir : string) (socketId : Z) : string := socketDir +:+ "/socket_" +:+ Itoa socketId.
Definition isValidUnixSocketPath (path : string) : bool := (String.length path <? 108)%nat.
(** The name of the socket, or the error that ends the program. *)
Definition newUnixSocket (socketDir : string) (socketId : Z) : string + string :=
  let unixSocketFile := socketName socketDir socketId in
  if isValidUnixSocketPath unixSocketFile then
    match os_Remove unixSocketFile with
    | Some err => inl err
    | None => match net_Listen unixSocketFile with Some err => inl err | None => inr unixSocketFile end
    end
  else inl ("unix socket path too long: " +:+ unixSocketFile).

(** The arguments when no option is given. *)
Definition parseArgs : MainArgs :=
  let cli := os_Getenv "OTNS_OT_CLI" in
  let mtd := os_Getenv "OTNS_OT_CLI_MTD" in
  let '(defaultOtCli, defaultOtCliMtd) :=
    if String.eqb cli "" && String.eqb mtd "" then (ex_Ftd DefaultExecutableConfig, ex_Mtd DefaultExecutableConfig)
    else if String.eqb mtd "" then (cli, cli)
    else if String.eqb cli "" then (ex_Ftd DefaultExecutableConfig, mtd)
    else (cli, mtd) in
  mkArgs "1" defaultOtCli defaultOtCliMtd "" true false "warn" true "debug" "off" true false
    ("localhost:" +:+ Itoa InitialDispatcherPort) false FrameTypeWpanStr false 0 false DefaultOutputDir "lo".

Definition ReadNodeScript (fn : string) : string + YamlScriptConfig :=
  match os_ReadFile fn with
  | inl err => inl ("could not load script config file '" +:+ fn +:+ "': " +:+ err)
  | inr b =>
    match yaml_scripts b with
    | inl err => inl ("error in YAML file: " +:+ err)
    | inr scripts => inr scripts
    end
  end.

(** ** Configurations *)
(** [DefaultConfig] of the simulation, without what the model does not use. *)
Definition DefaultConfig : SimConfig :=
  mkSimConfig (mkSimInfo 0 DefaultOutputDir (socketName DefaultOutputDir 0)) false true 1%float false DefaultNodeConfig DefaultNodeScripts
    DefaultExecutableConfig DefaultExecutableConfig.
(** [DefaultConfig] of the dispatcher. *)
Definition DefaultDispatcherConfig : Config := mkConfig false false true false false true 1%float.
Definition set_log_if (logFile : bool) (netIf : string) (c : NodeConfig) : NodeConfig := {|
  nc_ID := nc_ID c; nc_Type := nc_Type c; nc_Version := nc_Version c; nc_X := nc_X c; nc_Y := nc_Y c; nc_Z := nc_Z c;
  nc_IsAutoPlaced := nc_IsAutoPlaced c; nc_IsRaw := nc_IsRaw c; nc_IsMtd := nc_IsMtd c; nc_IsRcp := nc_IsRcp c;
  nc_IsRouter := nc_IsRouter c; nc_IsBorderRouter := nc_IsBorderRouter c; nc_IsExternal := nc_IsExternal c;
  nc_RxOffWhenIdle := nc_RxOffWhenIdle c; nc_NodeLogFile := logFile; nc_RadioRange := nc_RadioRange c;
  nc_ExecutablePath := nc_ExecutablePath c; nc_HostExePath := nc_HostExePath c; nc_NetIfName := netIf;
  nc_Restore := nc_Restore c; nc_InitScript := nc_InitScript c; nc_RandomSeed := nc_RandomSeed c;
  nc_RfSimParams := nc_RfSimParams c |}.

(** The configurations and the type of the capture file, an error that ends the program with a
    message of the log, or one that ends it at once. *)
Inductive Outcome :=
| Configured (cfg : SimConfig) (dispatcherCfg : Config) (pcapFrameType : Z)
| Failed (err : string)
| Quit (err : string).
Definition invalidLevel (level : string) : string := "invalid log level string: " +:+ level.
Definition parseSpeed (speed : string) : string + float :=
  let speed := ToLower speed in if String.eqb speed "max" then inr MaxSimulateSpeed else ParseFloat speed.
Definition readScripts (name : string) : string + YamlScriptConfig :=
  if String.eqb name "" then inr DefaultNodeScripts
  else if String.eqb name "none" then inr (mkScripts "" "" "" "" "" "" "")
  else ReadNodeScript name.
Definition createConfig (a : MainArgs) (simId : Z) : Outcome :=
  let '(_, bad) := ParseLevelString (a_LogLevel a) in
  if (bad : bool) then Failed (invalidLevel (a_LogLevel a)) else
  let '(_, bad) := ParseLevelString (a_LogNodeLevel a) in
  if (bad : bool) then Failed (invalidLevel (a_LogNodeLevel a)) else
  let logFile := if String.eqb (a_LogNodeLevel a) NoneLevelString || String.eqb (a_LogNodeLevel a) OffLevelString then false
    else nc_NodeLogFile DefaultNodeConfig in
  let d := DefaultExecutableConfig in
  let exe := mkExe (ex_Version d) (a_OtCliPath a) (a_OtCliMtdPath a) (ex_Br d) (ex_OtBr d) (ex_Matter d) (ex_Rcp d) (ex_RcpHost d) (ex_SearchPaths d) in
  match parseSpeed (a_Speed a) with
  | inl err => Failed err
  | inr speed =>
    match readScripts (a_InitScriptName a) with
    | inl err => Failed err
    | inr scripts =>
      let frameType := ParseFrameTypeStr (a_PcapType a) in
      if frameType =? FrameTypeUnknown then
        Quit ("unknown PCAP frame type '" +:+ a_PcapType a +:+ "', use -h flag for an overview")
      else
        let '(watchLevel, bad) := ParseLevelString (a_WatchLevel a) in
        if (bad : bool) then Failed (invalidLevel (a_WatchLevel a)) else
        Configured
          (mkSimConfig (mkSimInfo simId (a_OutputDir a) (socketName (a_OutputDir a) simId)) (a_Realtime a) (a_AutoGo a) speed
             (a_DumpPackets a) (set_log_if logFile (a_OtBrBackboneIfName a) DefaultNodeConfig) scripts exe d)
          (mkConfig (cfg_Realtime DefaultDispatcherConfig) (cfg_DumpPackets DefaultDispatcherConfig)
             (negb (String.eqb (a_PcapType a) FrameTypeOffStr)) (watchLevel >? OffLevel) (a_PhyTxStats a) (negb bad) (cfg_Speed DefaultDispatcherConfig))
          frameType
    end
  end.
(** [createSimulation]: the simulation, or why there is none.  A capture file that cannot be created is a
    panic. *)
Definition createSimulation {senv : SimEnv} {M : Type} `{!RadioModel M} (a : MainArgs) (simId : Z) (model : M) : res (Outcome + Sim M) :=
  match createConfig a simId with
  | Configured cfg dcfg ty =>
    s ← NewSimulation cfg dcfg model 0;
    match newUnixSocket (si_OutputDir (cf_info cfg)) (si_Id (cf_info cfg)) with
    | inl err => Ok (inl (Quit err))
    | inr _ => if cfg_PcapEnabled dcfg && bool_decide (pcap_NewFile <> None) then Panic Panicf else Ok (inr s)
    end
  | o => Ok (inl o)
  end.
(** The first part of [Main]: the arguments are checked, the output directory is made, the random numbers are
    seeded and the simulation is created. *)
Definition Main {senv : SimEnv} {M : Type} `{!RadioModel M} (a : MainArgs) (model : M) : res (Outcome + (Prng * Sim M)) :=
  match validateArgs a with
  | Some err => Ok (inl (Quit err))
  | None =>
    match os_MkdirAll (a_OutputDir a) with
    | Some err => Ok (inl (Quit err))
    | None =>
      '(_, _, simId, err) ← parseListenAddr (a_ListenAddr a);
      match err with
      | Some err => Ok (inl (Quit err))
      | None =>
        let prng := prng_Init time_UnixNano (a_RandomSeed a) in
        r ← createSimulation a simId model;
        Ok (match r with inl o => inl o | inr s => inr (prng, s) end)
      end
    end
  end.
End main.

(** ** The address *)
Lemma parseListenAddr_ok addr host port id : parseListenAddr addr = Ok (host, port, id, None) ->
  0 <= id /\ port = InitialDispatcherPort + 10 * id.
Proof.
  unfold parseListenAddr. intros E. apply bind_Ok in E as (h & _ & E). apply bind_Ok in E as (p & _ & E).
  destruct (Atoi_or p) as [q ok]. destruct (Z.ltb_spec q InitialDispatcherPort); [by destruct ok|].
  destruct (Z.eqb_spec (Z.rem q 10) 0); cbn in E; [|by destruct ok]. destruct ok; [|done]. injection E as _ <- <-.
  unfold InitialDispatcherPort in *. Z.to_euclidean_division_equations. lia.
Qed.
(** Two simulations whose addresses are accepted and have different ids use different ports: each uses
    its port and the three before it. *)
Theorem ports_disjoint addr addr' host host' port port' id id' i j :
  parseListenAddr addr = Ok (host, port, id, None) -> parseListenAddr addr' = Ok (host', port', id', None) -> id <> id' ->
  0 <= i <= 3 -> 0 <= j <= 3 -> port - i <> port' - j.
Proof. intros [_ ->]%parseListenAddr_ok [_ ->]%parseListenAddr_ok H. lia. Qed.
(** An address with a part too many is accepted, because the error is overwritten; one without a port
    is not refused but ends the program with a panic. *)
Example listen_addr_accepted : parseListenAddr "localhost:9010:junk" = Ok ("localhost", 9010, 1, None).
Proof. vm_compute. reflexivity. Qed.
Example listen_addr_panics : parseListenAddr "localhost" = Panic IndexOutOfRange.
Proof. vm_compute. reflexivity. Qed.
Example listen_addr_refused : map (fun a => snd <$> parseListenAddr a) ["localhost:8990"; "localhost:9001"; "localhost:x"] =
  map (fun a => Ok (Some (invalidListenAddr a))) ["localhost:8990"; "localhost:9001"; "localhost:x"].
Proof. vm_compute. reflexivity. Qed.

(** ** The start *)
Section start.
Context {env : MainEnv} {senv : SimEnv} {M : Type} `{!RadioModel M}.

(** A simulation whose configuration is made from arguments is created. *)
Lemma NewSimulation_ok cfg dcfg (model : M) rnd :
  exists s, NewSimulation cfg dcfg model rnd = Ok s /\ s_cfg s = cfg /\
    d_cfg (s_d s) = syncDispatcherConfig cfg dcfg /\ d_speed (s_d s) = normalizeSpeed (cfg_Speed (syncDispatcherConfig cfg dcfg)) /\
    s_auto s = NewAutoGo (cf_Realtime cfg) (cf_AutoGo cfg).
Proof.
  unfold NewSimulation, NewDispatcher.
  assert (negb (cfg_Realtime (syncDispatcherConfig cfg dcfg)) || PrimFloat.eqb (cfg_Speed (syncDispatcherConfig cfg dcfg)) 1 = true) as ->
    by (cbn; by destruct (cf_Realtime cfg)).
  eexists. split; [reflexivity|done].
Qed.
Lemma ParseFrameTypeStr_off tp : negb (String.eqb tp FrameTypeOffStr) = negb (ParseFrameTypeStr tp =? FrameTypeOff).
Proof. unfold ParseFrameTypeStr. by repeat (destruct (String.eqb _ _); [done|]). Qed.
Lemma createConfig_parts a simId cfg dcfg ty : createConfig a simId = Configured cfg dcfg ty ->
  cf_Realtime cfg = a_Realtime a /\ si_Id (cf_info cfg) = simId /\ si_OutputDir (cf_info cfg) = a_OutputDir a /\
  ty = ParseFrameTypeStr (a_PcapType a) /\ ty <> FrameTypeUnknown /\ cfg_PcapEnabled dcfg = negb (ty =? FrameTypeOff) /\
  cfg_WatchLevelOk dcfg = true /\ cfg_DefaultWatchOn dcfg = (fst (ParseLevelString (a_WatchLevel a)) >? OffLevel).
Proof.
  unfold createConfig. destruct (ParseLevelString (a_LogLevel a)) as [l1 []]; [done|].
  destruct (ParseLevelString (a_LogNodeLevel a)) as [l2 []]; [done|]. destruct (parseSpeed (a_Speed a)) as [|speed]; [done|].
  destruct (readScripts (a_InitScriptName a)) as [|scripts]; [done|].
  destruct (Z.eqb_spec (ParseFrameTypeStr (a_PcapType a)) FrameTypeUnknown) as [|HU]; [done|].
  destruct (ParseLevelString (a_WatchLevel a)) as [l3 []] eqn:EW; [done|]. intros [= <- <- <-].
  repeat split; [done|]. apply ParseFrameTypeStr_off.
Qed.

End start.

(** No options are given: the default configuration, in a world without files. *)
Definition ex_main_env : MainEnv := {|
  me_fs := ex_fs; os_Getenv := fun _ => ""; ParseFloat := fun _ => inr 1%float; ToLower := fun s => s;
  os_ReadFile := fun _ => inl "no such file"; yaml_scripts := fun _ => inr DefaultNodeScripts; time_UnixNano := 17;
  os_MkdirAll := fun _ => None; os_Remove := fun _ => None; net_Listen := fun _ => None; pcap_NewFile := None |}.
(** The program starts with its defaults, seeded with the time. *)
Example ex_main : let run a := Main (env := ex_main_env) (senv := ex_sim_env) (RadioModel0 := @ideal_model ex_env) a ex_model in
  let kind r := match r with Ok (inr (p, s)) => inr (rootSeed p, si_Id (cf_info (s_cfg s))) | Ok (inl (Quit e)) => inl e | _ => inl "" end in
  let a := parseArgs (env := ex_main_env) in
  kind (run a) = inr (17, 0).
Proof. vm_compute. reflexivity. Qed.
